(* ===== verification/_CoqProject ===== *)
-Q . S2P
Prelude.v
CMem.v
Doubles.v
Kernel.v
Ring.v
SocketInput.v
SocketOutput.v
Log.v
Host.v
Proto.v
Channel.v
Socket.v
Connector.v
ConnectorThread.v
ConnectorManager.v
Server.v
ThreadPool.v
Interleave.v
Listen.v
SizeMap.v
PackedCache.v
PageMap.v
SpanHeap.v
SpanList.v
SystemAlloc.v
MetaData.v
PageHeap.v
SpanSet.v
FreeLists.v
SpanGeometry.v
Coalescing.v
Releasing.v
SpanOps.v
Allocation.v
Growing.v
Inspection.v
PageHeapSpec.v
PageHeapClient.v
CentralFreeList.v
CentralLists.v
CentralSpec.v
CentralCaches.v
CentralFetch.v
CentralInit.v
CentralPool.v
Sampler.v
ObjectPool.v
ThreadCache.v
ThreadLists.v
ThreadMoves.v
ThreadSizes.v
ThreadScavenge.v
ThreadLimits.v
ThreadSpec.v
ThreadRegistry.v
ThreadClient.v
Malloc.v
MallocSizes.v
MallocPages.v
MallocPool.v
MallocBlocks.v
MallocSpec.v
MallocBytes.v
MallocClient.v
MallocLimits.v
Arena.v
AllocWitnesses.v
CentralWitnesses.v
ThreadWitnesses.v
MallocWitnesses.v
Witnesses.v
