(* ===== verification/Prelude.v ===== *)
(** * A verification library for libnetxcq

    libnetxcq is a TCP and UDP server library (under src/: [main_module.cpp],
    [listen/], [connector/], [socket/], [packet/], [user/], [common/], [log/])
    which is linked with a copy of tcmalloc ([libs/tcmalloc/src/]).  The library
    here models both as executable functions and proves them correct.

    ** The server

    [main_module_run] reads flags, creates a [TCPListenService] or a
    [UDPListenService] and starts its loop.  The TCP service accepts connections
    and gives each to a thread of [ConnectorManager]; a [ConnectorThread] polls
    its descriptors with epoll and on an event reads bytes into the ring of
    [SocketInput], parses one frame, lets [User] answer it, and on a later event
    sends what is in the ring of [SocketOutput].  The UDP service hands each
    datagram to a [ThreadPool].

    - [Prelude]: outcomes (a result, an undefined operation, an exception or an
      abort, fuel that ran out), state monads over them, integers of the
      machine ([u32], [to_int], [size_t], [c_add] with its overflow).
    - [CMem], [Ring]: arrays of cells that are uninitialised until written, the
      byte orders, and queues in a ring.
    - [Kernel], [Host]: the socket interface, epoll and the log as classes of
      operations with laws ([SocketLaws], [HostLaws]), and a concrete kernel.
    - [SocketInput], [SocketOutput], [Socket]: socket/*.{h,cpp}.
    - [Log]: log/log.{h,cpp}; [Proto]: packet/connector.pb.{h,cc} over the
      protobuf runtime, a class with laws and an instance.
    - [Channel]: what a connection needs of its socket; [Connector]:
      connector/connector.cpp, user/user.cpp, packet/packet_factory.cpp.
    - [ConnectorThread], [ConnectorManager], [Server]: the thread's loop, the
      choice of the thread, and the connection from bytes to bytes.
    - [ThreadPool], [Interleave]: the pool, and the two threads that share a map
      of connections, as step relations at the granularity of the mutexes.
    - [Listen]: listen/*.cpp and main_module.cpp.

    Theorems: both rings refine queues of bytes and keep within their arrays,
    whatever the kernel answers, except where more bytes arrive between two calls
    than [feed] has made room for ([feed_stream] says when);
    framing and messages round trip; every handler keeps the invariant of the
    thread, unless an event has one of the faults of [event_fault] (such as a receive
    queue that does not start with a whole frame); a ping that the first read of
    its connection takes whole is answered; the pool
    runs each task at most once and stops; the map of connections owns the open
    descriptors, and a read can meet another connection's parse.

    ** The allocator

    - [Doubles]: IEEE arithmetic, for the release rate and the thread ratio.
    - [SizeMap]: common.{h,cc}, the size classes; [PackedCache]:
      packed-cache-inl.h; [PageMap]: pagemap.h, a flat array and a radix tree
      behind one interface; [SpanList]: linked_list.h and the lists of span.cc.
    - [SystemAlloc]: system-alloc.cc over a kernel with laws ([VM], [VMLaws]);
      it implements the interface [SysAlloc].  [MetaData]: [MetaDataAlloc] and
      page_heap_allocator.h, which implement [MetaData] and [ObjAllocator].
    - [PageHeap]: page_heap.{h,cc} over those interfaces, one definition per
      function, every [ASSERT] executed.
    - [SpanSet], [FreeLists], [SpanGeometry], [Coalescing], [Releasing],
      [SpanOps], [Allocation], [Growing], [Inspection]: the invariant of the heap
      and the specification of each operation, by a weakest precondition
      ([FreeLists.wp]); [PageHeapSpec]: the abstract machine of the spans in use,
      and the properties.
    - [SpanHeap]: the interface of the page heap for its clients, a class of
      operations with laws; [PageHeapClient]: the page heap implements it.
    - [CentralFreeList]: central_freelist.{h,cc} and the loop of
      [Static::InitStaticVars], over [SpanHeap].  [CentralLists], [CentralSpec],
      [CentralCaches], [CentralFetch], [CentralInit]: where every object is, the
      invariant, and the specification of each operation; [CentralPool]: the
      abstract machine of the objects clients hold, and the properties.
    - [Sampler]: sampler.{h,cc}, the gap to the next sampled allocation.
      [ObjectPool]: what a thread cache needs of the central lists, a class with
      laws; [CentralPool]: the central lists have them.
    - [ThreadCache]: thread_cache.{h,cc}, a definition per function, over
      [ObjectPool] and [ObjAllocator]; a thread is a number, its local data an
      entry of a map.  [ThreadLists] and [ThreadMoves] say where the objects are,
      [ThreadSizes] and [ThreadScavenge] what the counters are, [ThreadLimits]
      what the list of the caches and their limits are; [ThreadSpec] and
      [ThreadRegistry] have the invariant and the specification of each operation;
      [ThreadClient]: the abstract machine of the objects that threads hold, the
      laws for the clients, and the properties.
    - [Malloc]: tcmalloc.cc, static_vars.{h,cc}: the routines [do_malloc] and so
      on, the fast paths, the exported functions, and [InitStaticVars], over
      the page heap, the central lists and the thread caches as one state.
      [MallocSizes]: the size classes for requests of any size; [MallocPages] and
      [MallocPool]: the central lists beside the spans that requests take from the page heap directly;
      [MallocBlocks]: the blocks of a program, and that they are apart;
      [MallocSpec]: the specification of each routine; [MallocBytes]: the bytes of
      the blocks under [memset], [memcpy] and stores; [MallocClient]: the
      abstract heap of blocks and the theorem about the exported functions;
      [MallocLimits]: new-handlers and alignments.
    - [Arena]: an instance of everything over an arena of 1 GiB, on which runs
      are computed.  [AllocWitnesses], [CentralWitnesses], [ThreadWitnesses],
      [MallocWitnesses], [Witnesses]: for each property with hypotheses, values that
      satisfy them.

    Theorems: every exported function, in every state a program can reach, does a step of
    a heap of disjoint aligned blocks that hold what was asked for and keep their bytes,
    whichever thread frees what another took ([malloc_refines_blocks]).  Below it, each
    layer refines an abstract machine: the page heap the disjoint spans its clients
    have, from its constructor on; the central lists the pool of objects that their
    clients hold; the thread caches the objects that each user holds.  No [ASSERT] fails,
    except the one in [AllocLarge] when a limit is set and the one in [Carve]
    after aggressive decommit has been switched on; searches find a fit and the
    best one; releasing ends and releases what was asked; the consistency check
    passes; the class of an object is found from any address inside it; the
    counters of the caches are exact and their limits make up the overall size; classes
    cover all sizes with bounded waste; the page maps agree; memory from the
    system, and objects of the allocator's own, never overlap.

    ** Fuel and bounds

    Loops that are not structural take fuel: the theorems say how much is enough and
    that the outcome is never [NoFuel] then.  [SocketOutput]: the length of the queue;
    the page heap: 2^30, since there are fewer than 2^30 pages; the central lists:
    2^17, since a chain has at most 2^20 bytes of objects of 8; the thread
    caches: more than 2^17, and more than the 1024 caches there may be; the page maps:
    [pm_enough]; [SizeMap]: 2^31 at most; the loop over new-handlers: one more than the retries,
    whose number nothing bounds, so that only [new_handler_retries] is about it.

    The page heap assumes that less than 2^43 bytes were ever taken from the system
    and that its page map covers the addresses the system gives ([map_covers]), which
    holds for 48 bits of address and pages of 8 KiB.  The thread caches assume at most
    1024 caches at once and lists of at most 8192 objects, which the
    code bounds; the sampled allocations are fewer than 2^31.

    The program of [malloc_refines_blocks] gives back only what it has, tells
    [free_sized] the size it asked for (and uses it only where this is the
    size of the class), asks [memalign] for more than a page only once the
    allocator has been initialised, and has installed no new-handler; hooks do not
    change the allocator.

    ** Not modelled

    The futures of the pool's results, protobuf's reflection, gflags, and the
    example programs.  In tcmalloc: of tcmalloc.cc, the statistics that [MallocExtension]
    and [mallinfo] print, the properties by name, and the dumps of heap samples, which read
    the counters of the modelled parts; emergency malloc, which is compiled out;
    [TCMalloc_PageMap3] and [DevMemSysAllocator], which the build does
    not use; the nodes of [std::set]; locks, since each operation of a thread
    runs to its end; the heap checker, the profiler, the lists of hooks, stack traces and the
    base library, which are interfaces of the system. *)
From stdpp Require Import base numbers list option strings gmap sets fin_maps fin_map_dom.
From Stdlib Require Import ZArith Lia.

Open Scope Z_scope.

(** ** Outcomes of C++ code

    A piece of code either returns, has undefined behaviour (with the reason),
    throws, or exhausts the fuel its loop was given. *)
Inductive ub :=
  | OutOfBounds          (** a read or write outside an allocated block *)
  | SignedOverflow       (** an [int] result outside 32 bits *)
  | DivideByZero
  | NullDeref
  | UninitRead           (** an indeterminate byte is used as a value *)
  | NullFormat           (** a null format string given to [snprintf] *)
  | BadFormat            (** a conversion without an argument of its type *)
  | BadCast              (** an object used at a type it does not have *)
  | FloatToInt.          (** a double outside [int] converted to [int] *)

Inductive exn :=
  | BadArrayNewLength | StdOutOfRange | StdLengthError
  | Aborted              (** ended by a check of the program itself *)
  | OutOfMemory.         (** ended because its own data could not be allocated *)

Inductive outcome (A : Type) :=
  | Ok (a : A)
  | Undefined (u : ub)
  | Throws (e : exn)
  | NoFuel.
Arguments Ok {A} _.
Arguments Undefined {A} _.
Arguments Throws {A} _.
Arguments NoFuel {A}.

#[global] Instance outcome_ret : MRet outcome := λ A a, Ok a.
#[global] Instance outcome_bind : MBind outcome := λ A B f m,
  match m with
  | Ok a => f a
  | Undefined u => Undefined u
  | Throws e => Throws e
  | NoFuel => NoFuel
  end.

(** [ASSERT] and [CHECK_CONDITION], which end the program when they fail. *)
Definition check (c : bool) : outcome unit := if c then Ok tt else Throws Aborted.

Definition is_ok {A} (o : outcome A) : bool :=
  match o with Ok _ => true | _ => false end.

(** ** Code that reads and changes the world

    [M W A] is code that runs in a world [W] (the kernel, the log, ...). *)
Definition M (W A : Type) : Type := W → outcome (A * W).

#[global] Instance M_ret {W} : MRet (M W) := λ A a w, Ok (a, w).
#[global] Instance M_bind {W} : MBind (M W) := λ A B f m w,
  match m w with
  | Ok (a, w') => f a w'
  | Undefined u => Undefined u
  | Throws e => Throws e
  | NoFuel => NoFuel
  end.

(** Pure code and system calls (which never fail by themselves) as [M]. *)
Definition lift {W A} (o : outcome A) : M W A := λ w,
  match o with
  | Ok a => Ok (a, w)
  | Undefined u => Undefined u
  | Throws e => Throws e
  | NoFuel => NoFuel
  end.
Definition call {W A} (f : W → A * W) : M W A := λ w, Ok (f w).
Definition act {W} (f : W → W) : M W unit := λ w, Ok (tt, f w).
Definition gets {W A} (f : W → A) : M W A := λ w, Ok (f w, w).

Lemma lift_ok {W A} (a : A) : lift (W := W) (Ok a) = mret a.
Proof. reflexivity. Qed.

Lemma M_bind_ok {W A B} (m : M W A) (f : A → M W B) (w w' : W) (a : A) :
  m w = Ok (a, w') → (m ≫= f) w = f a w'.
Proof. intros H. unfold mbind, M_bind. by rewrite H. Qed.

Lemma M_bind_inv {W A B} (m : M W A) (f : A → M W B) (w w'' : W) (b : B) :
  (m ≫= f) w = Ok (b, w'') →
  ∃ a w', m w = Ok (a, w') ∧ f a w' = Ok (b, w'').
Proof. unfold mbind, M_bind. destruct (m w) as [[a w']| | |]; naive_solver. Qed.

(** Steps through a computation in the monad, one statement at a time. *)
Lemma M_bind_ret {W A B} (a : A) (f : A → M W B) w : (mret a ≫= f) w = f a w.
Proof. reflexivity. Qed.
Lemma M_bind_lift {W A B} (a : A) (f : A → M W B) w : (lift (Ok a) ≫= f) w = f a w.
Proof. reflexivity. Qed.
Lemma M_bind_undefined {W A B} (m : M W A) (f : A → M W B) w u :
  m w = Undefined u → (m ≫= f) w = Undefined u.
Proof. intros H. unfold mbind, M_bind. by rewrite H. Qed.
Lemma M_bind_throws {W A B} (m : M W A) (f : A → M W B) w e :
  m w = Throws e → (m ≫= f) w = Throws e.
Proof. intros H. unfold mbind, M_bind. by rewrite H. Qed.
Lemma M_bind_call {W A B} (g : W → A * W) (f : A → M W B) w :
  (call g ≫= f) w = f (g w).1 (g w).2.
Proof. unfold call, mbind, M_bind. by destruct (g w). Qed.

(** *** Frame conditions

    [keeps P m]: whenever [m] returns, [P] holds of the world afterwards if it
    did before.  A routine keeps whatever its system calls keep. *)
Definition keeps {W A} (P : W → Prop) (m : M W A) : Prop :=
  ∀ w a w', P w → m w = Ok (a, w') → P w'.

Section keeps.
Context {W : Type} (P : W → Prop).

Lemma keeps_ret {A} (a : A) : keeps P (mret a).
Proof. by intros w a' w' Hw [= _ <-]. Qed.
Lemma keeps_lift {A} (o : outcome A) : keeps P (lift o).
Proof. intros w a w' Hw. unfold lift. destruct o; [by intros [= _ <-]|done..]. Qed.
Lemma keeps_call {A} (f : W → A * W) : (∀ w, P w → P (f w).2) → keeps P (call f).
Proof. intros Hf w a w' Hw [= E]. specialize (Hf w Hw). by rewrite E in Hf. Qed.
Lemma keeps_act (f : W → W) : (∀ w, P w → P (f w)) → keeps P (act f).
Proof. intros Hf w a w' Hw [= _ <-]. by apply Hf. Qed.
Lemma keeps_bind {A B} (m : M W A) (f : A → M W B) :
  keeps P m → (∀ a, keeps P (f a)) → keeps P (m ≫= f).
Proof.
  intros Hm Hf w b w' Hw E. apply M_bind_inv in E as (a & w1 & E1 & E2).
  exact (Hf a _ _ _ (Hm _ _ _ Hw E1) E2).
Qed.
End keeps.

Create HintDb keeps.
#[export] Hint Resolve keeps_ret keeps_lift : keeps.

(** Walks through a routine down to its system calls. *)
Ltac keep :=
  repeat first
    [ progress eauto with keeps nocore
    | apply keeps_bind; [|intros ?]
    | apply keeps_call; intros | apply keeps_act; intros
    | match goal with
      | |- keeps _ (match ?x with _ => _ end) => destruct x
      end ].

(** *** Weakest preconditions

    The program may end because it has no memory for its own data, and, where
    [ab] holds, because an assertion fails. *)
Definition wp {H A : Type} (ab : Prop) (m : M H A) (Q : A → H → Prop) (h : H) : Prop :=
  match m h with
  | Ok (a, h') => Q a h'
  | Throws OutOfMemory => True
  | Throws Aborted => ab
  | _ => False
  end.

Section wp.
Context {H : Type} (ab : Prop).
Lemma wp_bind {A B} (m : M H A) (f : A → M H B) Q h :
  wp ab m (λ a h', wp ab (f a) Q h') h → wp ab (m ≫= f) Q h.
Proof. unfold wp, mbind, M_bind. by destruct (m h) as [[]| |[]|]. Qed.
Lemma wp_bind_inv {A B} (m : M H A) (f : A → M H B) Q h :
  wp ab (m ≫= f) Q h → wp ab m (λ a h', wp ab (f a) Q h') h.
Proof. unfold wp, mbind, M_bind. by destruct (m h) as [[]| | |]. Qed.
Lemma wp_ret {A} (a : A) (Q : A → H → Prop) h : Q a h → wp ab (mret a) Q h.
Proof. done. Qed.
Lemma wp_mono {A} (m : M H A) (Q R : A → H → Prop) h :
  wp ab m Q h → (∀ a h', Q a h' → R a h') → wp ab m R h.
Proof. unfold wp. destruct (m h) as [[]| |[]|]; auto. Qed.
Lemma wp_eq {A} (m : M H A) (Q : A → H → Prop) h : wp ab m Q h → wp ab m (λ a h', m h = Ok (a, h') ∧ Q a h') h.
Proof. unfold wp. by destruct (m h) as [[]| |[]|]. Qed.
Lemma wp_lift {A} (o : outcome A) a (Q : A → H → Prop) h : o = Ok a → Q a h → wp ab (lift o) Q h.
Proof. by intros ->. Qed.
Lemma wp_act (f : H → H) (Q : () → H → Prop) h : Q tt (f h) → wp ab (act f) Q h.
Proof. done. Qed.
Lemma wp_if {A} (c : bool) (m n : M H A) Q h :
  (c = true → wp ab m Q h) → (c = false → wp ab n Q h) → wp ab (if c then m else n) Q h.
Proof. destruct c; auto. Qed.
Lemma wp_gets {A} (f : H → A) (Q : A → H → Prop) h : Q (f h) h → wp ab (gets f) Q h.
Proof. done. Qed.
Lemma wp_check (c : bool) (Q : () → H → Prop) h : c = true → Q tt h → wp ab (lift (check c)) Q h.
Proof. by intros ->. Qed.
End wp.

(** ** Machine integers *)
Definition INT_MIN : Z := -2147483648.
Definition INT_MAX : Z := 2147483647.

(** The result of an [int] expression: overflow is undefined behaviour. *)
Definition i32 (z : Z) : outcome Z :=
  if (INT_MIN <=? z) && (z <=? INT_MAX) then Ok z else Undefined SignedOverflow.

(** Conversions to the unsigned types, which wrap. *)
Definition u16 (z : Z) : Z := z mod 2 ^ 16.
Definition u32 (z : Z) : Z := z mod 2 ^ 32.
Definition size_t (z : Z) : Z := z mod 2 ^ 64.

(** Conversion of an unsigned 32-bit value to [int] (two's complement). *)
Definition to_int (z : Z) : Z :=
  let r := z mod 2 ^ 32 in if r <? 2 ^ 31 then r else r - 2 ^ 32.

(** C's [/] and [%] truncate; division by zero is undefined. *)
Definition c_rem (a b : Z) : outcome Z :=
  if b =? 0 then Undefined DivideByZero else Ok (Z.rem a b).

Lemma to_int_small z : 0 ≤ z ≤ INT_MAX → to_int z = z.
Proof.
  intros Hz. unfold to_int, INT_MAX in *. rewrite Z.mod_small by lia.
  by rewrite (proj2 (Z.ltb_lt _ _)) by lia.
Qed.

Lemma i32_ok z : INT_MIN ≤ z ≤ INT_MAX → i32 z = Ok z.
Proof. intros H. unfold i32. by rewrite !(proj2 (Z.leb_le _ _)) by lia. Qed.

Lemma i32_inv z r : i32 z = Ok r → r = z ∧ INT_MIN ≤ z ≤ INT_MAX.
Proof. unfold i32. destruct (_ && _) eqn:E; [|done]. intros [= <-]. lia. Qed.

Lemma size_t_nonneg z : 0 ≤ z ≤ INT_MAX → size_t z = z.
Proof. intros. unfold size_t, INT_MAX in *. apply Z.mod_small. lia. Qed.

Lemma size_t_neg z : INT_MIN ≤ z < 0 → size_t z = z + 2 ^ 64.
Proof.
  intros. unfold size_t, INT_MIN in *.
  rewrite <- (Z.mod_small (z + 2 ^ 64) (2 ^ 64)) by lia.
  rewrite <- (Z.mod_add z 1) by lia. f_equal.
Qed.

Lemma c_rem_ok a b : 0 ≤ a → 0 < b → c_rem a b = Ok (a mod b).
Proof.
  intros. unfold c_rem. rewrite (proj2 (Z.eqb_neq _ _)) by lia.
  by rewrite Z.rem_mod_nonneg by lia.
Qed.

(** ** Arrays as lists indexed by [Z] *)
Section slices.
Context {A : Type}.
Implicit Types (l d : list A).

(** The number of elements, as an integer. *)
Definition zlen l : Z := Z.of_nat (length l).

(** [n] elements from [off], and the array with [d] written at [off]. *)
Definition slice l (off n : Z) : list A :=
  take (Z.to_nat n) (drop (Z.to_nat off) l).
Definition splice l (off : Z) d : list A :=
  take (Z.to_nat off) l ++ d ++ drop (Z.to_nat off + length d) l.

Lemma zlen_nonneg l : 0 ≤ zlen l.
Proof. unfold zlen. lia. Qed.

Lemma zlen_nil : zlen (@nil A) = 0.
Proof. reflexivity. Qed.

Lemma zlen_app l d : zlen (l ++ d) = zlen l + zlen d.
Proof. unfold zlen. rewrite length_app. lia. Qed.

Lemma zlen_replicate n (x : A) : zlen (replicate n x) = Z.of_nat n.
Proof. unfold zlen. by rewrite length_replicate. Qed.

Lemma zlen_0_nil l : zlen l = 0 → l = [].
Proof. destruct l; [done|]. unfold zlen. simpl. lia. Qed.

Lemma zlen_slice l off n :
  0 ≤ off → 0 ≤ n → off + n ≤ zlen l → zlen (slice l off n) = n.
Proof. unfold zlen, slice. intros. rewrite length_take, length_drop. lia. Qed.

Lemma zlen_splice l off d :
  0 ≤ off → off + zlen d ≤ zlen l → zlen (splice l off d) = zlen l.
Proof.
  unfold zlen, splice. intros.
  rewrite !length_app, length_take, length_drop. lia.
Qed.

Lemma lookup_slice l off n i :
  slice l off n !! i =
  if decide (Z.of_nat i < n) then l !! (Z.to_nat off + i)%nat else None.
Proof.
  unfold slice. case_decide.
  - rewrite lookup_take_lt by lia. by rewrite lookup_drop.
  - apply lookup_take_ge. lia.
Qed.

Lemma lookup_splice l off d i :
  0 ≤ off → off + zlen d ≤ zlen l →
  splice l off d !! i =
  if decide (Z.of_nat i < off) then l !! i
  else if decide (Z.of_nat i < off + zlen d) then d !! (i - Z.to_nat off)%nat
  else l !! i.
Proof.
  unfold zlen, splice. intros. repeat case_decide.
  - rewrite lookup_app_l by (rewrite length_take; lia).
    by rewrite lookup_take_lt by lia.
  - rewrite lookup_app_r by (rewrite length_take; lia).
    rewrite length_take, lookup_app_l by lia. f_equal. lia.
  - rewrite lookup_app_r by (rewrite length_take; lia).
    rewrite length_take, lookup_app_r, lookup_drop by lia. f_equal. lia.
Qed.

Lemma lookup_app_if l d i :
  (l ++ d) !! i =
  if decide (Z.of_nat i < zlen l) then l !! i
  else d !! (i - Z.to_nat (zlen l))%nat.
Proof.
  unfold zlen. case_decide.
  - by rewrite lookup_app_l by lia.
  - rewrite lookup_app_r by lia. f_equal. lia.
Qed.

Lemma lookup_out l i : zlen l ≤ Z.of_nat i → l !! i = None.
Proof. unfold zlen. intros. apply lookup_ge_None. lia. Qed.

Lemma slice_0_all l n : n = zlen l → slice l 0 n = l.
Proof.
  intros ->. unfold slice, zlen.
  by rewrite Nat2Z.id, drop_0, take_ge by done.
Qed.

Lemma slice_nil l off n : n ≤ 0 → slice l off n = [].
Proof. intros. unfold slice. by replace (Z.to_nat n) with 0%nat by lia. Qed.

Lemma slice_app_slice l off n m :
  0 ≤ off → 0 ≤ n → 0 ≤ m →
  slice l off n ++ slice l (off + n) m = slice l off (n + m).
Proof.
  intros. unfold slice.
  rewrite Z2Nat.inj_add, Z2Nat.inj_add by lia.
  rewrite <- drop_drop. by rewrite take_take_drop.
Qed.

Lemma Forall_slice (P : A → Prop) l off n : Forall P l → Forall P (slice l off n).
Proof. intros. by apply Forall_take, Forall_drop. Qed.
End slices.

#[global] Arguments zlen : simpl never.
#[global] Arguments slice : simpl never.
#[global] Arguments splice : simpl never.

Lemma zlen_fmap {A B} (f : A → B) (l : list A) : zlen (f <$> l) = zlen l.
Proof. unfold zlen. by rewrite length_fmap. Qed.

Lemma zlen_cons {A} (x : A) (l : list A) : zlen (x :: l) = 1 + zlen l.
Proof. unfold zlen. simpl. lia. Qed.

Create Rewrite HintDb zlen.
#[export] Hint Rewrite @zlen_nil @zlen_app @zlen_replicate @zlen_fmap @zlen_cons : zlen.
#[export] Hint Rewrite @zlen_slice @zlen_splice using lia : zlen.

(** Two arrays are equal when they agree at every index: the proof compares
    look-ups, splitting on every bound it meets. *)
Ltac zlen_facts :=
  repeat match goal with
  | |- context [zlen ?l] =>
      lazymatch goal with
      | _ : 0 ≤ zlen l |- _ => fail
      | _ => pose proof (zlen_nonneg l)
      end
  | _ : context [zlen ?l] |- _ =>
      lazymatch goal with
      | _ : 0 ≤ zlen l |- _ => fail
      | _ => pose proof (zlen_nonneg l)
      end
  end.

Ltac zlia := zlen_facts; autorewrite with zlen in *; zlen_facts; lia.

Ltac lookups :=
  repeat first
    [ rewrite lookup_app_if | rewrite lookup_slice
    | rewrite lookup_splice by zlia
    | rewrite !(zlen_slice, zlen_splice) by zlia
    | case_decide ].

Ltac list_ext :=
  apply list_eq; intros ?i; lookups;
  try reflexivity; try (exfalso; zlia);
  try (f_equal; zlia);
  try (rewrite !lookup_out by zlia; reflexivity).

(** Linear arithmetic with division and remainder by constants. *)
Ltac zdiv := Z.to_euclidean_division_equations; lia.

(** Decides the integer comparisons of the goal (and of a hypothesis) that
    linear arithmetic settles. *)
Ltac zbool :=
  repeat match goal with
  | |- context [?a <? ?b] =>
      first [ rewrite (proj2 (Z.ltb_lt a b)) by zlia
            | rewrite (proj2 (Z.ltb_ge a b)) by zlia ]
  | |- context [?a <=? ?b] =>
      first [ rewrite (proj2 (Z.leb_le a b)) by zlia
            | rewrite (proj2 (Z.leb_gt a b)) by zlia ]
  | |- context [?a =? ?b] =>
      first [ rewrite (proj2 (Z.eqb_eq a b)) by zlia
            | rewrite (proj2 (Z.eqb_neq a b)) by zlia ]
  end.

(** Splits on the integer comparisons of a goal or a hypothesis, keeping the
    arithmetic fact of each branch. *)
Ltac zcase :=
  match goal with
  | |- context [?a <? ?b] => destruct (Z.ltb_spec a b)
  | |- context [?a <=? ?b] => destruct (Z.leb_spec a b)
  | |- context [?a =? ?b] => destruct (Z.eqb_spec a b)
  | _ : context [?a <? ?b] |- _ => destruct (Z.ltb_spec a b)
  | _ : context [?a <=? ?b] |- _ => destruct (Z.leb_spec a b)
  | _ : context [?a =? ?b] |- _ => destruct (Z.eqb_spec a b)
  end.
Ltac zcases := repeat (zcase; try (exfalso; zlia); cbn [andb orb negb] in *).

(** Elements of arrays; reading or writing outside them is undefined. *)
Definition arr_get {A} (l : list A) (i : Z) : outcome A :=
  if 0 <=? i then match l !! Z.to_nat i with Some a => Ok a | None => Undefined OutOfBounds end
  else Undefined OutOfBounds.
Definition arr_set {A} (l : list A) (i : Z) (a : A) : outcome (list A) :=
  if (0 <=? i) && (i <? zlen l) then Ok (<[Z.to_nat i := a]> l) else Undefined OutOfBounds.

Lemma arr_get_ok {A} (l : list A) i a : 0 ≤ i → l !! Z.to_nat i = Some a → arr_get l i = Ok a.
Proof. intros. unfold arr_get. zbool. by rewrite H0. Qed.
Lemma arr_get_inv {A} (l : list A) i a :
  arr_get l i = Ok a → 0 ≤ i < zlen l ∧ l !! Z.to_nat i = Some a.
Proof.
  unfold arr_get, zlen. zcase; [|done]. destruct (l !! Z.to_nat i) eqn:E; [|done].
  intros [= <-]. apply lookup_lt_Some in E as ?. split; [lia|done].
Qed.
Lemma arr_get_total `{Inhabited A} (l : list A) i :
  0 ≤ i < zlen l → arr_get l i = Ok (l !!! Z.to_nat i).
Proof.
  unfold zlen. intros Hi. apply arr_get_ok; [lia|]. apply list_lookup_lookup_total_lt. lia.
Qed.
Lemma zlen_insert {A} (l : list A) i a : zlen (<[i := a]> l) = zlen l.
Proof. unfold zlen. by rewrite length_insert. Qed.
Lemma lookup_total_insert_if `{Inhabited A} (l : list A) i j a :
  0 ≤ i < zlen l → 0 ≤ j →
  <[Z.to_nat i := a]> l !!! Z.to_nat j = if decide (i = j) then a else l !!! Z.to_nat j.
Proof.
  unfold zlen. intros. case_decide as E.
  - subst. apply list_lookup_total_insert_eq. lia.
  - apply list_lookup_total_insert_ne. lia.
Qed.
Lemma arr_set_ok {A} (l : list A) i a : 0 ≤ i < zlen l → arr_set l i a = Ok (<[Z.to_nat i := a]> l).
Proof. intros. unfold arr_set. by zbool. Qed.

(** How a slice sees a write that ends where the slice ends, lies entirely
    after it, or entirely before it; and how a write to a concatenation acts. *)
Section slice_splice.
Context {A : Type}.
Implicit Types (l d : list A).

Lemma slice_splice_disjoint l off n o d :
  0 ≤ o → o + zlen d ≤ zlen l → 0 ≤ off →
  off + n ≤ o ∨ o + zlen d ≤ off →
  slice (splice l o d) off n = slice l off n.
Proof. intros. list_ext. Qed.

Lemma slice_splice_end l off n o d :
  0 ≤ off ≤ o → o + zlen d ≤ zlen l → off + n = o + zlen d →
  slice (splice l o d) off n = slice l off (o - off) ++ d.
Proof. intros. list_ext. Qed.

Lemma slice_app_l l d off n :
  0 ≤ off → off + n ≤ zlen l → slice (l ++ d) off n = slice l off n.
Proof. intros. list_ext. Qed.

Lemma slice_slice l off n o m :
  0 ≤ off → 0 ≤ o → o + m ≤ n →
  slice (slice l off n) o m = slice l (off + o) m.
Proof. intros. list_ext. Qed.

Lemma splice_nil_id l off : 0 ≤ off → splice l off [] = l.
Proof. intros. unfold splice. simpl. by rewrite Nat.add_0_r, take_drop. Qed.

Lemma slice_split l off n m :
  0 ≤ off → 0 ≤ m ≤ n →
  slice l off n = slice l off m ++ slice l (off + m) (n - m).
Proof. intros. rewrite slice_app_slice by lia. f_equal. lia. Qed.

Lemma take_slice l off n m :
  0 ≤ off → 0 ≤ m ≤ n → take (Z.to_nat m) (slice l off n) = slice l off m.
Proof. intros. unfold slice. rewrite take_take. f_equal. lia. Qed.

Lemma drop_slice l off n m :
  0 ≤ off → 0 ≤ m ≤ n →
  drop (Z.to_nat m) (slice l off n) = slice l (off + m) (n - m).
Proof.
  intros. unfold slice. rewrite skipn_firstn_comm, drop_drop.
  f_equal; [|f_equal]; lia.
Qed.

(** Two consecutive writes at the start of a block fill it in order. *)
Lemma splice_splice_seq l off d1 d2 :
  0 ≤ off → off + zlen d1 + zlen d2 ≤ zlen l →
  splice (splice l off d1) (off + zlen d1) d2 = splice l off (d1 ++ d2).
Proof. intros. list_ext. Qed.

Lemma splice_0_all l d : zlen d = zlen l → splice l 0 d = d.
Proof.
  unfold zlen, splice. intros. simpl. rewrite drop_ge by lia. by rewrite app_nil_r.
Qed.
End slice_splice.

(** ** Sums over finite maps *)
Section sums.
Context {A : Type}.
Implicit Types (f g : Z → A → Z) (m : gmap Z A).
Definition wsum f m : Z := map_fold (λ p s n, f p s + n) 0 m.

Lemma wsum_empty f : wsum f ∅ = 0.
Proof. apply map_fold_empty. Qed.
Lemma wsum_insert f m p s : m !! p = None → wsum f (<[p := s]> m) = f p s + wsum f m.
Proof. intros Hp. unfold wsum. rewrite map_fold_insert_L; [done|lia|done]. Qed.
Lemma wsum_delete f m p s : m !! p = Some s → wsum f m = f p s + wsum f (delete p m).
Proof.
  intros Hp. rewrite <- wsum_insert by apply lookup_delete_eq. by rewrite insert_delete_id.
Qed.
Lemma wsum_ext f g m : (∀ p s, m !! p = Some s → f p s = g p s) → wsum f m = wsum g m.
Proof.
  induction m as [|p s m Hp IH] using map_ind; [by rewrite !wsum_empty|]. intros Hfg.
  rewrite !wsum_insert by done. rewrite (Hfg p s) by apply lookup_insert_eq. f_equal. apply IH.
  intros q t Hq. apply Hfg. rewrite lookup_insert_ne; [done|]. congruence.
Qed.
(** A change at one span. *)
Lemma wsum_change f g m p s s' : m !! p = Some s →
  (∀ q t, q ≠ p → m !! q = Some t → g q t = f q t) →
  wsum g (<[p := s']> m) = wsum f m - f p s + g p s'.
Proof.
  intros Hp Hfg. rewrite (wsum_delete f m p s Hp), <- insert_delete_eq.
  rewrite wsum_insert by apply lookup_delete_eq.
  rewrite (wsum_ext g f (delete p m)); [lia|]. intros q t Hq.
  apply lookup_delete_Some in Hq as [? Hq]. by apply Hfg.
Qed.
Lemma wsum_le f g m : (∀ p s, m !! p = Some s → f p s ≤ g p s) → wsum f m ≤ wsum g m.
Proof.
  induction m as [|p s m Hp IH] using map_ind; [by rewrite !wsum_empty|]. intros Hfg.
  rewrite !wsum_insert by done. pose proof (Hfg p s ltac:(apply lookup_insert_eq)).
  assert (wsum f m ≤ wsum g m); [|lia]. apply IH. intros q t Hq. apply Hfg.
  rewrite lookup_insert_ne; [done|]. congruence.
Qed.
Lemma wsum_plus f g m : wsum (λ p s, f p s + g p s) m = wsum f m + wsum g m.
Proof.
  induction m as [|p s m Hp IH] using map_ind; [by rewrite !wsum_empty|].
  rewrite !wsum_insert by done. lia.
Qed.
Lemma wsum_nonneg f m : (∀ p s, m !! p = Some s → 0 ≤ f p s) → 0 ≤ wsum f m.
Proof.
  intros Hf. assert (wsum (λ _ _, 0) m ≤ wsum f m) by (by apply wsum_le).
  assert (wsum (λ _ _, 0) m = 0); [|lia]. clear. induction m as [|p s m Hp IH] using map_ind;
    [apply wsum_empty|by rewrite wsum_insert].
Qed.
Lemma wsum_one m : wsum (λ _ _, 1) m = Z.of_nat (size (dom m)).
Proof.
  induction m as [|p s m Hp IH] using map_ind; [by rewrite wsum_empty, dom_empty_L|].
  rewrite wsum_insert, dom_insert_L, size_union, size_singleton by
    (done || (apply not_elem_of_dom in Hp; set_solver)). lia.
Qed.
Lemma wsum_bound f m z : (∀ p s, m !! p = Some s → f p s ≤ z) → wsum f m ≤ z * Z.of_nat (size (dom m)).
Proof.
  intros Hf. rewrite <- wsum_one. etransitivity; [apply (wsum_le f (λ _ _, z)); done|].
  clear. induction m as [|p s m Hp IH] using map_ind; [rewrite !wsum_empty; lia|]. rewrite !wsum_insert by done. lia.
Qed.
Lemma wsum_at f m p s : m !! p = Some s → (∀ q t, m !! q = Some t → 0 ≤ f q t) → f p s ≤ wsum f m.
Proof.
  intros Hp Hf. rewrite (wsum_delete f m p s Hp). assert (0 ≤ wsum f (delete p m)); [|lia].
  apply wsum_nonneg. intros q t [_ Hq]%lookup_delete_Some. by apply Hf.
Qed.
Lemma wsum_pos f m : (∀ p s, m !! p = Some s → 0 ≤ f p s) → 0 < wsum f m →
  ∃ p s, m !! p = Some s ∧ 0 < f p s.
Proof.
  induction m as [|p s m Hp IH] using map_ind; [rewrite wsum_empty; lia|]. intros Hf.
  rewrite wsum_insert by done. intros Hpos. pose proof (Hf p s ltac:(apply lookup_insert_eq)).
  destruct (Z.eq_dec (f p s) 0) as [E|E].
  - destruct IH as (q & t & Hq & Ht); [|lia|].
    + intros q t Hq. apply Hf. rewrite lookup_insert_ne; [done|]. congruence.
    + exists q, t. split; [|done]. rewrite lookup_insert_ne; [done|]. congruence.
  - exists p, s. split; [apply lookup_insert_eq|lia].
Qed.
End sums.
