(* ===== verification/CMem.v ===== *)
(** * Memory blocks and byte order

    A heap or stack array is a list of cells; a cell that was allocated and
    never written is [None] (indeterminate).  [memcpy], [memset] and the reads
    of multi-byte integers are given with the bounds checks whose failure is
    undefined behaviour in C++.  Integers are laid out as on the x86-64
    targets the build files are written for: little endian. *)
From S2P Require Import Prelude.
From stdpp Require Import base numbers list option.
From Stdlib Require Import ZArith Lia Strings.Byte.
From Stdlib Require Strings.String.
Open Scope Z_scope.

(** ** Bytes *)
#[export] Instance byte_eq_dec : EqDecision byte := Byte.byte_eq_dec.

Definition b2z (b : byte) : Z := Z.of_N (Byte.to_N b).
Definition z2b (z : Z) : byte :=
  match Byte.of_N (Z.to_N (z mod 256)) with Some b => b | None => Byte.x00 end.

Lemma b2z_range b : 0 ≤ b2z b < 256.
Proof. unfold b2z. pose proof (Byte.to_N_bounded b). lia. Qed.

Lemma b2z_z2b z : b2z (z2b z) = z mod 256.
Proof.
  unfold b2z, z2b. pose proof (Z.mod_pos_bound z 256 ltac:(lia)).
  destruct (Byte.of_N _) eqn:E.
  - apply Byte.to_of_N in E. rewrite E. lia.
  - apply Byte.of_N_None_iff in E. lia.
Qed.

Lemma z2b_b2z b : z2b (b2z b) = b.
Proof.
  unfold z2b. rewrite Z.mod_small by apply b2z_range.
  unfold b2z. by rewrite N2Z.id, Byte.of_to_N.
Qed.

(** ** Cells and blocks *)
Abbreviation cell := (option byte).
Definition fill (n : Z) (c : cell) : list cell := replicate (Z.to_nat n) c.
(** The storage [new char\[n\]] returns, before it is written. *)
Definition new_array (n : Z) : outcome (list cell) :=
  if n <? 0 then Throws BadArrayNewLength else Ok (fill n None).
Definition zeros (n : Z) : list cell := fill n (Some Byte.x00).
Definition vals (bs : list byte) : list cell := Some <$> bs.

(** [memcpy(dst + doff, src + soff, n)], for distinct blocks. *)
Definition memcpy (dst : list cell) (doff : Z) (src : list cell) (soff n : Z)
  : outcome (list cell) :=
  let n := size_t n in
  if (0 <=? doff) && (doff + n <=? zlen dst) && (0 <=? soff) && (soff + n <=? zlen src)
  then Ok (splice dst doff (slice src soff n))
  else Undefined OutOfBounds.

(** [memset(p, 0, n)] over the first [n] bytes of a block. *)
Definition memset0 (dst : list cell) (n : Z) : outcome (list cell) :=
  let n := size_t n in
  if n <=? zlen dst then Ok (splice dst 0 (zeros n)) else Undefined OutOfBounds.

(** The bytes of a range of cells, when all of them were written. *)
Definition defined (l : list cell) : option (list byte) := mapM id l.
Definition read_bytes (l : list cell) (off n : Z) : outcome (list byte) :=
  let n := size_t n in
  if (0 <=? off) && (off + n <=? zlen l)
  then match defined (slice l off n) with
       | Some bs => Ok bs
       | None => Undefined UninitRead
       end
  else Undefined OutOfBounds.

(** ** Byte order *)
Fixpoint le_decode (bs : list byte) : Z :=
  match bs with [] => 0 | b :: bs => b2z b + 256 * le_decode bs end.
Fixpoint le_encode (n : nat) (z : Z) : list byte :=
  match n with O => [] | S n => z2b z :: le_encode n (z / 256) end.
Definition be_encode (n : nat) (z : Z) : list byte := reverse (le_encode n z).
Definition be_decode (bs : list byte) : Z := le_decode (reverse bs).

(** [htonl]/[ntohl] and [htons]/[ntohs] swap bytes on a little-endian host. *)
Definition bswap32 (z : Z) : Z := le_decode (reverse (le_encode 4 z)).
Definition bswap16 (z : Z) : Z := le_decode (reverse (le_encode 2 z)).
Definition htonl (z : Z) : Z := bswap32 (u32 z).
Definition ntohl (z : Z) : Z := bswap32 (u32 z).
Definition htons (z : Z) : Z := bswap16 (u16 z).
Definition ntohs (z : Z) : Z := bswap16 (u16 z).

(** [memcpy] between an integer object of [n] bytes and a block. *)
Definition load_le (n : nat) (l : list cell) (off : Z) : outcome Z :=
  bs ← read_bytes l off (Z.of_nat n); Ok (le_decode bs).
Definition store_le (n : nat) (l : list cell) (off z : Z) : outcome (list cell) :=
  memcpy l off (vals (le_encode n z)) 0 (Z.of_nat n).

(** The C string that starts at an offset of a block: the bytes before the first
    NUL; reading on past the end of the block is undefined. *)
Fixpoint cstring (l : list cell) : outcome (list byte) :=
  match l with
  | [] => Undefined OutOfBounds
  | None :: _ => Undefined UninitRead
  | Some c :: l =>
      if Byte.eqb c Byte.x00 then Ok [] else s ← cstring l; Ok (c :: s)
  end.
Definition cstring_at (l : list cell) (off : Z) : outcome (list byte) :=
  if (0 <=? off) && (off <=? zlen l) then cstring (drop (Z.to_nat off) l)
  else Undefined OutOfBounds.

(** The bytes of a string literal or of any C string: those before the first
    NUL. *)
Fixpoint cstr (l : list byte) : list byte :=
  match l with
  | [] => []
  | c :: l => if Byte.eqb c Byte.x00 then [] else c :: cstr l
  end.

(** A string literal as bytes. *)
Definition text (s : String.string) : list byte := String.list_byte_of_string s.

(** ** Lemmas *)
Lemma cstring_vals bs rest : Byte.x00 ∈ bs → cstring (vals bs ++ rest) = Ok (cstr bs).
Proof.
  unfold vals. induction bs as [|b bs IH]; intros Hin; [by apply elem_of_nil in Hin|].
  rewrite fmap_cons. simpl. destruct (Byte.eqb b Byte.x00) eqn:E; [done|].
  apply elem_of_cons in Hin as [<-|Hin]; [done|]. by rewrite (IH Hin).
Qed.

Lemma cstring_none bs : Byte.x00 ∉ bs → cstring (vals bs) = Undefined OutOfBounds.
Proof.
  unfold vals. induction bs as [|b bs IH]; intros Hin; [done|].
  rewrite fmap_cons. simpl. apply not_elem_of_cons in Hin as [Hne Hin].
  destruct (Byte.eqb b Byte.x00) eqn:E.
  - by apply Byte.byte_dec_bl in E.
  - by rewrite (IH Hin).
Qed.

Lemma cstr_app_nul bs rest : cstr (bs ++ Byte.x00 :: rest) = cstr bs.
Proof. induction bs as [|b bs IH]; simpl; [done|]. by rewrite IH. Qed.

Lemma cstr_no_nul bs : Byte.x00 ∉ bs → cstr bs = bs.
Proof.
  induction bs as [|b bs IH]; intros Hin; simpl; [done|].
  apply not_elem_of_cons in Hin as [Hne Hin]. destruct (Byte.eqb b Byte.x00) eqn:E.
  - by apply Byte.byte_dec_bl in E.
  - by rewrite IH.
Qed.

Lemma zlen_fill n c : 0 ≤ n → zlen (fill n c) = n.
Proof. intros. unfold fill. rewrite zlen_replicate. lia. Qed.
Lemma zlen_zeros n : 0 ≤ n → zlen (zeros n) = n.
Proof. apply zlen_fill. Qed.
Lemma zlen_vals bs : zlen (vals bs) = zlen bs.
Proof. apply zlen_fmap. Qed.
#[export] Hint Rewrite zlen_vals : zlen.
#[export] Hint Rewrite zlen_fill zlen_zeros using lia : zlen.

Lemma vals_app a b : vals (a ++ b) = vals a ++ vals b.
Proof. apply fmap_app. Qed.

Lemma vals_app_inv q l1 l2 :
  l1 ++ l2 = vals q → ∃ q1 q2, q = q1 ++ q2 ∧ l1 = vals q1 ∧ l2 = vals q2.
Proof.
  intros E. exists (take (length l1) q), (drop (length l1) q).
  split; [by rewrite take_drop|]. unfold vals in *. rewrite fmap_take, fmap_drop, <- E.
  by rewrite take_app_length, drop_app_length.
Qed.

Lemma new_array_ok n : 0 ≤ n → new_array n = Ok (fill n None).
Proof. intros. unfold new_array. by zbool. Qed.

Lemma memcpy_ok dst doff src soff n :
  0 ≤ n ≤ INT_MAX → 0 ≤ doff → doff + n ≤ zlen dst → 0 ≤ soff → soff + n ≤ zlen src →
  memcpy dst doff src soff n = Ok (splice dst doff (slice src soff n)).
Proof. intros. unfold memcpy. rewrite size_t_nonneg by lia. by zbool. Qed.

Lemma memcpy_oob dst doff src soff n :
  0 ≤ n ≤ INT_MAX → zlen dst < doff + n →
  memcpy dst doff src soff n = Undefined OutOfBounds.
Proof.
  intros. unfold memcpy. rewrite size_t_nonneg by lia.
  rewrite (proj2 (Z.leb_gt (doff + n) (zlen dst))) by lia. by rewrite andb_false_r.
Qed.

Lemma memcpy_negative dst doff src soff n :
  INT_MIN ≤ n < 0 → 0 ≤ doff → zlen dst ≤ 2 ^ 33 →
  memcpy dst doff src soff n = Undefined OutOfBounds.
Proof.
  intros. unfold memcpy. rewrite size_t_neg by lia. unfold INT_MIN in *.
  rewrite (proj2 (Z.leb_gt _ (zlen dst))) by lia. by rewrite andb_false_r.
Qed.

Lemma defined_vals bs : defined (vals bs) = Some bs.
Proof.
  unfold defined, vals. induction bs as [|b bs IH]; [done|].
  rewrite fmap_cons. simpl. by rewrite IH.
Qed.

Lemma defined_Some l bs : defined l = Some bs ↔ l = vals bs.
Proof.
  split; [|intros ->; apply defined_vals].
  unfold defined, vals. revert bs. induction l as [|c l IH]; intros bs; simpl.
  - by intros [= <-].
  - destruct c as [b|]; [|done]. simpl. destruct (mapM id l) as [bs'|] eqn:E; [|done].
    simpl. intros [= <-]. rewrite fmap_cons. f_equal. by apply IH.
Qed.

Lemma read_bytes_ok l off n bs :
  0 ≤ n ≤ INT_MAX → 0 ≤ off → off + n ≤ zlen l → slice l off n = vals bs →
  read_bytes l off n = Ok bs.
Proof.
  intros ??? E. unfold read_bytes. rewrite size_t_nonneg by lia.
  zbool. simpl. by rewrite E, defined_vals.
Qed.

Lemma length_le_encode n z : length (le_encode n z) = n.
Proof. revert z. induction n; intros; simpl; [done|]. by rewrite IHn. Qed.
Lemma zlen_le_encode n z : zlen (le_encode n z) = Z.of_nat n.
Proof. unfold zlen. by rewrite length_le_encode. Qed.
#[export] Hint Rewrite zlen_le_encode : zlen.

Lemma le_decode_range bs : 0 ≤ le_decode bs < 256 ^ zlen bs.
Proof.
  unfold zlen. induction bs as [|b bs IH]; [done|].
  cbn [le_decode length]. rewrite Nat2Z.inj_succ, Z.pow_succ_r by lia.
  pose proof (b2z_range b). lia.
Qed.

Lemma le_decode_encode n z : le_decode (le_encode n z) = z mod 256 ^ Z.of_nat n.
Proof.
  revert z. induction n as [|n IH]; intros z.
  - cbn. by rewrite Z.mod_1_r.
  - cbn [le_encode le_decode]. rewrite IH, b2z_z2b, Nat2Z.inj_succ, Z.pow_succ_r by lia.
    rewrite Z.rem_mul_r by lia. lia.
Qed.

Lemma le_encode_decode bs : le_encode (length bs) (le_decode bs) = bs.
Proof.
  induction bs as [|b bs IH]; [done|].
  cbn [length le_encode le_decode].
  pose proof (b2z_range b).
  replace (b2z b + 256 * le_decode bs) with (b2z b + le_decode bs * 256) by lia.
  rewrite Z.div_add, Z.div_small, Z.add_0_l, IH by lia. f_equal.
  rewrite <- (z2b_b2z b) at 2. unfold z2b. by rewrite Z.mod_add by lia.
Qed.

Lemma bswap_encode n z :
  le_encode n (le_decode (reverse (le_encode n z))) = be_encode n z.
Proof.
  unfold be_encode. set (l := reverse (le_encode n z)).
  replace n with (length l) at 1; [apply le_encode_decode|].
  unfold l. by rewrite length_reverse, length_le_encode.
Qed.

Lemma be_decode_encode n z : be_decode (be_encode n z) = z mod 256 ^ Z.of_nat n.
Proof. unfold be_decode, be_encode. by rewrite reverse_involutive, le_decode_encode. Qed.

Lemma length_be_encode n z : length (be_encode n z) = n.
Proof. unfold be_encode. by rewrite length_reverse, length_le_encode. Qed.
Lemma zlen_be_encode n z : zlen (be_encode n z) = Z.of_nat n.
Proof. unfold zlen. by rewrite length_be_encode. Qed.
#[export] Hint Rewrite zlen_be_encode : zlen.

Lemma slice_vals bs off n : slice (vals bs) off n = vals (slice bs off n).
Proof. unfold slice, vals. by rewrite fmap_take, fmap_drop. Qed.
Lemma drop_vals bs n : drop n (vals bs) = vals (drop n bs).
Proof. unfold vals. by rewrite fmap_drop. Qed.
Lemma zeros_vals n : zeros n = vals (replicate (Z.to_nat n) Byte.x00).
Proof. unfold zeros, fill, vals. by rewrite fmap_replicate. Qed.

Lemma read_bytes_vals bs off n :
  0 ≤ n ≤ INT_MAX → 0 ≤ off → off + n ≤ zlen bs →
  read_bytes (vals bs) off n = Ok (slice bs off n).
Proof. intros. apply read_bytes_ok; try done; [by rewrite zlen_vals|apply slice_vals]. Qed.

Lemma load_le_vals n bs off :
  0 ≤ off → off + Z.of_nat n ≤ zlen bs → Z.of_nat n ≤ INT_MAX →
  load_le n (vals bs) off = Ok (le_decode (slice bs off (Z.of_nat n))).
Proof. intros. unfold load_le. by rewrite read_bytes_vals by lia. Qed.

(** Reading a big-endian integer with a native load and [ntoh]/[hton]. *)
Lemma htonl_load bs : zlen bs = 4 → htonl (le_decode bs) = be_decode bs.
Proof.
  intros Hl. unfold htonl, bswap32, be_decode, u32. pose proof (le_decode_range bs) as Hr.
  rewrite Hl in Hr. rewrite Z.mod_small by lia.
  replace 4%nat with (length bs) by (unfold zlen in *; lia). by rewrite le_encode_decode.
Qed.
Lemma htons_load bs : zlen bs = 2 → htons (le_decode bs) = be_decode bs.
Proof.
  intros Hl. unfold htons, bswap16, be_decode, u16. pose proof (le_decode_range bs) as Hr.
  rewrite Hl in Hr. rewrite Z.mod_small by lia.
  replace 2%nat with (length bs) by (unfold zlen in *; lia). by rewrite le_encode_decode.
Qed.

Lemma le_encode_mod n z : le_encode n (z mod 256 ^ Z.of_nat n) = le_encode n z.
Proof.
  rewrite <- (le_decode_encode n z).
  rewrite <- (length_le_encode n z) at 1. apply le_encode_decode.
Qed.

(** The bytes a native store of [hton]/[ntoh] writes are big-endian. *)
Lemma store_ntohl z : le_encode 4 (ntohl z) = be_encode 4 z.
Proof. unfold ntohl, bswap32, u32. rewrite bswap_encode. unfold be_encode.
  change (2 ^ 32) with (256 ^ Z.of_nat 4). by rewrite (le_encode_mod 4 z). Qed.
Lemma store_ntohs z : le_encode 2 (ntohs z) = be_encode 2 z.
Proof. unfold ntohs, bswap16, u16. rewrite bswap_encode. unfold be_encode.
  change (2 ^ 16) with (256 ^ Z.of_nat 2). by rewrite (le_encode_mod 2 z). Qed.

Lemma cstring_at_vals bs off :
  0 ≤ off ≤ zlen bs →
  cstring_at (vals bs) off =
  if bool_decide (Byte.x00 ∈ drop (Z.to_nat off) bs)
  then Ok (cstr (drop (Z.to_nat off) bs)) else Undefined OutOfBounds.
Proof.
  intros. unfold cstring_at. rewrite zlen_vals. zbool. simpl. rewrite drop_vals.
  case_bool_decide.
  - rewrite <- (app_nil_r (vals _)). by apply cstring_vals.
  - by apply cstring_none.
Qed.

(** The bytes of a datagram in a zeroed block: its integers are read padded with
    zeros, and the string behind the header ends at the first zero. *)
Lemma cstr_app_zeros bs n : cstr (bs ++ replicate n Byte.x00) = cstr bs.
Proof.
  destruct n; [by rewrite app_nil_r|]. simpl. apply cstr_app_nul.
Qed.

Lemma read_bytes_length l off n bs :
  0 ≤ n ≤ INT_MAX → read_bytes l off n = Ok bs → zlen bs = n.
Proof.
  intros Hn. unfold read_bytes. rewrite size_t_nonneg by lia.
  destruct (Z.leb_spec 0 off); [|done]. destruct (Z.leb_spec (off + n) (zlen l)); [|done].
  cbn [andb]. destruct (defined _) as [bs'|] eqn:Ed; [|done]. intros [= <-].
  apply defined_Some in Ed. rewrite <- zlen_vals, <- Ed. apply zlen_slice; lia.
Qed.
