(* ===== verification/Doubles.v ===== *)
(** * Doubles

    The operations on [double] the program uses, in the IEEE arithmetic of the
    Standard Library's [SpecFloat] (53 bits of precision, exponents to 1024,
    rounding to nearest). *)
From S2P Require Import Prelude.
From stdpp Require Import base numbers.
From Stdlib Require Import ZArith Lia Floats.SpecFloat.
Open Scope Z_scope.

Definition double_of_int (z : Z) : spec_float := binary_normalize 53 1024 z 0 false.
Definition double_mul : spec_float → spec_float → spec_float := SFmul 53 1024.
Definition double_div : spec_float → spec_float → spec_float := SFdiv 53 1024.

(** [static_cast<int>] truncates; outside [int] it is undefined. *)
Definition int_of_double (d : spec_float) : outcome Z :=
  match d with
  | S754_zero _ => Ok 0
  | S754_finite s m e =>
      let a := if 0 <=? e then Zpos m * 2 ^ e else Zpos m / 2 ^ (- e) in
      let z := if s then - a else a in
      if (INT_MIN <=? z) && (z <=? INT_MAX) then Ok z else Undefined FloatToInt
  | S754_infinity _ | S754_nan => Undefined FloatToInt
  end.

(** ** Doubles that are not negative *)
(** Neither a NaN nor negative, and with a mantissa of at most 53 bits. *)
Definition nonneg_double (d : spec_float) : Prop :=
  match d with
  | S754_zero _ => True
  | S754_infinity s => s = false
  | S754_nan => False
  | S754_finite s m _ => s = false ∧ Zpos m < 2 ^ 53
  end.
(** Positive and finite. *)
Definition pos_double (d : spec_float) : Prop :=
  match d with S754_finite false _ _ => True | _ => False end.

Lemma digits2_bound p : 2 ^ (Zpos (digits2_pos p) - 1) ≤ Zpos p < 2 ^ Zpos (digits2_pos p).
Proof.
  induction p as [p IH|p IH|]; cbn [digits2_pos]; [..|done];
    rewrite Pos2Z.inj_succ, Z.sub_succ_l, !Z.pow_succ_r by lia; lia.
Qed.
Lemma Zdigits2_bound m : 0 ≤ m → m < 2 ^ Zdigits2 m.
Proof. destruct m as [|p|p]; [done| |lia]. intros _. apply digits2_bound. Qed.

Lemma shr_1_m x : 0 ≤ shr_m x → shr_m (shr_1 x) = Z.shiftr (shr_m x) 1.
Proof. destruct x as [[|[]|] r s]; simpl; try done; lia. Qed.
Lemma iter_shr_m p : ∀ x, 0 ≤ shr_m x →
  shr_m (iter_pos shr_1 p x) = Z.shiftr (shr_m x) (Zpos p).
Proof.
  assert (∀ a n, 0 ≤ a → 0 ≤ Z.shiftr a n) as Hn by (intros; by apply Z.shiftr_nonneg).
  induction p as [p IH|p IH|]; intros x Hx; cbn [iter_pos].
  - assert (0 ≤ shr_m (shr_1 x)) by (rewrite shr_1_m by done; auto).
    assert (0 ≤ shr_m (iter_pos shr_1 p (shr_1 x))) by (rewrite IH by done; auto).
    rewrite !IH, shr_1_m, !Z.shiftr_shiftr by lia. f_equal. lia.
  - assert (0 ≤ shr_m (iter_pos shr_1 p x)) by (rewrite IH by done; auto).
    rewrite !IH, !Z.shiftr_shiftr by lia. f_equal. lia.
  - by apply shr_1_m.
Qed.
(** Rounding the mantissa to the precision. *)
Lemma shr_fexp_m m e l : 0 ≤ m →
  0 ≤ shr_m (shr_fexp 53 1024 m e l).1 < 2 ^ 53.
Proof.
  intros Hm. unfold shr_fexp. pose proof (Zdigits2_bound m Hm) as Hd.
  assert (shr_m (shr_record_of_loc m l) = m) as Er by (by destruct l as [|[]]).
  set (n := fexp 53 1024 (Zdigits2 m + e) - e).
  assert (Zdigits2 m - 53 ≤ n) as Hn by (unfold n, fexp; lia).
  assert (n ≤ 0 → 0 ≤ m < 2 ^ 53) as Hsmall.
  { intros. split; [done|]. eapply Z.lt_le_trans; [exact Hd|]. apply Z.pow_le_mono_r; lia. }
  destruct n as [|k|k]; cbn [shr fst]; rewrite ?iter_shr_m, ?Er by (rewrite ?Er; lia); try (apply Hsmall; lia).
  split; [by apply Z.shiftr_nonneg|]. rewrite Z.shiftr_div_pow2 by lia.
  apply Z.div_lt_upper_bound; [apply Z.pow_pos_nonneg; lia|]. rewrite <- Z.pow_add_r by lia.
  eapply Z.lt_le_trans; [exact Hd|]. apply Z.pow_le_mono_r; lia.
Qed.
Lemma round_nonneg m e l : 0 ≤ m → nonneg_double (binary_round_aux 53 1024 false m e l).
Proof.
  intros Hm. unfold binary_round_aux. pose proof (shr_fexp_m m e l Hm) as H1.
  destruct (shr_fexp 53 1024 m e l) as [x e1]. simpl in H1.
  set (r := round_nearest_even _ _).
  assert (0 ≤ r) as Hr.
  { unfold r, round_nearest_even. destruct (loc_of_shr_record x) as [|[]]; try case_match; lia. }
  pose proof (shr_fexp_m r e1 loc_Exact Hr) as H2. destruct (shr_fexp 53 1024 r e1 loc_Exact) as [y e2].
  simpl in H2. destruct (shr_m y); simpl; [done| |lia]. case_match; simpl; [|done]. split; [done|lia].
Qed.
Lemma double_mul_nonneg x y : nonneg_double x → pos_double y → nonneg_double (double_mul x y).
Proof.
  destruct x as [| | |[] m e], y as [| | |[] m' e']; simpl; try done.
  - intros ->. done.
  - by intros [? _].
  - intros _ _. by apply round_nonneg.
Qed.
Lemma double_div_nonneg x y : pos_double x → pos_double y ∨ y = S754_infinity false →
  nonneg_double (double_div x y).
Proof.
  destruct x as [| | |[] m e]; try done. intros _ [Hy| ->]; [|done].
  destruct y as [| | |[] m' e']; try done. unfold double_div, SFdiv, SFdiv_core_binary.
  set (s := Z.sub (Z.sub e e') _). set (a := match s with Zneg _ => 0 | Z0 => _ | Zpos _ => _ end).
  assert (0 ≤ a) as Ha by (unfold a; destruct s; [done|by apply Z.shiftl_nonneg|done]).
  pose proof (Z_div_mod a (Zpos m') ltac:(done)) as Hdm.
  destruct (Z.div_eucl a (Zpos m')) as [q r]. cbn beta iota. apply round_nonneg. nia.
Qed.

(** *** Small integers are exact *)
Lemma digits2_shift m d : Zpos (digits2_pos (Pos.iter xO m d)) = Zpos (digits2_pos m) + Zpos d.
Proof.
  induction d as [|d IH] using Pos.peano_ind; [simpl; lia|].
  rewrite Pos.iter_succ. cbn [digits2_pos]. lia.
Qed.
Lemma double_of_int_pos z : 0 < z < 2 ^ 53 → pos_double (double_of_int z).
Proof.
  intros Hz. destruct z as [|m|]; try lia. unfold double_of_int. cbn [binary_normalize].
  unfold binary_round. pose proof (digits2_bound m) as Hd.
  assert (Zpos (digits2_pos m) ≤ 53) as Hdig.
  { destruct (Z.le_gt_cases (Zpos (digits2_pos m)) 53) as [|Hgt]; [done|].
    assert (2 ^ 53 ≤ 2 ^ (Zpos (digits2_pos m) - 1)) by (apply Z.pow_le_mono_r; lia). lia. }
  assert (∃ m' e, shl_align m 0 (fexp 53 1024 (Zpos (digits2_pos m) + 0)) = (m', e) ∧
    Zpos (digits2_pos m') = 53 ∧ -52 ≤ e ≤ 0) as (m' & e & -> & Hm' & He).
  { unfold fexp, emin. rewrite Z.add_0_r, Z.max_l by lia. unfold shl_align. rewrite Z.sub_0_r.
    destruct (Z.pos (digits2_pos m) - 53) as [|d|d] eqn:E; [|lia|].
    - exists m, 0. split; [done|]. lia.
    - eexists _, _. split; [done|]. rewrite digits2_shift. lia. }
  assert (∀ l, shr_fexp 53 1024 (Zpos m') e l = (shr_record_of_loc (Zpos m') l, e)) as Hs.
  { intros l. unfold shr_fexp. cbn [Zdigits2]. rewrite Hm'.
    assert (fexp 53 1024 (53 + e) - e = 0) as -> by (unfold fexp, emin; lia). done. }
  unfold binary_round_aux. rewrite Hs. cbn [shr_record_of_loc shr_m loc_of_shr_record round_nearest_even].
  rewrite Hs. cbn [shr_record_of_loc shr_m]. rewrite (proj2 (Z.leb_le e _)) by lia. done.
Qed.
