(* ===== verification/Kernel.v ===== *)
(** * The socket interface of the kernel

    [recv], [send], [ioctl(FIONREAD)] and [close] are not code of the
    repository: they are the operations of the class [SocketApi], over a world
    [W].  [SocketLaws] states what the code relies on, as documented in recv(2)
    and send(2): a call transfers at most the number of bytes it was given, and
    the bytes of a stream arrive once, in order.  [sim] is a concrete kernel
    which satisfies the laws. *)
From S2P Require Import Prelude CMem.
From stdpp Require Import base numbers list option.
From Stdlib Require Import ZArith Lia Strings.Byte.
Open Scope Z_scope.

Class SocketApi (W : Type) := {
  (** [recv(fd, p, n, 0)]: the bytes received, or [None] for a result of -1. *)
  sys_recv : Z → Z → W → option (list byte) * W;
  (** [send(fd, p, n, 0)]: how many bytes were taken, or [None] for -1. *)
  sys_send : Z → list byte → W → option Z * W;
  (** [ioctl(fd, FIONREAD, &n)]: the value stored in [n], when it is stored. *)
  sys_fionread : Z → W → option Z * W;
  sys_close : Z → W → W;
  sys_errno : W → Z;
}.

(** The two directions of each stream: the bytes the peer sends which were not
    received yet (queued or still to come), and the bytes sent to it. *)
Class SocketLaws (W : Type) `{SocketApi W} := {
  pending : W → Z → list byte;
  sent : W → Z → list byte;

  recv_data fd n w bs w' : 0 ≤ n → sys_recv fd n w = (Some bs, w') →
    zlen bs ≤ n ∧ pending w fd = bs ++ pending w' fd;
  recv_none fd n w w' : sys_recv fd n w = (None, w') → pending w' fd = pending w fd;
  recv_sent fd n w fd' : sent (sys_recv fd n w).2 fd' = sent w fd';
  recv_other fd n w fd' : fd' ≠ fd →
    pending (sys_recv fd n w).2 fd' = pending w fd';

  fionread_value fd w z w' : sys_fionread fd w = (Some z, w') → 0 ≤ z ≤ INT_MAX;
  fionread_pending fd w fd' : pending (sys_fionread fd w).2 fd' = pending w fd';
  fionread_sent fd w fd' : sent (sys_fionread fd w).2 fd' = sent w fd';

  send_some fd bs w n w' : sys_send fd bs w = (Some n, w') →
    0 ≤ n ≤ zlen bs ∧ sent w' fd = sent w fd ++ take (Z.to_nat n) bs;
  send_none fd bs w w' : sys_send fd bs w = (None, w') → sent w' fd = sent w fd;
  send_pending fd bs w fd' : pending (sys_send fd bs w).2 fd' = pending w fd';
  send_other fd bs w fd' : fd' ≠ fd → sent (sys_send fd bs w).2 fd' = sent w fd';
}.

(** ** The epoll interface *)
Record epoll_event := mkEvent { ev_events : Z; ev_fd : Z }.
Definition EPOLLIN : Z := 1.
Definition EPOLLOUT : Z := 4.
Definition EPOLLERR : Z := 8.
Definition EPOLLHUP : Z := 16.

Class EpollApi (W : Type) := {
  sys_epoll_create : Z → W → Z * W;
  (** [epoll_ctl(epfd, EPOLL_CTL_ADD, fd, &event)] *)
  sys_epoll_ctl_add : Z → Z → epoll_event → W → Z * W;
  (** [epoll_wait(epfd, events, max, timeout)]: the events, or [None] for -1. *)
  sys_epoll_wait : Z → Z → Z → W → option (list epoll_event) * W;
}.

(** ** Datagrams *)
Record sockaddr_in := mkSockaddr { sin_port : Z; sin_addr : Z }.
Class DatagramApi (W : Type) := {
  (** [recvfrom(fd, p, n, 0, &addr, &len)]: the datagram (cut to [n] bytes) and
      its sender, or [None] for -1. *)
  sys_recvfrom : Z → Z → W → option (list byte * sockaddr_in) * W;
  (** [sendto(fd, p, n, 0, &addr, len)] *)
  sys_sendto : Z → list byte → sockaddr_in → W → Z * W;
}.

(** [int invalid_id = -1], of common/macros.h. *)
Definition invalid_id : Z := -1.
Definition MAX_EVENT : Z := 256.

(** ** A concrete kernel

    The peer's bytes are given from the start.  [sim_arrived] schedules how
    many of them are queued when the next calls are made (all, once it is
    exhausted), [sim_room] how many bytes the next [send]s take (all, once it
    is exhausted; an entry that is not positive makes the call fail). *)
Record sim := Sim {
  sim_rx : Z → list byte;
  sim_arrived : list Z;
  sim_tx : Z → list byte;
  sim_room : list Z;
  sim_open : Z → bool;
  sim_errno : Z;
  sim_events : list (list epoll_event);           (** answers of [epoll_wait] *)
  sim_dgrams : list (list byte * sockaddr_in);    (** datagrams to receive *)
  sim_replies : list (list byte * sockaddr_in);   (** datagrams sent *)
}.

Definition EAGAIN : Z := 11.
Definition upd {B} (f : Z → B) (k : Z) (v : B) : Z → B :=
  λ x, if x =? k then v else f x.

Definition sim_visible (fd : Z) (w : sim) : Z :=
  match sim_arrived w with
  | [] => zlen (sim_rx w fd)
  | v :: _ => Z.max 0 (Z.min v (zlen (sim_rx w fd)))
  end.

Definition sim_recv (fd n : Z) (w : sim) : option (list byte) * sim :=
  let v := sim_visible fd w in
  let k := Z.max 0 (Z.min n v) in
  if (v =? 0) && negb (n =? 0)
  then (None, Sim (sim_rx w) (tail (sim_arrived w)) (sim_tx w) (sim_room w)
                (sim_open w) EAGAIN (sim_events w) (sim_dgrams w) (sim_replies w))
  else (Some (take (Z.to_nat k) (sim_rx w fd)),
        Sim (upd (sim_rx w) fd (drop (Z.to_nat k) (sim_rx w fd)))
            (tail (sim_arrived w)) (sim_tx w) (sim_room w) (sim_open w) (sim_errno w) (sim_events w) (sim_dgrams w) (sim_replies w)).

Definition sim_fionread (fd : Z) (w : sim) : option Z * sim :=
  (Some (Z.min INT_MAX (sim_visible fd w)),
   Sim (sim_rx w) (tail (sim_arrived w)) (sim_tx w) (sim_room w) (sim_open w) (sim_errno w) (sim_events w) (sim_dgrams w) (sim_replies w)).

Definition sim_send (fd : Z) (bs : list byte) (w : sim) : option Z * sim :=
  let room := match sim_room w with [] => zlen bs | r :: _ => r end in
  if (room <=? 0) && negb (zlen bs =? 0)
  then (None, Sim (sim_rx w) (sim_arrived w) (sim_tx w) (tail (sim_room w))
                (sim_open w) EAGAIN (sim_events w) (sim_dgrams w) (sim_replies w))
  else let k := Z.max 0 (Z.min room (zlen bs)) in
       (Some k, Sim (sim_rx w) (sim_arrived w)
                  (upd (sim_tx w) fd (sim_tx w fd ++ take (Z.to_nat k) bs))
                  (tail (sim_room w)) (sim_open w) (sim_errno w) (sim_events w) (sim_dgrams w) (sim_replies w)).

#[export] Instance sim_api : SocketApi sim := {|
  sys_recv := sim_recv;
  sys_send := sim_send;
  sys_fionread := sim_fionread;
  sys_close fd w := Sim (sim_rx w) (sim_arrived w) (sim_tx w) (sim_room w)
                      (upd (sim_open w) fd false) (sim_errno w) (sim_events w) (sim_dgrams w) (sim_replies w);
  sys_errno := sim_errno;
|}.

Lemma upd_eq {B} (f : Z → B) k v : upd f k v k = v.
Proof. unfold upd. by rewrite Z.eqb_refl. Qed.
Lemma upd_ne {B} (f : Z → B) k k' v : k' ≠ k → upd f k v k' = f k'.
Proof. intros. unfold upd. by rewrite (proj2 (Z.eqb_neq _ _)). Qed.

Lemma sim_visible_range fd w : 0 ≤ sim_visible fd w ≤ zlen (sim_rx w fd).
Proof. unfold sim_visible. pose proof (zlen_nonneg (sim_rx w fd)). case_match; lia. Qed.

#[export] Program Instance sim_laws : SocketLaws sim := {|
  pending w fd := sim_rx w fd;
  sent w fd := sim_tx w fd;
|}.
Next Obligation.
  intros fd n w bs w' ?. simpl. unfold sim_recv. case_match eqn:E; [done|].
  intros [= <- <-]. simpl. rewrite upd_eq, take_drop. split; [|done].
  pose proof (sim_visible_range fd w). unfold zlen in *. rewrite length_take.
  apply andb_false_iff in E as [E|E]; lia.
Qed.
Next Obligation. intros fd n w w'. simpl. unfold sim_recv. case_match; naive_solver. Qed.
Next Obligation. intros fd n w fd'. simpl. unfold sim_recv. by case_match. Qed.
Next Obligation.
  intros fd n w fd' ?. simpl. unfold sim_recv. case_match; [done|]. simpl. by apply upd_ne.
Qed.
Next Obligation.
  intros fd w z w'. simpl. unfold sim_fionread. intros [= <- <-].
  pose proof (sim_visible_range fd w). unfold INT_MAX. lia.
Qed.
Next Obligation. done. Qed.
Next Obligation. done. Qed.
Next Obligation.
  intros fd bs w n w'. simpl. unfold sim_send. case_match eqn:E; [done|].
  intros [= <- <-]. simpl. rewrite upd_eq. split; [|done].
  pose proof (zlen_nonneg bs). lia.
Qed.
Next Obligation. intros fd bs w w'. simpl. unfold sim_send. case_match; naive_solver. Qed.
Next Obligation. intros fd bs w fd'. simpl. unfold sim_send. by case_match. Qed.
Next Obligation.
  intros fd bs w fd' ?. simpl. unfold sim_send. case_match; [done|]. simpl. by apply upd_ne.
Qed.

(** Readiness events and datagrams are taken from lists given with the world;
    a wait without an event times out. *)
#[export] Instance sim_epoll : EpollApi sim := {|
  sys_epoll_create _ w := (3, w);
  sys_epoll_ctl_add _ _ _ w := (0, w);
  sys_epoll_wait _ _ _ w :=
    (Some (hd [] (sim_events w)),
     Sim (sim_rx w) (sim_arrived w) (sim_tx w) (sim_room w) (sim_open w) (sim_errno w)
       (tail (sim_events w)) (sim_dgrams w) (sim_replies w));
|}.
#[export] Instance sim_datagram : DatagramApi sim := {|
  sys_recvfrom _ n w :=
    match sim_dgrams w with
    | [] => (None, w)
    | (bs, from) :: rest =>
        (Some (take (Z.to_nat n) bs, from),
         Sim (sim_rx w) (sim_arrived w) (sim_tx w) (sim_room w) (sim_open w) (sim_errno w)
           (sim_events w) rest (sim_replies w))
    end;
  sys_sendto _ bs to w :=
    (zlen bs, Sim (sim_rx w) (sim_arrived w) (sim_tx w) (sim_room w) (sim_open w) (sim_errno w)
                (sim_events w) (sim_dgrams w) (sim_replies w ++ [(bs, to)]));
|}.
