(* ===== verification/Ring.v ===== *)
(** * Ring buffers over an array

    Both socket buffers keep a byte queue in an array, between an index [head]
    (the oldest byte) and an index [tail] (where the next byte goes).  This
    file relates the array and the two indices to the queue they hold; the two
    classes share its lemmas. *)
From S2P Require Import Prelude.
From stdpp Require Import base numbers list.
From Stdlib Require Import ZArith Lia.
Open Scope Z_scope.

Section ring.
Context {A : Type}.
Implicit Types (b d : list A) (h t n : Z).

(** The queue between the indices, oldest element first. *)
Definition ring_contents b h t : list A :=
  if h <? t then slice b h (t - h)
  else if t <? h then slice b h (zlen b - h) ++ slice b 0 t
  else [].

Definition ring_length (len h t : Z) : Z :=
  if h <? t then t - h else if t <? h then len - h + t else 0.

Lemma ring_contents_length b h t :
  0 ≤ h ≤ zlen b → 0 ≤ t ≤ zlen b →
  zlen (ring_contents b h t) = ring_length (zlen b) h t.
Proof. intros. unfold ring_contents, ring_length. zcases; zlia. Qed.

(** Writing after [tail], without wrapping. *)
Lemma ring_push_linear b h t d :
  0 ≤ h ≤ t → t + zlen d ≤ zlen b →
  ring_contents (splice b t d) h (t + zlen d) = ring_contents b h t ++ d.
Proof.
  intros. zlen_facts. unfold ring_contents. zcases.
  - rewrite slice_splice_end by lia. by replace (t + zlen d - h - zlen d) with (t - h) by lia.
  - rewrite slice_splice_end by lia. replace (t - h) with 0 by lia.
    by rewrite slice_nil by lia.
  - by rewrite (zlen_0_nil d) by lia.
Qed.

(** Writing up to the end of the array, so that the tail wraps to 0. *)
Lemma ring_push_to_end b h t d :
  0 < h ≤ t → t + zlen d = zlen b → t < zlen b →
  ring_contents (splice b t d) h 0 = ring_contents b h t ++ d.
Proof.
  intros. zlen_facts. unfold ring_contents.
  rewrite (proj2 (Z.ltb_ge h 0)), (proj2 (Z.ltb_lt 0 h)) by lia.
  rewrite (slice_nil _ 0 0), app_nil_r, zlen_splice by lia.
  rewrite slice_splice_end by lia. f_equal.
  zcases; [done|]. by rewrite slice_nil by lia.
Qed.

(** Writing below [head] when the queue already wraps. *)
Lemma ring_push_wrapped b h t d :
  0 ≤ t < h → h ≤ zlen b → t + zlen d < h →
  ring_contents (splice b t d) h (t + zlen d) = ring_contents b h t ++ d.
Proof.
  intros. zlen_facts. unfold ring_contents. zcases.
  rewrite zlen_splice, slice_splice_disjoint by lia.
  rewrite (slice_splice_end _ 0) by lia. rewrite Z.sub_0_r. by rewrite app_assoc.
Qed.

Lemma ring_contents_wrapped_drop b h t n :
  0 ≤ t < h → h < zlen b → 0 ≤ n ≤ zlen b - h + t →
  (if h + n <? zlen b
   then slice b (h + n) (zlen b - (h + n)) ++ slice b 0 t
   else slice b (h + n - zlen b) (t - (h + n - zlen b))) =
  drop (Z.to_nat n) (ring_contents b h t).
Proof.
  intros. unfold ring_contents. zbool.
  pose proof (zlen_slice b h (zlen b - h)) as Hl.
  destruct (Z.ltb_spec (h + n) (zlen b)).
  - rewrite drop_app_le by (unfold zlen in *; lia). rewrite drop_slice by lia.
    f_equal. f_equal; lia.
  - rewrite drop_app_ge by (unfold zlen in *; lia).
    replace (Z.to_nat n - length (slice b h (zlen b - h)))%nat
      with (Z.to_nat (h + n - zlen b)) by (unfold zlen in *; lia).
    by rewrite drop_slice by lia.
Qed.

(** Removing the [n] oldest elements. *)
Lemma ring_pop b h t n :
  0 ≤ h < zlen b → 0 ≤ t < zlen b → 0 ≤ n ≤ ring_length (zlen b) h t →
  ring_contents b ((h + n) mod zlen b) t = drop (Z.to_nat n) (ring_contents b h t).
Proof.
  intros ?? Hn. unfold ring_length in Hn. zlen_facts.
  destruct (Z.lt_trichotomy h t) as [?|[<-|?]].
  - rewrite (proj2 (Z.ltb_lt h t)) in Hn by lia.
    rewrite Z.mod_small by lia. unfold ring_contents.
    rewrite (proj2 (Z.ltb_lt h t)), drop_slice by lia.
    zcases; [f_equal; lia|]. by rewrite slice_nil by lia.
  - rewrite Z.ltb_irrefl in Hn. replace n with 0 by lia.
    by rewrite Z.add_0_r, Z.mod_small, drop_0 by lia.
  - revert Hn. zbool. intros Hn.
    rewrite <- (ring_contents_wrapped_drop b h t n) by lia.
    destruct (Z.ltb_spec (h + n) (zlen b)).
    + rewrite Z.mod_small by lia. unfold ring_contents. by zbool.
    + rewrite <- (Z.mod_unique (h + n) (zlen b) 1 (h + n - zlen b)) by lia.
      unfold ring_contents. zcases; [f_equal; lia|]. by rewrite slice_nil by lia.
Qed.

(** Reading the [n] oldest elements. *)
Lemma ring_peek b h t n :
  0 ≤ h < zlen b → 0 ≤ t < zlen b → 0 ≤ n ≤ ring_length (zlen b) h t →
  take (Z.to_nat n) (ring_contents b h t) =
  if (h <? t) || (n <? zlen b - h) then slice b h n
  else slice b h (zlen b - h) ++ slice b 0 (n - (zlen b - h)).
Proof.
  intros ?? Hn. unfold ring_length in Hn. unfold ring_contents.
  destruct (Z.ltb_spec h t); simpl; [by rewrite take_slice by lia|].
  destruct (Z.ltb_spec t h).
  - pose proof (zlen_slice b h (zlen b - h)) as Hl.
    destruct (Z.ltb_spec n (zlen b - h)).
    + rewrite take_app_le by (unfold zlen in *; lia). by rewrite take_slice by lia.
    + rewrite take_app_ge by (unfold zlen in *; lia). f_equal.
      replace (Z.to_nat n - length (slice b h (zlen b - h)))%nat
        with (Z.to_nat (n - (zlen b - h))) by (unfold zlen in *; lia).
      by rewrite take_slice by lia.
  - zbool. rewrite take_nil, slice_nil by lia. done.
Qed.

(** A queue copied to the start of an array. *)
Lemma ring_compact b d :
  zlen d ≤ zlen b → ring_contents (splice b 0 d) 0 (zlen d) = d.
Proof.
  intros. zlen_facts. unfold ring_contents. rewrite Z.sub_0_r. zcases.
  - by rewrite (slice_splice_end b 0), slice_nil by lia.
  - by rewrite (zlen_0_nil d) by lia.
Qed.
End ring.
