(* ===== verification/SocketInput.v ===== *)
(** * The receive buffer of a connection: [socket/socket_input.{h,cpp}]

    [SocketInput] keeps the bytes received and not parsed yet in a ring which
    [feed] fills from the socket and [fetch] empties.  The operations are
    translated with their memory accesses checked; [input_holds] relates a
    buffer to the byte queue it implements. *)
From S2P Require Import Prelude CMem Kernel Ring.
From stdpp Require Import base numbers list option.
From Stdlib Require Import ZArith Lia Strings.Byte.
Open Scope Z_scope.

(** ** Constants and state *)
Definition SOCKET_INPUT_SIZE : Z := 16.
Definition SOCKET_INPUT_SIZE_HALF : Z := Z.shiftr SOCKET_INPUT_SIZE 1.
Definition SOCKET_INPUT_MAXSIZE : Z := 1024 * 1024.

Record SocketInput := mkSocketInput {
  si_buffer : list cell;      (** [buffer_] *)
  si_buffer_len : Z;          (** [buffer_len_] *)
  si_max_buffer_len : Z;      (** [max_buffer_len_] *)
  si_head : Z;                (** [head_] *)
  si_tail : Z;                (** [tail_] *)
}.

Definition si_set_tail (s : SocketInput) (t : Z) : SocketInput :=
  mkSocketInput (si_buffer s) (si_buffer_len s) (si_max_buffer_len s) (si_head s) t.
Definition si_set_head (s : SocketInput) (h : Z) : SocketInput :=
  mkSocketInput (si_buffer s) (si_buffer_len s) (si_max_buffer_len s) h (si_tail s).
Definition si_set_buffer (s : SocketInput) (b : list cell) : SocketInput :=
  mkSocketInput b (si_buffer_len s) (si_max_buffer_len s) (si_head s) (si_tail s).

(** ** Operations *)
Definition SocketInput_new : SocketInput :=
  mkSocketInput (zeros SOCKET_INPUT_SIZE) SOCKET_INPUT_SIZE SOCKET_INPUT_MAXSIZE 0 0.

Definition SocketInput_init (s : SocketInput) : SocketInput :=
  mkSocketInput (zeros SOCKET_INPUT_SIZE) SOCKET_INPUT_SIZE (si_max_buffer_len s) 0 0.

Definition SocketInput_length (s : SocketInput) : Z :=
  if si_head s <? si_tail s then si_tail s - si_head s
  else if si_tail s <? si_head s then si_buffer_len s - si_head s + si_tail s
  else 0.

Definition SocketInput_resize (s : SocketInput) (size : Z) : outcome (bool * SocketInput) :=
  if size <=? 0 then Ok (false, s) else
  let len := SocketInput_length s in
  let tmp_size := if SOCKET_INPUT_SIZE_HALF <? size then size else SOCKET_INPUT_SIZE_HALF in
  new_buffer_len ← i32 (si_buffer_len s + tmp_size);
  new_buffer ← new_array new_buffer_len;
  new_buffer ←
    (if si_head s <? si_tail s then
       memcpy new_buffer 0 (si_buffer s) (si_head s) (si_tail s - si_head s)
     else if si_tail s <? si_head s then
       nb ← memcpy new_buffer 0 (si_buffer s) (si_head s) (si_buffer_len s - si_head s);
       memcpy nb (si_buffer_len s - si_head s) (si_buffer s) 0 (si_tail s)
     else Ok new_buffer);
  Ok (true, mkSocketInput new_buffer new_buffer_len (si_max_buffer_len s) 0 len).

Definition SocketInput_fetch (s : SocketInput) (buff : list cell) (size : Z)
  : outcome (list cell * SocketInput) :=
  if (size =? 0) || (SocketInput_length s <? size) then Ok (buff, s) else
  buff ←
    (if si_head s <? si_tail s then memcpy buff 0 (si_buffer s) (si_head s) size
     else
       let right_size := si_buffer_len s - si_head s in
       if size <? right_size then memcpy buff 0 (si_buffer s) (si_head s) size
       else
         b ← memcpy buff 0 (si_buffer s) (si_head s) right_size;
         memcpy b right_size (si_buffer s) 0 (size - right_size));
  h ← c_rem (si_head s + size) (si_buffer_len s);
  Ok (buff, si_set_head s h).

Definition SocketInput_skip (s : SocketInput) (size : Z) : outcome SocketInput :=
  if (size =? 0) || (SocketInput_length s <? size) then Ok s else
  h ← c_rem (si_head s + size) (si_buffer_len s);
  Ok (si_set_head s h).

Section feed.
Context {W : Type} `{SocketApi W}.

(** [recv(socket_fd, &buffer_\[off\], len, 0)]: the kernel stores the bytes it
    has, which must lie within the block. *)
Definition recv_at (fd : Z) (s : SocketInput) (off len : Z) : M W (Z * SocketInput) :=
  r ← call (sys_recv fd (size_t len));
  match r with
  | None => mret (-1, s)
  | Some bs =>
      if (0 <=? off) && (off + zlen bs <=? zlen (si_buffer s))
      then mret (zlen bs, si_set_buffer s (splice (si_buffer s) off (vals bs)))
      else lift (Undefined OutOfBounds)
  end.

(** A [recv] whose failure makes [feed] return: [if (received_bytes <= 0)
    return received_bytes;]. *)
Definition recv_or_return (fd : Z) (s : SocketInput) (off len : Z)
    (k : Z → SocketInput → M W (Z * SocketInput)) : M W (Z * SocketInput) :=
  '(received, s) ← recv_at fd s off len;
  if received <=? 0 then mret (received, s) else k received s.

(** [int32_t remain_bytes = 0; ioctl(socket_fd, FIONREAD, &remain_bytes);] *)
Definition ioctl_remain (fd : Z) : M W Z :=
  r ← call (sys_fionread fd); mret (default 0 r).

(** The size check and the [resize] which precede a [recv] into a grown
    buffer; the block occurs three times in [feed]. *)
Definition grow_or_return (s : SocketInput) (remain_bytes : Z)
    (k : SocketInput → M W (Z * SocketInput)) : M W (Z * SocketInput) :=
  sum ← lift (i32 (si_buffer_len s + remain_bytes));
  sum ← lift (i32 (sum + 1));
  if si_max_buffer_len s <? sum then mret (-1000, SocketInput_init s) else
  arg ← lift (i32 (remain_bytes + 1));
  '(resized, s) ← lift (SocketInput_resize s arg);
  if negb resized then mret (0, s) else k s.

(** [head_ <= tail_] and [head_ == 0]: lines 102-137. *)
Definition feed_from_zero (fd : Z) (s : SocketInput) : M W (Z * SocketInput) :=
  let free_bytes := si_buffer_len s - si_tail s - 1 in
  let rest (received_bytes filled_bytes : Z) (s : SocketInput) :=
    if (free_bytes <=? 0) || (free_bytes =? received_bytes) then
      remain_bytes ← ioctl_remain fd;
      if 0 <? remain_bytes then
        grow_or_return s remain_bytes (λ s,
          recv_or_return fd s (si_tail s) free_bytes (λ received_bytes s,
            mret (filled_bytes + received_bytes,
                  si_set_tail s (si_tail s + received_bytes))))
      else mret (filled_bytes, s)
    else mret (filled_bytes, s) in
  if 0 <? free_bytes then
    recv_or_return fd s (si_tail s) free_bytes (λ received_bytes s,
      rest received_bytes received_bytes (si_set_tail s (si_tail s + received_bytes)))
  else rest 0 0 s.

(** [head_ <= tail_] and [head_ != 0]: lines 138-228. *)
Definition feed_wrap (fd : Z) (s : SocketInput) : M W (Z * SocketInput) :=
  let free_bytes := si_buffer_len s - si_tail s in
  recv_or_return fd s (si_tail s) free_bytes (λ received_bytes s,
    t ← lift (c_rem (si_tail s + received_bytes) (si_buffer_len s));
    let s := si_set_tail s t in
    let filled_bytes := received_bytes in
    if received_bytes =? free_bytes then
      remain_bytes ← ioctl_remain fd;
      if remain_bytes <=? 0 then mret (filled_bytes, s) else
      let free_bytes := si_head s - 1 in
      let finish received_bytes s :=
        mret (filled_bytes + received_bytes,
              si_set_tail s (si_tail s + received_bytes)) in
      if free_bytes <? remain_bytes then
        grow_or_return s remain_bytes (λ s,
          recv_or_return fd s (si_tail s) remain_bytes finish)
      else recv_or_return fd s 0 remain_bytes finish
    else mret (filled_bytes, s)).

(** [head_ > tail_]: lines 230-258. *)
Definition feed_wrapped (fd : Z) (s : SocketInput) : M W (Z * SocketInput) :=
  let free_bytes := si_head s - si_tail s - 1 in
  recv_or_return fd s (si_tail s) free_bytes (λ received_bytes s,
    let s := si_set_tail s (si_tail s + received_bytes) in
    let filled_bytes := received_bytes in
    if free_bytes =? received_bytes then
      remain_bytes ← ioctl_remain fd;
      if 0 <? remain_bytes then
        grow_or_return s remain_bytes (λ s,
          recv_or_return fd s (si_tail s) remain_bytes (λ received_bytes s,
            mret (filled_bytes + received_bytes,
                  si_set_tail s (si_tail s + received_bytes))))
      else mret (filled_bytes, s)
    else mret (filled_bytes, s)).

Definition SocketInput_feed (fd : Z) (s : SocketInput) : M W (Z * SocketInput) :=
  if si_head s <=? si_tail s then
    if si_head s =? 0 then feed_from_zero fd s else feed_wrap fd s
  else feed_wrapped fd s.
End feed.

(** ** The queue a buffer implements *)
Record si_wf (s : SocketInput) : Prop := {
  siw_len : zlen (si_buffer s) = si_buffer_len s;
  siw_bound : SOCKET_INPUT_SIZE ≤ si_buffer_len s ≤ SOCKET_INPUT_MAXSIZE + 6;
  siw_max : si_max_buffer_len s = SOCKET_INPUT_MAXSIZE;
  siw_head : 0 ≤ si_head s < si_buffer_len s;
  siw_tail : 0 ≤ si_tail s < si_buffer_len s;
}.

Definition input_contents (s : SocketInput) : list cell :=
  ring_contents (si_buffer s) (si_head s) (si_tail s).

(** The buffer is well formed and holds the bytes [q], oldest first. *)
Definition input_holds (s : SocketInput) (q : list byte) : Prop :=
  si_wf s ∧ input_contents s = vals q.

Ltac si_consts :=
  unfold SOCKET_INPUT_SIZE_HALF, SOCKET_INPUT_SIZE, SOCKET_INPUT_MAXSIZE, INT_MAX, INT_MIN in *;
  change (Z.shiftr 16 1) with 8 in *.
Ltac si_lia := si_consts; zlen_facts; lia.
Ltac si_open :=
  repeat match goal with
  | H : input_holds ?s _ |- _ => destruct H as [[?Hl ?Hb ?Hm ?Hh ?Ht] ?Hc]
  end; cbn [si_buffer si_buffer_len si_max_buffer_len si_head si_tail
            si_set_tail si_set_head si_set_buffer] in *.

Lemma input_length s q : input_holds s q → SocketInput_length s = zlen q.
Proof.
  intros Hq. si_open. rewrite <- zlen_vals.
  rewrite <- Hc. unfold input_contents.
  rewrite ring_contents_length by lia. unfold SocketInput_length, ring_length.
  by rewrite Hl.
Qed.

Lemma input_ring_length s q :
  input_holds s q → ring_length (zlen (si_buffer s)) (si_head s) (si_tail s) = zlen q.
Proof.
  intros H. rewrite <- (input_length s q H). si_open.
  unfold SocketInput_length, ring_length. by rewrite Hl.
Qed.

Lemma input_queue_bound s q : input_holds s q → zlen q < si_buffer_len s.
Proof.
  intros H. rewrite <- (input_length s q H). si_open.
  unfold SocketInput_length. zcases; lia.
Qed.

Lemma input_new_holds : input_holds SocketInput_new [].
Proof. split; [|done]. by constructor; simpl; si_consts. Qed.

Lemma input_init_holds s q : input_holds s q → input_holds (SocketInput_init s) [].
Proof. intros H. si_open. split; [|done]. by constructor; simpl; si_consts. Qed.

(** [resize] moves the queue to the start of a larger block. *)
Lemma resize_spec s q size :
  input_holds s q → 0 < size →
  si_buffer_len s + Z.max size SOCKET_INPUT_SIZE_HALF ≤ SOCKET_INPUT_MAXSIZE + 6 →
  ∃ s', SocketInput_resize s size = Ok (true, s') ∧ input_holds s' q ∧
    si_head s' = 0 ∧ si_tail s' = zlen q ∧
    si_buffer_len s' = si_buffer_len s + Z.max size SOCKET_INPUT_SIZE_HALF.
Proof.
  intros Hq Hs Hb. pose proof (input_length s q Hq) as Hlen.
  pose proof (input_queue_bound s q Hq) as Hlt.
  set (n := si_buffer_len s + Z.max size SOCKET_INPUT_SIZE_HALF) in *.
  assert (Hsz : (if SOCKET_INPUT_SIZE_HALF <? size then size else SOCKET_INPUT_SIZE_HALF)
                = Z.max size SOCKET_INPUT_SIZE_HALF) by (zcase; lia).
  unfold SocketInput_resize. rewrite Hsz, Hlen. fold n. si_open.
  rewrite (proj2 (Z.leb_gt size 0)) by lia.
  rewrite i32_ok by (subst n; si_lia). simpl.
  rewrite new_array_ok by (subst n; si_lia). simpl.
  assert (Hn : zlen (fill n None) = n) by (apply zlen_fill; subst n; si_lia).
  assert (Hcopy : ∀ b, b = splice (fill n None) 0 (vals q) →
    input_holds (mkSocketInput b n (si_max_buffer_len s) 0 (zlen q)) q).
  { intros b ->. zlen_facts. split.
    - constructor; simpl; [rewrite zlen_splice; zlia|subst n; si_lia..].
    - unfold input_contents; simpl. rewrite <- (zlen_vals q).
      apply ring_compact. rewrite zlen_vals. subst n; si_lia. }
  unfold input_contents, ring_contents in *.
  destruct (Z.ltb_spec (si_head s) (si_tail s)); [|destruct (Z.ltb_spec (si_tail s) (si_head s))].
  - rewrite memcpy_ok by (subst n; si_lia). simpl.
    eexists; split; [reflexivity|]. split; [apply Hcopy; congruence|done].
  - rewrite memcpy_ok by (subst n; si_lia). simpl.
    rewrite memcpy_ok by (rewrite ?zlen_splice by zlia; subst n; si_lia). simpl.
    eexists; split; [reflexivity|]. split; [apply Hcopy|done].
    rewrite <- Hc, Hl. rewrite <- splice_splice_seq by (subst n; zlia).
    rewrite zlen_slice by lia. by rewrite (Z.add_0_l (si_buffer_len s - _)).
  - eexists; split; [reflexivity|]. split; [apply Hcopy|done].
    rewrite <- Hc. by rewrite splice_nil_id by lia.
Qed.

(** ** Appending to the queue *)
Definition input_append (s : SocketInput) (bs : list byte) : SocketInput :=
  si_set_tail (si_set_buffer s (splice (si_buffer s) (si_tail s) (vals bs)))
    ((si_tail s + zlen bs) mod si_buffer_len s).

Lemma input_push s q bs :
  input_holds s q →
  (if si_head s <=? si_tail s
   then si_tail s + zlen bs < si_buffer_len s
        ∨ (0 < si_head s ∧ si_tail s + zlen bs = si_buffer_len s)
   else si_tail s + zlen bs < si_head s) →
  input_holds (input_append s bs) (q ++ bs).
Proof.
  intros Hq Hfit. si_open. zlen_facts. unfold input_append. split.
  - constructor; simpl; try done.
    + rewrite zlen_splice, Hl; [done|lia|rewrite zlen_vals]. revert Hfit. zcase; lia.
    + apply Z.mod_pos_bound. si_lia.
  - unfold input_contents in *. cbn [si_set_buffer si_set_tail si_buffer si_head si_tail].
    rewrite vals_app, <- Hc. revert Hfit. rewrite <- (zlen_vals bs).
    destruct (Z.leb_spec (si_head s) (si_tail s)); [intros [?|[? Hend]]|intros ?].
    + rewrite Z.mod_small by zlia. apply ring_push_linear; lia.
    + rewrite Hend, Z.mod_same by si_lia. apply ring_push_to_end; lia.
    + rewrite Z.mod_small by zlia. apply ring_push_wrapped; zlia.
Qed.

(** The same without wrapping, as [tail_ += received_bytes] writes it. *)
Lemma input_push_linear s q bs :
  input_holds s q →
  si_tail s + zlen bs < (if si_head s <=? si_tail s then si_buffer_len s else si_head s) →
  input_holds (si_set_tail (si_set_buffer s (splice (si_buffer s) (si_tail s) (vals bs)))
                 (si_tail s + zlen bs)) (q ++ bs).
Proof.
  intros Hq Hfit. pose proof (input_push s q bs Hq) as Hp. unfold input_append in Hp.
  zlen_facts. rewrite Z.mod_small in Hp; [apply Hp|si_open]; revert Hfit; zcase; lia.
Qed.

(** ** [fetch] and [skip] *)

(** The abstract queue operation: a request that cannot be served in full is
    ignored; otherwise the oldest bytes are removed. *)
Definition queue_take (q : list byte) (size : Z) : option (list byte * list byte) :=
  if (size =? 0) || (zlen q <? size) then None
  else Some (take (Z.to_nat size) q, drop (Z.to_nat size) q).

Lemma input_pop s q n :
  input_holds s q → 0 ≤ n ≤ zlen q →
  input_holds (si_set_head s ((si_head s + n) mod si_buffer_len s)) (drop (Z.to_nat n) q).
Proof.
  intros Hq Hn. pose proof (input_ring_length s q Hq). si_open. split.
  - constructor; simpl; try done. apply Z.mod_pos_bound. si_lia.
  - unfold input_contents in *. cbn [si_set_head si_buffer si_head si_tail].
    rewrite <- Hl. rewrite ring_pop by lia. rewrite Hc. unfold vals.
    by rewrite fmap_drop.
Qed.

Lemma fetch_copy s q dst n :
  input_holds s q → 0 < n ≤ zlen q → n ≤ zlen dst →
  (if si_head s <? si_tail s then memcpy dst 0 (si_buffer s) (si_head s) n
   else
     let right_size := si_buffer_len s - si_head s in
     if n <? right_size then memcpy dst 0 (si_buffer s) (si_head s) n
     else
       b ← memcpy dst 0 (si_buffer s) (si_head s) right_size;
       memcpy b right_size (si_buffer s) 0 (n - right_size)) =
  Ok (splice dst 0 (vals (take (Z.to_nat n) q))).
Proof.
  intros Hq Hn Hd. pose proof (input_ring_length s q Hq) as Hr.
  pose proof (input_queue_bound s q Hq).
  assert (Hp : vals (take (Z.to_nat n) q) = take (Z.to_nat n) (input_contents s)).
  { si_open. rewrite Hc. unfold vals. by rewrite fmap_take. }
  rewrite Hp. si_open. unfold input_contents. rewrite ring_peek by lia. rewrite Hl.
  unfold ring_length in Hr. rewrite Hl in Hr. cbv zeta.
  destruct (Z.ltb_spec (si_head s) (si_tail s)); simpl.
  - by rewrite memcpy_ok by si_lia.
  - destruct (Z.ltb_spec (si_tail s) (si_head s)); [|lia].
    destruct (Z.ltb_spec n (si_buffer_len s - si_head s)); [by rewrite memcpy_ok by si_lia|].
    rewrite memcpy_ok by si_lia. simpl.
    assert (Hz : zlen (slice (si_buffer s) (si_head s) (si_buffer_len s - si_head s))
            = si_buffer_len s - si_head s) by (apply zlen_slice; si_lia).
    rewrite memcpy_ok by (rewrite ?zlen_splice by si_lia; si_lia).
    rewrite <- splice_splice_seq; [by rewrite Hz|lia|].
    rewrite Hz, zlen_slice by si_lia. si_lia.
Qed.

Lemma input_fetch_spec (s : SocketInput) (q : list byte) (dst : list cell) (size : Z) :
  input_holds s q → 0 ≤ size ≤ zlen dst →
  match queue_take q size with
  | None => SocketInput_fetch s dst size = Ok (dst, s)
  | Some (bs, q') => ∃ s', input_holds s' q' ∧
      SocketInput_fetch s dst size = Ok (splice dst 0 (vals bs), s')
  end.
Proof.
  intros Hq Hs. unfold queue_take, SocketInput_fetch.
  rewrite (input_length s q Hq).
  destruct ((size =? 0) || (zlen q <? size)) eqn:E; [done|].
  apply orb_false_iff in E as [E1 E2]. apply Z.eqb_neq in E1. apply Z.ltb_ge in E2.
  rewrite (fetch_copy s q) by (done || lia). simpl.
  assert (0 ≤ si_head s ∧ 0 < si_buffer_len s) as [? ?] by (si_open; si_lia).
  rewrite c_rem_ok by lia. simpl.
  eexists. split; [|reflexivity]. apply input_pop; [done|lia].
Qed.

(** C15. [fetch] refines the queue: on a destination that is large enough it
    never goes out of bounds, ignores a request for zero bytes or for more than
    it holds (buffer and destination unchanged), and otherwise copies exactly
    the oldest [size] bytes to the destination and removes them. *)
Theorem fetch_refines_queue (s : SocketInput) (q : list byte) (dst : list cell) (size : Z) :
  input_holds s q → 0 ≤ size ≤ zlen dst →
  match queue_take q size with
  | None => SocketInput_fetch s dst size = Ok (dst, s)
  | Some (bs, q') => ∃ s', input_holds s' q' ∧
      SocketInput_fetch s dst size = Ok (splice dst 0 (vals bs), s')
  end.
Proof. apply input_fetch_spec. Qed.

Lemma input_fetch_negative (s : SocketInput) (q : list byte) (dst : list cell) (size : Z) :
  input_holds s q → INT_MIN ≤ size < 0 → zlen dst ≤ 2 ^ 33 →
  SocketInput_fetch s dst size = Undefined OutOfBounds.
Proof.
  intros Hq Hs Hd. pose proof (zlen_nonneg q). unfold SocketInput_fetch.
  rewrite (input_length s q Hq). zbool. simpl.
  destruct (si_head s <? si_tail s); [by rewrite memcpy_negative by lia|].
  assert ((size <? si_buffer_len s - si_head s) = true) as -> by (si_open; lia).
  by rewrite memcpy_negative by lia.
Qed.

(** A negative [size] passes the guard of [fetch] (it is neither 0 nor
    larger than the length), becomes a huge [size_t] and makes [memcpy] run out
    of the blocks: undefined behaviour, whatever the buffer holds. *)
Theorem fetch_negative_undefined (s : SocketInput) (q : list byte) (dst : list cell) (size : Z) :
  input_holds s q → INT_MIN ≤ size < 0 → zlen dst ≤ 2 ^ 33 →
  SocketInput_fetch s dst size = Undefined OutOfBounds.
Proof. apply input_fetch_negative. Qed.

(** [skip] drops what [fetch] would read. *)
Theorem skip_refines_queue (s : SocketInput) (q : list byte) (size : Z) :
  input_holds s q → 0 ≤ size →
  match queue_take q size with
  | None => SocketInput_skip s size = Ok s
  | Some (_, q') => ∃ s', input_holds s' q' ∧ SocketInput_skip s size = Ok s'
  end.
Proof.
  intros Hq Hs. unfold queue_take, SocketInput_skip. rewrite (input_length s q Hq).
  destruct ((size =? 0) || (zlen q <? size)) eqn:E; [done|].
  apply orb_false_iff in E as [E1 E2]. apply Z.eqb_neq in E1. apply Z.ltb_ge in E2.
  assert (0 ≤ si_head s ∧ 0 < si_buffer_len s) as [? ?] by (si_open; si_lia).
  rewrite c_rem_ok by lia. simpl.
  eexists. split; [|reflexivity]. apply input_pop; [done|lia].
Qed.

(** ** [feed] *)

(** *** What [feed] does, on queues

    The same calls of the kernel as [feed], on a queue [q] in a ring of [len] cells
    whose oldest byte is at [head], without the ring.  The result is the number
    [feed] returns and the queue it leaves, or [None] when the bytes have filled a
    grown block to its very end: the tail is then beyond the last cell and
    the buffer is no ring any more. *)
Section feed_stream.
Context {W : Type} `{SocketApi W}.
Abbreviation fed := (Z * option (list byte))%type.

(** A [recv] of at most [ask] bytes behind [q]; an error and an end of the stream
    end the call, with -1 and 0. *)
Definition receive (fd ask : Z) (q : list byte) (k : list byte → M W fed) : M W fed :=
  r ← call (sys_recv fd ask);
  match r with
  | None => mret (-1, Some q)
  | Some bs => if zlen bs =? 0 then mret (0, Some q) else k bs
  end.

(** The block grows for [z] more bytes, unless the sum overflows [int] or is beyond
    the limit, when all is dropped. *)
Definition grow (len z : Z) (k : M W fed) : M W fed :=
  if INT_MAX <? len + z + 1 then lift (Undefined SignedOverflow)
  else if SOCKET_INPUT_MAXSIZE <? len + z + 1 then mret (-1000, Some []) else k.

(** The bytes [bs] go behind [q] in a block of [room] cells, with the head at 0. *)
Definition store (room r : Z) (q bs : list byte) : M W fed :=
  if room <? zlen (q ++ bs) then lift (Undefined OutOfBounds)
  else mret (r, if room =? zlen (q ++ bs) then None else Some (q ++ bs)).

(** After a first [recv] that took [got] and filled the cells it was given: [free]
    of them, up to the end of the array ([to_end]), or up to the head. *)
Definition feed_more (fd len head free : Z) (to_end : bool) (q got : list byte) : M W fed :=
  z ← ioctl_remain fd;
  if z <=? 0 then mret (zlen got, Some (q ++ got))
  else if to_end && (z <? head) then
    receive fd z (q ++ got) (λ bs, mret (zlen got + zlen bs, Some ((q ++ got) ++ bs)))
  else
    grow len z (
      receive fd (if head =? 0 then free else z) (q ++ got) (λ bs,
        store (len + Z.max (z + 1) SOCKET_INPUT_SIZE_HALF) (zlen got + zlen bs) (q ++ got) bs)).

Definition feed_stream (fd len head : Z) (q : list byte) : M W fed :=
  let to_end := (0 <? head) && (head + zlen q <? len) in
  let free := if to_end then len - head - zlen q else len - 1 - zlen q in
  let more := feed_more fd len head free to_end q in
  if (head =? 0) && (free <=? 0) then more []
  else receive fd free q (λ bs, if zlen bs =? free then more bs else mret (zlen bs, Some (q ++ bs))).
End feed_stream.

Section feed_correct.
Context {W : Type} `{SocketLaws W}.
Implicit Types (w : W) (fd : Z).

(** The buffer whose block was filled to its end. *)
Definition input_filled (s : SocketInput) : Prop := si_head s = 0 ∧ si_tail s = si_buffer_len s.

(** The call of the code does what the call on queues does. *)
Definition feed_matches (abs : outcome ((Z * option (list byte)) * W))
    (conc : outcome ((Z * SocketInput) * W)) : Prop :=
  match abs with
  | Ok ((r, Some q'), w') => ∃ s', conc = Ok ((r, s'), w') ∧ input_holds s' q'
  | Ok ((r, None), w') => ∃ s', conc = Ok ((r, s'), w') ∧ input_filled s'
  | Undefined u => conc = Undefined u
  | Throws _ | NoFuel => False
  end.

(** A [recv] into the ring at [off]. *)
Lemma receive_matches fd w q (s : SocketInput) off len k ka :
  input_holds s q → 0 ≤ len ≤ INT_MAX → 0 ≤ off ≤ zlen (si_buffer s) →
  (∀ bs w2, sys_recv fd len w = (Some bs, w2) → 0 < zlen bs ≤ len →
     (off + zlen bs ≤ zlen (si_buffer s) ∧
      feed_matches (ka bs w2)
        (k (zlen bs) (si_set_buffer s (splice (si_buffer s) off (vals bs))) w2)) ∨
     (zlen (si_buffer s) < off + zlen bs ∧ ka bs w2 = Undefined OutOfBounds)) →
  feed_matches (receive fd len q ka w) (recv_or_return fd s off len k w).
Proof.
  intros Hq Hlen Hoff Hk. unfold recv_or_return, recv_at, receive.
  unfold mbind, M_bind, call, mret, M_ret. rewrite size_t_nonneg by lia.
  destruct (sys_recv fd len w) as [[bs|] w2] eqn:E; [|by exists s].
  destruct (recv_data _ _ _ _ _ (proj1 Hlen) E) as [Hbs _]. zlen_facts.
  destruct (Z.eqb_spec (zlen bs) 0) as [Hz|Hz].
  - assert (bs = []) as -> by (by apply zlen_0_nil). zbool. cbn [andb].
    exists s. split; [|done]. unfold vals. simpl. rewrite splice_nil_id by lia. by destruct s.
  - destruct (Hk bs w2 eq_refl) as [[Hfit Hm]|[Hover E2]]; [lia| |]; zbool; cbn [andb].
    + zbool. done.
    + by rewrite E2.
Qed.

(** Growing. *)
Lemma grow_matches (s : SocketInput) q z w k ka :
  input_holds s q → 0 < z ≤ INT_MAX →
  (∀ s', input_holds s' q → si_head s' = 0 → si_tail s' = zlen q →
     si_buffer_len s' = si_buffer_len s + Z.max (z + 1) SOCKET_INPUT_SIZE_HALF →
     si_buffer_len s + z + 1 ≤ SOCKET_INPUT_MAXSIZE →
     feed_matches (ka w) (k s' w)) →
  feed_matches (grow (si_buffer_len s) z ka w) (grow_or_return s z k w).
Proof.
  intros Hq Hz Hk. unfold grow_or_return, grow.
  assert (SOCKET_INPUT_SIZE ≤ si_buffer_len s ≤ SOCKET_INPUT_MAXSIZE + 6 ∧
          si_max_buffer_len s = SOCKET_INPUT_MAXSIZE) as [? Hm] by (si_open; done).
  unfold mbind, M_bind, mret, M_ret, lift.
  destruct (Z.ltb_spec INT_MAX (si_buffer_len s + z + 1)) as [Hover|Hfit].
  { unfold i32 at 1. destruct ((INT_MIN <=? si_buffer_len s + z) && (si_buffer_len s + z <=? INT_MAX)); [|done].
    unfold i32. rewrite (proj2 (Z.leb_gt (si_buffer_len s + z + 1) INT_MAX)) by lia.
    by rewrite andb_false_r. }
  repeat (rewrite i32_ok by si_lia; cbv beta iota). rewrite Hm.
  destruct (Z.ltb_spec SOCKET_INPUT_MAXSIZE (si_buffer_len s + z + 1)).
  { exists (SocketInput_init s). split; [done|]. by apply (input_init_holds s q). }
  destruct (resize_spec s q (z + 1) Hq) as (s' & E & Hs' & Hh & Ht & Hl); [lia|si_lia|].
  rewrite E. cbv beta iota. cbn [negb]. by apply Hk.
Qed.

(** The bytes stored in a block with the head at 0. *)
Lemma store_matches (s : SocketInput) q bs r w :
  input_holds s q → si_head s = 0 → si_tail s = zlen q → 
  (si_tail s + zlen bs ≤ zlen (si_buffer s) ∧
   feed_matches (store (si_buffer_len s) r q bs w)
     (Ok ((r, si_set_tail (si_set_buffer s (splice (si_buffer s) (si_tail s) (vals bs)))
                (si_tail s + zlen bs)), w))) ∨
  (zlen (si_buffer s) < si_tail s + zlen bs ∧
   store (si_buffer_len s) r q bs w = Undefined OutOfBounds).
Proof.
  intros Hs Hh Ht. assert (zlen (si_buffer s) = si_buffer_len s) as Hl by (by si_open).
  unfold store. rewrite Hl, Ht, zlen_app.
  destruct (Z.ltb_spec (si_buffer_len s) (zlen q + zlen bs)); [by right|left].
  split; [lia|]. destruct (Z.eqb_spec (si_buffer_len s) (zlen q + zlen bs)) as [E|].
  - eexists. split; [done|]. split; [done|]. simpl. lia.
  - eexists. split; [done|]. rewrite <- Ht. apply (input_push_linear s q bs Hs).
    rewrite Hh. zcase; zlia.
Qed.

(** What is asked of the kernel between the two [recv]s. *)
Lemma remain_range fd w z w1 : ioctl_remain fd w = Ok (z, w1) → 0 ≤ z ≤ INT_MAX.
Proof.
  unfold ioctl_remain, mbind, M_bind, call, mret, M_ret.
  destruct (sys_fionread fd w) as [[y|] w2] eqn:E; intros [= <- _]; [|unfold INT_MAX; simpl; lia].
  by apply (fionread_value fd w y w2).
Qed.
Lemma remain_returns fd w : ∃ z w1, ioctl_remain fd w = Ok (z, w1).
Proof.
  unfold ioctl_remain, mbind, M_bind, call, mret, M_ret.
  destruct (sys_fionread fd w) as [[y|] w2]; by eexists _, _.
Qed.

(** Growing for what is left, and receiving it: the end of the three branches. *)
Lemma grow_receive_matches fd (s : SocketInput) q got ask z w :
  input_holds s (q ++ got) → 0 < z ≤ INT_MAX → 0 ≤ ask ≤ INT_MAX →
  feed_matches
    (grow (si_buffer_len s) z (receive fd ask (q ++ got) (λ bs,
       store (si_buffer_len s + Z.max (z + 1) SOCKET_INPUT_SIZE_HALF) (zlen got + zlen bs) (q ++ got) bs)) w)
    (grow_or_return s z (λ s,
       recv_or_return fd s (si_tail s) ask (λ received_bytes s,
         mret (zlen got + received_bytes, si_set_tail s (si_tail s + received_bytes)))) w).
Proof.
  intros Hs Hz Hask. apply (grow_matches s (q ++ got)); [done..|].
  intros s2 Hs2 Hh2 Ht2 Hl2 _. rewrite <- Hl2.
  pose proof (input_queue_bound s2 _ Hs2). assert (zlen (si_buffer s2) = si_buffer_len s2) by (by si_open).
  apply receive_matches; [done|done|zlen_facts; lia|]. intros bs w2 _ _. by apply store_matches.
Qed.

(** [head_ == 0]. *)
Lemma feed_from_zero_matches fd w (s : SocketInput) q :
  input_holds s q → si_head s = 0 →
  feed_matches (feed_stream fd (si_buffer_len s) (si_head s) q w) (feed_from_zero fd s w).
Proof.
  intros Hq Hh. pose proof (input_length s q Hq) as Hlen. pose proof (input_queue_bound s q Hq).
  assert (si_tail s = zlen q) as Ht.
  { rewrite <- Hlen. unfold SocketInput_length. rewrite Hh. si_open. zcases; lia. }
  assert (zlen (si_buffer s) = si_buffer_len s ∧ si_buffer_len s ≤ INT_MAX) as [Hl ?] by (si_open; si_lia).
  unfold feed_stream, feed_from_zero. rewrite Hh, Ht. change (0 <? 0) with false.
  change (0 =? 0) with true. cbn [andb]. cbv zeta.
  replace (si_buffer_len s - zlen q - 1) with (si_buffer_len s - 1 - zlen q) by lia.
  set (free := si_buffer_len s - 1 - zlen q).
  assert (Hmore : ∀ s1 got w1, input_holds s1 (q ++ got) → si_buffer_len s1 = si_buffer_len s →
    0 ≤ free →
    feed_matches (feed_more fd (si_buffer_len s) 0 free false q got w1)
      ((remain_bytes ← ioctl_remain fd;
        if 0 <? remain_bytes then
          grow_or_return s1 remain_bytes (λ s,
            recv_or_return fd s (si_tail s) free (λ received_bytes s,
              mret (zlen got + received_bytes, si_set_tail s (si_tail s + received_bytes))))
        else mret (zlen got, s1)) w1)).
  { intros s1 got w1 Hs1 Hl1 Hfree. unfold feed_more. cbn [andb]. change (0 =? 0) with true.
    destruct (remain_returns fd w1) as (z & w2 & E). pose proof (remain_range _ _ _ _ E).
    rewrite !(M_bind_ok _ _ _ _ _ E). destruct (Z.leb_spec z 0); zbool; [by exists s1|].
    rewrite <- Hl1. apply grow_receive_matches; [done|lia|unfold free; zlen_facts; lia]. }
  destruct (Z.leb_spec free 0); zbool; cbn [orb].
  - apply (Hmore s []); [by rewrite app_nil_r|done|unfold free; lia].
  - apply receive_matches; [done|unfold free in *; zlen_facts; lia|zlen_facts; lia|].
    intros bs w2 _ Hbs. left. split; [unfold free in *; lia|].
    assert (Hs1 := input_push_linear s q bs Hq). rewrite Hh in Hs1. revert Hs1.
    zcase; [|zlen_facts; lia]. intros Hs1. specialize (Hs1 ltac:(unfold free in *; lia)).
    rewrite Ht in Hs1. rewrite (Z.eqb_sym free). change (si_tail (si_set_buffer s _)) with (si_tail s).
    rewrite Ht. destruct (Z.eqb_spec (zlen bs) free); [|by eexists].
    apply Hmore; [done|done|lia].
Qed.

(** [head_ > tail_]. *)
Lemma feed_wrapped_matches fd w (s : SocketInput) q :
  input_holds s q → si_tail s < si_head s →
  feed_matches (feed_stream fd (si_buffer_len s) (si_head s) q w) (feed_wrapped fd s w).
Proof.
  intros Hq Hht. pose proof (input_length s q Hq) as Hlen.
  assert (zlen (si_buffer s) = si_buffer_len s ∧ si_head s < si_buffer_len s ∧ 0 ≤ si_tail s ∧
    si_buffer_len s ≤ INT_MAX) as (Hl & ? & ? & ?) by (si_open; si_lia).
  unfold SocketInput_length in Hlen. revert Hlen. zcase; [lia|]. zcase; [|lia]. intros Hlen.
  unfold feed_stream, feed_wrapped. cbv zeta. zbool. cbn [andb].
  replace (si_head s - si_tail s - 1) with (si_buffer_len s - 1 - zlen q) by lia.
  set (free := si_buffer_len s - 1 - zlen q).
  apply receive_matches; [done|unfold free; lia|lia|].
  intros bs w2 _ Hbs. left. split; [unfold free in *; lia|].
  assert (Hs1 := input_push_linear s q bs Hq). revert Hs1. zcase; [lia|]. intros Hs1.
  specialize (Hs1 ltac:(unfold free in *; lia)).
  rewrite (Z.eqb_sym free). change (si_tail (si_set_buffer s _)) with (si_tail s).
  destruct (Z.eqb_spec (zlen bs) free); [|by eexists].
  unfold feed_more. cbn [andb]. destruct (remain_returns fd w2) as (z & w3 & E).
  pose proof (remain_range _ _ _ _ E). rewrite !(M_bind_ok _ _ _ _ _ E).
  destruct (Z.leb_spec z 0); zbool; [by eexists|].
  refine (grow_receive_matches fd _ q bs z z w3 Hs1 _ _); lia.
Qed.

(** [head_ != 0] and [head_ <= tail_]. *)
Lemma feed_wrap_matches fd w (s : SocketInput) q :
  input_holds s q → 0 < si_head s ≤ si_tail s →
  feed_matches (feed_stream fd (si_buffer_len s) (si_head s) q w) (feed_wrap fd s w).
Proof.
  intros Hq Hht. pose proof (input_length s q Hq) as Hlen.
  assert (zlen (si_buffer s) = si_buffer_len s ∧ si_tail s < si_buffer_len s ∧
    si_buffer_len s ≤ INT_MAX) as (Hl & ? & ?) by (si_open; si_lia).
  assert (zlen q = si_tail s - si_head s) as Hn.
  { rewrite <- Hlen. unfold SocketInput_length. zcases; lia. }
  unfold feed_stream, feed_wrap. cbv zeta. zbool. cbn [andb].
  replace (si_buffer_len s - si_head s - zlen q) with (si_buffer_len s - si_tail s) by lia.
  set (free := si_buffer_len s - si_tail s).
  apply receive_matches; [done|unfold free; lia|lia|].
  intros bs w2 _ Hbs. left. split; [unfold free in *; lia|].
  assert (Hs1 : input_holds (input_append s bs) (q ++ bs)).
  { apply input_push; [done|]. unfold free in *. zcase; lia. }
  change (si_tail (si_set_buffer s _)) with (si_tail s).
  change (si_buffer_len (si_set_buffer s _)) with (si_buffer_len s).
  rewrite c_rem_ok, M_bind_lift by lia.
  destruct (Z.eqb_spec (zlen bs) free) as [Hfull|]; [|by eexists].
  unfold feed_more. cbn [andb]. destruct (remain_returns fd w2) as (z & w3 & E).
  pose proof (remain_range _ _ _ _ E). rewrite !(M_bind_ok _ _ _ _ _ E).
  destruct (Z.leb_spec z 0); zbool; [by eexists|].
  change (si_head (si_set_tail _ _)) with (si_head s).
  assert (si_tail (input_append s bs) = 0) as Ht0.
  { simpl. rewrite Hfull. unfold free. replace (si_tail s + (si_buffer_len s - si_tail s)) with (si_buffer_len s) by lia.
    apply Z.mod_same. lia. }
  destruct (Z.ltb_spec z (si_head s)); zbool.
  - apply receive_matches; [done|lia|zlen_facts; lia|]. intros bs2 w4 _ Hbs2. left.
    assert (zlen (si_buffer (input_append s bs)) = si_buffer_len s) as Hl2
      by (destruct Hs1 as [[-> _ _ _ _] _]; done).
    change (zlen (si_buffer (si_set_tail _ _))) with (zlen (si_buffer (input_append s bs))).
    rewrite Hl2. split; [lia|]. eexists. split; [done|].
    assert (Hs2 := input_push_linear (input_append s bs) _ bs2 Hs1). rewrite Ht0 in Hs2.
    change (si_head (input_append s bs)) with (si_head s) in Hs2. revert Hs2. zcase; [lia|].
    intros Hs2. specialize (Hs2 ltac:(lia)).
    change (input_append s bs) with (si_set_tail (si_set_buffer s (splice (si_buffer s) (si_tail s) (vals bs)))
      ((si_tail s + zlen bs) mod si_buffer_len s)) in Hs2, Ht0.
    simpl in *. rewrite Ht0. exact Hs2.
  - refine (grow_receive_matches fd _ q bs z z w3 Hs1 _ _); lia.
Qed.

Lemma input_feed_spec fd w (s : SocketInput) (q : list byte) :
  input_holds s q →
  feed_matches (feed_stream fd (si_buffer_len s) (si_head s) q w) (SocketInput_feed fd s w).
Proof.
  intros Hq. unfold SocketInput_feed.
  destruct (Z.leb_spec (si_head s) (si_tail s)); [destruct (Z.eqb_spec (si_head s) 0)|].
  - by apply feed_from_zero_matches.
  - apply feed_wrap_matches; [done|]. si_open. lia.
  - by apply feed_wrapped_matches.
Qed.

(** *** What moves *)

(** The bytes [bs] have moved from the kernel to the end of the queue, in order, and
    a positive result counts exactly them; 0 is for an end of the stream, or a full
    ring with nothing behind it; -1 for a [recv] that failed, the last call made.
    Or the bytes that [FIONREAD] reported do not fit below the limit, and the
    queue is dropped. *)
Definition stream_moved fd len q w (r : Z) (q' : option (list byte)) w' : Prop :=
  (∃ bs, (∀ q1, q' = Some q1 → q1 = q ++ bs) ∧ pending w fd = bs ++ pending w' fd ∧
     ((0 < r ∧ r = zlen bs) ∨
      (r = 0 ∧ is_Some q' ∧ ((∃ n w1, sys_recv fd n w1 = (Some [], w')) ∨ zlen q = len - 1)) ∨
      (r = -1 ∧ is_Some q' ∧ ∃ n w1, sys_recv fd n w1 = (None, w')))) ∨
  (r = -1000 ∧ q' = Some [] ∧
     ∃ z w1, sys_fionread fd w1 = (Some z, w') ∧ SOCKET_INPUT_MAXSIZE < len + z + 1).

Lemma receive_moved fd len ask q got w0 w k r q' w' :
  0 ≤ ask → pending w0 fd = got ++ pending w fd →
  (∀ bs w2, 0 < zlen bs → pending w0 fd = (got ++ bs) ++ pending w2 fd →
     k bs w2 = Ok ((r, q'), w') → stream_moved fd len q w0 r q' w') →
  receive fd ask (q ++ got) k w = Ok ((r, q'), w') → stream_moved fd len q w0 r q' w'.
Proof.
  intros Hask Hp Hk. unfold receive, mbind, M_bind, call, mret, M_ret.
  destruct (sys_recv fd ask w) as [[bs|] w2] eqn:E.
  - destruct (recv_data _ _ _ _ _ Hask E) as [_ Hd]. rewrite Hd, app_assoc in Hp.
    destruct (Z.eqb_spec (zlen bs) 0) as [Hz|Hz]; [|apply Hk; [zlen_facts; lia|done]].
    assert (bs = []) as -> by (by apply zlen_0_nil). rewrite app_nil_r in Hp.
    intros [= <- <- <-]. left. exists got. split; [by intros q1 [= <-]|]. split; [done|].
    right. left. split; [done|]. split; [by eexists|]. left. by exists ask, w.
  - intros [= <- <- <-]. left. exists got. split; [by intros q1 [= <-]|].
    split; [by rewrite Hp, (recv_none fd ask w w2 E)|].
    do 2 right. split; [done|]. split; [by eexists|]. by exists ask, w.
Qed.

Lemma remain_pending fd w z w1 :
  ioctl_remain fd w = Ok (z, w1) → pending w1 fd = pending w fd ∧
  (0 < z → sys_fionread fd w = (Some z, w1)).
Proof.
  unfold ioctl_remain, mbind, M_bind, call, mret, M_ret.
  pose proof (fionread_pending fd w fd) as Hp.
  destruct (sys_fionread fd w) as [[y|] w2]; intros [= <- <-]; (split; [done|]); [done|].
  simpl. lia.
Qed.

Lemma feed_more_moved fd len head free to_end q got w0 w r q' w' :
  0 ≤ free → pending w0 fd = got ++ pending w fd → 0 < zlen got ∨ zlen q = len - 1 →
  feed_more fd len head free to_end q got w = Ok ((r, q'), w') →
  stream_moved fd len q w0 r q' w'.
Proof.
  intros Hfree Hp Hgot. unfold feed_more.
  destruct (remain_returns fd w) as (z & w1 & E). rewrite (M_bind_ok _ _ _ _ _ E).
  destruct (remain_pending _ _ _ _ E) as [Hp1 Hz]. rewrite <- Hp1 in Hp.
  zlen_facts. destruct (Z.leb_spec z 0) as [|Hpos].
  { intros [= <- <- <-]. left. exists got. split; [by intros q1 [= <-]|]. split; [done|].
    destruct (Z.eqb_spec (zlen got) 0); [|left; lia].
    right. left. split; [done|]. split; [by eexists|]. right. lia. }
  assert (Hbytes : ∀ bs w2 (q2 : option (list byte)), 0 < zlen bs →
    pending w0 fd = (got ++ bs) ++ pending w2 fd →
    q2 = Some ((q ++ got) ++ bs) ∨ q2 = None →
    stream_moved fd len q w0 (zlen got + zlen bs) q2 w2).
  { intros bs w2 q2 Hbs Hp2 Hq2. left. exists (got ++ bs). split.
    - intros q1 ->. destruct Hq2 as [[= ->]|]; [by rewrite app_assoc|done].
    - split; [done|]. left. rewrite zlen_app. lia. }
  destruct (to_end && (z <? head)).
  { apply receive_moved; [lia|done|]. intros bs w2 Hbs Hp2 [= <- <- <-].
    apply Hbytes; [done|done|by left]. }
  unfold grow. destruct (INT_MAX <? len + z + 1); [done|].
  destruct (Z.ltb_spec SOCKET_INPUT_MAXSIZE (len + z + 1)).
  { intros [= <- <- <-]. right. split; [done|]. split; [done|]. exists z, w. by rewrite Hz. }
  apply receive_moved; [destruct (head =? 0); lia|done|]. intros bs w2 Hbs Hp2.
  unfold store. destruct (_ <? _); [done|]. intros [= <- <- <-].
  apply Hbytes; [done|done|]. case_match; [by right|by left].
Qed.

Lemma feed_stream_moved fd len head q w r q' w' :
  0 ≤ head → zlen q < len →
  feed_stream fd len head q w = Ok ((r, q'), w') → stream_moved fd len q w r q' w'.
Proof.
  intros Hhead Hq. unfold feed_stream. cbv zeta.
  set (to_end := (0 <? head) && (head + zlen q <? len)).
  set (free := if to_end then len - head - zlen q else len - 1 - zlen q).
  assert (0 ≤ free) by (unfold free, to_end; zcases; lia).
  destruct ((head =? 0) && (free <=? 0)) eqn:E.
  - apply feed_more_moved; [done|done|right]. apply andb_true_iff in E as [E1 E2].
    revert E2. unfold free, to_end. apply Z.eqb_eq in E1 as ->. change (0 <? 0) with false.
    cbn [andb]. lia.
  - pose proof (receive_moved fd len free q [] w w) as Hm. rewrite app_nil_r in Hm.
    apply Hm; [done|done|]. clear Hm. intros bs w2 Hbs Hp. rewrite app_nil_l in Hp. destruct (zlen bs =? free).
    + apply feed_more_moved; [done|done|by left].
    + intros [= <- <- <-]. left. exists bs. split; [by intros q1 [= <-]|]. split; [done|]. by left; split.
Qed.

(** What [feed] returns and leaves is what the queues do. *)
Lemma input_feed_moved fd w (s : SocketInput) q r q' w' :
  input_holds s q → feed_stream fd (si_buffer_len s) (si_head s) q w = Ok ((r, q'), w') →
  stream_moved fd (si_buffer_len s) q w r q' w'.
Proof.
  intros Hq. apply feed_stream_moved; [si_open; lia|by apply input_queue_bound].
Qed.

(** C14. [feed] does on the ring, on every branch (appending, wrapping, growing) and
    whatever the kernel answers, what [feed_stream] does on queues: it returns the
    same number, makes the same calls, and holds the same bytes, and it is undefined
    exactly where [feed_stream] is (the room of the grown block, in which the head
    is at 0, is exceeded by what arrived after [FIONREAD], or the size overflows).
    When the bytes fill the grown block to its end the tail is left beyond it.
    The bytes that moved are at the end of the queue in the order they were sent,
    none lost and none duplicated, and a positive result counts exactly them; 0
    is for the end of the stream or a full ring, and -1 for a [recv] that failed;
    with -1000 the bytes reported would have passed the limit of the class, and
    the queue is empty. *)
Theorem feed_refines_stream fd w (s : SocketInput) (q : list byte) :
  input_holds s q →
  match feed_stream fd (si_buffer_len s) (si_head s) q w with
  | Ok ((r, q'), w') => ∃ s', SocketInput_feed fd s w = Ok ((r, s'), w') ∧
      match q' with
      | Some q' => input_holds s' q'
      | None => si_head s' = 0 ∧ si_tail s' = si_buffer_len s'
      end ∧
      ((∃ bs, (∀ q1, q' = Some q1 → q1 = q ++ bs) ∧ pending w fd = bs ++ pending w' fd ∧
          ((0 < r ∧ r = zlen bs) ∨
           (r = 0 ∧ is_Some q' ∧
              ((∃ n w1, sys_recv fd n w1 = (Some [], w')) ∨ zlen q = si_buffer_len s - 1)) ∨
           (r = -1 ∧ is_Some q' ∧ ∃ n w1, sys_recv fd n w1 = (None, w')))) ∨
       (r = -1000 ∧ q' = Some [] ∧
          ∃ z w1, sys_fionread fd w1 = (Some z, w') ∧ SOCKET_INPUT_MAXSIZE < si_buffer_len s + z + 1))
  | Undefined u => SocketInput_feed fd s w = Undefined u
  | Throws _ | NoFuel => False
  end.
Proof.
  intros Hq. pose proof (input_feed_spec fd w s q Hq) as Hm.
  pose proof (λ r q' w', input_feed_moved fd w s q r q' w' Hq) as Hv.
  destruct (feed_stream _ _ _ _ _) as [[[r q'] w']| | |]; [|done..].
  specialize (Hv r q' w' eq_refl). destruct q' as [q'|]; destruct Hm as (s' & E & Hs'); by exists s'.
Qed.

(** When the head is at 0, the second [recv] is given the old free size instead of
    the room of the grown buffer: when enough bytes arrive after [FIONREAD] reported
    [z], they are written past its end. *)
Theorem feed_arrival_overflows fd w (s : SocketInput) (q : list byte) bs1 w1 z w2 bs2 w3 :
  let free := si_buffer_len s - 1 - zlen q in
  input_holds s q → si_head s = 0 → 0 < free →
  sys_recv fd free w = (Some bs1, w1) → zlen bs1 = free →
  sys_fionread fd w1 = (Some z, w2) → 0 < z →
  si_buffer_len s + z + 1 ≤ SOCKET_INPUT_MAXSIZE →
  sys_recv fd free w2 = (Some bs2, w3) →
  Z.max (z + 1) SOCKET_INPUT_SIZE_HALF + 1 < zlen bs2 →
  SocketInput_feed fd s w = Undefined OutOfBounds.
Proof.
  intros free Hq Hh Hf E1 Hb1 Eio Hz Hmax E2 Hb2.
  pose proof (input_feed_spec fd w s q Hq) as Hm. revert Hm.
  assert (0 < si_buffer_len s) by (si_open; si_lia).
  unfold feed_stream, feed_more, ioctl_remain, receive, grow, store, mbind, M_bind, call, mret, M_ret, lift.
  rewrite Hh. change (0 <? 0) with false. change (0 =? 0) with true. cbn [andb]. cbv beta iota zeta.
  fold free. rewrite (proj2 (Z.leb_gt free 0)) by lia. cbv iota. rewrite E1. zbool. cbn [andb]. zbool. rewrite Eio.
  change (default 0 (Some z)) with z. si_consts. zbool. rewrite E2. zlen_facts. zbool. done.
Qed.
End feed_correct.

(** [feed] makes no other calls than [recv] and [FIONREAD] on its descriptor. *)
Section feed_keeps.
Context {W : Type} `{SocketApi W} (P : W → Prop) (fd : Z).
Hypothesis keeps_recv : ∀ n w, P w → P (sys_recv fd n w).2.
Hypothesis keeps_fionread : ∀ w, P w → P (sys_fionread fd w).2.

Lemma recv_or_return_keeps s off len k :
  (∀ r s, keeps P (k r s)) → keeps P (recv_or_return fd s off len k).
Proof. intros Hk. unfold recv_or_return, recv_at. keep. Qed.

Lemma grow_or_return_keeps s remain k :
  (∀ s, keeps P (k s)) → keeps P (grow_or_return (W := W) s remain k).
Proof. intros Hk. unfold grow_or_return. keep. Qed.

Lemma feed_keeps s : keeps P (SocketInput_feed fd s).
Proof.
  unfold SocketInput_feed, feed_from_zero, feed_wrap, feed_wrapped, ioctl_remain.
  repeat first [ progress keep | apply recv_or_return_keeps; intros
               | apply grow_or_return_keeps; intros ].
Qed.
End feed_keeps.
