(* ===== verification/SocketOutput.v ===== *)
(** * The send buffer of a connection: [socket/socket_output.{h,cpp}]

    [SocketOutput] keeps the bytes to send in a ring which [write] fills and
    [refresh] empties into the socket.  The operations are translated with
    their memory accesses checked; the loops of [refresh] take fuel, and
    [refresh_refines_stream] shows that the length of the queue is enough. *)
From S2P Require Import Prelude CMem Kernel Ring.
From stdpp Require Import base numbers list option.
From Stdlib Require Import ZArith Lia Strings.Byte.
Open Scope Z_scope.

(** ** Constants and state *)
Definition SOCKET_OUTPUT_SIZE : Z := 16 * 1024.
Definition SOCKET_OUTPUT_SIZE_HALF : Z := Z.shiftr SOCKET_OUTPUT_SIZE 1.
Definition SOCKET_OUTPUT_MAXSIZE : Z := 2014 * 1024.

Record SocketOutput := mkSocketOutput {
  so_buffer : list cell;      (** [buffer_] *)
  so_buffer_len : Z;          (** [buffer_len_] *)
  so_max_buffer_len : Z;      (** [max_buffer_len_] *)
  so_head : Z;                (** [head_] *)
  so_tail : Z;                (** [tail_] *)
}.

Definition so_set_head (s : SocketOutput) (h : Z) : SocketOutput :=
  mkSocketOutput (so_buffer s) (so_buffer_len s) (so_max_buffer_len s) h (so_tail s).
Definition so_set_tail (s : SocketOutput) (t : Z) : SocketOutput :=
  mkSocketOutput (so_buffer s) (so_buffer_len s) (so_max_buffer_len s) (so_head s) t.
Definition so_set_buffer (s : SocketOutput) (b : list cell) : SocketOutput :=
  mkSocketOutput b (so_buffer_len s) (so_max_buffer_len s) (so_head s) (so_tail s).

(** ** Operations *)
Definition SocketOutput_new : SocketOutput :=
  mkSocketOutput (zeros SOCKET_OUTPUT_SIZE) SOCKET_OUTPUT_SIZE SOCKET_OUTPUT_MAXSIZE 0 0.

Definition SocketOutput_init (s : SocketOutput) : SocketOutput :=
  mkSocketOutput (zeros SOCKET_OUTPUT_SIZE) SOCKET_OUTPUT_SIZE (so_max_buffer_len s) 0 0.

Definition SocketOutput_length (s : SocketOutput) : Z :=
  if so_head s <? so_tail s then so_tail s - so_head s
  else if so_tail s <? so_head s then so_buffer_len s - so_head s + so_tail s
  else 0.

Definition SocketOutput_resize (s : SocketOutput) (size : Z) : outcome (bool * SocketOutput) :=
  if size <=? 0 then Ok (false, s) else
  let len := SocketOutput_length s in
  let tmp_size := if SOCKET_OUTPUT_SIZE_HALF <? size then size else SOCKET_OUTPUT_SIZE_HALF in
  new_buffer_len ← i32 (so_buffer_len s + tmp_size);
  new_buffer ← new_array new_buffer_len;
  new_buffer ←
    (if so_head s <? so_tail s then
       memcpy new_buffer 0 (so_buffer s) (so_head s) (so_tail s - so_head s)
     else if so_tail s <? so_head s then
       nb ← memcpy new_buffer 0 (so_buffer s) (so_head s) (so_buffer_len s - so_head s);
       memcpy nb (so_buffer_len s - so_head s) (so_buffer s) 0 (so_tail s)
     else Ok new_buffer);
  Ok (true, mkSocketOutput new_buffer new_buffer_len (so_max_buffer_len s) 0 len).

(** The copies of [write] (lines 40-52), once there is room. *)
Definition write_copy (s : SocketOutput) (buff : list cell) (size : Z) : outcome (list cell) :=
  if so_head s <? so_tail s then
    if so_head s =? 0 then memcpy (so_buffer s) (so_tail s) buff 0 size
    else
      let tail_bytes := so_buffer_len s - so_tail s in
      b ← memcpy (so_buffer s) (so_tail s) buff 0 size;
      if tail_bytes <? size then memcpy b 0 buff tail_bytes (size - tail_bytes) else Ok b
  else memcpy (so_buffer s) (so_tail s) buff 0 size.

Definition SocketOutput_write (s : SocketOutput) (buff : list cell) (size : Z)
  : outcome (Z * SocketOutput) :=
  let free_bytes :=
    if so_head s <=? so_tail s then so_buffer_len s - so_tail s + so_head s - 1
    else so_head s - so_tail s - 1 in
  '(room, s) ←
    (if free_bytes <=? size then
       arg ← i32 (size - free_bytes);
       arg ← i32 (arg + 1);
       SocketOutput_resize s arg
     else Ok (true, s));
  if negb room then Ok (0, s) else
  b ← write_copy s buff size;
  t ← i32 (so_tail s + size);
  t ← c_rem t (so_buffer_len s);
  Ok (size, so_set_tail (so_set_buffer s b) t).

Section refresh.
Context {W : Type} `{SocketApi W}.

(** [send(socket_fd, &buffer_\[head_\], left_bytes, 0)] *)
Definition send_at (fd : Z) (s : SocketOutput) (len : Z) : M W Z :=
  bs ← lift (read_bytes (so_buffer s) (so_head s) len);
  r ← call (sys_send fd bs);
  mret (default (-1) r).

(** [while (left_bytes > 0) { ... }]: the loop occurs three times in
    [refresh].  [inl] is the [return sent_bytes] of a failed [send]. *)
Fixpoint send_loop (fuel : nat) (fd : Z) (s : SocketOutput) (left_bytes out_bytes : Z)
  : M W ((Z + Z) * SocketOutput) :=
  if left_bytes <=? 0 then mret (inr out_bytes, s) else
  match fuel with
  | O => lift NoFuel
  | S fuel =>
      sent_bytes ← send_at fd s left_bytes;
      if sent_bytes <? 0 then mret (inl sent_bytes, s) else
      send_loop fuel fd (so_set_head s (so_head s + sent_bytes))
        (left_bytes - sent_bytes) (out_bytes + sent_bytes)
  end.

(** [head_ = tail_ = 0; return out_bytes;] *)
Definition refresh_done (s : SocketOutput) (out_bytes : Z) : M W (Z * SocketOutput) :=
  mret (out_bytes, so_set_head (so_set_tail s 0) 0).

Definition SocketOutput_refresh (fuel : nat) (fd : Z) (s : SocketOutput)
  : M W (Z * SocketOutput) :=
  if so_head s <? so_tail s then
    '(r, s) ← send_loop fuel fd s (so_tail s - so_head s) 0;
    match r with
    | inl err => mret (err, s)
    | inr out_bytes => refresh_done s out_bytes
    end
  else if so_tail s <? so_head s then
    '(r, s) ← send_loop fuel fd s (so_buffer_len s - so_head s) 0;
    match r with
    | inl err => mret (err, s)
    | inr out_bytes =>
        let s := so_set_head s 0 in
        '(r, s) ← send_loop fuel fd s (so_tail s) out_bytes;
        match r with
        | inl err => mret (err, s)
        | inr out_bytes => refresh_done s out_bytes
        end
    end
  else refresh_done s 0.
End refresh.

(** ** The queue a buffer implements *)
Record so_wf (s : SocketOutput) : Prop := {
  sow_len : zlen (so_buffer s) = so_buffer_len s;
  sow_bound : SOCKET_OUTPUT_SIZE ≤ so_buffer_len s ≤ INT_MAX;
  sow_head : 0 ≤ so_head s < so_buffer_len s;
  sow_tail : 0 ≤ so_tail s < so_buffer_len s;
}.

Definition output_contents (s : SocketOutput) : list cell :=
  ring_contents (so_buffer s) (so_head s) (so_tail s).

(** The buffer is well formed and holds the bytes [q], oldest first. *)
Definition output_holds (s : SocketOutput) (q : list byte) : Prop :=
  so_wf s ∧ output_contents s = vals q.

Ltac so_consts :=
  unfold SOCKET_OUTPUT_SIZE_HALF, SOCKET_OUTPUT_SIZE, SOCKET_OUTPUT_MAXSIZE, INT_MAX, INT_MIN in *;
  change (Z.shiftr (16 * 1024) 1) with 8192 in *; change (16 * 1024) with 16384 in *.
Ltac so_lia := so_consts; zlen_facts; lia.
Ltac so_open :=
  repeat match goal with
  | H : output_holds ?s _ |- _ => destruct H as [[?Hl ?Hb ?Hh ?Ht] ?Hc]
  end; cbn [so_buffer so_buffer_len so_max_buffer_len so_head so_tail
            so_set_tail so_set_head so_set_buffer] in *.

Lemma output_length s q : output_holds s q → SocketOutput_length s = zlen q.
Proof.
  intros Hq. so_open. rewrite <- zlen_vals, <- Hc. unfold output_contents.
  rewrite ring_contents_length by lia. unfold SocketOutput_length, ring_length. by rewrite Hl.
Qed.

Lemma output_new_holds : output_holds SocketOutput_new [].
Proof. split; [|done]. by constructor; simpl; so_consts. Qed.

Lemma output_init_holds s q : output_holds s q → output_holds (SocketOutput_init s) [].
Proof. intros H. so_open. split; [|done]. by constructor; simpl; so_consts. Qed.

(** The free space [write] computes: one cell of the ring is never used. *)
Definition so_free (s : SocketOutput) : Z :=
  if so_head s <=? so_tail s then so_buffer_len s - so_tail s + so_head s - 1
  else so_head s - so_tail s - 1.

Lemma so_free_length s q : output_holds s q → so_free s = so_buffer_len s - 1 - zlen q.
Proof.
  intros Hq. rewrite <- (output_length s q Hq). unfold so_free, SocketOutput_length.
  zcases; lia.
Qed.

Lemma output_resize_spec s q size :
  output_holds s q → 0 < size →
  so_buffer_len s + Z.max size SOCKET_OUTPUT_SIZE_HALF ≤ INT_MAX →
  ∃ s', SocketOutput_resize s size = Ok (true, s') ∧ output_holds s' q ∧
    so_head s' = 0 ∧ so_tail s' = zlen q ∧
    so_buffer_len s' = so_buffer_len s + Z.max size SOCKET_OUTPUT_SIZE_HALF.
Proof.
  intros Hq Hs Hb. pose proof (output_length s q Hq) as Hlen.
  pose proof (so_free_length s q Hq) as Hfree.
  set (n := so_buffer_len s + Z.max size SOCKET_OUTPUT_SIZE_HALF) in *.
  assert (Hsz : (if SOCKET_OUTPUT_SIZE_HALF <? size then size else SOCKET_OUTPUT_SIZE_HALF)
                = Z.max size SOCKET_OUTPUT_SIZE_HALF) by (zcase; lia).
  unfold SocketOutput_resize. rewrite Hsz, Hlen. fold n. so_open.
  assert (zlen q < so_buffer_len s) by (unfold so_free in Hfree; revert Hfree; zcase; lia).
  rewrite (proj2 (Z.leb_gt size 0)) by lia.
  rewrite i32_ok by (subst n; so_lia). simpl.
  rewrite new_array_ok by (subst n; so_lia). simpl.
  assert (Hn : zlen (fill n None) = n) by (apply zlen_fill; subst n; so_lia).
  assert (Hcopy : ∀ b, b = splice (fill n None) 0 (vals q) →
    output_holds (mkSocketOutput b n (so_max_buffer_len s) 0 (zlen q)) q).
  { intros b ->. zlen_facts. split.
    - constructor; simpl; [rewrite zlen_splice; zlia|subst n; so_lia..].
    - unfold output_contents; simpl. rewrite <- (zlen_vals q).
      apply ring_compact. rewrite zlen_vals. subst n; so_lia. }
  unfold output_contents, ring_contents in *.
  destruct (Z.ltb_spec (so_head s) (so_tail s)); [|destruct (Z.ltb_spec (so_tail s) (so_head s))].
  - rewrite memcpy_ok by (subst n; so_lia). simpl.
    eexists; split; [reflexivity|]. split; [apply Hcopy; congruence|done].
  - rewrite memcpy_ok by (subst n; so_lia). simpl.
    rewrite memcpy_ok by (rewrite ?zlen_splice by zlia; subst n; so_lia). simpl.
    eexists; split; [reflexivity|]. split; [apply Hcopy|done].
    rewrite <- Hc, Hl. rewrite <- splice_splice_seq by (subst n; zlia).
    rewrite zlen_slice by lia. by rewrite (Z.add_0_l (so_buffer_len s - _)).
  - eexists; split; [reflexivity|]. split; [apply Hcopy|done].
    rewrite <- Hc. by rewrite splice_nil_id by lia.
Qed.

(** ** [write] *)
(** When the copies of [write] stay inside the block: the bytes fit before the
    end of the array, or the ring is in a position where they cannot reach it.
    (When the free space is too small the block is replaced, and they fit.) *)
Definition write_in_bounds (s : SocketOutput) (size : Z) : bool :=
  (so_free s <=? size) || (so_head s =? 0) || (so_tail s <? so_head s)
  || (size <=? so_buffer_len s - so_tail s).

(** The length of the block after [write]. *)
Definition so_grown (s : SocketOutput) (size : Z) : Z :=
  if so_free s <=? size
  then so_buffer_len s + Z.max (size - so_free s + 1) SOCKET_OUTPUT_SIZE_HALF
  else so_buffer_len s.

Lemma write_copy_push s q buff bs :
  output_holds s q → slice buff 0 (zlen bs) = vals bs → zlen bs ≤ zlen buff →
  zlen bs < so_free s →
  (so_head s = 0 ∨ so_tail s < so_head s ∨ zlen bs ≤ so_buffer_len s - so_tail s) →
  ∃ b, write_copy s buff (zlen bs) = Ok b ∧
    output_holds (so_set_tail (so_set_buffer s b)
      ((so_tail s + zlen bs) mod so_buffer_len s)) (q ++ bs).
Proof.
  intros Hq Hbuff Hlen Hfree Hin. unfold so_free in Hfree. so_open. zlen_facts.
  assert (Hcopy : write_copy s buff (zlen bs) =
                  Ok (splice (so_buffer s) (so_tail s) (vals bs))).
  { unfold write_copy. rewrite memcpy_ok, Hbuff by (revert Hfree; zcases; so_lia).
    zcases; try done; so_lia. }
  eexists. split; [exact Hcopy|]. split.
  - constructor; simpl; try done; [|apply Z.mod_pos_bound; so_lia].
    rewrite zlen_splice; [done|lia|]. rewrite zlen_vals. revert Hfree. zcase; lia.
  - unfold output_contents in *.
    cbn [so_set_buffer so_set_tail so_buffer so_head so_tail].
    rewrite vals_app, <- Hc. rewrite <- (zlen_vals bs) in *. revert Hfree.
    destruct (Z.leb_spec (so_head s) (so_tail s)); intros.
    + destruct (Z.eqb_spec (so_tail s + zlen (vals bs)) (so_buffer_len s)) as [E|].
      * rewrite E, Z.mod_same by so_lia. apply ring_push_to_end; lia.
      * rewrite Z.mod_small by lia. apply ring_push_linear; lia.
    + rewrite Z.mod_small by lia. apply ring_push_wrapped; lia.
Qed.

Lemma output_write_spec (s : SocketOutput) (q : list byte) (buff : list cell) (bs : list byte) :
  output_holds s q →
  slice buff 0 (zlen bs) = vals bs → zlen bs ≤ zlen buff →
  so_grown s (zlen bs) ≤ INT_MAX →
  write_in_bounds s (zlen bs) = true →
  ∃ s', SocketOutput_write s buff (zlen bs) = Ok (zlen bs, s') ∧
    output_holds s' (q ++ bs) ∧ (so_head s = 0 → so_head s' = 0).
Proof.
  intros Hq Hbuff Hlen Hint Hin. unfold write_in_bounds in Hin.
  pose proof (so_free_length s q Hq) as Hfree. unfold SocketOutput_write.
  fold (so_free s). zlen_facts. unfold so_grown in Hint.
  destruct (Z.leb_spec (so_free s) (zlen bs)); cbv zeta.
  - assert (0 ≤ so_free s ∧ 0 ≤ so_buffer_len s) as [? ?]
      by (unfold so_free; so_open; zcase; so_lia).
    rewrite i32_ok by so_lia. cbn [mbind outcome_bind]. rewrite i32_ok by so_lia.
    cbn [mbind outcome_bind].
    destruct (output_resize_spec s q (zlen bs - so_free s + 1) Hq)
      as (s' & E & Hs' & Hh' & Ht' & Hl'); [lia|so_lia|]. rewrite E. cbn [mbind outcome_bind negb].
    destruct (write_copy_push s' q buff bs) as (b & Eb & Hb); try done; [|by left|].
    { rewrite (so_free_length s' q Hs'), Hl'. so_lia. }
    rewrite Eb. cbn [mbind outcome_bind]. destruct Hs' as [[? ? ? ?] _].
    rewrite i32_ok by so_lia. cbn [mbind outcome_bind]. rewrite c_rem_ok by so_lia.
    cbn [mbind outcome_bind]. eexists. split; [done|]. split; [done|]. by intros _.
  - cbn [mbind outcome_bind negb].
    destruct (write_copy_push s q buff bs) as (b & Eb & Hb); try done.
    { simpl in Hin. lia. }
    rewrite Eb. cbn [mbind outcome_bind]. pose proof Hq as [[? ? ? ?] _].
    assert (so_tail s + zlen bs ≤ so_buffer_len s)
      by (clear Hfree; unfold so_free in *; destruct (so_head s <=? so_tail s) eqn:?; lia).
    rewrite i32_ok by so_lia. cbn [mbind outcome_bind]. rewrite c_rem_ok by so_lia.
    cbn [mbind outcome_bind]. eexists. split; [done|]. by split.
Qed.

Lemma output_write_full (s : SocketOutput) (q : list byte) (buff : list cell) (size : Z) :
  output_holds s q → 0 ≤ size ≤ INT_MAX → INT_MAX < so_grown s size →
  SocketOutput_write s buff size = Undefined SignedOverflow.
Proof.
  intros Hq Hs Hg. pose proof (so_free_length s q Hq) as Hfree. unfold SocketOutput_write.
  fold (so_free s). unfold so_grown in Hg.
  assert (Hlen : zlen q < so_buffer_len s)
    by (so_open; unfold so_free in *; revert Hfree; zcase; lia).
  destruct (Z.leb_spec (so_free s) size); cbv zeta; [|so_open; lia]. zlen_facts.
  rewrite i32_ok by (so_open; so_lia). cbn [mbind outcome_bind].
  destruct (i32 (size - so_free s + 1)) as [arg| | |] eqn:E;
    unfold i32 in E; case_match; simplify_eq; [|done].
  cbn [mbind outcome_bind]. unfold SocketOutput_resize. rewrite (proj2 (Z.leb_gt _ 0)) by lia.
  unfold i32. rewrite (proj2 (Z.leb_gt (so_buffer_len s + _) INT_MAX));
    [by rewrite andb_false_r|].
  destruct (Z.ltb_spec SOCKET_OUTPUT_SIZE_HALF (size - so_free s + 1)); lia.
Qed.

(** C16. [write] refines the queue: when its copies stay in bounds, it appends
    exactly the bytes it was given, in order, and returns their number, growing
    the block when the free space is too small (whatever the limit of the class
    says) and overflowing [int] when the block would exceed it.  A buffer whose
    head is at 0 keeps it there. *)
Theorem write_refines_queue (s : SocketOutput) (q : list byte) (buff : list cell) (bs : list byte) :
  output_holds s q →
  slice buff 0 (zlen bs) = vals bs → zlen bs ≤ zlen buff → zlen bs ≤ INT_MAX →
  write_in_bounds s (zlen bs) = true →
  if so_grown s (zlen bs) <=? INT_MAX then
    ∃ s', SocketOutput_write s buff (zlen bs) = Ok (zlen bs, s') ∧
      output_holds s' (q ++ bs) ∧ (so_head s = 0 → so_head s' = 0)
  else SocketOutput_write s buff (zlen bs) = Undefined SignedOverflow.
Proof.
  intros Hq Hbuff Hlen Hmax Hin. destruct (Z.leb_spec (so_grown s (zlen bs)) INT_MAX).
  - by apply output_write_spec.
  - apply (output_write_full s q); [done|zlen_facts; lia|done].
Qed.

(** Where the ring has free space on both sides ([0 < head_ < tail_]), the
    first copy of [write] is given the whole size instead of the bytes that fit
    before the end: as soon as they do not all fit there, it writes past the
    end of the block. *)
Theorem write_overflows (s : SocketOutput) (q : list byte) (buff : list cell) (size : Z) :
  output_holds s q → 0 ≤ size ≤ zlen buff → size ≤ INT_MAX →
  0 < so_head s < so_tail s → write_in_bounds s size = false →
  SocketOutput_write s buff size = Undefined OutOfBounds.
Proof.
  intros Hq Hsize Hint Hht Hin. unfold write_in_bounds in Hin.
  repeat (apply orb_false_iff in Hin as [Hin ?]).
  unfold SocketOutput_write. fold (so_free s). rewrite Hin. cbn [mbind outcome_bind negb].
  unfold write_copy. so_open. zbool.
  by rewrite memcpy_oob by lia.
Qed.

(** ** [refresh] *)
Section refresh_correct.
Context {W : Type} `{SocketLaws W}.
Implicit Types (w : W) (fd : Z).

(** A [send] of some bytes takes at least one of them, or fails (send(2)). *)
Definition send_progress : Prop :=
  ∀ fd bs w n w', sys_send fd bs w = (Some n, w') → bs ≠ [] → 0 < n.

(** What a send loop does with the [bs] it starts at: all of them were sent,
    or the call failed after a proper prefix. *)
Definition loop_result fd w (s : SocketOutput) (bs : list byte) out
    (res : outcome (((Z + Z) * SocketOutput) * W)) : Prop :=
  (∃ w', res = Ok ((inr (out + zlen bs), so_set_head s (so_head s + zlen bs)), w') ∧
     sent w' fd = sent w fd ++ bs) ∨
  (∃ w' k, res = Ok ((inl (-1), so_set_head s (so_head s + k)), w') ∧ 0 ≤ k < zlen bs ∧
     sent w' fd = sent w fd ++ take (Z.to_nat k) bs).

Lemma send_loop_result (Hprog : send_progress) fd fuel : ∀ w (s : SocketOutput) bs out,
  zlen bs ≤ Z.of_nat fuel → zlen bs ≤ INT_MAX →
  0 ≤ so_head s → so_head s + zlen bs ≤ zlen (so_buffer s) →
  slice (so_buffer s) (so_head s) (zlen bs) = vals bs →
  loop_result fd w s bs out (send_loop fuel fd s (zlen bs) out w).
Proof.
  induction fuel as [|fuel IH]; intros w s bs out Hfuel Hint Hh Hfit Hsl; zlen_facts.
  - assert (bs = []) as -> by (apply zlen_0_nil; lia). left. exists w. simpl.
    rewrite app_nil_r, !Z.add_0_r. by destruct s.
  - cbn [send_loop]. destruct (Z.leb_spec (zlen bs) 0).
    { assert (bs = []) as -> by (apply zlen_0_nil; lia). left. exists w. simpl.
      rewrite app_nil_r, !Z.add_0_r. by destruct s. }
    unfold send_at, mbind, M_bind, call, mret, M_ret, lift.
    rewrite (read_bytes_ok _ _ _ bs) by (done || lia).
    destruct (sys_send fd bs w) as [[n|] w1] eqn:E; cbn [default from_option id].
    + destruct (send_some fd bs w n w1 E) as [Hn Hsent].
      assert (0 < n) by (eapply Hprog; [done|]; by intros ->).
      rewrite (proj2 (Z.ltb_ge n 0)) by lia.
      assert (Hd : zlen (drop (Z.to_nat n) bs) = zlen bs - n)
        by (unfold zlen in *; rewrite length_drop; lia).
      destruct (IH w1 (so_set_head s (so_head s + n)) (drop (Z.to_nat n) bs) (out + n))
        as [(w2 & E2 & Hs2)|(w2 & k & E2 & Hk & Hs2)]; try (simpl; lia).
      { simpl. rewrite Hd, <- drop_slice by lia. rewrite Hsl. unfold vals. by rewrite fmap_drop. }
      * left. exists w2. rewrite Hd in E2. rewrite E2. split.
        { do 3 f_equal; [f_equal; lia|]. unfold so_set_head. simpl. f_equal. lia. }
        by rewrite Hs2, Hsent, <- app_assoc, take_drop.
      * right. exists w2, (n + k). rewrite Hd in E2. rewrite E2. split; [|split; [lia|]].
        { do 3 f_equal. unfold so_set_head. simpl. f_equal. lia. }
        rewrite Hs2, Hsent, <- app_assoc, Z2Nat.inj_add by lia. by rewrite take_take_drop.
    + right. exists w1, 0. simpl. split; [by rewrite Z.add_0_r; destruct s|].
      split; [lia|]. rewrite app_nil_r. by apply (send_none fd bs w).
Qed.

(** Dropping a sent prefix from a queue that does not wrap. *)
Lemma output_drop_linear (s : SocketOutput) q k :
  so_wf s → so_head s < so_tail s →
  slice (so_buffer s) (so_head s) (so_tail s - so_head s) = vals q → 0 ≤ k < zlen q →
  output_holds (so_set_head s (so_head s + k)) (drop (Z.to_nat k) q).
Proof.
  intros [Hl Hb Hh Ht] Hlt Hsl Hk.
  assert (zlen q = so_tail s - so_head s).
  { rewrite <- (zlen_vals q), <- Hsl. apply zlen_slice; lia. }
  split; [constructor; simpl; lia|].
  unfold output_contents, ring_contents. simpl. zbool.
  replace (so_tail s - (so_head s + k)) with (so_tail s - so_head s - k) by lia.
  rewrite <- drop_slice by lia. rewrite Hsl. unfold vals. by rewrite fmap_drop.
Qed.

Definition refresh_result fd w q (res : outcome ((Z * SocketOutput) * W)) : Prop :=
  ∃ r s' w', res = Ok ((r, s'), w') ∧
    ((r = zlen q ∧ output_holds s' [] ∧ so_head s' = 0 ∧ so_tail s' = 0 ∧
      sent w' fd = sent w fd ++ q) ∨
     (r = -1 ∧ ∃ bs q', q = bs ++ q' ∧ q' ≠ [] ∧ output_holds s' q' ∧
      sent w' fd = sent w fd ++ bs)).

Lemma refresh_done_result fd w q w' (s : SocketOutput) out :
  so_wf s → out = zlen q → sent w' fd = sent w fd ++ q →
  refresh_result fd w q (refresh_done s out w').
Proof.
  intros [? ? ? ?] -> Hs. eexists _, _, w'. split; [done|]. left.
  split; [done|]. split; [|done]. split; [constructor; simpl; so_lia|done].
Qed.

Lemma refresh_failed_result fd w q k w' (s' : SocketOutput) :
  0 ≤ k < zlen q → output_holds s' (drop (Z.to_nat k) q) →
  sent w' fd = sent w fd ++ take (Z.to_nat k) q →
  refresh_result fd w q (Ok ((-1, s'), w')).
Proof.
  intros Hk Hs Hsent. eexists _, _, w'. split; [done|]. right. split; [done|].
  exists (take (Z.to_nat k) q), (drop (Z.to_nat k) q).
  split; [by rewrite take_drop|]. split; [|done].
  intros E0. assert (zlen (drop (Z.to_nat k) q) = 0) by (by rewrite E0).
  unfold zlen in *. rewrite length_drop in *. lia.
Qed.

(** The case where the queue wraps: two loops. *)
Lemma refresh_wrapped_result (Hprog : send_progress) fd fuel w (s : SocketOutput) q1 q2 :
  so_wf s → so_tail s < so_head s →
  slice (so_buffer s) (so_head s) (so_buffer_len s - so_head s) = vals q1 →
  slice (so_buffer s) 0 (so_tail s) = vals q2 →
  zlen (q1 ++ q2) ≤ Z.of_nat fuel →
  refresh_result fd w (q1 ++ q2)
    ((('(r, s) ← send_loop fuel fd s (so_buffer_len s - so_head s) 0;
       match r with
       | inl err => mret (err, s)
       | inr out_bytes =>
           let s := so_set_head s 0 in
           '(r, s) ← send_loop fuel fd s (so_tail s) out_bytes;
           match r with
           | inl err => mret (err, s)
           | inr out_bytes => refresh_done s out_bytes
           end
       end) : M W (Z * SocketOutput)) w).
Proof.
  intros Hwf Hlt H1 H2 Hfuel. pose proof Hwf as [Hl Hb Hh Ht].
  assert (Hz1 : zlen q1 = so_buffer_len s - so_head s).
  { rewrite <- (zlen_vals q1), <- H1. apply zlen_slice; lia. }
  assert (Hz2 : zlen q2 = so_tail s).
  { rewrite <- (zlen_vals q2), <- H2. apply zlen_slice; lia. }
  rewrite zlen_app in Hfuel.
  destruct (send_loop_result Hprog fd fuel w s q1 0) as [(w1 & E & Hs1)|(w1 & k & E & Hk & Hs1)];
    try so_lia; [by rewrite Hz1|..]; unfold mbind at 1, M_bind; rewrite Hz1 in E; rewrite E.
  - cbv zeta.
    assert (Hs0 : ∀ h, so_set_head (so_set_head s h) 0 = so_set_head s 0) by done.
    rewrite Hs0. change (so_tail (so_set_head s 0)) with (so_tail s).
    destruct (send_loop_result Hprog fd fuel w1 (so_set_head s 0) q2 (0 + zlen q1))
      as [(w2 & E2 & Hs2)|(w2 & k & E2 & Hk & Hs2)];
      try (simpl; so_lia); [by rewrite Hz2|..]; unfold mbind, M_bind;
      rewrite Hz2, Hz1 in E2; rewrite E2.
    + apply refresh_done_result; [constructor; simpl; so_lia|rewrite zlen_app; lia|].
      by rewrite Hs2, Hs1, app_assoc.
    + assert (Hd : drop (Z.to_nat (zlen q1 + k)) (q1 ++ q2) = drop (Z.to_nat k) q2).
      { rewrite drop_app_ge by (unfold zlen in *; lia). f_equal. unfold zlen in *. lia. }
      apply (refresh_failed_result fd w (q1 ++ q2) (zlen q1 + k)); [zlia|..].
      * rewrite Hd. apply (output_drop_linear (so_set_head s 0)); simpl; try lia.
        -- constructor; simpl; so_lia.
        -- by rewrite Z.sub_0_r.
      * rewrite Hs2, Hs1, <- app_assoc. f_equal.
        rewrite take_app_ge by (unfold zlen in *; lia). do 2 f_equal. unfold zlen in *. lia.
  - apply (refresh_failed_result fd w (q1 ++ q2) k); [zlia|..].
    + split; [constructor; simpl; lia|]. unfold output_contents, ring_contents. simpl. zbool.
      rewrite drop_app_le by (unfold zlen in *; lia).
      rewrite vals_app, Hl, H2. f_equal.
      replace (so_buffer_len s - (so_head s + k)) with (so_buffer_len s - so_head s - k) by lia.
      rewrite <- drop_slice by lia. rewrite H1. unfold vals. by rewrite fmap_drop.
    + rewrite Hs1. f_equal. by rewrite take_app_le by (unfold zlen in *; lia).
Qed.

Lemma output_refresh_spec (Hprog : send_progress) fd fuel w (s : SocketOutput) (q : list byte) :
  output_holds s q → zlen q ≤ Z.of_nat fuel →
  ∃ r s' w', SocketOutput_refresh fuel fd s w = Ok ((r, s'), w') ∧
    ((r = zlen q ∧ output_holds s' [] ∧ so_head s' = 0 ∧ so_tail s' = 0 ∧
      sent w' fd = sent w fd ++ q) ∨
     (r = -1 ∧ ∃ bs q', q = bs ++ q' ∧ q' ≠ [] ∧ output_holds s' q' ∧
      sent w' fd = sent w fd ++ bs)).
Proof.
  intros Hq Hfuel. pose proof Hq as [Hwf Hcont]. pose proof Hwf as [Hl Hb Hh Ht].
  change (refresh_result fd w q (SocketOutput_refresh fuel fd s w)).
  unfold SocketOutput_refresh, output_contents, ring_contents in *.
  destruct (Z.ltb_spec (so_head s) (so_tail s)); [|destruct (Z.ltb_spec (so_tail s) (so_head s))].
  - assert (Hz : zlen q = so_tail s - so_head s).
    { rewrite <- (zlen_vals q), <- Hcont. apply zlen_slice; lia. }
    destruct (send_loop_result Hprog fd fuel w s q 0) as [(w1 & E & Hs1)|(w1 & k & E & Hk & Hs1)];
      try so_lia; [by rewrite Hz|..]; unfold mbind, M_bind; rewrite Hz in E; rewrite E.
    + apply refresh_done_result; [constructor; simpl; so_lia|lia|done].
    + apply (refresh_failed_result fd w q k); [done| |done]. by apply output_drop_linear.
  - destruct (vals_app_inv q _ _ Hcont) as (q1 & q2 & -> & Hq1 & Hq2).
    rewrite Hl in Hq1. by apply refresh_wrapped_result.
  - assert (q = []) as -> by (by destruct q).
    apply refresh_done_result; [done|done|by rewrite app_nil_r].
Qed.

(** A loop ends with the number of bytes sent, or at once after a [send] that failed. *)
Lemma send_loop_end fd fuel : ∀ w (s : SocketOutput) left out r s' w',
  send_loop fuel fd s left out w = Ok ((r, s'), w') →
  match r with
  | inl _ => ∃ bs w1, sys_send fd bs w1 = (None, w')
  | inr out' => out ≤ out'
  end.
Proof.
  induction fuel as [|fuel IH]; intros w s left out r s' w' E; simpl in E.
  - destruct (left <=? 0); [injection E as <- _ _; lia|done].
  - destruct (left <=? 0); [injection E as <- _ _; lia|].
    apply M_bind_inv in E as (n & w1 & E1 & E). unfold send_at in E1.
    apply M_bind_inv in E1 as (bs & w0 & _ & E1). rewrite M_bind_call in E1.
    destruct (sys_send fd bs w0) as [[k|] w2] eqn:Es; injection E1 as <- <-; simpl in E.
    + destruct (send_some fd bs w0 k w2 Es) as [Hk _].
      rewrite (proj2 (Z.ltb_ge k 0)) in E by lia. specialize (IH _ _ _ _ _ _ _ E).
      destruct r; [done|lia].
    + injection E as <- _ <-. by exists bs, w0.
Qed.
Lemma refresh_failed_send fd fuel w (s : SocketOutput) r s' w' :
  SocketOutput_refresh fuel fd s w = Ok ((r, s'), w') → r < 0 →
  ∃ bs w1, sys_send fd bs w1 = (None, w').
Proof.
  intros E Hr. unfold SocketOutput_refresh, refresh_done in E.
  destruct (so_head s <? so_tail s); [|destruct (so_tail s <? so_head s)].
  - apply M_bind_inv in E as ([r1 s1] & w1 & E1 & E). apply send_loop_end in E1.
    destruct r1 as [e|n]; injection E as <- _ <-; [done|lia].
  - apply M_bind_inv in E as ([r1 s1] & w1 & E1 & E). apply send_loop_end in E1.
    destruct r1 as [e|n]; [by injection E as _ _ <-|].
    apply M_bind_inv in E as ([r2 s2] & w2 & E2 & E). apply send_loop_end in E2.
    destruct r2 as [e|m]; injection E as <- _ <-; [done|lia].
  - injection E as <- _ _. lia.
Qed.

(** C17. [refresh] refines the stream to the peer and terminates: with fuel
    for one [send] per queued byte it always returns; on success everything
    that was queued was sent, in order, and the buffer is empty with both
    indices at 0; when a [send] fails, the bytes sent so far are exactly those
    which left the queue, and the rest is still there in order. *)
Theorem refresh_refines_stream (Hprog : send_progress) fd fuel w (s : SocketOutput) (q : list byte) :
  output_holds s q → zlen q ≤ Z.of_nat fuel →
  ∃ r s' w', SocketOutput_refresh fuel fd s w = Ok ((r, s'), w') ∧
    ((r = zlen q ∧ output_holds s' [] ∧ so_head s' = 0 ∧ so_tail s' = 0 ∧
      sent w' fd = sent w fd ++ q) ∨
     (r = -1 ∧ ∃ bs q', q = bs ++ q' ∧ q' ≠ [] ∧ output_holds s' q' ∧
      sent w' fd = sent w fd ++ bs)).
Proof. by apply output_refresh_spec. Qed.
End refresh_correct.

(** [refresh] makes no other calls than [send] on its descriptor. *)
Section refresh_keeps.
Context {W : Type} `{SocketApi W} (P : W → Prop) (fd : Z).
Hypothesis keeps_send : ∀ bs w, P w → P (sys_send fd bs w).2.

Lemma send_loop_keeps fuel : ∀ s left out, keeps P (send_loop fuel fd s left out).
Proof.
  induction fuel as [|fuel IH]; intros s left out; simpl; unfold send_at; keep.
Qed.

Lemma refresh_keeps fuel s : keeps P (SocketOutput_refresh fuel fd s).
Proof.
  pose proof send_loop_keeps. unfold SocketOutput_refresh, refresh_done. keep.
Qed.
End refresh_keeps.

(** Fuel beyond what the loops need does not change the result. *)
Section refresh_fuel.
Context {W : Type} `{SocketApi W} (fd : Z).

Lemma send_loop_fuel f : ∀ f' s left out (w : W) r,
  send_loop f fd s left out w = Ok r → (f ≤ f')%nat →
  send_loop f' fd s left out w = Ok r.
Proof.
  induction f as [|f IH]; intros f' s left out w r E Hf.
  - simpl in E. destruct f'; simpl; by destruct (left <=? 0).
  - destruct f' as [|f']; [lia|]. simpl in *. destruct (left <=? 0); [done|].
    unfold mbind, M_bind in *. destruct (send_at fd s left w) as [[n w1]| | |]; try done.
    destruct (n <? 0); [done|]. apply IH; [done|lia].
Qed.

Lemma refresh_fuel f f' s (w : W) r :
  SocketOutput_refresh f fd s w = Ok r → (f ≤ f')%nat →
  SocketOutput_refresh f' fd s w = Ok r.
Proof.
  destruct r as [x wr]. intros E Hf. unfold SocketOutput_refresh in *.
  destruct (so_head s <? so_tail s); [|destruct (so_tail s <? so_head s); [|done]].
  - apply M_bind_inv in E as ([r1 s1] & w1 & E1 & E).
    by rewrite (M_bind_ok _ _ _ _ _ (send_loop_fuel _ _ _ _ _ _ _ E1 Hf)).
  - apply M_bind_inv in E as ([r1 s1] & w1 & E1 & E).
    rewrite (M_bind_ok _ _ _ _ _ (send_loop_fuel _ _ _ _ _ _ _ E1 Hf)).
    destruct r1; [done|]. apply M_bind_inv in E as ([r2 s2] & w2 & E2 & E).
    by rewrite (M_bind_ok _ _ _ _ _ (send_loop_fuel _ _ _ _ _ _ _ E2 Hf)).
Qed.
End refresh_fuel.

(** The send loop moves the head only. *)
Lemma send_loop_tail {W} `{SocketApi W} fuel fd : ∀ s left out (w : W) r s' w',
  send_loop fuel fd s left out w = Ok ((r, s'), w') →
  so_tail s' = so_tail s ∧ so_buffer s' = so_buffer s.
Proof.
  induction fuel as [|fuel IH]; intros s left out w r s' w' E; simpl in E;
    destruct (left <=? 0); try (by injection E as _ <- _); [done|].
  apply M_bind_inv in E as (n & w1 & _ & E).
  destruct (n <? 0); [by injection E as _ <- _|]. exact (IH _ _ _ _ _ _ _ E).
Qed.
