(* ===== verification/Log.v ===== *)
(** * The log: [log/log.{h,cpp}]

    [Log::write] appends one line per message to the log file and echoes it to
    the standard output; [Log::init] opens the file.  The macros ([DEBUG_LOG],
    [ERROR_LOG], ...) format their message into a buffer of 1024 bytes with
    [snprintf], of which the conversions the repository uses are given.  The
    other components log through the class [Logger], which [Log_logger]
    implements. *)
From S2P Require Import Prelude CMem.
From stdpp Require Import base numbers list option pretty sets.
From Stdlib Require Import ZArith Lia Strings.Byte Floats.SpecFloat.
From Stdlib Require Strings.String.
Open Scope Z_scope.

(** ** [snprintf] *)
Inductive arg :=
  | AInt (z : Z)
  | AStr (s : list byte)
  | ADouble (d : spec_float).

Definition print_int (z : Z) : list byte := text (pretty z).

(** A non-negative number on at least [n] digits, padded with zeros. *)
Definition print_padded (n : nat) (z : Z) : list byte :=
  if z <? 0 then
    let s := print_int (- z) in "-"%byte :: replicate (n - 1 - length s) "0"%byte ++ s
  else let s := print_int z in replicate (n - length s) "0"%byte ++ s.

(** [%lf]: six decimals, rounded to nearest, ties to even. *)
Definition round_div (a b : Z) : Z :=
  let q := a / b in
  let r := 2 * (a mod b) in
  if r <? b then q else if b <? r then q + 1 else if Z.even q then q else q + 1.

Definition print_double (d : spec_float) : list byte :=
  let sign (s : bool) := if s then text "-" else [] in
  match d with
  | S754_zero s => sign s ++ text "0.000000"
  | S754_infinity s => sign s ++ text "inf"
  | S754_nan => text "nan"
  | S754_finite s m e =>
      let n := if 0 <=? e then Zpos m * 2 ^ e * 10 ^ 6
               else round_div (Zpos m * 10 ^ 6) (2 ^ (- e)) in
      sign s ++ print_int (n / 10 ^ 6) ++ text "." ++ print_padded 6 (n mod 10 ^ 6)
  end.

(** The text a format string produces.  A conversion without an argument of its
    type is undefined behaviour. *)
Fixpoint format (fmt : list byte) (args : list arg) : outcome (list byte) :=
  match fmt with
  | [] => Ok []
  | "%"%byte :: "d"%byte :: fmt =>
      match args with
      | AInt z :: args => rest ← format fmt args; Ok (print_int z ++ rest)
      | _ => Undefined BadFormat
      end
  | "%"%byte :: "s"%byte :: fmt =>
      match args with
      | AStr s :: args => rest ← format fmt args; Ok (s ++ rest)
      | _ => Undefined BadFormat
      end
  | "%"%byte :: "l"%byte :: "f"%byte :: fmt =>
      match args with
      | ADouble d :: args => rest ← format fmt args; Ok (print_double d ++ rest)
      | _ => Undefined BadFormat
      end
  | "%"%byte :: "0"%byte :: "2"%byte :: "d"%byte :: fmt =>
      match args with
      | AInt z :: args => rest ← format fmt args; Ok (print_padded 2 z ++ rest)
      | _ => Undefined BadFormat
      end
  | "%"%byte :: "0"%byte :: "4"%byte :: "d"%byte :: fmt =>
      match args with
      | AInt z :: args => rest ← format fmt args; Ok (print_padded 4 z ++ rest)
      | _ => Undefined BadFormat
      end
  | "%"%byte :: _ => Undefined BadFormat
  | c :: fmt => rest ← format fmt args; Ok (c :: rest)
  end.

(** The string [snprintf(buf, size, fmt, ...)] leaves in a zeroed buffer. *)
Definition snprintf (size : Z) (fmt : option (list byte)) (args : list arg)
  : outcome (list byte) :=
  match fmt with
  | None => Undefined NullFormat
  | Some fmt => s ← format fmt args; Ok (cstr (take (Z.to_nat (size - 1)) s))
  end.

(** ** The logger the other components use *)
Inductive LogType := INFO_LOG | WARN_LOG | ERROR_LOG | FATAL_LOG | DEBUG_LOG.

#[export] Instance LogType_eq_dec : EqDecision LogType.
Proof. solve_decision. Defined.

(** Logging goes through [Log::write], which always returns. *)
Class Logger (W : Type) := log_write : LogType → list byte → M W unit.

Class LoggerTotal (W : Type) `{Logger W} :=
  log_returns ty s w : ∃ w', log_write ty s w = Ok (tt, w').

(** [DEBUG_LOG(fmt, ...)] and the other macros: [char log_data\[1024\] = {0};
    snprintf(log_data, sizeof(log_data), fmt, ...); Log::instance()->write(...)] *)
Definition LOG {W} `{Logger W} (ty : LogType) (fmt : option (list byte)) (args : list arg)
  : M W unit :=
  log_data ← lift (snprintf 1024 fmt args);
  log_write ty log_data.
Definition debug_log {W} `{Logger W} (fmt : String.string) (args : list arg) : M W unit :=
  LOG DEBUG_LOG (Some (text fmt)) args.
Definition error_log {W} `{Logger W} (fmt : String.string) (args : list arg) : M W unit :=
  LOG ERROR_LOG (Some (text fmt)) args.
(** [ERROR_LOG(error)] of a [const char*] variable, which may be null. *)
Definition error_log_ptr {W} `{Logger W} (error : option String.string) : M W unit :=
  LOG ERROR_LOG (text <$> error) [].

(** ** The log itself *)
Record tm := { tm_year : Z; tm_mon : Z; tm_mday : Z; tm_hour : Z; tm_min : Z; tm_sec : Z }.

(** What [Log] uses of the system: the file it appends to, the standard output,
    the clock and the command-line flags. *)
Class LogEnv (W : Type) := {
  env_open : list byte → W → bool * W;       (** [of_.open(file, app)] on a closed stream *)
  env_file_write : list byte → W → W;        (** bytes appended to the open file *)
  env_stdout : list byte → W → W;
  env_localtime : W → tm;
  env_set_flagfile : list byte → W → W;      (** [SetCommandLineOption("flagfile", ...)] *)
  env_FLAGS_log_stdout : W → bool;
}.

Definition LogType_int (t : LogType) : nat :=
  match t with
  | INFO_LOG => 0 | WARN_LOG => 1 | ERROR_LOG => 2 | FATAL_LOG => 3 | DEBUG_LOG => 4
  end.

Definition g_LogInfo : list (list byte) :=
  [text "Info: "; text "Warning: "; text "Error: "; text "Fatal: "; text "Debug"].

Definition g_prefix_res_path : list byte := text "/usr/share/libnetwork/".

(** The stream [of_] (is it open, and is its state good) and [init_]. *)
Record Log := mkLog { of_open : bool; of_good : bool; log_init_ : bool }.
Definition Log_new : Log := mkLog false true false.

Section log.
Context {W : Type} `{LogEnv W}.

Definition Log_get_timestr : M W (list byte) := λ w,
  let t := env_localtime w in
  lift (snprintf 128 (Some (text "%04d-%02d-%02d_%02d:%02d:%02d"))
    [AInt (tm_year t + 1900); AInt (tm_mon t + 1); AInt (tm_mday t);
     AInt (tm_hour t); AInt (tm_min t); AInt (tm_sec t)]) w.

(** Opening a stream that is already open fails, which leaves the file open
    but the stream in an error state. *)
Definition Log_init (log_file : list byte) (l : Log) : M W Log :=
  flag_file ← lift (snprintf 128 (Some (text "%s%s"))
    [AStr g_prefix_res_path; AStr (text "data/config/log.conf")]);
  _ ← act (env_set_flagfile flag_file);
  l ← (if of_open l then mret (mkLog true false (log_init_ l))
       else ok ← call (env_open log_file); mret (mkLog ok ok (log_init_ l)));
  if negb (of_open l) then mret l else mret (mkLog (of_open l) (of_good l) true).

(** One line: [time info. log]. *)
Definition log_line (time : list byte) (type : LogType) (log : list byte) : list byte :=
  time ++ text " " ++ nth (LogType_int type) g_LogInfo [] ++ text "." ++ text " " ++ log
  ++ ["010"%byte].

(** [of_ << ... << std::endl]: nothing is written in an error state, and a
    closed stream enters one. *)
Definition of_write (l : Log) (line : list byte) : M W Log :=
  if of_open l && of_good l then _ ← act (env_file_write line); mret l
  else mret (mkLog (of_open l) false (log_init_ l)).

Definition Log_write (type : LogType) (log : list byte) (l : Log) : M W Log :=
  l ← (if negb (log_init_ l) then Log_init (text "default") l else mret l);
  time ← Log_get_timestr;
  l ← of_write l (log_line time type log);
  flag ← call (λ w, (env_FLAGS_log_stdout w, w));
  if flag || bool_decide (LogType_int type = LogType_int DEBUG_LOG) then
    time ← Log_get_timestr;
    _ ← act (env_stdout (log_line time type log));
    mret l
  else mret l.

(** A world that contains the [Log] singleton implements the interface. *)
#[global] Instance Log_logger : Logger (W * Log) := λ ty s '(w, l),
  match Log_write ty s l w with
  | Ok (l', w') => Ok (tt, (w', l'))
  | Undefined u => Undefined u
  | Throws e => Throws e
  | NoFuel => NoFuel
  end.
End log.

(** ** Properties *)

(** [snprintf] into the 1024-byte buffer of the macros: the message is the
    formatted text cut to what fits with its terminator, and it contains no NUL
    byte; a null format is undefined. *)
Theorem snprintf_bounded (size : Z) (fmt : option (list byte)) (args : list arg) (s : list byte) :
  0 < size → snprintf size fmt args = Ok s →
  zlen s < size ∧ (Byte.x00 ∉ s) ∧
  ∃ f t, fmt = Some f ∧ format f args = Ok t ∧ s = cstr (take (Z.to_nat (size - 1)) t).
Proof.
  intros Hs. unfold snprintf. destruct fmt as [f|]; [|done].
  destruct (format f args) as [t| | |] eqn:E; try done. simpl. intros [= <-].
  assert (Hc : ∀ l, (length (cstr l) ≤ length l)%nat ∧ Byte.x00 ∉ cstr l).
  { induction l as [|c l [IH1 IH2]]; simpl; [split; [lia|set_solver]|].
    destruct (Byte.eqb c Byte.x00) eqn:E0; simpl; (split; [lia|]); [set_solver|].
    apply Byte.eqb_false in E0. rewrite not_elem_of_cons. by split; [intros <-|]. }
  destruct (Hc (take (Z.to_nat (size - 1)) t)) as [Hl Hn].
  split; [|split; [done|by exists f, t]].
  rewrite length_take in Hl. unfold zlen. lia.
Qed.

(** An environment that records what it is told, used by the witnesses. *)
Record simenv := SimEnv {
  se_file : list byte; se_stdout : list byte; se_can_open : bool; se_tm : tm;
  se_flagfile : list byte; se_log_stdout : bool }.
#[export] Instance simenv_env : LogEnv simenv := {|
  env_open _ w := (se_can_open w, w);
  env_file_write l w := SimEnv (se_file w ++ l) (se_stdout w) (se_can_open w) (se_tm w)
                          (se_flagfile w) (se_log_stdout w);
  env_stdout l w := SimEnv (se_file w) (se_stdout w ++ l) (se_can_open w) (se_tm w)
                          (se_flagfile w) (se_log_stdout w);
  env_localtime w := se_tm w;
  env_set_flagfile f w := SimEnv (se_file w) (se_stdout w) (se_can_open w) (se_tm w)
                          f (se_log_stdout w);
  env_FLAGS_log_stdout w := se_log_stdout w;
|}.

Section log_theorems.
Context {W : Type} `{LogEnv W}.

Lemma timestr_some t : ∃ s,
  snprintf 128 (Some (text "%04d-%02d-%02d_%02d:%02d:%02d"))
    [AInt (tm_year t + 1900); AInt (tm_mon t + 1); AInt (tm_mday t);
     AInt (tm_hour t); AInt (tm_min t); AInt (tm_sec t)] = Ok s.
Proof. eexists. unfold snprintf. simpl. reflexivity. Qed.

(** Once the log is open, [write] appends exactly one line to the file,
    whatever the type, and echoes a line to the standard output exactly when
    the flag asks for it or the type is [DEBUG_LOG]; the stream stays good. *)
Theorem log_write_appends_line (type : LogType) (log : list byte) (w : W) :
  ∃ time w1,
    Log_get_timestr w = Ok (time, w) ∧ w1 = env_file_write (log_line time type log) w ∧
    Log_write type log (mkLog true true true) w =
    Ok (mkLog true true true,
        if env_FLAGS_log_stdout w1 || bool_decide (type = DEBUG_LOG)
        then env_stdout (log_line (match Log_get_timestr w1 with Ok (t, _) => t | _ => [] end)
                           type log) w1
        else w1).
Proof.
  destruct (timestr_some (env_localtime w)) as [time Et]. exists time.
  eexists. split; [by unfold Log_get_timestr, lift; rewrite Et|]. split; [reflexivity|].
  unfold Log_write, Log_get_timestr, of_write, mbind, M_bind, mret, M_ret, call, act, lift.
  cbn [negb log_init_ of_open of_good andb]. rewrite Et. cbv beta iota.
  set (w1 := env_file_write (log_line time type log) w).
  replace (bool_decide (LogType_int type = LogType_int DEBUG_LOG))
    with (bool_decide (type = DEBUG_LOG)).
  - destruct (_ || _); [|done].
    destruct (timestr_some (env_localtime w1)) as [time2 Et2]. by rewrite Et2.
  - apply bool_decide_ext. split; [by intros ->|]. by destruct type.
Qed.

(** A second [init] of an open log breaks it: the stream stays open but
    in an error state which nothing clears ([init_] is set, so [write] never
    opens the file again), and no later [write] reaches the file. *)
Theorem log_double_init_silences (file : list byte) (l : Log) (w : W) :
  (of_open l = true) →
  ∃ w1 l1, Log_init file l w = Ok (l1, w1) ∧ l1 = mkLog true false true ∧
    ∀ type log w2, ∃ w3 out, Log_write type log l1 w2 = Ok (l1, w3) ∧
      (w3 = w2 ∨ w3 = env_stdout out w2).
Proof.
  intros Ho. eexists _, (mkLog true false true).
  split; [|split; [done|]].
  - unfold Log_init, mbind, M_bind, mret, M_ret, call, act, lift. rewrite Ho.
    cbn [snprintf]. simpl. reflexivity.
  - intros type log w2. destruct (timestr_some (env_localtime w2)) as [t Et].
    set (echo := env_FLAGS_log_stdout w2 ||
                 bool_decide (LogType_int type = LogType_int DEBUG_LOG)).
    exists (if echo then env_stdout (log_line t type log) w2 else w2), (log_line t type log).
    unfold Log_write, Log_get_timestr, of_write, mbind, M_bind, mret, M_ret, call, act, lift.
    cbn [negb log_init_ of_open of_good andb]. rewrite Et. cbv beta iota. fold echo.
    destruct echo; [rewrite Et|]; auto.
Qed.
End log_theorems.

(** The singleton discharges the interface: writing to the log always returns,
    whether or not the file could be opened. *)
#[export] Instance Log_logger_total {W} `{LogEnv W} : LoggerTotal (W * Log).
Proof.
  intros ty s [w l]. unfold log_write, Log_logger, Log_write.
  assert (Hbody : ∀ l w, ∃ r,
    (time ← Log_get_timestr;
     l ← of_write l (log_line time ty s);
     flag ← call (λ w, (env_FLAGS_log_stdout w, w));
     if flag || bool_decide (LogType_int ty = LogType_int DEBUG_LOG) then
       time ← Log_get_timestr; _ ← act (env_stdout (log_line time ty s)); mret l
     else mret l) w = Ok r).
  { intros l1 w1. unfold Log_get_timestr, of_write, mbind, M_bind, mret, M_ret, call, act, lift.
    destruct (timestr_some (env_localtime w1)) as [t1 E1]. rewrite E1.
    destruct (of_open l1 && of_good l1); cbv beta iota; destruct (_ || _); eauto;
      match goal with |- context [env_localtime ?w2] =>
        destruct (timestr_some (env_localtime w2)) as [t2 E2]; rewrite E2; eauto end. }
  destruct (negb (log_init_ l)).
  - assert (∃ l1 w1, Log_init (text "default") l w = Ok (l1, w1)) as (l1 & w1 & E).
    { unfold Log_init, mbind, M_bind, mret, M_ret, call, act, lift.
      cbn [snprintf]. simpl. destruct (of_open l); [eauto|].
      destruct (env_open _ _) as [[] ?]; simpl; eauto. }
    rewrite (M_bind_ok _ _ _ _ _ E). destruct (Hbody l1 w1) as [[l2 w2] ->]. by eexists.
  - rewrite (M_bind_ok _ _ w w l) by done. destruct (Hbody l w) as [[l2 w2] ->]. by eexists.
Qed.

Section log_macros.
Context {W : Type} `{LoggerTotal W}.

(** A message whose format matches its arguments is logged. *)
Lemma LOG_returns ty fmt args s w :
  format fmt args = Ok s → ∃ w', LOG ty (Some fmt) args w = Ok (tt, w').
Proof.
  intros E. unfold LOG, snprintf, mbind, M_bind, lift, outcome_bind. rewrite E. apply log_returns.
Qed.

Lemma LOG_bind {B} ty fmt args s (f : unit → M W B) w :
  format fmt args = Ok s → ∃ w', (LOG ty (Some fmt) args ≫= f) w = f tt w'.
Proof.
  intros E. destruct (LOG_returns ty fmt args s w E) as [w' E'].
  exists w'. by rewrite (M_bind_ok _ _ _ _ _ E').
Qed.

Lemma error_log_ptr_null w : error_log_ptr None w = Undefined NullFormat.
Proof. done. Qed.
End log_macros.

(** Runs the call of a logging macro, whose format is a literal, that the
    computation is about to make. *)
Ltac run_log :=
  match goal with
  | |- context [(@debug_log ?W ?L ?f ?args ≫= ?k) ?w] =>
      let w' := fresh "w" in let E := fresh "Elog" in
      destruct (LOG_bind DEBUG_LOG (text f) args _ k w eq_refl) as [w' E];
      change (@debug_log W L f args) with (@LOG W L DEBUG_LOG (Some (text f)) args);
      rewrite E; clear E
  | |- context [(@error_log ?W ?L ?f ?args ≫= ?k) ?w] =>
      let w' := fresh "w" in let E := fresh "Elog" in
      destruct (LOG_bind ERROR_LOG (text f) args _ k w eq_refl) as [w' E];
      change (@error_log W L f args) with (@LOG W L ERROR_LOG (Some (text f)) args);
      rewrite E; clear E
  end.
