(* ===== verification/Host.v ===== *)
(** * The world the server runs in

    A host is a world with sockets, readiness events and a log.  [HostLaws]
    states that these do not interfere: logging, registering a descriptor or
    waiting for events moves no stream, and closing a descriptor leaves the
    other streams alone.  A [CalmHost] is one on which all the bytes the peers will ever
    send are queued and no [send] fails: the most favourable kernel, on which
    the limits of the code are shown.  The kernel [sim] with a silent log is one. *)
From S2P Require Import Prelude CMem Kernel SocketInput SocketOutput Log.
From stdpp Require Import base numbers list option.
From Stdlib Require Import ZArith Lia Strings.Byte.
Open Scope Z_scope.

Class Host (W : Type) := {
  host_sockets :: SocketApi W;
  host_epoll :: EpollApi W;
  host_log :: Logger W;
}.

Class HostLaws (W : Type) `{Host W} := {
  host_socket_laws :: SocketLaws W;
  host_log_total :: LoggerTotal W;

  (** The log and the event queue do not touch the streams. *)
  log_streams ty s w w' fd : log_write ty s w = Ok (tt, w') →
    pending w' fd = pending w fd ∧ sent w' fd = sent w fd;
  ctl_streams epfd fd ev w fd' :
    pending (sys_epoll_ctl_add epfd fd ev w).2 fd' = pending w fd' ∧
    sent (sys_epoll_ctl_add epfd fd ev w).2 fd' = sent w fd';
  wait_streams epfd n t w fd :
    pending (sys_epoll_wait epfd n t w).2 fd = pending w fd ∧
    sent (sys_epoll_wait epfd n t w).2 fd = sent w fd;
  close_streams fd w fd' : fd' ≠ fd →
    pending (sys_close fd w) fd' = pending w fd' ∧ sent (sys_close fd w) fd' = sent w fd';

  host_progress : send_progress (W := W);
}.

(** A calm host: everything the peers will send was queued, and no [send]
    fails.  (It may still take only a part of what it is given.) *)
Class CalmHost (W : Type) `{HostLaws W} := {
  calm : W → Prop;
  calm_bound fd w : calm w → zlen (pending w fd) ≤ 2 ^ 30;
  calm_recv fd n w : calm w → 0 < n → pending w fd ≠ [] →
    ∃ w', sys_recv fd n w = (Some (take (Z.to_nat n) (pending w fd)), w') ∧ calm w';
  calm_fionread fd w : calm w →
    ∃ w', sys_fionread fd w = (Some (zlen (pending w fd)), w') ∧ calm w';
  calm_send fd bs w : calm w → bs ≠ [] → ∃ n w', sys_send fd bs w = (Some n, w') ∧ calm w';
  calm_log ty s w w' : calm w → log_write ty s w = Ok (tt, w') → calm w';
}.

Section host.
Context {W : Type} `{HostLaws W}.

(** A message logged by the macros leaves the streams alone. *)
Lemma log_bind {B} ty fmt args s (f : unit → M W B) w :
  format fmt args = Ok s →
  ∃ w', (LOG ty (Some fmt) args ≫= f) w = f tt w' ∧
    (∀ fd, pending w' fd = pending w fd ∧ sent w' fd = sent w fd).
Proof.
  intros E. unfold LOG, snprintf. rewrite E. cbn [mbind outcome_bind].
  set (line := cstr _). destruct (log_returns ty line w) as [w' El].
  exists w'. split.
  - unfold mbind, M_bind, lift. by rewrite El.
  - intros fd. by apply (log_streams ty line).
Qed.
End host.

(** How much [feed] takes on a calm host when the head is at 0. *)
Section calm_feed.
Context {W : Type} `{CalmHost W}.

Lemma calm_receive fd ask q w k :
  calm w → 0 < ask → pending w fd ≠ [] →
  ∃ w', receive fd ask q k w = k (take (Z.to_nat ask) (pending w fd)) w' ∧ calm w' ∧
    pending w' fd = drop (Z.to_nat ask) (pending w fd).
Proof.
  intros Hw Hask Hp. unfold receive. rewrite M_bind_call.
  destruct (calm_recv fd ask w Hw Hask Hp) as (w' & E & Hw'). rewrite E. cbn [fst snd].
  assert (0 < zlen (take (Z.to_nat ask) (pending w fd))).
  { assert (0 < zlen (pending w fd)) by (destruct (pending w fd); [done|rewrite zlen_cons; zlia]).
    unfold zlen in *. rewrite length_take. lia. }
  zbool. exists w'. split; [done|]. split; [done|].
  destruct (recv_data fd ask w _ w' ltac:(lia) E) as [_ Hd].
  apply (app_inv_head (take (Z.to_nat ask) (pending w fd))). by rewrite take_drop, <- Hd.
Qed.

(** With the head at 0: the free space, and then at most the same number of bytes
    again, however much is queued, since the second [recv] is given the old free
    size. *)
Lemma feed_stream_calm fd len q w :
  let p := pending w fd in
  let free := len - 1 - zlen q in
  calm w → 0 < free → p ≠ [] → len + zlen p + 1 ≤ SOCKET_INPUT_MAXSIZE →
  ∃ w', feed_stream fd len 0 q w =
      Ok ((Z.min (2 * free) (zlen p), Some (q ++ take (Z.to_nat (2 * free)) p)), w') ∧
    calm w' ∧ pending w' fd = drop (Z.to_nat (2 * free)) p.
Proof.
  intros p free Hw Hfree Hp Hmax. unfold feed_stream. change (0 <? 0) with false.
  cbn [andb]. cbv beta iota zeta. fold free. change (0 =? 0) with true. cbn [andb].
  rewrite (proj2 (Z.leb_gt free 0)) by lia.
  destruct (calm_receive fd free q w (λ bs, if zlen bs =? free
    then feed_more fd len 0 free false q bs else mret (zlen bs, Some (q ++ bs))) Hw Hfree Hp)
    as (w1 & -> & Hw1 & Hp1). fold p in Hp1 |- *.
  assert (zlen (take (Z.to_nat free) p) = Z.min free (zlen p)) as Hl
    by (unfold zlen; rewrite length_take; lia).
  rewrite Hl. assert (Hsplit : Z.to_nat (2 * free) = (Z.to_nat free + Z.to_nat free)%nat) by lia.
  assert (Hshort : zlen p ≤ free → ∀ w' : W, pending w' fd = drop (Z.to_nat free) p →
    take (Z.to_nat free) p = take (Z.to_nat (2 * free)) p ∧
    pending w' fd = drop (Z.to_nat (2 * free)) p).
  { intros Hle w' ->. rewrite !take_ge, !drop_ge by (unfold zlen in *; lia). done. }
  destruct (Z.eqb_spec (Z.min free (zlen p)) free) as [Hfull|Hnot].
  2: { exists w1. destruct (Hshort ltac:(lia) w1 Hp1) as [<- <-].
       split; [|done]. unfold mret, M_ret. do 3 f_equal. lia. }
  unfold feed_more, ioctl_remain. destruct (calm_fionread fd w1 Hw1) as (w2 & E2 & Hw2).
  rewrite (M_bind_ok _ _ w1 w2 (zlen (pending w1 fd))) by (rewrite M_bind_call, E2; done).
  assert (Hp2 : pending w2 fd = drop (Z.to_nat free) p).
  { pose proof (fionread_pending fd w1 fd) as Hf. rewrite E2 in Hf. cbn [snd] in Hf. congruence. }
  assert (Hrem : zlen (pending w1 fd) = zlen p - free).
  { rewrite Hp1. unfold zlen in *. rewrite length_drop. lia. }
  rewrite Hrem, Hl. destruct (Z.leb_spec (zlen p - free) 0).
  { exists w2. destruct (Hshort ltac:(lia) w2 Hp2) as [<- <-]. split; [|done]. unfold mret, M_ret. do 3 f_equal. lia. }
  cbn [andb]. unfold grow. si_consts. zbool.
  destruct (calm_receive fd free (q ++ take (Z.to_nat free) p) w2 (λ bs,
      store (len + Z.max (zlen p - free + 1) 8) (Z.min free (zlen p) + zlen bs)
        (q ++ take (Z.to_nat free) p) bs) Hw2 Hfree) as (w3 & -> & Hw3 & Hp3).
  { rewrite Hp2. intros En. apply (f_equal zlen) in En. unfold zlen in *.
    rewrite length_drop in En. simpl in En. lia. }
  rewrite Hp2 in Hp3 |- *. unfold store. rewrite !zlen_app, Hl.
  assert (zlen (take (Z.to_nat free) (drop (Z.to_nat free) p)) = Z.min free (zlen p - free)) as Hl2
    by (unfold zlen in *; rewrite length_take, length_drop; lia).
  rewrite Hl2. zbool. exists w3. split; [|split; [done|]].
  - rewrite <- app_assoc, take_take_drop, <- Hsplit. unfold mret, M_ret. do 3 f_equal. lia.
  - by rewrite Hp3, drop_drop, <- Hsplit.
Qed.

(** No [send] fails on a calm host, so [refresh] never does. *)
Lemma calm_send_loop fd fuel : ∀ (s : SocketOutput) left out w r s' w',
  calm w → 0 ≤ left ≤ INT_MAX →
  send_loop fuel fd s left out w = Ok ((r, s'), w') →
  (∃ n, r = inr n ∧ out ≤ n) ∧ calm w'.
Proof.
  induction fuel as [|fuel IH]; intros s left out w r s' w' Hw Hleft E.
  - simpl in E. destruct (left <=? 0); [|done]. injection E as <- _ <-. eauto with lia.
  - simpl in E. destruct (Z.leb_spec left 0); [injection E as <- _ <-; eauto with lia|].
    apply M_bind_inv in E as (n & w1 & E1 & E). unfold send_at in E1.
    destruct (read_bytes (so_buffer s) (so_head s) left) as [bs| | |] eqn:Eb; try done.
    rewrite M_bind_lift, M_bind_call in E1.
    pose proof (read_bytes_length _ _ left _ ltac:(lia) Eb) as Hlen.
    assert (Hbs : bs ≠ []) by (intros ->; rewrite zlen_nil in Hlen; lia).
    destruct (calm_send fd bs w Hw Hbs) as (k & w2 & Es & Hw2). rewrite Es in E1.
    injection E1 as <- <-. cbn [default] in E.
    destruct (send_some fd bs w k w2 Es) as [Hk _].
    simpl in E. rewrite (proj2 (Z.ltb_ge k 0)) in E by lia.
    destruct (IH _ (left - k) _ _ _ _ _ Hw2 ltac:(lia) E) as [(m & -> & ?) ?].
    split; [|done]. exists m. split; [done|lia].
Qed.

Lemma calm_refresh fd fuel (s : SocketOutput) q w r s' w' :
  output_holds s q → calm w → SocketOutput_refresh fuel fd s w = Ok ((r, s'), w') →
  0 ≤ r ∧ calm w'.
Proof.
  intros [[Hl Hb Hh Ht] _] Hw E. unfold SocketOutput_refresh, refresh_done in E.
  destruct (Z.ltb_spec (so_head s) (so_tail s)); [|destruct (Z.ltb_spec (so_tail s) (so_head s))].
  - apply M_bind_inv in E as ([r1 s1] & w1 & E1 & E).
    assert ((∃ n, r1 = inr n ∧ 0 ≤ n) ∧ calm w1) as [(n & -> & ?) Hw1]
      by (eapply calm_send_loop; [exact Hw| |exact E1]; so_lia).
    by injection E as <- _ <-.
  - apply M_bind_inv in E as ([r1 s1] & w1 & E1 & E).
    assert ((∃ n, r1 = inr n ∧ 0 ≤ n) ∧ calm w1) as [(n & -> & ?) Hw1]
      by (eapply calm_send_loop; [exact Hw| |exact E1]; so_lia).
    apply M_bind_inv in E as ([r2 s2] & w2 & E2 & E).
    destruct (send_loop_tail fuel fd s (so_buffer_len s - so_head s) 0 w _ s1 w1 E1) as [Ht1 _].
    simpl in E2. rewrite Ht1 in E2.
    assert ((∃ m, r2 = inr m ∧ n ≤ m) ∧ calm w2) as [(m & -> & ?) Hw2]
      by (eapply calm_send_loop; [exact Hw1| |exact E2]; so_lia).
    injection E as <- _ <-. split; [lia|done].
  - by injection E as <- _ <-.
Qed.
End calm_feed.

(** *** The kernel [sim] with a silent log *)
#[export] Instance sim_logger : Logger sim := λ _ _ w, Ok (tt, w).
#[export] Instance sim_host : Host sim := {| host_log := sim_logger |}.

(** Nothing more arrives. *)
Definition sim_still (w : sim) : Prop :=
  sim_arrived w = [] ∧ ∀ fd, zlen (sim_rx w fd) ≤ 2 ^ 30.

Lemma sim_still_recv fd n w : sim_still w → sim_still (sim_recv fd n w).2.
Proof.
  intros [Ha Hb]. unfold sim_recv, sim_still. case_match; simpl; rewrite Ha; (split; [done|]);
    intros fd'; [apply Hb|].
  unfold upd. destruct (fd' =? fd); [|apply Hb]. specialize (Hb fd). unfold zlen in *.
  rewrite length_drop. lia.
Qed.

#[export] Program Instance sim_host_laws : HostLaws sim.
Next Obligation. intros ty s w. by exists w. Qed.
Next Obligation. intros ty s w w' fd. by intros [= <-]. Qed.
Next Obligation. done. Qed.
Next Obligation. done. Qed.
Next Obligation. done. Qed.
Next Obligation.
  intros fd bs w n w'. simpl. unfold sim_send. case_match eqn:E; [done|]. intros [= <- <-] Hne.
  assert (0 < zlen bs) by (destruct bs; [done|rewrite zlen_cons; zlia]).
  apply andb_false_iff in E as [E|E]; lia.
Qed.

#[export] Program Instance sim_calm : CalmHost sim := {|
  calm w := sim_still w ∧ sim_room w = [] |}.
Next Obligation. intros fd w [[_ Hb] _]. apply Hb. Qed.
Next Obligation.
  intros fd n w [Hw Hr] Hn Hp. pose proof (sim_still_recv fd n w Hw) as Hw'. simpl in *.
  destruct Hw as [Ha Hb]. unfold sim_recv, sim_visible in *. rewrite Ha in *.
  assert (0 < zlen (sim_rx w fd)) by (destruct (sim_rx w fd); [done|rewrite zlen_cons; zlia]).
  revert Hw'. zbool. simpl. intros Hw'. eexists. split; [|by split; [exact Hw'|]].
  do 2 f_equal. destruct (Z.le_gt_cases n (zlen (sim_rx w fd))); [f_equal; lia|].
  unfold zlen in *. rewrite !take_ge by lia. done.
Qed.
Next Obligation.
  intros fd w [[Ha Hb] Hr]. simpl. unfold sim_fionread, sim_visible. rewrite Ha.
  specialize (Hb fd) as Hfd. rewrite Z.min_r by (unfold INT_MAX; lia).
  eexists. split; [done|]. by split.
Qed.
Next Obligation.
  intros fd bs w [[Ha Hb] Hr] Hne. simpl. unfold sim_send. rewrite Hr.
  assert (0 < zlen bs) by (destruct bs; [done|rewrite zlen_cons; zlia]).
  zbool. simpl. eexists _, _. split; [done|]. by split.
Qed.
Next Obligation. intros ty s w w' Hw. by intros [= <-]. Qed.
