(* ===== verification/Proto.v ===== *)
(** * The protocol messages: [packet/connector.pb.{h,cc}], [packet/packet_id.pb.h]

    The generated classes [CS_Ping] and [SC_RetPing] are the same code for an
    optional string field with number 1 ([param] and [ret_param]); [Message] is
    their common state and each method is translated once, then named for both
    classes.  The protobuf runtime (coded streams, wire format, unknown fields)
    is not code of the repository: it is the class [PbRuntime], with the laws
    the generated code relies on in [PbLaws], and [simple_runtime] is a concrete
    runtime which satisfies them. *)
From S2P Require Import Prelude CMem.
From stdpp Require Import base numbers list option.
From Stdlib Require Import ZArith Lia Strings.Byte.
Open Scope Z_scope.

(** ** The runtime *)
Class PbRuntime := {
  (** [InternalMetadataWithArena]: the unknown fields of a message. *)
  metadata : Type;
  md_null : metadata;
  md_have_unknown : metadata → bool;
  md_clear : metadata → metadata;
  md_merge : metadata → metadata → metadata;
  md_unknown_size : metadata → Z;
  md_unknown_bytes : metadata → list byte;
  (** [CodedInputStream]; [ReadTagWithCutoffNoLastTag(127)] gives a tag and
      whether it is at most the cutoff. *)
  in_stream : Type;
  stream_of : list byte → in_stream;
  stream_consumed : in_stream → bool;
  read_tag : in_stream → (Z * bool) * in_stream;
  (** [WireFormatLite::ReadString] into a string and [WireFormat::SkipField]
      into the unknown fields: whether they succeed, and what they leave. *)
  read_string : in_stream → list byte → (bool * list byte) * in_stream;
  skip_field : in_stream → Z → metadata → (bool * metadata) * in_stream;
  (** [WireFormatLite::StringSize] and [WriteStringToArray]. *)
  string_size : list byte → Z;
  write_string : Z → list byte → list byte;
  (** [ArenaStringPtr::AssignWithDefault], on the own strings of the two sides
      ([None]: the shared empty string): the own string afterwards. *)
  assign_with_default : option (list byte) → option (list byte) → option (list byte);
}.

Section message.
Context `{PbRuntime}.

(** [param_] points to the shared empty string ([None]) or to its own. *)
Record Message := mkMessage {
  has_bits : Z;                   (** [_has_bits_\[0\]] *)
  internal_metadata : metadata;
  cached_size : Z;
  field : option (list byte);
}.

(** The constructor ([SharedCtor] included) and the copy constructor. *)
Definition Message_new : Message := mkMessage 0 md_null 0 None.
Definition has_param (m : Message) : bool := negb (Z.land (has_bits m) 1 =? 0).
Definition set_has_param (m : Message) : Message :=
  mkMessage (Z.lor (has_bits m) 1) (internal_metadata m) (cached_size m) (field m).
Definition clear_has_param (m : Message) : Message :=
  mkMessage (Z.ldiff (has_bits m) 1) (internal_metadata m) (cached_size m) (field m).
Definition set_field (m : Message) (s : option (list byte)) : Message :=
  mkMessage (has_bits m) (internal_metadata m) (cached_size m) s.
Definition Message_copy (from : Message) : Message :=
  mkMessage (has_bits from) (md_merge md_null (internal_metadata from)) 0
    (if has_param from then assign_with_default None (field from) else None).

(** [param()], [set_param(value)], [mutable_param()] and [clear_param()]. *)
Definition param (m : Message) : list byte := default [] (field m).
Definition set_param (m : Message) (value : list byte) : Message :=
  set_field (set_has_param m) (Some value).
Definition mutable_param (m : Message) : Message :=
  let m := set_has_param m in
  match field m with Some _ => m | None => set_field m (Some []) end.
Definition clear_param (m : Message) : Message :=
  clear_has_param (match field m with
                   | Some _ => set_field m (Some [])
                   | None => m
                   end).

(** [set_param] of a C string, and of a pointer with its size. *)
Definition set_param_cstr (m : Message) (value : list byte) : Message :=
  set_param m (cstr value).
Definition set_param_bytes (m : Message) (value : list byte) (size : Z) : Message :=
  set_param m (take (Z.to_nat size) value).
(** [release_param()]: the string leaves the message, which points to the
    shared empty string again (for which null is returned). *)
Definition release_param (m : Message) : option (list byte) * Message :=
  let m := clear_has_param m in
  (field m, set_field m None).
Definition set_allocated_param (m : Message) (param : option (list byte)) : Message :=
  set_field (match param with Some _ => set_has_param m | None => clear_has_param m end) param.

Definition Message_SetCachedSize (m : Message) (size : Z) : Message :=
  mkMessage (has_bits m) (internal_metadata m) size (field m).
Definition Message_GetCachedSize (m : Message) : Z := cached_size m.

Definition Message_Clear (m : Message) : Message :=
  let m := if negb (Z.land (has_bits m) 1 =? 0) then set_field m ((λ _, []) <$> field m) else m in
  mkMessage 0 (md_clear (internal_metadata m)) (cached_size m) (field m).

(** One iteration of the loop of [MergePartialFromCodedStream]: [inl] leaves
    the loop with the result of the function. *)
Definition merge_field (input : in_stream) (m : Message)
  : (bool * Message * in_stream) + (Message * in_stream) :=
  let '((tag, in_cutoff), input) := read_tag input in
  let unusual :=
    if tag =? 0 then inl (true, m, input)
    else
      let '((ok, md), input) := skip_field input tag (internal_metadata m) in
      let m := mkMessage (has_bits m) md (cached_size m) (field m) in
      if negb ok then inl (false, m, input) else inr (m, input) in
  if negb in_cutoff then unusual else
  if Z.shiftr tag 3 =? 1 then
    if tag mod 256 =? 10 then
      let m := mutable_param m in
      let '((ok, s), input) := read_string input (param m) in
      let m := set_field m (Some s) in
      if negb ok then inl (false, m, input) else inr (m, input)
    else unusual
  else unusual.

Fixpoint Message_MergePartialFromCodedStream (fuel : nat) (input : in_stream) (m : Message)
  : outcome (bool * Message * in_stream) :=
  match fuel with
  | O => NoFuel
  | S fuel =>
      match merge_field input m with
      | inl r => Ok r
      | inr (m, input) => Message_MergePartialFromCodedStream fuel input m
      end
  end.

Definition Message_InternalSerializeWithCachedSizesToArray (m : Message) : list byte :=
  (if negb (Z.land (has_bits m) 1 =? 0) then write_string 1 (param m) else [])
  ++ (if md_have_unknown (internal_metadata m)
      then md_unknown_bytes (internal_metadata m) else []).

(** [SerializeWithCachedSizes]: what is appended to the output stream. *)
Definition Message_SerializeWithCachedSizes (m : Message) (output : list byte) : list byte :=
  let output :=
    if negb (Z.land (has_bits m) 1 =? 0) then output ++ write_string 1 (param m) else output in
  if md_have_unknown (internal_metadata m)
  then output ++ md_unknown_bytes (internal_metadata m) else output.

(** [ByteSizeLong] stores the size it returns, as an [int], in the message. *)
Definition Message_ByteSizeLong (m : Message) : Z * Message :=
  let total_size := 0 in
  let total_size :=
    if md_have_unknown (internal_metadata m)
    then total_size + md_unknown_size (internal_metadata m) else total_size in
  let total_size :=
    if has_param m then total_size + (1 + string_size (param m)) else total_size in
  (total_size, mkMessage (has_bits m) (internal_metadata m) (to_int total_size) (field m)).

Definition Message_MergeFrom (m from : Message) : Message :=
  let m := mkMessage (has_bits m) (md_merge (internal_metadata m) (internal_metadata from))
             (cached_size m) (field m) in
  if has_param from
  then set_field (set_has_param m) (assign_with_default (field m) (field from)) else m.

(** [CopyFrom] of another object ([&from != this]). *)
Definition Message_CopyFrom (m from : Message) : Message :=
  Message_MergeFrom (Message_Clear m) from.

(** [New(arena)]: the new object is independent of this one. *)
Definition Message_New (m : Message) : Message := Message_new.

Definition Message_InternalSwap (m other : Message) : Message * Message :=
  (mkMessage (has_bits other) (internal_metadata other) (cached_size other) (field other),
   mkMessage (has_bits m) (internal_metadata m) (cached_size m) (field m)).

Definition Message_Swap (same : bool) (m other : Message) : Message * Message :=
  if same then (m, other) else Message_InternalSwap m other.

Definition Message_IsInitialized (m : Message) : bool := true.
End message.
Arguments Message {_}.

(** ** The two classes and the packet identifiers *)
Section packets.
Context `{PbRuntime}.

Definition CS_Ping : Type := Message.
Definition SC_RetPing : Type := Message.

Definition SC_RetPing_new : SC_RetPing := Message_new.
Definition SC_RetPing_copy : SC_RetPing → SC_RetPing := Message_copy.
Definition SC_RetPing_Clear : SC_RetPing → SC_RetPing := Message_Clear.
Definition SC_RetPing_MergePartialFromCodedStream :=
  Message_MergePartialFromCodedStream.
Definition SC_RetPing_InternalSerializeWithCachedSizesToArray :=
  Message_InternalSerializeWithCachedSizesToArray.
Definition SC_RetPing_ByteSizeLong := Message_ByteSizeLong.
Definition SC_RetPing_MergeFrom := Message_MergeFrom.
Definition SC_RetPing_CopyFrom := Message_CopyFrom.
Definition SC_RetPing_InternalSwap := Message_InternalSwap.
Definition SC_RetPing_SetCachedSize := Message_SetCachedSize.
Definition SC_RetPing_SerializeWithCachedSizes := Message_SerializeWithCachedSizes.
Definition SC_RetPing_New := Message_New.
Definition SC_RetPing_Swap := Message_Swap.
Definition SC_RetPing_IsInitialized := Message_IsInitialized.
Definition has_ret_param := has_param.
Definition set_has_ret_param := set_has_param.
Definition clear_has_ret_param := clear_has_param.
Definition clear_ret_param := clear_param.
Definition set_ret_param_cstr := set_param_cstr.
Definition set_ret_param_bytes := set_param_bytes.
Definition mutable_ret_param := mutable_param.
Definition release_ret_param := release_param.
Definition set_allocated_ret_param := set_allocated_param.
Definition set_ret_param : SC_RetPing → list byte → SC_RetPing := set_param.
Definition ret_param : SC_RetPing → list byte := param.

(** [proto::PacketId] *)
Definition CS_INVALID : Z := 0.
Definition CS_PING : Z := 1.
Definition SC_RET_PING : Z := 2.
Definition PacketId_IsValid (v : Z) : bool :=
  (v =? CS_INVALID) || (v =? CS_PING) || (v =? SC_RET_PING).

(** A [proto::Packet*]: a message with its dynamic type. *)
Inductive Packet := PCS_Ping (m : CS_Ping) | PSC_RetPing (m : SC_RetPing).
Definition packet_message (p : Packet) : Message :=
  match p with PCS_Ping m => m | PSC_RetPing m => m end.
Definition with_message (p : Packet) (m : Message) : Packet :=
  match p with PCS_Ping _ => PCS_Ping m | PSC_RetPing _ => PSC_RetPing m end.
End packets.
Arguments Packet {_}.

(** ** What the generated code relies on *)
Class PbLaws `{PbRuntime} := {
  (** A written string field is read back: its tag is 10, within the cutoff. *)
  read_written_string s cur rest : zlen s ≤ INT_MAX →
    ∃ st, read_tag (stream_of (write_string 1 s ++ rest)) = ((10, true), st) ∧
          read_string st cur = ((true, s), stream_of rest);
  (** At the end of the input the tag is 0. *)
  read_tag_end : ∃ b st, read_tag (stream_of []) = ((0, b), st) ∧ stream_consumed st = true;
  string_size_written s : zlen s ≤ INT_MAX → zlen (write_string 1 s) = 1 + string_size s;
  string_size_bound s : zlen s ≤ INT_MAX → zlen s ≤ string_size s ≤ zlen s + 5;
  unknown_size_written md : zlen (md_unknown_bytes md) = md_unknown_size md;
  (** A string assigned is the one of the other side. *)
  assign_other me s : assign_with_default me (Some s) = Some s;
  md_null_known : md_have_unknown md_null = false;
  md_clear_known md : md_have_unknown (md_clear md) = false;
  md_merge_known md md' : md_have_unknown md = false → md_have_unknown md' = false →
    md_have_unknown (md_merge md md') = false;
}.

(** *** A concrete runtime: the protobuf wire format, without unknown fields *)
Fixpoint varint_encode (fuel : nat) (n : Z) : list byte :=
  match fuel with
  | O => []
  | S fuel => if n <? 128 then [z2b n]
              else z2b (n mod 128 + 128) :: varint_encode fuel (n / 128)
  end.
Fixpoint varint_decode (fuel : nat) (bs : list byte) : option (Z * list byte) :=
  match fuel, bs with
  | S fuel, b :: bs =>
      if b2z b <? 128 then Some (b2z b, bs)
      else '(n, rest) ← varint_decode fuel bs; Some (b2z b - 128 + 128 * n, rest)
  | _, _ => None
  end.

Lemma varint_round_trip fuel n rest :
  (0 < fuel)%nat → 0 ≤ n < 128 ^ Z.of_nat fuel →
  varint_decode fuel (varint_encode fuel n ++ rest) = Some (n, rest).
Proof.
  revert n. induction fuel as [|fuel IH]; intros n Hf Hn; [lia|].
  rewrite Nat2Z.inj_succ, Z.pow_succ_r in Hn by lia. simpl.
  destruct (Z.ltb_spec n 128); simpl; rewrite b2z_z2b.
  - rewrite Z.mod_small by lia. by rewrite (proj2 (Z.ltb_lt n 128)) by lia.
  - pose proof (Z.mod_pos_bound n 128 ltac:(lia)).
    rewrite Z.mod_small by lia. rewrite (proj2 (Z.ltb_ge _ 128)) by lia.
    assert (Hd : 0 ≤ n / 128 < 128 ^ Z.of_nat fuel)
      by (split; [apply Z.div_pos; lia|apply Z.div_lt_upper_bound; lia]).
    rewrite IH; [|destruct fuel; simpl in *; lia|done]. simpl.
    do 2 f_equal. rewrite (Z.div_mod n 128) at 3 by lia. lia.
Qed.

Lemma varint_length fuel n : 0 ≤ zlen (varint_encode fuel n) ≤ Z.of_nat fuel.
Proof.
  split; [apply zlen_nonneg|]. revert n. induction fuel as [|fuel IH]; intros n; [done|].
  cbn [varint_encode]. destruct (n <? 128); rewrite zlen_cons; [rewrite zlen_nil; lia|].
  specialize (IH (n / 128)). lia.
Qed.

#[global] Arguments varint_encode : simpl never.
#[global] Arguments varint_decode : simpl never.

#[export] Instance simple_runtime : PbRuntime := {|
  metadata := unit;
  md_null := tt;
  md_have_unknown _ := false;
  md_clear _ := tt;
  md_merge _ _ := tt;
  md_unknown_size _ := 0;
  md_unknown_bytes _ := [];
  in_stream := list byte;
  stream_of bs := bs;
  stream_consumed bs := bool_decide (length bs = 0%nat);
  read_tag bs := match varint_decode 5 bs with
                 | Some (t, rest) => ((t, t <=? 127), rest)
                 | None => ((0, false), bs)
                 end;
  read_string bs cur := match varint_decode 5 bs with
                        | Some (n, rest) =>
                            if n <=? zlen rest
                            then ((true, take (Z.to_nat n) rest), drop (Z.to_nat n) rest)
                            else ((false, cur), bs)
                        | None => ((false, cur), bs)
                        end;
  skip_field bs _ md := ((false, md), bs);
  string_size s := zlen (varint_encode 5 (zlen s)) + zlen s;
  write_string n s := varint_encode 5 (n * 8 + 2) ++ varint_encode 5 (zlen s) ++ s;
  assign_with_default me other := match me, other with
                                  | None, None => None
                                  | _, _ => Some (default [] other)
                                  end;
|}.

#[export] Program Instance simple_laws : @PbLaws simple_runtime.
Next Obligation.
  intros s cur rest Hs. exists (varint_encode 5 (zlen s) ++ s ++ rest).
  split; [simpl; by rewrite <- !app_assoc|]. simpl.
  rewrite varint_round_trip; [|lia|unfold INT_MAX in *; zlen_facts; lia].
  rewrite zlen_app. zlen_facts. zbool. unfold zlen. rewrite Nat2Z.id.
  by rewrite take_app_length, drop_app_length.
Qed.
Next Obligation. by eexists _, _. Qed.
Next Obligation. intros s Hs. simpl. rewrite zlen_cons, zlen_app. done. Qed.
Next Obligation. intros s Hs. simpl. pose proof (varint_length 5 (zlen s)). lia. Qed.
Next Obligation. done. Qed.
Next Obligation. by intros [?|] s. Qed.
Next Obligation. done. Qed.
Next Obligation. done. Qed.
Next Obligation. done. Qed.

(** ** Properties *)
Section proto_theorems.
Context `{PbLaws}.
Implicit Types m : Message.

(** The has-bits word is a flag, and a set flag comes with an own string. *)
Definition msg_ok m : Prop :=
  (has_bits m = 0 ∨ has_bits m = 1) ∧ (has_bits m = 1 → is_Some (field m)).

Definition known_only m : Prop := md_have_unknown (internal_metadata m) = false.

(** What a message holds: its string field, if it has one. The has-bit is set
    exactly then, the string is the message's own, and a message without the
    field reads as the default, the empty string. *)
Definition is_message m (o : option (list byte)) : Prop :=
  match o with
  | Some s => has_bits m = 1 ∧ field m = Some s
  | None => has_bits m = 0 ∧ param m = []
  end.

Lemma is_message_ok m o : is_message m o → msg_ok m.
Proof.
  destruct o; intros [E1 E2]; split; rewrite E1; [by right|by eexists|by left|done].
Qed.

Lemma has_param_message m o : is_message m o → has_param m = bool_decide (is_Some o).
Proof. unfold has_param. by destruct o; intros [-> _]. Qed.

Lemma param_message m o : is_message m o → param m = default [] o.
Proof. unfold param. by destruct o; intros [_ E]; rewrite ?E. Qed.

Lemma set_param_message m o value : is_message m o → is_message (set_param m value) (Some value).
Proof. by destruct o; intros [E _]; split; simpl; rewrite ?E. Qed.

Lemma mutable_param_message m o :
  is_message m o → is_message (mutable_param m) (Some (default [] o)).
Proof.
  unfold mutable_param, param. simpl. destruct o as [s|]; intros [E1 E2]; simpl in *.
  - rewrite E2. simpl. by rewrite E1, E2.
  - unfold param in E2. destruct (field m) as [s|] eqn:E; simpl in *; subst; by rewrite E1, ?E.
Qed.

Lemma clear_param_message m o : is_message m o → is_message (clear_param m) None.
Proof.
  unfold clear_param, param. destruct o; intros [E1 E2]; destruct (field m) eqn:E;
    split; simpl; unfold param; rewrite ?E1, ?E; done.
Qed.

Lemma Clear_message m o : is_message m o → is_message (Message_Clear m) None.
Proof.
  unfold Message_Clear. destruct o; intros [E1 E2]; rewrite E1; split; try done.
  simpl. unfold param. simpl. by rewrite E2.
Qed.

Lemma MergeFrom_message m from o o' :
  is_message m o → is_message from o' →
  is_message (Message_MergeFrom m from) (match o' with Some _ => o' | None => o end).
Proof.
  intros Hm Hf. unfold Message_MergeFrom. rewrite (has_param_message from o' Hf).
  destruct o' as [s|]; [|by destruct o]. destruct Hf as [_ ->]. rewrite assign_other.
  by destruct o; destruct Hm as [E _]; split; simpl; rewrite ?E.
Qed.

Lemma copy_message m o : is_message m o → is_message (Message_copy m) o.
Proof.
  intros Hm. unfold Message_copy. rewrite (has_param_message m o Hm).
  destruct o; destruct Hm as [E1 E2]; split; simpl; rewrite ?E2, ?assign_other; done.
Qed.

Lemma release_message m o :
  is_message m o →
  is_message (release_param m).2 None ∧ (is_Some o → (release_param m).1 = o).
Proof.
  destruct o as [s|]; intros [E1 E2]; unfold release_param; simpl;
    (split; [split; simpl; by rewrite ?E1|]); by intros [? ?].
Qed.

Lemma set_allocated_message m o p : is_message m o → is_message (set_allocated_param m p) p.
Proof. by destruct o, p; intros [E _]; split; simpl; rewrite ?E. Qed.

(** One round of the parsing loop: the field may be set or replaced, never
    removed. *)
Definition keeps_field (o : option (list byte)) m' : Prop :=
  ∃ o', is_message m' o' ∧ (is_Some o → is_Some o').

Lemma merge_field_message input m o :
  is_message m o →
  match merge_field input m with
  | inl (_, m', _) => keeps_field o m'
  | inr (m', _) => keeps_field o m'
  end.
Proof.
  intros Hm. unfold merge_field.
  destruct (read_tag input) as [[tag in_cutoff] input1].
  assert (Hun : match (if tag =? 0 then inl (true, m, input1) else
      let '((ok, md), input) := skip_field input1 tag (internal_metadata m) in
      let m := mkMessage (has_bits m) md (cached_size m) (field m) in
      if negb ok then inl (false, m, input) else inr (m, input)) with
    | inl (_, m', _) => keeps_field o m'
    | inr (m', _) => keeps_field o m'
    end).
  { destruct (tag =? 0); [by exists o|].
    destruct (skip_field _ _ _) as [[ok md] i2]. by destruct ok; exists o. }
  destruct in_cutoff; simpl; [|done].
  destruct (_ =? 1); [|done]. destruct (_ =? 10); [|done].
  destruct (read_string _ _) as [[ok s] i2].
  pose proof (mutable_param_message m o Hm) as [E1 _].
  assert (Hs : keeps_field o (set_field (mutable_param m) (Some s)))
    by (exists (Some s); done).
  by destruct ok.
Qed.

Lemma merge_message fuel : ∀ input m o b m' input', is_message m o →
  Message_MergePartialFromCodedStream fuel input m = Ok (b, m', input') → keeps_field o m'.
Proof.
  induction fuel as [|fuel IH]; intros input m o b m' input' Hm; simpl; [done|].
  pose proof (merge_field_message input m o Hm) as Hok.
  destruct (merge_field input m) as [[[b1 m1] i1]|[m1 i1]] eqn:E.
  - by intros [= -> <- ->].
  - destruct Hok as (o1 & H1 & Ho). intros E'.
    destruct (IH _ _ o1 _ _ _ H1 E') as (o2 & H2 & Ho'). exists o2. eauto.
Qed.

(** C36. What every operation of the generated classes does to the optional
    field: the has-bit is set exactly when the field is present, the string is
    then the message's own, and the default, the empty string, is read when it
    is absent. The constructor gives a message without the field and the copy
    constructor one with the same; the setters set it, [mutable] makes it the
    empty string when absent, the clearing, releasing and null-setting
    operations remove it, merging takes the other's when that has one, copying
    takes the other's or none, swapping exchanges, and parsing, whether it
    succeeds or not, can set or replace the field but not remove it. *)
Theorem messages_well_formed m from o o' value fuel input :
  is_message m o → is_message from o' →
  has_param m = bool_decide (is_Some o) ∧ param m = default [] o ∧
  is_message Message_new None ∧ is_message (Message_copy m) o ∧
  is_message (set_param m value) (Some value) ∧
  is_message (mutable_param m) (Some (default [] o)) ∧
  is_message (clear_param m) None ∧ is_message (Message_Clear m) None ∧
  is_message (Message_MergeFrom m from) (match o' with Some _ => o' | None => o end) ∧
  is_message (Message_CopyFrom m from) o' ∧
  is_message (release_param m).2 None ∧ (is_Some o → (release_param m).1 = o) ∧
  (∀ p, is_message (set_allocated_param m p) p) ∧
  is_message (Message_ByteSizeLong m).2 o ∧ Message_InternalSwap m from = (from, m) ∧
  (∀ b m' input', Message_MergePartialFromCodedStream fuel input m = Ok (b, m', input') →
     ∃ o'', is_message m' o'' ∧ (is_Some o → is_Some o'')).
Proof.
  intros Hm Hf. pose proof (Clear_message m o Hm) as Hc.
  pose proof (release_message m o Hm) as [Hr1 Hr2].
  pose proof (MergeFrom_message _ from None o' Hc Hf) as Hcf.
  split; [by apply has_param_message|]. split; [by apply param_message|].
  split; [done|]. split; [by apply copy_message|]. split; [by apply (set_param_message m o)|].
  split; [by apply mutable_param_message|]. split; [by apply (clear_param_message m o)|].
  split; [done|]. split; [by apply MergeFrom_message|]. split; [by destruct o'|].
  split; [done|]. split; [done|]. split; [intros p; by apply (set_allocated_message m o)|].
  split; [by destruct o|]. split; [by destruct m, from|].
  intros b m' input'. by apply merge_message.
Qed.

Lemma byte_size_spec m :
  zlen (param m) ≤ INT_MAX →
  (Message_ByteSizeLong m).1 =
  zlen (Message_InternalSerializeWithCachedSizesToArray m).
Proof.
  intros Hs. unfold Message_ByteSizeLong, Message_InternalSerializeWithCachedSizesToArray.
  unfold has_param. rewrite zlen_app. simpl.
  destruct (md_have_unknown _), (negb _);
    rewrite ?unknown_size_written, ?string_size_written by done; zlia.
Qed.

(** [ByteSizeLong] is the length of the serialization, so the array the
    callers allocate is filled exactly. *)
Theorem byte_size_is_length m :
  zlen (param m) ≤ INT_MAX →
  (Message_ByteSizeLong m).1 =
  zlen (Message_InternalSerializeWithCachedSizesToArray m).
Proof. apply byte_size_spec. Qed.

Lemma message_round_trip_lemma m m0 fuel :
  msg_ok m → known_only m → zlen (param m) ≤ INT_MAX →
  ∃ m' input', Message_MergePartialFromCodedStream (S (S fuel))
      (stream_of (Message_InternalSerializeWithCachedSizesToArray m)) (Message_Clear m0)
    = Ok (true, m', input') ∧ stream_consumed input' = true ∧ known_only m' ∧
    has_param m' = has_param m ∧ (has_param m = true → param m' = param m).
Proof.
  intros Hm Hk Hs. unfold Message_InternalSerializeWithCachedSizesToArray.
  unfold known_only in Hk. rewrite Hk. fold (has_param m).
  destruct read_tag_end as (b & st & Eend & Hend).
  assert (Hstop : ∀ x, merge_field (stream_of []) x = inl (true, x, st)).
  { intros x. unfold merge_field. rewrite Eend. by destruct b. }
  destruct (has_param m) eqn:Hp.
  - destruct (read_written_string (param m) (param (mutable_param (Message_Clear m0))) [] Hs)
      as (st1 & E1 & E2).
    cbn [Message_MergePartialFromCodedStream]. unfold merge_field at 1. rewrite E1.
    change (10 =? 0) with false. change (Z.shiftr 10 3 =? 1) with true.
    change (10 mod 256 =? 10) with true. cbn [negb]. rewrite E2. cbn [negb]. cbv beta iota zeta. rewrite Hstop.
    eexists _, _. split; [done|]. split; [done|].
    unfold mutable_param. split; [|by destruct (field _)].
    unfold known_only. destruct (field _); apply md_clear_known.
  - simpl. rewrite Hstop. eexists _, _. split; [done|].
    split; [done|]. split; [apply md_clear_known|]. done.
Qed.

(** C35. Serializing a message without unknown fields and parsing the bytes
    into any message (which is cleared first) gives the same field: present
    with the same bytes, or absent. The parse succeeds, within two rounds of
    its loop, and consumes the input. *)
Theorem message_round_trip m m0 fuel :
  msg_ok m → known_only m → zlen (param m) ≤ INT_MAX →
  ∃ m' input', Message_MergePartialFromCodedStream (S (S fuel))
      (stream_of (Message_InternalSerializeWithCachedSizesToArray m)) (Message_Clear m0)
    = Ok (true, m', input') ∧ stream_consumed input' = true ∧ known_only m' ∧
    has_param m' = has_param m ∧ (has_param m = true → param m' = param m).
Proof. apply message_round_trip_lemma. Qed.
End proto_theorems.

(** ** Termination of the parsing loop *)

(** The input shrinks: a tag is at least one byte, and reading or skipping a
    field does not give bytes back. *)
Class PbProgress `{PbRuntime} := {
  stream_left : in_stream → nat;
  stream_left_of bs : stream_left (stream_of bs) = length bs;
  read_tag_progress st t b st' : read_tag st = ((t, b), st') → t ≠ 0 →
    (stream_left st' < stream_left st)%nat;
  read_string_progress st cur r st' : read_string st cur = (r, st') →
    (stream_left st' ≤ stream_left st)%nat;
  skip_field_progress st t md r st' : skip_field st t md = (r, st') →
    (stream_left st' ≤ stream_left st)%nat;
}.

Section parse_terminates.
Context `{PbProgress}.

Lemma merge_field_progress input m m' input' :
  merge_field input m = inr (m', input') → (stream_left input' < stream_left input)%nat.
Proof.
  unfold merge_field. destruct (read_tag input) as [[tag in_cutoff] i1] eqn:Et.
  intros E. destruct (Z.eqb_spec tag 0) as [->|Hn].
  { destruct (negb in_cutoff); [done|]. by destruct (Z.shiftr 0 3 =? 1) eqn:E8. }
  pose proof (read_tag_progress _ _ _ _ Et Hn) as Hp.
  assert (Hskip : (let '((ok, md), input) := skip_field i1 tag (internal_metadata m) in
      let m := mkMessage (has_bits m) md (cached_size m) (field m) in
      if negb ok then inl (false, m, input) else inr (m, input)) = inr (m', input') →
    (stream_left input' < stream_left input)%nat).
  { destruct (skip_field i1 tag (internal_metadata m)) as [[ok md] i2] eqn:Es.
    pose proof (skip_field_progress _ _ _ _ _ Es). destruct ok; intros [=]; subst; lia. }
  destruct (negb in_cutoff); [by apply Hskip|].
  destruct (_ =? 1); [|by apply Hskip]. destruct (_ =? 10); [|by apply Hskip].
  destruct (read_string _ _) as [[ok s] i2] eqn:Er.
  pose proof (read_string_progress _ _ _ _ Er). destruct ok; [injection E; intros; subst; lia|done].
Qed.

Lemma merge_terminates_lemma n : ∀ input m, (stream_left input < n)%nat →
  ∃ r, Message_MergePartialFromCodedStream n input m = Ok r.
Proof.
  induction n as [|n IH]; intros input m Hn; [lia|]. simpl.
  destruct (merge_field input m) as [r|[m' input']] eqn:E; [by eexists|].
  pose proof (merge_field_progress _ _ _ _ E). apply IH. lia.
Qed.

(** Fuel beyond what the loop needs does not change its result. *)
Lemma merge_fuel n : ∀ k input m r,
  Message_MergePartialFromCodedStream n input m = Ok r → (n ≤ k)%nat →
  Message_MergePartialFromCodedStream k input m = Ok r.
Proof.
  induction n as [|n IH]; intros k input m r; [done|]. destruct k as [|k]; [lia|]. simpl.
  destruct (merge_field input m) as [?|[m' input']]; [done|]. intros E ?.
  apply IH; [done|lia].
Qed.

(** C37. The parsing loop terminates on every input, well formed or not: one
    more round than there are bytes always gives a result, and more fuel gives
    the same. *)
Theorem merge_terminates bs m k :
  (length bs < k)%nat →
  ∃ r, Message_MergePartialFromCodedStream (S (length bs)) (stream_of bs) m = Ok r ∧
       Message_MergePartialFromCodedStream k (stream_of bs) m = Ok r.
Proof.
  intros Hk. destruct (merge_terminates_lemma (S (length bs)) (stream_of bs) m) as [r E].
  { rewrite stream_left_of. lia. }
  exists r. split; [done|]. apply (merge_fuel (S (length bs))); [done|lia].
Qed.
End parse_terminates.

#[local] Lemma varint_decode_progress fuel : ∀ bs n rest,
  varint_decode fuel bs = Some (n, rest) → (length rest < length bs)%nat.
Proof.
  unfold varint_decode. induction fuel as [|fuel IH]; intros [|b bs] n rest; cbn; try done.
  destruct (b2z b <? 128); [intros [= <- <-]; lia|].
  match goal with |- (_ ← ?x; _) = _ → _ => destruct x as [[n' rest']|] eqn:E end; [|done].
  cbn. intros [= <- <-]. specialize (IH _ _ _ E). lia.
Qed.

#[export] Program Instance simple_progress : @PbProgress simple_runtime := {|
  stream_left := length |}.
Next Obligation. done. Qed.
Next Obligation.
  intros st t b st'. simpl. destruct (varint_decode 5 st) as [[n rest]|] eqn:E.
  - intros [= <- <- <-] _. by apply varint_decode_progress in E.
  - by intros [= <- <- <-].
Qed.
Next Obligation.
  intros st cur r st'. simpl. destruct (varint_decode 5 st) as [[n rest]|] eqn:E; [|by intros [= <- <-]].
  apply varint_decode_progress in E. destruct (n <=? zlen rest); intros [= <- <-]; [|done].
  rewrite length_drop. lia.
Qed.
Next Obligation. intros st t md r st'. simpl. by intros [= <- <-]. Qed.
