(* ===== verification/Channel.v ===== *)
(** * What a connection needs of its socket

    [Connector] uses a [Socket] only through the public methods of that class.
    [Channel] is this interface and [ChannelLaws] the contract behind it: a
    channel is a pair of byte queues (received and not parsed, to be sent), from
    which [fetch_*] removes whole prefixes and to which [write] appends.  The
    theorems on connections are proved against the contract; [Socket] discharges
    it. *)
From S2P Require Import Prelude CMem Kernel SocketInput Log Host.
From stdpp Require Import base numbers list option.
From Stdlib Require Import ZArith Lia Strings.Byte.
Open Scope Z_scope.

Class Channel (W S : Type) := {
  ch_new : S;
  ch_init : Z → Z → S → M W (bool * S);
  ch_destroy : S → M W unit;
  ch_get_socketid : S → Z;
  ch_close_socket : S → M W S;
  ch_exec_read : S → M W (Z * S);
  ch_exec_write : nat → S → M W (Z * S);
  ch_fetch_header : S → list cell → Z → outcome (list cell * S);
  ch_fetch_content : S → list cell → Z → outcome (list cell * S);
  ch_write : S → list cell → Z → outcome S;
}.

Class ChannelLaws (W S : Type) `{Channel W S} := {
  (** The queues a channel holds, and whether [n] more bytes can be queued. *)
  ch_holds : S → list byte → list byte → Prop;
  ch_room : S → Z → bool;
  (** The cells its receive queue has, and where its oldest byte is, on which depends
      how much a read asks for ([feed_stream]). *)
  ch_cells : S → Z;
  ch_head : S → Z;

  ch_init_spec fd epfd w : ∃ s w', ch_init fd epfd ch_new w = Ok ((true, s), w') ∧
    ch_get_socketid s = fd ∧ ch_holds s [] [];
  ch_fetch_header_spec s qi qo dst size : ch_holds s qi qo → 0 ≤ size ≤ zlen dst →
    match queue_take qi size with
    | None => ch_fetch_header s dst size = Ok (dst, s)
    | Some (bs, qi') => ∃ s', ch_holds s' qi' qo ∧
        ch_get_socketid s' = ch_get_socketid s ∧ (∀ n, ch_room s' n = ch_room s n) ∧
        ch_fetch_header s dst size = Ok (splice dst 0 (vals bs), s')
    end;
  ch_fetch_content_spec s qi qo dst size : ch_holds s qi qo → 0 ≤ size ≤ zlen dst →
    match queue_take qi size with
    | None => ch_fetch_content s dst size = Ok (dst, s)
    | Some (bs, qi') => ∃ s', ch_holds s' qi' qo ∧
        ch_get_socketid s' = ch_get_socketid s ∧ (∀ n, ch_room s' n = ch_room s n) ∧
        ch_fetch_content s dst size = Ok (splice dst 0 (vals bs), s')
    end;
  ch_fetch_content_negative s qi qo dst size : ch_holds s qi qo →
    INT_MIN ≤ size < 0 → zlen dst ≤ 2 ^ 33 →
    ch_fetch_content s dst size = Undefined OutOfBounds;
  ch_write_spec s qi qo buff bs : ch_holds s qi qo →
    slice buff 0 (zlen bs) = vals bs → zlen bs ≤ zlen buff → ch_room s (zlen bs) = true →
    ∃ s', ch_write s buff (zlen bs) = Ok s' ∧ ch_holds s' qi (qo ++ bs) ∧
      ch_get_socketid s' = ch_get_socketid s;
  ch_write_full s qi qo buff size : ch_holds s qi qo →
    0 ≤ size ≤ INT_MAX → ch_room s size = false →
    ch_write s buff size = Undefined SignedOverflow;
}.

(** How a channel moves bytes between its queues and the kernel, and which calls
    it makes.  A read does what [feed_stream] does to the receive queue, undefined
    behaviour included (and leaves no queue when the bytes fill the block to its
    end); a write sends the whole send queue, or fails in a [send], with a part of
    it sent, and leaves the channel fit only for closing. *)
Definition keeps_log {W} `{Logger W} (P : W → Prop) : Prop :=
  ∀ ty s, keeps P (log_write ty s).

Class ChannelIo (W S : Type) `{ChannelLaws W S, HostLaws W} := {
  ch_ring_range s qi qo : ch_holds s qi qo → 0 ≤ ch_head s ∧ zlen qi < ch_cells s;
  ch_read_spec s qi qo w : ch_holds s qi qo →
    match feed_stream (ch_get_socketid s) (ch_cells s) (ch_head s) qi w with
    | Ok ((r, qi'), w') => ∃ s', ch_exec_read s w = Ok ((r, s'), w') ∧
        ch_get_socketid s' = ch_get_socketid s ∧ (∀ n, ch_room s' n = ch_room s n) ∧
        match qi' with Some qi' => ch_holds s' qi' qo | None => True end
    | Undefined u => ch_exec_read s w = Undefined u
    | Throws _ | NoFuel => False
    end;
  ch_flush_spec fuel s qi qo w : ch_holds s qi qo → zlen qo ≤ Z.of_nat fuel →
    ∃ r s' w', ch_exec_write fuel s w = Ok ((r, s'), w') ∧
      ch_get_socketid s' = ch_get_socketid s ∧
      ((r = zlen qo ∧ ch_holds s' qi [] ∧
          sent w' (ch_get_socketid s) = sent w (ch_get_socketid s) ++ qo) ∨
       (r = -1 ∧ (∃ bs w1, sys_send (ch_get_socketid s) bs w1 = (None, w')) ∧
          ∃ bs q', qo = bs ++ q' ∧ q' ≠ [] ∧
            sent w' (ch_get_socketid s) = sent w (ch_get_socketid s) ++ bs));
  ch_flush_fuel f f' s w x : ch_exec_write f s w = Ok x → (f ≤ f')%nat →
    ch_exec_write f' s w = Ok x;
  ch_queue_bound s qi qo : ch_holds s qi qo → zlen qo ≤ INT_MAX;
  ch_close_total s w : ∃ s' w', ch_close_socket s w = Ok (s', w') ∧
    ch_get_socketid s' = invalid_id;
  ch_destroy_total s w : ∃ w', ch_destroy s w = Ok (tt, w');

  ch_read_keeps P s : (∀ n w, P w → P (sys_recv (ch_get_socketid s) n w).2) →
    (∀ w, P w → P (sys_fionread (ch_get_socketid s) w).2) → keeps P (ch_exec_read s);
  ch_flush_keeps P fuel s : (∀ bs w, P w → P (sys_send (ch_get_socketid s) bs w).2) →
    keeps P (ch_exec_write fuel s);
  ch_close_keeps P s : (∀ w, P w → P (sys_close (ch_get_socketid s) w)) →
    keeps P (ch_close_socket s);
  ch_destroy_keeps P s : keeps_log P →
    (ch_get_socketid s ≠ invalid_id → ∀ w, P w → P (sys_close (ch_get_socketid s) w)) →
    keeps P (ch_destroy s);
  ch_init_keeps P fd epfd s : keeps_log P →
    (∀ epfd ev w, P w → P (sys_epoll_ctl_add epfd fd ev w).2) →
    keeps P (ch_init fd epfd s);
}.

Lemma LOG_keeps {W} `{Logger W} (P : W → Prop) ty fmt args :
  keeps_log P → keeps P (LOG ty fmt args).
Proof. intros HP. unfold LOG. apply keeps_bind; [apply keeps_lift|]. intros. apply HP. Qed.
Lemma debug_log_keeps {W} `{Logger W} (P : W → Prop) fmt args :
  keeps_log P → keeps P (debug_log fmt args).
Proof. apply LOG_keeps. Qed.
Lemma error_log_keeps {W} `{Logger W} (P : W → Prop) fmt args :
  keeps_log P → keeps P (error_log fmt args).
Proof. apply LOG_keeps. Qed.
#[export] Hint Resolve LOG_keeps debug_log_keeps error_log_keeps : keeps.
