(* ===== verification/Socket.v ===== *)
(** * Sockets: [socket/socket.{h,cpp}] and [socket/udp_socket.{h,cpp}]

    [Socket] owns the descriptor of a TCP connection and its two buffers;
    [UDPSocket] owns the descriptor of the UDP listener and reads one datagram
    at a time.  [Socket_channel] gives [Socket] as an instance of the interface
    connections use, and [Socket_channel_laws] discharges its contract. *)
From S2P Require Import Prelude CMem Kernel Ring SocketInput SocketOutput Log Host Channel.
From stdpp Require Import base numbers list option strings.
From Stdlib Require Import ZArith Lia Strings.Byte.
Open Scope Z_scope.

Record Socket := mkSocket {
  socket_fd : Z;                        (** [socket_fd_] *)
  epoll_fd : Z;                         (** [epoll_fd_] *)
  event_ : option epoll_event;          (** [event_], indeterminate before [init] *)
  socket_input : SocketInput;           (** [socket_input_] *)
  socket_output : SocketOutput;         (** [socket_output_] *)
}.

Definition Socket_new : Socket :=
  mkSocket invalid_id invalid_id None SocketInput_new SocketOutput_new.
Definition set_socket_fd (s : Socket) (fd : Z) : Socket :=
  mkSocket fd (epoll_fd s) (event_ s) (socket_input s) (socket_output s).
Definition set_socket_input (s : Socket) (i : SocketInput) : Socket :=
  mkSocket (socket_fd s) (epoll_fd s) (event_ s) i (socket_output s).
Definition set_socket_output (s : Socket) (o : SocketOutput) : Socket :=
  mkSocket (socket_fd s) (epoll_fd s) (event_ s) (socket_input s) o.

Definition Socket_get_socketid (s : Socket) : Z := socket_fd s.

Definition Socket_fetch (s : Socket) (buff : list cell) (size : Z)
  : outcome (list cell * Socket) :=
  '(buff, i) ← SocketInput_fetch (socket_input s) buff size;
  Ok (buff, set_socket_input s i).
Definition Socket_fetch_header (s : Socket) (header : list cell) (header_size : Z)
  : outcome (list cell * Socket) := Socket_fetch s header header_size.
Definition Socket_fetch_content (s : Socket) (content : list cell) (size : Z)
  : outcome (list cell * Socket) := Socket_fetch s content size.

Definition Socket_write (s : Socket) (buff : list cell) (size : Z) : outcome Socket :=
  '(_, o) ← SocketOutput_write (socket_output s) buff size;
  Ok (set_socket_output s o).

Section socket.
Context {W : Type} `{SocketApi W, EpollApi W, Logger W}.

Definition Socket_close_socket (s : Socket) : M W Socket :=
  if negb (socket_fd s =? invalid_id) then
    _ ← act (sys_close (socket_fd s));
    mret (set_socket_fd s invalid_id)
  else mret s.

(** The destructor. *)
Definition Socket_destroy (s : Socket) : M W unit :=
  _ ← debug_log "destruction called, socket_fd = %d" [AInt (socket_fd s)];
  _ ← Socket_close_socket s;
  mret tt.

Definition Socket_init (fd epfd : Z) (s : Socket) : M W (bool * Socket) :=
  let event := mkEvent (Z.lor (Z.lor (Z.lor EPOLLIN EPOLLOUT) EPOLLHUP) EPOLLERR) fd in
  let s := mkSocket fd epfd (Some event) (socket_input s) (socket_output s) in
  _ ← call (sys_epoll_ctl_add (epoll_fd s) (socket_fd s) event);
  _ ← debug_log "create socket success, socketid = %d" [AInt fd];
  mret (true, s).

Definition Socket_exec_read (s : Socket) : M W (Z * Socket) :=
  '(r, i) ← SocketInput_feed (socket_fd s) (socket_input s);
  mret (r, set_socket_input s i).

Definition Socket_exec_write (fuel : nat) (s : Socket) : M W (Z * Socket) :=
  '(r, o) ← SocketOutput_refresh fuel (socket_fd s) (socket_output s);
  mret (r, set_socket_output s o).

#[export] Instance Socket_channel : Channel W Socket := {|
  ch_new := Socket_new;
  ch_init := Socket_init;
  ch_destroy := Socket_destroy;
  ch_get_socketid := Socket_get_socketid;
  ch_close_socket := Socket_close_socket;
  ch_exec_read := Socket_exec_read;
  ch_exec_write := Socket_exec_write;
  ch_fetch_header := Socket_fetch_header;
  ch_fetch_content := Socket_fetch_content;
  ch_write := Socket_write;
|}.

(** A socket whose buffers hold [qi] and [qo].  The head of the send buffer is
    at 0: this is the only state in which the thread that owns the connection
    keeps it, and then [write] stays in bounds. *)
Definition socket_holds (s : Socket) (qi qo : list byte) : Prop :=
  input_holds (socket_input s) qi ∧ output_holds (socket_output s) qo ∧
  so_head (socket_output s) = 0.
Definition socket_room (s : Socket) (n : Z) : bool :=
  so_grown (socket_output s) n <=? INT_MAX.

Lemma socket_new_holds : socket_holds Socket_new [] [].
Proof. split; [apply input_new_holds|]. by split; [apply output_new_holds|]. Qed.

Lemma socket_fetch_spec (s : Socket) qi qo dst size :
  socket_holds s qi qo → 0 ≤ size ≤ zlen dst →
  match queue_take qi size with
  | None => Socket_fetch s dst size = Ok (dst, s)
  | Some (bs, qi') => ∃ s', socket_holds s' qi' qo ∧
      Socket_get_socketid s' = Socket_get_socketid s ∧
      (∀ n, socket_room s' n = socket_room s n) ∧
      Socket_fetch s dst size = Ok (splice dst 0 (vals bs), s')
  end.
Proof.
  intros (Hi & Ho & Hh) Hs. unfold Socket_fetch.
  pose proof (input_fetch_spec _ _ dst size Hi Hs) as Hf.
  destruct (queue_take qi size) as [[bs qi']|].
  - destruct Hf as (i & Hi' & E). rewrite E. eexists. split; [|split; [|split; [|reflexivity]]]; done.
  - rewrite Hf. by destruct s.
Qed.

End socket.

Section socket_laws.
Context {W : Type} `{SocketApi W, EpollApi W, LoggerTotal W}.

#[export] Program Instance Socket_channel_laws : ChannelLaws W Socket := {|
  ch_holds := socket_holds;
  ch_room := socket_room;
  ch_cells s := si_buffer_len (socket_input s);
  ch_head s := si_head (socket_input s);
|}.
Next Obligation.
  intros fd epfd w. cbn [ch_init Socket_channel ch_new]. unfold Socket_init.
  rewrite M_bind_call. run_log. 
  eexists _, _. split; [reflexivity|]. split; [done|]. apply socket_new_holds.
Qed.
Next Obligation. apply socket_fetch_spec. Qed.
Next Obligation. apply socket_fetch_spec. Qed.
Next Obligation.
  intros s qi qo dst size (Hi & _ & _) Hs Hd. simpl.
  unfold Socket_fetch_content, Socket_fetch.
  by rewrite (input_fetch_negative _ _ dst size Hi Hs Hd).
Qed.
Next Obligation.
  intros s qi qo buff bs (Hi & Ho & Hh) Hb Hl Hroom. simpl. unfold Socket_write.
  apply Z.leb_le in Hroom.
  destruct (output_write_spec _ _ buff bs Ho Hb Hl Hroom) as (o & E & Ho' & Hh').
  { unfold write_in_bounds. rewrite Hh. by rewrite orb_true_r. }
  rewrite E. eexists. split; [done|]. split; [|done]. split; [done|]. split; [done|].
  by apply Hh'.
Qed.
Next Obligation.
  intros s qi qo buff size (Hi & Ho & Hh) Hsz Hroom. apply Z.leb_gt in Hroom.
  simpl. unfold Socket_write. by rewrite (output_write_full _ _ buff size Ho Hsz Hroom).
Qed.
End socket_laws.

Section socket_io.
Context {W : Type} `{HostLaws W}.
Implicit Types (s : Socket) (w : W).

Lemma Socket_read_spec s qi qo w :
  socket_holds s qi qo →
  match feed_stream (socket_fd s) (si_buffer_len (socket_input s)) (si_head (socket_input s)) qi w with
  | Ok ((r, qi'), w') => ∃ s', Socket_exec_read s w = Ok ((r, s'), w') ∧
      socket_fd s' = socket_fd s ∧ (∀ n, socket_room s' n = socket_room s n) ∧
      match qi' with Some qi' => socket_holds s' qi' qo | None => True end
  | Undefined u => Socket_exec_read s w = Undefined u
  | Throws _ | NoFuel => False
  end.
Proof.
  intros (Hi & Ho & Hh). unfold Socket_exec_read.
  pose proof (input_feed_spec (socket_fd s) w _ qi Hi) as Hm.
  destruct (feed_stream _ _ _ _ _) as [[[r [qi'|]] w']| | |]; [..|done|done].
  - destruct Hm as (i & E & Hi'). rewrite (M_bind_ok _ _ _ _ _ E).
    exists (set_socket_input s i). split; [done|]. split; [done|]. split; [done|]. by split.
  - destruct Hm as (i & E & _). rewrite (M_bind_ok _ _ _ _ _ E).
    by exists (set_socket_input s i).
  - by apply M_bind_undefined.
Qed.

Lemma Socket_flush_spec fuel s qi qo w :
  socket_holds s qi qo → zlen qo ≤ Z.of_nat fuel →
  ∃ r s' w', Socket_exec_write fuel s w = Ok ((r, s'), w') ∧ socket_fd s' = socket_fd s ∧
    ((r = zlen qo ∧ socket_holds s' qi [] ∧
        sent w' (socket_fd s) = sent w (socket_fd s) ++ qo) ∨
     (r = -1 ∧ (∃ bs w1, sys_send (socket_fd s) bs w1 = (None, w')) ∧
        ∃ bs q', qo = bs ++ q' ∧ q' ≠ [] ∧
          sent w' (socket_fd s) = sent w (socket_fd s) ++ bs)).
Proof.
  intros (Hi & Ho & Hh) Hf. unfold Socket_exec_write.
  destruct (output_refresh_spec host_progress (socket_fd s) fuel w _ qo Ho Hf)
    as (r & o & w' & E & Hr).
  rewrite (M_bind_ok _ _ _ _ _ E). exists r, (set_socket_output s o), w'.
  split; [done|]. split; [done|].
  destruct Hr as [(-> & ? & ? & ? & ?)|(-> & bs & q' & ? & ? & ? & ?)]; [by left|].
  right. split; [done|]. split; [by apply (refresh_failed_send _ _ _ _ _ _ _ E)|]. by exists bs, q'.
Qed.

#[export] Program Instance Socket_channel_io : ChannelIo W Socket.
Next Obligation.
  intros s qi qo (Hi & _ & _). split; [simpl; si_open; lia|by apply input_queue_bound].
Qed.
Next Obligation. apply Socket_read_spec. Qed.
Next Obligation. apply Socket_flush_spec. Qed.
Next Obligation.
  intros f f' s w [x wx] E Hf. change (Socket_exec_write f s w = Ok (x, wx)) in E.
  change (Socket_exec_write f' s w = Ok (x, wx)). unfold Socket_exec_write in *.
  apply M_bind_inv in E as ([r o] & w1 & E1 & E).
  by rewrite (M_bind_ok _ _ _ _ _ (refresh_fuel _ _ _ _ _ _ E1 Hf)).
Qed.
Next Obligation.
  intros s qi qo (_ & Ho & _). pose proof (so_free_length _ qo Ho) as Hf.
  so_open. unfold so_free in Hf. revert Hf. zcase; so_lia.
Qed.
Next Obligation.
  intros s w. simpl. unfold Socket_close_socket.
  destruct (Z.eqb_spec (socket_fd s) invalid_id) as [E|]; [by exists s, w|].
  by eexists _, _.
Qed.
Next Obligation.
  intros s w. change (ch_destroy s w) with (Socket_destroy s w). unfold Socket_destroy. run_log. unfold Socket_close_socket.
  destruct (socket_fd s =? invalid_id); by eexists.
Qed.
Next Obligation.
  intros P s H1 H2. simpl. unfold Socket_exec_read. pose proof (feed_keeps P (socket_fd s) H1 H2). keep.
Qed.
Next Obligation.
  intros P fuel s H1. simpl. unfold Socket_exec_write. pose proof (refresh_keeps P (socket_fd s) H1). keep.
Qed.
Next Obligation. intros P s H1. simpl. unfold Socket_close_socket. keep. Qed.
Next Obligation.
  intros P s Hl H1. simpl in *. unfold Socket_destroy, Socket_close_socket.
  destruct (Z.eqb_spec (socket_fd s) invalid_id) as [|Hn]; cbn [negb]; [keep|].
  specialize (H1 Hn). keep.
Qed.
Next Obligation. intros P fd epfd s Hl H1. simpl. unfold Socket_init. keep. Qed.
End socket_io.

(** ** [UDPSocket] *)
Definition PACKET_BYTES_SIZE : Z := 4.
Definition PACKET_ID_SIZE : Z := 2.
Definition PACKET_HEADER_SIZE : Z := PACKET_BYTES_SIZE + PACKET_ID_SIZE.

Record UDPSocket := mkUDPSocket {
  udp_socket_fd : Z; udp_epoll_fd : Z; udp_event : option epoll_event }.
Definition UDPSocket_new : UDPSocket := mkUDPSocket invalid_id invalid_id None.

(** [struct UDPPacket], of packet/udp_packet.h. *)
Record UDPPacket := mkUDPPacket {
  up_socket_fd : Z;
  up_in_sock : sockaddr_in;
  up_packet_id : Z;
  up_packet_msg : list byte;
}.

(** [inet_ntoa]: the dotted notation; the address is in network order. *)
Definition inet_ntoa (addr : Z) : list byte :=
  match le_encode 4 addr with
  | [a; b; c; d] =>
      print_int (b2z a) ++ text "." ++ print_int (b2z b) ++ text "." ++
      print_int (b2z c) ++ text "." ++ print_int (b2z d)
  | _ => []
  end.

Section udp_socket.
Context {W : Type} `{SocketApi W, EpollApi W, DatagramApi W, Logger W}.

Definition UDPSocket_close_socket (s : UDPSocket) : M W UDPSocket :=
  if negb (udp_socket_fd s =? invalid_id) then
    _ ← act (sys_close (udp_socket_fd s));
    mret (mkUDPSocket invalid_id (udp_epoll_fd s) (udp_event s))
  else mret s.

(** The destructor. *)
Definition UDPSocket_destroy (s : UDPSocket) : M W unit :=
  _ ← debug_log "destruction called, socket_fd = %d" [AInt (udp_socket_fd s)];
  _ ← UDPSocket_close_socket s;
  mret tt.

Definition UDPSocket_init (fd epfd : Z) (s : UDPSocket) : M W (bool * UDPSocket) :=
  let event := mkEvent (Z.lor (Z.lor EPOLLIN EPOLLHUP) EPOLLERR) fd in
  let s := mkUDPSocket fd epfd (Some event) in
  _ ← call (sys_epoll_ctl_add (udp_epoll_fd s) (udp_socket_fd s) event);
  _ ← debug_log "create socket success, socketid = %d" [AInt fd];
  mret (true, s).

(** The second component is the packet filled through the pointer argument,
    when it is. *)
Definition UDPSocket_exec_read (s : UDPSocket) : M W (Z * option UDPPacket) :=
  let packet := zeros 20480 in
  r ← call (sys_recvfrom (udp_socket_fd s) (zlen packet));
  let received_bytes := match r with Some (bs, _) => zlen bs | None => -1 end in
  match r with
  | Some (bs, in_sock) =>
      if received_bytes <=? 0 then
        _ ← error_log "received header failed, received length = %d" [AInt received_bytes];
        mret (0, None)
      else
        packet ← lift (memcpy packet 0 (vals bs) 0 received_bytes);
        packet_size ← lift (load_le 4 packet 0);
        let packet_size := to_int (htonl packet_size) in
        packet_id ← lift (load_le 2 packet PACKET_BYTES_SIZE);
        let packet_id := htons packet_id in
        let port := ntohs (sin_port in_sock) in
        content ← lift (cstring_at packet PACKET_HEADER_SIZE);
        _ ← debug_log "received packet from %s, %d, packet_id = %d, content = %s"
              [AStr (inet_ntoa (sin_addr in_sock)); AInt port; AInt packet_id; AStr content];
        packet_msg ← lift (cstring_at packet PACKET_HEADER_SIZE);
        mret (received_bytes, Some (mkUDPPacket (udp_socket_fd s) in_sock packet_id packet_msg))
  | None =>
      _ ← error_log "received header failed, received length = %d" [AInt received_bytes];
      mret (0, None)
  end.

Definition UDPSocket_exec_write (s : UDPSocket) : Z := 0.
Definition UDPSocket_get_socketid (s : UDPSocket) : Z := udp_socket_fd s.
End udp_socket.

(** ** Properties of the UDP socket *)
Section udp_theorems.
Context {W : Type} `{SocketApi W, EpollApi W, DatagramApi W, LoggerTotal W}.
Implicit Types (w : W) (s : UDPSocket).

(** The packet a datagram stands for: bytes 4 and 5 are the identifier, most
    significant first (absent bytes read as 0), and the text behind the header
    runs to the first NUL. *)
Definition udp_decode (s : UDPSocket) (from : sockaddr_in) (bs : list byte) : UDPPacket :=
  let padded := bs ++ replicate (Z.to_nat (20480 - zlen bs)) Byte.x00 in
  mkUDPPacket (udp_socket_fd s) from (be_decode (slice padded 4 2)) (cstr (drop 6 bs)).

(** The 20480-byte array holds a terminator behind the header. *)
Definition udp_terminated (bs : list byte) : bool :=
  (zlen bs <? 20480) || bool_decide (Byte.x00 ∈ drop 6 bs).

Lemma udp_block bs n : zlen bs ≤ n →
  splice (zeros n) 0 (slice (vals bs) 0 (zlen bs)) =
  vals (bs ++ replicate (Z.to_nat (n - zlen bs)) Byte.x00).
Proof.
  intros Hl. rewrite slice_0_all by zlia. unfold splice, zeros, fill, vals.
  change (Z.to_nat 0) with 0%nat. rewrite take_0, app_nil_l, Nat.add_0_l.
  rewrite fmap_app, fmap_replicate, length_fmap. f_equal.
  rewrite drop_replicate. f_equal. unfold zlen. lia.
Qed.

Lemma udp_content bs : 0 < zlen bs ≤ 20480 →
  cstring_at (vals (bs ++ replicate (Z.to_nat (20480 - zlen bs)) Byte.x00)) 6 =
  if udp_terminated bs then Ok (cstr (drop 6 bs)) else Undefined OutOfBounds.
Proof.
  intros Hl. set (n := Z.to_nat (20480 - zlen bs)).
  assert (Hn : n = Z.to_nat (20480 - zlen bs)) by done.
  rewrite cstring_at_vals by (rewrite zlen_app, zlen_replicate; lia).
  change (Z.to_nat 6) with 6%nat. rewrite drop_app.
  rewrite drop_replicate, cstr_app_zeros. unfold udp_terminated.
  assert (Hiff : (Byte.x00 ∈ drop 6 bs ++ replicate (n - (6 - length bs)) Byte.x00)
                 ↔ zlen bs < 20480 ∨ Byte.x00 ∈ drop 6 bs).
  { rewrite elem_of_app, elem_of_replicate. unfold zlen in *.
    split; [intros [?|[_ ?]]; [by right|left; lia]|].
    intros [?|?]; [right; split; [done|lia]|by left]. }
  rewrite (bool_decide_ext _ _ Hiff), bool_decide_or.
  replace (bool_decide (zlen bs < 20480)) with (zlen bs <? 20480); [done|].
  case_bool_decide; destruct (Z.ltb_spec (zlen bs) 20480); (done || lia).
Qed.

Lemma udp_read_lemma s w r w1 :
  sys_recvfrom (udp_socket_fd s) 20480 w = (r, w1) →
  match r with
  | None | Some ([], _) => ∃ w2, UDPSocket_exec_read s w = Ok ((0, None), w2)
  | Some (bs, from) =>
      zlen bs ≤ 20480 →
      if udp_terminated bs
      then ∃ w2, UDPSocket_exec_read s w = Ok ((zlen bs, Some (udp_decode s from bs)), w2)
      else UDPSocket_exec_read s w = Undefined OutOfBounds
  end.
Proof.
  intros E. unfold UDPSocket_exec_read. rewrite zlen_zeros by lia.
  rewrite M_bind_call, E. cbn [fst snd].
  destruct r as [[bs from]|]; [|run_log; by eexists].
  destruct (decide (bs = [])) as [->|Hne].
  { change (zlen [] <=? 0) with true. cbv iota.
    run_log; by eexists. }
  assert (0 < zlen bs) by (destruct bs; [done|rewrite zlen_cons; zlia]).
  destruct bs as [|b bs0] eqn:Eb; [done|]. rewrite <- Eb in *. clear Eb. intros Hl.
  zbool. rewrite memcpy_ok by (rewrite ?zlen_zeros, ?zlen_vals; unfold INT_MAX; lia).
  rewrite udp_block by lia. rewrite M_bind_lift.
  pose proof (udp_content bs ltac:(lia)) as Hc.
  set (padded := bs ++ replicate (Z.to_nat (20480 - zlen bs)) Byte.x00) in *.
  assert (Hp : zlen padded = 20480) by (unfold padded; rewrite zlen_app, zlen_replicate; lia).
  rewrite (load_le_vals 4), M_bind_lift by (unfold INT_MAX; lia).
  rewrite (load_le_vals 2), M_bind_lift by (unfold PACKET_BYTES_SIZE, INT_MAX; lia).
  change PACKET_HEADER_SIZE with 6. rewrite Hc.
  destruct (udp_terminated bs); [|done].
  rewrite M_bind_lift. run_log.
  rewrite M_bind_lift. eexists. unfold udp_decode. fold padded.
  rewrite htons_load by (apply zlen_slice; unfold PACKET_BYTES_SIZE; lia). reflexivity.
Qed.

(** Reading a datagram of the UDP listener. An error or an empty datagram
    is logged and fills nothing. Otherwise the call returns the length and the
    packet the datagram stands for, unless the datagram fills the array and
    has no NUL behind its header: then the string is read past its end. *)
Theorem udp_read_decodes s w r w1 :
  sys_recvfrom (udp_socket_fd s) 20480 w = (r, w1) →
  match r with
  | None | Some ([], _) => ∃ w2, UDPSocket_exec_read s w = Ok ((0, None), w2)
  | Some (bs, from) =>
      zlen bs ≤ 20480 →
      if udp_terminated bs
      then ∃ w2, UDPSocket_exec_read s w = Ok ((zlen bs, Some (udp_decode s from bs)), w2)
      else UDPSocket_exec_read s w = Undefined OutOfBounds
  end.
Proof. apply udp_read_lemma. Qed.
End udp_theorems.
