(* ===== verification/Connector.v ===== *)
(** * Connections: [connector/connector.{h,cpp}], [user/user.{h,cpp}],
    [packet/packet_factory.{h,cpp}]

    A [Connector] owns the socket of one TCP connection (through a [shared_ptr],
    null before [create_socket] and after [close_socket]) and a [User], which
    keeps a reference back to it.  [exec_parse] takes one packet out of the
    receive queue (4 bytes of total size, 2 bytes of identifier, both most
    significant byte first, then the message) and hands it to the user, who
    answers through [send_packet].  Everything here uses the socket through the
    interface [Channel]. *)
From S2P Require Import Prelude CMem Kernel SocketInput Log Proto Channel.
From stdpp Require Import base numbers list option strings.
From Stdlib Require Import ZArith Lia Strings.Byte.
Open Scope Z_scope.

Definition PACKET_BYTES_SIZE : Z := 4.
Definition PACKET_ID_SIZE : Z := 2.
Definition PACKET_HEADER_SIZE : Z := PACKET_BYTES_SIZE + PACKET_ID_SIZE.

(** [*p] and [p->], of a pointer that may be null. *)
Definition deref {A} (p : option A) : outcome A :=
  match p with Some a => Ok a | None => Undefined NullDeref end.

(** ** [google::protobuf::Message]

    The library's entry points, which call the virtual methods of the generated
    classes: [ByteSize] (which caches its result in the object),
    [SerializeToArray(p, n)] (the bytes it writes, when it succeeds) and
    [ParseFromArray(p, n)]. *)
Class MessageLib `{PbRuntime} := {
  msg_ByteSize : Packet → Z * Packet;
  msg_SerializeToArray : Packet → Z → option (list byte);
  msg_ParseFromArray : Packet → list byte → bool * Packet;
}.

Class MessageLibLaws `{MessageLib} := {
  msg_ByteSize_spec p :
    msg_ByteSize p = (to_int (Message_ByteSizeLong (packet_message p)).1,
                      with_message p (Message_ByteSizeLong (packet_message p)).2);
  msg_SerializeToArray_spec p :
    msg_SerializeToArray p (Message_ByteSizeLong (packet_message p)).1 =
    Some (Message_InternalSerializeWithCachedSizesToArray (packet_message p));
  msg_ParseFromArray_spec p bs fuel ok m st :
    Message_MergePartialFromCodedStream fuel (stream_of bs) (Message_Clear (packet_message p))
      = Ok (ok, m, st) →
    msg_ParseFromArray p bs =
      (ok && Message_IsInitialized m && stream_consumed st, with_message p m);
  msg_ParseFromArray_type p bs : ∃ m, (msg_ParseFromArray p bs).2 = with_message p m;
}.

(** ** [PacketFactory] *)
Section factory.
Context `{PbRuntime}.

(** [object_funcs] *)
Definition object_funcs (e_id : Z) : option Packet :=
  if e_id =? CS_PING then Some (PCS_Ping Message_new)
  else if e_id =? SC_RET_PING then Some (PSC_RetPing SC_RetPing_new)
  else None.
Definition PacketFactory_create_packet (packet_id : Z) : option Packet :=
  let e_id := packet_id in
  match object_funcs e_id with
  | Some packet => Some packet
  | None => None
  end.
End factory.

(** ** [Connector] and [User] *)
Record Connector {S : Type} := mkConnector { socket_ : option S }.
Arguments Connector : clear implicits.
Arguments mkConnector {_} _.

Section connector.
Context {W S : Type} `{Channel W S, Logger W, MessageLib}.
Implicit Types c : Connector S.

Definition Connector_new : Connector S := mkConnector None.

Definition Connector_get_socketid c : outcome Z :=
  s ← deref (socket_ c); Ok (ch_get_socketid s).

(** The socket that [socket_] pointed to before is destroyed. *)
Definition Connector_create_socket (fd epoll_fd : Z) c : M W (bool * Connector S) :=
  _ ← match socket_ c with Some s => ch_destroy s | None => mret tt end;
  '(ok, s) ← ch_init fd epoll_fd ch_new;
  mret (ok, mkConnector (Some s)).

Definition Connector_close_socket c : M W (Connector S) :=
  s ← lift (deref (socket_ c));
  s ← ch_close_socket s;
  _ ← ch_destroy s;
  mret (mkConnector None).

(** The destructor releases the socket. *)
Definition Connector_destroy c : M W unit :=
  match socket_ c with Some s => ch_destroy s | None => mret tt end.

Definition Connector_exec_read c : M W (Z * Connector S) :=
  s ← lift (deref (socket_ c));
  '(r, s) ← ch_exec_read s;
  mret (r, mkConnector (Some s)).

Definition Connector_exec_write (fuel : nat) c : M W (Z * Connector S) :=
  s ← lift (deref (socket_ c));
  '(r, s) ← ch_exec_write fuel s;
  mret (r, mkConnector (Some s)).

Definition Connector_send_packet (packet_id : Z) (packet : Packet) c
  : outcome (Connector S) :=
  let '(size, packet) := msg_ByteSize packet in
  let packet_size := u32 size in
  let total_packet_size := u32 (packet_size + PACKET_HEADER_SIZE) in
  let packet_size_n := ntohl total_packet_size in
  packet_size_s ← store_le 4 (zeros 64) 0 packet_size_n;
  let packet_id_n := ntohs packet_id in
  packet_id_s ← store_le 2 (zeros 64) 0 packet_id_n;
  buff ← new_array packet_size;
  buff ← memset0 buff packet_size;
  buff ← match msg_SerializeToArray packet (to_int packet_size) with
         | Some bs => memcpy buff 0 (vals bs) 0 (zlen bs)
         | None => Ok buff
         end;
  message ← new_array total_packet_size;
  message ← memset0 message total_packet_size;
  message ← memcpy message 0 packet_size_s 0 PACKET_BYTES_SIZE;
  message ← memcpy message PACKET_BYTES_SIZE packet_id_s 0 PACKET_ID_SIZE;
  message ← memcpy message PACKET_HEADER_SIZE buff 0 packet_size;
  s ← deref (socket_ c);
  s ← ch_write s message (to_int total_packet_size);
  Ok (mkConnector (Some s)).

Definition User_send_packet : Z → Packet → Connector S → outcome (Connector S) :=
  Connector_send_packet.

Definition User_exec_ping (packet : CS_Ping) c : M W (Connector S) :=
  _ ← debug_log "receive packet CS_Ping, param = %s" [AStr (cstr (param packet))];
  let ret_packet := SC_RetPing_new in
  let ret_packet := set_ret_param_cstr ret_packet
    (text "received your message ##new message##" ++ [Byte.x00]) in
  lift (User_send_packet SC_RET_PING (PSC_RetPing ret_packet) c).

Definition User_exec_packet (packet_id : Z) (packet : Packet) c : M W (Connector S) :=
  let e_id := packet_id in
  if e_id =? CS_PING then
    match packet with
    | PCS_Ping m => User_exec_ping m c
    | PSC_RetPing _ => lift (Undefined BadCast)
    end
  else mret c.

Definition Connector_exec_parse c : M W (Connector S) :=
  let packet_header := zeros PACKET_HEADER_SIZE in
  s ← lift (deref (socket_ c));
  '(packet_header, s) ← lift (ch_fetch_header s packet_header PACKET_HEADER_SIZE);
  packet_size ← lift (load_le 4 packet_header 0);
  let packet_size := htonl packet_size in
  packet_id ← lift (load_le 2 packet_header 4);
  let packet_id := htons packet_id in
  let content_size := u32 (packet_size - PACKET_HEADER_SIZE) in
  packet_cont ← lift (new_array content_size);
  '(packet_cont, s) ← lift (ch_fetch_content s packet_cont (to_int content_size));
  let c := mkConnector (Some s) in
  packet ← lift (deref (PacketFactory_create_packet packet_id));
  data ← lift (read_bytes packet_cont 0 (to_int content_size));
  let '(_, packet) := msg_ParseFromArray packet data in
  User_exec_packet packet_id packet c.
End connector.

(** ** Frames *)

(** The bytes of one packet on the wire. *)
Definition frame (id : Z) (payload : list byte) : list byte :=
  be_encode 4 (zlen payload + PACKET_HEADER_SIZE) ++ be_encode 2 id ++ payload.

Definition known_id (id : Z) : bool := (id =? CS_PING) || (id =? SC_RET_PING).

(** What [exec_parse] makes of the receive queue: a packet and the bytes behind
    it, or undefined behaviour, for the reason given. *)
Inductive parsed := Malformed (u : ub) | Frame (id : Z) (payload rest : list byte).
Definition parse_frame (q : list byte) : parsed :=
  if zlen q <? PACKET_HEADER_SIZE then Malformed OutOfBounds
  else
    let id := be_decode (slice q 4 2) in
    let n := to_int (u32 (be_decode (slice q 0 4) - PACKET_HEADER_SIZE)) in
    let rest := drop 6 q in
    if n <? 0 then Malformed OutOfBounds
    else if negb (known_id id) then Malformed NullDeref
    else if zlen rest <? n then Malformed UninitRead
    else Frame id (take (Z.to_nat n) rest) (drop (Z.to_nat n) rest).

Section reply.
Context `{PbRuntime}.
Definition ping_reply : SC_RetPing :=
  set_ret_param SC_RetPing_new (text "received your message ##new message##").
(** The bytes the user answers to a packet with. *)
Definition reply (id : Z) : list byte :=
  if id =? CS_PING
  then frame SC_RET_PING (SC_RetPing_InternalSerializeWithCachedSizesToArray ping_reply)
  else [].
End reply.

Lemma zlen_frame id payload : zlen (frame id payload) = zlen payload + 6.
Proof. unfold frame. rewrite !zlen_app, !zlen_be_encode. lia. Qed.

Lemma u32_small z : 0 ≤ z ≤ INT_MAX → u32 z = z.
Proof. intros. unfold u32, INT_MAX in *. apply Z.mod_small. lia. Qed.
Lemma to_int_range z : INT_MIN ≤ to_int z ≤ INT_MAX.
Proof.
  unfold to_int, INT_MIN, INT_MAX. pose proof (Z.mod_pos_bound z (2 ^ 32) ltac:(lia)). zcase; lia.
Qed.
Lemma u32_range z : 0 ≤ u32 z < 2 ^ 32.
Proof. apply Z.mod_pos_bound. lia. Qed.
Lemma to_int_nonneg z : 0 ≤ z < 2 ^ 32 → 0 ≤ to_int z → to_int z = z.
Proof. intros Hz. unfold to_int. rewrite Z.mod_small by lia. zcase; lia. Qed.

(** The fields of a frame. *)
Lemma frame_fields id payload rest :
  known_id id = true → zlen payload + 6 ≤ INT_MAX →
  let q := frame id payload ++ rest in
  be_decode (slice q 0 4) = zlen payload + 6 ∧ be_decode (slice q 4 2) = id ∧
  drop 6 q = payload ++ rest.
Proof.
  intros Hid Hp. unfold frame. zlen_facts.
  set (h := be_encode 4 _). set (i := be_encode 2 _).
  assert (length h = 4%nat ∧ length i = 2%nat) as [Hh Hi] by (unfold h, i; by rewrite !length_be_encode).
  rewrite <- !app_assoc. cbv zeta. split_and!.
  - unfold slice. change (Z.to_nat 4) with 4%nat. change (Z.to_nat 0) with 0%nat.
    rewrite drop_0, <- Hh, take_app_length. unfold h. rewrite be_decode_encode.
    unfold PACKET_HEADER_SIZE, PACKET_BYTES_SIZE, PACKET_ID_SIZE, INT_MAX in *.
    rewrite Z.mod_small by lia. lia.
  - unfold slice. change (Z.to_nat 4) with 4%nat. rewrite <- Hh, drop_app_length.
    change (Z.to_nat 2) with 2%nat. rewrite <- Hi, take_app_length. unfold i.
    rewrite be_decode_encode. apply Z.mod_small.
    unfold known_id, CS_PING, SC_RET_PING in Hid. lia.
  - rewrite app_assoc. apply drop_app_length'. rewrite length_app. lia.
Qed.

(** A frame is parsed back, whatever follows it. *)
Lemma parse_frame_frame id payload rest :
  known_id id = true → zlen payload + 6 ≤ INT_MAX →
  parse_frame (frame id payload ++ rest) = Frame id payload rest.
Proof.
  intros Hid Hp. zlen_facts. unfold parse_frame.
  destruct (frame_fields id payload rest Hid Hp) as (-> & -> & ->). rewrite Hid.
  change PACKET_HEADER_SIZE with 6. replace (zlen payload + 6 - 6) with (zlen payload) by lia.
  rewrite u32_small, to_int_small by lia. rewrite !zlen_app, zlen_frame. zbool. cbn [negb].
  unfold zlen. by rewrite Nat2Z.id, take_app_length, drop_app_length.
Qed.

(** A frame of which only the first [n] bytes are there, header included. *)
Lemma parse_short_frame n id payload rest :
  known_id id = true → zlen payload + 6 ≤ INT_MAX → (6 ≤ n)%nat →
  Z.of_nat n < zlen payload + 6 →
  parse_frame (take n (frame id payload ++ rest)) = Malformed UninitRead.
Proof.
  intros Hid Hp Hn Hs. zlen_facts.
  destruct (frame_fields id payload rest Hid Hp) as (E1 & E2 & E3).
  set (q := frame id payload ++ rest) in *.
  assert (Hq : Z.of_nat n < zlen q) by (unfold q; rewrite zlen_app, zlen_frame; zlen_facts; lia).
  assert (Hsl : ∀ off k, 0 ≤ off → 0 ≤ k → off + k ≤ 6 → slice (take n q) off k = slice q off k).
  { intros off k ???. unfold slice. rewrite skipn_firstn_comm, take_take. f_equal. lia. }
  unfold parse_frame. rewrite !Hsl, E1, E2, Hid by lia.
  change PACKET_HEADER_SIZE with 6. replace (zlen payload + 6 - 6) with (zlen payload) by lia.
  rewrite u32_small, to_int_small by lia.
  assert (zlen (take n q) = Z.of_nat n) as -> by (unfold zlen in *; rewrite length_take; lia).
  assert (zlen (drop 6 (take n q)) = Z.of_nat n - 6) as ->
    by (unfold zlen in *; rewrite length_drop, length_take; lia).
  zbool. done.
Qed.

(** ** Sending *)
Section send.
Context {W S : Type} `{ChannelLaws W S, Logger W, MessageLibLaws, !PbLaws}.
Implicit Types (c : Connector S) (p : Packet).

Definition packet_bytes p : list byte :=
  Message_InternalSerializeWithCachedSizesToArray (packet_message p).

(** A message built in a zeroed block by three copies. *)
Lemma message_block n (a b d : list cell) :
  n = zlen a + zlen b + zlen d →
  splice (splice (splice (zeros n) 0 a) (zlen a) b) (zlen a + zlen b) d = a ++ b ++ d.
Proof.
  intros Hn. zlen_facts. assert (Hz : zlen (zeros n) = n) by (apply zlen_zeros; lia).
  pose proof (splice_splice_seq (zeros n) 0 a b ltac:(lia) ltac:(lia)) as E1.
  pose proof (splice_splice_seq (zeros n) 0 (a ++ b) d ltac:(lia)
                ltac:(rewrite zlen_app; lia)) as E2.
  rewrite Z.add_0_l in E1, E2. rewrite zlen_app in E2. rewrite E1, E2, <- app_assoc.
  apply splice_0_all. rewrite !zlen_app. lia.
Qed.

(** An integer stored at the start of a 64-byte scratch array. *)
Lemma store_scratch n z : Z.of_nat n ≤ 64 →
  ∃ l, store_le n (zeros 64) 0 z = Ok l ∧ zlen l = 64 ∧
       slice l 0 (Z.of_nat n) = vals (le_encode n z).
Proof.
  intros Hn. unfold store_le.
  rewrite memcpy_ok by (rewrite ?zlen_zeros, ?zlen_vals, ?zlen_le_encode by lia;
                        unfold INT_MAX; lia).
  rewrite slice_0_all by (by rewrite zlen_vals, zlen_le_encode).
  eexists. split; [done|].
  split; [rewrite zlen_splice; rewrite ?zlen_zeros, ?zlen_vals, ?zlen_le_encode by lia; lia|].
  rewrite (slice_splice_end _ 0 _ 0)
    by (rewrite ?zlen_zeros, ?zlen_vals, ?zlen_le_encode by lia; lia).
  by rewrite slice_nil by lia.
Qed.

Lemma clear_block n : 0 ≤ n ≤ INT_MAX → memset0 (fill n None) n = Ok (zeros n).
Proof.
  intros. unfold memset0. rewrite size_t_nonneg by lia. rewrite zlen_fill by lia.
  zbool. f_equal. apply splice_0_all. rewrite zlen_zeros, zlen_fill; lia.
Qed.
Lemma byte_size_again m :
  (Message_ByteSizeLong (Message_ByteSizeLong m).2).1 = (Message_ByteSizeLong m).1 ∧
  Message_InternalSerializeWithCachedSizesToArray (Message_ByteSizeLong m).2 =
  Message_InternalSerializeWithCachedSizesToArray m.
Proof. done. Qed.

Lemma packet_message_with p m : packet_message (with_message p m) = m.
Proof. by destruct p. Qed.

(** Everything [send_packet] does before the final write: the block it passes
    is the frame, completely written. *)
Lemma send_packet_writes s id p :
  zlen (param (packet_message p)) ≤ INT_MAX → zlen (packet_bytes p) + 6 ≤ INT_MAX →
  Connector_send_packet id p (mkConnector (Some s)) =
  s' ← ch_write s (vals (frame id (packet_bytes p))) (zlen (frame id (packet_bytes p)));
  Ok (mkConnector (Some s')).
Proof.
  intros Hp Hn. rewrite zlen_frame. set (n := zlen (packet_bytes p)) in *.
  pose proof (zlen_nonneg (packet_bytes p)) as Hn0. fold n in Hn0.
  pose proof (byte_size_spec (packet_message p) Hp) as Hsize.
  fold (packet_bytes p) in Hsize. fold n in Hsize.
  unfold Connector_send_packet. rewrite msg_ByteSize_spec, Hsize.
  rewrite (to_int_small n) by lia. rewrite (u32_small n) by lia.
  change PACKET_HEADER_SIZE with 6. change PACKET_BYTES_SIZE with 4. change PACKET_ID_SIZE with 2.
  rewrite (u32_small (n + 6)), !to_int_small by lia.
  destruct (store_scratch 4 (ntohl (n + 6)) ltac:(lia)) as (l4 & E4 & L4 & S4).
  destruct (store_scratch 2 (ntohs id) ltac:(lia)) as (l2 & E2 & L2 & S2).
  rewrite E4. cbn [mbind outcome_bind]. rewrite E2. cbn [mbind outcome_bind].
  rewrite !new_array_ok by lia. cbn [mbind outcome_bind].
  rewrite !clear_block by lia. cbn [mbind outcome_bind].
  destruct (byte_size_again (packet_message p)) as [B1 B2].
  pose proof (msg_SerializeToArray_spec
    (with_message p (Message_ByteSizeLong (packet_message p)).2)) as Hser.
  rewrite packet_message_with, B1, B2, Hsize in Hser. rewrite Hser.
  fold (packet_bytes p). unfold INT_MAX in *.
  rewrite (memcpy_ok (zeros n))
    by (rewrite ?zlen_zeros, ?zlen_vals by lia; unfold INT_MAX; lia).
  rewrite slice_0_all by (by rewrite zlen_vals).
  rewrite splice_0_all by (rewrite zlen_zeros, zlen_vals by lia; done).
  cbn [mbind outcome_bind].
  rewrite memcpy_ok by (rewrite ?zlen_zeros by lia; unfold INT_MAX; lia).
  change 4 with (Z.of_nat 4) at 2. rewrite S4, store_ntohl. cbn [mbind outcome_bind].
  assert (Z4 : zlen (vals (be_encode 4 (n + 6))) = 4) by (by rewrite zlen_vals, zlen_be_encode).
  assert (Z2 : zlen (vals (be_encode 2 id)) = 2) by (by rewrite zlen_vals, zlen_be_encode).
  rewrite memcpy_ok by (rewrite ?zlen_splice, ?zlen_zeros by (rewrite ?zlen_zeros; lia);
                        unfold INT_MAX; lia).
  change 2 with (Z.of_nat 2) at 1. rewrite S2, store_ntohs. cbn [mbind outcome_bind].
  rewrite memcpy_ok by (rewrite ?zlen_vals; rewrite ?zlen_splice, ?zlen_zeros;
                        rewrite ?zlen_splice, ?zlen_zeros; rewrite ?zlen_zeros;
                        unfold INT_MAX; lia).
  rewrite (slice_0_all (vals (packet_bytes p))) by (by rewrite zlen_vals).
  pose proof (message_block (n + 6) (vals (be_encode 4 (n + 6))) (vals (be_encode 2 id))
    (vals (packet_bytes p)) ltac:(rewrite Z4, Z2, zlen_vals; lia)) as Hb.
  rewrite Z4, Z2 in Hb. change (4 + 2) with 6 in Hb. rewrite Hb.
  rewrite <- !vals_app. fold (frame id (packet_bytes p)). cbn [mbind outcome_bind deref socket_].
  reflexivity.
Qed.

Lemma send_packet_spec s qi qo id p :
  ch_holds s qi qo → zlen (param (packet_message p)) ≤ INT_MAX →
  zlen (packet_bytes p) + 6 ≤ INT_MAX →
  if ch_room s (zlen (frame id (packet_bytes p))) then
    ∃ s', Connector_send_packet id p (mkConnector (Some s)) = Ok (mkConnector (Some s')) ∧
      ch_holds s' qi (qo ++ frame id (packet_bytes p)) ∧ ch_get_socketid s' = ch_get_socketid s
  else Connector_send_packet id p (mkConnector (Some s)) = Undefined SignedOverflow.
Proof.
  intros Hs Hp Hn. rewrite send_packet_writes by done.
  pose proof (zlen_frame id (packet_bytes p)) as Hf. zlen_facts.
  destruct (ch_room s _) eqn:Hroom.
  - destruct (ch_write_spec s qi qo (vals (frame id (packet_bytes p))) (frame id (packet_bytes p)))
      as (s' & -> & Hs' & Hid); [done|apply slice_0_all; by rewrite zlen_vals
                                |by rewrite zlen_vals|done|]. by eexists.
  - by rewrite (ch_write_full s qi qo) by (done || lia).
Qed.
End send.

(** ** Receiving *)
Section parse.
Context {W S : Type} `{ChannelLaws W S, LoggerTotal W, MessageLibLaws, !PbLaws}.

Lemma packet_bytes_ping_reply :
  zlen (packet_bytes (PSC_RetPing ping_reply)) ≤ 100.
Proof.
  assert (Hl : zlen (text "received your message ##new message##") = 37) by done.
  set (t := text "received your message ##new message##") in *.
  unfold packet_bytes, Message_InternalSerializeWithCachedSizesToArray.
  assert (E : md_have_unknown (internal_metadata (packet_message (PSC_RetPing ping_reply))) = false)
    by apply md_null_known.
  rewrite E, app_nil_r.
  change (negb _) with true. cbv iota. change (param _) with t.
  rewrite string_size_written by (unfold INT_MAX; lia).
  pose proof (string_size_bound t ltac:(unfold INT_MAX; lia)). lia.
Qed.

Lemma slice_take_6 (q : list byte) off n :
  0 ≤ off → 0 ≤ n → off + n ≤ 6 → slice (take 6 q) off n = slice q off n.
Proof. intros. unfold slice. rewrite skipn_firstn_comm, take_take. f_equal. lia. Qed.

(** The send buffer can take the answer to a packet. *)
Definition reply_fits (s : S) (id : Z) : bool :=
  negb (id =? CS_PING) || ch_room s (zlen (reply id)).

(** The user answers a ping, and nothing else; a packet the factory created
    for an identifier has the type the user casts it to. *)
Lemma User_exec_packet_spec s qi qo id p0 p w :
  ch_holds s qi qo → PacketFactory_create_packet id = Some p0 → (∃ m, p = with_message p0 m) →
  if reply_fits s id then
    ∃ s' w', User_exec_packet id p (mkConnector (Some s)) w = Ok (mkConnector (Some s'), w') ∧
      ch_holds s' qi (qo ++ reply id) ∧ ch_get_socketid s' = ch_get_socketid s
  else User_exec_packet id p (mkConnector (Some s)) w = Undefined SignedOverflow.
Proof.
  intros Hs Hp0 [m ->]. unfold PacketFactory_create_packet, object_funcs in Hp0.
  unfold User_exec_packet, reply_fits, reply. destruct (id =? CS_PING).
  - injection Hp0 as <-. cbn [with_message negb orb]. unfold User_exec_ping. run_log.
    pose proof packet_bytes_ping_reply as Hb.
    pose proof (send_packet_spec s qi qo SC_RET_PING (PSC_RetPing ping_reply) Hs
      ltac:(done) ltac:(unfold INT_MAX; lia)) as Hsend.
    unfold User_send_packet.
    change (set_ret_param_cstr _ _) with ping_reply.
    change (SC_RetPing_InternalSerializeWithCachedSizesToArray ping_reply)
      with (packet_bytes (PSC_RetPing ping_reply)).
    destruct (ch_room s _); [destruct Hsend as (s' & E & Hs' & Hid)|rename Hsend into E];
      rewrite E; [|done]. by eexists _, _.
  - rewrite app_nil_r. destruct (id =? SC_RET_PING); [|done]. injection Hp0 as <-.
    eexists _, _. by split.
Qed.

(** The outcome once the header was read. *)
Lemma exec_parse_header s qi qo :
  ch_holds s qi qo →
  ∃ s' hdr, ch_fetch_header s (zeros PACKET_HEADER_SIZE) PACKET_HEADER_SIZE = Ok (vals hdr, s') ∧
    zlen hdr = 6 ∧
    if zlen qi <? 6 then hdr = replicate 6 Byte.x00 ∧ ch_holds s' qi qo
    else hdr = take 6 qi ∧ ch_holds s' (drop 6 qi) qo ∧
         ch_get_socketid s' = ch_get_socketid s ∧ (∀ n, ch_room s' n = ch_room s n).
Proof.
  intros Hs. change PACKET_HEADER_SIZE with 6.
  assert (Hz : zlen (zeros 6) = 6) by done.
  pose proof (ch_fetch_header_spec s qi qo (zeros 6) 6 Hs ltac:(lia)) as Hf.
  unfold queue_take in Hf. change (6 =? 0) with false in Hf. cbn [orb] in Hf.
  destruct (Z.ltb_spec (zlen qi) 6).
  - rewrite Hf. exists s, (replicate 6 Byte.x00). done.
  - destruct Hf as (s' & Hs' & Hfd & Hr & E). change (Z.to_nat 6) with 6%nat in *.
    assert (Ht : zlen (take 6 qi) = 6) by (unfold zlen in *; rewrite length_take; lia).
    exists s', (take 6 qi). rewrite E, splice_0_all by (by rewrite zlen_vals). done.
Qed.
(** The outcome from the fetch of the content on. *)
Definition exec_content (packet_id content_size : Z) (s : S) : M W (Connector S) :=
  packet_cont ← lift (new_array content_size);
  '(packet_cont, s) ← lift (ch_fetch_content s packet_cont (to_int content_size));
  let c := mkConnector (Some s) in
  packet ← lift (deref (PacketFactory_create_packet packet_id));
  data ← lift (read_bytes packet_cont 0 (to_int content_size));
  let '(_, packet) := msg_ParseFromArray packet data in
  User_exec_packet packet_id packet c.

Lemma exec_content_negative id n s qi qo w :
  ch_holds s qi qo → 0 ≤ n < 2 ^ 32 → to_int n < 0 →
  exec_content id n s w = Undefined OutOfBounds.
Proof.
  intros Hs Hn Hneg. unfold exec_content. rewrite new_array_ok, M_bind_lift by lia.
  rewrite (ch_fetch_content_negative s qi qo); [done|done| |rewrite zlen_fill; lia].
  pose proof (to_int_range n). lia.
Qed.

Lemma exec_content_unknown id n s qi qo w :
  ch_holds s qi qo → 0 ≤ n ≤ INT_MAX → known_id id = false →
  exec_content id n s w = Undefined NullDeref.
Proof.
  intros Hs Hn Hid. unfold exec_content. rewrite new_array_ok, M_bind_lift by lia.
  rewrite to_int_small by done.
  pose proof (ch_fetch_content_spec s qi qo (fill n None) n Hs ltac:(rewrite zlen_fill; lia)) as Hf.
  unfold PacketFactory_create_packet, object_funcs. unfold known_id in Hid.
  destruct (id =? CS_PING), (id =? SC_RET_PING); try done.
  destruct (queue_take qi n) as [[bs qi']|]; [destruct Hf as (s' & _ & _ & _ & Hf)|]; by rewrite Hf.
Qed.

Lemma exec_content_short id n s qi qo w :
  ch_holds s qi qo → 0 ≤ n ≤ INT_MAX → known_id id = true → zlen qi < n →
  exec_content id n s w = Undefined UninitRead.
Proof.
  intros Hs Hn Hid Hl. unfold exec_content. rewrite new_array_ok, M_bind_lift by lia.
  rewrite to_int_small by done.
  pose proof (ch_fetch_content_spec s qi qo (fill n None) n Hs ltac:(rewrite zlen_fill; lia)) as Hf.
  unfold queue_take in Hf. rewrite (proj2 (Z.ltb_lt (zlen qi) n)), orb_true_r in Hf by done.
  rewrite Hf, M_bind_lift.
  assert (∃ p, PacketFactory_create_packet id = Some p) as [p ->].
  { unfold PacketFactory_create_packet, object_funcs. unfold known_id in Hid.
    destruct (id =? CS_PING), (id =? SC_RET_PING); naive_solver. }
  unfold read_bytes. rewrite size_t_nonneg, zlen_fill by lia. zbool.
  rewrite slice_0_all by (by rewrite zlen_fill by lia).
  assert (∃ k, Z.to_nat n = Datatypes.S k) as [k Hk]
    by (exists (Nat.pred (Z.to_nat n)); zlen_facts; lia).
  unfold fill. rewrite Hk. done.
Qed.

Lemma exec_content_whole id n s qi qo w :
  ch_holds s qi qo → 0 ≤ n ≤ INT_MAX → known_id id = true → n ≤ zlen qi →
  if reply_fits s id then
    ∃ s' w', exec_content id n s w = Ok (mkConnector (Some s'), w') ∧
      ch_holds s' (drop (Z.to_nat n) qi) (qo ++ reply id) ∧
      ch_get_socketid s' = ch_get_socketid s
  else exec_content id n s w = Undefined SignedOverflow.
Proof.
  intros Hs Hn Hid Hl. unfold exec_content. rewrite new_array_ok, M_bind_lift by lia.
  rewrite to_int_small by done.
  assert (∃ p, PacketFactory_create_packet id = Some p) as [p Hp].
  { unfold PacketFactory_create_packet, object_funcs. unfold known_id in Hid.
    destruct (id =? CS_PING), (id =? SC_RET_PING); naive_solver. }
  assert (∃ s' bs, ch_fetch_content s (fill n None) n = Ok (vals bs, s') ∧ zlen bs = n ∧
    ch_holds s' (drop (Z.to_nat n) qi) qo ∧ ch_get_socketid s' = ch_get_socketid s ∧
    (∀ k, ch_room s' k = ch_room s k)) as (s' & bs & E & Hbs & Hs' & Hfd & Hr).
  { pose proof (ch_fetch_content_spec s qi qo (fill n None) n Hs ltac:(rewrite zlen_fill; lia)) as Hf.
    unfold queue_take in Hf. rewrite (proj2 (Z.ltb_ge (zlen qi) n)), orb_false_r in Hf by done.
    destruct (Z.eqb_spec n 0) as [->|]; [exists s, []; by rewrite Hf|].
    destruct Hf as (s' & Hs' & Hfd & Hr & E).
    assert (Ht : zlen (take (Z.to_nat n) qi) = n) by (unfold zlen in *; rewrite length_take; lia).
    exists s', (take (Z.to_nat n) qi).
    by rewrite E, splice_0_all by (by rewrite zlen_vals, zlen_fill by lia). }
  rewrite E, M_bind_lift, Hp. cbn [deref]. rewrite M_bind_lift.
  rewrite read_bytes_vals, M_bind_lift by lia.
  destruct (msg_ParseFromArray_type p (slice bs 0 n)) as [m Hm].
  destruct (msg_ParseFromArray p (slice bs 0 n)) as [ok p'] eqn:Ep.
  pose proof (User_exec_packet_spec s' _ qo id p p' w Hs' Hp ltac:(by exists m)) as Hu.
  unfold reply_fits in *. rewrite Hr, Hfd in Hu. done.
Qed.

Lemma exec_parse_split s s' hdr w :
  ch_fetch_header s (zeros PACKET_HEADER_SIZE) PACKET_HEADER_SIZE = Ok (vals hdr, s') →
  zlen hdr = 6 →
  Connector_exec_parse (mkConnector (Some s)) w =
  exec_content (be_decode (slice hdr 4 2))
    (u32 (be_decode (slice hdr 0 4) - PACKET_HEADER_SIZE)) s' w.
Proof.
  intros E Hl. unfold Connector_exec_parse. cbn [socket_ deref].
  rewrite M_bind_lift, E, M_bind_lift.
  rewrite (load_le_vals 4), M_bind_lift by (unfold INT_MAX; lia).
  rewrite (load_le_vals 2), M_bind_lift by (unfold INT_MAX; lia).
  rewrite htonl_load, htons_load by (apply zlen_slice; lia). done.
Qed.

Lemma exec_parse_spec s qi qo w :
  ch_holds s qi qo →
  match parse_frame qi with
  | Malformed u => Connector_exec_parse (mkConnector (Some s)) w = Undefined u
  | Frame id payload rest =>
      if reply_fits s id then
        ∃ s' w', Connector_exec_parse (mkConnector (Some s)) w = Ok (mkConnector (Some s'), w') ∧
          ch_holds s' rest (qo ++ reply id) ∧ ch_get_socketid s' = ch_get_socketid s
      else Connector_exec_parse (mkConnector (Some s)) w = Undefined SignedOverflow
  end.
Proof.
  intros Hs. destruct (exec_parse_header s qi qo Hs) as (s1 & hdr & E & Hl & Hcase).
  rewrite (exec_parse_split _ _ _ _ E Hl). unfold parse_frame.
  change (zlen qi <? PACKET_HEADER_SIZE) with (zlen qi <? 6).
  destruct (zlen qi <? 6) eqn:Hq.
  - destruct Hcase as [-> Hs1]. eapply exec_content_negative; [exact Hs1|apply u32_range|done].
  - destruct Hcase as (-> & Hs1 & Hfd & Hr). rewrite !slice_take_6 by lia.
    pose proof (u32_range (be_decode (slice qi 0 4) - PACKET_HEADER_SIZE)) as Hu.
    set (n := u32 (be_decode (slice qi 0 4) - PACKET_HEADER_SIZE)) in *. cbv zeta.
    destruct (Z.ltb_spec (to_int n) 0) as [Hneg|Hpos].
    { eapply exec_content_negative; [exact Hs1|done|done]. }
    pose proof (to_int_nonneg n Hu Hpos) as En. pose proof (to_int_range n) as Hrange.
    rewrite En in *. destruct (known_id (be_decode (slice qi 4 2))) eqn:Hid; cbn [negb].
    + destruct (Z.ltb_spec (zlen (drop 6 qi)) n).
      * eapply exec_content_short; [exact Hs1|lia|done|done].
      * pose proof (exec_content_whole (be_decode (slice qi 4 2)) n s1 _ qo w Hs1
          ltac:(lia) Hid ltac:(lia)) as Hwhole.
        unfold reply_fits in *. rewrite Hr, Hfd in Hwhole. exact Hwhole.
    + eapply exec_content_unknown; [exact Hs1|lia|done].
Qed.
End parse.

(** ** A concrete message library, over the concrete runtime *)
#[export] Instance simple_lib : @MessageLib simple_runtime := {|
  msg_ByteSize p :=
    let '(n, m) := Message_ByteSizeLong (packet_message p) in (to_int n, with_message p m);
  msg_SerializeToArray p n :=
    if (Message_ByteSizeLong (packet_message p)).1 <=? n
    then Some (Message_InternalSerializeWithCachedSizesToArray (packet_message p)) else None;
  msg_ParseFromArray p bs :=
    match Message_MergePartialFromCodedStream (S (length bs)) (stream_of bs)
            (Message_Clear (packet_message p)) with
    | Ok (ok, m, st) => (ok && Message_IsInitialized m && stream_consumed st, with_message p m)
    | _ => (false, p)
    end;
|}.

#[export] Program Instance simple_lib_laws : @MessageLibLaws simple_runtime simple_lib.
Next Obligation. done. Qed.
Next Obligation. intros p. cbn [msg_SerializeToArray simple_lib]. by rewrite Z.leb_refl. Qed.
Next Obligation.
  intros p bs fuel ok m st E. cbn [msg_ParseFromArray simple_lib].
  destruct (merge_terminates_lemma (S (length bs)) (stream_of bs)
    (Message_Clear (packet_message p))) as [[[ok' m'] st'] E']; [simpl; lia|].
  pose proof (merge_fuel _ (fuel + S (length bs)) _ _ _ E ltac:(lia)) as E1.
  pose proof (merge_fuel _ (fuel + S (length bs)) _ _ _ E' ltac:(lia)) as E2.
  rewrite E' . rewrite E2 in E1. by injection E1 as -> -> ->.
Qed.
Next Obligation.
  intros p bs. cbn [msg_ParseFromArray simple_lib].
  destruct (Message_MergePartialFromCodedStream _ _ _) as [[[ok m] st]| | |]; cbn [snd];
    (by eexists) || (exists (packet_message p); by destruct p).
Qed.

(** ** Properties *)
Section connector_theorems.
Context {W S : Type} `{ChannelLaws W S, LoggerTotal W, MessageLibLaws, !PbLaws}.

(** C19. [send_packet] appends exactly one frame to the send queue: the total
    size on 4 bytes and the identifier on 2, most significant byte first, and
    the serialized message; the receive queue is untouched.  Every copy stays
    within the scratch arrays and the blocks it allocates. *)
Theorem send_packet_appends_frame s qi qo id p :
  ch_holds s qi qo → zlen (param (packet_message p)) ≤ INT_MAX →
  zlen (packet_bytes p) + 6 ≤ INT_MAX →
  if ch_room s (zlen (frame id (packet_bytes p))) then
    ∃ s', Connector_send_packet id p (mkConnector (Some s)) = Ok (mkConnector (Some s')) ∧
      ch_holds s' qi (qo ++ frame id (packet_bytes p)) ∧ ch_get_socketid s' = ch_get_socketid s
  else Connector_send_packet id p (mkConnector (Some s)) = Undefined SignedOverflow.
Proof. apply send_packet_spec. Qed.

(** C18. [exec_parse] refines the abstract reader of frames, on every content
    of the receive queue.  A queue that starts with a whole frame of a known
    identifier loses exactly that frame, whatever follows it (a second frame
    stays there), and the reply of the user (a frame for a ping, nothing for
    another identifier) is appended to the send queue (when that has no room for it
    the size of its block overflows, which is undefined).  Anything else is undefined behaviour: fewer than 6 bytes, or a size below 6 or beyond
    [INT_MAX] (a negative size reaches [memcpy]); an identifier the factory
    does not know (null pointer); a frame of which only a part was received
    (the uninitialised content is parsed). *)
Theorem exec_parse_refines_frames s qi qo w :
  ch_holds s qi qo →
  match parse_frame qi with
  | Malformed u => Connector_exec_parse (mkConnector (Some s)) w = Undefined u
  | Frame id payload rest =>
      if reply_fits s id then
        ∃ s' w', Connector_exec_parse (mkConnector (Some s)) w = Ok (mkConnector (Some s'), w') ∧
          ch_holds s' rest (qo ++ reply id) ∧ ch_get_socketid s' = ch_get_socketid s
      else Connector_exec_parse (mkConnector (Some s)) w = Undefined SignedOverflow
  end.
Proof. apply exec_parse_spec. Qed.

(** C30. Round trip over two connections: a client sends a ping on a fresh
    connection, the server receives the bytes of its send queue (and whatever
    follows them) and parses once; its send queue then holds one frame, which
    is read back as an [SC_RetPing] frame whose payload parses, completely, to
    the text of the reply. *)
Theorem ping_round_trip sc ss p rest w :
  ch_holds sc [] [] → ch_holds ss (frame CS_PING (packet_bytes (PCS_Ping p)) ++ rest) [] →
  zlen (param p) ≤ INT_MAX - 16 → known_only p →
  ch_room sc (zlen (frame CS_PING (packet_bytes (PCS_Ping p)))) = true →
  reply_fits ss CS_PING = true →
  ∃ sc' ss' w' payload m,
    Connector_send_packet CS_PING (PCS_Ping p) (mkConnector (Some sc))
      = Ok (mkConnector (Some sc')) ∧
    ch_holds sc' [] (frame CS_PING (packet_bytes (PCS_Ping p))) ∧
    Connector_exec_parse (mkConnector (Some ss)) w = Ok (mkConnector (Some ss'), w') ∧
    ch_holds ss' rest (frame SC_RET_PING payload) ∧
    parse_frame (frame SC_RET_PING payload) = Frame SC_RET_PING payload [] ∧
    msg_ParseFromArray (PSC_RetPing SC_RetPing_new) payload = (true, PSC_RetPing m) ∧
    ret_param m = text "received your message ##new message##".
Proof.
  intros Hc Hs Hp Hk Hrc Hrs. unfold INT_MAX in *.
  assert (Hn : zlen (packet_bytes (PCS_Ping p)) + 6 ≤ 2147483647).
  { unfold packet_bytes, Message_InternalSerializeWithCachedSizesToArray, known_only in *.
    cbn [packet_message]. rewrite Hk, app_nil_r.
    pose proof (string_size_bound (param p) ltac:(unfold INT_MAX; lia)).
    destruct (negb _); [|rewrite zlen_nil; lia].
    rewrite string_size_written by (unfold INT_MAX; lia). lia. }
  pose proof (send_packet_spec sc [] [] CS_PING (PCS_Ping p) Hc
    ltac:(cbn [packet_message]; unfold INT_MAX; lia) ltac:(unfold INT_MAX; lia)) as E1.
  rewrite Hrc in E1. destruct E1 as (sc' & E1 & Hc' & _).
  pose proof (exec_parse_spec ss _ _ w Hs) as E2.
  rewrite parse_frame_frame in E2 by first [reflexivity | unfold INT_MAX; lia].
  rewrite Hrs in E2. destruct E2 as (ss' & w' & E2 & Hs' & _).
  pose proof packet_bytes_ping_reply as Hb.
  destruct (message_round_trip_lemma ping_reply SC_RetPing_new 0)
    as (m & st & E3 & Hcons & _ & Hhas & Hpar).
  { by split; [right|eexists]. } { apply md_null_known. } { done. }
  exists sc', ss', w', (packet_bytes (PSC_RetPing ping_reply)), m.
  split; [exact E1|]. split; [exact Hc'|]. split; [exact E2|]. split; [exact Hs'|].
  split; [|split].
  - pose proof (parse_frame_frame SC_RET_PING (packet_bytes (PSC_RetPing ping_reply)) [])
      as Hf. rewrite app_nil_r in Hf. apply Hf; [done|unfold INT_MAX; lia].
  - rewrite (msg_ParseFromArray_spec (PSC_RetPing SC_RetPing_new) _ 2 true m st E3).
    by rewrite Hcons.
  - unfold ret_param. by rewrite Hpar.
Qed.
End connector_theorems.
