(* ===== verification/ConnectorThread.v ===== *)
(** * The threads that serve connections: [connector/connector_thread.{h,cpp}]

    A [ConnectorThread] keeps the connections it serves in a map from
    descriptors, and its loop turns each readiness event into reads, parses,
    writes and deletions.  The functions are given here as the loop thread runs
    them when the listening thread does not interfere; [Interleave] has the
    steps of both threads.  Every access to the map is made under the mutex in
    the code; a pointer to a connection that a function copied out of the map
    designates the same object as the map's, so that its changes are written
    back to the map. *)
From S2P Require Import Prelude CMem Kernel SocketInput Log Host Proto Channel Connector.
From stdpp Require Import base numbers list option strings gmap relations.
From Stdlib Require Import ZArith Lia Strings.Byte.
Open Scope Z_scope.

(** The [errno] values of Linux the code names. *)
Definition EINTR : Z := 4.
Definition EBADF : Z := 9.
Definition ENOMEM : Z := 12.
Definition EFAULT : Z := 14.
Definition EINVAL : Z := 22.
Definition EPIPE : Z := 32.
Definition ECONNRESET : Z := 104.
Definition ECONNREFUSED : Z := 111.

(** The [switch] of [record_errno]: the case of [EFAULT] has no [break]. *)
Definition errno_text (errno : Z) : option String.string :=
  if errno =? EAGAIN then Some
    "The socket is marked nonblocking and the receive operation would block, or a receive timeout had been set and the timeout expired before data was received"%string
  else if errno =? EBADF then Some "The argument sockfd is an invalid descriptor."%string
  else if errno =? ECONNRESET then Some "A connection was forcibly closed by a peer."%string
  else if errno =? ECONNREFUSED then Some
    "A remote host refused to allow the network connection"%string
  else if (errno =? EFAULT) || (errno =? EPIPE) then Some
    "The socket is shut down for writing, or the socket is connection-mode and is no longer connected."%string
  else if errno =? EINTR then Some
    "The receive was interrupted by delivery of a signal before any data were available."%string
  else if errno =? EINVAL then Some "Invalid argument passed."%string
  else if errno =? ENOMEM then Some "Could not allocate memory"%string
  else None.

Record ConnectorThread {S : Type} := mkConnectorThread {
  connectors_ : gmap Z (Connector S);
  ct_epoll_fd : option Z;      (** [epoll_fd_], which no constructor sets *)
  ct_running : bool;           (** [Thread::init] started the thread *)
  ct_stop : bool;              (** [stop_] *)
}.
Arguments ConnectorThread : clear implicits.
Arguments mkConnectorThread {_} _ _ _ _.

Section thread.
Context {W S : Type} `{Host W, !Channel W S, MessageLib}.
Implicit Types t : ConnectorThread S.

Definition ConnectorThread_new : ConnectorThread S := mkConnectorThread ∅ None false false.
Definition set_connectors t (m : gmap Z (Connector S)) : ConnectorThread S :=
  mkConnectorThread m (ct_epoll_fd t) (ct_running t) (ct_stop t).

(** [Thread::init] starts the loop, before [epoll_fd_] is set. *)
Definition Thread_init t : ConnectorThread S :=
  mkConnectorThread (connectors_ t) (ct_epoll_fd t) true (ct_stop t).
Definition Thread_stop t : ConnectorThread S :=
  mkConnectorThread (connectors_ t) (ct_epoll_fd t) (ct_running t) true.
Definition ConnectorThread_init t : M W (ConnectorThread S) :=
  let t := Thread_init t in
  epoll_fd ← call (sys_epoll_create MAX_EVENT);
  let t := mkConnectorThread (connectors_ t) (Some epoll_fd) (ct_running t) (ct_stop t) in
  if epoll_fd =? invalid_id then
    _ ← error_log "create epoll failed in ConnectorThread" [];
    mret t
  else mret t.

Definition record_errno : M W unit :=
  errno ← call (λ w, (sys_errno w, w));
  error_log_ptr (errno_text errno).

Definition get_epoll_fd t : outcome Z :=
  match ct_epoll_fd t with Some fd => Ok fd | None => Undefined UninitRead end.

(** The destructor of [ConnectorThread], run with its thread still alive. *)
Definition ConnectorThread_destroy t : M W unit :=
  epoll_fd ← lift (get_epoll_fd t);
  if negb (epoll_fd =? invalid_id) then act (sys_close epoll_fd) else mret tt.

(** Called by the listening thread.  A connection that the new one replaces in
    the map is destroyed. *)
Definition accept_connector (socket_fd : Z) t : M W (ConnectorThread S) :=
  epoll_fd ← lift (get_epoll_fd t);
  '(create_ret, c) ← Connector_create_socket socket_fd epoll_fd Connector_new;
  if negb create_ret then
    _ ← error_log "create new connection failed!" [];
    _ ← Connector_destroy c;
    mret t
  else
    id ← lift (Connector_get_socketid c);
    let old := connectors_ t !! id in
    let t := set_connectors t (<[id := c]> (connectors_ t)) in
    _ ← match old with Some c => Connector_destroy c | None => mret tt end;
    _ ← debug_log "create connector success, socketid = %d" [AInt socket_fd];
    mret t.

Definition delete_connector (socket_fd : Z) t : M W (ConnectorThread S) :=
  match connectors_ t !! socket_fd with
  | Some c =>
      c ← Connector_close_socket c;
      let t := set_connectors t (delete socket_fd (connectors_ t)) in
      _ ← Connector_destroy c;
      mret t
  | None => mret t
  end.

Definition exec_read (socket_fd : Z) t : M W (ConnectorThread S) :=
  match connectors_ t !! socket_fd with
  | None => mret t
  | Some c =>
      '(ret, c) ← Connector_exec_read c;
      let t := set_connectors t (<[socket_fd := c]> (connectors_ t)) in
      if ret =? 0 then
        _ ← debug_log "socket is closed by opposite, socket_fd = %d" [AInt socket_fd];
        delete_connector socket_fd t
      else if ret =? invalid_id then
        _ ← record_errno;
        delete_connector socket_fd t
      else mret t
  end.

Definition exec_parse (socket_fd : Z) t : M W (ConnectorThread S) :=
  match connectors_ t !! socket_fd with
  | None => mret t
  | Some c =>
      c ← Connector_exec_parse c;
      mret (set_connectors t (<[socket_fd := c]> (connectors_ t)))
  end.

Definition exec_write (fuel : nat) (socket_fd : Z) t : M W (ConnectorThread S) :=
  match connectors_ t !! socket_fd with
  | None => mret t
  | Some c =>
      '(ret, c) ← Connector_exec_write fuel c;
      let t := set_connectors t (<[socket_fd := c]> (connectors_ t)) in
      if ret =? invalid_id then
        _ ← record_errno;
        delete_connector socket_fd t
      else mret t
  end.

(** The body of the [for] loop of [main_loop]. *)
Definition on_event (fuel : nat) (tmp_ev : epoll_event) t : M W (ConnectorThread S) :=
  let has (flag : Z) := negb (Z.land (ev_events tmp_ev) flag =? 0) in
  let socket_fd := ev_fd tmp_ev in
  if has EPOLLIN then
    t ← exec_read socket_fd t;
    exec_parse socket_fd t
  else if has EPOLLOUT then exec_write fuel socket_fd t
  else if has EPOLLHUP then
    _ ← debug_log "close by client EPOLLHUP, socket_fd = %d" [AInt socket_fd];
    delete_connector socket_fd t
  else if has EPOLLERR then
    _ ← debug_log "close by client EPOLLERR, socket_fd = %d" [AInt socket_fd];
    delete_connector socket_fd t
  else mret t.


End thread.

(** ** What the operations do *)
Section thread_facts.
Context {W S : Type} `{ChannelIo W S, MessageLibLaws, !PbLaws}.
Implicit Types (t : ConnectorThread S) (w : W).

(** Every connection of the map has an open channel, for the descriptor it is
    stored under. *)
Definition served t (fd : Z) (s : S) (qi qo : list byte) : Prop :=
  connectors_ t !! fd = Some (mkConnector (Some s)) ∧ ch_get_socketid s = fd ∧ ch_holds s qi qo.
Definition thread_wf t : Prop :=
  ∀ fd c, connectors_ t !! fd = Some c →
    ∃ s qi qo, c = mkConnector (Some s) ∧ ch_get_socketid s = fd ∧ ch_holds s qi qo.

Lemma wf_served t fd c :
  thread_wf t → connectors_ t !! fd = Some c → ∃ s qi qo, served t fd s qi qo.
Proof. intros Ht E. destruct (Ht fd c E) as (s & qi & qo & -> & ? & ?). by exists s, qi, qo. Qed.

Lemma wf_insert t fd s qi qo :
  thread_wf t → ch_get_socketid s = fd → ch_holds s qi qo →
  thread_wf (set_connectors t (<[fd := mkConnector (Some s)]> (connectors_ t))).
Proof.
  intros Ht Hfd Hs fd' c. simpl. rewrite lookup_insert_Some.
  intros [[<- <-]|[_ E]]; [by exists s, qi, qo|by apply Ht].
Qed.

Lemma wf_delete t fd : thread_wf t → thread_wf (set_connectors t (delete fd (connectors_ t))).
Proof. intros Ht fd' c. simpl. rewrite lookup_delete_Some. intros [_ E]. by apply Ht. Qed.

(** Closing a connection removes it from the map; its channel may be in any
    state, as after a failed write. *)
Lemma delete_spec t fd s w :
  connectors_ t !! fd = Some (mkConnector (Some s)) →
  ∃ w', delete_connector fd t w = Ok (set_connectors t (delete fd (connectors_ t)), w').
Proof.
  intros E. unfold delete_connector, Connector_close_socket. rewrite E. cbn [socket_ deref].
  destruct (ch_close_total s w) as (s1 & w1 & E1 & Hid).
  destruct (ch_destroy_total s1 w1) as [w2 E2]. exists w2.
  unfold mbind, M_bind, lift. rewrite E1, E2. done.
Qed.

Lemma record_errno_spec w :
  match errno_text (sys_errno w) with
  | Some _ => ∃ w', record_errno w = Ok (tt, w')
  | None => record_errno w = Undefined NullFormat
  end.
Proof.
  unfold record_errno. rewrite M_bind_call. cbn [fst snd].
  destruct (errno_text (sys_errno w)) as [txt|] eqn:E; [|done].
  unfold error_log_ptr. cbn [fmap option_fmap option_map].
  assert (∃ f, format (text txt) [] = Ok f) as [f Ef].
  { unfold errno_text in E.
    repeat case_match; simplify_eq; eexists; vm_compute; reflexivity. }
  destruct (log_bind ERROR_LOG (text txt) [] f mret w Ef) as (w' & El & _).
  exists w'. rewrite <- (M_bind_ret tt mret w') in El.
  unfold mbind, M_bind in El. unfold mret in *. unfold M_ret in El.
  destruct (LOG _ _ _ w) as [[[] w1]| | |]; [|done..]. by injection El as ->.
Qed.

Lemma delete_inserted t fd s w :
  ∃ w', delete_connector fd
      (set_connectors t (<[fd := mkConnector (Some s)]> (connectors_ t))) w =
    Ok (set_connectors t (delete fd (connectors_ t)), w').
Proof.
  destruct (delete_spec (set_connectors t (<[fd := mkConnector (Some s)]> (connectors_ t))) fd s w)
    as (w' & E); [simpl; by rewrite lookup_insert_eq|].
  exists w'. rewrite E. unfold set_connectors. simpl. by rewrite delete_insert_eq.
Qed.

(** A connection leaves the map. *)
Definition removed t (fd : Z) (res : outcome (ConnectorThread S * W)) : Prop :=
  ∃ w', res = Ok (set_connectors t (delete fd (connectors_ t)), w').
(** After a call that failed: the connection leaves the map, or the error has no
    text and a null format is used. *)
Definition closed_for_error t (fd : Z) w1 (res : outcome (ConnectorThread S * W)) : Prop :=
  match errno_text (sys_errno w1) with
  | Some _ => removed t fd res
  | None => res = Undefined NullFormat
  end.

Lemma close_after_error t fd s w :
  closed_for_error t fd w ((_ ← record_errno; delete_connector fd
    (set_connectors t (<[fd := mkConnector (Some s)]> (connectors_ t)))) w).
Proof.
  pose proof (record_errno_spec w) as He. unfold closed_for_error, removed.
  destruct (errno_text (sys_errno w)); [|by rewrite (M_bind_undefined _ _ _ _ He)].
  destruct He as (w1 & E). rewrite (M_bind_ok _ _ _ _ _ E). apply delete_inserted.
Qed.

(** What [exec_read] does, according to what the stream gave. *)
Lemma exec_read_spec t fd s qi qo w :
  served t fd s qi qo →
  match feed_stream fd (ch_cells s) (ch_head s) qi w with
  | Ok ((r, qi'), w1) =>
      if r =? 0 then removed t fd (exec_read fd t w)
      else if r =? invalid_id then closed_for_error t fd w1 (exec_read fd t w)
      else ∃ s', exec_read fd t w =
          Ok (set_connectors t (<[fd := mkConnector (Some s')]> (connectors_ t)), w1) ∧
        ch_get_socketid s' = fd ∧ (∀ n, ch_room s' n = ch_room s n) ∧
        match qi' with Some qi' => ch_holds s' qi' qo | None => True end
  | Undefined u => exec_read fd t w = Undefined u
  | Throws _ | NoFuel => False
  end.
Proof.
  intros (E & Hfd & Hs). unfold exec_read, Connector_exec_read. rewrite E. cbn [socket_ deref].
  pose proof (ch_read_spec s qi qo w Hs) as Hr. rewrite Hfd in Hr.
  destruct (feed_stream _ _ _ _ _) as [[[r qi'] w1]|u| |]; [|by rewrite M_bind_undefined with (u := u)
    by (rewrite M_bind_lift; by apply M_bind_undefined)|done..].
  destruct Hr as (s' & E1 & Hid & Hroom & Hs').
  rewrite (M_bind_ok _ _ w w1 (r, mkConnector (Some s'))).
  2: { rewrite M_bind_lift. by rewrite (M_bind_ok _ _ _ _ _ E1). }
  destruct (r =? 0); [|destruct (r =? invalid_id)].
  - destruct (log_bind DEBUG_LOG (text "socket is closed by opposite, socket_fd = %d") [AInt fd] _
      (λ _, delete_connector fd (set_connectors t (<[fd := mkConnector (Some s')]> (connectors_ t))))
      w1 eq_refl) as (w2 & El & _).
    unfold debug_log. rewrite El. apply delete_inserted.
  - apply close_after_error.
  - by exists s'.
Qed.

(** What [exec_write] does: the whole queue was sent, or a [send] failed after a part
    of it. *)
Lemma exec_write_spec fuel t fd s qi qo w :
  served t fd s qi qo → zlen qo ≤ Z.of_nat fuel →
  (∃ s' w', exec_write fuel fd t w =
      Ok (set_connectors t (<[fd := mkConnector (Some s')]> (connectors_ t)), w') ∧
    sent w' fd = sent w fd ++ qo ∧ ch_get_socketid s' = fd ∧ ch_holds s' qi []) ∨
  (∃ bs w0 w1, sys_send fd bs w0 = (None, w1) ∧ closed_for_error t fd w1 (exec_write fuel fd t w)).
Proof.
  intros (E & Hfd & Hs) Hf. unfold exec_write, Connector_exec_write. rewrite E.
  cbn [socket_ deref].
  destruct (ch_flush_spec fuel s qi qo w Hs Hf) as (r & s' & w1 & E1 & Hid & Hr).
  rewrite Hfd in *.
  rewrite (M_bind_ok _ _ w w1 (r, mkConnector (Some s'))).
  2: { rewrite M_bind_lift. by rewrite (M_bind_ok _ _ _ _ _ E1). }
  destruct Hr as [(-> & Hs' & Hsent)|(-> & (bs & w0 & Hsend) & _)]; [left|right].
  - pose proof (zlen_nonneg qo). destruct (Z.eqb_spec (zlen qo) invalid_id).
    { unfold invalid_id in *. lia. }
    by exists s', w1.
  - exists bs, w0, w1. split; [done|]. change (-1 =? invalid_id) with true. apply close_after_error.
Qed.

Lemma connector_parse_keeps (P : W → Prop) c :
  keeps_log P → keeps P (Connector_exec_parse c).
Proof.
  intros HP. unfold Connector_exec_parse, User_exec_packet, User_exec_ping.
  pose proof (λ fmt args, debug_log_keeps P fmt args HP). keep.
Qed.

(** [exec_parse] on a connection of the map. *)
Lemma exec_parse_served t fd s qi qo w :
  served t fd s qi qo →
  match parse_frame qi with
  | Malformed u => exec_parse fd t w = Undefined u
  | Frame id payload rest =>
      if reply_fits s id then
        ∃ s' w', exec_parse fd t w =
            Ok (set_connectors t (<[fd := mkConnector (Some s')]> (connectors_ t)), w') ∧
          ch_get_socketid s' = fd ∧ ch_holds s' rest (qo ++ reply id)
      else exec_parse fd t w = Undefined SignedOverflow
  end.
Proof.
  intros (E & Hfd & Hs). unfold exec_parse. rewrite E.
  pose proof (exec_parse_spec s qi qo w Hs) as Hp.
  destruct (parse_frame qi) as [u|id payload rest]; [by apply M_bind_undefined|].
  destruct (reply_fits s id); [|by apply M_bind_undefined].
  destruct Hp as (s' & w' & Ep & Hs' & Hid). exists s', w'.
  rewrite (M_bind_ok _ _ _ _ _ Ep). by rewrite <- Hfd.
Qed.

Lemma served_insert t fd s qi qo :
  ch_get_socketid s = fd → ch_holds s qi qo →
  served (set_connectors t (<[fd := mkConnector (Some s)]> (connectors_ t))) fd s qi qo.
Proof. intros ??. split; [|done]. simpl. by rewrite lookup_insert_eq. Qed.

Lemma set_connectors_twice t m m' : set_connectors (set_connectors t m) m' = set_connectors t m'.
Proof. done. Qed.

(** *** The invariant of the loop thread *)

(** What can go wrong in the handling of an event, with the outcome it has: in a
    read, bytes that arrive after their number was asked and do not fit the
    grown block (or fill it to its end, which leaves no ring), or a size beyond
    [int]; in the parse that follows, a queue which does not start with a
    whole frame of a known identifier, or a reply without room; after a [recv]
    or a [send] that failed, an error number without a text. *)
Inductive event_fault (ev : epoll_event) t w : outcome (ConnectorThread S * W) → Prop :=
| fault_feed s qi qo u :
    Z.land (ev_events ev) EPOLLIN ≠ 0 → served t (ev_fd ev) s qi qo →
    feed_stream (ev_fd ev) (ch_cells s) (ch_head s) qi w = Undefined u →
    event_fault ev t w (Undefined u)
| fault_filled s qi qo r w1 res :
    Z.land (ev_events ev) EPOLLIN ≠ 0 → served t (ev_fd ev) s qi qo →
    feed_stream (ev_fd ev) (ch_cells s) (ch_head s) qi w = Ok ((r, None), w1) →
    event_fault ev t w res
| fault_parse s qi qo t1 w1 u :
    Z.land (ev_events ev) EPOLLIN ≠ 0 → exec_read (ev_fd ev) t w = Ok (t1, w1) →
    served t1 (ev_fd ev) s qi qo → parse_frame qi = Malformed u →
    event_fault ev t w (Undefined u)
| fault_reply s qi qo t1 w1 id payload rest :
    Z.land (ev_events ev) EPOLLIN ≠ 0 → exec_read (ev_fd ev) t w = Ok (t1, w1) →
    served t1 (ev_fd ev) s qi qo → parse_frame qi = Frame id payload rest →
    reply_fits s id = false →
    event_fault ev t w (Undefined SignedOverflow)
| fault_read_errno s qi qo qi' w1 :
    Z.land (ev_events ev) EPOLLIN ≠ 0 → served t (ev_fd ev) s qi qo →
    feed_stream (ev_fd ev) (ch_cells s) (ch_head s) qi w = Ok ((invalid_id, qi'), w1) →
    errno_text (sys_errno w1) = None →
    event_fault ev t w (Undefined NullFormat)
| fault_write_errno bs w0 w1 :
    Z.land (ev_events ev) EPOLLOUT ≠ 0 → sys_send (ev_fd ev) bs w0 = (None, w1) →
    errno_text (sys_errno w1) = None →
    event_fault ev t w (Undefined NullFormat).

(** A result that keeps the invariant. *)
Definition kept_wf (res : outcome (ConnectorThread S * W)) : Prop :=
  ∃ t' w', res = Ok (t', w') ∧ thread_wf t'.

Lemma removed_wf t fd res : thread_wf t → removed t fd res → kept_wf res.
Proof. intros Ht [w' ->]. eexists _, w'. split; [done|]. by apply wf_delete. Qed.

Lemma delete_wf t fd w : thread_wf t → kept_wf (delete_connector fd t w).
Proof.
  intros Ht. destruct (connectors_ t !! fd) as [c|] eqn:E.
  - destruct (wf_served t fd c Ht E) as (s & qi & qo & Hs & _).
    apply (removed_wf t fd); [done|]. by apply (delete_spec t fd s).
  - unfold delete_connector. rewrite E. by exists t, w.
Qed.

Lemma write_event fuel ev t w :
  thread_wf t → INT_MAX ≤ Z.of_nat fuel → Z.land (ev_events ev) EPOLLOUT ≠ 0 →
  kept_wf (exec_write fuel (ev_fd ev) t w) ∨ event_fault ev t w (exec_write fuel (ev_fd ev) t w).
Proof.
  intros Ht Hf Hout. destruct (connectors_ t !! ev_fd ev) as [c|] eqn:E.
  2: { left. unfold exec_write. rewrite E. by exists t, w. }
  destruct (wf_served t (ev_fd ev) c Ht E) as (s & qi & qo & Hs).
  assert (zlen qo ≤ Z.of_nat fuel)
    by (destruct Hs as (_ & _ & Hs); pose proof (ch_queue_bound s qi qo Hs); lia).
  destruct (exec_write_spec fuel t (ev_fd ev) s qi qo w Hs) as
    [(s' & w' & -> & _ & Hid & Hs')|(bs & w0 & w1 & Hsend & Hc)]; [done|left|].
  - eexists _, w'. split; [done|]. by apply (wf_insert t _ s' qi []).
  - unfold closed_for_error in Hc. destruct (errno_text (sys_errno w1)) eqn:He.
    + left. by apply (removed_wf t (ev_fd ev)).
    + right. rewrite Hc. by apply (fault_write_errno _ _ _ bs w0 w1).
Qed.

(** A parse after a read that succeeded. *)
Lemma parse_event ev t w t1 w1 :
  Z.land (ev_events ev) EPOLLIN ≠ 0 → exec_read (ev_fd ev) t w = Ok (t1, w1) → thread_wf t1 →
  kept_wf (exec_parse (ev_fd ev) t1 w1) ∨ event_fault ev t w (exec_parse (ev_fd ev) t1 w1).
Proof.
  intros Hin Hread Ht. destruct (connectors_ t1 !! ev_fd ev) as [c|] eqn:E.
  2: { left. unfold exec_parse. rewrite E. by exists t1, w1. }
  destruct (wf_served t1 (ev_fd ev) c Ht E) as (s & qi & qo & Hs).
  pose proof (exec_parse_served t1 (ev_fd ev) s qi qo w1 Hs) as Hp.
  destruct (parse_frame qi) as [u|id payload rest] eqn:Eq.
  - right. rewrite Hp. by apply (fault_parse _ _ _ s qi qo t1 w1).
  - destruct (reply_fits s id) eqn:Hfit.
    + left. destruct Hp as (s' & w' & -> & Hid & Hs'). eexists _, w'. split; [done|].
      by apply (wf_insert t1 _ s' rest (qo ++ reply id)).
    + right. rewrite Hp. by apply (fault_reply _ _ _ s qi qo t1 w1 id payload rest).
Qed.

Lemma read_event ev t w :
  thread_wf t → Z.land (ev_events ev) EPOLLIN ≠ 0 →
  let m := (t ← exec_read (ev_fd ev) t; exec_parse (ev_fd ev) t) : M W (ConnectorThread S) in
  kept_wf (m w) ∨ event_fault ev t w (m w).
Proof.
  intros Ht Hin m. unfold m.
  assert (Hthen : ∀ t1 w1, exec_read (ev_fd ev) t w = Ok (t1, w1) → thread_wf t1 →
    kept_wf (m w) ∨ event_fault ev t w (m w)).
  { intros t1 w1 E Ht1. unfold m. rewrite (M_bind_ok _ _ _ _ _ E). by apply parse_event. }
  destruct (connectors_ t !! ev_fd ev) as [c|] eqn:E.
  2: { apply (Hthen t w); [|done]. unfold exec_read. by rewrite E. }
  destruct (wf_served t (ev_fd ev) c Ht E) as (s & qi & qo & Hs).
  pose proof (exec_read_spec t (ev_fd ev) s qi qo w Hs) as Hr.
  destruct (feed_stream _ _ _ _ _) as [[[r qi'] w1]|u| |] eqn:Ef; [..|done|done].
  2: { right. rewrite (M_bind_undefined _ _ _ _ Hr). by apply (fault_feed _ _ _ s qi qo). }
  assert (Hgone : removed t (ev_fd ev) (exec_read (ev_fd ev) t w) →
    kept_wf (m w) ∨ event_fault ev t w (m w)).
  { intros (w' & Ew). apply (Hthen _ w' Ew). by apply wf_delete. }
  destruct (r =? 0); [by apply Hgone|]. destruct (Z.eqb_spec r invalid_id) as [->|].
  - unfold closed_for_error in Hr. destruct (errno_text (sys_errno w1)) eqn:He; [by apply Hgone|].
    right. rewrite (M_bind_undefined _ _ _ _ Hr).
    by apply (fault_read_errno _ _ _ s qi qo qi' w1).
  - destruct qi' as [qi'|]; [|right; by apply (fault_filled _ _ _ s qi qo r w1)].
    destruct Hr as (s' & Ew & Hid & _ & Hs'). apply (Hthen _ w1 Ew).
    by apply (wf_insert t _ s' qi' qo).
Qed.

Lemma on_event_spec fuel ev t w :
  thread_wf t → INT_MAX ≤ Z.of_nat fuel →
  kept_wf (on_event fuel ev t w) ∨ event_fault ev t w (on_event fuel ev t w).
Proof.
  intros Ht Hf. unfold on_event.
  destruct (Z.eqb_spec (Z.land (ev_events ev) EPOLLIN) 0) as [_|Hin]; cbn [negb];
    [|by apply read_event].
  destruct (Z.eqb_spec (Z.land (ev_events ev) EPOLLOUT) 0) as [_|Hout]; cbn [negb];
    [|by apply write_event].
  left. assert (Hdel : ∀ fmt f, format (text fmt) [AInt (ev_fd ev)] = Ok f →
    kept_wf ((_ ← debug_log fmt [AInt (ev_fd ev)]; delete_connector (ev_fd ev) t) w)).
  { intros fmt f Ef. unfold debug_log.
    destruct (log_bind DEBUG_LOG (text fmt) [AInt (ev_fd ev)] f
      (λ _, delete_connector (ev_fd ev) t) w Ef) as (w' & -> & _). by apply delete_wf. }
  destruct (negb _); [by eapply Hdel|]. destruct (negb _); [by eapply Hdel|]. by exists t, w.
Qed.
End thread_facts.

(** ** Properties *)
Section thread_theorems.
Context {W S : Type} `{ChannelIo W S, MessageLibLaws, !PbLaws}.
Implicit Types (t : ConnectorThread S) (w : W).

Lemma accept_spec t fd epfd w :
  ct_epoll_fd t = Some epfd →
  ∃ s w', accept_connector fd t w =
      Ok (set_connectors t (<[fd := mkConnector (Some s)]> (connectors_ t)), w') ∧
    served (set_connectors t (<[fd := mkConnector (Some s)]> (connectors_ t))) fd s [] [].
Proof.
  intros Hep. unfold accept_connector, Connector_create_socket, get_epoll_fd.
  rewrite Hep, M_bind_lift. cbn [socket_ Connector_new].
  destruct (ch_init_spec fd epfd w) as (s & w1 & E1 & Hid & Hs).
  rewrite (M_bind_ok _ _ w w1 (true, mkConnector (Some s))).
  2: { rewrite M_bind_ret. by rewrite (M_bind_ok _ _ _ _ _ E1). }
  cbn [negb Connector_get_socketid deref socket_ mbind outcome_bind]. 
  rewrite M_bind_lift, Hid.
  assert (∃ w2, (match connectors_ t !! fd with
                 | Some c => Connector_destroy c | None => mret tt end) w1 = Ok (tt, w2))
    as (w2 & E2).
  { destruct (connectors_ t !! fd) as [[[so|]]|]; try (by exists w1).
    destruct (ch_destroy_total so w1) as [w2 E2]. by exists w2. }
  rewrite (M_bind_ok _ _ _ _ _ E2). unfold debug_log.
  match goal with |- context [(LOG ?ty (Some ?f) ?args ≫= ?k) w2] =>
    destruct (log_bind ty f args _ k w2 eq_refl) as (w3 & E3 & _) end.
  exists s, w3. rewrite E3. split; [done|]. by apply served_insert.
Qed.


(** What a write of a connection does: the whole send queue reaches the
    peer, in order, or a [send] failed, and then the connection is closed and
    leaves the map, or the error has no text. *)
Theorem exec_write_outcomes fuel t fd s qi qo w :
  served t fd s qi qo → zlen qo ≤ Z.of_nat fuel →
  (∃ s' w', exec_write fuel fd t w =
      Ok (set_connectors t (<[fd := mkConnector (Some s')]> (connectors_ t)), w') ∧
    sent w' fd = sent w fd ++ qo ∧ ch_get_socketid s' = fd ∧ ch_holds s' qi []) ∨
  (∃ bs w0 w1, sys_send fd bs w0 = (None, w1) ∧ closed_for_error t fd w1 (exec_write fuel fd t w)).
Proof. apply exec_write_spec. Qed.

(** Accepting a connection puts a fresh one in the map under its
    descriptor, with empty queues, and leaves the other entries alone; before
    [init] has set [epoll_fd_], an indeterminate value is used. *)
Theorem accept_registers t fd w :
  thread_wf t →
  match ct_epoll_fd t with
  | Some _ => ∃ s w', let t' := set_connectors t
          (<[fd := mkConnector (Some s)]> (connectors_ t)) in
      accept_connector fd t w = Ok (t', w') ∧ thread_wf t' ∧ served t' fd s [] []
  | None => accept_connector fd t w = Undefined UninitRead
  end.
Proof.
  intros Ht. destruct (ct_epoll_fd t) as [epfd|] eqn:E.
  - destruct (accept_spec t fd epfd w E) as (s & w' & Ea & Hs).
    exists s, w'. split; [done|]. split; [|done].
    destruct Hs as (_ & ? & ?). by apply (wf_insert t fd s [] []).
  - unfold accept_connector, get_epoll_fd. by rewrite E.
Qed.

(** The invariant of the loop: handling any event, for any descriptor,
    known or not, keeps every connection of the map open, stored under its
    own descriptor, and with a send buffer whose head is at 0 (so that
    [write] stays in bounds), unless one of the faults of [event_fault] occurs. *)
Theorem event_keeps_invariant fuel ev t w :
  thread_wf t → INT_MAX ≤ Z.of_nat fuel →
  (∃ t' w', on_event fuel ev t w = Ok (t', w') ∧ thread_wf t') ∨
  event_fault ev t w (on_event fuel ev t w).
Proof. apply on_event_spec. Qed.

(** ** Runs of the loop *)





(** No handler changes [epoll_fd_]. *)
Definition same_epoll (e : option Z) (m : M W (ConnectorThread S)) : Prop :=
  ∀ w t' w', m w = Ok (t', w') → ct_epoll_fd t' = e.

Lemma same_epoll_ret e t : ct_epoll_fd t = e → same_epoll e (mret t).
Proof. by intros He w t' w' [= <- _]. Qed.
Lemma same_epoll_bind {A} e (m : M W A) f :
  (∀ a, same_epoll e (f a)) → same_epoll e (m ≫= f).
Proof. intros Hf w t' w' E. apply M_bind_inv in E as (a & w1 & _ & E). exact (Hf _ _ _ _ E). Qed.

Lemma delete_same_epoll e t fd : ct_epoll_fd t = e → same_epoll e (delete_connector fd t).
Proof.
  intros He. unfold delete_connector. destruct (connectors_ t !! fd); [|by apply same_epoll_ret].
  apply same_epoll_bind; intros ?. apply same_epoll_bind; intros []. by apply same_epoll_ret.
Qed.

Ltac same_epoll :=
  repeat first
    [ by apply same_epoll_ret | by apply delete_same_epoll
    | apply same_epoll_bind; intros ?
    | match goal with |- same_epoll _ (match ?x with _ => _ end) => destruct x end ].




End thread_theorems.
