(* ===== verification/ConnectorManager.v ===== *)
(** * Distribution of connections over threads: [connector/connector_manager.{h,cpp}],
    [common/utils.h]

    The manager starts a number of threads that depends on the processors of
    the host and a flag, and hands each accepted connection to the thread its
    descriptor selects. *)
From S2P Require Import Prelude CMem Kernel SocketInput Log Host Proto Channel Connector.
From S2P Require Import ConnectorThread Doubles.
From stdpp Require Import base numbers list option strings gmap.
From Stdlib Require Import ZArith Lia Strings.Byte Floats.SpecFloat.
Open Scope Z_scope.

(** ** [common/utils.h] *)
Definition invalid_index : Z := -1.
Definition hash_index (key max : Z) : outcome Z := c_rem key max.

(** What the manager uses of its environment besides the host. *)
Class ManagerEnv (W : Type) := {
  sys_nprocs : W → Z;                        (** [sysconf(_SC_NPROCESSORS_ONLN)] *)
  FLAGS_thread_num_ratio : W → spec_float;
  set_flagfile : list byte → W → W;          (** [SetCommandLineOption("flagfile", ...)] *)
}.

(** [get_procnum], given the value of its static variable, which it sets to its
    result. *)
Definition get_procnum {W} `{ManagerEnv W} (proc_num : Z) : M W Z :=
  if proc_num =? invalid_index then call (λ w, (sys_nprocs w, w)) else mret proc_num.

Record ConnectorManager {S : Type} := mkConnectorManager {
  connector_threads_ : list (ConnectorThread S);
  thread_num_ : Z;
}.
Arguments ConnectorManager : clear implicits.
Arguments mkConnectorManager {_} _ _.

Section manager.
Context {W S : Type} `{Host W, !ManagerEnv W, !Channel W S, MessageLib}.
Implicit Types m : ConnectorManager S.

(** [std::vector::resize]. *)
Definition vector_resize (threads : list (ConnectorThread S)) (n : Z)
  : outcome (list (option (ConnectorThread S))) :=
  if n <? 0 then Throws StdLengthError
  else Ok (take (Z.to_nat n) (Some <$> threads) ++
           replicate (Z.to_nat n - length threads) None).

(** The loop that creates the threads and starts them, in order. *)
Fixpoint start_threads (n : nat) : M W (list (ConnectorThread S)) :=
  match n with
  | O => mret []
  | Datatypes.S n =>
      t ← ConnectorThread_init ConnectorThread_new;
      ts ← start_threads n;
      mret (t :: ts)
  end.

Definition ConnectorManager_init (proc_num : Z) : M W (ConnectorManager S * Z) :=
  flag_file ← lift (snprintf 128 (Some (text "%s%s"))
    [AStr g_prefix_res_path; AStr (text "data/config/connector.conf")]);
  _ ← act (set_flagfile flag_file);
  proc_num ← get_procnum proc_num;
  ratio ← call (λ w, (FLAGS_thread_num_ratio w, w));
  thread_num ← lift (int_of_double (double_mul (double_of_int proc_num) ratio));
  proc_num ← get_procnum proc_num;
  _ ← debug_log "get thread number success, processor number = %d, ratio = %lf, thread number = %d"
        [AInt proc_num; ADouble ratio; AInt thread_num];
  _ ← lift (vector_resize [] thread_num);
  ts ← start_threads (Z.to_nat thread_num);
  _ ← debug_log "create %d connector thread success!" [AInt thread_num];
  mret (mkConnectorManager ts thread_num, proc_num).

Definition ConnectorManager_accept_connector (socket_fd : Z) m : M W (ConnectorManager S) :=
  index ← lift (hash_index socket_fd (thread_num_ m));
  match connector_threads_ m !! Z.to_nat index with
  | Some t =>
      if index <? 0 then lift (Undefined OutOfBounds) else
      t ← accept_connector socket_fd t;
      mret (mkConnectorManager (<[Z.to_nat index := t]> (connector_threads_ m)) (thread_num_ m))
  | None => lift (Undefined OutOfBounds)
  end.

(** The destructor stops every thread (and the threads are joined when the
    vector is destroyed). *)
Definition ConnectorManager_destroy m : ConnectorManager S :=
  mkConnectorManager (Thread_stop <$> connector_threads_ m) (thread_num_ m).
End manager.

(** ** Properties *)
Section manager_theorems.
Context {W S : Type} `{ChannelIo W S, !ManagerEnv W, MessageLibLaws, !PbLaws}.
Implicit Types (m : ConnectorManager S) (w : W).

(** As many threads as [thread_num_], each initialised and well formed, and
    each serving only descriptors that select it: no descriptor is served by
    two threads. *)
Definition manager_wf m : Prop :=
  zlen (connector_threads_ m) = thread_num_ m ∧ 0 < thread_num_ m ∧
  ∀ (i : nat) t, connector_threads_ m !! i = Some t →
    thread_wf (W := W) t ∧ is_Some (ct_epoll_fd t) ∧
    ∀ fd c, connectors_ t !! fd = Some c → fd mod thread_num_ m = Z.of_nat i.

Lemma thread_init_spec w :
  ∃ e w', ConnectorThread_init (S := S) ConnectorThread_new w =
    Ok (mkConnectorThread ∅ (Some e) true false, w').
Proof.
  unfold ConnectorThread_init. rewrite M_bind_call.
  destruct (sys_epoll_create MAX_EVENT w) as [e w1]. cbn [fst snd] in *.
  destruct (e =? invalid_id); [|by exists e, w1].
  unfold error_log.
  match goal with |- context [(LOG ?ty (Some ?f) ?args ≫= ?k) w1] =>
    destruct (log_bind ty f args _ k w1 eq_refl) as (w2 & E & _) end.
  exists e, w2. by rewrite E.
Qed.

Lemma start_threads_spec n : ∀ w,
  ∃ ts w', start_threads (S := S) n w = Ok (ts, w') ∧ length ts = n ∧
    Forall (λ t, ∃ e, t = mkConnectorThread ∅ (Some e) true false) ts.
Proof.
  induction n as [|n IH]; intros w; [by exists [], w|]. cbn [start_threads].
  destruct (thread_init_spec w) as (e & w1 & E1). rewrite (M_bind_ok _ _ _ _ _ E1).
  destruct (IH w1) as (ts & w2 & E2 & Hl & Hts). rewrite (M_bind_ok _ _ _ _ _ E2).
  exists (mkConnectorThread ∅ (Some e) true false :: ts), w2. split; [done|].
  split; [simpl; lia|]. constructor; [by exists e|done].
Qed.

(** [init]: the number of threads is the number of processors times the
    flag, truncated.  A result that fits [int] and is not negative starts that
    many threads, all running with their event queue set; a negative one makes
    [resize] throw; one outside [int] is undefined. *)
Theorem manager_starts_threads procs w :
  sys_nprocs (set_flagfile (text "/usr/share/libnetwork/data/config/connector.conf") w)
            = procs → 0 < procs →
  let w0 := set_flagfile (text "/usr/share/libnetwork/data/config/connector.conf") w in
  match int_of_double (double_mul (double_of_int procs) (FLAGS_thread_num_ratio w0)) with
  | Ok n =>
      if n <? 0 then ConnectorManager_init (S := S) invalid_index w = Throws StdLengthError
      else ∃ m w', ConnectorManager_init invalid_index w = Ok ((m, procs), w') ∧
        thread_num_ m = n ∧ zlen (connector_threads_ m) = n ∧ (0 < n → manager_wf m) ∧
        Forall (λ t, ct_running t = true) (connector_threads_ m)
  | Undefined u => u = FloatToInt ∧
      ConnectorManager_init (S := S) invalid_index w = Undefined FloatToInt
  | _ => False
  end.
Proof.
  intros Hp Hpos w0. fold w0 in Hp.
  assert (Hinit : ConnectorManager_init (S := S) invalid_index w =
    (thread_num ← lift (int_of_double (double_mul (double_of_int procs) (FLAGS_thread_num_ratio w0)));
     _ ← debug_log "get thread number success, processor number = %d, ratio = %lf, thread number = %d"
        [AInt procs; ADouble (FLAGS_thread_num_ratio w0); AInt thread_num];
     _ ← lift (vector_resize (S := S) [] thread_num);
     ts ← start_threads (Z.to_nat thread_num);
     _ ← debug_log "create %d connector thread success!" [AInt thread_num];
     mret (mkConnectorManager ts thread_num, procs)) w0).
  { unfold ConnectorManager_init.
    rewrite (M_bind_ok (lift (snprintf _ _ _)) _ w w
      (text "/usr/share/libnetwork/data/config/connector.conf")) by (vm_compute; reflexivity).
    rewrite (M_bind_ok (act _) _ w w0 tt) by done.
    rewrite (M_bind_ok (get_procnum invalid_index) _ w0 w0 procs)
      by (unfold get_procnum, call; by rewrite Z.eqb_refl, Hp).
    rewrite (M_bind_ok (call _) _ w0 w0 (FLAGS_thread_num_ratio w0)) by done.
    unfold mbind, M_bind, lift. destruct (int_of_double _); [|done..].
    unfold get_procnum, invalid_index. rewrite (proj2 (Z.eqb_neq procs (-1))) by lia. done. }
  rewrite Hinit. clear Hinit.
  assert (Hcases : ∀ d, match int_of_double d with
    | Ok _ => True | Undefined u => u = FloatToInt | _ => False end).
  { intros d. unfold int_of_double. repeat case_match; simplify_eq; done. }
  specialize (Hcases (double_mul (double_of_int procs) (FLAGS_thread_num_ratio w0))).
  destruct (int_of_double _) as [n|u| |]; try done. 2: { by rewrite Hcases. }
  rewrite M_bind_lift. unfold debug_log.
  match goal with |- context [(LOG ?ty (Some ?f) ?args ≫= ?k) w0] =>
    destruct (log_bind ty f args _ k w0 eq_refl) as (w1 & E1 & _) end.
  rewrite E1. unfold vector_resize. destruct (Z.ltb_spec n 0); [done|].
  rewrite M_bind_lift.
  destruct (start_threads_spec (Z.to_nat n) w1) as (ts & w2 & E2 & Hl & Hts).
  rewrite (M_bind_ok _ _ _ _ _ E2).
  match goal with |- context [(LOG ?ty (Some ?f) ?args ≫= ?k) w2] =>
    destruct (log_bind ty f args _ k w2 eq_refl) as (w3 & E3 & _) end.
  rewrite E3. exists (mkConnectorManager ts n), w3. cbn [thread_num_ connector_threads_].
  assert (Hz : zlen ts = n) by (unfold zlen; lia).
  split; [done|]. split; [done|]. split; [done|]. split.
  - intros Hn. split; [done|]. split; [done|]. intros i t Et.
    destruct (proj1 (Forall_lookup _ ts) Hts i t Et) as [e ->]. simpl.
    split; [intros fd c Hc; simpl in Hc; by rewrite lookup_empty in Hc|]. split; [by eexists|].
    intros fd c Hc. simpl in Hc. by rewrite lookup_empty in Hc.
  - apply (Forall_impl _ _ _ Hts). by intros t [e ->].
Qed.

Lemma manager_accept_lemma m fd w :
  manager_wf m → 0 ≤ fd →
  ∃ m' w' t s, ConnectorManager_accept_connector fd m w = Ok (m', w') ∧
    manager_wf m' ∧
    connector_threads_ m' !! Z.to_nat (fd mod thread_num_ m) = Some t ∧
    served (W := W) t fd s [] [] ∧
    ∀ i, i ≠ Z.to_nat (fd mod thread_num_ m) →
      connector_threads_ m' !! i = connector_threads_ m !! i.
Proof.
  intros (Hlen & Hn & Hall) Hfd. unfold ConnectorManager_accept_connector, hash_index.
  set (n := thread_num_ m) in *. rewrite c_rem_ok, M_bind_lift by lia.
  pose proof (Z.mod_pos_bound fd n Hn) as Hi. set (i := Z.to_nat (fd mod n)).
  assert (Hin : (i < length (connector_threads_ m))%nat) by (unfold zlen in Hlen; lia).
  destruct (lookup_lt_is_Some_2 _ _ Hin) as [t Et]. rewrite Et.
  rewrite (proj2 (Z.ltb_ge (fd mod n) 0)) by lia.
  destruct (Hall i t Et) as (Ht & [e He] & Hkeys).
  destruct (accept_spec t fd e w He) as (s & w' & Ea & Hs).
  rewrite (M_bind_ok _ _ _ _ _ Ea).
  set (t' := set_connectors t _) in *.
  eexists _, w', t', s. split; [reflexivity|]. cbn [connector_threads_].
  split_and!; [|by apply list_lookup_insert_eq|done|intros j Hj; by apply list_lookup_insert_ne].
  split; [cbn [connector_threads_ thread_num_]; unfold zlen in *; by rewrite length_insert|]. split; [done|]. cbn [connector_threads_ thread_num_].
  intros j u Eu. apply list_lookup_insert_Some in Eu as [(<- & <- & _)|(Hne & Eu)]; [|by apply Hall].
  destruct Hs as (_ & Hsfd & Hsq). split; [by apply (wf_insert t fd s [] [])|].
  split; [by exists e|]. intros fd' c. unfold t'. simpl. rewrite lookup_insert_Some.
  intros [[<- _]|[_ Ec]]; [unfold i; fold n; lia|by apply (Hkeys fd' c)].
Qed.

(** Handing a connection to the manager: exactly one thread gets it, the
    one its descriptor selects, as a fresh connection; every other thread is
    unchanged, and the invariant is kept. *)
Theorem manager_accept_affinity m fd w :
  manager_wf m → 0 ≤ fd →
  ∃ m' w' t s, ConnectorManager_accept_connector fd m w = Ok (m', w') ∧
    manager_wf m' ∧
    connector_threads_ m' !! Z.to_nat (fd mod thread_num_ m) = Some t ∧
    served (W := W) t fd s [] [] ∧
    ∀ i, i ≠ Z.to_nat (fd mod thread_num_ m) →
      connector_threads_ m' !! i = connector_threads_ m !! i.
Proof. apply manager_accept_lemma. Qed.

(** A flag small enough to give no thread at all: the manager starts, and
    the first connection it is handed divides by zero. *)
Theorem no_thread_divides_by_zero m fd w :
  thread_num_ m = 0 → ConnectorManager_accept_connector fd m w = Undefined DivideByZero.
Proof. intros E. unfold ConnectorManager_accept_connector. by rewrite E. Qed.
End manager_theorems.

(** With the default flag (1.0, of connector_flags.cpp) there is one thread
    per processor, for every number of processors up to 1024; with the flag 0.5
    and one processor there is none. *)
Theorem default_ratio_one_per_processor :
  (∀ p, 1 ≤ p ≤ 1024 →
     int_of_double (double_mul (double_of_int p) (double_of_int 1)) = Ok p) ∧
  int_of_double (double_mul (double_of_int 1) (S754_finite false 4503599627370496 (-53))) = Ok 0.
Proof.
  split; [|by vm_compute]. intros p Hp.
  assert (Hall : forallb (λ k, match int_of_double (double_mul (double_of_int (Z.of_nat k))
      (double_of_int 1)) with Ok r => r =? Z.of_nat k | _ => false end) (seq 1 1024) = true)
    by (vm_compute; reflexivity).
  rewrite forallb_forall in Hall. specialize (Hall (Z.to_nat p)).
  rewrite in_seq, Z2Nat.id in Hall by lia. specialize (Hall ltac:(lia)).
  destruct (int_of_double _); [|done..]. f_equal. by apply Z.eqb_eq.
Qed.
