(* ===== verification/Server.v ===== *)
(** * The server end to end

    A connection of the real [Socket], from the bytes its peer sent to the bytes
    it is answered, through the handlers of [ConnectorThread]. *)
From S2P Require Import Prelude CMem Kernel SocketInput SocketOutput Log Host Proto Channel.
From S2P Require Import Socket Connector ConnectorThread.
From stdpp Require Import base numbers list option strings gmap.
From Stdlib Require Import ZArith Lia Strings.Byte.
Open Scope Z_scope.

Section server.
Context {W : Type} `{HostLaws W, MessageLibLaws, !PbLaws}.
Implicit Types (t : ConnectorThread Socket) (w : W).
#[local] Abbreviation served := (ConnectorThread.served (W := W)).
#[local] Abbreviation reply_fits := (Connector.reply_fits (W := W)).
#[local] Abbreviation room := (ch_room (W := W)).

(** A connection as [accept_connector] leaves it. *)
Definition fresh_connection t (fd : Z) : Prop :=
  ∃ epfd ev, connectors_ t !! fd =
    Some (mkConnector (Some (mkSocket fd epfd ev SocketInput_new SocketOutput_new))).

Definition readable (ev : epoll_event) (fd : Z) : Prop :=
  ev_fd ev = fd ∧ Z.land (ev_events ev) EPOLLIN ≠ 0.
Definition writable_only (ev : epoll_event) (fd : Z) : Prop :=
  ev_fd ev = fd ∧ Z.land (ev_events ev) EPOLLIN = 0 ∧ Z.land (ev_events ev) EPOLLOUT ≠ 0.

Lemma reply_fits_fresh (s : Socket) :
  (∀ n, room s n = (so_grown SocketOutput_new n <=? INT_MAX)) →
  reply_fits s CS_PING = true.
Proof.
  intros Hroom. unfold reply_fits. rewrite Hroom. change (CS_PING =? CS_PING) with true.
  cbn [negb orb]. apply Z.leb_le. unfold reply. change (CS_PING =? CS_PING) with true. cbv iota.
  rewrite zlen_frame. pose proof packet_bytes_ping_reply as Hb. unfold packet_bytes in Hb.
  cbn [packet_message] in Hb.
  change (SC_RetPing_InternalSerializeWithCachedSizesToArray ping_reply)
    with (Message_InternalSerializeWithCachedSizesToArray ping_reply).
  unfold so_grown. change (so_free SocketOutput_new) with 16383.
  change (so_buffer_len SocketOutput_new) with 16384. zbool. unfold INT_MAX. lia.
Qed.

Lemma exec_parse_streams t fd w t' w' x :
  exec_parse fd t w = Ok (t', w') → sent w' x = sent w x ∧ pending w' x = pending w x.
Proof.
  intros E. unfold exec_parse in E. destruct (connectors_ t !! fd) as [c|];
    [|by injection E as <- <-].
  apply M_bind_inv in E as (c' & w1 & E & E1). injection E1 as _ <-.
  refine (connector_parse_keeps (λ y, sent y x = sent w x ∧ pending y x = pending w x)
            c _ w c' w1 _ E); [|done].
  intros ty s y [] y' (<- & <-) Elog. by destruct (log_streams ty s y y' x Elog) as [-> ->].
Qed.

(** The first read of a fresh connection, and what is made of it. *)
Lemma fresh_event fuel ev t fd w r q w1 :
  fresh_connection t fd → readable ev fd →
  feed_stream fd SOCKET_INPUT_SIZE 0 [] w = Ok ((r, Some q), w1) → 0 < r →
  match parse_frame q with
  | Malformed u => on_event fuel ev t w = Undefined u
  | Frame id payload rest => ∃ s' w',
      on_event fuel ev t w =
        Ok (set_connectors t (<[fd := mkConnector (Some s')]> (connectors_ t)), w') ∧
      served (set_connectors t (<[fd := mkConnector (Some s')]> (connectors_ t))) fd s'
        rest (reply id) ∧
      pending w' fd = pending w1 fd ∧ sent w' fd = sent w fd
  end.
Proof.
  intros (epfd & e & E) [Hfd Hin] Ef Hr. set (s := mkSocket fd epfd e SocketInput_new SocketOutput_new) in *.
  unfold on_event. apply Z.eqb_neq in Hin. rewrite Hin, Hfd. cbn [negb].
  assert (served t fd s [] []) as Hs by (split; [done|]; split; [done|]; apply socket_new_holds).
  pose proof (exec_read_spec t fd s [] [] w Hs) as Hread.
  change (ch_cells s) with SOCKET_INPUT_SIZE in Hread. change (ch_head s) with 0 in Hread.
  rewrite Ef in Hread. cbv beta iota zeta in Hread.
  rewrite (proj2 (Z.eqb_neq r 0)), (proj2 (Z.eqb_neq r invalid_id)) in Hread
    by (unfold invalid_id; lia).
  destruct Hread as (s1 & E1 & Hid & Hroom & Hs1). rewrite (M_bind_ok _ _ _ _ _ E1).
  assert (Hsent : sent w1 fd = sent w fd).
  { pose proof (Socket_read_spec s [] [] w socket_new_holds) as Hx.
    change (si_buffer_len (socket_input s)) with SOCKET_INPUT_SIZE in Hx.
    change (si_head (socket_input s)) with 0 in Hx. change (socket_fd s) with fd in Hx.
    rewrite Ef in Hx. destruct Hx as (s2 & Ex & _).
    refine (ch_read_keeps (λ x, sent x fd = sent w fd) s _ _ w _ w1 eq_refl Ex).
    - intros n x Hx. by rewrite recv_sent.
    - intros x Hx. by rewrite fionread_sent. }
  pose proof (served_insert t fd s1 q [] Hid Hs1) as Hserved.
  pose proof (exec_parse_served _ fd s1 q [] w1 Hserved) as Hparse.
  destruct (parse_frame q) as [u|id payload rest]; [done|].
  assert (reply_fits s1 id = true) as Hfits.
  { pose proof (reply_fits_fresh s1 Hroom) as Hf. unfold reply_fits in *.
    destruct (Z.eqb_spec id CS_PING) as [->|]; [exact Hf|done]. }
  rewrite Hfits in Hparse. destruct Hparse as (s2 & w2 & E2 & Hfd2 & Hs2).
  exists s2, w2. rewrite E2.
  destruct (exec_parse_streams _ _ _ _ _ fd E2) as (Hsent2 & Hpend2).
  unfold set_connectors. cbn [connectors_ ct_epoll_fd ct_running ct_stop]. rewrite insert_insert_eq.
  split; [done|]. split; [by apply (served_insert t)|].
  split; [by rewrite Hpend2|]. by rewrite Hsent2.
Qed.

(** C2. A client that connects and sends a ping of at most 30 bytes is answered, when the
    first read of its connection takes the whole ping: [feed_stream] is what
    that read takes, according to how the bytes arrive (when it takes only a part of
    a frame, the behaviour is undefined, as [exec_parse_refines_frames] has it).
    The readable connection has the reply frame, and nothing else, in its send
    buffer, what was read behind the ping waits in its receive buffer, and nothing
    was sent yet.  When it becomes writable, whatever happened in between,
    exactly the bytes of the reply are sent and nothing is left to send, unless a
    [send] fails: then the connection is closed (or its error has no text). *)
Theorem ping_is_answered fuel ev1 t fd payload more r w w1 :
  fresh_connection t fd → readable ev1 fd → zlen payload ≤ 24 → 106 ≤ Z.of_nat fuel →
  feed_stream fd SOCKET_INPUT_SIZE 0 [] w = Ok ((r, Some (frame CS_PING payload ++ more)), w1) →
  0 < r →
  ∃ s1 w2, let t1 := set_connectors t (<[fd := mkConnector (Some s1)]> (connectors_ t)) in
    on_event fuel ev1 t w = Ok (t1, w2) ∧
    served t1 fd s1 more (frame SC_RET_PING (packet_bytes (PSC_RetPing ping_reply))) ∧
    sent w2 fd = sent w fd ∧ pending w fd = frame CS_PING payload ++ more ++ pending w2 fd ∧
    ∀ ev2 w3, writable_only ev2 fd →
      (∃ s2 w4, let t2 := set_connectors t (<[fd := mkConnector (Some s2)]> (connectors_ t)) in
         on_event fuel ev2 t1 w3 = Ok (t2, w4) ∧
         sent w4 fd = sent w3 fd ++ frame SC_RET_PING (packet_bytes (PSC_RetPing ping_reply)) ∧
         served t2 fd s2 more []) ∨
      (∃ bs w4 w5, sys_send fd bs w4 = (None, w5) ∧
         closed_for_error t1 fd w5 (on_event fuel ev2 t1 w3)).
Proof.
  intros Ht Hr Hl Hf Efeed Hpos.
  pose proof (fresh_event fuel ev1 t fd w _ _ w1 Ht Hr Efeed Hpos) as Hev.
  rewrite parse_frame_frame in Hev by first [reflexivity | unfold INT_MAX; lia].
  destruct Hev as (s1 & w2 & E1 & Hs1 & Hpend & Hsent).
  assert (Hrep : reply CS_PING = frame SC_RET_PING (packet_bytes (PSC_RetPing ping_reply))) by done.
  rewrite Hrep in Hs1. pose proof packet_bytes_ping_reply as Hb.
  exists s1, w2. cbv zeta. split; [done|]. split; [done|]. split; [done|]. split.
  { destruct (feed_stream_moved fd SOCKET_INPUT_SIZE 0 [] w _ _ w1 ltac:(lia) ltac:(done) Efeed)
      as [(bs & Hbs & Hp & _)|[? _]]; [|lia].
    specialize (Hbs _ eq_refl). rewrite app_nil_l in Hbs. by rewrite Hp, <- Hbs, Hpend, <- app_assoc. }
  intros ev2 w3 (Hfd2 & Hin2 & Hout2). unfold on_event.
  apply Z.eqb_eq in Hin2. apply Z.eqb_neq in Hout2. rewrite Hin2, Hout2, Hfd2. cbn [negb].
  destruct (exec_write_spec fuel _ fd s1 _ _ w3 Hs1) as
    [(s2 & w4 & E2 & Hsent2 & Hid & Hs2)|(bs & w4 & w5 & Hsend & Hc)]; [rewrite zlen_frame; lia|left|right].
  - exists s2, w4. rewrite E2. unfold set_connectors. cbn [connectors_ ct_epoll_fd ct_running ct_stop].
    rewrite insert_insert_eq. split; [done|]. split; [done|]. by apply (served_insert t).
  - by exists bs, w4, w5.
Qed.
End server.

(** ** On a calm host *)
Section calm_server.
Context {W : Type} `{CalmHost W, MessageLibLaws, !PbLaws}.
Implicit Types (t : ConnectorThread Socket) (w : W).
#[local] Abbreviation served := (ConnectorThread.served (W := W)).

(** The first readiness event of a connection, on a calm host: the bytes
    the parser sees are the first 30 of the stream, however many were sent.
    If they start with a whole frame of a known identifier, it is answered in
    the send queue; if they do not, the behaviour is undefined for the reason
    the parser gives. *)
Lemma fresh_epollin fuel ev t fd w :
  fresh_connection t fd → calm w → readable ev fd → pending w fd ≠ [] →
  zlen (pending w fd) + 17 ≤ SOCKET_INPUT_MAXSIZE →
  match parse_frame (take 30 (pending w fd)) with
  | Malformed u => on_event fuel ev t w = Undefined u
  | Frame id payload rest => ∃ s' w',
      on_event fuel ev t w =
        Ok (set_connectors t (<[fd := mkConnector (Some s')]> (connectors_ t)), w') ∧
      served (set_connectors t (<[fd := mkConnector (Some s')]> (connectors_ t))) fd s'
        rest (reply id) ∧
      pending w' fd = drop 30 (pending w fd) ∧ sent w' fd = sent w fd
  end.
Proof.
  intros Ht Hw Hr Hp Hmax.
  assert (0 < zlen (pending w fd)) by (destruct (pending w fd); [done|rewrite zlen_cons; zlia]).
  destruct (feed_stream_calm fd SOCKET_INPUT_SIZE [] w Hw) as (w1 & E & _ & Hp1);
    [done|done|si_lia|].
  change (SOCKET_INPUT_SIZE - 1 - zlen []) with 15 in *. change (Z.to_nat (2 * 15)) with 30%nat in *.
  simpl in E. pose proof (fresh_event fuel ev t fd w _ _ w1 Ht Hr E ltac:(lia)) as Hev.
  by rewrite Hp1 in Hev.
Qed.

(** C39. A first frame of more than 30 bytes, of an identifier that is known, is never
    received whole, even when the kernel has it all before the event (and at most
    1 MiB less 17 bytes): the read stops at 30 bytes, the parser fetches a content
    that is not there, and the indeterminate bytes of its array are read. *)
Theorem long_first_frame_undefined fuel ev t fd id payload more w :
  fresh_connection t fd → calm w → readable ev fd → known_id id = true →
  pending w fd = frame id payload ++ more → 24 < zlen payload →
  zlen (pending w fd) + 17 ≤ SOCKET_INPUT_MAXSIZE →
  on_event fuel ev t w = Undefined UninitRead.
Proof.
  intros Ht Hw Hr Hid Hp Hl Hmax.
  assert (Hmax' : zlen payload + 23 ≤ 1024 * 1024).
  { unfold SOCKET_INPUT_MAXSIZE in Hmax. rewrite Hp, zlen_app, zlen_frame in Hmax.
    zlen_facts. lia. }
  assert (Hne : pending w fd ≠ []).
  { rewrite Hp. intros En. apply (f_equal zlen) in En.
    rewrite zlen_app, zlen_frame, zlen_nil in En. zlen_facts. lia. }
  pose proof (fresh_epollin fuel ev t fd w Ht Hw Hr Hne Hmax) as Hev.
  rewrite Hp, parse_short_frame in Hev; [done|done|unfold INT_MAX; lia|lia|lia].
Qed.
End calm_server.
