(* ===== verification/ThreadPool.v ===== *)
(** * The thread pool: [common/thread/thread_pool.h]

    [Queue] is a FIFO whose operations hold a mutex; the workers of a
    [ThreadPool] poll it until [stop_] is set.  [pool_step] interleaves the
    threads at the granularity of those critical sections, of the reads of the
    atomic [stop_] and of the completion of a task. *)
From S2P Require Import Prelude.
From stdpp Require Import base numbers list option relations.
From Stdlib Require Import ZArith Lia.
Open Scope Z_scope.

(** ** [Queue] *)
Section queue.
Context {T : Type}.
Implicit Types q : list T.

(** [queue_], front first. *)
Definition Queue_push (t : T) q : list T := q ++ [t].
(** [pop(&t)]: whether there was an element, and the element. *)
Definition Queue_pop q : option T * list T :=
  match q with
  | [] => (None, [])
  | t :: q => (Some t, q)
  end.
End queue.

(** ** [ThreadPool] *)
(** Where a worker is: about to test [stop_], about to pop, running the task it
    popped, or finished. *)
Inductive worker (T : Type) := Testing | Polling | Running (t : T) | Exited.
Arguments Testing {T}.
Arguments Polling {T}.
Arguments Running {T} _.
Arguments Exited {T}.

(** [started] and [finished] record the tasks in the order their calls began
    and returned; [pushed] those given to [push]. *)
Record ThreadPool (T : Type) := mkThreadPool {
  q_ : list T;
  thread_list_ : list (worker T);
  pool_stop_ : bool;
  pushed : list T;
  started : list T;
  finished : list T;
}.
Arguments mkThreadPool {T} _ _ _ _ _ _.
Arguments q_ {T} _.
Arguments thread_list_ {T} _.
Arguments pool_stop_ {T} _.
Arguments pushed {T} _.
Arguments started {T} _.
Arguments finished {T} _.

Section pool.
Context {T : Type}.
Implicit Types p : ThreadPool T.

(** The constructor: [thread_count] workers (none for a count below 1). *)
Definition ThreadPool_new (thread_count : Z) : ThreadPool T :=
  mkThreadPool [] (replicate (Z.to_nat thread_count) Testing) false [] [] [].

Definition ThreadPool_push (t : T) p : ThreadPool T :=
  mkThreadPool (Queue_push t (q_ p)) (thread_list_ p) (pool_stop_ p)
    (pushed p ++ [t]) (started p) (finished p).

(** One step of a worker: [while (!stop_) { if (q_.pop(&f)) { f(); continue; }
    yield(); }]. *)
Definition worker_step (i : nat) p : option (ThreadPool T) :=
  let set w := <[i := w]> (thread_list_ p) in
  match thread_list_ p !! i with
  | Some Testing =>
      let w := if pool_stop_ p then Exited else Polling in
      Some (mkThreadPool (q_ p) (set w) (pool_stop_ p) (pushed p) (started p) (finished p))
  | Some Polling =>
      match Queue_pop (q_ p) with
      | (Some f, q) =>
          Some (mkThreadPool q (set (Running f)) (pool_stop_ p) (pushed p)
                  (started p ++ [f]) (finished p))
      | (None, q) =>
          Some (mkThreadPool q (set Testing) (pool_stop_ p) (pushed p) (started p) (finished p))
      end
  | Some (Running f) =>
      Some (mkThreadPool (q_ p) (set Testing) (pool_stop_ p) (pushed p) (started p)
              (finished p ++ [f]))
  | Some Exited | None => None
  end.

(** The destructor: [stop_] is set, and then every worker is joined, which
    takes as long as one of them has not exited. *)
Definition ThreadPool_stop p : ThreadPool T :=
  mkThreadPool (q_ p) (thread_list_ p) true (pushed p) (started p) (finished p).
Definition ThreadPool_joined p : bool :=
  forallb (λ w, match w with Exited => true | _ => false end) (thread_list_ p).

Inductive pool_step : ThreadPool T → ThreadPool T → Prop :=
| step_push t p : pool_step p (ThreadPool_push t p)
| step_worker i p p' : worker_step i p = Some p' → pool_step p p'
| step_stop p : pool_step p (ThreadPool_stop p).

(** A run of workers, in the order of the list. *)
Fixpoint run_workers (ids : list nat) p : option (ThreadPool T) :=
  match ids with
  | [] => Some p
  | i :: ids => p ← worker_step i p; run_workers ids p
  end.

Definition running (ws : list (worker T)) : list T :=
  ws ≫= λ w, match w with Running t => [t] | _ => [] end.

(** ** Properties *)
Definition pool_inv p : Prop :=
  pushed p = started p ++ q_ p ∧ started p ≡ₚ finished p ++ running (thread_list_ p) ∧
  (pool_stop_ p = false → Forall (λ w, w ≠ Exited) (thread_list_ p)).

Lemma running_set i (ws : list (worker T)) w w' :
  ws !! i = Some w → running ws ++ running [w'] ≡ₚ running [w] ++ running (<[i := w']> ws).
Proof.
  intros Hi. rewrite <- (take_drop_middle ws i w Hi) at 1.
  rewrite insert_take_drop by (by eapply lookup_lt_Some).
  unfold running. rewrite !bind_app, !bind_cons. destruct w, w'; simpl; solve_Permutation.
Qed.

Lemma pool_step_inv p p' : pool_inv p → pool_step p p' → pool_inv p'.
Proof.
  intros (Hq & Hr & Hs) Hstep. destruct Hstep as [t p|i p p' E|p].
  - split; [simpl; unfold Queue_push; by rewrite Hq, app_assoc|]. by split.
  - unfold worker_step in E. destruct (thread_list_ p !! i) as [[| |t|]|] eqn:Hi; try done.
    + injection E as <-. simpl. split; [done|].
      pose proof (running_set i _ _ (if pool_stop_ p then Exited else Polling) Hi) as Hset.
      split.
      * simpl. rewrite Hr. f_equiv. revert Hset. destruct (pool_stop_ p); simpl;
          by rewrite app_nil_r.
      * simpl. intros E. specialize (Hs E). rewrite E. apply Forall_insert; done.
    + destruct (q_ p) as [|f q] eqn:Eq; simpl in E; injection E as <-; simpl.
      * split; [by rewrite Hq|].
        pose proof (running_set i _ _ Testing Hi) as Hset. simpl in Hset.
        rewrite app_nil_r in Hset. split; [simpl; by rewrite Hr, Hset|].
        intros E. apply Forall_insert; [by apply Hs|done].
      * split; [simpl; by rewrite Hq, <- app_assoc|].
        pose proof (running_set i _ _ (Running f) Hi) as Hset. simpl in Hset.
        split; [simpl; by rewrite Hr, <- app_assoc, Hset|].
        intros E. apply Forall_insert; [by apply Hs|done].
    + injection E as <-. simpl. split; [done|].
      pose proof (running_set i _ _ Testing Hi) as Hset. simpl in Hset.
      rewrite app_nil_r in Hset.
      split; [simpl; rewrite Hr, <- app_assoc; by rewrite Hset|].
      intros E. apply Forall_insert; [by apply Hs|done].
  - split; [done|]. split; [done|]. simpl. done.
Qed.

Lemma pool_new_inv n : pool_inv (ThreadPool_new n).
Proof.
  split; [done|]. split.
  - simpl. induction (Z.to_nat n); [done|]. simpl. done.
  - intros _. simpl. by apply Forall_replicate.
Qed.

Lemma pool_reachable_inv n p : rtc pool_step (ThreadPool_new n) p → pool_inv p.
Proof.
  intros Hr. assert (Hg : ∀ p0, rtc pool_step p0 p → pool_inv p0 → pool_inv p).
  { clear Hr. intros p0 Hr. induction Hr as [|p1 p2 p3 Hs _ IH]; [done|].
    intros Hi. apply IH. by eapply pool_step_inv. }
  apply (Hg _ Hr), pool_new_inv.
Qed.

(** C33. In every interleaving of pushes, workers and the stop: the tasks
    whose execution began are exactly a prefix of those pushed, in the order
    of the pushes (first in, first out, none lost, none run twice), the rest
    is in the queue, and each task that began has returned or is being run by
    one worker. *)
Theorem pool_runs_each_task_once n p :
  rtc pool_step (ThreadPool_new n) p →
  pushed p = started p ++ q_ p ∧
  started p ≡ₚ finished p ++ running (thread_list_ p).
Proof. intros Hr. by destruct (pool_reachable_inv n p Hr) as (? & ? & _). Qed.

(** How many more steps a worker makes once [stop_] is set. *)
Definition worker_left (w : worker T) : nat :=
  match w with Exited => 0 | Testing => 1 | Running _ => 2 | Polling => 3 end.
Definition steps_left p : nat := sum_list_with worker_left (thread_list_ p).

Lemma sum_insert (ws : list (worker T)) i w w' :
  ws !! i = Some w →
  (sum_list_with worker_left (<[i := w']> ws) + worker_left w =
   sum_list_with worker_left ws + worker_left w')%nat.
Proof.
  intros Hi. rewrite <- (take_drop_middle ws i w Hi) at 2.
  rewrite insert_take_drop by (by eapply lookup_lt_Some).
  rewrite !sum_list_with_app. simpl. lia.
Qed.

Lemma worker_step_left i p p' :
  pool_stop_ p = true → worker_step i p = Some p' →
  pool_stop_ p' = true ∧ (steps_left p' < steps_left p)%nat.
Proof.
  intros Hs E. unfold worker_step, steps_left in *.
  destruct (thread_list_ p !! i) as [[| |t|]|] eqn:Hi; try done.
  - injection E as <-. rewrite Hs. pose proof (sum_insert _ _ _ Exited Hi). simpl in *.
    split; [done|lia].
  - destruct (q_ p) as [|f q]; simpl in E; injection E as <-.
    + pose proof (sum_insert _ _ _ Testing Hi). simpl in *.
    split; [done|lia].
    + pose proof (sum_insert _ _ _ (Running f) Hi). simpl in *.
    split; [done|lia].
  - injection E as <-. pose proof (sum_insert _ _ _ Testing Hi). simpl in *.
    split; [done|lia].
Qed.

Lemma joined_no_step p i : ThreadPool_joined p = true → worker_step i p = None.
Proof.
  unfold ThreadPool_joined, worker_step. intros Hj.
  destruct (thread_list_ p !! i) as [w|] eqn:E; [|done].
  rewrite forallb_forall in Hj.
  specialize (Hj w ltac:(by apply list_elem_of_In, (list_elem_of_lookup_2 _ i))).
  by destruct w.
Qed.

Lemma forallb_false (f : worker T → bool) ws :
  forallb f ws = false → ∃ i w, ws !! i = Some w ∧ f w = false.
Proof.
  induction ws as [|w ws IH]; simpl; [done|]. intros E.
  destruct (f w) eqn:Ef; [|by exists 0%nat, w].
  destruct (IH E) as (i & w' & Hi & Hw). by exists (S i), w'.
Qed.

Lemma not_joined_step p : ThreadPool_joined p = false → ∃ i p', worker_step i p = Some p'.
Proof.
  intros Hj. apply forallb_false in Hj as (i & w & Hi & Hw). exists i. unfold worker_step.
  rewrite Hi.
  destruct w as [| |t|]; [by eexists| |by eexists|done].
  destruct (Queue_pop (q_ p)) as [[f|] q]; by eexists.
Qed.

(** C34. The destructor returns, if the tasks that are running do: once [stop_] is
    set, however the workers are scheduled, they make at most three steps for each
    worker in total, and as long as one has not exited some worker can step. *)
Theorem pool_stop_terminates p ids p' :
  pool_stop_ p = true → run_workers ids p = Some p' →
  (length ids ≤ 3 * length (thread_list_ p))%nat ∧
  (ThreadPool_joined p' = false → ∃ i p'', worker_step i p' = Some p'').
Proof.
  intros Hs E. split; [|apply not_joined_step].
  assert (Hb : (length ids ≤ steps_left p)%nat).
  { revert p Hs E. induction ids as [|i ids IH]; intros p Hs E; simpl in *; [lia|].
    destruct (worker_step i p) as [p1|] eqn:E1; [|done]. simpl in E.
    destruct (worker_step_left i p p1 Hs E1) as [Hs1 Hl]. specialize (IH p1 Hs1 E). lia. }
  assert (Hm : (steps_left p ≤ 3 * length (thread_list_ p))%nat).
  { unfold steps_left. induction (thread_list_ p) as [|[] ws IH]; simpl; lia. }
  lia.
Qed.

(** What the destructor leaves undone: when every worker has exited, each
    task that began has returned, and the tasks still queued never run (no
    worker has a step left). *)
Theorem pool_stop_drops_queue n p :
  rtc pool_step (ThreadPool_new n) p → ThreadPool_joined p = true →
  finished p ≡ₚ started p ∧ pushed p = started p ++ q_ p ∧ ∀ i, worker_step i p = None.
Proof.
  intros Hr Hj. destruct (pool_reachable_inv n p Hr) as (Hq & Hp & _).
  split; [|split; [done|intros i; by apply joined_no_step]].
  assert (running (thread_list_ p) = []) as E; [|by rewrite Hp, E, app_nil_r].
  unfold ThreadPool_joined in Hj. revert Hj. generalize (thread_list_ p). clear.
  induction l as [|[] ws IH]; simpl; auto; done.
Qed.
End pool.
