(* ===== verification/Interleave.v ===== *)
(** * The listening thread and a connector thread, interleaved

    [accept_connector] runs in the listening thread, everything else of a
    [ConnectorThread] in its own; they share the map of connections, under a
    mutex, and the kernel's descriptors.  The steps are the critical sections
    and the calls between them; what a connection does with its bytes is
    abstracted to whether the object has been read from.  Objects (the
    [Connector]s behind the shared pointers) have an identity, so that a pointer
    copied out of the map can be told from the one stored there later. *)
From S2P Require Import Prelude.
From stdpp Require Import base numbers list option gmap sets relations.
From Stdlib Require Import ZArith Lia.
Open Scope Z_scope.

(** A [Connector] object: its descriptor (-1 once closed), and whether a read
    of it ever returned bytes. *)
Record object := mkObject { obj_fd : Z; obj_read : bool }.

(** Where the listening thread is: in [accept], about to create the object, or
    about to take the lock and insert it. *)
Inductive listener_pc := LIdle | LAccepted (fd : Z) | LCreated (fd : Z) (o : nat).

(** Where the loop thread is in the handling of a readable descriptor: [exec_read]
    before its look-up, in [recv] with the pointer it copied, about to enter
    [delete_connector], and the same for [exec_parse], where the pointer that
    was read is kept for the statement of the race; or of another event:
    in [send] with the pointer [exec_write] copied, or about to enter
    [delete_connector]; or inside [delete_connector], holding the mutex, between
    the close of the descriptor and the erasure of its entry ([after]: the
    connection that was read, when [exec_parse] follows). *)
Inductive loop_pc :=
  | PIdle
  | PRead (fd : Z)
  | PReading (fd : Z) (o : nat)
  | PDelete (fd : Z) (o : nat)
  | PParse (fd : Z) (was_read : option nat)
  | PParsing (fd : Z) (was_read : option nat) (o : nat)
  | PWriting (fd : Z) (o : nat)
  | PDrop (fd : Z)
  | PErasing (fd : Z) (after : option nat).

Record shared := mkShared {
  open_fds : gset Z;               (** descriptors of connections, in the kernel *)
  objects : gmap nat object;
  map_ : gmap Z nat;               (** [connectors_] *)
  next_obj : nat;
  listener : listener_pc;
  loop_ : loop_pc;
}.
Definition shared_init : shared := mkShared ∅ ∅ ∅ 0 LIdle PIdle.

(** The descriptor whose entry is being erased; the loop thread then holds the
    mutex. *)
Definition erasing (pc : loop_pc) : option Z :=
  match pc with PErasing fd _ => Some fd | _ => None end.

(** [accept] (the kernel gives a descriptor that is not in use), the first part
    of [accept_connector] and its critical section, which waits for the mutex. *)
Inductive listener_step : shared → shared → Prop :=
  | l_accept fd s :
      listener s = LIdle → fd ∉ open_fds s → 0 ≤ fd →
      listener_step s (mkShared ({[fd]} ∪ open_fds s) (objects s) (map_ s) (next_obj s)
                         (LAccepted fd) (loop_ s))
  | l_create fd s :
      listener s = LAccepted fd →
      listener_step s (mkShared (open_fds s) (<[next_obj s := mkObject fd false]> (objects s))
                         (map_ s) (S (next_obj s)) (LCreated fd (next_obj s)) (loop_ s))
  | l_insert fd o s :
      listener s = LCreated fd o → erasing (loop_ s) = None →
      listener_step s (mkShared (open_fds s) (objects s) (<[fd := o]> (map_ s)) (next_obj s)
                         LIdle (loop_ s)).

(** [delete_connector] up to its erasure: it enters its critical section and, if
    the descriptor has a connection, closes the descriptor; else it returns. *)
Definition closed (fd : Z) (after : option nat) (s : shared) (pc : loop_pc) : shared :=
  match map_ s !! fd with
  | Some o =>
      mkShared (match objects s !! o with
                | Some c => open_fds s ∖ {[obj_fd c]} | None => open_fds s end)
        (alter (λ c, mkObject (-1) (obj_read c)) o (objects s))
        (map_ s) (next_obj s) (listener s) (PErasing fd after)
  | None => mkShared (open_fds s) (objects s) (map_ s) (next_obj s) (listener s) pc
  end.

(** The rest of [delete_connector]: the entry leaves the map, and the mutex is
    released. *)
Definition erased (fd : Z) (s : shared) (pc : loop_pc) : shared :=
  mkShared (open_fds s) (objects s) (delete fd (map_ s)) (next_obj s) (listener s) pc.

(** An [EPOLLIN] event: [exec_read], then [exec_parse]; an [EPOLLOUT] event:
    [exec_write]; an [EPOLLHUP] or [EPOLLERR] event: [delete_connector]. *)
Inductive loop_step : shared → shared → Prop :=
  | p_event fd s :
      loop_ s = PIdle →
      loop_step s (mkShared (open_fds s) (objects s) (map_ s) (next_obj s) (listener s) (PRead fd))
  | p_lookup fd s :
      loop_ s = PRead fd →
      loop_step s (mkShared (open_fds s) (objects s) (map_ s) (next_obj s) (listener s)
                     (match map_ s !! fd with Some o => PReading fd o | None => PParse fd None end))
  | p_received fd o c s :
      loop_ s = PReading fd o → objects s !! o = Some c →
      loop_step s (mkShared (open_fds s) (<[o := mkObject (obj_fd c) true]> (objects s)) (map_ s)
                     (next_obj s) (listener s) (PParse fd (Some o)))
  | p_failed fd o s :
      loop_ s = PReading fd o →
      loop_step s (mkShared (open_fds s) (objects s) (map_ s) (next_obj s) (listener s)
                     (PDelete fd o))
  | p_delete fd o s :
      loop_ s = PDelete fd o →
      loop_step s (closed fd (Some o) s (PParse fd (Some o)))
  | p_erase fd after s :
      loop_ s = PErasing fd after →
      loop_step s (erased fd s (match after with Some o => PParse fd (Some o) | None => PIdle end))
  | p_parse fd r s :
      loop_ s = PParse fd r →
      loop_step s (mkShared (open_fds s) (objects s) (map_ s) (next_obj s) (listener s)
                     (match map_ s !! fd with Some o => PParsing fd r o | None => PIdle end))
  | p_parsed fd r o s :
      loop_ s = PParsing fd r o →
      loop_step s (mkShared (open_fds s) (objects s) (map_ s) (next_obj s) (listener s) PIdle)
  | p_writable fd s :
      loop_ s = PIdle →
      loop_step s (mkShared (open_fds s) (objects s) (map_ s) (next_obj s) (listener s)
                     (match map_ s !! fd with Some o => PWriting fd o | None => PIdle end))
  | p_sent fd o s :
      loop_ s = PWriting fd o →
      loop_step s (mkShared (open_fds s) (objects s) (map_ s) (next_obj s) (listener s) PIdle)
  | p_send_failed fd o s :
      loop_ s = PWriting fd o →
      loop_step s (mkShared (open_fds s) (objects s) (map_ s) (next_obj s) (listener s) (PDrop fd))
  | p_hangup fd s :
      loop_ s = PIdle →
      loop_step s (mkShared (open_fds s) (objects s) (map_ s) (next_obj s) (listener s) (PDrop fd))
  | p_drop fd s :
      loop_ s = PDrop fd →
      loop_step s (closed fd None s PIdle).

Definition shared_step (s s' : shared) : Prop := listener_step s s' ∨ loop_step s s'.
Definition reachable (s : shared) : Prop := rtc shared_step shared_init s.

(** The pointers the loop holds between two critical sections. *)
Definition points (pc : loop_pc) (fd : Z) (o : nat) : Prop :=
  pc = PReading fd o ∨ pc = PDelete fd o ∨ pc = PWriting fd o.

(** ** The invariant *)
Record shared_inv (s : shared) : Prop := {
  inv_map fd o : map_ s !! fd = Some o → erasing (loop_ s) ≠ Some fd →
    fd ∈ open_fds s ∧ ∃ c, objects s !! o = Some c ∧ obj_fd c = fd;
  inv_listener fd : listener s = LAccepted fd →
    fd ∈ open_fds s ∧ (map_ s !! fd = None ∨ erasing (loop_ s) = Some fd);
  inv_created fd o : listener s = LCreated fd o →
    fd ∈ open_fds s ∧ (map_ s !! fd = None ∨ erasing (loop_ s) = Some fd) ∧ objects s !! o = Some (mkObject fd false);
  inv_created_fresh fd o fd' : listener s = LCreated fd o → map_ s !! fd' ≠ Some o;
  inv_next o c : objects s !! o = Some c → (o < next_obj s)%nat;
  inv_stored fd o : map_ s !! fd = Some o → is_Some (objects s !! o);
  inv_loop fd o : points (loop_ s) fd o → map_ s !! fd = Some o;
  inv_inj fd fd' o : map_ s !! fd = Some o → map_ s !! fd' = Some o → fd = fd';
}.

Lemma shared_init_inv : shared_inv shared_init.
Proof. constructor; simpl; try done; by intros ?? [?|[?|?]]. Qed.

Lemma listener_step_inv s s' : shared_inv s → listener_step s s' → shared_inv s'.
Proof.
  intros Hi Hstep. destruct Hstep as [fd s El Hfd Hpos|fd s El|fd o s El Hfree].
  - constructor; simpl; try done; try apply Hi.
    + intros fd' o E Hne. destruct (inv_map s Hi fd' o E Hne). split; [set_solver|done].
    + intros fd' [= <-]. split; [set_solver|].
      destruct (map_ s !! fd) as [o|] eqn:E; [right|by left].
      destruct (decide (erasing (loop_ s) = Some fd)) as [|Hne]; [done|].
      by destruct (inv_map s Hi fd o E Hne).
  - destruct (inv_listener s Hi fd El) as [Hopen Hnone].
    assert (Hfresh : objects s !! next_obj s = None).
    { destruct (objects s !! next_obj s) as [c|] eqn:E; [|done].
      pose proof (inv_next s Hi _ _ E). lia. }
    constructor; simpl; try done; try apply Hi.
    + intros fd' o E Hne. destruct (inv_map s Hi fd' o E Hne) as [? (c & Hc & ?)]. split; [done|].
      exists c. split; [|done]. rewrite lookup_insert_ne by congruence. done.
    + intros fd' o [= <- <-]. split_and!; try done. by rewrite lookup_insert_eq.
    + intros fd' o fd'' [= <- <-] E. destruct (inv_stored s Hi _ _ E). congruence.
    + intros o c. rewrite lookup_insert_Some. intros [[<- _]|[_ E]]; [lia|].
      pose proof (inv_next s Hi _ _ E). lia.
    + intros fd' o E. apply lookup_insert_is_Some'. right. by apply (inv_stored s Hi fd').
  - destruct (inv_created s Hi fd o El) as (Hopen & [Hnone|?] & Hobj); [|congruence].
    constructor; simpl; try done; try apply Hi.
    + intros fd' o'. rewrite lookup_insert_Some. intros [[<- <-]|[_ E]]; [|by apply (inv_map s Hi)].
      intros _. split; [done|]. by eexists.
    + intros fd' o'. rewrite lookup_insert_Some.
      intros [[<- <-]|[_ E]]; [by eexists|by apply (inv_stored s Hi fd')].
    + intros fd' o' E. rewrite lookup_insert_ne; [by apply (inv_loop s Hi)|].
      intros <-. pose proof (inv_loop s Hi _ _ E). congruence.
    + intros fd1 fd2 o'. rewrite !lookup_insert_Some.
      pose proof (inv_created_fresh s Hi fd o) as Hf.
      intros [[<- <-]|[_ E1]] [[<- E]|[_ E2]]; try done.
      * by destruct (Hf fd2 El).
      * subst. by destruct (Hf fd1 El).
      * by apply (inv_inj s Hi _ _ o').
Qed.

(** A step of the loop that only moves its own position, outside
    [delete_connector], keeps the invariant if the new position does. *)
Lemma inv_move s pc :
  shared_inv s → erasing (loop_ s) = None → erasing pc = None →
  (∀ fd o, points pc fd o → map_ s !! fd = Some o) →
  shared_inv (mkShared (open_fds s) (objects s) (map_ s) (next_obj s) (listener s) pc).
Proof. intros [] He He' Hpc. rewrite He in *. constructor; simpl; rewrite ?He'; done. Qed.

Lemma inv_closed s fd after pc :
  shared_inv s → erasing (loop_ s) = None → erasing pc = None → (∀ fd o, ¬ points pc fd o) →
  shared_inv (closed fd after s pc).
Proof.
  intros Hi He He' Hpc. unfold closed. destruct (map_ s !! fd) as [o|] eqn:Em.
  2: { apply inv_move; try done. intros fd' o' Hp. by destruct (Hpc fd' o'). }
  destruct (inv_map s Hi fd o Em) as [Hopen (c & Ec & Hfd)]; [congruence|]. rewrite Ec.
  constructor; simpl; try apply Hi.
  - intros fd' o' E Hne. destruct (inv_map s Hi fd' o' E) as [? (c1 & Hc1 & ?)]; [congruence|].
    assert (fd' ≠ fd) by congruence. split; [set_solver|].
    assert (o ≠ o') by (intros <-; by pose proof (inv_inj s Hi _ _ o E Em)).
    exists c1. by rewrite lookup_alter_ne.
  - intros fd' E. destruct (inv_listener s Hi fd' E) as [? [Hn|?]]; [|congruence].
    assert (fd' ≠ fd) by congruence. split; [set_solver|by left].
  - intros fd' o' E. destruct (inv_created s Hi fd' o' E) as (? & [Hn|?] & Ho); [|congruence].
    assert (fd' ≠ fd) by congruence. split; [set_solver|]. split; [by left|].
    rewrite lookup_alter_ne; [done|]. intros <-. by destruct (inv_created_fresh s Hi fd' o fd E).
  - intros o' c1 E. assert (is_Some (objects s !! o')) as [c2 E2].
    { destruct (decide (o = o')) as [->|]; [by eexists|]. rewrite lookup_alter_ne in E by done. by eexists. }
    by apply (inv_next s Hi o' c2).
  - intros fd' o' E. apply lookup_alter_is_Some. by apply (inv_stored s Hi fd').
  - unfold points. naive_solver.
Qed.

Lemma inv_erased s fd pc :
  shared_inv s → erasing (loop_ s) = Some fd → erasing pc = None →
  (∀ fd o, ¬ points pc fd o) → shared_inv (erased fd s pc).
Proof.
  intros Hi He He' Hpc. constructor; simpl; rewrite ?He'.
  - intros fd' o'. rewrite lookup_delete_Some. intros [Hne E] _.
    apply (inv_map s Hi); congruence.
  - intros fd' E. destruct (inv_listener s Hi fd' E) as [? Hn]. split; [done|left].
    apply lookup_delete_None. destruct Hn; [by right|left; congruence].
  - intros fd' o' E. destruct (inv_created s Hi fd' o' E) as (? & Hn & ?). split_and!; try done.
    left. apply lookup_delete_None. destruct Hn; [by right|left; congruence].
  - intros fd' o' fd'' E. rewrite lookup_delete_Some. intros [_ Hm].
    by destruct (inv_created_fresh s Hi fd' o' fd'' E).
  - apply Hi.
  - intros fd' o'. rewrite lookup_delete_Some. intros [_ E]. by apply (inv_stored s Hi fd').
  - intros fd' o' Hp. by destruct (Hpc fd' o').
  - intros fd1 fd2 o'. rewrite !lookup_delete_Some. intros [_ E1] [_ E2].
    by apply (inv_inj s Hi _ _ o').
Qed.

(** A read that returns bytes marks the object only. *)
Lemma inv_received s fd o c pc :
  shared_inv s → map_ s !! fd = Some o → objects s !! o = Some c →
  erasing (loop_ s) = None → erasing pc = None → (∀ fd o, ¬ points pc fd o) →
  shared_inv (mkShared (open_fds s) (<[o := mkObject (obj_fd c) true]> (objects s)) (map_ s)
                (next_obj s) (listener s) pc).
Proof.
  intros Hi Em Ec He He' Hpc. constructor; simpl; rewrite ?He'; rewrite <- ?He; try apply Hi.
  - intros fd' o' E Hne. destruct (inv_map s Hi fd' o' E Hne) as [? (c1 & Hc1 & ?)]. split; [done|].
    destruct (decide (o = o')) as [->|]; [|exists c1; by rewrite lookup_insert_ne].
    exists (mkObject (obj_fd c) true). rewrite lookup_insert_eq. split; [done|]. simpl. congruence.
  - intros fd' o' E. destruct (inv_created s Hi fd' o' E) as (? & ? & Ho).
    split_and!; try done. rewrite lookup_insert_ne; [done|].
    intros <-. by destruct (inv_created_fresh s Hi fd' o fd E).
  - intros o' c1. rewrite lookup_insert_Some. intros [[<- _]|[_ E]]; by eapply (inv_next s Hi).
  - intros fd' o' E. apply lookup_insert_is_Some'. right. by apply (inv_stored s Hi fd').
  - intros fd' o' Hp. by destruct (Hpc fd' o').
Qed.

Lemma loop_step_inv s s' : shared_inv s → loop_step s s' → shared_inv s'.
Proof.
  intros Hi Hstep. pose proof (inv_loop s Hi) as Hl. unfold points in Hl.
  destruct Hstep as [fd s El|fd s El|fd o c s El Ec|fd o s El|fd o s El|fd after s El|fd r s El
                    |fd r o s El|fd s El|fd o s El|fd o s El|fd s El|fd s El];
    try (apply inv_closed; try done; [by rewrite El|unfold points; naive_solver]);
    try (apply inv_move; try done; try (by rewrite El); unfold points; rewrite ?El in *;
         destruct (map_ s !! fd) eqn:Em; naive_solver).
  - apply (inv_received s fd); try done; [apply Hl; by left|by rewrite El|].
    unfold points. naive_solver.
  - apply inv_erased; try done; [by rewrite El| |]; destruct after; try done; unfold points; naive_solver.
Qed.

Lemma reachable_inv s : reachable s → shared_inv s.
Proof.
  intros Hr. assert (Hg : ∀ s0, rtc shared_step s0 s → shared_inv s0 → shared_inv s).
  { clear Hr. intros s0 Hr. induction Hr as [|s1 s2 s3 [Hs|Hs] _ IH]; [done| |]; intros Hi; apply IH.
    - by apply (listener_step_inv s1).
    - by apply (loop_step_inv s1). }
  apply (Hg _ Hr), shared_init_inv.
Qed.

(** ** Properties *)

(** C32. What the mutex buys, in every interleaving: the connection that
    [accept_connector] inserts never replaces another (so that no live
    connection is destroyed by the assignment to the map), every connection of
    the map has its descriptor open, but the one that [delete_connector], which
    then holds the mutex, has closed and is about to erase; no two share a
    descriptor, and a pointer that [exec_read] or [exec_write] copied still is
    the map's when it is used and when the connection is deleted. *)
Theorem map_owns_open_descriptors s :
  reachable s →
  (∀ fd o s', listener s = LCreated fd o → listener_step s s' → map_ s !! fd = None) ∧
  (∀ fd o, map_ s !! fd = Some o → erasing (loop_ s) ≠ Some fd →
     fd ∈ open_fds s ∧ ∃ c, objects s !! o = Some c ∧ obj_fd c = fd) ∧
  (∀ fd fd' o, map_ s !! fd = Some o → map_ s !! fd' = Some o → fd = fd') ∧
  (∀ fd o, points (loop_ s) fd o → map_ s !! fd = Some o).
Proof.
  intros Hr. pose proof (reachable_inv s Hr) as Hi. split_and!; try apply Hi.
  intros fd o s' El Hs. destruct (inv_created s Hi fd o El) as (_ & [?|He] & _); [done|].
  inversion Hs; congruence.
Qed.

(** One step to a state given in its simplest form. *)
Lemma run_step s s1 s2 t :
  shared_step s s1 → s1 = s2 → rtc shared_step s2 t → rtc shared_step s t.
Proof. intros Hs <- Hr. by eapply rtc_l. Qed.

(** The states of the race: the connection 0 of descriptor 5 is served; its
    descriptor is closed; it was deleted; the descriptor was accepted again, as connection 1. *)
Definition race_served (pc : loop_pc) : shared :=
  mkShared {[5]} {[0%nat := mkObject 5 false]} {[5 := 0%nat]} 1 LIdle pc.
Definition race_closed : shared :=
  mkShared ∅ {[0%nat := mkObject (-1) false]} {[5 := 0%nat]} 1 LIdle (PErasing 5 (Some 0%nat)).
Definition race_deleted (l : listener_pc) : shared :=
  mkShared (match l with LIdle => ∅ | _ => {[5]} end)
    (match l with
     | LCreated _ _ => {[0%nat := mkObject (-1) false; 1%nat := mkObject 5 false]}
     | _ => {[0%nat := mkObject (-1) false]} end)
    ∅ (match l with LCreated _ _ => 2 | _ => 1 end) l (PParse 5 (Some 0%nat)).
Definition race_again (pc : loop_pc) : shared :=
  mkShared {[5]} {[0%nat := mkObject (-1) false; 1%nat := mkObject 5 false]} {[5 := 1%nat]} 2
    LIdle pc.

Lemma race_run : reachable (race_again (PParsing 5 (Some 0%nat) 1)).
Proof.
  unfold reachable.
  eapply (run_step _ _ (mkShared {[5]} ∅ ∅ 0 (LAccepted 5) PIdle));
    [left; by apply (l_accept 5)|by vm_compute|].
  eapply (run_step _ _ (mkShared {[5]} {[0%nat := mkObject 5 false]} ∅ 1 (LCreated 5 0) PIdle));
    [left; by apply (l_create 5)|by vm_compute|].
  eapply (run_step _ _ (race_served PIdle)); [left; by apply (l_insert 5 0)|by vm_compute|].
  eapply (run_step _ _ (race_served (PRead 5))); [right; by apply (p_event 5)|done|].
  eapply (run_step _ _ (race_served (PReading 5 0))); [right; by apply (p_lookup 5)|by vm_compute|].
  eapply (run_step _ _ (race_served (PDelete 5 0))); [right; by apply (p_failed 5 0)|done|].
  eapply (run_step _ _ race_closed); [right; by apply (p_delete 5 0)|by vm_compute|].
  eapply (run_step _ _ (race_deleted LIdle));
    [right; by apply (p_erase 5 (Some 0%nat))|by vm_compute|].
  eapply (run_step _ _ (race_deleted (LAccepted 5)));
    [left; by apply (l_accept 5)|by vm_compute|].
  eapply (run_step _ _ (race_deleted (LCreated 5 1))); [left; by apply (l_create 5)|by vm_compute|].
  eapply (run_step _ _ (race_again (PParse 5 (Some 0%nat))));
    [left; by apply (l_insert 5 1)|by vm_compute|].
  eapply (run_step _ _ (race_again (PParsing 5 (Some 0%nat) 1)));
    [right; by apply (p_parse 5 (Some 0%nat))|by vm_compute|].
  apply rtc_refl.
Qed.

(** C40. What the mutex does not cover: [exec_read] and [exec_parse] look the
    descriptor up separately. There is an interleaving in which the read of an
    event fails and its connection is deleted, the listening thread accepts a
    new connection with the same descriptor, and [exec_parse] then parses the
    new connection, from which nothing was ever read (its receive queue is
    empty, which [exec_parse] does not survive). *)
Theorem parse_after_delete_race :
  ∃ s fd o1 o2 c, reachable s ∧ loop_ s = PParsing fd (Some o1) o2 ∧ o1 ≠ o2 ∧
    objects s !! o2 = Some c ∧ obj_fd c = fd ∧ obj_read c = false.
Proof.
  exists (race_again (PParsing 5 (Some 0%nat) 1)), 5, 0%nat, 1%nat, (mkObject 5 false).
  split; [apply race_run|by vm_compute].
Qed.
