(* ===== verification/Listen.v ===== *)
(** * Listening: [listen/*.{h,cpp}], [main_module.{h,cpp}], [common/config/listen_flags.cpp]

    A service opens a socket and an event queue ([init]), starts its loop in a
    thread ([run]) and turns events into accepted connections
    ([TCPListenService]) or received packets ([UDPListenService]);
    [ListenServiceFactory] selects the service by the name in a flag, and
    [main_module_run] puts the parts together.  The threads of [run] are the
    loops given here as functions; [stop_] is read as in
    [ConnectorThread.main_loop]. *)
From S2P Require Import Prelude CMem Kernel SocketInput Log Host Proto Channel Connector.
From S2P Require Import Socket ConnectorThread ConnectorManager ThreadPool.
From stdpp Require Import base numbers list option strings gmap.
From Stdlib Require Import ZArith Lia Strings.Byte.
Open Scope Z_scope.

Definition AF_INET : Z := 2.
Definition SOCK_STREAM : Z := 1.
Definition SOCK_DGRAM : Z := 2.
Definition INADDR_ANY : Z := 0.
Definition O_NONBLOCK : Z := 2048.
Definition EPERM : Z := 1.
Definition EADDRINUSE : Z := 98.

(** The calls of a listening socket.  Results of -1 are failures. *)
Class ListenApi (W : Type) := {
  sys_socket : Z → Z → Z → W → Z * W;
  sys_bind : Z → sockaddr_in → W → Z * W;
  sys_listen : Z → Z → W → Z * W;
  (** [accept]: the descriptor and the address of the peer, or [None] for -1. *)
  sys_accept : Z → W → option (Z * sockaddr_in) * W;
  sys_getfl : Z → W → Z * W;
  sys_setfl : Z → Z → W → Z * W;
  FLAGS_port : W → Z;
  FLAGS_communication_type : W → list byte;
}.

(** ** [ListenService] *)
Record ListenService := mkListenService {
  listen_fd : Z; ls_epoll_fd : Z; ls_stop : bool; ls_running : bool }.
Definition ListenService_new : ListenService := mkListenService invalid_id invalid_id false false.
Definition ListenService_stop (l : ListenService) : ListenService :=
  mkListenService (listen_fd l) (ls_epoll_fd l) true (ls_running l).
(** [run] and [run_logic] start the thread of the loop. *)
Definition ListenService_run_logic (l : ListenService) : ListenService :=
  mkListenService (listen_fd l) (ls_epoll_fd l) (ls_stop l) true.
Definition set_listen_fd (l : ListenService) (fd : Z) : ListenService :=
  mkListenService fd (ls_epoll_fd l) (ls_stop l) (ls_running l).
Definition set_ls_epoll_fd (l : ListenService) (fd : Z) : ListenService :=
  mkListenService (listen_fd l) fd (ls_stop l) (ls_running l).

(** The text for an error of [bind]. *)
Definition bind_error (errno : Z) : String.string :=
  if errno =? EADDRINUSE then "The given address is already in use"%string
  else if errno =? EINVAL then "The socket is already bound to an address."%string
  else "error occured while bind"%string.
(** The [switch] of [accept_connection]. *)
Definition accept_error (errno : Z) : String.string :=
  if errno =? EAGAIN then
    "The socket is marked nonblocking and no connections are present to be accepted"%string
  else if errno =? EBADF then "sockfd is not an open file descriptor"%string
  else if errno =? EFAULT then
    "The addr argument is not in a writable part of the user address space"%string
  else if errno =? EINTR then "The system call was interrupted by a signal"%string
  else if errno =? EINVAL then
    "Socket is not listening for connections, or addrlen is invalid"%string
  else if errno =? ENOMEM then "Not enough free memory"%string
  else if errno =? EPERM then "Firewall rules forbid connection"%string
  else "unknown error"%string.

Section listen.
Context {W S : Type} `{Host W, !ListenApi W, !ManagerEnv W, !DatagramApi W, !Channel W S,
                       MessageLib}.
Implicit Types l : ListenService.

(** The part of [init_socket] both services start with: a socket bound to the
    port of the flag. *)
Definition bind_socket (type : Z) l : M W (bool * ListenService) :=
  port ← call (λ w, (FLAGS_port w, w));
  _ ← debug_log "listen port = %d" [AInt port];
  comm ← call (λ w, (FLAGS_communication_type w, w));
  _ ← debug_log "communication type = %s" [AStr (cstr comm)];
  fd ← call (sys_socket AF_INET type 0);
  let l := set_listen_fd l fd in
  port ← call (λ w, (FLAGS_port w, w));
  let listen_addr := mkSockaddr (htons port) (htonl INADDR_ANY) in
  ret ← call (sys_bind (listen_fd l) listen_addr);
  if ret =? invalid_id then
    errno ← call (λ w, (sys_errno w, w));
    _ ← error_log_ptr (Some (bind_error errno));
    _ ← act (sys_close (listen_fd l));
    mret (false, l)
  else mret (true, l).

Definition create_epoll l : M W (bool * ListenService) :=
  epfd ← call (sys_epoll_create MAX_EVENT);
  let l := set_ls_epoll_fd l epfd in
  if ls_epoll_fd l =? invalid_id then
    _ ← error_log "create epoll error!" [];
    _ ← act (sys_close (listen_fd l));
    mret (false, l)
  else mret (true, l).

(** *** [TCPListenService] *)
Definition TCP_init_socket l : M W (bool * ListenService) :=
  '(ok, l) ← bind_socket SOCK_STREAM l;
  if negb ok then mret (false, l) else
  _ ← call (sys_listen (listen_fd l) 256);
  '(ok, l) ← create_epoll l;
  if negb ok then mret (false, l) else
  let event := mkEvent (Z.lor (Z.lor EPOLLIN EPOLLHUP) EPOLLERR) (listen_fd l) in
  ret ← call (sys_epoll_ctl_add (ls_epoll_fd l) (listen_fd l) event);
  if ret =? invalid_id then
    _ ← error_log "add epoll error!" [];
    _ ← act (sys_close (listen_fd l));
    mret (false, l)
  else
    _ ← debug_log "create socket success!" [];
    mret (true, l).

(** The destructor. *)
Definition TCP_destroy l : M W unit := act (sys_close (listen_fd (ListenService_stop l))).

(** [ConnectorManager::instance()], given the singleton if it was created and
    the static variable of [get_procnum]. *)
Record statics := mkStatics { manager_ : option (ConnectorManager S); proc_num_ : Z }.
Definition ConnectorManager_instance (st : statics) : M W (ConnectorManager S * statics) :=
  match manager_ st with
  | Some m => mret (m, st)
  | None =>
      '(m, procs) ← ConnectorManager_init (proc_num_ st);
      mret (m, mkStatics (Some m) procs)
  end.

Definition TCP_run_logic l (st : statics) : M W (ListenService * statics) :=
  let l := ListenService_run_logic l in
  '(_, st) ← ConnectorManager_instance st;
  mret (l, st).

Definition accept_connection l (st : statics) : M W (bool * statics) :=
  r ← call (sys_accept (listen_fd l));
  match r with
  | None =>
      errno ← call (λ w, (sys_errno w, w));
      _ ← error_log_ptr (Some (accept_error errno));
      mret (false, st)
  | Some (new_socket_fd, socket_in) =>
      _ ← debug_log "establish connection from %s" [AStr (inet_ntoa (sin_addr socket_in))];
      flag ← call (sys_getfl new_socket_fd);
      ret ← call (sys_setfl new_socket_fd (Z.lor flag O_NONBLOCK));
      if ret =? invalid_id then
        _ ← error_log "set non block for socket %d failed, errno = %d"
              [AInt new_socket_fd; AInt ret];
        mret (false, st)
      else
        '(m, st) ← ConnectorManager_instance st;
        m ← ConnectorManager_accept_connector new_socket_fd m;
        mret (true, mkStatics (Some m) (proc_num_ st))
  end.

(** The body of the [for] loop: only the listening descriptor is served. *)
Definition TCP_on_event l (ev : epoll_event) (st : statics) : M W statics :=
  if ev_fd ev =? listen_fd l then
    '(_, st) ← accept_connection l st;
    mret st
  else mret st.
Fixpoint TCP_on_events l (evs : list epoll_event) (st : statics) : M W statics :=
  match evs with
  | [] => mret st
  | ev :: evs => st ← TCP_on_event l ev st; TCP_on_events l evs st
  end.
Fixpoint TCP_main_loop (reads : list bool) l (st : statics) : M W statics :=
  match reads with
  | [] => lift NoFuel
  | true :: _ => mret st
  | false :: reads =>
      fds ← call (sys_epoll_wait (ls_epoll_fd l) MAX_EVENT 100);
      st ← TCP_on_events l (default [] fds) st;
      TCP_main_loop reads l st
  end.

(** *** [UDPListenService] *)
Record UDPListenService := mkUDPListenService {
  udp_base : ListenService;
  udp_socket_ : option UDPSocket;
  thread_pool_ : option (ThreadPool UDPPacket);
}.
Definition UDPListenService_new : UDPListenService :=
  mkUDPListenService ListenService_new None None.

(** The result of [UDPSocket::init] is not looked at. *)
Definition UDP_init_socket (u : UDPListenService) : M W (bool * UDPListenService) :=
  '(ok, l) ← bind_socket SOCK_DGRAM (udp_base u);
  if negb ok then mret (false, mkUDPListenService l (udp_socket_ u) (thread_pool_ u)) else
  '(ok, l) ← create_epoll l;
  if negb ok then mret (false, mkUDPListenService l (udp_socket_ u) (thread_pool_ u)) else
  '(_, s) ← UDPSocket_init (listen_fd l) (ls_epoll_fd l) UDPSocket_new;
  _ ← debug_log "create socket success!" [];
  mret (true, mkUDPListenService l (Some s) (thread_pool_ u)).

(** The thread starts before the pool exists. *)
Definition UDP_run_logic (u : UDPListenService) (proc_num : Z) : M W (UDPListenService * Z) :=
  let l := ListenService_run_logic (udp_base u) in
  proc_num ← get_procnum proc_num;
  let pool := ThreadPool_new proc_num in
  proc_num ← get_procnum proc_num;
  _ ← debug_log "create thread pool success, thread number = %d" [AInt proc_num];
  mret (mkUDPListenService l (udp_socket_ u) (Some pool), proc_num).

Definition UDP_on_event (ev : epoll_event) (u : UDPListenService) : M W UDPListenService :=
  if ev_fd ev =? listen_fd (udp_base u) then
    s ← lift (deref (udp_socket_ u));
    '(ret, packet) ← UDPSocket_exec_read s;
    match packet with
    | Some packet =>
        if 0 <? ret then
          pool ← lift (deref (thread_pool_ u));
          mret (mkUDPListenService (udp_base u) (udp_socket_ u)
                  (Some (ThreadPool_push packet pool)))
        else mret u
    | None => mret u
    end
  else if negb (Z.land (ev_events ev) EPOLLIN =? 0) then
    _ ← debug_log "epoll in" []; mret u
  else _ ← debug_log "epoll out" []; mret u.
Fixpoint UDP_on_events (evs : list epoll_event) (u : UDPListenService) : M W UDPListenService :=
  match evs with
  | [] => mret u
  | ev :: evs => u ← UDP_on_event ev u; UDP_on_events evs u
  end.
Fixpoint UDP_main_loop (reads : list bool) (u : UDPListenService) : M W UDPListenService :=
  match reads with
  | [] => lift NoFuel
  | true :: _ => mret u
  | false :: reads =>
      fds ← call (sys_epoll_wait (ls_epoll_fd (udp_base u)) MAX_EVENT 100);
      u ← UDP_on_events (default [] fds) u;
      UDP_main_loop reads u
  end.

(** The task pushed to the pool. *)
Definition UDP_exec_packet (packet : UDPPacket) : M W unit :=
  _ ← debug_log "execute packet, packet_id = %d, content = %s"
        [AInt (up_packet_id packet); AStr (cstr (up_packet_msg packet))];
  let e_id := up_packet_id packet in
  if e_id =? CS_PING then
    let msg := text "receive your message, CSPING" in
    _ ← call (sys_sendto (up_socket_fd packet) msg (up_in_sock packet));
    mret tt
  else mret tt.

(** The destructor: [stop], the listening descriptor is closed, and then the
    socket object, whose destructor closes its copy of the descriptor. *)
Definition UDP_destroy (u : UDPListenService) : M W unit :=
  _ ← act (sys_close (listen_fd (ListenService_stop (udp_base u))));
  match udp_socket_ u with Some s => UDPSocket_destroy s | None => mret tt end.

(** ** [ListenServiceFactory] and [main_module_run] *)
Inductive service := TCPService (l : ListenService) | UDPService (u : UDPListenService).

(** [listen_services_]: the constructors by name. *)
Definition listen_services_ : list (list byte * service) :=
  [(text "SOCK_STREAM", TCPService ListenService_new);
   (text "SOCK_DGRAM", UDPService UDPListenService_new)].
Fixpoint map_find {A} (k : list byte) (m : list (list byte * A)) : option A :=
  match m with
  | [] => None
  | (k', a) :: m => if bool_decide (k' = k) then Some a else map_find k m
  end.
Definition create_service (service_type : list byte) : option service :=
  map_find service_type listen_services_.

Definition service_init (s : service) : M W (bool * service) :=
  match s with
  | TCPService l => '(ok, l) ← TCP_init_socket l; mret (ok, TCPService l)
  | UDPService u => '(ok, u) ← UDP_init_socket u; mret (ok, UDPService u)
  end.
Definition service_run (s : service) (st : statics) : M W (service * statics) :=
  match s with
  | TCPService l => '(l, st) ← TCP_run_logic l st; mret (TCPService l, st)
  | UDPService u =>
      '(u, procs) ← UDP_run_logic u (proc_num_ st);
      mret (UDPService u, mkStatics (manager_ st) procs)
  end.
Definition service_destroy (s : service) : M W unit :=
  match s with TCPService l => TCP_destroy l | UDPService u => UDP_destroy u end.

(** A service that cannot be initialised is destroyed on return. *)
Definition main_module_run (st : statics) : M W (option service * statics) :=
  flag_file ← lift (snprintf 128 (Some (text "%s%s"))
    [AStr g_prefix_res_path; AStr (text "data/config/listen.conf")]);
  _ ← act (set_flagfile flag_file);
  comm ← call (λ w, (FLAGS_communication_type w, w));
  match create_service comm with
  | None => mret (None, st)
  | Some s =>
      '(init_ret, s) ← service_init s;
      if negb init_ret then
        _ ← service_destroy s;
        mret (None, st)
      else
        '(s, st) ← service_run s st;
        mret (Some s, st)
  end.
End listen.
Arguments statics : clear implicits.

(** ** Properties *)
Section listen_theorems.
Context {W S : Type} `{ChannelIo W S, !ManagerEnv W, MessageLibLaws, !PbLaws}.
Context `{!ListenApi W, !DatagramApi W}.
Implicit Types (l : ListenService) (w : W).

(** The steps of the code log with literal formats. *)
Lemma log_step {B} (fmt : String.string) (args : list arg) s (f : unit → M W B) w :
  format (text fmt) args = Ok s →
  ∃ w', (debug_log fmt args ≫= f) w = f tt w'.
Proof.
  intros E. destruct (log_bind DEBUG_LOG (text fmt) args s f w E) as (w' & El & _).
  by exists w'.
Qed.

Lemma error_text_returns (e : String.string) s (w : W) :
  format (text e) [] = Ok s → ∃ w', error_log_ptr (Some e) w = Ok (tt, w').
Proof. intros E. unfold error_log_ptr. simpl. by apply (LOG_returns ERROR_LOG _ _ s). Qed.

Lemma accept_error_text errno : ∃ s, format (text (accept_error errno)) [] = Ok s.
Proof. unfold accept_error. repeat case_match; eexists; vm_compute; reflexivity. Qed.
Lemma bind_error_text errno : ∃ s, format (text (bind_error errno)) [] = Ok s.
Proof. unfold bind_error. repeat case_match; eexists; vm_compute; reflexivity. Qed.

(** One event of the listening socket. A failed [accept] is logged (every
    error number has a text here) and changes nothing. A connection that can
    be made non-blocking goes to the thread its descriptor selects, as a fresh
    connection. One that cannot is forgotten: no thread gets it. *)
Theorem accept_connection_outcomes l m procs w :
  manager_wf (W := W) m →
  match sys_accept (listen_fd l) w with
  | (None, _) => ∃ w', accept_connection l (mkStatics (Some m) procs) w =
      Ok ((false, mkStatics (Some m) procs), w')
  | (Some (fd, addr), w1) =>
      0 ≤ fd → ∃ w2,
      let '(flag, w3) := sys_getfl fd w2 in
      if (sys_setfl fd (Z.lor flag O_NONBLOCK) w3).1 =? invalid_id
      then ∃ w', accept_connection l (mkStatics (Some m) procs) w =
             Ok ((false, mkStatics (Some m) procs), w')
      else ∃ m' w' t s, accept_connection l (mkStatics (Some m) procs) w =
             Ok ((true, mkStatics (Some m') procs), w') ∧ manager_wf (W := W) m' ∧
             connector_threads_ m' !! Z.to_nat (fd mod thread_num_ m) = Some t ∧
             served (W := W) t fd s [] []
  end.
Proof.
  intros Hm. unfold accept_connection. rewrite M_bind_call.
  destruct (sys_accept (listen_fd l) w) as [[[fd addr]|] w1]; cbn [fst snd] in *.
  - intros Hfd.
    destruct (log_step "establish connection from %s"
      [AStr (inet_ntoa (sin_addr addr))] _
      (λ _ : (), flag ← call (sys_getfl fd);
           ret ← call (sys_setfl fd (Z.lor flag O_NONBLOCK));
           if ret =? invalid_id then
             _ ← error_log "set non block for socket %d failed, errno = %d" [AInt fd; AInt ret];
             mret (false, mkStatics (Some m) procs)
           else
             '(m, st) ← ConnectorManager_instance (mkStatics (Some m) procs);
             m ← ConnectorManager_accept_connector fd m;
             mret (true, mkStatics (Some m) (proc_num_ st))) w1 eq_refl)
      as (w2 & ->).
    exists w2. rewrite M_bind_call.
    destruct (sys_getfl fd w2) as [flag w3]. cbn [fst snd] in *. rewrite M_bind_call.
    destruct (sys_setfl fd (Z.lor flag O_NONBLOCK) w3) as [ret w4]. cbn [fst snd] in *.
    destruct (ret =? invalid_id).
    + run_log. by eexists.
    + unfold ConnectorManager_instance. cbn [manager_]. rewrite M_bind_ret.
      destruct (manager_accept_lemma m fd w4 Hm Hfd) as (m' & w5 & t & s & E & ? & ? & ? & _).
      rewrite (M_bind_ok _ _ _ _ _ E). by exists m', w5, t, s.
  - rewrite M_bind_call. cbn [fst snd].
    destruct (accept_error_text (sys_errno w1)) as [s Es].
    destruct (error_text_returns _ s w1 Es) as [w2 E2].
    rewrite (M_bind_ok _ _ _ _ _ E2). by eexists.
Qed.

Lemma bind_socket_cases type l w :
  ∃ ok l' w', bind_socket type l w = Ok ((ok, l'), w') ∧
    (ok = false → ∃ w0, w' = sys_close (listen_fd l') w0).
Proof.
  unfold bind_socket. rewrite M_bind_call. run_log. rewrite M_bind_call. run_log.
  rewrite !M_bind_call. cbv zeta. rewrite ?M_bind_call.
  destruct (_ =? invalid_id).
  - rewrite M_bind_call. cbn [fst snd].
    match goal with |- context [error_log_ptr (Some (bind_error ?e))] =>
      destruct (bind_error_text e) as [s Es] end.
    match goal with |- context [(error_log_ptr _ ≫= _) ?w1] =>
      destruct (error_text_returns _ s w1 Es) as [w2 E2] end.
    rewrite (M_bind_ok _ _ _ _ _ E2). unfold act at 1. 
    eexists _, _, _. split; [reflexivity|]. intros _. by eexists.
  - eexists _, _, _. split; [reflexivity|]. done.
Qed.

Lemma create_epoll_cases l w :
  ∃ ok l' w', create_epoll l w = Ok ((ok, l'), w') ∧ listen_fd l' = listen_fd l ∧
    (ok = false → ∃ w0, w' = sys_close (listen_fd l') w0).
Proof.
  unfold create_epoll. rewrite M_bind_call. cbv zeta. destruct (_ =? invalid_id).
  - run_log. eexists _, _, _. split; [reflexivity|]. split; [done|]. intros _. by eexists.
  - eexists _, _, _. split; [reflexivity|]. done.
Qed.

Lemma tcp_init_cases l w :
  ∃ ok l' w', TCP_init_socket l w = Ok ((ok, l'), w') ∧
    (ok = false → ∃ w0, w' = sys_close (listen_fd l') w0).
Proof.
  unfold TCP_init_socket.
  destruct (bind_socket_cases SOCK_STREAM l w) as (ok1 & l1 & w1 & E1 & H1').
  rewrite (M_bind_ok _ _ _ _ _ E1). destruct ok1; cbn [negb]; [|by eexists _, _, _].
  rewrite M_bind_call. destruct (create_epoll_cases l1 (sys_listen (listen_fd l1) 256 w1).2)
    as (ok2 & l2 & w2 & E2 & _ & H2').
  rewrite (M_bind_ok _ _ _ _ _ E2). destruct ok2; cbn [negb]; [|by eexists _, _, _].
  cbv zeta. rewrite M_bind_call. destruct (_ =? invalid_id); run_log.
  - eexists _, _, _. split; [reflexivity|]. intros _. by eexists.
  - eexists _, _, _. split; [reflexivity|]. done.
Qed.

(** Initialising the TCP service always returns; when it fails, whatever
    call failed, the listening descriptor was closed last and the object keeps
    its number, so that the destructor closes the same number again. *)
Theorem tcp_init_failure_closes_twice l w :
  match TCP_init_socket l w with
  | Ok ((true, _), _) => True
  | Ok ((false, l'), w') =>
      ∃ w0, w' = sys_close (listen_fd l') w0 ∧
        TCP_destroy l' w' = Ok (tt, sys_close (listen_fd l') (sys_close (listen_fd l') w0))
  | Undefined _ | Throws _ | NoFuel => False
  end.
Proof.
  destruct (tcp_init_cases l w) as (ok & l' & w' & -> & Hf). destruct ok; [done|].
  destruct (Hf eq_refl) as [w0 ->]. by exists w0.
Qed.

(** The factory knows exactly the two names, and [main_module_run] returns
    a null service for any other value of the flag without opening anything. *)
Theorem main_module_unknown_type (st : statics S) (w : W) :
  let w0 := set_flagfile (text "/usr/share/libnetwork/data/config/listen.conf") w in
  (create_service (text "SOCK_STREAM") = Some (TCPService ListenService_new)) ∧
  (create_service (text "SOCK_DGRAM") = Some (UDPService UDPListenService_new)) ∧
  (FLAGS_communication_type w0 ≠ text "SOCK_STREAM" →
   FLAGS_communication_type w0 ≠ text "SOCK_DGRAM" →
   main_module_run st w = Ok ((None, st), w0)).
Proof.
  intros w0. split; [done|]. split; [done|]. intros H1' H2'. unfold main_module_run.
  rewrite (M_bind_ok (lift (snprintf _ _ _)) _ w w
    (text "/usr/share/libnetwork/data/config/listen.conf")) by (vm_compute; reflexivity).
  rewrite (M_bind_ok (act _) _ w w0 tt) by done. rewrite M_bind_call. cbn [fst snd].
  unfold create_service, listen_services_, map_find.
  rewrite !bool_decide_eq_false_2 by congruence. done.
Qed.

(** A datagram in the UDP service: the packet it stands for is queued for
    the pool, and the worker that takes it answers its sender once when the
    identifier is that of a ping, and not otherwise. *)
Theorem udp_datagram_is_queued_and_answered ev (u : UDPListenService) s pool bs from w w1 :
  ev_fd ev = listen_fd (udp_base u) → udp_socket_ u = Some s → thread_pool_ u = Some pool →
  sys_recvfrom (udp_socket_fd s) 20480 w = (Some (bs, from), w1) →
  0 < zlen bs ≤ 20480 → udp_terminated bs = true →
  (∃ w2, UDP_on_event ev u w = Ok (mkUDPListenService (udp_base u) (Some s)
     (Some (ThreadPool_push (udp_decode s from bs) pool)), w2)) ∧
  (∀ w3, ∃ w4, UDP_exec_packet (udp_decode s from bs) w3 =
     Ok (tt, if up_packet_id (udp_decode s from bs) =? CS_PING
             then (sys_sendto (udp_socket_fd s) (text "receive your message, CSPING") from w4).2
             else w4)).
Proof.
  intros Hev Hs Hpool Hrecv Hlen Hterm. split.
  - pose proof (udp_read_lemma s w _ w1 Hrecv) as Hread. 
    destruct bs as [|b bs0] eqn:Eb; [exfalso; unfold zlen in Hlen; simpl in Hlen; lia|].
    rewrite <- Eb in *. specialize (Hread ltac:(lia)). rewrite Hterm in Hread. destruct Hread as [w2 E2].
    exists w2. unfold UDP_on_event. rewrite Hev, Z.eqb_refl, Hs. cbn [deref].
    rewrite M_bind_lift, (M_bind_ok _ _ _ _ _ E2). zbool. rewrite Hpool. done.
  - intros w3. unfold UDP_exec_packet. run_log. eexists.
    destruct (_ =? CS_PING); [|done]. rewrite M_bind_call. done.
Qed.
End listen_theorems.
