(* ===== verification/SizeMap.v ===== *)
(** * Size classes of the allocator: [libs/tcmalloc/src/common.{h,cc}]

    [SizeMap::Init] computes the size classes and fills the table that maps a
    request to its class.  Its loops run on the given fuel; the arithmetic on
    [size_t] wraps, and a failed check ends the program ([Aborted]). *)
From S2P Require Import Prelude Doubles.
From stdpp Require Import base numbers list option sets.
From Stdlib Require Import ZArith Lia.
Open Scope Z_scope.

Definition kMinAlign : Z := 16.
Definition kPageShift : Z := 13.
Definition kClassSizesMax : Z := 96.
Definition kPageSize : Z := Z.shiftl 1 kPageShift.
Definition kMaxSize : Z := 256 * 1024.
Definition kAlignment : Z := 8.
Definition kMaxSmallSize : Z := 1024.
Definition kClassArraySize : Z := Z.shiftr (kMaxSize + 127 + Z.shiftl 120 7) 7 + 1.
Definition kDefaultTransferNumObjecs : Z := 32.

(** Number of pages for a number of bytes. *)
Definition pages (bytes : Z) : Z :=
  Z.shiftr bytes kPageShift + (if 0 <? Z.land bytes (kPageSize - 1) then 1 else 0).

(** The value of the flag, given the number the environment variable holds. *)
Definition InitTCMallocTransferNumObjects (flag : Z) (env : option Z) : Z :=
  if flag =? 0
  then match env with None => kDefaultTransferNumObjecs | Some v => to_int v end
  else flag.

(** The rounds [i-1, ..., 0] of the loop. *)
Fixpoint LgFloor_loop (i : nat) (n log : Z) : Z * Z :=
  match i with
  | O => (n, log)
  | S i =>
      let shift := Z.shiftl 1 (Z.of_nat i) in
      let x := Z.shiftr n shift in
      if negb (x =? 0) then LgFloor_loop i x (log + shift) else LgFloor_loop i n log
  end.
Definition LgFloor (n : Z) : outcome Z :=
  let '(n, log) := LgFloor_loop 5 n 0 in
  _ ← check (n =? 1); mret log.

Definition AlignmentForSize (size : Z) : outcome Z :=
  alignment ←
    (if kMaxSize <? size then mret kPageSize
     else if 128 <=? size then lg ← LgFloor size; mret (Z.quot (Z.shiftl 1 lg) 8)
     else if kMinAlign <=? size then mret kMinAlign
     else mret kAlignment);
  let alignment := if kPageSize <? alignment then kPageSize else alignment in
  _ ← check ((size <? kMinAlign) || (kMinAlign <=? alignment));
  _ ← check (Z.land alignment (alignment - 1) =? 0);
  mret alignment.

(** [64.0 * 1024.0 / size], at least 2. *)
Definition move_64k (size : Z) : outcome Z :=
  num ← int_of_double (double_div (double_mul (double_of_int 64) (double_of_int 1024))
                         (double_of_int size));
  mret (if num <? 2 then 2 else num).
(** [NumMoveSize], given the flag. *)
Definition NumMoveSize (transfer size : Z) : outcome Z :=
  if size =? 0 then mret 0 else
  num ← move_64k size;
  mret (if transfer <? num then transfer else num).

Definition SmallSizeClass (s : Z) : Z := Z.shiftr (u32 (u32 s + 7)) 3.
Definition LargeSizeClass (s : Z) : Z := Z.shiftr (u32 (u32 s + 127 + Z.shiftl 120 7)) 7.
Definition ClassIndexMaybe (s : Z) : option Z :=
  if s <=? kMaxSmallSize then Some (SmallSizeClass s)
  else if s <=? kMaxSize then Some (LargeSizeClass s)
  else None.
Definition ClassIndex (s : Z) : outcome Z :=
  _ ← check (0 <=? s); _ ← check (s <=? kMaxSize);
  mret (if s <=? kMaxSmallSize then SmallSizeClass s else LargeSizeClass s).

Record SizeMap := mkSizeMap {
  class_array_ : list Z;
  num_objects_to_move_ : list Z;
  class_to_size_ : list Z;
  class_to_pages_ : list Z;
  num_size_classes : Z;
}.
(** A map in static storage. *)
Definition SizeMap_static : SizeMap :=
  mkSizeMap (replicate (Z.to_nat kClassArraySize) 0) (replicate (Z.to_nat kClassSizesMax) 0)
    (replicate (Z.to_nat kClassSizesMax) 0) (replicate (Z.to_nat kClassSizesMax) 0) 0.

Definition SizeClass (sm : SizeMap) (size : Z) : outcome Z :=
  i ← ClassIndex size; arr_get (class_array_ sm) i.
Definition GetSizeClass (sm : SizeMap) (size : Z) : outcome (option Z) :=
  match ClassIndexMaybe size with
  | None => mret None
  | Some idx => c ← arr_get (class_array_ sm) idx; mret (Some c)
  end.
Definition ByteSizeForClass (sm : SizeMap) (cl : Z) : outcome Z := arr_get (class_to_size_ sm) cl.
Definition class_to_size (sm : SizeMap) (cl : Z) : outcome Z := arr_get (class_to_size_ sm) cl.
Definition class_to_pages (sm : SizeMap) (cl : Z) : outcome Z := arr_get (class_to_pages_ sm) cl.
Definition num_objects_to_move (sm : SizeMap) (cl : Z) : outcome Z :=
  arr_get (num_objects_to_move_ sm) cl.

(** ** [SizeMap::Init] *)
(** [while ((psize % size) > (psize >> 3)) psize += kPageSize;] *)
Fixpoint bound_leftover (fuel : nat) (size psize : Z) : outcome Z :=
  match fuel with
  | O => NoFuel
  | S fuel =>
      if Z.shiftr psize 3 <? psize mod size
      then bound_leftover fuel size (Prelude.size_t (psize + kPageSize))
      else mret psize
  end.
(** [do { ... } while ((psize / size) < blocks_to_move);], where the [int] is
    converted to [size_t]. *)
Fixpoint span_size (fuel : nat) (size blocks_to_move psize : Z) : outcome Z :=
  match fuel with
  | O => NoFuel
  | S fuel' =>
      psize ← bound_leftover fuel size (Prelude.size_t (psize + kPageSize));
      if psize / size <? Prelude.size_t blocks_to_move
      then span_size fuel' size blocks_to_move psize
      else mret psize
  end.

(** A size either extends the last class or becomes a new one; [sc] is the next
    class. *)
Definition add_size (size my_pages : Z) (st : Z * list Z * list Z)
  : outcome (Z * list Z * list Z) :=
  let '(sc, sizes, pages) := st in
  merge ←
    (if 1 <? sc then
       prev_pages ← arr_get pages (sc - 1);
       if my_pages =? prev_pages then
         prev_size ← arr_get sizes (sc - 1);
         mret (Z.shiftl my_pages kPageShift / size =? Z.shiftl prev_pages kPageShift / prev_size)
       else mret false
     else mret false);
  if merge : bool then
    sizes ← arr_set sizes (sc - 1) size;
    mret (sc, sizes, pages)
  else
    pages ← arr_set pages sc my_pages;
    sizes ← arr_set sizes sc size;
    mret (sc + 1, sizes, pages).

(** The loop over the sizes. *)
Fixpoint compute_classes (fuel : nat) (transfer size : Z) (st : Z * list Z * list Z)
  : outcome (Z * list Z * list Z) :=
  match fuel with
  | O => NoFuel
  | S fuel' =>
      if size <=? kMaxSize then
        alignment ← AlignmentForSize size;
        _ ← check (size mod alignment =? 0);
        num ← NumMoveSize transfer size;
        psize ← span_size fuel size (Z.quot num 4) 0;
        st ← add_size size (Z.shiftr psize kPageShift) st;
        compute_classes fuel' transfer (size + alignment) st
      else mret st
  end.

(** The loops that fill [class_array_]. *)
Fixpoint fill_class (fuel : nat) (c s max_size_in_class : Z) (arr : list Z) : outcome (list Z) :=
  match fuel with
  | O => NoFuel
  | S fuel =>
      if s <=? max_size_in_class then
        i ← ClassIndex s;
        arr ← arr_set arr i (c mod 256);
        fill_class fuel c (s + kAlignment) max_size_in_class arr
      else mret arr
  end.
Fixpoint fill_classes (fuel : nat) (sizes : list Z) (n c next_size : Z) (arr : list Z)
  : outcome (list Z) :=
  match fuel with
  | O => NoFuel
  | S fuel' =>
      if c <? n then
        max_size_in_class ← arr_get sizes c;
        arr ← fill_class fuel c next_size max_size_in_class arr;
        fill_classes fuel' sizes n (c + 1) (max_size_in_class + kAlignment) arr
      else mret arr
  end.

(** The loop that double-checks the sizes. *)
Fixpoint check_sizes (fuel : nat) (sm : SizeMap) (size : Z) : outcome unit :=
  match fuel with
  | O => NoFuel
  | S fuel =>
      if size <=? kMaxSize then
        sc ← SizeClass sm size;
        _ ← check (negb ((sc <=? 0) || (num_size_classes sm <=? sc)));
        prev ← (if 1 <? sc then arr_get (class_to_size_ sm) (sc - 1) else mret (-1));
        _ ← check (negb ((1 <? sc) && (size <=? prev)));
        s ← arr_get (class_to_size_ sm) sc;
        _ ← check (negb ((s <? size) || (s =? 0)));
        check_sizes fuel sm (size + (if size <=? kMaxSmallSize then 8 else 128))
      else mret tt
  end.

(** The loops that check that aligned sizes have aligned classes. *)
Fixpoint check_align (fuel : nat) (sm : SizeMap) (align size : Z) : outcome unit :=
  match fuel with
  | O => NoFuel
  | S fuel =>
      if size <? kPageSize then
        sc ← SizeClass sm size;
        s ← arr_get (class_to_size_ sm) sc;
        _ ← check (s mod align =? 0);
        check_align fuel sm align (size + align)
      else mret tt
  end.
Fixpoint check_aligns (fuel : nat) (sm : SizeMap) (align : Z) : outcome unit :=
  match fuel with
  | O => NoFuel
  | S fuel' =>
      if align <=? kPageSize then
        _ ← check_align fuel sm align align;
        check_aligns fuel' sm (Z.shiftl align 1)
      else mret tt
  end.

Fixpoint init_moves (fuel : nat) (transfer cl : Z) (sm : SizeMap) (moves : list Z)
  : outcome (list Z) :=
  match fuel with
  | O => NoFuel
  | S fuel =>
      if cl <? num_size_classes sm then
        s ← ByteSizeForClass sm cl;
        num ← NumMoveSize transfer s;
        moves ← arr_set moves cl num;
        init_moves fuel transfer (cl + 1) sm moves
      else mret moves
  end.

(** What follows the computation of the classes, up to the last loop. *)
Definition finish_classes (fuel : nat) (sm : SizeMap) (st : Z * list Z * list Z)
  : outcome SizeMap :=
  let '(sc, sizes, pages) := st in
  _ ← check (sc <=? kClassSizesMax);
  arr ← fill_classes fuel sizes sc 1 0 (class_array_ sm);
  let sm := mkSizeMap arr (num_objects_to_move_ sm) sizes pages sc in
  _ ← check_sizes fuel sm 0;
  _ ← check_aligns fuel sm kMinAlign;
  mret sm.

(** [Init], given the flag. *)
Definition SizeMap_Init (fuel : nat) (transfer : Z) (sm : SizeMap) : outcome SizeMap :=
  i0 ← ClassIndex 0;
  _ ← check (i0 =? 0);
  i1 ← ClassIndex kMaxSize;
  _ ← check (i1 <? kClassArraySize);
  _ ← check (kAlignment <=? kMinAlign);
  st ← compute_classes fuel transfer kAlignment (1, class_to_size_ sm, class_to_pages_ sm);
  sm ← finish_classes fuel sm st;
  moves ← init_moves fuel transfer 1 sm (num_objects_to_move_ sm);
  mret (mkSizeMap (class_array_ sm) moves (class_to_size_ sm) (class_to_pages_ sm)
          (num_size_classes sm)).

(** ** The index of a size *)
Definition cidx (s : Z) : Z := if s <=? 1024 then (s + 7) / 8 else (s + 15487) / 128.

Lemma ClassIndex_ok s : 0 ≤ s ≤ kMaxSize → ClassIndex s = Ok (cidx s).
Proof.
  unfold kMaxSize. intros Hs. unfold ClassIndex, check, kMaxSize, kMaxSmallSize, cidx.
  zbool. simpl. f_equal. unfold SmallSizeClass, LargeSizeClass, u32.
  change (Z.shiftl 120 7) with 15360. rewrite !Z.shiftr_div_pow2 by lia.
  zcase; [|replace (s + 15487) with (s + 127 + 15360) by lia];
    rewrite (Z.mod_small s), Z.mod_small by lia; done.
Qed.

Lemma ClassIndexMaybe_ok s :
  0 ≤ s → ClassIndexMaybe s = if s <=? kMaxSize then Some (cidx s) else None.
Proof.
  intros Hs. unfold ClassIndexMaybe. zcase.
  - pose proof (ClassIndex_ok s). unfold ClassIndex, check, kMaxSize, kMaxSmallSize in *. zbool.
    rewrite (proj2 (Z.leb_le 0 s)), (proj2 (Z.leb_le s (256 * 1024))),
      (proj2 (Z.leb_le s 1024)) in H0 by lia. simpl in H0. injection (H0 ltac:(lia)) as ->. done.
  - destruct (Z.leb_spec s kMaxSize); [|done].
    pose proof (ClassIndex_ok s). unfold ClassIndex, check, kMaxSize, kMaxSmallSize in *.
    rewrite (proj2 (Z.leb_le 0 s)), (proj2 (Z.leb_le s (256 * 1024))),
      (proj2 (Z.leb_gt s 1024)) in H1 by lia. simpl in H1. injection (H1 ltac:(lia)) as ->. done.
Qed.

Lemma cidx_mono s t : s ≤ t → cidx s ≤ cidx t.
Proof. unfold cidx. intros. repeat zcase; zdiv. Qed.
Lemma cidx_step s : 0 ≤ s → s mod 8 = 0 → cidx (s + 8) ≤ cidx s + 1.
Proof. unfold cidx. intros. repeat zcase; zdiv. Qed.
Lemma cidx_range s : 0 ≤ s ≤ kMaxSize → 0 ≤ cidx s < kClassArraySize.
Proof.
  change kMaxSize with 262144. change kClassArraySize with 2169.
  intros Hs. unfold cidx. zcase; zdiv.
Qed.
(** Behind a class that ends at a multiple of the granularity, the next index
    begins. *)
Lemma cidx_after p s :
  0 ≤ p → p < s → p mod 8 = 0 → (1024 ≤ p → p mod 128 = 0) → cidx (p + 8) ≤ cidx s.
Proof.
  intros Hp Hs H8 H128. unfold cidx. destruct (Z.leb_spec (p + 8) 1024), (Z.leb_spec s 1024);
    try specialize (H128 ltac:(lia)); zdiv.
Qed.
Lemma cidx_before p s :
  0 ≤ s ≤ p → p mod 8 = 0 → (1024 ≤ p → p mod 128 = 0) → cidx s < cidx (p + 8).
Proof.
  intros Hp H8 H128. unfold cidx. destruct (Z.leb_spec (p + 8) 1024), (Z.leb_spec s 1024);
    try specialize (H128 ltac:(lia)); zdiv.
Qed.

(** ** Tables of classes *)
Notation "l @! i" := (l !!! Z.to_nat i) (at level 25, left associativity) : Z_scope.

(** The class [c] holds the size [s], and the class before does not. *)
Definition in_class (sizes : list Z) (c s : Z) : Prop :=
  1 ≤ c ∧ s ≤ sizes @! c ∧ (c = 1 ∨ sizes @! (c - 1) < s).

Record classes_wf (n : Z) (sizes : list Z) : Prop := {
  wf_count : 1 < n ≤ kClassSizesMax;
  wf_length : zlen sizes = kClassSizesMax;
  wf_first : sizes @! 0 = 0;
  wf_last : sizes @! (n - 1) = kMaxSize;
  wf_increasing c : 1 ≤ c < n → sizes @! (c - 1) < sizes @! c;
  wf_granularity c : 0 ≤ c < n →
    sizes @! c mod 8 = 0 ∧ (1024 ≤ sizes @! c → sizes @! c mod 128 = 0);
}.

Lemma wf_mono n sizes c d :
  classes_wf n sizes → 0 ≤ c ≤ d → d < n → sizes @! c ≤ sizes @! d.
Proof.
  intros Hwf [Hc Hd]. pattern d. apply (Zlt_lower_bound_ind _ c); [|done]. clear d Hd.
  intros d IH Hd Hn. destruct (Z.eq_dec c d) as [->|]; [lia|].
  pose proof (IH (d - 1) ltac:(lia) ltac:(lia)). pose proof (wf_increasing _ _ Hwf d). lia.
Qed.
Lemma wf_range n sizes c : classes_wf n sizes → 0 ≤ c < n → 0 ≤ sizes @! c ≤ kMaxSize.
Proof.
  intros Hwf Hc. rewrite <- (wf_first _ _ Hwf), <- (wf_last _ _ Hwf).
  split; apply (wf_mono n); auto; lia.
Qed.

(** The inner loop gives the class to every index from [s] to the class's last. *)
Lemma fill_class_spec fuel c : ∀ s max arr,
  0 ≤ s → s mod 8 = 0 → max mod 8 = 0 → max ≤ kMaxSize → (0 < fuel)%nat →
  max - s < 8 * Z.of_nat fuel - 8 →
  zlen arr = kClassArraySize → 0 ≤ c < 256 →
  ∃ arr', fill_class fuel c s max arr = Ok arr' ∧ zlen arr' = kClassArraySize ∧
    ∀ i, 0 ≤ i < kClassArraySize →
      arr' @! i = if decide (s ≤ max ∧ cidx s ≤ i ≤ cidx max) then c else arr @! i.
Proof.
  induction fuel as [|fuel IH]; intros s max arr Hs H8 Hm8 Hmax Hpos Hfuel Hlen Hc; [lia|].
  cbn [fill_class]. destruct (Z.leb_spec s max) as [Hle|Hgt].
  - rewrite ClassIndex_ok by lia. simpl. pose proof (cidx_range s ltac:(lia)) as Hr.
    rewrite arr_set_ok by lia. simpl. rewrite Z.mod_small by lia.
    destruct (IH (s + kAlignment) max (<[Z.to_nat (cidx s) := c]> arr)) as (arr' & E & Hl & Hi);
      unfold kAlignment in *; try (rewrite zlen_insert); try zdiv; try done.
    exists arr'. split; [done|]. split; [done|]. intros i Hir. rewrite Hi by done.
    rewrite lookup_total_insert_if by lia.
    pose proof (cidx_step s Hs H8). pose proof (cidx_mono s (s + 8) ltac:(lia)).
    pose proof (cidx_mono s max Hle).
    destruct (Z.leb_spec (s + 8) max); [|assert (max = s) as -> by zdiv].
    all: repeat case_decide; try lia; try done.
  - exists arr. split; [done|]. split; [done|]. intros i Hi. by rewrite decide_False by lia.
Qed.

(** A table is right up to a size. *)
Definition filled_to (sizes arr : list Z) (c top : Z) : Prop :=
  ∀ s, 0 ≤ s ≤ top → arr @! cidx s < c ∧ in_class sizes (arr @! cidx s) s.

Lemma filled_next n sizes c arr arr' :
  classes_wf n sizes → 1 ≤ c < n →
  (1 < c → filled_to sizes arr c (sizes @! (c - 1))) →
  (∀ i, 0 ≤ i < kClassArraySize → arr' @! i =
     if decide ((if c =? 1 then 0 else sizes @! (c - 1) + 8) ≤ sizes @! c ∧
                cidx (if c =? 1 then 0 else sizes @! (c - 1) + 8) ≤ i ≤ cidx (sizes @! c))
     then c else arr @! i) →
  filled_to sizes arr' (c + 1) (sizes @! c).
Proof.
  intros Hwf Hc Hold Hnew s Hs. pose proof (wf_range n sizes c Hwf ltac:(lia)).
  pose proof (wf_increasing _ _ Hwf c ltac:(lia)) as Hinc.
  rewrite (Hnew (cidx s)) by (apply cidx_range; lia).
  destruct (wf_granularity _ _ Hwf (c - 1) ltac:(lia)) as [G1 G2].
  destruct (wf_granularity _ _ Hwf c ltac:(lia)) as [G3 _].
  pose proof (wf_range n sizes (c - 1) Hwf ltac:(lia)).
  pose proof (cidx_mono s _ (proj2 Hs)).
  destruct (Z.eqb_spec c 1) as [->|Hc1].
  - pose proof (cidx_mono 0 s ltac:(lia)). rewrite decide_True by lia.
    split; [lia|]. split; [lia|]. split; [lia|by left].
  - destruct (Z.leb_spec s (sizes @! (c - 1))) as [Hle|Hgt].
    + pose proof (cidx_before _ s (conj (proj1 Hs) Hle) G1 G2).
      rewrite decide_False by lia. destruct (Hold ltac:(lia) s ltac:(lia)). split; [lia|done].
    + assert (0 ≤ sizes @! (c - 1)) as Hp by lia.
      pose proof (cidx_after _ s Hp Hgt G1 G2).
      assert (sizes @! (c - 1) + 8 ≤ sizes @! c) by zdiv.
      rewrite decide_True by lia. split; [lia|]. split; [lia|]. split; [lia|by right].
Qed.

Lemma fill_classes_spec fuel n sizes : ∀ c arr,
  classes_wf n sizes → 1 ≤ c ≤ n → kMaxSize + 16 + 8 * (n - c) < 8 * Z.of_nat fuel →
  zlen arr = kClassArraySize →
  (1 < c → filled_to sizes arr c (sizes @! (c - 1))) →
  ∃ arr', fill_classes fuel sizes n c (if c =? 1 then 0 else sizes @! (c - 1) + 8) arr
      = Ok arr' ∧ zlen arr' = kClassArraySize ∧ filled_to sizes arr' n kMaxSize.
Proof.
  induction fuel as [|fuel IH]; intros c arr Hwf Hc Hfuel Hlen Hold.
  { change kMaxSize with 262144 in Hfuel. lia. }
  change kMaxSize with 262144 in *.
  destruct (wf_count _ _ Hwf) as [Hn1 Hn2]. change kClassSizesMax with 96 in *.
  cbn [fill_classes]. destruct (Z.ltb_spec c n) as [Hlt|Hge].
  - pose proof (wf_range n sizes c Hwf ltac:(lia)) as Hr. change kMaxSize with 262144 in Hr.
    pose proof (wf_range n sizes (c - 1) Hwf ltac:(lia)) as Hr1.
    destruct (wf_granularity _ _ Hwf c ltac:(lia)) as [G1 _].
    destruct (wf_granularity _ _ Hwf (c - 1) ltac:(lia)) as [G2 _].
    rewrite arr_get_total by (rewrite (wf_length _ _ Hwf); change kClassSizesMax with 96; lia).
    cbn [mbind outcome_bind].
    set (next := if c =? 1 then 0 else sizes @! (c - 1) + 8) in *.
    assert (0 ≤ next ∧ next mod 8 = 0) by (unfold next; zcase; zdiv).
    destruct (fill_class_spec (S fuel) c next (sizes @! c) arr) as (arr1 & E1 & Hl1 & Hi1);
      try change kMaxSize with 262144; try lia; try done.
    rewrite E1. cbn [mbind outcome_bind].
    destruct (IH (c + 1) arr1 Hwf) as (arr' & E' & Hl' & Hf');
      try change kMaxSize with 262144; try lia; try done.
    { intros _. replace (c + 1 - 1) with c by lia. apply (filled_next n sizes c arr); [done|lia|done|exact Hi1]. }
    replace (if c + 1 =? 1 then 0 else sizes @! (c + 1 - 1) + 8) with (sizes @! c + kAlignment) in E'
      by (zbool; replace (c + 1 - 1) with c by lia; done).
    by exists arr'.
  - assert (c = n) as -> by lia. exists arr. split; [done|]. split; [done|].
    pose proof (wf_last _ _ Hwf) as Hl. change kMaxSize with 262144 in Hl.
    rewrite <- Hl. apply Hold. lia.
Qed.

(** ** The checks succeed *)
Lemma SizeClass_filled sm s :
  zlen (class_array_ sm) = kClassArraySize → 0 ≤ s ≤ kMaxSize →
  SizeClass sm s = Ok (class_array_ sm @! cidx s).
Proof.
  intros Hl Hs. unfold SizeClass. rewrite ClassIndex_ok by done. simpl.
  apply arr_get_total. rewrite Hl. by apply cidx_range.
Qed.

(** What [finish_classes] establishes. *)
Record map_ok (sm : SizeMap) : Prop := {
  map_wf : classes_wf (num_size_classes sm) (class_to_size_ sm);
  map_length : zlen (class_array_ sm) = kClassArraySize;
  map_filled : filled_to (class_to_size_ sm) (class_array_ sm) (num_size_classes sm) kMaxSize;
}.

Lemma map_class sm s :
  map_ok sm → 0 ≤ s ≤ kMaxSize →
  ∃ c, SizeClass sm s = Ok c ∧ 1 ≤ c < num_size_classes sm ∧ in_class (class_to_size_ sm) c s ∧
    ByteSizeForClass sm c = Ok (class_to_size_ sm @! c).
Proof.
  intros [Hwf Hl Hf] Hs. destruct (Hf s Hs) as [Hlt Hc]. eexists. split; [by apply SizeClass_filled|].
  destruct Hc as [H1 Hc]. split; [lia|]. split; [by split|].
  apply arr_get_total. rewrite (wf_length _ _ Hwf). destruct (wf_count _ _ Hwf). lia.
Qed.

Lemma check_sizes_ok sm fuel : ∀ size,
  map_ok sm → 0 ≤ size → kMaxSize + 8 - size < 8 * Z.of_nat fuel → (0 < fuel)%nat →
  check_sizes fuel sm size = Ok tt.
Proof.
  induction fuel as [|fuel IH]; intros size Hm Hs Hf Hpos; [lia|].
  cbn [check_sizes]. destruct (Z.leb_spec size kMaxSize); [|done].
  destruct (map_class sm size Hm ltac:(lia)) as (c & -> & Hc & Hin & Hby).
  pose proof (map_wf _ Hm) as Hwf. destruct (wf_count _ _ Hwf).
  destruct Hin as (_ & Hle & Hprev). unfold ByteSizeForClass in Hby.
  pose proof (wf_increasing _ _ Hwf c ltac:(lia)).
  pose proof (wf_range _ _ (c - 1) Hwf ltac:(lia)).
  assert (Hnext : check_sizes fuel sm (size + (if size <=? kMaxSmallSize then 8 else 128)) = Ok tt)
    by (apply IH; try done; unfold kMaxSmallSize; try zcase; lia).
  cbn [mbind outcome_bind]. rewrite Hby, Hnext.
  destruct (Z.ltb_spec 1 c).
  - rewrite (arr_get_total _ (c - 1)) by (rewrite (wf_length _ _ Hwf); lia).
    destruct Hprev as [->|Hprev]; [lia|]. cbn [mbind outcome_bind]. by zbool.
  - cbn [mbind outcome_bind mret outcome_ret]. by zbool.
Qed.

(** The alignments which the code checks, for the classes of a table. *)
Definition aligned (sizes : list Z) (align : Z) (c : Z) : Prop :=
  ∀ s, in_class sizes c s → s mod align = 0 → 0 < s < kPageSize → sizes @! c mod align = 0.

Lemma check_align_ok sm align fuel : ∀ size,
  map_ok sm → (∀ c, 1 ≤ c < num_size_classes sm → aligned (class_to_size_ sm) align c) →
  8 ≤ align → 0 < size → size mod align = 0 →
  kPageSize + 8 - size < 8 * Z.of_nat fuel → (0 < fuel)%nat →
  check_align fuel sm align size = Ok tt.
Proof.
  induction fuel as [|fuel IH]; intros size Hm Hal Ha Hs Hmod Hf Hpos; [lia|].
  cbn [check_align]. destruct (Z.ltb_spec size kPageSize); [|done].
  destruct (map_class sm size Hm) as (c & -> & Hc & Hin & Hby).
  { change kPageSize with 8192 in *. change kMaxSize with 262144. lia. }
  unfold ByteSizeForClass in Hby. cbn [mbind outcome_bind]. rewrite Hby.
  cbn [mbind outcome_bind]. rewrite (Hal c Hc size) by done. cbn [check Z.eqb mbind outcome_bind].
  change kPageSize with 8192 in *. apply IH; try done; try lia.
  rewrite <- Z.add_mod_idemp_l, Hmod, Z.add_0_l, Z.mod_same; lia.
Qed.

Lemma check_aligns_ok sm fuel : ∀ k,
  map_ok sm →
  (∀ j c, 4 ≤ j ≤ 13 → 1 ≤ c < num_size_classes sm → aligned (class_to_size_ sm) (2 ^ j) c) →
  4 ≤ k ≤ 14 → 1040 - k < Z.of_nat fuel →
  check_aligns fuel sm (2 ^ k) = Ok tt.
Proof.
  induction fuel as [|fuel IH]; intros k Hm Hal Hk Hf; [lia|].
  cbn [check_aligns]. change kPageSize with (2 ^ 13).
  destruct (Z.leb_spec (2 ^ k) (2 ^ 13)) as [Hle|Hgt]; [|done].
  assert (k ≤ 13) by (apply (Z.pow_le_mono_r_iff 2); lia).
  assert (2 ^ 4 ≤ 2 ^ k) by (apply Z.pow_le_mono_r; lia).
  rewrite (check_align_ok sm (2 ^ k) (S fuel)); try lia; try done.
  - cbn [mbind outcome_bind]. rewrite Z.shiftl_mul_pow2, Z.mul_comm by lia.
    change (2 ^ 1 * 2 ^ k) with (2 * 2 ^ k). rewrite <- Z.pow_succ_r by lia.
    apply IH; try done; lia.
  - intros c Hc. apply Hal; lia.
  - apply Z.mod_same. lia.
  - change kPageSize with 8192. lia.
Qed.

Lemma finish_classes_ok fuel sm n sizes pages :
  classes_wf n sizes →
  (∀ j c, 4 ≤ j ≤ 13 → 1 ≤ c < n → aligned sizes (2 ^ j) c) →
  zlen (class_array_ sm) = kClassArraySize → (33000 ≤ Z.of_nat fuel) →
  ∃ arr, finish_classes fuel sm (n, sizes, pages) =
      Ok (mkSizeMap arr (num_objects_to_move_ sm) sizes pages n) ∧
    map_ok (mkSizeMap arr (num_objects_to_move_ sm) sizes pages n).
Proof.
  intros Hwf Hal Hlen Hfuel. destruct (wf_count _ _ Hwf) as [Hn1 Hn2].
  unfold finish_classes. rewrite (proj2 (Z.leb_le n kClassSizesMax)) by done.
  change kClassSizesMax with 96 in Hn2. cbn [check mbind outcome_bind].
  destruct (fill_classes_spec fuel n sizes 1 (class_array_ sm)) as (arr & E & Hl & Hf);
    try change kMaxSize with 262144; try lia; try done.
  change (if 1 =? 1 then 0 else sizes @! (1 - 1) + 8) with 0 in E. rewrite E.
  cbn [mbind outcome_bind].
  assert (Hm : map_ok (mkSizeMap arr (num_objects_to_move_ sm) sizes pages n)) by by split.
  exists arr. split; [|done].
  rewrite check_sizes_ok; try change kMaxSize with 262144; try lia; try done.
  cbn [mbind outcome_bind]. change kMinAlign with (2 ^ 4).
  rewrite check_aligns_ok; try lia; try done.
Qed.

(** ** The computation of the classes, for every value of the flag

    A size needs one of two numbers of bytes: the least that bounds the
    leftover, or the next one if that holds too few objects. *)
Record planned := mkPlanned { pl_size : Z; pl_num : Z; pl_first : Z; pl_second : Z }.

Fixpoint plan (fuel : nat) (size : Z) : outcome (list planned) :=
  match fuel with
  | O => NoFuel
  | S fuel =>
      if size <=? kMaxSize then
        alignment ← AlignmentForSize size;
        _ ← check (size mod alignment =? 0);
        num ← move_64k size;
        p1 ← bound_leftover 64 size kPageSize;
        p2 ← bound_leftover 64 size (Prelude.size_t (p1 + kPageSize));
        l ← plan fuel (size + alignment);
        mret (mkPlanned size num p1 p2 :: l)
      else mret []
  end.
Definition planned_ok (e : planned) : bool :=
  (0 <? pl_size e) && (0 <=? pl_num e) && (pl_num e <? 2 ^ 32) &&
  (pl_num e / 4 <=? pl_second e / pl_size e).

(** The bytes of a span, given a quarter of the flag. *)
Definition choose (k : Z) (e : planned) : Z :=
  let t := pl_first e / pl_size e in
  if (t <? k) && (t <? pl_num e / 4) then pl_second e else pl_first e.
Fixpoint run_plan (k : Z) (l : list planned) (st : Z * list Z * list Z)
  : outcome (Z * list Z * list Z) :=
  match l with
  | [] => mret st
  | e :: l => st ← add_size (pl_size e) (Z.shiftr (choose k e) kPageShift) st; run_plan k l st
  end.

Lemma bound_leftover_fuel fuel fuel' : ∀ size psize p,
  (fuel ≤ fuel')%nat → bound_leftover fuel size psize = Ok p → bound_leftover fuel' size psize = Ok p.
Proof.
  revert fuel'. induction fuel as [|fuel IH]; intros fuel' size psize p Hle; [done|].
  destruct fuel' as [|fuel']; [lia|]. cbn [bound_leftover].
  destruct (_ <? _); [|done]. apply IH. lia.
Qed.

Lemma div_quot_4 transfer num : 0 ≤ transfer → 0 ≤ num →
  Z.quot (if transfer <? num then transfer else num) 4 = Z.min (transfer / 4) (num / 4).
Proof. intros. zcase; rewrite Z.quot_div_nonneg by lia; zdiv. Qed.

Lemma span_size_planned fuel transfer e :
  planned_ok e = true → 0 ≤ transfer → (66 ≤ fuel)%nat →
  bound_leftover 64 (pl_size e) kPageSize = Ok (pl_first e) →
  bound_leftover 64 (pl_size e) (Prelude.size_t (pl_first e + kPageSize)) = Ok (pl_second e) →
  span_size fuel (pl_size e)
    (Z.quot (if transfer <? pl_num e then transfer else pl_num e) 4) 0
  = Ok (choose (transfer / 4) e).
Proof.
  intros Hok Ht Hf E1 E2. unfold planned_ok in Hok.
  rewrite !andb_true_iff, Z.ltb_lt, Z.leb_le, Z.ltb_lt, Z.leb_le in Hok.
  destruct Hok as [[[H1 H2] H3] H4].
  rewrite div_quot_4 by lia. set (b := Z.min _ _).
  assert (Hb : 0 ≤ b ≤ pl_num e / 4 ∧ b < 2 ^ 32) by (unfold b; zdiv).
  destruct fuel as [|[|fuel]]; [lia..|]. cbn [span_size].
  change (Prelude.size_t (0 + kPageSize)) with kPageSize.
  rewrite (bound_leftover_fuel 64 (S (S fuel)) _ _ _ ltac:(lia) E1). cbn [mbind outcome_bind].
  assert (Prelude.size_t b = b) as ->
    by (unfold Prelude.size_t; rewrite Z.mod_small by lia; done).
  unfold choose. destruct (Z.ltb_spec (pl_first e / pl_size e) b) as [Hlt|Hge].
  - rewrite (bound_leftover_fuel 64 (S fuel) _ _ _ ltac:(lia) E2). cbn [mbind outcome_bind].
    rewrite (proj2 (Z.ltb_ge _ b)) by lia.
    rewrite (proj2 (Z.ltb_lt _ (transfer / 4))), (proj2 (Z.ltb_lt _ (pl_num e / 4)));
      [done|unfold b in Hlt; lia..].
  - destruct (Z.ltb_spec (pl_first e / pl_size e) (transfer / 4)); [|done].
    destruct (Z.ltb_spec (pl_first e / pl_size e) (pl_num e / 4)); [|done]. unfold b in Hge. lia.
Qed.

Lemma LgFloor_loop_nonneg i : ∀ n log, 0 ≤ log → 0 ≤ (LgFloor_loop i n log).2.
Proof.
  induction i as [|i IH]; intros n log Hl; simpl; [done|].
  assert (0 ≤ Z.shiftl 1 (Z.of_nat i)) by (apply Z.shiftl_nonneg; lia).
  destruct (negb _); apply IH; lia.
Qed.
Lemma AlignmentForSize_nonneg size a : AlignmentForSize size = Ok a → 0 ≤ a.
Proof.
  unfold AlignmentForSize, LgFloor. pose proof (LgFloor_loop_nonneg 5 size 0 ltac:(lia)) as Hl.
  destruct (LgFloor_loop 5 size 0) as [n log].
  assert (0 ≤ Z.quot (Z.shiftl 1 log) 8) by (apply Z.quot_pos; [apply Z.shiftl_nonneg|]; lia).
  change kPageSize with 8192. unfold kMinAlign, kAlignment.
  repeat (zcase; cbn [mbind outcome_bind mret outcome_ret check orb]; try done;
          try (intros [= <-]; lia)).
Qed.

Lemma compute_classes_plan transfer fuel0 : ∀ fuel size l st,
  0 ≤ transfer → 0 < size → plan fuel0 size = Ok l → forallb planned_ok l = true →
  (fuel0 + 66 ≤ fuel)%nat →
  compute_classes fuel transfer size st = run_plan (transfer / 4) l st.
Proof.
  induction fuel0 as [|fuel0 IH]; intros fuel size l st Ht Hs El Hok Hf; [done|].
  destruct fuel as [|fuel]; [lia|]. cbn [compute_classes]. cbn [plan] in El.
  destruct (size <=? kMaxSize); [|by injection El as <-].
  destruct (AlignmentForSize size) as [al| | |] eqn:Eal; try done.
  apply AlignmentForSize_nonneg in Eal. cbn [mbind outcome_bind] in *.
  destruct (check _) as [[]| | |]; try done. cbn [mbind outcome_bind] in *.
  unfold NumMoveSize. rewrite (proj2 (Z.eqb_neq size 0)) by lia.
  destruct (move_64k size) as [num| | |]; try done. cbn [mbind outcome_bind] in *.
  destruct (bound_leftover 64 size kPageSize) as [p1| | |] eqn:E1; try done.
  cbn [mbind outcome_bind] in El.
  destruct (bound_leftover 64 size (Prelude.size_t (p1 + kPageSize))) as [p2| | |] eqn:E2; try done.
  cbn [mbind outcome_bind] in El.
  destruct (plan fuel0 (size + al)) as [l'| | |] eqn:El'; try done.
  injection El as <-. cbn [forallb] in Hok. apply andb_true_iff in Hok as [Hok1 Hok].
  cbn [mret outcome_ret mbind outcome_bind run_plan].
  pose proof (span_size_planned (S fuel) transfer (mkPlanned size num p1 p2) Hok1 Ht ltac:(lia)
    E1 E2) as Espan.
  cbn [pl_size pl_num] in *. rewrite Espan. cbn [mbind outcome_bind].
  destruct (add_size size _ st) as [st'| | |]; try done. cbn [mbind outcome_bind].
  apply (IH fuel (size + al) l' st'); try done; lia.
Qed.

(** The flag matters only in comparisons with these numbers of objects. *)
Definition thresholds (l : list planned) : list Z := (λ e, pl_first e / pl_size e) <$> l.
Definition representative (ts : list Z) (k : Z) : Z :=
  foldr (λ t r, if t <? k then Z.max (t + 1) r else r) 0 ts.

Lemma representative_spec ts k :
  (0 ≤ k → representative ts k ≤ k) ∧ (∀ t, t ∈ ts → t < k → t < representative ts k) ∧
  (representative ts k ∈ 0 :: (Z.succ <$> ts)).
Proof.
  induction ts as [|t ts (IH1 & IH2 & IH3)]; simpl.
  - split; [done|]. split; [by intros t ?%not_elem_of_nil|by left].
  - split; [intros; zcase; lia|]. split.
    + intros t' [->|Hin]%elem_of_cons Ht; [zcase; lia|].
      specialize (IH2 t' Hin Ht). zcase; lia.
    + apply elem_of_cons in IH3. zcase; [|set_solver].
      destruct (Z.max_spec (t + 1) (representative ts k)) as [[_ ->]|[_ ->]]; set_solver.
Qed.

Lemma run_plan_representative ts k l : ∀ st,
  0 ≤ k → thresholds l ⊆ ts →
  run_plan (representative ts k) l st = run_plan k l st.
Proof.
  destruct (representative_spec ts k) as (H1 & H2 & _).
  induction l as [|e l IH]; intros st Hk Hts; [done|]. cbn [run_plan].
  assert (choose (representative ts k) e = choose k e) as ->.
  { unfold choose. f_equal.
    assert (Ht : pl_first e / pl_size e ∈ ts) by (apply Hts; left).
    specialize (H1 Hk). specialize (H2 _ Ht).
    destruct (Z.ltb_spec (pl_first e / pl_size e) k);
      destruct (Z.ltb_spec (pl_first e / pl_size e) (representative ts k)); done || lia. }
  destruct (add_size _ _ st) as [st'| | |]; try done. apply IH; [done|]. set_solver.
Qed.

(** What has to hold of the computed classes, for one class and its predecessor. *)
Definition class_good (prev size pages : Z) : bool :=
  (prev <? size) && (size mod 8 =? 0) && ((size <? 1024) || (size mod 128 =? 0)) &&
  ((size - prev <=? 16) || (4 * (size - (prev + 1)) <=? prev + 1)) &&
  forallb (λ j, let m := (prev / 2 ^ j + 1) * 2 ^ j in
                (size <? m) || (size mod 2 ^ j =? 0)) (seqZ 4 10) &&
  ((0 <? pages) && (pages <? 2 ^ 20) && (Z.shiftl pages kPageShift / size <? 2 ^ 16)) &&
  (8 * (Z.shiftl pages kPageShift mod size) <=? Z.shiftl pages kPageShift) &&
  (size <=? Z.shiftl pages kPageShift).
(** An object takes no more pages than the smallest request for it alone would. *)
Definition class_fits (prev size : Z) : bool := size <=? (prev / kPageSize + 1) * kPageSize.
Definition classes_good (o : outcome (Z * list Z * list Z)) : bool :=
  match o with
  | Ok (n, sizes, pages) =>
      (1 <? n) && (n <=? kClassSizesMax) && (zlen sizes =? kClassSizesMax) &&
      (zlen pages =? kClassSizesMax) && (sizes @! 0 =? 0) && (sizes @! (n - 1) =? kMaxSize) &&
      forallb (λ c, class_good (sizes @! (c - 1)) (sizes @! c) (pages @! c)) (seqZ 1 (n - 1)) &&
      forallb (λ c, class_fits (sizes @! (c - 1)) (sizes @! c)) (seqZ 1 (n - 1))
  | _ => false
  end.

Definition the_plan : list planned := Eval vm_compute in
  match plan 128 kAlignment with Ok l => l | _ => [] end.
Definition no_classes : Z * list Z * list Z :=
  (1, replicate (Z.to_nat kClassSizesMax) 0, replicate (Z.to_nat kClassSizesMax) 0).
Definition the_thresholds : list Z := Eval vm_compute in remove_dups (thresholds the_plan).

Lemma the_plan_ok : plan 128 kAlignment = Ok the_plan ∧ forallb planned_ok the_plan = true.
Proof. split; vm_compute; reflexivity. Qed.
Lemma the_classes_good :
  forallb (λ k, classes_good (run_plan k the_plan no_classes)) (0 :: (Z.succ <$> the_thresholds))
  = true.
Proof. vm_compute. reflexivity. Qed.

Lemma classes_for_every_flag k :
  0 ≤ k → classes_good (run_plan k the_plan no_classes) = true.
Proof.
  intros Hk. assert (Hts : thresholds the_plan ⊆ the_thresholds).
  { intros t Ht. apply elem_of_remove_dups in Ht. exact Ht. }
  rewrite <- (run_plan_representative the_thresholds k the_plan no_classes Hk Hts).
  destruct (representative_spec the_thresholds k) as (_ & _ & Hin).
  pose proof the_classes_good as Hg. rewrite forallb_forall in Hg.
  apply Hg. by apply list_elem_of_In.
Qed.

(** Every class size is a size of the plan. *)
Definition sizes_in (l : list planned) (st : Z * list Z * list Z) : Prop :=
  Forall (λ z, z = 0 ∨ z ∈ (pl_size <$> l)) st.1.2.

Lemma Forall_arr_set (P : Z → Prop) l i a l' :
  Forall P l → P a → arr_set l i a = Ok l' → Forall P l'.
Proof. unfold arr_set. destruct (_ && _); [|done]. intros ?? [= <-]. by apply Forall_insert. Qed.

Lemma add_size_in l size pages st st' :
  sizes_in l st → size ∈ (pl_size <$> l) → add_size size pages st = Ok st' → sizes_in l st'.
Proof.
  destruct st as [[sc sizes] pgs]. unfold sizes_in, add_size. simpl. intros Hst Hin.
  destruct (if 1 <? sc then _ else _) as [[]| | |]; simpl; try done.
  - destruct (arr_set sizes _ _) as [sizes'| | |] eqn:E; try done. intros [= <-]. simpl.
    eapply Forall_arr_set; eauto.
  - destruct (arr_set pgs _ _) as [pgs'| | |]; try done. simpl.
    destruct (arr_set sizes _ _) as [sizes'| | |] eqn:E; try done. intros [= <-]. simpl.
    eapply Forall_arr_set; eauto.
Qed.
Lemma run_plan_in l0 k l : ∀ st st',
  sizes_in l0 st → (pl_size <$> l) ⊆ (pl_size <$> l0) → run_plan k l st = Ok st' → sizes_in l0 st'.
Proof.
  induction l as [|e l IH]; intros st st' Hst Hsub; [by intros [= <-]|]. cbn [run_plan].
  destruct (add_size _ _ st) as [st1| | |] eqn:E; try done. cbn [mbind outcome_bind].
  apply IH; [|set_solver]. eapply add_size_in; [done| |done]. apply Hsub. set_solver.
Qed.

Lemma plan_moves fuel : ∀ size l, plan fuel size = Ok l →
  Forall (λ e, move_64k (pl_size e) = Ok (pl_num e)) l.
Proof.
  induction fuel as [|fuel IH]; intros size l; [done|]. cbn [plan].
  destruct (size <=? kMaxSize); [|intros [= <-]; constructor].
  destruct (AlignmentForSize size) as [al| | |]; try done. cbn [mbind outcome_bind].
  destruct (check _) as [[]| | |]; try done. cbn [mbind outcome_bind].
  destruct (move_64k size) as [num| | |] eqn:Em; try done. cbn [mbind outcome_bind].
  destruct (bound_leftover 64 size kPageSize) as [p1| | |]; try done. cbn [mbind outcome_bind].
  destruct (bound_leftover 64 size _) as [p2| | |]; try done. cbn [mbind outcome_bind].
  destruct (plan fuel (size + al)) as [l'| | |] eqn:El; try done. intros [= <-].
  constructor; [done|]. by apply (IH (size + al)).
Qed.
Lemma the_plan_nums :
  forallb (λ e, (pl_num e =? Z.max 2 (65536 / pl_size e)) && negb (pl_size e =? 0)) the_plan = true.
Proof. vm_compute. reflexivity. Qed.

Lemma NumMoveSize_planned transfer s :
  s ∈ (pl_size <$> the_plan) →
  NumMoveSize transfer s = Ok (Z.min transfer (Z.max 2 (65536 / s))).
Proof.
  intros (e & -> & He)%list_elem_of_fmap.
  destruct the_plan_ok as [Hp _]. apply plan_moves in Hp. rewrite Forall_forall in Hp.
  pose proof the_plan_nums as Hn. rewrite forallb_forall in Hn.
  specialize (Hn e ltac:(by apply list_elem_of_In)). specialize (Hp e He).
  apply andb_true_iff in Hn as [Hn1%Z.eqb_eq Hn2%negb_true_iff].
  unfold NumMoveSize. rewrite Hn2, Hp. cbn [mbind outcome_bind mret outcome_ret].
  rewrite Hn1. zcase; f_equal; lia.
Qed.

Lemma init_moves_ok sm transfer fuel : ∀ cl moves,
  zlen (class_to_size_ sm) = kClassSizesMax → zlen moves = kClassSizesMax →
  num_size_classes sm ≤ kClassSizesMax → 0 ≤ cl → num_size_classes sm - cl < Z.of_nat fuel →
  (∀ c, 1 ≤ c < num_size_classes sm → class_to_size_ sm @! c ∈ (pl_size <$> the_plan)) →
  1 ≤ cl → (0 < fuel)%nat →
  ∃ moves', init_moves fuel transfer cl sm moves = Ok moves' ∧ zlen moves' = kClassSizesMax ∧
    ∀ c, 1 ≤ c < num_size_classes sm → moves' @! c =
      if decide (cl ≤ c) then Z.min transfer (Z.max 2 (65536 / class_to_size_ sm @! c))
      else moves @! c.
Proof.
  induction fuel as [|fuel IH]; intros cl moves Hs Hm Hn Hcl Hf Hin H1 Hpos; [lia|].
  cbn [init_moves]. destruct (Z.ltb_spec cl (num_size_classes sm)).
  - unfold ByteSizeForClass. rewrite arr_get_total by lia. cbn [mbind outcome_bind].
    rewrite NumMoveSize_planned by (apply Hin; lia). cbn [mbind outcome_bind].
    rewrite arr_set_ok by lia. cbn [mbind outcome_bind].
    edestruct (IH (cl + 1)) as (m' & E & Hl & Hc);
      [done|by rewrite zlen_insert|lia|lia|lia|done|lia|lia|].
    rewrite E. exists m'. split; [done|]. split; [done|]. intros c Hcr. rewrite Hc by done.
    rewrite lookup_total_insert_if by lia. repeat case_decide; subst; done || lia.
  - exists moves. split; [done|]. split; [done|]. intros c Hc. by rewrite decide_False by lia.
Qed.

(** *** The computed classes *)
Record computed (n : Z) (sizes pages : list Z) : Prop := {
  comp_wf : classes_wf n sizes;
  comp_pages : zlen pages = kClassSizesMax;
  comp_good c : 1 ≤ c < n → class_good (sizes @! (c - 1)) (sizes @! c) (pages @! c) = true;
  comp_planned c : 1 ≤ c < n → sizes @! c ∈ (pl_size <$> the_plan);
  comp_fits c : 1 ≤ c < n → sizes @! c ≤ (sizes @! (c - 1) / kPageSize + 1) * kPageSize;
}.

Lemma the_classes_computed k :
  0 ≤ k → ∃ n sizes pages, run_plan k the_plan no_classes = Ok (n, sizes, pages) ∧
    computed n sizes pages.
Proof.
  intros Hk. pose proof (classes_for_every_flag k Hk) as Hg. unfold classes_good in Hg.
  destruct (run_plan k the_plan no_classes) as [[[n sizes] pages]| | |] eqn:E; try done.
  rewrite !andb_true_iff in Hg. destruct Hg as [[[[[[[H1 H2] H3] H4] H5] H6] Hall] Hfit].
  apply Z.ltb_lt in H1. apply Z.leb_le in H2. apply Z.eqb_eq in H3, H4, H5, H6.
  rewrite forallb_forall in Hall, Hfit.
  assert (Hc : ∀ c, 1 ≤ c < n →
    class_good (sizes @! (c - 1)) (sizes @! c) (pages @! c) = true).
  { intros c Hc. apply Hall, list_elem_of_In, elem_of_seqZ. lia. }
  assert (Hwf : classes_wf n sizes).
  { assert (∀ c, 1 ≤ c < n → sizes @! (c - 1) < sizes @! c ∧ sizes @! c mod 8 = 0 ∧
      (1024 ≤ sizes @! c → sizes @! c mod 128 = 0)) as Hgran.
    { intros c Hcr. specialize (Hc c Hcr). unfold class_good in Hc.
      rewrite !andb_true_iff, orb_true_iff in Hc.
      destruct Hc as [[[[[[[Ha Hb] Hd] _] _] _] _] _].
      apply Z.ltb_lt in Ha. apply Z.eqb_eq in Hb. split; [done|]. split; [done|]. intros.
      destruct Hd as [Hd%Z.ltb_lt|Hd%Z.eqb_eq]; [lia|done]. }
    split; try done.
    - intros c Hcr. by apply Hgran.
    - intros c Hcr. destruct (Z.eq_dec c 0) as [->|]; [rewrite H5; by split|].
      apply Hgran. lia. }
  eexists _, _, _. split; [done|]. split; try done.
  2: { intros c Hcr. apply Z.leb_le, (Hfit c), list_elem_of_In, elem_of_seqZ. lia. }
  intros c Hcr. pose proof (run_plan_in the_plan k the_plan no_classes _ ltac:(by
    apply Forall_replicate; left) ltac:(done) E) as Hin.
  unfold sizes_in in Hin. simpl in Hin. rewrite Forall_forall in Hin.
  destruct (Hin (sizes @! c)) as [E0|]; [| |done].
  - apply (list_elem_of_lookup_2 _ (Z.to_nat c)), list_lookup_lookup_total_lt.
    unfold zlen in H3. change kClassSizesMax with 96 in *. lia.
  - pose proof (wf_increasing _ _ Hwf c Hcr). pose proof (wf_range _ _ (c - 1) Hwf ltac:(lia)). lia.
Qed.

Lemma computed_multiple n sizes pages j c s :
  computed n sizes pages → 4 ≤ j ≤ 13 → 1 ≤ c < n → in_class sizes c s → s mod 2 ^ j = 0 → 0 < s →
  sizes @! c mod 2 ^ j = 0.
Proof.
  intros Hcomp Hj Hc (_ & Hle & Hprev) Hmod Hs.
  pose proof (comp_good _ _ _ Hcomp c Hc) as Hg. unfold class_good in Hg.
  rewrite !andb_true_iff in Hg. destruct Hg as [[[[_ Hal] _] _] _].
  rewrite forallb_forall in Hal.
  specialize (Hal j ltac:(apply list_elem_of_In, elem_of_seqZ; lia)). cbv zeta in Hal.
  set (al := 2 ^ j) in *. assert (0 < al) by (apply Z.pow_pos_nonneg; lia).
  rewrite orb_true_iff, Z.ltb_lt, Z.eqb_eq in Hal.
  assert (Hm : (sizes @! (c - 1) / al + 1) * al ≤ s).
  { assert (Hs' : s = al * (s / al)) by (pose proof (Z.div_mod s al); lia).
    assert (sizes @! (c - 1) < s).
    { destruct Hprev as [->|]; [|done]. change (1 - 1) with 0.
      rewrite (wf_first _ _ (comp_wf _ _ _ Hcomp)). lia. }
    assert (sizes @! (c - 1) / al < s / al); [|nia].
    apply Z.div_lt_upper_bound; lia. }
  destruct Hal as [Hal|Hal]; [lia|done].
Qed.
Lemma computed_aligned n sizes pages j c :
  computed n sizes pages → 4 ≤ j ≤ 13 → 1 ≤ c < n → aligned sizes (2 ^ j) c.
Proof. intros Hcomp Hj Hc s Hin Hmod [Hs _]. by apply (computed_multiple n sizes pages j c s). Qed.

(** The result of [Init], with what holds of it. *)
Lemma SizeMap_Init_computed fuel transfer :
  0 ≤ transfer → 33000 ≤ Z.of_nat fuel →
  ∃ sm, SizeMap_Init fuel transfer SizeMap_static = Ok sm ∧ map_ok sm ∧
    computed (num_size_classes sm) (class_to_size_ sm) (class_to_pages_ sm) ∧
    zlen (num_objects_to_move_ sm) = kClassSizesMax ∧
    ∀ c, 1 ≤ c < num_size_classes sm → num_objects_to_move_ sm @! c =
      Z.min transfer (Z.max 2 (65536 / class_to_size_ sm @! c)).
Proof.
  intros Ht Hf. unfold SizeMap_Init.
  rewrite !ClassIndex_ok by (change kMaxSize with 262144; lia). cbn [mbind outcome_bind].
  change (cidx 0 =? 0) with true. change (cidx kMaxSize <? kClassArraySize) with true.
  cbn [check mbind outcome_bind]. change (kAlignment <=? kMinAlign) with true. cbn [check mbind outcome_bind].
  destruct the_plan_ok as [Hplan Hpok].
  change (1, class_to_size_ SizeMap_static, class_to_pages_ SizeMap_static) with no_classes.
  rewrite (compute_classes_plan transfer 128 fuel kAlignment the_plan no_classes Ht eq_refl
    Hplan Hpok ltac:(lia)).
  destruct (the_classes_computed (transfer / 4) ltac:(apply Z.div_pos; lia))
    as (n & sizes & pages & -> & Hcomp). cbn [mbind outcome_bind].
  pose proof (comp_wf _ _ _ Hcomp) as Hwf. destruct (wf_count _ _ Hwf).
  destruct (finish_classes_ok fuel SizeMap_static n sizes pages Hwf) as (arr & -> & Hmap);
    [intros; by eapply computed_aligned|reflexivity|lia|]. cbn [mbind outcome_bind].
  set (sm := mkSizeMap arr _ sizes pages n) in *.
  destruct (init_moves_ok sm transfer fuel 1 (num_objects_to_move_ SizeMap_static))
    as (moves & E & Hl & Hmoves);
    [apply (wf_length _ _ Hwf)|reflexivity|done|lia| |apply (comp_planned _ _ _ Hcomp)|lia|lia|].
  { change kClassSizesMax with 96 in *. simpl. lia. }
  change (num_objects_to_move_ SizeMap_static) with (num_objects_to_move_ sm) in E.
  rewrite E. cbn [mbind outcome_bind mret outcome_ret]. eexists. split; [done|].
  split; [by destruct Hmap; split|]. split; [done|]. split; [done|].
  intros c Hc. simpl. rewrite Hmoves by done. by rewrite decide_True by lia.
Qed.

(** C24. Whatever the flag (any value of the environment variable that is not
    negative), [Init] returns without a failing check, and maps every request up
    to the largest size, from 0 on, to the least class that holds it. No class
    wastes more than 16 bytes or a quarter of the request, and a request, not of 0,
    that is a multiple of a power of two from 16 to the page size gets a class that is too
    (so that the objects of a span are aligned to it). *)
Theorem size_map_classifies flag env fuel :
  0 ≤ InitTCMallocTransferNumObjects flag env → 33000 ≤ Z.of_nat fuel →
  ∃ sm, SizeMap_Init fuel (InitTCMallocTransferNumObjects flag env) SizeMap_static = Ok sm ∧
    num_size_classes sm ≤ kClassSizesMax ∧
    ∀ s, 0 ≤ s ≤ kMaxSize → ∃ c size,
      SizeClass sm s = Ok c ∧ GetSizeClass sm s = Ok (Some c) ∧ 1 ≤ c < num_size_classes sm ∧
      ByteSizeForClass sm c = Ok size ∧ s ≤ size ∧ (size - s ≤ 16 ∨ 4 * (size - s) ≤ s) ∧
      (∀ c' size', 1 ≤ c' < c → ByteSizeForClass sm c' = Ok size' → size' < s) ∧
      (∀ j, 4 ≤ j ≤ 13 → s mod 2 ^ j = 0 → 0 < s → size mod 2 ^ j = 0).
Proof.
  intros Ht Hf. destruct (SizeMap_Init_computed fuel _ Ht Hf) as (sm & E & Hm & Hcomp & _).
  exists sm. split; [done|]. pose proof (map_wf _ Hm) as Hwf. split; [apply (wf_count _ _ Hwf)|].
  intros s Hs. destruct (map_class sm s Hm Hs) as (c & Ec & Hc & Hin & Eb).
  destruct (wf_count _ _ Hwf). exists c, (class_to_size_ sm @! c).
  split; [done|]. split.
  { unfold GetSizeClass. rewrite ClassIndexMaybe_ok, (proj2 (Z.leb_le s _)) by lia.
    unfold SizeClass in Ec. rewrite ClassIndex_ok in Ec by lia. simpl in Ec. by rewrite Ec. }
  split; [done|]. split; [done|]. pose proof Hin as (_ & Hle & Hprev). split; [done|].
  pose proof (comp_good _ _ _ Hcomp c Hc) as Hg. unfold class_good in Hg.
  rewrite !andb_true_iff, !orb_true_iff, !Z.leb_le in Hg.
  destruct Hg as [[[[[[[_ _] _] Hgap] _] _] _] _].
  assert (Hp : s = 0 ∨ class_to_size_ sm @! (c - 1) < s).
  { destruct Hprev as [->|]; [|by right]. change (1 - 1) with 0. rewrite (wf_first _ _ Hwf). lia. }
  split.
  { destruct Hp as [->|]; [|lia]. destruct (Z.eq_dec c 1) as [->|Hc1].
    - change (1 - 1) with 0 in Hgap. rewrite (wf_first _ _ Hwf) in Hgap.
      pose proof (wf_granularity _ _ Hwf 1 ltac:(lia)) as [? _]. zdiv.
    - destruct Hprev as [->|Hlt]; [done|]. pose proof (wf_range _ _ (c - 1) Hwf ltac:(lia)). lia. }
  split; [|intros; by apply (computed_multiple _ _ _ _ c s Hcomp)].
  intros c' size' Hc' Eb'. unfold ByteSizeForClass in Eb'.
  rewrite arr_get_total in Eb' by (rewrite (wf_length _ _ Hwf); lia). injection Eb' as <-.
  destruct Hprev as [->|Hlt]; [lia|]. pose proof (wf_mono _ _ c' (c - 1) Hwf ltac:(lia) ltac:(lia)). lia.
Qed.

(** The spans and transfers of each class: a span has at least one object,
    and leaves over at most an eighth of its bytes; about 64 KiB are moved at a
    time, at least two objects and at most as many as the flag says. *)
Theorem size_map_spans flag env fuel :
  0 ≤ InitTCMallocTransferNumObjects flag env → 33000 ≤ Z.of_nat fuel →
  ∃ sm, SizeMap_Init fuel (InitTCMallocTransferNumObjects flag env) SizeMap_static = Ok sm ∧
    ∀ c, 1 ≤ c < num_size_classes sm → ∃ size pages,
      class_to_size sm c = Ok size ∧ class_to_pages sm c = Ok pages ∧ 0 < size ∧
      size ≤ Z.shiftl pages kPageShift ∧
      8 * (Z.shiftl pages kPageShift mod size) ≤ Z.shiftl pages kPageShift ∧
      num_objects_to_move sm c =
        Ok (Z.min (InitTCMallocTransferNumObjects flag env) (Z.max 2 (65536 / size))).
Proof.
  intros Ht Hf. destruct (SizeMap_Init_computed fuel _ Ht Hf) as (sm & E & Hm & Hcomp & Hl & Hmv).
  exists sm. split; [done|]. intros c Hc. pose proof (map_wf _ Hm) as Hwf.
  destruct (wf_count _ _ Hwf). pose proof (wf_increasing _ _ Hwf c Hc).
  pose proof (wf_range _ _ (c - 1) Hwf ltac:(lia)).
  pose proof (comp_good _ _ _ Hcomp c Hc) as Hg. unfold class_good in Hg.
  rewrite !andb_true_iff, !Z.leb_le in Hg. destruct Hg as [[[_ _] Hwaste] Hone].
  exists (class_to_size_ sm @! c), (class_to_pages_ sm @! c).
  split; [apply arr_get_total; rewrite (wf_length _ _ Hwf); lia|].
  split; [apply arr_get_total; rewrite (comp_pages _ _ _ Hcomp); lia|].
  split; [lia|]. split; [done|]. split; [done|].
  rewrite <- Hmv by done. apply arr_get_total. lia.
Qed.

(** A negative number of blocks, converted to [size_t], is never reached. *)
Lemma span_size_diverges blocks fuel : ∀ psize,
  INT_MIN ≤ blocks < 0 → 0 ≤ psize < 2 ^ 64 → psize mod 8 = 0 →
  span_size fuel 8 blocks psize = NoFuel.
Proof.
  induction fuel as [|fuel IH]; intros psize Hb Hp H8; [done|]. cbn [span_size bound_leftover].
  set (p := Prelude.size_t (psize + kPageSize)).
  assert (Hp' : 0 ≤ p < 2 ^ 64 ∧ p mod 8 = 0).
  { unfold p, Prelude.size_t. change kPageSize with 8192. zdiv. }
  destruct Hp' as [Hr Hm]. rewrite Hm, (proj2 (Z.ltb_ge _ 0)) by (apply Z.shiftr_nonneg; lia).
  cbn [mret outcome_ret mbind outcome_bind].
  rewrite size_t_neg by done. unfold INT_MIN in Hb.
  rewrite (proj2 (Z.ltb_lt _ _)) by zdiv. by apply IH.
Qed.

(** A negative value of the environment variable [TCMALLOC_TRANSFER_NUM_OBJ]
    (-4 or less) makes [Init] loop for ever: the number of blocks to move is
    compared as an unsigned number. *)
Theorem size_map_negative_flag_diverges v fuel :
  INT_MIN ≤ v ≤ -4 →
  SizeMap_Init fuel (InitTCMallocTransferNumObjects 0 (Some v)) SizeMap_static = NoFuel.
Proof.
  intros Hv. unfold InitTCMallocTransferNumObjects. simpl.
  assert (to_int v = v) as ->.
  { unfold to_int, INT_MIN in *.
    assert (v mod 2 ^ 32 = v + 2 ^ 32) as -> by zdiv. zcase; lia. }
  unfold SizeMap_Init. rewrite !ClassIndex_ok by (change kMaxSize with 262144; lia).
  cbn [mbind outcome_bind]. change (cidx 0 =? 0) with true.
  change (cidx kMaxSize <? kClassArraySize) with true. change (kAlignment <=? kMinAlign) with true.
  cbn [check mbind outcome_bind]. destruct fuel as [|fuel]; [done|]. cbn [compute_classes].
  change (kAlignment <=? kMaxSize) with true. cbn iota.
  change (AlignmentForSize kAlignment) with (Ok 8). cbn [mbind outcome_bind].
  change (kAlignment mod 8 =? 0) with true. cbn [check mbind outcome_bind].
  unfold NumMoveSize. change (kAlignment =? 0) with false. cbn iota.
  assert (move_64k kAlignment = Ok 8192) as -> by (vm_compute; reflexivity).
  cbn [mbind outcome_bind mret outcome_ret]. rewrite (proj2 (Z.ltb_lt v 8192)) by lia.
  change kAlignment with 8. rewrite span_size_diverges; [done| |lia|done].
  unfold INT_MIN in *. zdiv.
Qed.
