(* ===== verification/PackedCache.v ===== *)
(** * The cache of size classes: [libs/tcmalloc/src/packed-cache-inl.h]

    A direct-mapped cache of 2^16 machine words: the low bits of a key select
    the word, which holds the other bits of the key and a value of 7 bits.  The
    abstract specification is a table that remembers, for each word, the last
    pair put there. *)
From S2P Require Import Prelude.
From stdpp Require Import base numbers list option.
From Stdlib Require Import ZArith Lia.
Open Scope Z_scope.

Definition kHashbits : Z := 16.
Definition kValuebits : Z := 7.
Definition kInvalidMask : Z := 128.
(** [N_ONES_]. *)
Definition N_ONES (n : Z) : Z :=
  if n =? 0 then 0 else Z.shiftl 1 (n - 1) - 1 + Z.shiftl 1 (n - 1).

Section cache.
(** The template argument. *)
Variable kKeybits : Z.

Record PackedCache := mkPackedCache { array_ : list Z }.
Definition kKeyMask : Z := N_ONES kKeybits.
Definition kValueMask : Z := N_ONES kValuebits.

Definition Hash (key : Z) : Z := Z.land key (N_ONES kHashbits).
Definition KeyToUpper (k : Z) : Z := Z.lxor k (Hash k).

(** [memset] of the byte [0x80] over the words. *)
Definition Clear : PackedCache :=
  mkPackedCache (replicate (Z.to_nat (2 ^ kHashbits)) 9259542123273814144).

Definition TryGet (c : PackedCache) (key : Z) : outcome (option Z) :=
  _ ← check (key =? Z.land key kKeyMask);
  let hash := Hash key in
  let expected_entry := Z.ldiff key (N_ONES kHashbits) in
  entry ← arr_get (array_ c) hash;
  let entry := Z.lxor entry expected_entry in
  if Z.shiftl 1 kValuebits <=? entry then mret None else mret (Some (u32 entry)).

Definition Put (c : PackedCache) (key value : Z) : outcome PackedCache :=
  _ ← check (key =? Z.land key kKeyMask);
  _ ← check (value =? Z.land value kValueMask);
  a ← arr_set (array_ c) (Hash key) (Z.lor (KeyToUpper key) value);
  mret (mkPackedCache a).

Definition Invalidate (c : PackedCache) (key : Z) : outcome PackedCache :=
  _ ← check (key =? Z.land key kKeyMask);
  a ← arr_set (array_ c) (Hash key) (Z.lor (KeyToUpper key) kInvalidMask);
  mret (mkPackedCache a).

(** ** The specification *)
(** What was last stored in the word a key selects. *)
Definition table : Type := Z → option (Z * Z).
Definition table_empty : table := λ _, None.
Definition table_put (t : table) (key : Z) (e : option Z) : table :=
  λ h, if h =? Hash key then (λ v, (key, v)) <$> e else t h.
Definition table_get (t : table) (key : Z) : option Z :=
  match t (Hash key) with
  | Some (k, v) => if k =? key then Some v else None
  | None => None
  end.

(** A word and the entry it stands for.  A word without one has the bit 7 set. *)
Definition word_holds (h w : Z) (e : option (Z * Z)) : Prop :=
  0 ≤ w ∧
  match e with
  | Some (k, v) => 0 ≤ k ∧ Hash k = h ∧ 0 ≤ v < 2 ^ kValuebits ∧ w = Z.lor (KeyToUpper k) v
  | None => Z.testbit w 7 = true
  end.
Definition cache_holds (c : PackedCache) (t : table) : Prop :=
  zlen (array_ c) = 2 ^ kHashbits ∧
  ∀ h, 0 ≤ h < 2 ^ kHashbits → word_holds h (array_ c !!! Z.to_nat h) (t h).

(** ** Facts about the bits *)
Definition key_ok (k : Z) : Prop := 0 ≤ k < 2 ^ kKeybits.

Lemma N_ONES_ones n : 0 ≤ n → N_ONES n = Z.ones n.
Proof.
  intros Hn. unfold N_ONES. zcase; [by subst|].
  rewrite Z.ones_equiv, !Z.shiftl_mul_pow2 by lia.
  replace n with (Z.succ (n - 1)) at 3 by lia. rewrite Z.pow_succ_r by lia. lia.
Qed.
Lemma Hash_mod k : Hash k = k mod 2 ^ 16.
Proof. unfold Hash. rewrite N_ONES_ones by done. by apply Z.land_ones. Qed.
Lemma Hash_range k : 0 ≤ Hash k < 2 ^ kHashbits.
Proof. rewrite Hash_mod. apply Z.mod_pos_bound. done. Qed.
Lemma upper_bits k i : 0 ≤ i → Z.testbit (KeyToUpper k) i = if i <? 16 then false else Z.testbit k i.
Proof.
  intros Hi. unfold KeyToUpper. rewrite Z.lxor_spec, Hash_mod. zcase.
  - rewrite Z.mod_pow2_bits_low by lia. by destruct (Z.testbit k i).
  - rewrite Z.mod_pow2_bits_high by lia. by destruct (Z.testbit k i).
Qed.
Lemma ldiff_upper k : Z.ldiff k (N_ONES kHashbits) = KeyToUpper k.
Proof.
  apply Z.bits_inj'. intros i Hi. rewrite upper_bits, Z.ldiff_spec, N_ONES_ones by done.
  unfold kHashbits. rewrite Z.testbit_ones_nonneg by lia. zcase; destruct (Z.testbit k i); done.
Qed.
Lemma upper_nonneg k : 0 ≤ k → 0 ≤ KeyToUpper k.
Proof. intros. apply Z.lxor_nonneg. pose proof (Hash_range k). lia. Qed.
Lemma key_mask k : 0 ≤ kKeybits → key_ok k → (k =? Z.land k kKeyMask) = true.
Proof.
  intros Hb [Hk1 Hk2]. unfold kKeyMask. rewrite N_ONES_ones, Z.land_ones by lia.
  apply Z.eqb_eq. symmetry. by apply Z.mod_small.
Qed.
Lemma value_mask v : 0 ≤ v < 2 ^ kValuebits → (v =? Z.land v kValueMask) = true.
Proof.
  intros Hv. unfold kValueMask. rewrite N_ONES_ones, Z.land_ones by done.
  apply Z.eqb_eq. symmetry. by apply Z.mod_small.
Qed.

(** A number with a bit at or above the 7th is no value. *)
Lemma bit_large z i : 0 ≤ z → 7 ≤ i → Z.testbit z i = true → 2 ^ 7 ≤ z.
Proof.
  intros Hz Hi Hb. destruct (Z.leb_spec (2 ^ 7) z) as [|Hlt]; [done|].
  destruct (Z.eq_dec z 0) as [->|]; [by rewrite Z.bits_0 in Hb|].
  rewrite Z.bits_above_log2 in Hb; [done|lia|].
  apply (Z.lt_le_trans _ 7); [|done]. apply Z.log2_lt_pow2; lia.
Qed.
Lemma value_bits v i : 0 ≤ v < 2 ^ 7 → 7 ≤ i → Z.testbit v i = false.
Proof.
  intros Hv Hi. destruct (Z.testbit v i) eqn:E; [|done].
  apply bit_large in E; lia.
Qed.

(** The exclusive or with the expected bits leaves exactly a value when the key
    is the one of the word. *)
Lemma entry_same k v : 0 ≤ v < 2 ^ 7 → Z.lxor (Z.lor (KeyToUpper k) v) (KeyToUpper k) = v.
Proof.
  intros Hv. apply Z.bits_inj'. intros i Hi. rewrite Z.lxor_spec, Z.lor_spec, upper_bits by done.
  zcase; [by destruct (Z.testbit v i)|].
  rewrite (value_bits v i) by lia. by destruct (Z.testbit k i).
Qed.
Lemma entry_other k k' v :
  0 ≤ k → 0 ≤ k' → 0 ≤ v < 2 ^ 7 → Hash k = Hash k' → k ≠ k' →
  2 ^ 7 ≤ Z.lxor (Z.lor (KeyToUpper k') v) (KeyToUpper k).
Proof.
  intros Hk Hk' Hv Hh Hne. set (e := Z.lxor _ _).
  assert (He : 0 ≤ e).
  { apply Z.lxor_nonneg. rewrite Z.lor_nonneg.
    pose proof (upper_nonneg k Hk). pose proof (upper_nonneg k' Hk'). lia. }
  assert (Hs : Z.shiftr e 16 = Z.lxor (Z.shiftr k' 16) (Z.shiftr k 16)).
  { apply Z.bits_inj'. intros i Hi. unfold e.
    rewrite Z.lxor_spec, !Z.shiftr_spec, Z.lxor_spec, Z.lor_spec, !upper_bits by lia.
    rewrite (proj2 (Z.ltb_ge _ 16)), (value_bits v) by lia. by rewrite orb_false_r. }
  assert (Z.shiftr k' 16 ≠ Z.shiftr k 16).
  { rewrite !Z.shiftr_div_pow2 by done. rewrite !Hash_mod in Hh. intros E. apply Hne.
    rewrite (Z.div_mod k (2 ^ 16)), (Z.div_mod k' (2 ^ 16)) by done. congruence. }
  assert (Hnz : Z.shiftr e 16 ≠ 0) by (by rewrite Hs, Z.lxor_eq_0_iff).
  rewrite Z.shiftr_div_pow2 in Hnz by done.
  destruct (Z.leb_spec (2 ^ 7) e); [done|]. rewrite Z.div_small in Hnz by lia. done.
Qed.
Lemma entry_invalid k w :
  0 ≤ k → 0 ≤ w → Z.testbit w 7 = true → 2 ^ 7 ≤ Z.lxor w (KeyToUpper k).
Proof.
  intros Hk Hw H7. apply (bit_large _ 7); [|done|by rewrite Z.lxor_spec, upper_bits, H7].
  apply Z.lxor_nonneg. pose proof (upper_nonneg k Hk). lia.
Qed.

(** ** The operations implement the table *)
Lemma TryGet_spec c t k :
  0 ≤ kKeybits → cache_holds c t → key_ok k → TryGet c k = Ok (table_get t k).
Proof.
  intros Hb [Hl Hw] Hk. unfold TryGet. rewrite key_mask by done. cbn [check mbind outcome_bind].
  pose proof (Hash_range k) as Hr. rewrite arr_get_total by lia. cbn [mbind outcome_bind].
  rewrite ldiff_upper. change (Z.shiftl 1 kValuebits) with (2 ^ 7). destruct Hk as [Hk _].
  specialize (Hw (Hash k) Hr). unfold table_get, word_holds in *.
  destruct (t (Hash k)) as [[k' v]|]; destruct Hw as [Hw0 Hw].
  - destruct Hw as (Hk' & Hh & Hv & ->). destruct (Z.eqb_spec k' k) as [->|Hne].
    + rewrite entry_same by done. rewrite (proj2 (Z.leb_gt _ _)) by apply Hv.
      unfold u32. change kValuebits with 7 in Hv. rewrite Z.mod_small by lia. done.
    + rewrite (proj2 (Z.leb_le _ _)); [done|]. by apply entry_other.
  - rewrite (proj2 (Z.leb_le _ _)); [done|]. by apply entry_invalid.
Qed.

Lemma store_spec c t k w e :
  cache_holds c t → word_holds (Hash k) w ((λ v, (k, v)) <$> e) →
  ∃ a, arr_set (array_ c) (Hash k) w = Ok a ∧ cache_holds (mkPackedCache a) (table_put t k e).
Proof.
  intros [Hl Hw] Hword. pose proof (Hash_range k) as Hr.
  rewrite arr_set_ok by lia. eexists. split; [done|]. split; [by rewrite <- Hl; apply zlen_insert|].
  intros h Hh. simpl. rewrite lookup_total_insert_if by lia. unfold table_put.
  case_decide as E; [subst h; by rewrite Z.eqb_refl|].
  rewrite (proj2 (Z.eqb_neq _ _)) by done. by apply Hw.
Qed.

Lemma Put_spec c t k v :
  0 ≤ kKeybits → cache_holds c t → key_ok k → 0 ≤ v < 2 ^ kValuebits →
  ∃ c', Put c k v = Ok c' ∧ cache_holds c' (table_put t k (Some v)).
Proof.
  intros Hb Hc Hk Hv. unfold Put. rewrite key_mask, value_mask by done.
  cbn [check mbind outcome_bind]. pose proof (upper_nonneg k (proj1 Hk)).
  destruct (store_spec c t k (Z.lor (KeyToUpper k) v) (Some v) Hc) as (a & -> & Ha); [|by eexists].
  split; [rewrite Z.lor_nonneg; lia|]. split; [apply Hk|done].
Qed.
Lemma Invalidate_spec c t k :
  0 ≤ kKeybits → cache_holds c t → key_ok k →
  ∃ c', Invalidate c k = Ok c' ∧ cache_holds c' (table_put t k None).
Proof.
  intros Hb Hc Hk. unfold Invalidate. rewrite key_mask by done. cbn [check mbind outcome_bind].
  pose proof (upper_nonneg k (proj1 Hk)).
  destruct (store_spec c t k (Z.lor (KeyToUpper k) kInvalidMask) None Hc) as (a & -> & Ha);
    [|by eexists].
  split; [rewrite Z.lor_nonneg; unfold kInvalidMask; lia|].
  rewrite Z.lor_spec. change (Z.testbit kInvalidMask 7) with true. by rewrite orb_true_r.
Qed.
Lemma Clear_spec : cache_holds Clear table_empty.
Proof.
  unfold Clear. split; cbn [array_].
  - rewrite zlen_replicate. apply Z2Nat.id. by apply Z.pow_nonneg.
  - intros h Hh. rewrite lookup_total_replicate_2; [by split|]. apply Z2Nat.inj_lt; lia.
Qed.

(** Operations on a cache, and on a table. *)
Inductive cache_op := OpPut (key value : Z) | OpInvalidate (key : Z) | OpClear.
Definition op_ok (o : cache_op) : Prop :=
  match o with
  | OpPut k v => key_ok k ∧ 0 ≤ v < 2 ^ kValuebits
  | OpInvalidate k => key_ok k
  | OpClear => True
  end.
Definition cache_run (o : cache_op) (c : PackedCache) : outcome PackedCache :=
  match o with OpPut k v => Put c k v | OpInvalidate k => Invalidate c k | OpClear => mret Clear end.
Definition table_run (o : cache_op) (t : table) : table :=
  match o with
  | OpPut k v => table_put t k (Some v)
  | OpInvalidate k => table_put t k None
  | OpClear => table_empty
  end.
Fixpoint cache_runs (os : list cache_op) (c : PackedCache) : outcome PackedCache :=
  match os with [] => mret c | o :: os => c ← cache_run o c; cache_runs os c end.

(** C22. The cache is a table with one entry for each hash: after any sequence of
    stores, invalidations and clearings with keys and values in range, none of
    which fails a check, looking a key up gives the value of the last store to
    its hash when that was for this very key, and nothing otherwise (never
    another key's value, and nothing from an invalidated or cleared word). *)
Theorem packed_cache_refines_table os k :
  0 ≤ kKeybits → Forall op_ok os → key_ok k →
  ∃ c, cache_runs os Clear = Ok c ∧
    TryGet c k = Ok (table_get (foldl (λ t o, table_run o t) table_empty os) k).
Proof.
  intros Hb Hos Hk.
  assert (Hg : ∀ c t, cache_holds c t → ∃ c', cache_runs os c = Ok c' ∧
    cache_holds c' (foldl (λ t o, table_run o t) t os)).
  { induction Hos as [|o os Ho Hos IH]; intros c t Hc; [by eexists|].
    assert (∃ c1, cache_run o c = Ok c1 ∧ cache_holds c1 (table_run o t)) as (c1 & E1 & H1).
    { destruct o as [k1 v1|k1|]; simpl.
      - destruct Ho. by apply Put_spec.
      - by apply Invalidate_spec.
      - eexists. split; [done|apply Clear_spec]. }
    simpl. rewrite E1. simpl. by apply IH. }
  destruct (Hg Clear table_empty Clear_spec) as (c & E & Hc).
  exists c. split; [done|]. by apply TryGet_spec.
Qed.
End cache.
