(* ===== verification/PageMap.v ===== *)
(** * Page maps: [libs/tcmalloc/src/pagemap.h]

    Maps from page numbers to pointers (0 is the null pointer): a flat array and
    a radix tree of two levels, whose nodes come from an allocator that may fail.
    Both implement one interface, [PageMap] with [PageMapLaws], against which the
    page heap is proved. *)
From S2P Require Import Prelude.
From stdpp Require Import base numbers list option relations.
From Stdlib Require Import ZArith Lia.
Open Scope Z_scope.

(** The allocator of the nodes: whether it gives the bytes asked for. *)
Class Allocator (A : Type) := alloc : Z → A → outcome (bool * A).
(** It returns, from a state it can reach, and [al_le] holds of what it does. *)
Class AllocatorLaws (A : Type) `{Allocator A} := {
  al_wf : A → Prop;
  al_le : A → A → Prop;
  al_preorder :: PreOrder al_le;
  alloc_spec n a : al_wf a → 0 < n < 2 ^ 62 →
    ∃ ok a', alloc n a = Ok (ok, a') ∧ al_wf a' ∧ al_le a a';
}.

(** ** The interface *)
Class PageMap (P A : Type) := {
  pm_bits : Z;
  pm_get : P → Z → outcome Z;
  pm_set : P → Z → Z → outcome P;
  pm_ensure : nat → P → Z → Z → A → outcome (bool * P * A);
  pm_prealloc : nat → P → A → outcome (P * A);
  pm_next : nat → P → Z → outcome Z;
}.

(** [r] is the first value from [k] on that is not null, or null. *)
Definition first_from (f : Z → Z) (k r : Z) : Prop :=
  (r = 0 ∧ ∀ j, k ≤ j → f j = 0) ∨
  (r ≠ 0 ∧ ∃ j, k ≤ j ∧ f j = r ∧ ∀ i, k ≤ i < j → f i = 0).

Class PageMapLaws (P A : Type) `{PageMap P A, AllocatorLaws A} := {
  (** The value of a page, and the pages which can be set. *)
  pm_wf : P → Prop;
  pm_at : P → Z → Z;
  pm_has : P → Z → Prop;
  pm_enough : nat → Prop;
  pm_bits_range : 0 ≤ pm_bits ≤ 52;
  pm_get_spec m k : pm_wf m → 0 ≤ k → pm_get m k = Ok (pm_at m k);
  pm_set_spec m k v : pm_wf m → pm_has m k →
    ∃ m', pm_set m k v = Ok m' ∧ pm_wf m' ∧
      (∀ j, pm_at m' j = if decide (j = k) then v else pm_at m j) ∧
      (∀ j, pm_has m j → pm_has m' j);
  (** [Ensure], from a page that is not beyond the end of the map. *)
  pm_ensure_spec fuel m x n a :
    pm_wf m → al_wf a → pm_enough fuel → 0 ≤ x ≤ 2 ^ pm_bits → 1 ≤ n → x + n ≤ 2 ^ 64 →
    ∃ b m' a', pm_ensure fuel m x n a = Ok (b, m', a') ∧ pm_wf m' ∧
      (∀ j, pm_at m' j = pm_at m j) ∧ (∀ j, pm_has m j → pm_has m' j) ∧
      (b = true → ∀ j, x ≤ j < x + n → pm_has m' j) ∧ al_wf a' ∧ al_le a a';
  pm_prealloc_spec fuel m a : pm_wf m → al_wf a → pm_enough fuel →
    ∃ m' a', pm_prealloc fuel m a = Ok (m', a') ∧ pm_wf m' ∧
      (∀ j, pm_at m' j = pm_at m j) ∧ (∀ j, pm_has m j → pm_has m' j) ∧ al_wf a' ∧ al_le a a';
  pm_next_spec fuel m k : pm_wf m → pm_enough fuel → 0 ≤ k →
    ∃ r, pm_next fuel m k = Ok r ∧ first_from (pm_at m) k r;
}.

Lemma first_from_skip f k k' r :
  k ≤ k' → (∀ j, k ≤ j < k' → f j = 0) → first_from f k' r → first_from f k r.
Proof.
  intros Hk Hz [[-> Hf]|(Hr & j & Hj & Hfj & Hf)].
  - left. split; [done|]. intros j Hj. destruct (Z.ltb_spec j k'); [apply Hz|apply Hf]; lia.
  - right. split; [done|]. exists j. split; [lia|]. split; [done|]. intros i Hi.
    destruct (Z.ltb_spec i k'); [apply Hz|apply Hf]; lia.
Qed.
Lemma first_from_here f k : f k ≠ 0 → first_from f k (f k).
Proof. intros Hf. right. split; [done|]. exists k. split; [lia|]. split; [done|]. lia. Qed.
Lemma first_from_end f k : (∀ j, k ≤ j → f j = 0) → first_from f k 0.
Proof. by left. Qed.

(** ** Digits of a page number *)
Definition high (L k : Z) : Z := Z.shiftr k L.
Definition low (L k : Z) : Z := Z.land k (Z.shiftl 1 L - 1).
Lemma high_div L k : 0 ≤ L → high L k = k / 2 ^ L.
Proof. apply Z.shiftr_div_pow2. Qed.
Lemma low_mod L k : 0 ≤ L → low L k = k mod 2 ^ L.
Proof.
  intros. unfold low. rewrite Z.shiftl_1_l, <- Z.land_ones, Z.ones_equiv by done. done.
Qed.
Lemma digits L k : 0 ≤ L → k = high L k * 2 ^ L + low L k ∧ 0 ≤ low L k < 2 ^ L.
Proof.
  intros HL. rewrite high_div, low_mod by done. assert (0 < 2 ^ L) by (by apply Z.pow_pos_nonneg).
  pose proof (Z.div_mod k (2 ^ L)). pose proof (Z.mod_pos_bound k (2 ^ L)). lia.
Qed.
Lemma digits_inj L j k : 0 ≤ L → high L j = high L k → low L j = low L k → j = k.
Proof. intros HL. pose proof (digits L j HL). pose proof (digits L k HL). intros. nia. Qed.
Lemma high_range L B k : 0 ≤ L ≤ B → 0 ≤ k < 2 ^ B → 0 ≤ high L k < 2 ^ (B - L).
Proof.
  intros HL Hk. rewrite high_div by lia. assert (0 < 2 ^ L) by (apply Z.pow_pos_nonneg; lia).
  split; [by apply Z.div_pos; lia|]. apply Z.div_lt_upper_bound; [done|].
  rewrite <- Z.pow_add_r by lia. replace (L + (B - L)) with B by lia. lia.
Qed.
Lemma beyond_high B k : 0 ≤ B → 0 ≤ k → (0 <? Z.shiftr k B) = (2 ^ B <=? k).
Proof.
  intros HB Hk. rewrite Z.shiftr_div_pow2 by done. assert (0 < 2 ^ B) by (by apply Z.pow_pos_nonneg).
  destruct (Z.leb_spec (2 ^ B) k).
  - apply Z.ltb_lt. apply Z.div_str_pos. lia.
  - rewrite Z.div_small by lia. done.
Qed.
(** The start of the next leaf. *)
Lemma next_leaf L k : 0 ≤ L → 0 ≤ k → Z.shiftl (high L k + 1) L = (high L k + 1) * 2 ^ L ∧
  k < (high L k + 1) * 2 ^ L ∧ ∀ j, k ≤ j < (high L k + 1) * 2 ^ L → high L j = high L k.
Proof.
  intros HL Hk. rewrite Z.shiftl_mul_pow2 by done. split; [done|].
  destruct (digits L k HL) as [E Hlow]. assert (0 < 2 ^ L) by (by apply Z.pow_pos_nonneg).
  split; [lia|]. intros j Hj. rewrite (high_div L j) by done. symmetry.
  apply (Z.div_unique _ _ _ (j - high L k * 2 ^ L)); lia.
Qed.

(** The scan of a leaf. *)
Fixpoint scan (fuel : nat) (len : Z) (values : list Z) (i : Z) : outcome (option Z) :=
  match fuel with
  | O => NoFuel
  | S fuel =>
      if i <? len then
        v ← arr_get values i;
        if negb (v =? 0) then mret (Some v) else scan fuel len values (i + 1)
      else mret None
  end.
Lemma scan_spec fuel values : ∀ i,
  0 ≤ i → zlen values - i < Z.of_nat fuel → (0 < fuel)%nat →
  (scan fuel (zlen values) values i = Ok None ∧
     ∀ j, i ≤ j < zlen values → values !!! Z.to_nat j = 0) ∨
  (∃ j, scan fuel (zlen values) values i = Ok (Some (values !!! Z.to_nat j)) ∧
     i ≤ j < zlen values ∧ values !!! Z.to_nat j ≠ 0 ∧
     ∀ k, i ≤ k < j → values !!! Z.to_nat k = 0).
Proof.
  induction fuel as [|fuel IH]; intros i Hi Hf Hpos; [lia|]. cbn [scan].
  destruct (Z.ltb_spec i (zlen values)); [|left; split; [done|lia]].
  rewrite arr_get_total by lia. cbn [mbind outcome_bind].
  destruct (Z.eqb_spec (values !!! Z.to_nat i) 0) as [E|E]; cbn [negb].
  - destruct (IH (i + 1) ltac:(lia) ltac:(lia) ltac:(lia)) as [[E1 Hz]|(j & E1 & Hj & Hnz & Hz)].
    + left. split; [done|]. intros j Hj. destruct (Z.eq_dec i j) as [<-|]; [done|]. apply Hz. lia.
    + right. exists j. split; [done|]. split; [lia|]. split; [done|]. intros k Hk.
      destruct (Z.eq_dec i k) as [<-|]; [done|]. apply Hz. lia.
  - right. exists i. split; [done|]. split; [lia|]. split; [done|]. lia.
Qed.

(** ** [TCMalloc_PageMap1]: a flat array

    The number of its entries is [1 << BITS], an [int]: the class is for at most
    30 bits. *)
Section page_map1.
Context {A : Type} `{AllocatorLaws A}.
Variable BITS : Z.
Definition LENGTH : Z := to_int (Z.shiftl 1 BITS).
Record TCMalloc_PageMap1 := mkPageMap1 { array1_ : list Z }.
Implicit Types m : TCMalloc_PageMap1.

(** The constructor writes to the array without looking whether there is one. *)
Definition PageMap1_new (a : A) : outcome (TCMalloc_PageMap1 * A) :=
  '(ok, a) ← alloc (Z.shiftl 8 BITS) a;
  if ok : bool then mret (mkPageMap1 (replicate (Z.to_nat (Z.shiftl 1 BITS)) 0), a) else Undefined NullDeref.
Definition PageMap1_Ensure (fuel : nat) m (x n : Z) (a : A)
  : outcome (bool * TCMalloc_PageMap1 * A) :=
  mret (n <=? Prelude.size_t (Prelude.size_t LENGTH - x), m, a).
Definition PageMap1_PreallocateMoreMemory (fuel : nat) m (a : A)
  : outcome (TCMalloc_PageMap1 * A) := mret (m, a).
Definition PageMap1_get m (k : Z) : outcome Z :=
  if 0 <? Z.shiftr k BITS then mret 0 else arr_get (array1_ m) k.
Definition PageMap1_set m (k v : Z) : outcome TCMalloc_PageMap1 :=
  l ← arr_set (array1_ m) k v; mret (mkPageMap1 l).
Fixpoint PageMap1_Next (fuel : nat) m (k : Z) : outcome Z :=
  match fuel with
  | O => NoFuel
  | S fuel =>
      if k <? Prelude.size_t (to_int (Z.shiftl 1 BITS)) then
        v ← arr_get (array1_ m) k;
        if negb (v =? 0) then mret v else PageMap1_Next fuel m (k + 1)
      else mret 0
  end.

#[global] Instance PageMap1_ops : PageMap TCMalloc_PageMap1 A := {|
  pm_bits := BITS;
  pm_get := PageMap1_get;
  pm_set := PageMap1_set;
  pm_ensure := PageMap1_Ensure;
  pm_prealloc := PageMap1_PreallocateMoreMemory;
  pm_next := PageMap1_Next;
|}.

Hypothesis HBITS : 0 ≤ BITS ≤ 30.
Lemma LENGTH_pow : Prelude.size_t LENGTH = 2 ^ BITS.
Proof.
  unfold LENGTH. rewrite Z.shiftl_1_l.
  assert (0 < 2 ^ BITS ≤ 2 ^ 30) by (split; [apply Z.pow_pos_nonneg; lia|apply Z.pow_le_mono_r; lia]).
  rewrite to_int_small by (unfold INT_MAX; lia). unfold Prelude.size_t. rewrite Z.mod_small; lia.
Qed.
Definition wf1 m : Prop := zlen (array1_ m) = 2 ^ BITS.
Definition at1 m (k : Z) : Z :=
  if (0 <=? k) && (k <? 2 ^ BITS) then array1_ m !!! Z.to_nat k else 0.

Lemma Next1_spec fuel m : ∀ k, wf1 m → 2 ^ BITS - k < Z.of_nat fuel → (0 < fuel)%nat → 0 ≤ k →
  ∃ r, PageMap1_Next fuel m k = Ok r ∧ first_from (at1 m) k r.
Proof.
  induction fuel as [|fuel IH]; intros k Hm Hf Hpos Hk; [lia|]. cbn [PageMap1_Next].
  fold LENGTH. rewrite LENGTH_pow. destruct (Z.ltb_spec k (2 ^ BITS)) as [Hlt|Hge].
  - rewrite arr_get_total by (rewrite Hm; lia). cbn [mbind outcome_bind].
    assert (Hat : at1 m k = array1_ m !!! Z.to_nat k) by (unfold at1; by zbool).
    destruct (Z.eqb_spec (array1_ m !!! Z.to_nat k) 0) as [E|E]; cbn [negb].
    + destruct (IH (k + 1)) as (r & Er & Hr); [done|lia..|].
      exists r. split; [done|]. apply (first_from_skip _ _ (k + 1)); [lia| |done].
      intros j Hj. assert (j = k) as -> by lia. by rewrite Hat.
    + eexists. split; [done|]. rewrite <- Hat in E |- *. by apply first_from_here.
  - eexists. split; [done|]. apply first_from_end. intros j Hj. unfold at1.
    by rewrite (proj2 (Z.ltb_ge j _)), andb_false_r by lia.
Qed.

#[global] Program Instance PageMap1_laws : PageMapLaws TCMalloc_PageMap1 A := {|
  pm_wf := wf1;
  pm_at := at1;
  pm_has m k := 0 ≤ k < 2 ^ BITS;
  pm_enough fuel := 2 ^ BITS < Z.of_nat fuel;
|}.
Next Obligation. simpl. lia. Qed.
Next Obligation.
  intros m k Hm Hk. simpl. unfold PageMap1_get, at1. rewrite beyond_high by lia.
  destruct (Z.leb_spec (2 ^ BITS) k).
  - by rewrite (proj2 (Z.ltb_ge k _)), andb_false_r.
  - zbool. apply arr_get_total. rewrite Hm. lia.
Qed.
Next Obligation.
  intros m k v Hm Hk. unfold wf1 in Hm. simpl in *. unfold PageMap1_set.
  rewrite arr_set_ok by lia. eexists. split; [done|].
  split; [unfold wf1; simpl; by rewrite zlen_insert|]. split; [|done].
  intros j. unfold at1. simpl. destruct (Z.leb_spec 0 j), (Z.ltb_spec j (2 ^ BITS)); simpl;
    try (rewrite lookup_total_insert_if by lia); repeat case_decide; try lia; done.
Qed.
Next Obligation.
  intros fuel m x n a Hm Ha _ Hx Hn Hxn. unfold wf1 in Hm. simpl. simpl in Hx. unfold PageMap1_Ensure.
  eexists _, _, _. split; [done|]. split; [done|]. split; [done|]. split; [done|].
  split; [|by split].
  intros Hb%Z.leb_le j Hj. rewrite LENGTH_pow in Hb.
  assert (2 ^ BITS ≤ 2 ^ 30) by (apply Z.pow_le_mono_r; lia).
  unfold Prelude.size_t in Hb. rewrite Z.mod_small in Hb by lia. lia.
Qed.
Next Obligation. intros fuel m a Hm Ha _. eexists _, _. by do 5 (split; [done|]). Qed.
Next Obligation.
  intros fuel m k Hm Hf Hk. apply Next1_spec; try done; simpl in Hf;
    assert (0 < 2 ^ BITS) by (apply Z.pow_pos_nonneg; lia); lia.
Qed.
End page_map1.

(** ** [TCMalloc_PageMap2]: a root with leaves *)
Section page_map2.
Context {A : Type} `{AllocatorLaws A}.
Variable BITS : Z.
Definition LEAF_BITS : Z := (BITS + 1) / 2.
Definition LEAF_LENGTH : Z := Z.shiftl 1 LEAF_BITS.
Definition ROOT_BITS : Z := BITS - LEAF_BITS.
Definition ROOT_LENGTH : Z := Z.shiftl 1 ROOT_BITS.
Record TCMalloc_PageMap2 := mkPageMap2 { root_ : list (option (list Z)) }.
Implicit Types m : TCMalloc_PageMap2.

Definition PageMap2_new : TCMalloc_PageMap2 := mkPageMap2 (replicate (Z.to_nat ROOT_LENGTH) None).
Definition PageMap2_get m (k : Z) : outcome Z :=
  let i1 := Z.shiftr k LEAF_BITS in
  let i2 := Z.land k (LEAF_LENGTH - 1) in
  if 0 <? Z.shiftr k BITS then mret 0 else
  leaf ← arr_get (root_ m) i1;
  match leaf with None => mret 0 | Some values => arr_get values i2 end.
Definition PageMap2_set m (k v : Z) : outcome TCMalloc_PageMap2 :=
  let i1 := Z.shiftr k LEAF_BITS in
  let i2 := Z.land k (LEAF_LENGTH - 1) in
  _ ← check (i1 <? ROOT_LENGTH);
  leaf ← arr_get (root_ m) i1;
  match leaf with
  | None => Undefined NullDeref
  | Some values =>
      values ← arr_set values i2 v;
      root ← arr_set (root_ m) i1 (Some values);
      mret (mkPageMap2 root)
  end.

(** The loop of [Ensure], to the page [last]. *)
Fixpoint Ensure2_loop (fuel : nat) m (key last : Z) (a : A)
  : outcome (bool * TCMalloc_PageMap2 * A) :=
  match fuel with
  | O => NoFuel
  | S fuel =>
      if key <=? last then
        let i1 := Z.shiftr key LEAF_BITS in
        let next := Prelude.size_t (Z.shiftl (Z.shiftr key LEAF_BITS + 1) LEAF_BITS) in
        if ROOT_LENGTH <=? i1 then mret (false, m, a) else
        leaf ← arr_get (root_ m) i1;
        match leaf with
        | None =>
            '(ok, a) ← alloc (8 * LEAF_LENGTH) a;
            if ok : bool then
              root ← arr_set (root_ m) i1 (Some (replicate (Z.to_nat LEAF_LENGTH) 0));
              Ensure2_loop fuel (mkPageMap2 root) next last a
            else mret (false, m, a)
        | Some _ => Ensure2_loop fuel m next last a
        end
      else mret (true, m, a)
  end.
Definition PageMap2_Ensure (fuel : nat) m (start n : Z) (a : A)
  : outcome (bool * TCMalloc_PageMap2 * A) :=
  Ensure2_loop fuel m start (Prelude.size_t (start + n - 1)) a.
Definition PageMap2_PreallocateMoreMemory (fuel : nat) m (a : A)
  : outcome (TCMalloc_PageMap2 * A) :=
  if BITS <? 20 then
    '(_, m, a) ← PageMap2_Ensure fuel m 0 (Z.shiftl 1 BITS) a; mret (m, a)
  else mret (m, a).
Fixpoint PageMap2_Next (fuel : nat) m (k : Z) : outcome Z :=
  match fuel with
  | O => NoFuel
  | S fuel' =>
      if k <? Z.shiftl 1 BITS then
        let i1 := Z.shiftr k LEAF_BITS in
        leaf ← arr_get (root_ m) i1;
        found ← match leaf with
                | Some values => scan fuel LEAF_LENGTH values (Z.land k (LEAF_LENGTH - 1))
                | None => mret None
                end;
        match found with
        | Some v => mret v
        | None => PageMap2_Next fuel' m (Z.shiftl (i1 + 1) LEAF_BITS)
        end
      else mret 0
  end.

#[global] Instance PageMap2_ops : PageMap TCMalloc_PageMap2 A := {|
  pm_bits := BITS;
  pm_get := PageMap2_get;
  pm_set := PageMap2_set;
  pm_ensure := PageMap2_Ensure;
  pm_prealloc := PageMap2_PreallocateMoreMemory;
  pm_next := PageMap2_Next;
|}.

Hypothesis HBITS : 1 ≤ BITS ≤ 52.
Let L := LEAF_BITS.
Lemma L_range : 1 ≤ L ≤ BITS.
Proof. unfold L, LEAF_BITS. zdiv. Qed.
Lemma LEAF_pow : LEAF_LENGTH = 2 ^ L.
Proof. apply Z.shiftl_1_l. Qed.
Lemma leaf_bytes : 8 * LEAF_LENGTH < 2 ^ 62.
Proof.
  pose proof L_range. rewrite LEAF_pow. assert (2 ^ L ≤ 2 ^ 52) by (apply Z.pow_le_mono_r; lia). lia.
Qed.
Lemma ROOT_pow : ROOT_LENGTH = 2 ^ (BITS - L).
Proof. apply Z.shiftl_1_l. Qed.

Definition wf2 m : Prop :=
  zlen (root_ m) = ROOT_LENGTH ∧
  ∀ i values, root_ m !! i = Some (Some values) → zlen values = LEAF_LENGTH.
Definition leaf2 m (k : Z) : option (list Z) := root_ m !!! Z.to_nat (high L k).
Definition at2 m (k : Z) : Z :=
  if (0 <=? k) && (k <? 2 ^ BITS) then
    match leaf2 m k with Some values => values !!! Z.to_nat (low L k) | None => 0 end
  else 0.
Definition has2 m (k : Z) : Prop := 0 ≤ k < 2 ^ BITS ∧ is_Some (leaf2 m k).

Lemma root_get m k : wf2 m → 0 ≤ k < 2 ^ BITS → arr_get (root_ m) (high L k) = Ok (leaf2 m k).
Proof.
  intros [Hl _] Hk. pose proof L_range. apply arr_get_total. rewrite Hl, ROOT_pow.
  apply high_range; lia.
Qed.
Lemma leaf_length m k values :
  wf2 m → 0 ≤ k < 2 ^ BITS → leaf2 m k = Some values → zlen values = LEAF_LENGTH.
Proof.
  intros [Hl Hw] Hk E. pose proof L_range. apply (Hw (Z.to_nat (high L k))).
  rewrite <- E. apply list_lookup_lookup_total_lt.
  pose proof (high_range L BITS k). rewrite ROOT_pow in Hl. unfold zlen in Hl. lia.
Qed.
Lemma low_range k : 0 ≤ low L k < LEAF_LENGTH.
Proof. pose proof L_range. rewrite LEAF_pow. apply digits. lia. Qed.

(** Changing one leaf. *)
Lemma leaf_insert m i x :
  wf2 m → 0 ≤ i < ROOT_LENGTH → zlen x = LEAF_LENGTH →
  arr_set (root_ m) i (Some x) = Ok (<[Z.to_nat i := Some x]> (root_ m)) ∧
  wf2 (mkPageMap2 (<[Z.to_nat i := Some x]> (root_ m))) ∧
  ∀ k, 0 ≤ k → leaf2 (mkPageMap2 (<[Z.to_nat i := Some x]> (root_ m))) k =
    if decide (high L k = i) then Some x else leaf2 m k.
Proof.
  intros [Hl Hw] Hi Hx. split; [apply arr_set_ok; lia|]. split.
  - split; [simpl; by rewrite zlen_insert|]. intros j values. simpl.
    rewrite list_lookup_insert_Some. intros [(_ & [= <-] & _)|[_ E]]; [done|by eapply Hw].
  - intros k Hk. unfold leaf2. simpl. pose proof L_range.
    rewrite lookup_total_insert_if; [|lia|rewrite high_div by lia; apply Z.div_pos; lia].
    repeat case_decide; congruence.
Qed.

Lemma PageMap2_get_spec m k : wf2 m → 0 ≤ k → PageMap2_get m k = Ok (at2 m k).
Proof.
  intros Hm Hk. unfold PageMap2_get, at2. rewrite beyond_high by lia.
  destruct (Z.leb_spec (2 ^ BITS) k).
  - by rewrite (proj2 (Z.ltb_ge k _)), andb_false_r.
  - zbool. change (Z.shiftr k LEAF_BITS) with (high L k).
    change (Z.land k (LEAF_LENGTH - 1)) with (low L k).
    rewrite (root_get m k Hm) by lia. cbn [andb mbind outcome_bind].
    destruct (leaf2 m k) as [values|] eqn:E; [|done].
    apply arr_get_total. rewrite (leaf_length m k values) by (done || lia). apply low_range.
Qed.

Lemma PageMap2_set_spec m k v : wf2 m → has2 m k →
  ∃ m', PageMap2_set m k v = Ok m' ∧ wf2 m' ∧
    (∀ j, at2 m' j = if decide (j = k) then v else at2 m j) ∧ (∀ j, has2 m j → has2 m' j).
Proof.
  intros Hm [Hk [values E]]. pose proof L_range as HL. unfold PageMap2_set.
  pose proof (high_range L BITS k ltac:(lia) Hk) as Hh. rewrite <- ROOT_pow in Hh.
  change (Z.shiftr k LEAF_BITS) with (high L k). rewrite (proj2 (Z.ltb_lt _ _)) by lia.
  cbn [check mbind outcome_bind]. rewrite (root_get m k Hm) by lia. cbn [mbind outcome_bind].
  rewrite E. pose proof (leaf_length m k values Hm Hk E) as Hlen.
  change (Z.land k (LEAF_LENGTH - 1)) with (low L k). pose proof (low_range k) as Hlow.
  rewrite arr_set_ok by lia. cbn [mbind outcome_bind].
  destruct (leaf_insert m (high L k) (<[Z.to_nat (low L k) := v]> values) Hm Hh) as (-> & Hw & Hleaf);
    [by rewrite zlen_insert|].
  eexists. split; [done|]. split; [done|]. split.
  - intros j. unfold at2. destruct (Z.leb_spec 0 j), (Z.ltb_spec j (2 ^ BITS)); simpl;
      try (rewrite decide_False by lia; done).
    rewrite Hleaf by lia. case_decide as Ej.
    + assert (leaf2 m j = Some values) as -> by (unfold leaf2 in *; congruence).
      rewrite lookup_total_insert_if; [|lia|apply low_range]. repeat case_decide; try done.
      * exfalso. by apply (digits_inj L j k ltac:(lia)) in Ej.
      * congruence.
    + by rewrite decide_False by congruence.
  - intros j [Hj Hs]. split; [done|]. rewrite Hleaf by lia. case_decide; [by eexists|done].
Qed.

(** The loop of [Ensure] covers the pages from its key on. *)
Lemma Ensure2_loop_spec fuel last : ∀ m key a,
  wf2 m → al_wf a → 0 ≤ key →
  Z.max 0 (ROOT_LENGTH - high L key) < Z.of_nat fuel →
  ∃ b m' a', Ensure2_loop fuel m key last a = Ok (b, m', a') ∧ wf2 m' ∧
    (∀ j, at2 m' j = at2 m j) ∧ (∀ j, has2 m j → has2 m' j) ∧
    (b = true → ∀ j, key ≤ j ≤ last → has2 m' j) ∧ al_wf a' ∧ al_le a a'.
Proof.
  pose proof L_range as HL.
  induction fuel as [|fuel IH]; intros m key a Hm Ha Hkey Hf; [lia|].
  cbn [Ensure2_loop]. destruct (Z.leb_spec key last) as [Hle|Hgt].
  2: { exists true, m, a. do 4 (split; [done|]). split; [lia|by split]. }
  change (Z.shiftr key LEAF_BITS) with (high L key).
  destruct (Z.leb_spec ROOT_LENGTH (high L key)) as [|Hroot].
  { exists false, m, a. by do 6 (split; [done|]). }
  assert (Hk : key < 2 ^ BITS).
  { destruct (digits L key ltac:(lia)). rewrite ROOT_pow in Hroot.
    assert (2 ^ BITS = 2 ^ (BITS - L) * 2 ^ L) as -> by (rewrite <- Z.pow_add_r by lia; f_equal; lia).
    nia. }
  pose proof (high_range L BITS key ltac:(lia) ltac:(lia)) as Hh. rewrite <- ROOT_pow in Hh.
  destruct (next_leaf L key ltac:(lia) Hkey) as (En & Hn1 & Hn2).
  change LEAF_BITS with L. rewrite En.
  assert (Prelude.size_t ((high L key + 1) * 2 ^ L) = (high L key + 1) * 2 ^ L) as ->.
  { unfold Prelude.size_t. apply Z.mod_small. assert (2 ^ BITS ≤ 2 ^ 52) by (apply Z.pow_le_mono_r; lia).
    rewrite ROOT_pow in Hh. assert (0 < 2 ^ L) by (apply Z.pow_pos_nonneg; lia).
    assert (2 ^ BITS = 2 ^ (BITS - L) * 2 ^ L) as E by (rewrite <- Z.pow_add_r by lia; f_equal; lia).
    nia. }
  set (next := (high L key + 1) * 2 ^ L) in *.
  assert (Hnext : high L next = high L key + 1).
  { rewrite high_div by lia. unfold next. apply Z.div_mul. pose proof (Z.pow_pos_nonneg 2 L). lia. }
  assert (Hmap : next ≤ 2 ^ BITS).
  { rewrite ROOT_pow in Hh. assert (0 < 2 ^ L) by (apply Z.pow_pos_nonneg; lia).
    assert (2 ^ BITS = 2 ^ (BITS - L) * 2 ^ L) as -> by (rewrite <- Z.pow_add_r by lia; f_equal; lia).
    unfold next. nia. }
  assert (Hrest : ∀ m1 a1, wf2 m1 → (∀ j, at2 m1 j = at2 m j) → (∀ j, has2 m j → has2 m1 j) →
    is_Some (leaf2 m1 key) → al_wf a1 → al_le a a1 →
    ∃ b m' a', Ensure2_loop fuel m1 next last a1 = Ok (b, m', a') ∧ wf2 m' ∧
      (∀ j, at2 m' j = at2 m j) ∧ (∀ j, has2 m j → has2 m' j) ∧
      (b = true → ∀ j, key ≤ j ≤ last → has2 m' j) ∧ al_wf a' ∧ al_le a a').
  { intros m1 a1 Hw1 Hat1 Hhas1 Hs Ha1 Hle1.
    destruct (IH m1 next a1 Hw1 Ha1) as (b & m' & a' & Er & Hw & Hat & Hhas & Hall & Ha' & Hle');
      [lia|lia|].
    exists b, m', a'. split; [done|]. split; [done|]. split; [intros; by rewrite Hat|].
    split; [auto|]. split; [|split; [done|by etrans]]. intros Hb j Hj. destruct (Z.ltb_spec j next); [|apply Hall; [done|lia]].
    apply Hhas. split; [lia|]. unfold leaf2 in *. by rewrite Hn2 by lia. }
  rewrite (root_get m key Hm) by lia. cbn [mbind outcome_bind].
  destruct (leaf2 m key) as [values|] eqn:E; [by apply Hrest|].
  destruct (alloc_spec (8 * LEAF_LENGTH) a Ha) as (ok & a1 & -> & Ha1 & Hle1);
    [split; [pose proof (low_range 0); lia|apply leaf_bytes]|].
  cbn [mbind outcome_bind]. destruct ok; [|by exists false, m, a1].
  destruct (leaf_insert m (high L key) (replicate (Z.to_nat LEAF_LENGTH) 0) Hm Hh)
    as (-> & Hw & Hleaf).
  { rewrite zlen_replicate. apply Z2Nat.id. pose proof (low_range 0). lia. }
  cbn [mbind outcome_bind]. apply Hrest; [done| | | |done|done].
  - intros j. unfold at2. destruct (Z.leb_spec 0 j), (Z.ltb_spec j (2 ^ BITS)); simpl; try done.
    rewrite Hleaf by done. case_decide as Ej; [|done].
    assert (leaf2 m j = None) as -> by (unfold leaf2 in *; congruence).
    pose proof (low_range j). apply lookup_total_replicate_2. lia.
  - intros j [Hj Hs]. split; [done|]. rewrite Hleaf by lia. case_decide; [by eexists|done].
  - rewrite Hleaf, decide_True by done. by eexists.
Qed.

Lemma PageMap2_Ensure_spec fuel m x n a :
  wf2 m → al_wf a → ROOT_LENGTH < Z.of_nat fuel → 0 ≤ x → 1 ≤ n → x + n ≤ 2 ^ 64 →
  ∃ b m' a', PageMap2_Ensure fuel m x n a = Ok (b, m', a') ∧ wf2 m' ∧
    (∀ j, at2 m' j = at2 m j) ∧ (∀ j, has2 m j → has2 m' j) ∧
    (b = true → ∀ j, x ≤ j < x + n → has2 m' j) ∧ al_wf a' ∧ al_le a a'.
Proof.
  intros Hm Ha Hf Hx Hn Hxn. pose proof L_range. unfold PageMap2_Ensure, Prelude.size_t.
  rewrite Z.mod_small by lia.
  assert (0 ≤ high L x) by (rewrite high_div by lia; apply Z.div_pos; [lia|apply Z.pow_pos_nonneg; lia]).
  assert (0 < ROOT_LENGTH) by (rewrite ROOT_pow; apply Z.pow_pos_nonneg; lia).
  destruct (Ensure2_loop_spec fuel (x + n - 1) m x a Hm Ha Hx ltac:(lia))
    as (b & m' & a' & ? & ? & ? & ? & Hall & ?).
  exists b, m', a'. do 4 (split; [done|]). split; [|done].
  intros Hb j Hj. apply Hall; [done|lia].
Qed.

(** The leaf of a page as [at2] sees it. *)
Lemma at2_leaf m k j :
  0 ≤ k → high L j = high L k → 0 ≤ j < 2 ^ BITS →
  at2 m j = match leaf2 m k with Some values => values !!! Z.to_nat (low L j) | None => 0 end.
Proof. intros Hk Ej Hj. unfold at2. zbool. simpl. unfold leaf2. by rewrite Ej. Qed.

Lemma Next2_spec fuel m : ∀ k, wf2 m → 0 ≤ k →
  LEAF_LENGTH + Z.max 0 (ROOT_LENGTH - high L k) < Z.of_nat fuel →
  ∃ r, PageMap2_Next fuel m k = Ok r ∧ first_from (at2 m) k r.
Proof.
  pose proof L_range as HL.
  induction fuel as [|fuel IH]; intros k Hm Hk Hf; [pose proof (low_range 0); lia|].
  cbn [PageMap2_Next]. rewrite Z.shiftl_1_l. destruct (Z.ltb_spec k (2 ^ BITS)) as [Hlt|Hge].
  2: { eexists. split; [done|]. apply first_from_end. intros j Hj. unfold at2.
       by rewrite (proj2 (Z.ltb_ge j _)), andb_false_r by lia. }
  change (Z.shiftr k LEAF_BITS) with (high L k). change LEAF_BITS with L.
  change (Z.land k (LEAF_LENGTH - 1)) with (low L k).
  pose proof (high_range L BITS k ltac:(lia) ltac:(lia)) as Hh. rewrite <- ROOT_pow in Hh.
  destruct (next_leaf L k ltac:(lia) Hk) as (En & Hn1 & Hn2). rewrite En.
  set (next := (high L k + 1) * 2 ^ L) in *.
  assert (Hnext : high L next = high L k + 1).
  { rewrite high_div by lia. unfold next. apply Z.div_mul. pose proof (Z.pow_pos_nonneg 2 L). lia. }
  assert (Hrest : (∀ j, k ≤ j < next → at2 m j = 0) →
    ∃ r, PageMap2_Next fuel m next = Ok r ∧ first_from (at2 m) k r).
  { intros Hz. destruct (IH next Hm) as (r & E & Hr); [lia|lia|].
    exists r. split; [done|]. apply (first_from_skip _ _ next); [lia|done|done]. }
  rewrite (root_get m k Hm) by lia. cbn [mbind outcome_bind].
  destruct (leaf2 m k) as [values|] eqn:E.
  2: { cbn [mbind outcome_bind mret outcome_ret]. apply Hrest. intros j Hj.
       destruct (Z.ltb_spec j (2 ^ BITS)).
       - rewrite (at2_leaf m k j) by (try apply Hn2; lia). by rewrite E.
       - unfold at2. by rewrite (proj2 (Z.ltb_ge j _)), andb_false_r by lia. }
  pose proof (leaf_length m k values Hm ltac:(lia) E) as Hlen. pose proof (low_range k) as Hlow.
  destruct (digits L k ltac:(lia)) as [Ek _].
  assert (Hhere : ∀ j, k ≤ j < next → at2 m j ≠ 0 →
    at2 m j = values !!! Z.to_nat (low L j) ∧ low L j = low L k + (j - k)).
  { intros j Hj Hnz. destruct (digits L j ltac:(lia)) as [Ej _]. rewrite Hn2 in Ej by lia.
    split; [|lia]. unfold at2 in Hnz |- *.
    destruct (Z.leb_spec 0 j), (Z.ltb_spec j (2 ^ BITS)); simpl in *; try done.
    unfold leaf2 in *. rewrite Hn2, E by lia. done. }
  rewrite <- Hlen. destruct (scan_spec (S fuel) values (low L k) ltac:(lia) ltac:(lia) ltac:(lia))
    as [[-> Hz]|(i & -> & Hi & Hnz & Hz)]; cbn [mbind outcome_bind].
  - apply Hrest. intros j Hj. destruct (decide (at2 m j = 0)) as [|Hnz]; [done|].
    destruct (Hhere j Hj Hnz) as [-> El]. apply Hz. pose proof (low_range j). lia.
  - eexists. split; [done|]. right. split; [done|]. exists (k + (i - low L k)).
    rewrite Hlen, LEAF_pow in Hi. assert (Hj : k ≤ k + (i - low L k) < next) by (unfold next; lia).
    split; [lia|].
    assert (Hjb : k + (i - low L k) < 2 ^ BITS).
    { rewrite ROOT_pow in Hh. assert (0 < 2 ^ L) by (apply Z.pow_pos_nonneg; lia).
      assert (2 ^ BITS = 2 ^ (BITS - L) * 2 ^ L) as -> by (rewrite <- Z.pow_add_r by lia; f_equal; lia).
      unfold next in Hj. nia. }
    assert (Hlj : low L (k + (i - low L k)) = i).
    { destruct (digits L (k + (i - low L k)) ltac:(lia)) as [Ej _]. rewrite Hn2 in Ej by lia. lia. }
    split.
    + rewrite (at2_leaf m k) by (try apply Hn2; lia). by rewrite E, Hlj.
    + intros j Hjr. destruct (decide (at2 m j = 0)) as [|Hne]; [done|].
      destruct (Hhere j ltac:(lia) Hne) as [-> El]. apply Hz. lia.
Qed.

#[global] Program Instance PageMap2_laws : PageMapLaws TCMalloc_PageMap2 A := {|
  pm_wf := wf2;
  pm_at := at2;
  pm_has := has2;
  pm_enough fuel := LEAF_LENGTH + ROOT_LENGTH < Z.of_nat fuel;
|}.
Next Obligation. simpl. lia. Qed.
Next Obligation. intros. by apply PageMap2_get_spec. Qed.
Next Obligation. intros. by apply PageMap2_set_spec. Qed.
Next Obligation.
  intros fuel m x n a Hm Ha Hf Hx Hn Hxn. pose proof (low_range 0). cbn beta in Hf.
  apply PageMap2_Ensure_spec; try done; lia.
Qed.
Next Obligation.
  intros fuel m a Hm Ha Hf. simpl in *. pose proof (low_range 0).
  unfold PageMap2_PreallocateMoreMemory. destruct (BITS <? 20).
  2: { eexists _, _. by do 5 (split; [done|]). }
  destruct (PageMap2_Ensure_spec fuel m 0 (Z.shiftl 1 BITS) a Hm Ha) as (b & m' & a' & E & ? & ? & ? & _ & ?);
    [lia|done| | |].
  - rewrite Z.shiftl_1_l. pose proof (Z.pow_pos_nonneg 2 BITS). lia.
  - rewrite Z.shiftl_1_l. assert (2 ^ BITS ≤ 2 ^ 52) by (apply Z.pow_le_mono_r; lia). lia.
  - rewrite E. simpl. by eexists _, _.
Qed.
Next Obligation.
  intros fuel m k Hm Hf Hk. apply Next2_spec; try done.
  pose proof L_range. simpl in Hf.
  assert (0 ≤ high L k) by (rewrite high_div by lia; apply Z.div_pos; [lia|apply Z.pow_pos_nonneg; lia]).
  assert (0 < ROOT_LENGTH) by (rewrite ROOT_pow; apply Z.pow_pos_nonneg; lia). lia.
Qed.

(** *** The empty map *)
Lemma PageMap2_new_spec : wf2 PageMap2_new ∧ (∀ j, at2 PageMap2_new j = 0).
Proof.
  pose proof L_range. split.
  - split; simpl.
    + rewrite zlen_replicate. apply Z2Nat.id. rewrite ROOT_pow. apply Z.pow_nonneg. lia.
    + intros i values E. apply lookup_replicate in E as [? _]. done.
  - intros j. unfold at2. destruct (Z.leb_spec 0 j), (Z.ltb_spec j (2 ^ BITS)); simpl; try done.
    unfold leaf2. simpl. rewrite lookup_total_replicate_2; [done|].
    pose proof (high_range L BITS j). rewrite ROOT_pow. lia.
Qed.
End page_map2.

(** ** The maps agree

    A client makes entries for ranges of pages and sets the pages it has entries
    for; what it reads depends on what it has set only. *)
Inductive map_op := MEnsure (x n : Z) | MSet (k v : Z).
Definition in_ranges (rs : list (Z * Z)) (k : Z) : Prop := Exists (λ r, r.1 ≤ k < r.1 + r.2) rs.
Fixpoint map_ops_ok (bits : Z) (rs : list (Z * Z)) (os : list map_op) : Prop :=
  match os with
  | [] => True
  | MEnsure x n :: os => 0 ≤ x ≤ 2 ^ bits ∧ 1 ≤ n ∧ x + n ≤ 2 ^ 64 ∧ map_ops_ok bits ((x, n) :: rs) os
  | MSet k v :: os => in_ranges rs k ∧ map_ops_ok bits rs os
  end.
(** What was set last. *)
Fixpoint map_sets (os : list map_op) (f : Z → Z) (j : Z) : Z :=
  match os with
  | [] => f j
  | MEnsure _ _ :: os => map_sets os f j
  | MSet k v :: os => map_sets os (λ i, if decide (i = k) then v else f i) j
  end.
Lemma map_sets_ext os : ∀ f g, (∀ j, f j = g j) → ∀ j, map_sets os f j = map_sets os g j.
Proof.
  induction os as [|[x n|k v] os IH]; intros f g Hfg j; simpl; [done|by apply IH|].
  apply IH. intros i. by rewrite Hfg.
Qed.
Lemma first_from_unique f g k r r' :
  (∀ j, f j = g j) → first_from f k r → first_from g k r' → r = r'.
Proof.
  intros Hfg [[-> Hz]|(Hr & j & Hj & Hfj & Hz)] [[-> Hz']|(Hr' & j' & Hj' & Hfj' & Hz')]; [done|..].
  - destruct Hr'. rewrite <- Hfj', <- Hfg. by apply Hz.
  - destruct Hr. rewrite <- Hfj, Hfg. by apply Hz'.
  - destruct (Z.lt_total j j') as [Hlt|[->|Hlt]]; [|congruence|].
    + destruct Hr. rewrite <- Hfj, Hfg. apply Hz'. lia.
    + destruct Hr'. rewrite <- Hfj', <- Hfg. apply Hz. lia.
Qed.

Section map_client.
Context {P A : Type} `{AllocatorLaws A} `{PageMap P A}.
(** Whether all the entries could be made. *)
Fixpoint map_run (fuel : nat) (os : list map_op) (m : P) (a : A) : outcome (bool * P * A) :=
  match os with
  | [] => mret (true, m, a)
  | MEnsure x n :: os =>
      '(ok, m, a) ← pm_ensure fuel m x n a;
      if ok : bool then map_run fuel os m a else mret (false, m, a)
  | MSet k v :: os => m ← pm_set (A := A) m k v; map_run fuel os m a
  end.
Context `{!PageMapLaws P A}.
Lemma map_run_spec fuel os : ∀ m a rs,
  pm_wf m → al_wf a → pm_enough fuel → (∀ k, in_ranges rs k → pm_has m k) →
  map_ops_ok pm_bits rs os →
  ∃ b m' a', map_run fuel os m a = Ok (b, m', a') ∧ pm_wf m' ∧ al_wf a' ∧
    (b = true → ∀ j, pm_at m' j = map_sets os (pm_at m) j).
Proof.
  induction os as [|[x n|k v] os IH]; intros m a rs Hm Ha Hf Hrs Hok; cbn [map_run].
  - by exists true, m, a.
  - destruct Hok as (Hx & Hn & Hxn & Hok).
    destruct (pm_ensure_spec fuel m x n a) as (b & m1 & a1 & -> & Hm1 & Hat & Hhas & Hnew & Ha1 & _); [done..|].
    cbn [mbind outcome_bind]. destruct b; [|by exists false, m1, a1].
    destruct (IH m1 a1 ((x, n) :: rs)) as (b & m2 & a2 & -> & Hm2 & Ha2 & Hat2); [done..| |done|].
    + intros k [Hk|Hk]%Exists_cons; [by apply Hnew|by apply Hhas, Hrs].
    + exists b, m2, a2. split_and!; try done. intros Hb j. rewrite Hat2 by done.
      simpl. by apply map_sets_ext.
  - destruct Hok as [Hk Hok].
    destruct (pm_set_spec m k v Hm (Hrs k Hk)) as (m1 & -> & Hm1 & Hat & Hhas).
    cbn [mbind outcome_bind].
    destruct (IH m1 a rs) as (b & m2 & a2 & -> & Hm2 & Ha2 & Hat2); [done..|by auto|done|].
    exists b, m2, a2. split_and!; try done.
    intros Hb j. rewrite Hat2 by done. simpl. by apply map_sets_ext.
Qed.
End map_client.

(** C26. The radix tree of two levels is the flat array, for the 1 to 30 bits for
    which the flat array's [1 << BITS] is an [int]: whatever entries a client makes
    and sets, in a map of each kind, it never reads or writes outside of an array or
    through null, and when all its entries could be made the two maps give the same
    pointer for every page and the same next pointer from every page on. *)
Theorem page_map2_equals_page_map1 {A : Type} `{AllocatorLaws A} BITS fuel os m1 (a a1 : A) :
  1 ≤ BITS ≤ 30 → al_wf a → 2 ^ BITS < Z.of_nat fuel →
  LEAF_LENGTH BITS + ROOT_LENGTH BITS < Z.of_nat fuel → map_ops_ok BITS [] os →
  PageMap1_new BITS a = Ok (m1, a1) →
  ∃ b m1' a1' b' m2' a2',
    map_run (H1 := PageMap1_ops BITS) fuel os m1 a1 = Ok (b, m1', a1') ∧
    map_run (H1 := PageMap2_ops BITS) fuel os (PageMap2_new BITS) a1 = Ok (b', m2', a2') ∧
    (b = true → b' = true → ∀ k, 0 ≤ k →
       (∃ v, PageMap1_get BITS m1' k = Ok v ∧ PageMap2_get BITS m2' k = Ok v) ∧
       ∃ v, PageMap1_Next BITS fuel m1' k = Ok v ∧ PageMap2_Next BITS fuel m2' k = Ok v).
Proof.
  intros HB Ha Hf1 Hf2 Hok E.
  assert (0 ≤ BITS ≤ 30) as HB1 by lia. assert (1 ≤ BITS ≤ 52) as HB2 by lia.
  assert (al_wf a1 ∧ m1 = mkPageMap1 (replicate (Z.to_nat (Z.shiftl 1 BITS)) 0)) as [Ha1 ->].
  { unfold PageMap1_new in E. destruct (alloc_spec (Z.shiftl 8 BITS) a Ha) as (ok & a' & Ea & Ha' & _).
    { rewrite Z.shiftl_mul_pow2 by lia. assert (0 < 2 ^ BITS ≤ 2 ^ 30); [|lia].
      split; [apply Z.pow_pos_nonneg; lia|apply Z.pow_le_mono_r; lia]. }
    rewrite Ea in E. cbn in E. destruct ok; [|done]. by injection E as <- <-. }
  set (m1 := mkPageMap1 _).
  assert (wf1 BITS m1) as Hwf1.
  { unfold wf1, m1. simpl. rewrite zlen_replicate, Z.shiftl_1_l, Z2Nat.id; [done|].
    apply Z.pow_nonneg. lia. }
  assert (∀ j, at1 BITS m1 j = 0) as Hat1.
  { intros j. unfold at1, m1. simpl. rewrite Z.shiftl_1_l.
    destruct (Z.leb_spec 0 j), (Z.ltb_spec j (2 ^ BITS)); simpl; try done.
    apply lookup_total_replicate_2. lia. }
  destruct (PageMap2_new_spec BITS HB2) as [Hwf2 Hat2].
  destruct (map_run_spec (PageMapLaws0 := PageMap1_laws BITS HB1) fuel os m1 a1 [] Hwf1 Ha1 Hf1)
    as (b & m1' & a1' & E1 & Hm1 & _ & S1); [by intros k ?%Exists_nil|done|].
  destruct (map_run_spec (PageMapLaws0 := PageMap2_laws BITS HB2) fuel os (PageMap2_new BITS) a1 [] Hwf2 Ha1 Hf2)
    as (b' & m2' & a2' & E2 & Hm2 & _ & S2); [by intros k ?%Exists_nil|done|].
  exists b, m1', a1', b', m2', a2'. split; [done|]. split; [done|]. intros Hb Hb' k Hk.
  assert (∀ j, at1 BITS m1' j = at2 BITS m2' j) as Hat.
  { intros j. specialize (S1 Hb j). specialize (S2 Hb' j). simpl in S1, S2. rewrite S1, S2.
    apply map_sets_ext. intros i. by rewrite Hat1, Hat2. }
  split.
  - exists (at1 BITS m1' k).
    split; [exact (pm_get_spec (PageMapLaws := PageMap1_laws BITS HB1) m1' k Hm1 Hk)|].
    rewrite Hat. exact (pm_get_spec (PageMapLaws := PageMap2_laws BITS HB2) m2' k Hm2 Hk).
  - destruct (pm_next_spec (PageMapLaws := PageMap1_laws BITS HB1) fuel m1' k Hm1 Hf1 Hk) as (r & R1 & F1).
    destruct (pm_next_spec (PageMapLaws := PageMap2_laws BITS HB2) fuel m2' k Hm2 Hf2 Hk) as (r' & R2 & F2).
    assert (r = r') as -> by exact (first_from_unique _ _ _ _ _ Hat F1 F2). by exists r'.
Qed.
