(* ===== verification/SpanHeap.v ===== *)
(** * What the clients of the page heap rely on

    The central free lists and the entry points of the allocator use the page heap
    through this interface.  Its abstract state is the spans in use: their pages and
    their size class.  [PageHeapSpec] implements it. *)
From stdpp Require Import base numbers list option gmap.
From Stdlib Require Import ZArith Lia.
From S2P Require Import Prelude SizeMap.
Open Scope Z_scope.

(** A span a client has: its pages and its size class. *)
Record use := mkUse { u_start : Z; u_pages : Z; u_class : Z }.
Definition has_page (u : use) (x : Z) : Prop := u_start u ≤ x < u_start u + u_pages u.
#[global] Instance has_page_dec u x : Decision (has_page u x).
Proof. unfold has_page. apply _. Defined.
(** No page belongs to two spans. *)
Definition apart (u : gmap Z use) : Prop := ∀ p q a b x,
  u !! p = Some a → u !! q = Some b → has_page a x → has_page b x → p = q.

(** The bits of a page number: addresses have 48. *)
Definition kPageBits : Z := 48 - kPageShift.

(** [sh_load] reads the fields [start], [length] and [sizeclass] of a span. *)
Class SpanHeap (H : Type) := {
  sh_new : Z → M H Z;
  sh_delete : Z → M H unit;
  sh_split : Z → Z → M H Z;
  sh_register : Z → Z → M H unit;
  sh_descriptor : Z → H → outcome Z;
  sh_load : Z → H → outcome use;
}.
(** The heap may end the program where [sh_ab] holds (a limit on the heap is set). *)
Class SpanHeapLaws (H : Type) `{SpanHeap H} := {
  sh_good : H → Prop;
  sh_used : H → gmap Z use;
  sh_ab : Prop;
  sh_range h p u : sh_good h → sh_used h !! p = Some u →
    0 < p ∧ 1 ≤ u_start u ∧ 1 ≤ u_pages u ∧ u_start u + u_pages u ≤ 2 ^ kPageBits;
  sh_apart h : sh_good h → apart (sh_used h);
  sh_load_spec h p u : sh_good h → sh_used h !! p = Some u → sh_load p h = Ok u;
  sh_descriptor_spec h p u x : sh_good h → sh_used h !! p = Some u → has_page u x →
    u_class u ≠ 0 ∨ x = u_start u → sh_descriptor x h = Ok p;
  sh_null h : sh_good h → sh_descriptor 0 h = Ok 0;
  sh_new_spec h n : sh_good h → 0 < n < 2 ^ 63 →
    wp sh_ab (sh_new n) (λ r h', sh_good h' ∧
      (r = 0 ∧ sh_used h' = sh_used h ∨
       sh_used h !! r = None ∧ ∃ st, sh_used h' = <[r := mkUse st n 0]> (sh_used h))) h;
  sh_delete_spec h p u : sh_good h → sh_used h !! p = Some u →
    wp sh_ab (sh_delete p) (λ _ h', sh_good h' ∧ sh_used h' = delete p (sh_used h)) h;
  sh_split_spec h p u n : sh_good h → sh_used h !! p = Some u → u_class u = 0 → 0 < n < u_pages u →
    wp sh_ab (sh_split p n) (λ r h', sh_good h' ∧ sh_used h !! r = None ∧
      sh_used h' = <[p := mkUse (u_start u) n 0]>
        (<[r := mkUse (u_start u + n) (u_pages u - n) 0]> (sh_used h))) h;
  sh_register_spec h p u sc : sh_good h → sh_used h !! p = Some u →
    wp sh_ab (sh_register p sc) (λ _ h', sh_good h' ∧
      sh_used h' = <[p := mkUse (u_start u) (u_pages u) (sc mod 2 ^ 8)]> (sh_used h)) h;
}.
