(* ===== verification/SpanList.v ===== *)
(** * Linked lists of the allocator: [libs/tcmalloc/src/linked_list.h], [span.cc]

    Circular doubly linked lists through the [next] and [prev] fields of spans,
    and singly linked lists through the first word of free objects.  Pointers are
    integers, 0 the null pointer, and the fields live in a shared store: an
    operation on one list changes the store the other lists are in.  [SpanLists]
    is what the page heap relies on; the store implements it. *)
From S2P Require Import Prelude.
From stdpp Require Import base numbers list option gmap sets.
From Stdlib Require Import ZArith Lia.
Open Scope Z_scope.

(** ** Consecutive elements *)
Fixpoint consecutive (R : Z → Z → Prop) (l : list Z) : Prop :=
  match l with
  | a :: (b :: _) as t => R a b ∧ consecutive R t
  | _ => True
  end.

Lemma consecutive_app R l x r :
  consecutive R (l ++ x :: r) ↔ consecutive R (l ++ [x]) ∧ consecutive R (x :: r).
Proof.
  induction l as [|a l IH]; simpl.
  - split; [by intros; split|by intros [_ ?]].
  - destruct l as [|b l]; simpl in *; [naive_solver|]. rewrite IH. naive_solver.
Qed.
Lemma consecutive_impl R R' l :
  (∀ a b, a ∈ removelast l → b ∈ tail l → R a b → R' a b) →
  consecutive R l → consecutive R' l.
Proof.
  induction l as [|a l IH]; [done|]. destruct l as [|b l]; [done|]. intros Himp [Hab Hl].
  split; [apply Himp; [by left|by left|done]|].
  apply IH; [|done]. intros x y Hx Hy. apply Himp; [by right|by right].
Qed.
Lemma consecutive_join R l a b r :
  consecutive R (l ++ [a]) → R a b → consecutive R (b :: r) → consecutive R (l ++ a :: b :: r).
Proof. intros Hl Hab Hr. apply consecutive_app. by split. Qed.

(** ** The doubly linked lists *)
(** The fields [next] and [prev] of the spans (and of the heads of lists). *)
Abbreviation links := (gmap Z (Z * Z)).
Implicit Types st : links.

Definition get_next st (a : Z) : outcome Z :=
  match st !! a with Some (n, _) => Ok n | None => Undefined NullDeref end.
Definition get_prev st (a : Z) : outcome Z :=
  match st !! a with Some (_, p) => Ok p | None => Undefined NullDeref end.
Definition set_next st (a n : Z) : outcome links :=
  match st !! a with Some (_, p) => Ok (<[a := (n, p)]> st) | None => Undefined NullDeref end.
Definition set_prev st (a p : Z) : outcome links :=
  match st !! a with Some (n, _) => Ok (<[a := (n, p)]> st) | None => Undefined NullDeref end.

Definition DLL_Init st (lst : Z) : outcome links :=
  st ← set_next st lst lst; set_prev st lst lst.
Definition DLL_Remove st (span : Z) : outcome links :=
  p ← get_prev st span;
  n ← get_next st span;
  st ← set_next st p n;
  n ← get_next st span;
  p ← get_prev st span;
  st ← set_prev st n p;
  st ← set_prev st span 0;
  set_next st span 0.
Definition DLL_IsEmpty st (lst : Z) : outcome bool := n ← get_next st lst; mret (n =? lst).
Fixpoint DLL_Length_loop (fuel : nat) st (lst s result : Z) : outcome Z :=
  match fuel with
  | O => NoFuel
  | S fuel =>
      if negb (s =? lst) then
        result ← i32 (result + 1); s ← get_next st s; DLL_Length_loop fuel st lst s result
      else mret result
  end.
Definition DLL_Length (fuel : nat) st (lst : Z) : outcome Z :=
  s ← get_next st lst; DLL_Length_loop fuel st lst s 0.
Definition DLL_Prepend st (lst span : Z) : outcome links :=
  n ← get_next st span; _ ← check (n =? 0);
  p ← get_prev st span; _ ← check (p =? 0);
  n ← get_next st lst;
  st ← set_next st span n;
  st ← set_prev st span lst;
  n ← get_next st lst;
  st ← set_prev st n span;
  set_next st lst span.

(** [b] follows [a] in the store. *)
Definition nx st (a : Z) : option Z := fst <$> st !! a.
Definition pv st (a : Z) : option Z := snd <$> st !! a.
Definition linked st (a b : Z) : Prop := nx st a = Some b ∧ pv st b = Some a.
(** A circular list with its head. *)
Definition circular st (h : Z) (l : list Z) : Prop :=
  consecutive (linked st) (h :: l ++ [h]) ∧ NoDup (h :: l).

Lemma get_next_spec st a n : nx st a = Some n → get_next st a = Ok n.
Proof. unfold nx, get_next. destruct (st !! a) as [[??]|]; [by intros [= ->]|done]. Qed.
Lemma get_prev_spec st a p : pv st a = Some p → get_prev st a = Ok p.
Proof. unfold pv, get_prev. destruct (st !! a) as [[??]|]; [by intros [= ->]|done]. Qed.
Lemma set_next_spec st a n : is_Some (st !! a) → ∃ st', set_next st a n = Ok st' ∧
  (∀ x, nx st' x = if decide (x = a) then Some n else nx st x) ∧ (∀ x, pv st' x = pv st x).
Proof.
  intros [[n0 p0] E]. unfold set_next, nx, pv. rewrite E. eexists. split; [done|].
  split; intros x; (destruct (decide (x = a)) as [->|];
    [rewrite lookup_insert_eq, ?E|rewrite lookup_insert_ne by done]); done.
Qed.
Lemma set_prev_spec st a p : is_Some (st !! a) → ∃ st', set_prev st a p = Ok st' ∧
  (∀ x, pv st' x = if decide (x = a) then Some p else pv st x) ∧ (∀ x, nx st' x = nx st x).
Proof.
  intros [[n0 p0] E]. unfold set_prev, nx, pv. rewrite E. eexists. split; [done|].
  split; intros x; (destruct (decide (x = a)) as [->|];
    [rewrite lookup_insert_eq, ?E|rewrite lookup_insert_ne by done]); done.
Qed.
Lemma nx_some st a n : nx st a = Some n → is_Some (st !! a).
Proof. unfold nx. destruct (st !! a); [by eexists|done]. Qed.
Lemma pv_some st a n : pv st a = Some n → is_Some (st !! a).
Proof. unfold pv. destruct (st !! a); [by eexists|done]. Qed.
Lemma st_ext st st' x : nx st' x = nx st x → pv st' x = pv st x → st' !! x = st !! x.
Proof.
  unfold nx, pv. destruct (st !! x) as [[]|], (st' !! x) as [[]|]; simpl; congruence.
Qed.

Lemma consecutive_linked st st' l :
  (∀ a, a ∈ removelast l → nx st' a = nx st a) →
  (∀ b, b ∈ tail l → pv st' b = pv st b) →
  consecutive (linked st) l → consecutive (linked st') l.
Proof.
  intros Hn Hp. apply consecutive_impl. intros a b Ha Hb [??].
  split; [rewrite Hn|rewrite Hp]; done.
Qed.
Lemma circular_frame st st' h l :
  (∀ a, a ∈ h :: l → st' !! a = st !! a) → circular st h l → circular st' h l.
Proof.
  intros Heq [Hc Hn]. split; [|done]. eapply consecutive_linked; [| |exact Hc].
  - intros a Ha. unfold nx. rewrite Heq; [done|].
    change (h :: l ++ [h]) with ((h :: l) ++ [h]) in Ha. by rewrite removelast_last in Ha.
  - intros b Hb. unfold pv. rewrite Heq; [done|]. simpl in Hb. set_solver.
Qed.

(** The element before and after a place in the list [l], with head [h]. *)
Definition before (h : Z) (l : list Z) : Z := default h (last l).
Definition after (h : Z) (l : list Z) : Z := default h (head l).

Lemma circular_around st h l1 l2 :
  circular st h (l1 ++ l2) ↔
  consecutive (linked st) (h :: l1) ∧ linked st (before h l1) (after h l2) ∧
  consecutive (linked st) (l2 ++ [h]) ∧ NoDup (h :: l1 ++ l2).
Proof.
  unfold circular, before, after.
  destruct (exists_last (l := h :: l1)) as (i & a & Ei); [done|].
  assert (default h (last l1) = a) as ->.
  { destruct l1 as [|x l1 _] using rev_ind.
    - destruct i as [|? [|]]; by inversion Ei.
    - rewrite last_snoc. change (h :: l1 ++ [x]) with ((h :: l1) ++ [x]) in Ei.
      by apply app_inj_tail in Ei as [_ ->]. }
  rewrite <- app_assoc, app_comm_cons, Ei.
  destruct (l2 ++ [h]) as [|b r] eqn:Er; [by destruct l2|].
  assert (default h (head l2) = b) as -> by (destruct l2; by inversion Er).
  rewrite <- app_assoc. simpl app. rewrite (consecutive_app _ i a (b :: r)).
  simpl. naive_solver.
Qed.

Lemma circular_first st h l : circular st h l → get_next st h = Ok (after h l).
Proof.
  intros (_ & [H _] & _)%(circular_around st h [] l). by apply get_next_spec.
Qed.
Lemma circular_last st h l : circular st h l → get_prev st h = Ok (before h l).
Proof.
  intros Hc. rewrite <- (app_nil_r l) in Hc.
  apply circular_around in Hc as (_ & [_ H] & _). by apply get_prev_spec.
Qed.

(** *** The operations on one list *)
Lemma circular_insert_facts st h l1 p l2 :
  circular st h (l1 ++ p :: l2) →
  linked st (before h l1) p ∧ linked st p (after h l2) ∧
  consecutive (linked st) (h :: l1) ∧ consecutive (linked st) (l2 ++ [h]).
Proof.
  intros Hc. pose proof Hc as (H1 & H2 & _)%circular_around.
  rewrite (cons_middle p l1 l2), app_assoc in Hc.
  apply circular_around in Hc as (_ & H3 & H4 & _).
  unfold before at 1 in H3. rewrite last_snoc in H3. done.
Qed.
Lemma before_in h l : before h l ∈ h :: l.
Proof.
  unfold before. destruct (last l) eqn:E; [|left]. simpl.
  right. apply last_Some_elem_of. done.
Qed.
Lemma after_in h l : after h l ∈ h :: l.
Proof. unfold after. destruct l; [left|right; left]. Qed.

(** A change of the fields around a place of the list. *)
Lemma circular_glue st st' h l1 l2 :
  consecutive (linked st) (h :: l1) → consecutive (linked st) (l2 ++ [h]) →
  NoDup (h :: l1 ++ l2) →
  linked st' (before h l1) (after h l2) →
  (∀ a, a ∈ h :: l1 ++ l2 → a ≠ before h l1 → nx st' a = nx st a) →
  (∀ b, b ∈ h :: l1 ++ l2 → b ≠ after h l2 → pv st' b = pv st b) →
  circular st' h (l1 ++ l2).
Proof.
  intros H1 H2 Hnd Hl Hn Hp. apply circular_around. split; [|split; [done|split; [|done]]].
  - eapply consecutive_linked; [| |exact H1].
    + intros a Ha. apply Hn.
      * clear -Ha. assert (a ∈ h :: l1) as Ha'; [|set_solver].
        destruct (exists_last (l := h :: l1)) as (i & b & Ei); [done|]. rewrite Ei in *.
        rewrite removelast_last in Ha. set_solver.
      * intros ->. unfold before in Ha.
        destruct l1 as [|x l1 _] using rev_ind; [by apply elem_of_nil in Ha|].
        rewrite last_snoc in Ha. change (h :: l1 ++ [x]) with ((h :: l1) ++ [x]) in Ha.
        rewrite removelast_last in Ha. simpl in Ha.
        rewrite <- app_assoc in Hnd. apply NoDup_cons in Hnd as [Hh Hnd].
        apply NoDup_app in Hnd as (_ & Hd & _). apply elem_of_cons in Ha as [->|Ha]; [set_solver|].
        apply (Hd x Ha). set_solver.
    + simpl. intros b Hb. apply Hp; [set_solver|]. intros ->.
      apply NoDup_cons in Hnd as [Hh Hnd]. apply NoDup_app in Hnd as (_ & Hd & _).
      pose proof (after_in h l2) as Ha. apply elem_of_cons in Ha as [Ha|Ha];
        [rewrite Ha in Hb; set_solver|].
      by apply (Hd _ Hb).
  - eapply consecutive_linked; [| |exact H2].
    + intros a Ha. rewrite removelast_last in Ha. apply Hn; [set_solver|]. intros ->.
      apply NoDup_cons in Hnd as [Hh Hnd]. apply NoDup_app in Hnd as (_ & Hd & _).
      pose proof (before_in h l1) as Hb. apply elem_of_cons in Hb as [Hb|Hb];
        [rewrite Hb in Ha; set_solver|].
      by apply (Hd _ Hb).
    + intros b Hb. apply Hp; [destruct l2; set_solver|]. intros ->.
      unfold after in Hb. destruct l2 as [|x l2]; simpl in Hb; [by apply elem_of_nil in Hb|].
      apply NoDup_cons in Hnd as [Hh Hnd]. apply NoDup_app in Hnd as (_ & _ & Hnd).
      apply NoDup_cons in Hnd as [Hx _]. set_solver.
Qed.

Lemma DLL_Remove_spec st h l1 p l2 :
  circular st h (l1 ++ p :: l2) →
  ∃ st', DLL_Remove st p = Ok st' ∧ circular st' h (l1 ++ l2) ∧ st' !! p = Some (0, 0) ∧
    (∀ x, x ∉ h :: l1 ++ p :: l2 → st' !! x = st !! x).
Proof.
  intros Hc. pose proof Hc as [_ Hnd].
  apply circular_insert_facts in Hc as ([Ha1 Ha2] & [Hb1 Hb2] & H1 & H2).
  pose proof (before_in h l1) as Ha. pose proof (after_in h l2) as Hb.
  set (a := before h l1) in *. set (b := after h l2) in *.
  assert (p ∉ h :: l1 ++ l2) as Hp.
  { rewrite <- Permutation_middle in Hnd. apply NoDup_cons in Hnd as [? Hnd].
    apply NoDup_cons in Hnd. set_solver. }
  assert (NoDup (h :: l1 ++ l2)) as Hnd'.
  { rewrite <- Permutation_middle in Hnd. apply NoDup_cons in Hnd as [? [??]%NoDup_cons].
    apply NoDup_cons. set_solver. }
  assert (p ≠ a ∧ p ≠ b) as [Hpa Hpb] by (clear -Hp Ha Hb; set_solver).
  unfold DLL_Remove. rewrite (get_prev_spec _ _ _ Ha2), (get_next_spec _ _ _ Hb1). cbn [mbind outcome_bind].
  destruct (set_next_spec st a b (nx_some _ _ _ Ha1)) as (s1 & -> & N1 & P1). cbn [mbind outcome_bind].
  rewrite (get_next_spec s1 p b) by (by rewrite N1, decide_False).
  rewrite (get_prev_spec s1 p a) by (by rewrite P1). cbn [mbind outcome_bind].
  destruct (set_prev_spec s1 b a) as (s2 & -> & P2 & N2).
  { apply (pv_some _ _ p). by rewrite P1. } cbn [mbind outcome_bind].
  destruct (set_prev_spec s2 p 0) as (s3 & -> & P3 & N3).
  { apply (nx_some _ _ b). rewrite N2, N1. by rewrite decide_False. } cbn [mbind outcome_bind].
  destruct (set_next_spec s3 p 0) as (s4 & -> & N4 & P4).
  { apply (pv_some _ _ 0). rewrite P3. by rewrite decide_True. }
  assert (∀ x, nx s4 x = if decide (x = p) then Some 0 else if decide (x = a) then Some b else nx st x) as N.
  { intros x. rewrite N4. case_decide; [done|]. by rewrite N3, N2, N1. }
  assert (∀ x, pv s4 x = if decide (x = p) then Some 0 else if decide (x = b) then Some a else pv st x) as P.
  { intros x. rewrite P4, P3. case_decide; [done|]. by rewrite P2, P1. }
  exists s4. split; [done|]. split; [|split].
  - eapply circular_glue; [exact H1|exact H2|done|..].
    + split; rewrite ?N, ?P, decide_False, decide_True by done; done.
    + intros x Hx Hne. rewrite N, !decide_False by (done || set_solver). done.
    + intros x Hx Hne. rewrite P, !decide_False by (done || set_solver). done.
  - specialize (N p). specialize (P p). rewrite decide_True in N, P by done. unfold nx, pv in *.
    destruct (s4 !! p) as [[]|]; simpl in *; congruence.
  - intros x Hx. apply st_ext; rewrite ?N, ?P, !decide_False; set_solver.
Qed.

Lemma DLL_Prepend_spec st h l p :
  circular st h l → st !! p = Some (0, 0) → p ∉ h :: l →
  ∃ st', DLL_Prepend st h p = Ok st' ∧ circular st' h (p :: l) ∧
    (∀ x, x ∉ h :: p :: l → st' !! x = st !! x).
Proof.
  intros Hc Hp Hnp. pose proof Hc as [_ Hnd].
  pose proof Hc as (H1 & [Ha1 Ha2] & H2 & _)%(circular_around st h [] l).
  change (before h []) with h in *. pose proof (after_in h l) as Hb. set (b := after h l) in *.
  assert (p ≠ h ∧ p ≠ b) as [Hph Hpb] by (clear -Hnp Hb; set_solver).
  assert (nx st p = Some 0) as Np by (unfold nx; by rewrite Hp).
  assert (pv st p = Some 0) as Pp by (unfold pv; by rewrite Hp).
  unfold DLL_Prepend. rewrite (get_next_spec _ _ _ Np), (get_prev_spec _ _ _ Pp).
  cbn [mbind outcome_bind check Z.eqb]. rewrite (get_next_spec _ _ _ Ha1). cbn [mbind outcome_bind].
  destruct (set_next_spec st p b (nx_some _ _ _ Np)) as (s1 & -> & N1 & P1). cbn [mbind outcome_bind].
  destruct (set_prev_spec s1 p h) as (s2 & -> & P2 & N2).
  { apply (pv_some _ _ 0). by rewrite P1. } cbn [mbind outcome_bind].
  rewrite (get_next_spec s2 h b) by (by rewrite N2, N1, decide_False). cbn [mbind outcome_bind].
  destruct (set_prev_spec s2 b p) as (s3 & -> & P3 & N3).
  { apply (pv_some _ _ h). by rewrite P2, P1, decide_False. } cbn [mbind outcome_bind].
  destruct (set_next_spec s3 h p) as (s4 & -> & N4 & P4).
  { apply (nx_some _ _ b). by rewrite N3, N2, N1, decide_False. }
  assert (∀ x, nx s4 x = if decide (x = h) then Some p else if decide (x = p) then Some b else nx st x) as N.
  { intros x. rewrite N4. case_decide; [done|]. by rewrite N3, N2, N1. }
  assert (∀ x, pv s4 x = if decide (x = b) then Some p else if decide (x = p) then Some h else pv st x) as P.
  { intros x. rewrite P4, P3. case_decide; [done|]. by rewrite P2, P1. }
  exists s4. split; [done|]. split.
  - apply (circular_around s4 h [p] l). split; [|split; [|split]].
    + split; [split|done]; [by rewrite N, decide_True|]. by rewrite P, decide_False, decide_True.
    + change (before h [p]) with p. split; [by rewrite N, decide_False, decide_True|].
      by rewrite P, decide_True.
    + eapply consecutive_linked; [| |exact H2].
      * intros x Hx. rewrite removelast_last in Hx. rewrite N, !decide_False; [done|set_solver|].
        apply NoDup_cons in Hnd as [? _]. set_solver.
      * intros x Hx. rewrite P, !decide_False; [done|..].
        -- intros ->. destruct l; simpl in *; [by apply elem_of_nil in Hx|]. set_solver.
        -- intros ->. subst b. unfold after in Hx. destruct l as [|y l]; simpl in *; [by apply elem_of_nil in Hx|].
           apply NoDup_cons in Hnd as [Hh [Hy _]%NoDup_cons]. set_solver.
    + simpl. rewrite !NoDup_cons in *. set_solver.
  - intros x Hx. apply st_ext; rewrite ?N, ?P, !decide_False; set_solver.
Qed.

Lemma DLL_Init_spec st h : is_Some (st !! h) →
  ∃ st', DLL_Init st h = Ok st' ∧ circular st' h [] ∧ ∀ x, x ≠ h → st' !! x = st !! x.
Proof.
  intros Hh. unfold DLL_Init.
  destruct (set_next_spec st h h Hh) as (s1 & -> & N1 & P1). cbn [mbind outcome_bind].
  destruct (set_prev_spec s1 h h) as (s2 & -> & P2 & N2).
  { apply (nx_some _ _ h). by rewrite N1, decide_True. }
  exists s2. split; [done|]. split.
  - split; [|apply NoDup_singleton]. simpl. split; [|done].
    split; rewrite ?N2, ?N1, ?P2, decide_True; done.
  - intros x Hx. apply st_ext; rewrite ?N2, ?N1, ?P2, ?P1, decide_False; done.
Qed.

Lemma DLL_Length_loop_spec fuel st h l2 : ∀ l1 result,
  circular st h (l1 ++ l2) → (length l2 < fuel)%nat → 0 ≤ result → result + zlen l2 ≤ INT_MAX →
  DLL_Length_loop fuel st h (after h l2) result = Ok (result + zlen l2).
Proof.
  revert l2. induction fuel as [|fuel IH]; intros l2 l1 result Hc Hf Hr Hmax; [lia|]. cbn [DLL_Length_loop].
  destruct l2 as [|x l2].
  - unfold after. simpl. rewrite Z.eqb_refl. simpl. rewrite zlen_nil. by rewrite Z.add_0_r.
  - change (after h (x :: l2)) with x. pose proof Hc as [_ Hnd].
    assert (x ≠ h) as Hx.
    { intros ->. apply NoDup_cons in Hnd as [Hh _]. apply Hh. set_solver. }
    rewrite (proj2 (Z.eqb_neq _ _)) by done. cbn [negb].
    pose proof Hc as (_ & [Hn _] & _)%circular_insert_facts.
    rewrite zlen_cons in Hmax. pose proof (zlen_nonneg l2).
    rewrite i32_ok by (unfold INT_MIN; lia). cbn [mbind outcome_bind].
    rewrite (get_next_spec _ _ _ Hn). cbn [mbind outcome_bind].
    rewrite (IH l2 (l1 ++ [x])); [|by rewrite <- app_assoc|simpl in Hf; lia|lia..].
    rewrite zlen_cons. f_equal. lia.
Qed.
Lemma DLL_Length_spec fuel st h l :
  circular st h l → (length l < fuel)%nat → zlen l ≤ INT_MAX →
  DLL_Length fuel st h = Ok (zlen l).
Proof.
  intros Hc Hf Hmax. unfold DLL_Length. rewrite (circular_first _ _ _ Hc). cbn [mbind outcome_bind].
  by rewrite (DLL_Length_loop_spec fuel st h l [] 0 Hc).
Qed.

(** *** All the lists of a store

    [lists] gives the elements of the list of each head; [detached] are the
    spans that are on no list. *)
Record dll_rep st (lists : gmap Z (list Z)) (detached : gset Z) : Prop := {
  dr_circular h l : lists !! h = Some l → circular st h l;
  dr_disjoint h1 l1 h2 l2 x : lists !! h1 = Some l1 → lists !! h2 = Some l2 →
    x ∈ h1 :: l1 → x ∈ h2 :: l2 → h1 = h2;
  dr_detached p : p ∈ detached → st !! p = Some (0, 0);
  dr_apart h l x : lists !! h = Some l → x ∈ h :: l → x ∉ detached;
}.

Section dll_rep.
Variables (st : links) (lists : gmap Z (list Z)) (detached : gset Z).
Hypothesis Hrep : dll_rep st lists detached.

(** A change within one list and the detached spans. *)
Lemma dll_rep_change st' h l l' detached' :
  lists !! h = Some l → circular st' h l' →
  (∀ x, x ∈ l' → x ∈ l ∨ x ∈ detached) →
  (∀ x, x ∈ detached' → x ∈ detached ∨ x ∈ l) →
  (∀ x, x ∈ h :: l' → x ∉ detached') →
  (∀ p, p ∈ detached' → st' !! p = Some (0, 0)) →
  (∀ x, x ∉ h :: l → x ∉ detached → st' !! x = st !! x) →
  dll_rep st' (<[h := l']> lists) detached'.
Proof.
  intros Hl Hc Hin Hdet Hap Hdet0 Hfr. destruct Hrep as [R1 R2 R3 R4].
  assert (∀ h2 l2 x, h2 ≠ h → lists !! h2 = Some l2 → x ∈ h2 :: l2 → x ∉ h :: l ∧ x ∉ detached) as Hother.
  { intros h2 l2 x Hne Hl2 Hx. split; [|by eapply R4]. intros Hx'. apply Hne. by eapply R2. }
  assert (∀ h2 l2 x, h2 ≠ h → lists !! h2 = Some l2 → x ∈ h2 :: l2 → x ∉ h :: l') as Hother'.
  { intros h2 l2 x Hne Hl2 Hx Hx'. destruct (Hother _ _ _ Hne Hl2 Hx).
    apply elem_of_cons in Hx' as [->|Hx']; [set_solver|]. destruct (Hin _ Hx'); set_solver. }
  split.
  - intros h2 l2 Hl2. apply lookup_insert_Some in Hl2 as [[<- <-]|[Hne Hl2]]; [done|].
    eapply circular_frame; [|by eapply R1]. intros x Hx. destruct (Hother h2 l2 x); auto.
  - intros h1 l1 h2 l2 x Hl1 Hl2 Hx1 Hx2.
    apply lookup_insert_Some in Hl1 as [[<- <-]|[Hne1 Hl1]];
      apply lookup_insert_Some in Hl2 as [[<- <-]|[Hne2 Hl2]]; [done|..].
    + by destruct (Hother' h2 l2 x).
    + by destruct (Hother' h1 l1 x).
    + by eapply R2.
  - done.
  - intros h2 l2 x Hl2 Hx. apply lookup_insert_Some in Hl2 as [[<- <-]|[Hne Hl2]]; [auto|].
    destruct (Hother h2 l2 x) as [Hx1 Hx2]; [done..|]. intros Hd. destruct (Hdet _ Hd); set_solver.
Qed.

Lemma rep_Remove h l1 p l2 : lists !! h = Some (l1 ++ p :: l2) →
  ∃ st', DLL_Remove st p = Ok st' ∧ dll_rep st' (<[h := l1 ++ l2]> lists) ({[p]} ∪ detached).
Proof.
  intros Hl. pose proof (dr_circular _ _ _ Hrep _ _ Hl) as Hc.
  destruct (DLL_Remove_spec _ _ _ _ _ Hc) as (st' & E & Hc' & Hp & Hfr).
  exists st'. split; [done|]. eapply (dll_rep_change st' h (l1 ++ p :: l2)); [done..| | | | |].
  - set_solver.
  - set_solver.
  - intros x Hx. pose proof (dr_apart _ _ _ Hrep _ _ x Hl).
    destruct Hc as [_ Hnd]. rewrite <- Permutation_middle in Hnd.
    apply NoDup_cons in Hnd as [Hh [Hp' _]%NoDup_cons]. set_solver.
  - intros q [->%elem_of_singleton|Hq]%elem_of_union; [done|].
    rewrite Hfr; [by apply (dr_detached _ _ _ Hrep)|]. intros Hq'.
    by apply (dr_apart _ _ _ Hrep _ _ q Hl).
  - intros x Hx _. by apply Hfr.
Qed.
Lemma rep_Prepend h l p : lists !! h = Some l → p ∈ detached →
  ∃ st', DLL_Prepend st h p = Ok st' ∧ dll_rep st' (<[h := p :: l]> lists) (detached ∖ {[p]}).
Proof.
  intros Hl Hp. pose proof (dr_circular _ _ _ Hrep _ _ Hl) as Hc.
  pose proof (λ x, dr_apart _ _ _ Hrep _ _ x Hl) as Hap.
  destruct (DLL_Prepend_spec st h l p) as (st' & E & Hc' & Hfr); [done|..].
  { by apply (dr_detached _ _ _ Hrep). }
  { intros Hx. by apply (Hap p). }
  exists st'. split; [done|]. eapply (dll_rep_change st' h l); [done..| | | | |].
  - set_solver.
  - set_solver.
  - intros x Hx. specialize (Hap x). set_solver.
  - intros q Hq. rewrite Hfr; [apply (dr_detached _ _ _ Hrep); set_solver|].
    specialize (Hap q). set_solver.
  - intros x Hx Hx'. apply Hfr. set_solver.
Qed.
Lemma rep_first h l : lists !! h = Some l → get_next st h = Ok (after h l).
Proof. intros. by eapply circular_first, (dr_circular _ _ _ Hrep). Qed.
Lemma rep_last h l : lists !! h = Some l → get_prev st h = Ok (before h l).
Proof. intros. by eapply circular_last, (dr_circular _ _ _ Hrep). Qed.
Lemma rep_IsEmpty h l : lists !! h = Some l →
  DLL_IsEmpty st h = Ok (match l with [] => true | _ => false end).
Proof.
  intros Hl. unfold DLL_IsEmpty. rewrite (rep_first _ _ Hl). simpl. f_equal.
  destruct l as [|x l]; unfold after; simpl; [by rewrite Z.eqb_refl|].
  apply Z.eqb_neq. intros ->. destruct (dr_circular _ _ _ Hrep _ _ Hl) as [_ Hnd].
  apply NoDup_cons in Hnd. set_solver.
Qed.
Lemma rep_Length h l fuel : lists !! h = Some l → (length l < fuel)%nat →
  zlen l ≤ INT_MAX → DLL_Length fuel st h = Ok (zlen l).
Proof. intros Hl. by apply DLL_Length_spec, (dr_circular _ _ _ Hrep). Qed.

(** New spans have null fields; a deleted span is out of the store. *)
Lemma rep_new p : (∀ h l, lists !! h = Some l → p ∉ h :: l) →
  dll_rep (<[p := (0, 0)]> st) lists ({[p]} ∪ detached).
Proof.
  intros Hp. destruct Hrep as [R1 R2 R3 R4]. split.
  - intros h l Hl. eapply circular_frame; [|by eapply R1]. intros x Hx.
    apply lookup_insert_ne. intros <-. by eapply Hp.
  - done.
  - intros q Hq. destruct (decide (q = p)) as [->|]; [by rewrite lookup_insert_eq|].
    rewrite lookup_insert_ne by done. apply R3. set_solver.
  - intros h l x Hl Hx. specialize (R4 _ _ _ Hl Hx). specialize (Hp _ _ Hl). set_solver.
Qed.
Lemma rep_delete p : p ∈ detached → dll_rep (delete p st) lists (detached ∖ {[p]}).
Proof.
  intros Hp. destruct Hrep as [R1 R2 R3 R4]. split.
  - intros h l Hl. eapply circular_frame; [|by eapply R1]. intros x Hx.
    apply lookup_delete_ne. intros <-. by eapply R4.
  - done.
  - intros q Hq. rewrite lookup_delete_ne by set_solver. apply R3. set_solver.
  - intros h l x Hl Hx. specialize (R4 _ _ _ Hl Hx). set_solver.
Qed.
(** A detached head becomes an empty list. *)
Lemma rep_Init h : h ∈ detached →
  ∃ st', DLL_Init st h = Ok st' ∧ dll_rep st' (<[h := []]> lists) (detached ∖ {[h]}).
Proof.
  intros Hh. destruct Hrep as [R1 R2 R3 R4].
  destruct (DLL_Init_spec st h) as (st' & E & Hc & Hfr); [eexists; by apply R3|].
  assert (∀ h2 l2 x, h2 ≠ h → <[h := []]> lists !! h2 = Some l2 → x ∈ h2 :: l2 → lists !! h2 = Some l2 ∧ x ≠ h) as Ho.
  { intros h2 l2 x Hne Hl2 Hx. rewrite lookup_insert_ne in Hl2 by done. split; [done|]. intros ->.
    by apply (R4 _ _ _ Hl2 Hx). }
  assert (∀ l x, <[h := []]> lists !! h = Some l → x ∈ h :: l → x = h) as Hself.
  { intros l x Hl Hx. rewrite lookup_insert_eq in Hl. injection Hl as <-. set_solver. }
  exists st'. split; [done|]. split.
  - intros h2 l2 Hl2. destruct (decide (h2 = h)) as [->|Hne].
    + rewrite lookup_insert_eq in Hl2. by injection Hl2 as <-.
    + apply (circular_frame st); [|apply R1; by apply (Ho h2 l2 h2 Hne Hl2); left].
      intros x Hx. apply Hfr. by apply (Ho h2 l2 x).
  - intros h1 l1 h2 l2 x Hl1 Hl2 Hx1 Hx2.
    destruct (decide (h1 = h)) as [->|Hn1], (decide (h2 = h)) as [->|Hn2]; [done|..].
    + apply (Hself l1 x Hl1) in Hx1 as ->. by destruct (Ho _ _ _ Hn2 Hl2 Hx2).
    + apply (Hself l2 x Hl2) in Hx2 as ->. by destruct (Ho _ _ _ Hn1 Hl1 Hx1).
    + apply (R2 h1 l1 h2 l2 x); [by apply (Ho h1 l1 x)|by apply (Ho h2 l2 x)|done..].
  - intros p [Hp Hne%not_elem_of_singleton]%elem_of_difference. rewrite Hfr by done. by apply R3.
  - intros h2 l2 x Hl2 Hx [Hd Hne%not_elem_of_singleton]%elem_of_difference.
    destruct (decide (h2 = h)) as [->|Hn]; [by apply Hne, (Hself l2)|].
    destruct (Ho _ _ _ Hn Hl2 Hx) as [Hl2' _]. by apply (R4 _ _ _ Hl2' Hx).
Qed.
End dll_rep.

(** ** A run of operations *)
Inductive dll_op := Prepend (h p : Z) | Remove (p : Z).
Definition dll_step st (o : dll_op) : outcome links :=
  match o with Prepend h p => DLL_Prepend st h p | Remove p => DLL_Remove st p end.
Fixpoint dll_run st (os : list dll_op) : outcome links :=
  match os with
  | [] => mret st
  | o :: os => st ← dll_step st o; dll_run st os
  end.

(** What they do to the lists and to the spans on no list. *)
Inductive lists_step : gmap Z (list Z) * gset Z → dll_op → gmap Z (list Z) * gset Z → Prop :=
  | step_prepend ls d h p l : ls !! h = Some l → p ∈ d →
      lists_step (ls, d) (Prepend h p) (<[h := p :: l]> ls, d ∖ {[p]})
  | step_remove ls d h p l1 l2 : ls !! h = Some (l1 ++ p :: l2) →
      lists_step (ls, d) (Remove p) (<[h := l1 ++ l2]> ls, {[p]} ∪ d).
Inductive lists_run : gmap Z (list Z) * gset Z → list dll_op → gmap Z (list Z) * gset Z → Prop :=
  | run_nil s : lists_run s [] s
  | run_cons s o s' os s'' : lists_step s o s' → lists_run s' os s'' → lists_run s (o :: os) s''.

(** C23. The circular lists refine a table of lists.  From a store that
    represents such a table, any run of [DLL_Prepend] and [DLL_Remove] that makes
    sense for the table (spans that are on no list are prepended, spans that are
    on one are removed) goes through, with every assertion true, and ends in a
    store that represents the table after the run; there, for every list,
    [DLL_IsEmpty], the first and the last element, and [DLL_Length] are those of
    the table. *)
Theorem dll_refines_lists st ls d os ls' d' :
  dll_rep st ls d → lists_run (ls, d) os (ls', d') →
  ∃ st', dll_run st os = Ok st' ∧ dll_rep st' ls' d' ∧
    ∀ h l, ls' !! h = Some l →
      DLL_IsEmpty st' h = Ok (match l with [] => true | _ => false end) ∧
      get_next st' h = Ok (default h (head l)) ∧
      get_prev st' h = Ok (default h (last l)) ∧
      (zlen l ≤ INT_MAX → DLL_Length (S (length l)) st' h = Ok (zlen l)).
Proof.
  intros Hrep Hrun. remember (ls, d) as s eqn:Es. remember (ls', d') as s' eqn:Es'.
  revert st ls d Hrep Es. induction Hrun as [|s o s1 os s2 Hstep Hrun IH]; intros st ls d Hrep ->.
  - injection Es' as <- <-. exists st. split; [done|]. split; [done|]. intros h l Hl.
    split; [by eapply rep_IsEmpty|]. split; [by eapply rep_first|]. split; [by eapply rep_last|].
    intros. eapply rep_Length; [done..|lia|done].
  - inversion Hstep as [? ? h p l Hl Hp|? ? h p l1 l2 Hl]; subst.
    + destruct (rep_Prepend _ _ _ Hrep _ _ _ Hl Hp) as (st1 & E & Hrep1).
      cbn [dll_run dll_step]. rewrite E. by apply (IH eq_refl st1 _ _ Hrep1).
    + destruct (rep_Remove _ _ _ Hrep _ _ _ _ Hl) as (st1 & E & Hrep1).
      cbn [dll_run dll_step]. rewrite E. by apply (IH eq_refl st1 _ _ Hrep1).
Qed.

(** ** Singly linked lists: [linked_list.h]

    The first word of an object is the address of the next one. *)
Abbreviation words := (gmap Z Z).
Implicit Types mem : words.

Definition SLL_Next mem (t : Z) : outcome Z :=
  match mem !! t with Some n => Ok n | None => Undefined NullDeref end.
Definition SLL_SetNext mem (t n : Z) : outcome words :=
  match mem !! t with Some _ => Ok (<[t := n]> mem) | None => Undefined NullDeref end.
Definition SLL_Push mem (list element : Z) : outcome (words * Z) :=
  mem ← SLL_SetNext mem element list; mret (mem, element).
Definition SLL_Pop mem (list : Z) : outcome (Z * Z) :=
  n ← SLL_Next mem list; mret (list, n).
(** The new head and the element, or [None] from an empty list. *)
Definition SLL_TryPop mem (list : Z) : outcome (option (Z * Z)) :=
  if list =? 0 then mret None else n ← SLL_Next mem list; mret (Some (list, n)).
Fixpoint SLL_walk (steps : nat) mem (tmp : Z) : outcome Z :=
  match steps with
  | O => mret tmp
  | S steps => tmp ← SLL_Next mem tmp; SLL_walk steps mem tmp
  end.
(** The memory, the new head, and the first and the last of the range. *)
Definition SLL_PopRange mem (head N : Z) : outcome (words * Z * Z * Z) :=
  if N =? 0 then mret (mem, head, 0, 0)
  else
    tmp ← SLL_walk (Z.to_nat (N - 1)) mem head;
    n ← SLL_Next mem tmp;
    mem' ← SLL_SetNext mem tmp 0;
    mret (mem', n, head, tmp).
Definition SLL_PushRange mem (head start end_ : Z) : outcome (words * Z) :=
  if start =? 0 then mret (mem, head)
  else mem ← SLL_SetNext mem end_ head; mret (mem, start).
Fixpoint SLL_Size_loop (fuel : nat) mem (head count : Z) : outcome Z :=
  match fuel with
  | O => NoFuel
  | S fuel =>
      if negb (head =? 0) then
        count ← i32 (count + 1); head ← SLL_Next mem head; SLL_Size_loop fuel mem head count
      else mret count
  end.
Definition SLL_Size (fuel : nat) mem (head : Z) : outcome Z := SLL_Size_loop fuel mem head 0.

(** From [head], the objects [l], and then [e]. *)
Fixpoint sll_seg mem (head : Z) (l : list Z) (e : Z) : Prop :=
  match l with
  | [] => head = e
  | x :: l => head = x ∧ x ≠ 0 ∧ ∃ n, mem !! x = Some n ∧ sll_seg mem n l e
  end.
Definition sll mem (head : Z) (l : list Z) : Prop := sll_seg mem head l 0 ∧ NoDup l.

Lemma sll_seg_frame mem mem' head l e :
  (∀ x, x ∈ l → mem' !! x = mem !! x) → sll_seg mem head l e → sll_seg mem' head l e.
Proof.
  revert head. induction l as [|x l IH]; intros head Hf; [done|]. intros (-> & Hx & n & Hn & Hl).
  split; [done|]. split; [done|]. exists n. split; [rewrite Hf; [done|left]|].
  apply IH; [|done]. intros y Hy. apply Hf. by right.
Qed.
Lemma sll_seg_app mem head l1 l2 e :
  sll_seg mem head (l1 ++ l2) e ↔ ∃ m, sll_seg mem head l1 m ∧ sll_seg mem m l2 e.
Proof.
  revert head. induction l1 as [|x l1 IH]; intros head; simpl; [naive_solver|].
  setoid_rewrite IH. naive_solver.
Qed.
Lemma sll_head mem head l : sll mem head l → head = default 0 (list.head l).
Proof. destruct l; [by intros [? _]|by intros [[? _] _]]. Qed.
Lemma SLL_walk_spec mem l1 x l2 : ∀ head,
  sll_seg mem head (l1 ++ x :: l2) 0 → SLL_walk (length l1) mem head = Ok x.
Proof.
  induction l1 as [|y l1 IH]; intros head; simpl.
  - by intros [-> _].
  - intros (-> & _ & n & Hn & Hl). unfold SLL_Next. rewrite Hn. by apply IH.
Qed.

(** [SLL_PopRange(head, N, &start, &end)] takes the first [N] objects of
    the list off it: afterwards [head] is the list of the others, [start] is the
    list of the [N] objects in their order, [end] is the last of them and its
    next word is null; no word outside the range has changed.  Pushing the
    range back with [SLL_PushRange] restores the list and the memory. *)
Theorem sll_pop_range_push_range mem head l1 x l2 :
  sll mem head (l1 ++ x :: l2) →
  ∃ mem' head', SLL_PopRange mem head (zlen (l1 ++ [x])) = Ok (mem', head', head, x) ∧
    sll mem' head' l2 ∧ sll mem' head (l1 ++ [x]) ∧ mem' !! x = Some 0 ∧
    (∀ y, y ≠ x → mem' !! y = mem !! y) ∧
    SLL_PushRange mem' head' head x = Ok (mem, head).
Proof.
  intros [Hl Hnd]. pose proof (SLL_walk_spec _ _ _ _ _ Hl) as Hw.
  assert (head ≠ 0) as Hh by (destruct l1; by destruct Hl as (-> & ? & _)).
  apply sll_seg_app in Hl as (m & Hl1 & -> & Hx & n & Hn & Hl2).
  apply NoDup_app in Hnd as (Hnd1 & Hd & [Hxl2 Hnd2]%NoDup_cons).
  exists (<[x := 0]> mem), n. unfold SLL_PopRange, SLL_PushRange.
  rewrite (proj2 (Z.eqb_neq (zlen _) 0)) by zlia.
  replace (Z.to_nat (zlen (l1 ++ [x]) - 1)) with (length l1)
    by (rewrite zlen_app, zlen_cons, zlen_nil; unfold zlen; lia).
  rewrite Hw. cbn [mbind outcome_bind]. unfold SLL_Next, SLL_SetNext. rewrite Hn. cbn [mbind outcome_bind].
  split; [done|]. split; [|split; [|split; [|split]]].
  - split; [|done]. eapply sll_seg_frame; [|done]. intros y Hy. apply lookup_insert_ne. set_solver.
  - split; [|apply NoDup_app; split; [done|]; split; [set_solver|apply NoDup_singleton]].
    apply sll_seg_app. exists x. split.
    + eapply sll_seg_frame; [|done]. intros y Hy. apply lookup_insert_ne. set_solver.
    + simpl. split; [done|]. split; [done|]. exists 0. by rewrite lookup_insert_eq.
  - by rewrite lookup_insert_eq.
  - intros y Hy. by rewrite lookup_insert_ne.
  - rewrite (proj2 (Z.eqb_neq head 0)) by done. rewrite lookup_insert_eq. simpl.
    rewrite insert_insert_eq, insert_id by done. done.
Qed.
Lemma SLL_Push_spec mem head l x : sll mem head l → is_Some (mem !! x) → x ≠ 0 → x ∉ l →
  ∃ mem', SLL_Push mem head x = Ok (mem', x) ∧ mem' = <[x := head]> mem ∧ sll mem' x (x :: l).
Proof.
  intros [Hl Hnd] [n Hx] Hx0 Hxl. unfold SLL_Push, SLL_SetNext. rewrite Hx. eexists. split; [done|].
  split; [done|]. split; [|by constructor]. split; [done|]. split; [done|]. exists head.
  rewrite lookup_insert_eq. split; [done|]. eapply sll_seg_frame; [|done]. intros y Hy.
  apply lookup_insert_ne. set_solver.
Qed.
Lemma SLL_TryPop_spec mem head l : sll mem head l →
  SLL_TryPop mem head = Ok (match l with [] => None | x :: l => Some (x, default 0 (list.head l)) end) ∧
  (∀ x l', l = x :: l' → sll mem (default 0 (list.head l')) l').
Proof.
  intros [Hl Hnd]. unfold SLL_TryPop. destruct l as [|x l]; simpl in *; [subst; done|].
  destruct Hl as (-> & Hx & n & Hn & Hl). rewrite (proj2 (Z.eqb_neq _ _)) by done.
  unfold SLL_Next. rewrite Hn. simpl. apply NoDup_cons in Hnd as [_ Hnd].
  assert (n = default 0 (list.head l)) as E by (by apply (sll_head mem)).
  rewrite <- E. split; [done|]. intros ? ? [= <- <-]. rewrite <- E. by split.
Qed.
Lemma SLL_Size_spec fuel mem l : ∀ head count, sll_seg mem head l 0 → (length l < fuel)%nat →
  0 ≤ count → count + zlen l ≤ INT_MAX →
  SLL_Size_loop fuel mem head count = Ok (count + zlen l).
Proof.
  induction l as [|x l IH] in fuel |- *; intros head count Hl Hf Hc Hmax; (destruct fuel; [simpl in Hf; lia|]);
    cbn [SLL_Size_loop].
  - simpl in Hl. subst. simpl. rewrite zlen_nil. by rewrite Z.add_0_r.
  - destruct Hl as (-> & Hx & n & Hn & Hl). rewrite (proj2 (Z.eqb_neq _ _)) by done. cbn [negb].
    rewrite zlen_cons in *. pose proof (zlen_nonneg l). rewrite i32_ok by (unfold INT_MIN; lia).
    cbn [mbind outcome_bind]. unfold SLL_Next. rewrite Hn. cbn [mbind outcome_bind]. rewrite IH; [f_equal; lia|done|simpl in Hf; lia|lia..].
Qed.
