(* ===== verification/SystemAlloc.v ===== *)
(** * Memory from the system: [libs/tcmalloc/src/system-alloc.cc]

    The allocators over [mmap] and [sbrk], the one that tries them in turn,
    [TCMalloc_SystemAlloc], [TCMalloc_SystemRelease] and [TCMalloc_SystemCommit].
    What the kernel does is the class [VM] with its laws; what the page heap and
    the metadata allocator rely on is the class [SysAlloc] with its own, which the
    system allocator implements. *)
From S2P Require Import Prelude.
From stdpp Require Import base numbers list option gmap sets fin_sets.
From Stdlib Require Import ZArith Lia.
Open Scope Z_scope.

(** ** The interface to clients *)
Class SysAlloc (Y : Type) := {
  (** The address (or null) and the bytes of the block. *)
  SystemAlloc : Z → Z → Y → outcome (Z * Z * Y);
  SystemRelease : Z → Z → Y → outcome (bool * Y);
  SystemCommit : Z → Z → Y → Y;
  SystemTaken : Y → Z;
}.

Definition power_of_two (a : Z) : Prop := ∃ k, 0 ≤ k ∧ a = 2 ^ k.

(** The bytes of [sa_given] are those clients have been given: a block is made
    of other bytes, it is aligned and within [sa_bits] bits of address space. *)
Class SysAllocLaws (Y : Type) `{SysAlloc Y} := {
  sa_wf : Y → Prop;
  sa_given : Y → Z → Prop;
  sa_bits : Z;
  sa_bits_range : 0 ≤ sa_bits ≤ 62;
  sa_taken_range y : sa_wf y → 0 ≤ SystemTaken y;
  sa_alloc y size align : sa_wf y → 0 < size < 2 ^ 64 → power_of_two align → 64 ≤ align ≤ 2 ^ 32 →
    ∃ p n y', SystemAlloc size align y = Ok (p, n, y') ∧ sa_wf y' ∧
      (∀ a, sa_given y a → sa_given y' a) ∧
      ((p = 0 ∧ SystemTaken y' = SystemTaken y) ∨
       (0 < p ∧ p mod align = 0 ∧ size ≤ n ∧ p + n ≤ 2 ^ sa_bits ∧
        SystemTaken y' = SystemTaken y + n ∧
        ∀ a, p ≤ a < p + n → ¬ sa_given y a ∧ sa_given y' a));
  sa_release y p n : sa_wf y → 0 ≤ p → 0 ≤ n → p + n ≤ 2 ^ sa_bits →
    ∃ b y', SystemRelease p n y = Ok (b, y') ∧ sa_wf y' ∧ SystemTaken y' = SystemTaken y ∧
      ∀ a, sa_given y' a ↔ sa_given y a;
  sa_commit y p n : sa_wf y →
    sa_wf (SystemCommit p n y) ∧ SystemTaken (SystemCommit p n y) = SystemTaken y ∧
    ∀ a, sa_given (SystemCommit p n y) a ↔ sa_given y a;
}.

(** ** The kernel *)
(** [mmap] gives -1 when it fails ([MAP_FAILED]) and so does [sbrk]; [madvise]
    tells whether it failed and whether [errno] is then [EAGAIN]. *)
Class VM (Y : Type) := {
  vm_pagesize : Z;
  vm_mmap : Z → Y → Z * Y;
  vm_munmap : Z → Z → Y → Y;
  vm_sbrk : Z → Y → Z * Y;
  vm_madvise : Z → Z → Y → bool * bool * Y;
}.
(** The break, the mapped bytes, and how often [madvise] asks to try again. *)
Class VMLaws (Y : Type) `{VM Y} := {
  vm_mapped : Y → Z → Prop;
  vm_brk : Y → Z;
  vm_retries : Y → nat;
  vm_page_range : 0 < vm_pagesize ≤ 2 ^ 16;
  vm_page_power : power_of_two vm_pagesize;
  vm_brk_range y : 0 ≤ vm_brk y ≤ 2 ^ 47;
  vm_mmap_spec y n : 0 < n → let '(p, y') := vm_mmap n y in
    vm_brk y' = vm_brk y ∧
    ((p = -1 ∧ ∀ a, vm_mapped y' a ↔ vm_mapped y a) ∨
     (0 < p ∧ p mod vm_pagesize = 0 ∧ p + n ≤ 2 ^ 47 ∧
      (∀ a, p ≤ a < p + n → ¬ vm_mapped y a) ∧
      ∀ a, vm_mapped y' a ↔ vm_mapped y a ∨ p ≤ a < p + n));
  vm_munmap_spec y p n : p mod vm_pagesize = 0 → n mod vm_pagesize = 0 →
    vm_brk (vm_munmap p n y) = vm_brk y ∧
    ∀ a, vm_mapped (vm_munmap p n y) a ↔ vm_mapped y a ∧ ¬ (p ≤ a < p + n);
  vm_sbrk_spec y n : 0 ≤ n → let '(p, y') := vm_sbrk n y in
    (p = -1 ∧ vm_brk y' = vm_brk y ∧ ∀ a, vm_mapped y' a ↔ vm_mapped y a) ∨
    (p = vm_brk y ∧ 0 < p ∧ vm_brk y' = vm_brk y + n ∧
     (∀ a, p ≤ a < p + n → ¬ vm_mapped y a) ∧
     ∀ a, vm_mapped y' a ↔ vm_mapped y a ∨ p ≤ a < p + n);
  vm_madvise_spec y p n : let '(failed, again, y') := vm_madvise p n y in
    vm_brk y' = vm_brk y ∧ (∀ a, vm_mapped y' a ↔ vm_mapped y a) ∧
    (failed = true → again = true → (vm_retries y' < vm_retries y)%nat);
}.

(** ** The allocators *)
(** The flags of the file. *)
Record sys_flags := mkSysFlags {
  malloc_devmem_start : Z;
  malloc_skip_sbrk : bool;
  malloc_skip_mmap : bool;
  malloc_disable_memory_release : bool;
}.
Inductive SysAllocator := Mmap | Sbrk.
Definition kMaxAllocators : Z := 2.
(** [DefaultSysAllocator]: what has failed, and the allocators to try. *)
Record DefaultSysAllocator := mkDefaultSys {
  failed_ : list bool;
  allocs_ : list (option SysAllocator);
}.
Definition DefaultSysAllocator_new : DefaultSysAllocator := mkDefaultSys [true; true] [None; None].
Definition SetChildAllocator (d : DefaultSysAllocator) (alloc : SysAllocator) (index : Z)
  : DefaultSysAllocator :=
  if index <? kMaxAllocators then
    mkDefaultSys (<[Z.to_nat index := false]> (failed_ d)) (<[Z.to_nat index := Some alloc]> (allocs_ d))
  else d.
(** [kDebugMode] holds: the build does not define [NDEBUG]. *)
Definition kDebugMode : bool := true.
Definition InitSystemAllocators : DefaultSysAllocator :=
  let sdef := DefaultSysAllocator_new in
  if kDebugMode && (4 <? 8) then SetChildAllocator (SetChildAllocator sdef Mmap 0) Sbrk 1
  else SetChildAllocator (SetChildAllocator sdef Sbrk 0) Mmap 1.

Definition kAddressBits : Z := 48.
Definition CheckAddressBits (ptr : Z) : bool :=
  let always_ok := kAddressBits =? 64 in
  always_ok || (Z.shiftr ptr (if always_ok then 0 else kAddressBits) =? 0).
(** [sizeof(MemoryAligner)], a cache line. *)
Definition sizeof_MemoryAligner : Z := 64.

(** The file's static variables and the kernel. *)
Record sysalloc (Y : Type) := mkSys {
  vm : Y;
  pagesize : Z;
  tcmalloc_sys_alloc : DefaultSysAllocator;
  system_alloc_inited : bool;
  TCMalloc_SystemTaken : Z;
}.
Arguments mkSys {Y} _ _ _ _ _.
Arguments vm {Y} _.
Arguments pagesize {Y} _.
Arguments tcmalloc_sys_alloc {Y} _.
Arguments system_alloc_inited {Y} _.
Arguments TCMalloc_SystemTaken {Y} _.

(** An unsigned sum, and rounding up as the code does. *)
Definition up (size alignment : Z) : Z :=
  Prelude.size_t (Prelude.size_t (size + alignment - 1) / alignment * alignment).
Definition misaligned (ptr alignment : Z) : Z := Z.land ptr (alignment - 1).

Section allocators.
Context {Y : Type} `{VM Y}.
Variable flags : sys_flags.

(** Each gives the address, or 0, and the actual size. *)
Definition SbrkSysAllocator_Alloc (size alignment : Z) (y : Y) : Z * Z * Y :=
  if malloc_skip_sbrk flags then (0, 0, y) else
  if 2 ^ 63 <=? Prelude.size_t (size + alignment) then (0, 0, y) else
  let size := up size alignment in
  let '(brk, y) := vm_sbrk 0 y in
  if Prelude.size_t (brk + size) <? size then (0, size, y) else
  let '(result, y) := vm_sbrk size y in
  if result =? -1 then (0, size, y) else
  let ptr := result in
  if misaligned ptr alignment =? 0 then (result, size, y) else
  let extra := alignment - misaligned ptr alignment in
  let '(r2, y) := vm_sbrk extra y in
  if Prelude.size_t r2 =? ptr + size then (ptr + extra, size, y) else
  let '(result, y) := vm_sbrk (Prelude.size_t (size + alignment - 1)) y in
  if result =? -1 then (0, size, y) else
  let ptr := result in
  let ptr := if negb (misaligned ptr alignment =? 0)
             then ptr + (alignment - misaligned ptr alignment) else ptr in
  (ptr, size, y).

Definition MmapSysAllocator_Alloc (size alignment pagesize : Z) (y : Y) : Z * Z * Y * Z :=
  if malloc_skip_mmap flags then (0, 0, y, pagesize) else
  let pagesize := if pagesize =? 0 then vm_pagesize else pagesize in
  let alignment := if alignment <? pagesize then pagesize else alignment in
  let aligned_size := up size alignment in
  if aligned_size <? size then (0, 0, y, pagesize) else
  let size := aligned_size in
  let extra := if pagesize <? alignment then alignment - pagesize else 0 in
  let '(result, y) := vm_mmap (Prelude.size_t (size + extra)) y in
  if result =? -1 then (0, size, y, pagesize) else
  let ptr := result in
  let adjust := if negb (misaligned ptr alignment =? 0)
                then alignment - misaligned ptr alignment else 0 in
  let y := if 0 <? adjust then vm_munmap ptr adjust y else y in
  let y := if adjust <? extra then vm_munmap (ptr + adjust + size) (extra - adjust) y else y in
  (ptr + adjust, size, y, pagesize).

Definition child_alloc (k : SysAllocator) (size alignment : Z) (s : sysalloc Y) : Z * Z * sysalloc Y :=
  match k with
  | Mmap =>
      let '(p, n, y, ps) := MmapSysAllocator_Alloc size alignment (pagesize s) (vm s) in
      (p, n, mkSys y ps (tcmalloc_sys_alloc s) (system_alloc_inited s) (TCMalloc_SystemTaken s))
  | Sbrk =>
      let '(p, n, y) := SbrkSysAllocator_Alloc size alignment (vm s) in
      (p, n, mkSys y (pagesize s) (tcmalloc_sys_alloc s) (system_alloc_inited s) (TCMalloc_SystemTaken s))
  end.

Definition set_failed (f : list bool) (s : sysalloc Y) : sysalloc Y :=
  mkSys (vm s) (pagesize s) (mkDefaultSys f (allocs_ (tcmalloc_sys_alloc s)))
    (system_alloc_inited s) (TCMalloc_SystemTaken s).

(** The first loop of [DefaultSysAllocator::Alloc]. *)
Fixpoint try_allocators (count : nat) (i : Z) (size alignment : Z) (s : sysalloc Y)
  : outcome (Z * Z * sysalloc Y) :=
  match count with
  | O => mret (0, 0, s)
  | S count =>
      f ← arr_get (failed_ (tcmalloc_sys_alloc s)) i;
      a ← arr_get (allocs_ (tcmalloc_sys_alloc s)) i;
      match (if f : bool then None else a : option SysAllocator) with
      | Some k =>
          let '(result, n, s) := child_alloc k size alignment s in
          if negb (result =? 0) then mret (result, n, s)
          else
            fs ← arr_set (failed_ (tcmalloc_sys_alloc s)) i true;
            try_allocators count (i + 1) size alignment (set_failed fs s)
      | None => try_allocators count (i + 1) size alignment s
      end
  end.
Definition DefaultSysAllocator_Alloc (size alignment : Z) (s : sysalloc Y)
  : outcome (Z * Z * sysalloc Y) :=
  '(result, n, s) ← try_allocators (Z.to_nat kMaxAllocators) 0 size alignment s;
  if negb (result =? 0) then mret (result, n, s)
  else mret (0, n, set_failed (replicate (Z.to_nat kMaxAllocators) false) s).

Definition TCMalloc_SystemAlloc (size alignment : Z) (s : sysalloc Y)
  : outcome (Z * Z * sysalloc Y) :=
  if Prelude.size_t (size + alignment) <? size then mret (0, 0, s) else
  let s := if negb (system_alloc_inited s)
           then mkSys (vm s) (pagesize s) InitSystemAllocators true (TCMalloc_SystemTaken s) else s in
  let alignment := if alignment <? sizeof_MemoryAligner then sizeof_MemoryAligner else alignment in
  '(result, actual_size, s) ← DefaultSysAllocator_Alloc size alignment s;
  if negb (result =? 0) then
    _ ← check (CheckAddressBits (Prelude.size_t (result + actual_size - 1)));
    mret (result, actual_size,
          mkSys (vm s) (pagesize s) (tcmalloc_sys_alloc s) (system_alloc_inited s)
            (Prelude.size_t (TCMalloc_SystemTaken s + actual_size)))
  else mret (result, actual_size, s).

(** The loop around [madvise]: whether it worked. *)
Fixpoint madvise_loop (fuel : nat) (start length : Z) (y : Y) : outcome (bool * Y) :=
  match fuel with
  | O => NoFuel
  | S fuel =>
      let '(failed, again, y) := vm_madvise start length y in
      if failed && again then madvise_loop fuel start length y else mret (negb failed, y)
  end.
Definition TCMalloc_SystemRelease (fuel : nat) (start length : Z) (s : sysalloc Y)
  : outcome (bool * sysalloc Y) :=
  if negb (malloc_devmem_start flags =? 0) then mret (false, s) else
  if malloc_disable_memory_release flags then mret (false, s) else
  let ps := if pagesize s =? 0 then vm_pagesize else pagesize s in
  let s := mkSys (vm s) ps (tcmalloc_sys_alloc s) (system_alloc_inited s) (TCMalloc_SystemTaken s) in
  let pagemask := ps - 1 in
  let new_start := start in
  let end_ := Prelude.size_t (new_start + length) in
  let new_end := end_ in
  let new_start := Z.ldiff (Prelude.size_t (new_start + ps - 1)) pagemask in
  let new_end := Z.ldiff new_end pagemask in
  _ ← check (Z.land new_start pagemask =? 0);
  _ ← check (Z.land new_end pagemask =? 0);
  _ ← check (start <=? new_start);
  _ ← check (new_end <=? end_);
  if new_start <? new_end then
    '(worked, y) ← madvise_loop fuel new_start (new_end - new_start) (vm s);
    mret (worked, mkSys y (pagesize s) (tcmalloc_sys_alloc s) (system_alloc_inited s)
                    (TCMalloc_SystemTaken s))
  else mret (false, s).
Definition TCMalloc_SystemCommit (start length : Z) (s : sysalloc Y) : sysalloc Y := s.
End allocators.

(** ** Alignment *)
Lemma power_of_two_pos a : power_of_two a → 0 < a.
Proof. intros (k & Hk & ->). by apply Z.pow_pos_nonneg. Qed.
Lemma power_of_two_divides a b : power_of_two a → power_of_two b → a ≤ b → (a | b).
Proof.
  intros (i & Hi & ->) (j & Hj & ->) Hle. apply Z.pow_le_mono_r_iff in Hle; [|lia..].
  exists (2 ^ (j - i)). rewrite <- Z.pow_add_r by lia. f_equal. lia.
Qed.
Lemma misaligned_mod p a : power_of_two a → misaligned p a = p mod a.
Proof.
  intros (k & Hk & ->). unfold misaligned. rewrite <- Z.land_ones by done. f_equal.
  rewrite Z.ones_equiv. lia.
Qed.
Lemma mod_divide p a b : 0 < a → 0 < b → (a | b) → p mod b = 0 → p mod a = 0.
Proof.
  intros Ha Hb Hd Hp. apply Z.mod_divide; [lia|]. etrans; [exact Hd|]. apply Z.mod_divide; lia.
Qed.
Lemma up_spec size a : 0 < size → 0 < a → size + a ≤ 2 ^ 64 →
  size ≤ up size a < size + a ∧ up size a mod a = 0.
Proof.
  intros Hs Ha Hm. unfold up, Prelude.size_t.
  rewrite (Z.mod_small (size + a - 1)) by lia.
  pose proof (Z.div_mod (size + a - 1) a ltac:(lia)).
  pose proof (Z.mod_pos_bound (size + a - 1) a ltac:(lia)).
  rewrite Z.mod_small by lia. split; [lia|]. by apply Z.mod_mul; lia.
Qed.
(** A sum that wraps around is seen. *)
Lemma up_wraps size a : 0 < size < 2 ^ 64 → 0 < a ≤ 2 ^ 63 → 2 ^ 64 < size + a → up size a < size.
Proof.
  intros Hs Ha Hm. unfold up. assert (Prelude.size_t (size + a - 1) = size + a - 1 - 2 ^ 64) as ->.
  { unfold Prelude.size_t. symmetry. apply (Z.mod_unique _ _ 1); lia. }
  set (x := size + a - 1 - 2 ^ 64). assert (0 ≤ x < size) by lia.
  assert (0 ≤ x / a * a ≤ x).
  { split; [apply Z.mul_nonneg_nonneg; [by apply Z.div_pos; lia|lia]|].
    pose proof (Z.mul_div_le x a). lia. }
  unfold Prelude.size_t. rewrite Z.mod_small; lia.
Qed.
(** Rounding an address up. *)
Definition align_up (p a : Z) : Z :=
  if negb (misaligned p a =? 0) then p + (a - misaligned p a) else p.
Lemma align_up_spec p a : power_of_two a → p ≤ align_up p a < p + a ∧ align_up p a mod a = 0.
Proof.
  intros Ha. unfold align_up. rewrite misaligned_mod by done. apply power_of_two_pos in Ha.
  pose proof (Z.mod_pos_bound p a Ha). destruct (Z.eqb_spec (p mod a) 0) as [E|E]; simpl; [lia|].
  split; [lia|]. replace (p + (a - p mod a)) with ((p / a + 1) * a); [apply Z.mod_mul; lia|].
  pose proof (Z.div_mod p a). lia.
Qed.

(** ** The blocks *)
Section allocator_proofs.
Context {Y : Type} `{VMLaws Y}.
Variable flags : sys_flags.
Implicit Types y : Y.

(** From [y] to [y'] the block of [n] bytes at [p] has been mapped, and nothing
    unmapped. *)
Definition new_block y y' (p n align : Z) : Prop :=
  0 < p ∧ p mod align = 0 ∧ p + n ≤ 2 ^ 47 ∧
  (∀ a, p ≤ a < p + n → ¬ vm_mapped y a ∧ vm_mapped y' a).
Definition keeps_mapped y y' : Prop := ∀ a, vm_mapped y a → vm_mapped y' a.

Lemma vm_sbrk_cases n y : 0 ≤ n → let '(p, y') := vm_sbrk n y in
  keeps_mapped y y' ∧
  (p = -1 ∨ 0 < p ∧ p = vm_brk y ∧ p + n ≤ 2 ^ 47 ∧ vm_brk y' = vm_brk y + n ∧
     ∀ a, p ≤ a < p + n → ¬ vm_mapped y a ∧ vm_mapped y' a).
Proof.
  intros Hn. pose proof (vm_sbrk_spec y n Hn) as Hs. destruct (vm_sbrk n y) as [p y'].
  pose proof (vm_brk_range y'). unfold keeps_mapped.
  destruct Hs as [(-> & _ & Hm)|(Hp & Hpos & Hb & Hf & Hm)]; setoid_rewrite Hm; [by auto|].
  split; [by auto|]. right. split; [done|]. split; [done|]. split; [lia|]. split; [done|]. auto.
Qed.

Lemma Sbrk_spec size align y :
  0 < size → power_of_two align → align ≤ 2 ^ 32 → size + align < 2 ^ 64 →
  let '(p, n, y') := SbrkSysAllocator_Alloc flags size align y in
  keeps_mapped y y' ∧ (p = 0 ∨ size ≤ n ∧ new_block y y' p n align).
Proof.
  intros Hs Ha Hla Hm. pose proof (power_of_two_pos _ Ha) as Hpos.
  destruct (up_spec size align Hs Hpos ltac:(lia)) as [Hup Hupm].
  unfold SbrkSysAllocator_Alloc. destruct (malloc_skip_sbrk flags); [split; [by intros ?|by left]|].
  unfold Prelude.size_t at 1. rewrite (Z.mod_small (size + align)) by lia.
  destruct (Z.leb_spec (2 ^ 63) (size + align)); [split; [by intros ?|by left]|].
  set (n := up size align) in *.
  pose proof (vm_sbrk_cases 0 y ltac:(lia)) as B0. destruct (vm_sbrk 0 y) as [brk y0].
  destruct B0 as [K0 _]. destruct (_ <? n); [split; [done|by left]|].
  pose proof (vm_sbrk_cases n y0 ltac:(lia)) as B1. destruct (vm_sbrk n y0) as [p y1].
  destruct B1 as [K1 B1].
  destruct (Z.eqb_spec p (-1)) as [|Hp]; [split; [by intros ??; apply K1, K0|by left]|].
  destruct B1 as [|(Hp0 & Hp1 & Hp2 & Hb1 & F1)]; [done|].
  assert (∀ a, vm_mapped y a → vm_mapped y1 a) as K01 by (intros; by apply K1, K0).
  rewrite misaligned_mod by done. pose proof (Z.mod_pos_bound p align Hpos).
  destruct (Z.eqb_spec (p mod align) 0) as [E|E].
  { split; [done|]. right. split; [lia|]. split; [lia|]. split; [done|]. split; [lia|].
    intros a Hra. split; [intros ?; destruct (F1 a Hra); auto|by apply F1]. }
  pose proof (vm_sbrk_cases (align - p mod align) y1 ltac:(lia)) as B2.
  destruct (vm_sbrk (align - p mod align) y1) as [r2 y2]. destruct B2 as [K2 B2].
  assert (∀ a, vm_mapped y a → vm_mapped y2 a) as K02 by (intros; by apply K2, K01).
  destruct (Z.eqb_spec (Prelude.size_t r2) (p + n)) as [E2|_].
  { assert (r2 ≠ -1) as Hr2.
    { intros ->. change (Prelude.size_t (-1)) with (2 ^ 64 - 1) in E2. lia. }
    destruct B2 as [|(? & ? & ? & Hb2 & F2)]; [done|]. split; [done|]. right. split; [lia|].
    unfold Prelude.size_t in E2. rewrite Z.mod_small in E2 by lia.
    destruct (align_up_spec p align Ha) as [_ Hal]. unfold align_up in Hal.
    rewrite misaligned_mod in Hal by done. rewrite (proj2 (Z.eqb_neq _ _)) in Hal by done.
    split; [lia|]. split; [done|]. split; [lia|]. intros a Hra.
    destruct (Z.ltb_spec a (p + n)) as [Hlt|Hge].
    - destruct (F1 a ltac:(lia)). split; [intros ?; auto|by apply K2].
    - destruct (F2 a ltac:(lia)). split; [intros ?; auto|done]. }
  assert (Prelude.size_t (n + align - 1) = n + align - 1) as ->.
  { unfold Prelude.size_t. apply Z.mod_small. lia. }
  pose proof (vm_sbrk_cases (n + align - 1) y2 ltac:(lia)) as B3.
  destruct (vm_sbrk (n + align - 1) y2) as [r3 y3]. destruct B3 as [K3 B3].
  destruct (Z.eqb_spec r3 (-1)) as [|Hr3]; [split; [by intros ??; apply K3, K02|by left]|].
  destruct B3 as [|(? & ? & ? & Hb3 & F3)]; [done|]. fold (align_up r3 align).
  destruct (align_up_spec r3 align Ha). split; [by intros ??; apply K3, K02|]. right.
  split; [lia|]. split; [lia|]. split; [done|]. split; [lia|]. intros a Hra.
  destruct (F3 a ltac:(lia)). split; [intros ?; auto|done].
Qed.

Lemma Mmap_spec size align ps y :
  0 < size < 2 ^ 64 → power_of_two align → align ≤ 2 ^ 32 →
  ps = 0 ∨ ps = vm_pagesize →
  let '(p, n, y', ps') := MmapSysAllocator_Alloc flags size align ps y in
  (ps' = 0 ∨ ps' = vm_pagesize) ∧ keeps_mapped y y' ∧
  (p = 0 ∨ size ≤ n ∧ new_block y y' p n align ∧
     ∀ a, vm_mapped y' a ↔ vm_mapped y a ∨ p ≤ a < p + n).
Proof.
  intros Hs Ha Hm Hps. pose proof (power_of_two_pos _ Ha) as Hpos.
  pose proof (vm_page_range (Y := Y)) as Hpr. pose proof (vm_page_power (Y := Y)) as Hpp.
  unfold MmapSysAllocator_Alloc. destruct (malloc_skip_mmap flags).
  { split; [done|]. split; [by intros ?|by left]. }
  replace (if ps =? 0 then vm_pagesize else ps) with (vm_pagesize (Y := Y))
    by (destruct (Z.eqb_spec ps 0), Hps; lia).
  set (pg := vm_pagesize) in *. set (al := if align <? pg then pg else align).
  assert (power_of_two al ∧ pg ≤ al ∧ align ≤ al ∧ al ≤ align + 2 ^ 16) as (Hal & Hpal & Hla & Hlb).
  { unfold al. destruct (Z.ltb_spec align pg); repeat split; try done; lia. }
  pose proof (power_of_two_divides _ _ Hpp Hal Hpal) as Hd1.
  pose proof (power_of_two_divides _ _ Ha Hal Hla) as Hd2.
  destruct (Z.le_gt_cases (size + al) (2 ^ 64)) as [Hsum|Hsum].
  2: { rewrite (proj2 (Z.ltb_lt _ _)) by (apply up_wraps; lia).
    split; [by right|]. split; [by intros ?|by left]. }
  destruct (up_spec size al ltac:(lia) ltac:(lia) Hsum) as [Hup Hupm].
  rewrite (proj2 (Z.ltb_ge _ _)) by lia. set (n := up size al) in *.
  assert (n ≤ 2 ^ 64 - al) as Hn64.
  { assert (al | 2 ^ 64) as [j Hj] by (apply power_of_two_divides; [done|by exists 64|lia]).
    apply Z.mod_divide in Hupm as [i Hi]; [|lia]. assert (i < j) by nia. nia. }
  replace (if pg <? al then al - pg else 0) with (al - pg) by (destruct (Z.ltb_spec pg al); lia).
  assert (Prelude.size_t (n + (al - pg)) = n + (al - pg)) as ->.
  { unfold Prelude.size_t. apply Z.mod_small. lia. }
  pose proof (vm_mmap_spec y (n + (al - pg)) ltac:(lia)) as Hmm.
  destruct (vm_mmap (n + (al - pg)) y) as [p y1]. destruct Hmm as [_ Hmm].
  destruct (Z.eqb_spec p (-1)) as [->|Hp].
  { destruct Hmm as [[_ Hmm]|]; [|lia]. split; [by right|].
    split; [intros ?; by rewrite Hmm|by left]. }
  destruct Hmm as [[? _]|(Hp0 & Hpm & Hp2 & F1 & M1)]; [done|].
  set (adjust := if negb (misaligned p al =? 0) then al - misaligned p al else 0).
  assert (p + adjust = align_up p al) as Eadj.
  { unfold adjust, align_up. destruct (negb _); lia. }
  destruct (align_up_spec p al Hal) as [Hau Haum].
  fold pg in Hpm. apply Z.mod_divide in Hpm as Dp; [|lia].
  assert (pg | align_up p al) as Du by (etrans; [exact Hd1|]; apply Z.mod_divide; [lia|done]).
  assert (pg | n) as Dn by (etrans; [exact Hd1|]; apply Z.mod_divide; [lia|done]).
  assert (pg | adjust) as Dadj.
  { replace adjust with (align_up p al - p) by lia. by apply Z.divide_sub_r. }
  assert (0 ≤ adjust ≤ al - pg) as Hadj.
  { split; [lia|]. destruct Dadj as [i Hi], Hd1 as [j Hj]. assert (i < j) by nia. nia. }
  set (y2 := if 0 <? adjust then vm_munmap p adjust y1 else y1).
  assert (∀ a, vm_mapped y2 a ↔ vm_mapped y a ∨ p + adjust ≤ a < p + (n + (al - pg))) as M2.
  { intros a. unfold y2. destruct (Z.ltb_spec 0 adjust) as [Hlt|Hge].
    - destruct (vm_munmap_spec y1 p adjust Hpm) as [_ ->]; [apply Z.mod_divide; [lia|done]|]. rewrite M1.
      specialize (F1 a). destruct (decide (p ≤ a < p + adjust)); [|naive_solver lia].
      split; [naive_solver lia|]. intros [Hy|]; [|lia]. by destruct (F1 ltac:(lia)).
    - rewrite M1. split; (intros [?|?]; [by left|right; lia]). }
  set (y3 := if adjust <? al - pg then _ else y2).
  assert (∀ a, vm_mapped y3 a ↔ vm_mapped y a ∨ p + adjust ≤ a < p + adjust + n) as M3.
  { intros a. unfold y3. destruct (Z.ltb_spec adjust (al - pg)) as [Hlt|Hge].
    - destruct (vm_munmap_spec y2 (p + adjust + n) (al - pg - adjust)) as [_ ->].
      + rewrite Eadj. apply Z.mod_divide; [lia|]. by apply Z.divide_add_r.
      + apply Z.mod_divide; [lia|]. repeat apply Z.divide_sub_r; done.
      + rewrite M2. specialize (F1 a). split; [naive_solver lia|].
        intros [Hy|]; [|split; [right; lia|lia]]. split; [by left|]. intros Hr. by apply F1; [lia|].
    - rewrite M2. split; (intros [?|?]; [by left|right; lia]). }
  split; [by right|]. split; [intros a Hy; apply M3; by left|]. right. split; [lia|].
  split; [|done]. split; [lia|]. split.
  { rewrite Eadj. by apply (mod_divide _ align al); try lia. }
  split; [lia|]. intros a Hra. split; [apply F1; lia|apply M3; by right].
Qed.
End allocator_proofs.

(** ** Counting the bytes taken *)
Definition in_block (b : Z * Z) (a : Z) : Prop := b.1 ≤ a < b.1 + b.2.
Fixpoint disjoint_blocks (bs : list (Z * Z)) : Prop :=
  match bs with
  | [] => True
  | b :: bs => (∀ c a, c ∈ bs → in_block b a → in_block c a → False) ∧ disjoint_blocks bs
  end.
Definition block_bytes (bs : list (Z * Z)) : Z := foldr (λ b n, b.2 + n) 0 bs.

(** Disjoint blocks below [B] have at most [B] bytes. *)
Lemma block_bytes_bound B bs :
  0 ≤ B → disjoint_blocks bs → (∀ b, b ∈ bs → 0 ≤ b.1 ∧ 0 ≤ b.2 ∧ b.1 + b.2 ≤ B) →
  0 ≤ block_bytes bs ≤ B.
Proof.
  intros HB Hd Hr.
  assert (∃ X : gset Z, Z.of_nat (size X) = block_bytes bs ∧
    ∀ a, a ∈ X ↔ ∃ b, b ∈ bs ∧ in_block b a) as (X & HX & Hin).
  { induction bs as [|b bs IH]; simpl.
    - exists ∅. split; [done|]. intros a. split; [set_solver|]. intros (b & Hb & _). set_solver.
    - destruct Hd as [Hb Hd]. destruct IH as (X & HX & Hin); [done|set_solver|].
      assert (∀ a, a ∈ (list_to_set (seqZ b.1 b.2) : gset Z) ↔ in_block b a) as Hs.
      { intros a. rewrite elem_of_list_to_set, elem_of_seqZ. done. }
      exists (list_to_set (seqZ b.1 b.2) ∪ X). split.
      + rewrite size_union, size_list_to_set by
          first [apply NoDup_seqZ | intros a Ha Ha'; apply Hs in Ha; apply Hin in Ha' as (c & ? & ?); by eapply Hb].
        rewrite length_seqZ. destruct (Hr b ltac:(left)) as (_ & ? & _). lia.
      + intros a. rewrite elem_of_union, Hs, Hin. set_solver. }
  assert (X ⊆ list_to_set (seqZ 0 B)) as Hsub.
  { intros a (b & Hb & Ha)%Hin. apply elem_of_list_to_set, elem_of_seqZ.
    destruct (Hr b Hb) as (? & ? & ?). unfold in_block in Ha. lia. }
  apply subseteq_size in Hsub. rewrite size_list_to_set, length_seqZ in Hsub by apply NoDup_seqZ. lia.
Qed.

(** ** The implementation of the interface *)
Section system_alloc.
Context {Y : Type} `{VMLaws Y}.
Variables (flags : sys_flags) (fuel : nat).
Hypothesis Hfuel : ∀ y : Y, (vm_retries y < fuel)%nat.
Implicit Types s : sysalloc Y.

#[global] Instance system_SysAlloc : SysAlloc (sysalloc Y) := {|
  SystemAlloc := TCMalloc_SystemAlloc flags;
  SystemRelease := TCMalloc_SystemRelease flags fuel;
  SystemCommit := TCMalloc_SystemCommit;
  SystemTaken := TCMalloc_SystemTaken;
|}.

(** The blocks given to clients so far are mapped, and counted. *)
Definition accounted (y : Y) (taken : Z) : Prop :=
  ∃ bs, disjoint_blocks bs ∧ taken = block_bytes bs ∧
    ∀ b, b ∈ bs → 0 ≤ b.1 ∧ 0 ≤ b.2 ∧ b.1 + b.2 ≤ 2 ^ 47 ∧ ∀ a, in_block b a → vm_mapped y a.
Record sys_wf s : Prop := {
  sw_pagesize : pagesize s = 0 ∨ pagesize s = vm_pagesize;
  sw_inited : system_alloc_inited s = true →
    zlen (failed_ (tcmalloc_sys_alloc s)) = 2 ∧ zlen (allocs_ (tcmalloc_sys_alloc s)) = 2;
  sw_taken : accounted (vm s) (TCMalloc_SystemTaken s);
}.
Definition sys_given s (a : Z) : Prop := vm_mapped (vm s) a.

Lemma accounted_range y t : accounted y t → 0 ≤ t ≤ 2 ^ 47.
Proof.
  intros (bs & Hd & -> & Hb). apply block_bytes_bound; [done..|].
  intros b Hin. destruct (Hb b Hin) as (? & ? & ? & _). done.
Qed.
Lemma accounted_mono y y' t : keeps_mapped y y' → accounted y t → accounted y' t.
Proof.
  intros Hk (bs & ? & ? & Hb). exists bs. split; [done|]. split; [done|]. intros b Hin.
  destruct (Hb b Hin) as (? & ? & ? & Ha). auto 10.
Qed.
Lemma accounted_block y y' t p n align : keeps_mapped y y' → 0 ≤ n → new_block y y' p n align →
  accounted y t → accounted y' (t + n).
Proof.
  intros Hk Hn (Hp & _ & Hpn & Hf) (bs & Hd & -> & Hb). exists ((p, n) :: bs). split; [|split].
  - split; [|done]. intros c a Hc Ha Hca. destruct (Hb c Hc) as (_ & _ & _ & Hm).
    destruct (Hf a Ha) as [Hnot _]. by apply Hnot, Hm.
  - simpl. lia.
  - intros b [->|Hin]%elem_of_cons; simpl.
    + split; [lia|]. split; [done|]. split; [done|]. intros a Ha. by apply Hf.
    + destruct (Hb b Hin) as (? & ? & ? & Ha). auto 10.
Qed.

Lemma CheckAddressBits_ok p : 0 ≤ p < 2 ^ 48 → CheckAddressBits (Prelude.size_t p) = true.
Proof.
  intros Hp. unfold CheckAddressBits, kAddressBits. change (48 =? 64) with false. apply Z.eqb_eq.
  rewrite Z.shiftr_div_pow2 by done. unfold Prelude.size_t. rewrite Z.mod_small by lia.
  by apply Z.div_small.
Qed.
Lemma child_alloc_spec k size align s :
  0 < size → power_of_two align → align ≤ 2 ^ 32 → size + align < 2 ^ 64 → sys_wf s →
  ∃ p n y ps, child_alloc flags k size align s =
    (p, n, mkSys y ps (tcmalloc_sys_alloc s) (system_alloc_inited s) (TCMalloc_SystemTaken s)) ∧
    (ps = 0 ∨ ps = vm_pagesize) ∧ keeps_mapped (vm s) y ∧
    (p = 0 ∨ size ≤ n ∧ new_block (vm s) y p n align).
Proof.
  intros Hs Ha Hla Hm [Hps _ _]. pose proof (power_of_two_pos _ Ha). destruct k; simpl.
  - pose proof (Mmap_spec flags size align (pagesize s) (vm s) ltac:(lia) Ha Hla Hps) as Hal.
    destruct (MmapSysAllocator_Alloc _ _ _ _ _) as [[[p n] y] ps]. destruct Hal as (? & ? & Hb).
    exists p, n, y, ps. do 3 (split; [done|]).
    destruct Hb as [|(? & ? & _)]; [by left|by right].
  - pose proof (Sbrk_spec flags size align (vm s) Hs Ha Hla Hm) as Hal.
    destruct (SbrkSysAllocator_Alloc _ _ _ _) as [[p n] y]. destruct Hal.
    by exists p, n, y, (pagesize s).
Qed.

(** What an attempt at an allocation leaves. *)
Definition attempt s (p n : Z) s' (size align : Z) : Prop :=
  (pagesize s' = 0 ∨ pagesize s' = vm_pagesize) ∧ keeps_mapped (vm s) (vm s') ∧
  system_alloc_inited s' = system_alloc_inited s ∧
  zlen (failed_ (tcmalloc_sys_alloc s')) = 2 ∧ zlen (allocs_ (tcmalloc_sys_alloc s')) = 2 ∧
  TCMalloc_SystemTaken s' = TCMalloc_SystemTaken s ∧
  (p = 0 ∨ size ≤ n ∧ new_block (vm s) (vm s') p n align).

Lemma try_allocators_spec count size align : ∀ i s,
  0 < size → power_of_two align → align ≤ 2 ^ 32 → size + align < 2 ^ 64 → sys_wf s →
  zlen (failed_ (tcmalloc_sys_alloc s)) = 2 → zlen (allocs_ (tcmalloc_sys_alloc s)) = 2 →
  0 ≤ i → i + Z.of_nat count ≤ 2 →
  ∃ p n s', try_allocators flags count i size align s = Ok (p, n, s') ∧ attempt s p n s' size align.
Proof.
  induction count as [|count IH]; intros i s Hs Ha Hla Hm Hwf Hl1 Hl2 Hi Hc; cbn [try_allocators].
  { exists 0, 0, s. split; [done|]. destruct Hwf as [? _ _].
    split; [done|]. split; [by intros ?|]. do 4 (split; [done|]). by left. }
  rewrite !arr_get_total by lia. cbn [mbind outcome_bind].
  match goal with |- context [match ?x with Some _ => _ | None => _ end] => destruct x as [k|] end;
    [|apply IH; try done; lia].
  destruct (child_alloc_spec k size align s Hs Ha Hla Hm Hwf) as (p & n & y & ps & -> & Hps & Hk & Hb).
  destruct (Z.eqb_spec p 0) as [->|Hp]; cbn [negb].
  - cbn [tcmalloc_sys_alloc]. rewrite arr_set_ok by lia. cbn [mbind outcome_bind].
    set (s1 := set_failed _ _).
    destruct (IH (i + 1) s1) as (p & n' & s' & E & Hs1 & Hs2 & Hs3 & Hs4 & Hs5 & Hs6 & Hs7);
      [done..| | | |lia|lia|].
    + destruct Hwf as [W1 W2 W3]. split; simpl; [done| |by eapply accounted_mono].
      intros ?. split; [by rewrite zlen_insert|done].
    + simpl. by rewrite zlen_insert.
    + done.
    + exists p, n', s'. split; [done|]. split; [done|].
      split; [intros a Hma; by apply Hs2, Hk|]. do 4 (split; [done|]).
      destruct Hs7 as [|(? & ? & ? & ? & Hf)]; [by left|right]. do 4 (split; [done|]).
      intros a Hra. destruct (Hf a Hra) as [Hnf ?]. split; [intros ?; by apply Hnf, Hk|done].
  - exists p, n, (mkSys y ps (tcmalloc_sys_alloc s) (system_alloc_inited s) (TCMalloc_SystemTaken s)).
    split; [done|]. by do 6 (split; [done|]).
Qed.

Lemma DefaultSysAllocator_Alloc_spec size align s :
  0 < size → power_of_two align → align ≤ 2 ^ 32 → size + align < 2 ^ 64 → sys_wf s →
  zlen (failed_ (tcmalloc_sys_alloc s)) = 2 → zlen (allocs_ (tcmalloc_sys_alloc s)) = 2 →
  ∃ p n s', DefaultSysAllocator_Alloc flags size align s = Ok (p, n, s') ∧
    attempt s p n s' size align.
Proof.
  intros Hs Ha Hla Hm Hwf Hl1 Hl2. unfold DefaultSysAllocator_Alloc.
  destruct (try_allocators_spec (Z.to_nat kMaxAllocators) size align 0 s)
    as (p & n & s' & E & Hat); [done..|].
  rewrite E. cbn [mbind outcome_bind].
  destruct (Z.eqb_spec p 0) as [->|Hp]; cbn [negb]; [|by exists p, n, s'].
  exists 0, n, (set_failed (replicate (Z.to_nat kMaxAllocators) false) s'). split; [done|].
  destruct Hat as (? & ? & ? & ? & ? & ? & _). split; [done|]. split; [done|].
  do 4 (split; [done|]). by left.
Qed.

(** [TCMalloc_SystemAlloc] gives null, or a block of at least [size] bytes that
    is aligned, was not mapped before, is counted in [TCMalloc_SystemTaken], and
    whose last address passes the check of the address bits. *)
Lemma TCMalloc_SystemAlloc_spec size align s :
  0 < size < 2 ^ 64 → power_of_two align → 64 ≤ align ≤ 2 ^ 32 → sys_wf s →
  ∃ p n s', TCMalloc_SystemAlloc flags size align s = Ok (p, n, s') ∧ sys_wf s' ∧
    keeps_mapped (vm s) (vm s') ∧
    (p = 0 ∧ TCMalloc_SystemTaken s' = TCMalloc_SystemTaken s ∨
     size ≤ n ∧ new_block (vm s) (vm s') p n align ∧
     TCMalloc_SystemTaken s' = TCMalloc_SystemTaken s + n).
Proof.
  intros Hs Ha Hla Hwf. unfold TCMalloc_SystemAlloc.
  destruct (Z.ltb_spec (Prelude.size_t (size + align)) size) as [|Hm].
  { exists 0, 0, s. split; [done|]. split; [done|]. split; [by intros ?|by left]. }
  assert (size + align < 2 ^ 64) as Hm'.
  { destruct (Z.lt_ge_cases (size + align) (2 ^ 64)) as [|Hge]; [done|]. exfalso.
    assert (Prelude.size_t (size + align) = size + align - 2 ^ 64) as E.
    { unfold Prelude.size_t. symmetry. apply (Z.mod_unique _ _ 1); lia. }
    lia. }
  set (s0 := if negb (system_alloc_inited s) then _ else s).
  assert (sys_wf s0 ∧ vm s0 = vm s ∧ TCMalloc_SystemTaken s0 = TCMalloc_SystemTaken s ∧
    system_alloc_inited s0 = true) as (Hwf0 & Hvm & Ht & Hi).
  { unfold s0. destruct (system_alloc_inited s) eqn:Ei; [done|]. destruct Hwf. by split. }
  destruct (sw_inited _ Hwf0 Hi) as [Hl1 Hl2].
  rewrite (proj2 (Z.ltb_ge align _)) by (unfold sizeof_MemoryAligner; lia).
  destruct (DefaultSysAllocator_Alloc_spec size align s0)
    as (p & n & s1 & -> & Hps & Hk & Hi1 & Hf1 & Hf2 & Ht1 & Hb); [lia|done|lia|done..|].
  cbn [mbind outcome_bind]. rewrite Hvm in *.
  pose proof (sw_taken _ Hwf0) as Hacc. rewrite Ht, Hvm in Hacc.
  destruct (Z.eqb_spec p 0) as [->|Hp]; cbn [negb].
  { exists 0, n, s1. split; [done|]. split; [|split; [done|left; by rewrite Ht1]].
    split; [done|by intros _|]. rewrite Ht1, Ht. by eapply accounted_mono. }
  destruct Hb as [|[Hn Hb]]; [done|]. pose proof Hb as (Hp0 & Hpa & Hpn & Hfr).
  assert (accounted (vm s1) (TCMalloc_SystemTaken s + n)) as Hacc'.
  { eapply accounted_block; [done|lia|done|done]. }
  rewrite CheckAddressBits_ok by lia.
  cbn [mbind outcome_bind check]. eexists p, n, _. split; [done|].
  pose proof (accounted_range _ _ Hacc'). rewrite Ht1, Ht.
  assert (Prelude.size_t (TCMalloc_SystemTaken s + n) = TCMalloc_SystemTaken s + n) as ->.
  { unfold Prelude.size_t. apply Z.mod_small. lia. }
  split; [by split|]. split; [done|]. by right.
Qed.

Lemma madvise_loop_spec n start length y : (vm_retries y < n)%nat →
  ∃ b y', madvise_loop n start length y = Ok (b, y') ∧ ∀ a, vm_mapped y' a ↔ vm_mapped y a.
Proof.
  revert y. induction n as [|n IH]; intros y Hn; [lia|]. cbn [madvise_loop].
  pose proof (vm_madvise_spec y start length) as Hs.
  destruct (vm_madvise start length y) as [[failed again] y1]. destruct Hs as (_ & Hm & Hr).
  destruct (failed && again) eqn:E.
  - apply andb_true_iff in E as [-> ->]. destruct (IH y1) as (b & y' & E & Hm').
    { specialize (Hr eq_refl eq_refl). lia. }
    exists b, y'. split; [done|]. intros a. by rewrite Hm'.
  - by exists (negb failed), y1.
Qed.
Lemma TCMalloc_SystemRelease_spec start length s :
  sys_wf s → 0 ≤ start → 0 ≤ length → start + length ≤ 2 ^ 62 →
  ∃ b s', TCMalloc_SystemRelease flags fuel start length s = Ok (b, s') ∧ sys_wf s' ∧
    TCMalloc_SystemTaken s' = TCMalloc_SystemTaken s ∧
    ∀ a, vm_mapped (vm s') a ↔ vm_mapped (vm s) a.
Proof.
  intros [W1 W2 W3] H1 H2 H3. unfold TCMalloc_SystemRelease.
  destruct (negb _); [exists false, s; split; [done|]; by split|].
  destruct (malloc_disable_memory_release flags); [exists false, s; split; [done|]; by split|].
  pose proof (vm_page_range (Y := Y)) as Hpr. destruct (vm_page_power (Y := Y)) as (k & Hk & Epg).
  replace (if pagesize s =? 0 then vm_pagesize else pagesize s) with (vm_pagesize (Y := Y))
    by (destruct (Z.eqb_spec (pagesize s) 0), W1; lia).
  set (pg := vm_pagesize) in *.
  assert (pg - 1 = Z.ones k) as Em by (rewrite Z.ones_equiv; lia).
  assert (∀ x, 0 ≤ x → Z.ldiff x (pg - 1) = x - x mod pg) as Hld.
  { intros x Hx. rewrite Em, Epg, Z.ldiff_ones_r, Z.shiftl_mul_pow2, Z.shiftr_div_pow2 by done.
    pose proof (Z.div_mod x (2 ^ k)). lia. }
  assert (∀ x, Z.land (Z.ldiff x (pg - 1)) (pg - 1) = 0) as Hland.
  { intros x. apply Z.bits_inj'. intros i Hi. rewrite Z.land_spec, Z.ldiff_spec, Z.bits_0.
    destruct (Z.testbit x i), (Z.testbit (pg - 1) i); done. }
  rewrite !Hland. unfold Prelude.size_t. rewrite (Z.mod_small (start + length)) by lia.
  rewrite (Z.mod_small (start + pg - 1)) by lia. rewrite !Hld by lia.
  pose proof (Z.mod_pos_bound (start + pg - 1) pg ltac:(lia)).
  pose proof (Z.mod_pos_bound (start + length) pg ltac:(lia)).
  rewrite (proj2 (Z.leb_le start _)) by lia. rewrite (proj2 (Z.leb_le _ (start + length))) by lia.
  cbn [mbind outcome_bind check Z.eqb vm]. destruct (_ <? _).
  - set (a0 := _ - _ mod _). set (n0 := _ - a0).
    destruct (madvise_loop_spec fuel a0 n0 (vm s) (Hfuel _)) as (b & y' & -> & Hm).
    cbn [mbind outcome_bind]. eexists b, _. split; [done|]. split; [|done].
    split; simpl; [by right|done|]. eapply accounted_mono; [|done]. intros a. by rewrite Hm.
  - eexists false, _. split; [done|]. split; [|done]. split; simpl; [by right|done..].
Qed.

#[global] Program Instance system_SysAllocLaws : SysAllocLaws (sysalloc Y) := {|
  sa_wf := sys_wf;
  sa_given := sys_given;
  sa_bits := 47;
|}.
Next Obligation. done. Qed.
Next Obligation. intros s [_ _ Hw]. apply accounted_range in Hw. simpl. lia. Qed.
Next Obligation.
  intros s size align Hwf Hs Ha Hla.
  destruct (TCMalloc_SystemAlloc_spec size align s Hs Ha Hla Hwf)
    as (p & n & s' & E & Hwf' & Hk & Hb).
  exists p, n, s'. split; [done|]. split; [done|]. split; [done|].
  destruct Hb as [[-> Ht]|(Hn & (? & ? & ? & ?) & Ht)]; [by left|by right].
Qed.
Next Obligation.
  intros s p n Hwf Hp Hn Hpn.
  destruct (TCMalloc_SystemRelease_spec p n s) as (b & s' & E & ? & ? & ?); [done..|lia|].
  by exists b, s'.
Qed.
Next Obligation. done. Qed.

(** A run of requests (size and alignment): the blocks given. *)
Fixpoint alloc_run (rs : list (Z * Z)) s : outcome (list (Z * Z) * sysalloc Y) :=
  match rs with
  | [] => mret ([], s)
  | (size, align) :: rs =>
      '(p, n, s) ← TCMalloc_SystemAlloc flags size align s;
      '(bs, s) ← alloc_run rs s;
      mret (if p =? 0 then bs else (p, n) :: bs, s)
  end.

(** C28. Memory taken from the system.  For any sequence of requests, with
    power-of-two alignments of at least a cache line, [TCMalloc_SystemAlloc] passes
    its check of the address bits each time; the blocks it returns (whether they
    come from [mmap], where the unaligned ends are unmapped again, or from one of
    the attempts with [sbrk]) overlap neither each other nor memory that was
    mapped before, they are mapped at the end, and [TCMalloc_SystemTaken] has grown
    by exactly their bytes. *)
Theorem system_alloc_blocks rs s :
  sys_wf s → Forall (λ r, 0 < r.1 < 2 ^ 64 ∧ power_of_two r.2 ∧ 64 ≤ r.2 ≤ 2 ^ 32) rs →
  ∃ bs s', alloc_run rs s = Ok (bs, s') ∧ disjoint_blocks bs ∧
    TCMalloc_SystemTaken s' = TCMalloc_SystemTaken s + block_bytes bs ∧
    (∀ a, vm_mapped (vm s) a → vm_mapped (vm s') a) ∧
    ∀ b, b ∈ bs → 0 < b.1 ∧ b.1 + b.2 ≤ 2 ^ 47 ∧
      ∀ a, in_block b a → ¬ vm_mapped (vm s) a ∧ vm_mapped (vm s') a.
Proof.
  intros Hwf Hrs. revert s Hwf. induction Hrs as [|[size align] rs (Hs & Ha & Hla) _ IH]; intros s Hwf.
  - exists [], s. split; [done|]. split; [done|]. split; [simpl; lia|]. split; [done|].
    intros b Hb. set_solver.
  - cbn [alloc_run].
    destruct (TCMalloc_SystemAlloc_spec size align s Hs Ha Hla Hwf)
      as (p & n & s1 & -> & Hwf1 & Hk & Hb). cbn [mbind outcome_bind].
    destruct (IH s1 Hwf1) as (bs & s' & -> & Hd & Ht & Hk' & Hbs). cbn [mbind outcome_bind].
    eexists _, s'. split; [done|]. destruct (Z.eqb_spec p 0) as [->|Hp].
    + destruct Hb as [[_ Ht0]|(_ & (? & _) & _)]; [|done].
      split; [done|]. split; [by rewrite Ht, Ht0|]. split; [auto|].
      intros b Hb. destruct (Hbs b Hb) as (? & ? & Hf). split; [done|]. split; [done|].
      intros a Ha'. destruct (Hf a Ha'). split; [auto|done].
    + destruct Hb as [[? _]|(Hn & (Hp0 & _ & Hpn & Hf0) & Ht0)]; [done|].
      split; [|split; [simpl; lia|split; [auto|]]].
      * split; [|done]. intros c a Hc Hpa Hca. destruct (Hbs c Hc) as (_ & _ & Hf).
        destruct (Hf a Hca) as [Hnm _]. apply Hnm. by apply Hf0.
      * intros b [->|Hb]%elem_of_cons.
        -- split; [done|]. split; [done|]. intros a Hpa. destruct (Hf0 a Hpa). auto.
        -- destruct (Hbs b Hb) as (? & ? & Hf). split; [done|]. split; [done|].
           intros a Ha'. destruct (Hf a Ha'). split; [auto|done].
Qed.

Lemma Mmap_wraps ps y : ps = 0 ∨ ps = vm_pagesize →
  ∃ ps', MmapSysAllocator_Alloc flags (2 ^ 64 - 20) 64 ps y = (0, 0, y, ps').
Proof.
  intros Hps. unfold MmapSysAllocator_Alloc. destruct (malloc_skip_mmap flags); [by eexists|].
  pose proof (vm_page_range (Y := Y)) as Hpr.
  replace (if ps =? 0 then vm_pagesize else ps) with (vm_pagesize (Y := Y))
    by (destruct (Z.eqb_spec ps 0), Hps; lia).
  set (al := if 64 <? _ then _ else 64).
  assert (64 ≤ al ≤ 2 ^ 16) by (unfold al; destruct (Z.ltb_spec 64 (vm_pagesize (Y := Y))); lia).
  rewrite (proj2 (Z.ltb_lt (up _ al) _)) by (apply up_wraps; lia). by eexists.
Qed.
Lemma Sbrk_wraps y : malloc_skip_sbrk flags = false →
  vm_sbrk 0 y = (vm_brk y, y) → vm_brk y mod 64 = 0 → 0 < vm_brk y →
  SbrkSysAllocator_Alloc flags (2 ^ 64 - 20) 64 y = (vm_brk y, 0, y).
Proof.
  intros Hskip Hsb Ha Hpos. unfold SbrkSysAllocator_Alloc. rewrite Hskip.
  change (2 ^ 63 <=? Prelude.size_t (2 ^ 64 - 20 + 64)) with false. cbn iota.
  change (up (2 ^ 64 - 20) 64) with 0. rewrite Hsb. pose proof (vm_brk_range y).
  rewrite (proj2 (Z.ltb_ge _ _)) by (apply Z.mod_pos_bound; lia).
  rewrite Hsb, (proj2 (Z.eqb_neq _ _)) by lia.
  rewrite misaligned_mod by (exists 6; lia). by rewrite Ha.
Qed.

(** The minimum alignment is enforced after the check that the request does
    not overflow.  A request of 2^64 - 20 bytes at alignment 1 passes that check;
    rounding it up to 64 wraps to 0, which the [mmap] allocator notices and the
    [sbrk] allocator does not: when the break is aligned, [TCMalloc_SystemAlloc]
    returns it as a block, of no bytes. *)
Theorem system_alloc_minimum_alignment_overflows s :
  malloc_skip_sbrk flags = false → system_alloc_inited s = false →
  pagesize s = 0 ∨ pagesize s = vm_pagesize →
  vm_sbrk 0 (vm s) = (vm_brk (vm s), vm s) → vm_brk (vm s) mod 64 = 0 → 0 < vm_brk (vm s) →
  ∃ s', TCMalloc_SystemAlloc flags (2 ^ 64 - 20) 1 s = Ok (vm_brk (vm s), 0, s').
Proof.
  intros Hskip Hi Hps Hsb Ha Hpos. unfold TCMalloc_SystemAlloc. rewrite Hi. cbn [negb].
  change (Prelude.size_t (2 ^ 64 - 20 + 1) <? 2 ^ 64 - 20) with false. cbn iota.
  change (if 1 <? sizeof_MemoryAligner then sizeof_MemoryAligner else 1) with 64.
  unfold DefaultSysAllocator_Alloc. change (Z.to_nat kMaxAllocators) with 2%nat.
  destruct (Mmap_wraps (pagesize s) (vm s) Hps) as [ps' Em].
  pose proof (Sbrk_wraps (vm s) Hskip Hsb Ha Hpos) as Es.
  change InitSystemAllocators with (mkDefaultSys [false; false] [Some Mmap; Some Sbrk]).
  cbn [try_allocators tcmalloc_sys_alloc failed_ allocs_].
  change (arr_get [false; false] 0) with (Ok false).
  change (arr_get [Some Mmap; Some Sbrk] 0) with (Ok (Some Mmap)).
  cbn [mbind outcome_bind child_alloc vm pagesize]. rewrite Em.
  change (negb (0 =? 0)) with false. cbn iota. cbn [tcmalloc_sys_alloc failed_ allocs_].
  change (arr_set [false; false] 0 true) with (Ok [true; false]).
  cbn [mbind outcome_bind set_failed tcmalloc_sys_alloc failed_ allocs_ vm pagesize].
  change (arr_get [true; false] (0 + 1)) with (Ok false).
  change (arr_get [Some Mmap; Some Sbrk] (0 + 1)) with (Ok (Some Sbrk)).
  cbn [mbind outcome_bind child_alloc vm]. unfold set_failed. cbn [vm]. rewrite Es.
  rewrite (proj2 (Z.eqb_neq (vm_brk _) 0)) by lia. cbn [negb mret outcome_ret mbind outcome_bind].
  rewrite (proj2 (Z.eqb_neq (vm_brk _) 0)) by lia. cbn [negb mret outcome_ret mbind outcome_bind].
  rewrite (proj2 (Z.eqb_neq (vm_brk _) 0)) by lia. cbn [negb].
  pose proof (vm_brk_range (vm s)). rewrite CheckAddressBits_ok by lia. by eexists.
Qed.
End system_alloc.
