(* ===== verification/MetaData.v ===== *)
(** * The allocator's own memory: [common.cc], [page_heap_allocator.h]

    [MetaDataAlloc], which takes chunks from the system and hands out pieces of
    them, and [PageHeapAllocator], which carves objects of one size out of such
    pieces and keeps a list of the deleted ones.  The page heap relies on the
    classes [MetaData] and [SpanAllocator], which these implement. *)
From S2P Require Import Prelude SpanList PageMap SystemAlloc.
From stdpp Require Import base numbers list option gmap sets fin_sets.
From Stdlib Require Import ZArith Lia.
Open Scope Z_scope.

(** ** The interface of [MetaDataAlloc] *)
(** The address of the block, or null. *)
Class MetaData (W : Type) := MetaDataAlloc : Z → W → outcome (Z * W).

(** What every operation on the system's memory respects: what has been given
    stays given, and what has been taken is counted. *)
Definition sys_le {W : Type} `{SysAllocLaws W} (w w' : W) : Prop :=
  (∀ a, sa_given w a → sa_given w' a) ∧ SystemTaken w ≤ SystemTaken w'.
#[global] Instance sys_le_preorder {W : Type} `{SysAllocLaws W} : PreOrder (sys_le (W := W)).
Proof.
  split; [by split|]. intros x y z [? ?] [? ?]. split; [auto|lia].
Qed.

Class MetaDataLaws (W : Type) `{SysAllocLaws W, MetaData W} := {
  md_alloc w n : sa_wf w → 0 < n < 2 ^ 62 →
    ∃ p w', MetaDataAlloc n w = Ok (p, w') ∧ sa_wf w' ∧ sys_le w w' ∧
      (p = 0 ∨ 0 < p ∧ ∀ a, p ≤ a < p + n → ¬ sa_given w a ∧ sa_given w' a);
}.

(** ** [MetaDataAlloc] *)
Definition kMetadataAllocChunkSize : Z := 8 * 1024 * 1024.
Definition kMetadataAllignment : Z := sizeof_MemoryAligner.

(** The static variables of the file, and the system. *)
Record metadata (Y : Type) := mkMeta {
  metadata_system_bytes_ : Z;
  metadata_chunk_alloc_ : Z;
  metadata_chunk_avail_ : Z;
  sys : Y;
}.
Arguments mkMeta {Y} _ _ _ _.
Arguments metadata_system_bytes_ {Y} _.
Arguments metadata_chunk_alloc_ {Y} _.
Arguments metadata_chunk_avail_ {Y} _.
Arguments sys {Y} _.

Section metadata.
Context {Y : Type} `{SysAlloc Y}.
Implicit Types w : metadata Y.

(** The request served from the current chunk. *)
Definition carve_chunk (bytes alignment : Z) w : Z * metadata Y :=
  let rv := metadata_chunk_alloc_ w + alignment in
  let bytes := bytes + alignment in
  (rv, mkMeta (Prelude.size_t (metadata_system_bytes_ w + bytes))
         (metadata_chunk_alloc_ w + bytes)
         (Prelude.size_t (metadata_chunk_avail_ w - bytes)) (sys w)).
Definition common_MetaDataAlloc (bytes : Z) w : outcome (Z * metadata Y) :=
  if kMetadataAllocChunkSize <=? bytes then
    '(rv, _, y) ← SystemAlloc bytes kMetadataAllignment (sys w);
    let total := if negb (rv =? 0) then Prelude.size_t (metadata_system_bytes_ w + bytes)
                 else metadata_system_bytes_ w in
    mret (rv, mkMeta total (metadata_chunk_alloc_ w) (metadata_chunk_avail_ w) y)
  else
    let alignment := Z.land (- metadata_chunk_alloc_ w) (kMetadataAllignment - 1) in
    if metadata_chunk_avail_ w <? bytes + alignment then
      '(ptr, real_size, y) ← SystemAlloc kMetadataAllocChunkSize kMetadataAllignment (sys w);
      if ptr =? 0 then
        mret (0, mkMeta (metadata_system_bytes_ w) (metadata_chunk_alloc_ w)
                   (metadata_chunk_avail_ w) y)
      else mret (carve_chunk bytes 0 (mkMeta (metadata_system_bytes_ w) ptr real_size y))
    else mret (carve_chunk bytes alignment w).

(** The system is reached through the same interface. *)
Definition with_sys w (y : Y) : metadata Y :=
  mkMeta (metadata_system_bytes_ w) (metadata_chunk_alloc_ w) (metadata_chunk_avail_ w) y.
#[global] Instance metadata_SysAlloc : SysAlloc (metadata Y) := {|
  SystemAlloc size align w := '(p, n, y) ← SystemAlloc size align (sys w); mret (p, n, with_sys w y);
  SystemRelease p n w := '(b, y) ← SystemRelease p n (sys w); mret (b, with_sys w y);
  SystemCommit p n w := with_sys w (SystemCommit p n (sys w));
  SystemTaken w := SystemTaken (sys w);
|}.
#[global] Instance metadata_MetaData : MetaData (metadata Y) := common_MetaDataAlloc.
End metadata.

Section metadata_laws.
Context {Y : Type} `{SysAllocLaws Y}.
Implicit Types w : metadata Y.

(** The bytes of the chunk that have not been handed out. *)
Definition in_chunk w (a : Z) : Prop :=
  metadata_chunk_alloc_ w ≤ a < metadata_chunk_alloc_ w + metadata_chunk_avail_ w.
Record meta_wf w : Prop := {
  mw_sys : sa_wf (sys w);
  mw_avail : 0 ≤ metadata_chunk_avail_ w;
  mw_range : 0 ≤ metadata_chunk_alloc_ w ∧
    metadata_chunk_alloc_ w + metadata_chunk_avail_ w ≤ 2 ^ sa_bits;
  mw_start : 0 < metadata_chunk_avail_ w → 0 < metadata_chunk_alloc_ w;
  mw_chunk a : in_chunk w a → sa_given (sys w) a;
}.
Definition meta_given w (a : Z) : Prop := sa_given (sys w) a ∧ ¬ in_chunk w a.

Lemma sa_bits_pow : 0 < 2 ^ sa_bits ≤ 2 ^ 62.
Proof.
  pose proof sa_bits_range. split; [apply Z.pow_pos_nonneg; lia|apply Z.pow_le_mono_r; lia].
Qed.

#[global] Program Instance metadata_SysAllocLaws : SysAllocLaws (metadata Y) := {|
  sa_wf := meta_wf;
  sa_given := meta_given;
  sa_bits := sa_bits (Y := Y);
|}.
Next Obligation. apply sa_bits_range. Qed.
Next Obligation. intros w Hw. apply (sa_taken_range (sys w)), Hw. Qed.
Next Obligation.
  intros w size align [W1 W2 W3 W5 W4] Hs Ha Hla.
  destruct (sa_alloc (sys w) size align W1 Hs Ha Hla) as (p & n & y & E & Hwf & Hg & Hb).
  exists p, n, (with_sys w y). simpl. rewrite E. split; [done|].
  split; [split; simpl; [done..|intros a Ha'; by apply Hg, W4]|].
  split; [intros a [Hga Hca]; split; [by apply Hg|done]|].
  destruct Hb as [[-> Ht]|(Hp & Hm & Hn & Hpn & Ht & Hf)]; [by left|right].
  do 5 (split; [done|]). intros a Hra. destruct (Hf a Hra) as [Hna Hya].
  split; [intros [? _]; done|]. split; [done|]. intros Hca. by apply Hna, W4.
Qed.
Next Obligation.
  intros w p n [W1 W2 W3 W5 W4] Hp Hn Hpn. simpl in *.
  destruct (sa_release (sys w) p n W1 Hp Hn Hpn) as (b & y & -> & Hwf & Ht & Hg).
  exists b, (with_sys w y). split; [done|].
  split; [split; simpl; [done..|intros a Ha; by apply Hg, W4]|]. split; [done|].
  intros a. unfold meta_given. simpl. by rewrite Hg.
Qed.
Next Obligation.
  intros w p n [W1 W2 W3 W5 W4]. simpl. destruct (sa_commit (sys w) p n W1) as (Hwf & Ht & Hg).
  split; [split; simpl; [done..|intros a Ha; by apply Hg, W4]|]. split; [done|].
  intros a. unfold meta_given. simpl. by rewrite Hg.
Qed.

(** A piece of the chunk. *)
Lemma carve_chunk_spec bytes alignment w : meta_wf w → 0 < bytes → 0 ≤ alignment →
  bytes + alignment ≤ metadata_chunk_avail_ w → 0 < metadata_chunk_alloc_ w + alignment →
  let '(p, w') := carve_chunk bytes alignment w in
  meta_wf w' ∧ sys w' = sys w ∧ (∀ a, meta_given w a → meta_given w' a) ∧ 0 < p ∧
  ∀ a, p ≤ a < p + bytes → ¬ meta_given w a ∧ meta_given w' a.
Proof.
  intros [W1 W2 W3 W5 W4] Hb Ha Hav Hp. pose proof sa_bits_pow.
  unfold carve_chunk, meta_given, in_chunk in *. simpl.
  assert (Prelude.size_t (metadata_chunk_avail_ w - (bytes + alignment)) =
    metadata_chunk_avail_ w - (bytes + alignment)) as ->.
  { unfold Prelude.size_t. apply Z.mod_small. lia. }
  split; [split; simpl; [done|lia|lia|lia|unfold in_chunk; simpl; intros a Hra; apply W4; lia]|].
  split; [done|]. split; [intros a [Hg Hc]; split; [done|lia]|]. split; [done|].
  intros a Hra. split; [intros [_ Hc]; lia|]. split; [apply W4; lia|lia].
Qed.

#[global] Program Instance metadata_MetaDataLaws : MetaDataLaws (metadata Y).
Next Obligation.
  intros w n Hwf Hn. pose proof Hwf as [W1 W2 W3 W5 W4]. unfold MetaDataAlloc, metadata_MetaData, common_MetaDataAlloc.
  assert (power_of_two kMetadataAllignment) as Hpow by (exists 6; split; [lia|done]).
  assert (64 ≤ kMetadataAllignment ≤ 2 ^ 32) as Hal by (change kMetadataAllignment with 64; lia).
  destruct (Z.leb_spec kMetadataAllocChunkSize n) as [Hbig|Hsmall].
  - destruct (sa_alloc w n kMetadataAllignment Hwf ltac:(lia) Hpow Hal)
      as (p & n' & w' & E & Hwf' & Hg & Hb).
    simpl in E. destruct (SystemAlloc n kMetadataAllignment (sys w)) as [[[p0 n0] y]| | |]; try done.
    simpl in E. injection E as <- <- <-. cbn [mbind outcome_bind].
    eexists p0, _. split; [done|]. destruct Hwf' as [V1 V2 V3 V5 V4].
    split; [by split|]. split.
    { split; [exact Hg|]. simpl. destruct Hb as [[_ Ht]|(_ & _ & Hn' & _ & Ht & _)]; simpl in Ht; lia. }
    destruct Hb as [[-> _]|(Hp & _ & Hn' & _ & _ & Hf)]; [by left|right].
    split; [done|]. intros a Ha. apply Hf. lia.
  - set (al := Z.land _ _).
    assert (0 ≤ al) as Hal0 by (apply Z.land_nonneg; right; change kMetadataAllignment with 64; lia).
    destruct (Z.ltb_spec (metadata_chunk_avail_ w) (n + al)) as [Hlt|Hge].
    + assert (0 < kMetadataAllocChunkSize < 2 ^ 64) as Hcs by (unfold kMetadataAllocChunkSize; lia).
      destruct (sa_alloc (sys w) _ kMetadataAllignment W1 Hcs Hpow Hal)
        as (p & n' & y & -> & Hwf' & Hg & Hb). cbn [mbind outcome_bind].
      destruct (Z.eqb_spec p 0) as [->|Hp].
      * eexists 0, _. split; [done|]. split; [split; simpl; [done..|intros a Ha; by apply Hg, W4]|].
        split; [|by left]. destruct Hb as [[_ Ht]|[? _]]; [|lia].
        split; [intros a [? ?]; split; [by apply Hg|done]|simpl; lia].
      * destruct Hb as [[? _]|(Hp0 & _ & Hn' & Hpn & Ht & Hf)]; [done|].
        set (w1 := mkMeta _ p n' y).
        assert (meta_wf w1) as Hwf1.
        { split; simpl; [done|lia|lia|lia|]. unfold in_chunk. simpl. intros a Ha. by apply Hf. }
        pose proof (carve_chunk_spec n 0 w1 Hwf1 ltac:(lia) ltac:(lia)) as Hc.
        destruct (carve_chunk n 0 w1) as [q w2] eqn:Ecc. destruct Hc as (Hwf2 & Hs & Hg2 & Hq & Hf2);
          [simpl; lia|simpl; lia|].
        assert (q = p) as -> by (injection Ecc as <- _; simpl; lia).
        eexists p, w2. split; [done|]. split; [done|].
        assert (∀ a, meta_given w a → ¬ (p ≤ a < p + n')) as Hold.
        { intros a [Hga _] Hra. by destruct (Hf a Hra). }
        split; [split|].
        -- intros a Hga. apply Hg2. split; [apply Hg, Hga|]. unfold in_chunk. simpl. by apply Hold.
        -- simpl. rewrite Hs. simpl. lia.
        -- right. split; [done|]. intros a Hra. split; [intros Hga; apply (Hold a Hga); lia|by apply Hf2].
    + destruct (Z.eq_dec (metadata_chunk_alloc_ w + al) 0) as [Hz|Hnz].
      { exfalso. lia. }
      pose proof (carve_chunk_spec n al w Hwf ltac:(lia) Hal0 Hge ltac:(lia)) as Hc.
      destruct (carve_chunk n al w) as [q w2]. destruct Hc as (Hwf2 & Hs & Hg2 & Hq & Hf2).
      eexists q, w2. split; [done|]. split; [done|].
      split; [split; [done|simpl; rewrite Hs; lia]|]. by right.
Qed.
End metadata_laws.

(** ** The interface of [PageHeapAllocator] *)
Class ObjAllocator (S W : Type) := {
  obj_new : S → W → outcome (Z * S * W);
  obj_delete : S → Z → outcome S;
}.
(** [oa_rep s w live]: the objects [live] are allocated. *)
Class ObjAllocatorLaws (S W : Type) `{SysAllocLaws W, ObjAllocator S W} := {
  oa_rep : S → W → gset Z → Prop;
  oa_new s w live : sa_wf w → oa_rep s w live → Z.of_nat (size live) < INT_MAX →
    obj_new s w = Throws OutOfMemory ∨
    ∃ p s' w', obj_new s w = Ok (p, s', w') ∧ sa_wf w' ∧ sys_le w w' ∧
      0 < p ∧ p ∉ live ∧ oa_rep s' w' ({[p]} ∪ live);
  oa_delete s w live p : oa_rep s w live → p ∈ live →
    ∃ s', obj_delete s p = Ok s' ∧ oa_rep s' w (live ∖ {[p]});
  oa_mono s w w' live : oa_rep s w live → sys_le w w' → oa_rep s w' live;
}.

(** ** [PageHeapAllocator<T>] *)
Definition kAllocIncrement : Z := Z.shiftl 128 10.

Record PageHeapAllocator := mkPHA {
  free_area_ : Z;
  free_avail_ : Z;
  free_list_ : Z;
  inuse_ : Z;
  obj_words : words;        (** the first words of the deleted objects *)
}.

Section page_heap_allocator.
Context {W : Type} `{MetaDataLaws W}.
Variable sizeof_T : Z.
Implicit Types s : PageHeapAllocator.

Definition PHA_carve s (w : W) : outcome (Z * PageHeapAllocator * W) :=
  let result := free_area_ s in
  inuse ← i32 (inuse_ s + 1);
  mret (result, mkPHA (free_area_ s + sizeof_T) (Prelude.size_t (free_avail_ s - sizeof_T))
                  (free_list_ s) inuse (obj_words s), w).
Definition PHA_New s (w : W) : outcome (Z * PageHeapAllocator * W) :=
  if negb (free_list_ s =? 0) then
    let result := free_list_ s in
    next ← SLL_Next (obj_words s) result;
    inuse ← i32 (inuse_ s + 1);
    mret (result, mkPHA (free_area_ s) (free_avail_ s) next inuse (obj_words s), w)
  else if free_avail_ s <? sizeof_T then
    '(area, w) ← MetaDataAlloc kAllocIncrement w;
    if area =? 0 then Throws OutOfMemory
    else PHA_carve (mkPHA area kAllocIncrement (free_list_ s) (inuse_ s) (obj_words s)) w
  else PHA_carve s w.
Definition PHA_Delete s (p : Z) : outcome PageHeapAllocator :=
  inuse ← i32 (inuse_ s - 1);
  mret (mkPHA (free_area_ s) (free_avail_ s) p inuse (<[p := free_list_ s]> (obj_words s))).
Definition PHA_Init (w : W) : outcome (PageHeapAllocator * W) :=
  _ ← check (sizeof_T <=? kAllocIncrement);
  '(p, s, w) ← PHA_New (mkPHA 0 0 0 0 ∅) w;
  s ← PHA_Delete s p;
  mret (s, w).

#[global] Instance PHA_ops : ObjAllocator PageHeapAllocator W := {|
  obj_new := PHA_New;
  obj_delete := PHA_Delete;
|}.

Hypothesis Hsize : 8 ≤ sizeof_T ≤ kAllocIncrement.

(** The objects carved so far, live or on the free list, do not overlap each
    other or the rest of the area; all their bytes come from [MetaDataAlloc]. *)
Record pha_objects s (w : W) (objs : gset Z) : Prop := {
  po_given p : p ∈ objs → 0 < p ∧ ∀ a, p ≤ a < p + sizeof_T → sa_given w a;
  po_disjoint p q : p ∈ objs → q ∈ objs → p ≠ q → p + sizeof_T ≤ q ∨ q + sizeof_T ≤ p;
  po_avail : 0 ≤ free_avail_ s < 2 ^ 62;
  po_area : 0 < free_avail_ s → 0 < free_area_ s;
  po_area_given a : free_area_ s ≤ a < free_area_ s + free_avail_ s → sa_given w a;
  po_apart p : p ∈ objs → p + sizeof_T ≤ free_area_ s ∨ free_area_ s + free_avail_ s ≤ p;
}.
Record pha_list s (live : gset Z) (l : list Z) : Prop := {
  pl_sll : sll (obj_words s) (free_list_ s) l;
  pl_apart p : p ∈ l → p ∉ live;
  pl_inuse : inuse_ s = Z.of_nat (size live);
  pl_bound : inuse_ s ≤ INT_MAX;
}.
Definition pha_rep s w live : Prop :=
  ∃ l, pha_list s live l ∧ pha_objects s w (live ∪ list_to_set l).

Lemma pha_objects_sub s w objs objs' :
  objs' ⊆ objs → pha_objects s w objs → pha_objects s w objs'.
Proof. intros Hs [P1 P2 P3 P4 P5 P6]. split; auto. Qed.
Lemma pha_objects_mono s w w' objs : sys_le w w' → pha_objects s w objs → pha_objects s w' objs.
Proof.
  intros [Hg _] [P1 P2 P3 P4 P5 P6]. split; [|done..|auto|done].
  intros p Hp. destruct (P1 p Hp). auto.
Qed.
(** A new area does not overlap what there is. *)
Lemma pha_objects_area s w w' objs area :
  pha_objects s w objs → sys_le w w' → 0 < area →
  (∀ a, area ≤ a < area + kAllocIncrement → ¬ sa_given w a ∧ sa_given w' a) →
  pha_objects (mkPHA area kAllocIncrement (free_list_ s) (inuse_ s) (obj_words s)) w' objs.
Proof.
  intros [P1 P2 P3 P4 P5 P6] [Hg _] Hpos Hf.
  change kAllocIncrement with 131072 in *. split; simpl.
  - intros p Hp. destruct (P1 p Hp). auto.
  - done.
  - lia.
  - done.
  - intros a Ha. by apply Hf.
  - intros p Hp. destruct (P1 p Hp) as [_ Hpg].
    destruct (Z.le_gt_cases (p + sizeof_T) area); [by left|right].
    destruct (Z.le_gt_cases (area + 131072) p); [done|]. exfalso.
    destruct (Hf (Z.max p area)) as [Hn _]; [lia|].
    apply Hn, Hpg. lia.
Qed.
Lemma PHA_carve_spec s w live l :
  pha_list s live l → free_list_ s = 0 → pha_objects s w live → sizeof_T ≤ free_avail_ s →
  Z.of_nat (size live) < INT_MAX →
  ∃ s', PHA_carve s w = Ok (free_area_ s, s', w) ∧ 0 < free_area_ s ∧ free_area_ s ∉ live ∧
    pha_rep s' w ({[free_area_ s]} ∪ live).
Proof.
  intros [L1 L2 L3 L4] Hl [P1 P2 P3 P4 P5 P6] Hav Hsz. unfold PHA_carve.
  rewrite i32_ok by (unfold INT_MIN; lia). cbn [mbind outcome_bind]. eexists. split; [done|].
  assert (Prelude.size_t (free_avail_ s - sizeof_T) = free_avail_ s - sizeof_T) as ->.
  { unfold Prelude.size_t. apply Z.mod_small. lia. }
  assert (free_area_ s ∉ live) as Hnew by (intros Hp; destruct (P6 _ Hp); lia).
  split; [apply P4; lia|]. split; [done|]. exists []. split.
  - split; simpl.
    + rewrite Hl. split; [done|constructor].
    + set_solver.
    + rewrite size_union, size_singleton by set_solver. lia.
    + lia.
  - rewrite list_to_set_nil, union_empty_r_L. split; simpl.
    + intros p [->%elem_of_singleton|Hp]%elem_of_union; [|auto].
      split; [apply P4; lia|]. intros a Ha. apply P5. lia.
    + intros p q [->%elem_of_singleton|Hp]%elem_of_union [->%elem_of_singleton|Hq]%elem_of_union Hne;
        [done|..|auto]; [destruct (P6 _ Hq)|destruct (P6 _ Hp)]; lia.
    + lia.
    + intros _. specialize (P4 ltac:(lia)). lia.
    + intros a Ha. apply P5. lia.
    + intros p [->%elem_of_singleton|Hp]%elem_of_union; [lia|]. destruct (P6 _ Hp); lia.
Qed.

Lemma PHA_New_spec s w live : sa_wf w → pha_rep s w live → Z.of_nat (size live) < INT_MAX →
  PHA_New s w = Throws OutOfMemory ∨
  ∃ p s' w', PHA_New s w = Ok (p, s', w') ∧ sa_wf w' ∧ sys_le w w' ∧
    0 < p ∧ p ∉ live ∧ pha_rep s' w' ({[p]} ∪ live).
Proof.
  intros Hwf (l & Hl & Ho) Hsz. unfold PHA_New. pose proof Hl as [L1 L2 L3 L4].
  destruct (Z.eqb_spec (free_list_ s) 0) as [Ez|Enz]; cbn [negb].
  - assert (l = []) as -> by (destruct l as [|x l]; [done|]; by destruct L1 as [(? & ? & _) _]; congruence).
    rewrite list_to_set_nil, union_empty_r_L in Ho.
    destruct (Z.ltb_spec (free_avail_ s) sizeof_T) as [Hlt|Hge].
    + destruct (md_alloc w kAllocIncrement Hwf) as (area & w' & -> & Hwf' & Hle & Hb);
        [by change kAllocIncrement with 131072|]. cbn [mbind outcome_bind].
      destruct (Z.eqb_spec area 0) as [->|Hne]; [by left|right]. destruct Hb as [|[Hpos Hf]]; [done|].
      pose proof (pha_objects_area _ _ _ _ _ Ho Hle Hpos Hf) as Ho'.
      set (s1 := mkPHA area _ _ _ _) in *. assert (pha_list s1 live []) as Hl1 by (by split).
      destruct (PHA_carve_spec s1 w' live [] Hl1 Ez Ho') as (s' & E & ? & ? & ?);
        [simpl; lia|done|]. exists area, s', w'. auto 10.
    + right. destruct (PHA_carve_spec s w live [] Hl Ez Ho Hge Hsz) as (s' & E & ? & ? & ?).
      exists (free_area_ s), s', w. split; [done|]. split; [done|]. split; [reflexivity|]. auto 10.
  - right. destruct l as [|x l]; [by destruct L1|]. destruct L1 as [(Ex & Hx & n & Hn & Hs) Hnd].
    unfold SLL_Next. rewrite Ex, Hn. cbn [mbind outcome_bind].
    rewrite i32_ok by (unfold INT_MIN; lia). cbn [mbind outcome_bind].
    eexists x, _, w. split; [done|]. split; [done|]. split; [reflexivity|].
    assert (x ∉ live) as Hxl by (apply L2; left).
    apply NoDup_cons in Hnd as [Hxn Hnd]. destruct (po_given _ _ _ Ho x) as [Hpos _]; [set_solver|].
    split; [done|]. split; [done|]. exists l. split.
    + split; simpl; [done| |rewrite size_union, size_singleton by set_solver; lia|lia].
      intros p Hp. specialize (L2 p ltac:(by right)). set_solver.
    + apply (pha_objects_sub s w _ ({[x]} ∪ live ∪ list_to_set l)) in Ho; [|set_solver].
      destruct Ho. by split.
Qed.
Lemma PHA_Delete_spec s w live p : pha_rep s w live → p ∈ live →
  ∃ s', PHA_Delete s p = Ok s' ∧ pha_rep s' w (live ∖ {[p]}).
Proof.
  intros (l & [L1 L2 L3 L4] & Ho) Hp. unfold PHA_Delete.
  assert (size live = S (size (live ∖ {[p]}))) as Esz.
  { rewrite (union_difference_singleton_L p live Hp) at 1.
    rewrite size_union, size_singleton by set_solver. done. }
  rewrite i32_ok by (unfold INT_MIN; lia). cbn [mbind outcome_bind].
  eexists. split; [done|]. exists (p :: l). destruct L1 as [Hs Hnd].
  assert (p ∉ l) as Hpl by (intros Hpl; by apply (L2 p)).
  destruct (po_given _ _ _ Ho p) as [Hpos _]; [set_solver|]. split.
  - split; simpl; [| |lia|lia].
    + split; [|by constructor]. split; [done|]. split; [lia|]. exists (free_list_ s).
      rewrite lookup_insert_eq. split; [done|]. eapply sll_seg_frame; [|done].
      intros y Hy. apply lookup_insert_ne. set_solver.
    + intros q [->|Hq]%elem_of_cons; [set_solver|]. specialize (L2 q Hq). set_solver.
  - apply (pha_objects_sub _ _ _ (live ∖ {[p]} ∪ list_to_set (p :: l))) in Ho.
    + destruct Ho. by split.
    + intros q [Hq|Hq%elem_of_list_to_set]%elem_of_union; [set_solver|].
      apply elem_of_cons in Hq as [->|Hq]; set_solver.
Qed.

#[global] Program Instance PHA_laws : ObjAllocatorLaws PageHeapAllocator W := {|
  oa_rep := pha_rep;
|}.
Next Obligation. intros. by apply PHA_New_spec. Qed.
Next Obligation. intros. by apply PHA_Delete_spec. Qed.
Next Obligation.
  intros s w w' live (l & Hl & Ho) Hle. exists l. split; [done|]. by eapply pha_objects_mono.
Qed.

Lemma pha_rep_empty w : pha_rep (mkPHA 0 0 0 0 ∅) w ∅.
Proof.
  exists []. split.
  - split; simpl; [split; [done|by apply NoDup_nil_2]|set_solver|done..].
  - split; simpl; [set_solver|set_solver|lia|lia|lia|set_solver].
Qed.
Lemma PHA_Init_spec w : sa_wf w →
  PHA_Init w = Throws OutOfMemory ∨
  ∃ s w', PHA_Init w = Ok (s, w') ∧ sa_wf w' ∧ sys_le w w' ∧ pha_rep s w' ∅.
Proof.
  intros Hwf. unfold PHA_Init. rewrite (proj2 (Z.leb_le _ _)) by lia. cbn [mbind outcome_bind check].
  pose proof (pha_rep_empty w) as Hrep.
  destruct (PHA_New_spec _ w ∅ Hwf Hrep) as [E|(p & s & w' & E & Hwf' & Hle & Hp & _ & Hrep')];
    [done|rewrite E; by left|rewrite E; right].
  cbn [mbind outcome_bind].
  destruct (PHA_Delete_spec s w' _ p Hrep') as (s' & E' & Hrep''); [set_solver|].
  rewrite E'. exists s', w'. split; [done|]. split; [done|]. split; [done|].
  replace (∅ : gset Z) with (({[p]} ∪ ∅) ∖ {[p]} : gset Z) by set_solver. done.
Qed.

(** *** A client, which deletes any of the objects it has *)
Inductive obj_op := CNew | CDelete (k : nat).
Fixpoint obj_client (os : list obj_op) s (w : W) (objs : list Z)
  : outcome (PageHeapAllocator * W * list Z) :=
  match os with
  | [] => mret (s, w, objs)
  | CNew :: os => '(p, s, w) ← PHA_New s w; obj_client os s w (p :: objs)
  | CDelete k :: os =>
      match objs !! k with
      | Some p => s ← PHA_Delete s p; obj_client os s w (delete k objs)
      | None => obj_client os s w objs
      end
  end.
Lemma obj_client_spec os : ∀ s w objs,
  sa_wf w → pha_rep s w (list_to_set objs) → NoDup objs → zlen objs + zlen os < INT_MAX →
  obj_client os s w objs = Throws OutOfMemory ∨
  ∃ s' w' objs', obj_client os s w objs = Ok (s', w', objs') ∧ NoDup objs' ∧
    pha_rep s' w' (list_to_set objs').
Proof.
  induction os as [|[|k] os IH]; intros s w objs Hwf Hrep Hnd Hlen; cbn [obj_client].
  { right. by exists s, w, objs. }
  - rewrite zlen_cons in Hlen. pose proof (zlen_nonneg os).
    destruct (PHA_New_spec s w _ Hwf Hrep) as [E|(p & s1 & w1 & E & Hwf1 & _ & _ & Hp & Hrep1)];
      [rewrite size_list_to_set by done; unfold zlen in *; lia| |]; rewrite E;
      [by left|cbn [mbind outcome_bind]].
    apply IH; [done..| |rewrite zlen_cons; lia]. constructor; [set_solver|done].
  - rewrite zlen_cons in Hlen. destruct (objs !! k) as [p|] eqn:Ek; [|apply IH; [done..|lia]].
    apply list_elem_of_split_length in Ek as (l1 & l2 & -> & ->).
    destruct (PHA_Delete_spec s w _ p Hrep) as (s1 & E & Hrep1); [set_solver|].
    rewrite E. cbn [mbind outcome_bind]. rewrite delete_middle.
    rewrite <- Permutation_middle in Hnd. apply NoDup_cons in Hnd as [Hp Hnd].
    apply IH; [done| |done|rewrite zlen_app in *; rewrite zlen_cons in Hlen; lia].
    replace (list_to_set (l1 ++ l2) : gset Z) with (list_to_set (l1 ++ p :: l2) ∖ {[p]} : gset Z);
      [done|set_solver].
Qed.

(** C27. Objects never overlap.  A client that allocates objects and deletes any
    of those it has, in any order, either ends because [MetaDataAlloc] has no more
    memory, or every assertion holds and the objects it has are distinct, each at
    least [sizeof(T)] bytes from every other, within the memory that
    [MetaDataAlloc] gave, and counted by [inuse]: carving, recycling through the
    list of deleted objects and taking new areas never give the same bytes twice. *)
Theorem page_heap_allocator_objects_apart w os :
  sa_wf w → zlen os < INT_MAX →
  ('(s, w) ← PHA_Init w; obj_client os s w []) = Throws OutOfMemory ∨
  ∃ s' w' objs, ('(s, w) ← PHA_Init w; obj_client os s w []) = Ok (s', w', objs) ∧
    NoDup objs ∧ inuse_ s' = zlen objs ∧
    (∀ p q, p ∈ objs → q ∈ objs → p ≠ q → p + sizeof_T ≤ q ∨ q + sizeof_T ≤ p) ∧
    ∀ p, p ∈ objs → 0 < p ∧ ∀ a, p ≤ a < p + sizeof_T → sa_given w' a.
Proof.
  intros Hwf Hlen.
  destruct (PHA_Init_spec w Hwf) as [->|(s & w1 & -> & Hwf1 & _ & Hrep)]; [by left|].
  cbn [mbind outcome_bind].
  destruct (obj_client_spec os s w1 [] Hwf1 Hrep) as [->|(s' & w' & objs & -> & Hnd & l & Hl & Ho)];
    [constructor|rewrite zlen_nil; lia|by left|right].
  exists s', w', objs. split; [done|]. split; [done|]. split.
  { rewrite (pl_inuse _ _ _ Hl), size_list_to_set by done. done. }
  destruct Ho as [P1 P2 _ _ _ _]. split; [intros p q Hp Hq; apply P2; set_solver|].
  intros p Hp. apply P1. set_solver.
Qed.
End page_heap_allocator.

(** ** The nodes of the page map come from [MetaDataAlloc] *)
Section metadata_nodes.
Context {W : Type} `{MetaDataLaws W}.
#[global] Instance metadata_Allocator : Allocator W :=
  λ n w, '(p, w) ← MetaDataAlloc n w; mret (negb (p =? 0), w).
#[global] Program Instance metadata_AllocatorLaws : AllocatorLaws W := {|
  al_wf := sa_wf;
  al_le := sys_le;
|}.
Next Obligation.
  intros n w Hw Hn. destruct (md_alloc w n Hw Hn) as (p & w' & E & ? & ? & _).
  exists (negb (p =? 0)), w'. unfold alloc, metadata_Allocator. by rewrite E.
Qed.
End metadata_nodes.
