(* ===== verification/PageHeap.v ===== *)
(** * The page heap: [libs/tcmalloc/src/page_heap.{h,cc}], [span.{h,cc}]

    Runs of pages ("spans") are allocated, split, freed, coalesced and returned to
    the system.  The page map, the lists of spans, the allocator of span objects
    and the system are the interfaces of [PageMap], [SpanList], [MetaData] and
    [SystemAlloc]; this file has the operations, which execute their [ASSERT]s
    (the build does not define [NDEBUG]). *)
From S2P Require Import Prelude Doubles SizeMap SpanList PageMap SystemAlloc MetaData.
From stdpp Require Import base numbers list option gmap.
From Stdlib Require Import ZArith Lia Floats.SpecFloat.
Open Scope Z_scope.

(** ** Constants *)
Definition kMaxPages : Z := Z.shiftl 1 (20 - kPageShift).
Definition kMaxValidPages : Z := Z.shiftr (2 ^ 64 - 1) kPageShift.
Definition kPageMapBigAllocationThreshold : Z := Z.shiftl 128 20.
Definition kMinSystemAlloc : Z := kMaxPages.
Definition kMaxReleaseDelay : Z := Z.shiftl 1 20.
Definition kDefaultReleaseDelay : Z := Z.shiftl 1 18.
Definition kForcedCoalesceInterval : Z := 128 * 1024 * 1024.

(** A number of pages in bytes; sums of 64-bit counters. *)
Definition page_bytes (n : Z) : Z := Prelude.size_t (Z.shiftl n kPageShift).
Definition uadd (a b : Z) : Z := Prelude.size_t (a + b).
Definition usub (a b : Z) : Z := Prelude.size_t (a - b).
Definition to_int64 (z : Z) : Z :=
  let r := z mod 2 ^ 64 in if r <? 2 ^ 63 then r else r - 2 ^ 64.
Definition i64 (z : Z) : outcome Z :=
  if (- 2 ^ 63 <=? z) && (z <? 2 ^ 63) then Ok z else Undefined SignedOverflow.
Definition int64_of_double (d : spec_float) : outcome Z :=
  match d with
  | S754_zero _ => Ok 0
  | S754_finite s m e =>
      let a := if 0 <=? e then Zpos m * 2 ^ e else Zpos m / 2 ^ (- e) in
      i64 (if s then - a else a)
  | S754_infinity _ | S754_nan => Undefined FloatToInt
  end.

(** ** Spans *)
Inductive Location := IN_USE | ON_NORMAL_FREELIST | ON_RETURNED_FREELIST.
#[global] Instance Location_eq_dec : EqDecision Location.
Proof. solve_decision. Defined.

(** An element of a set of large spans: the span and its length. *)
Definition SpanPtrWithLength : Type := Z * Z.
(** A span, but for its fields [next] and [prev], which are in the store of the
    lists; [span_iter] is the iterator, when [has_span_iter] is set. *)
Record Span := mkSpan {
  start : Z;
  length : Z;
  refcount : Z;
  sizeclass : Z;
  location : Location;
  sample : bool;
  span_iter : option SpanPtrWithLength;
}.
Definition zero_span (p len : Z) : Span := mkSpan p len 0 0 IN_USE false None.
Definition set_start (s : Span) (v : Z) : Span :=
  mkSpan v (length s) (refcount s) (sizeclass s) (location s) (sample s) (span_iter s).
Definition set_length (s : Span) (v : Z) : Span :=
  mkSpan (start s) v (refcount s) (sizeclass s) (location s) (sample s) (span_iter s).
Definition set_sizeclass (s : Span) (v : Z) : Span :=
  mkSpan (start s) (length s) (refcount s) v (location s) (sample s) (span_iter s).
Definition set_location (s : Span) (v : Location) : Span :=
  mkSpan (start s) (length s) (refcount s) (sizeclass s) v (sample s) (span_iter s).
Definition set_sample (s : Span) (v : bool) : Span :=
  mkSpan (start s) (length s) (refcount s) (sizeclass s) (location s) v (span_iter s).
Definition set_iter (s : Span) (v : option SpanPtrWithLength) : Span :=
  mkSpan (start s) (length s) (refcount s) (sizeclass s) (location s) (sample s) v.

(** ** Statistics *)
Record Stats := mkStats {
  system_bytes : Z;
  free_bytes : Z;
  unmapped_bytes : Z;
  committed_bytes : Z;
  scavenge_count : Z;
  commit_count : Z;
  total_commit_bytes : Z;
  decommit_count : Z;
  total_decommit_bytes : Z;
  reserve_count : Z;
  total_reserve_bytes : Z;
}.
Definition Stats_new : Stats := mkStats 0 0 0 0 0 0 0 0 0 0 0.
Definition add_free (t : Stats) (b : Z) : Stats :=
  mkStats (system_bytes t) (uadd (free_bytes t) b) (unmapped_bytes t) (committed_bytes t)
    (scavenge_count t) (commit_count t) (total_commit_bytes t) (decommit_count t)
    (total_decommit_bytes t) (reserve_count t) (total_reserve_bytes t).
Definition add_unmapped (t : Stats) (b : Z) : Stats :=
  mkStats (system_bytes t) (free_bytes t) (uadd (unmapped_bytes t) b) (committed_bytes t)
    (scavenge_count t) (commit_count t) (total_commit_bytes t) (decommit_count t)
    (total_decommit_bytes t) (reserve_count t) (total_reserve_bytes t).
Definition count_commit (t : Stats) : Stats :=
  mkStats (system_bytes t) (free_bytes t) (unmapped_bytes t) (committed_bytes t)
    (scavenge_count t) (uadd (commit_count t) 1) (total_commit_bytes t) (decommit_count t)
    (total_decommit_bytes t) (reserve_count t) (total_reserve_bytes t).
Definition add_commit (t : Stats) (b : Z) : Stats :=
  mkStats (system_bytes t) (free_bytes t) (unmapped_bytes t) (uadd (committed_bytes t) b)
    (scavenge_count t) (commit_count t) (uadd (total_commit_bytes t) b) (decommit_count t)
    (total_decommit_bytes t) (reserve_count t) (total_reserve_bytes t).
Definition count_decommit (t : Stats) : Stats :=
  mkStats (system_bytes t) (free_bytes t) (unmapped_bytes t) (committed_bytes t)
    (scavenge_count t) (commit_count t) (total_commit_bytes t) (uadd (decommit_count t) 1)
    (total_decommit_bytes t) (reserve_count t) (total_reserve_bytes t).
Definition add_decommit (t : Stats) (b : Z) : Stats :=
  mkStats (system_bytes t) (free_bytes t) (unmapped_bytes t) (usub (committed_bytes t) b)
    (scavenge_count t) (commit_count t) (total_commit_bytes t) (decommit_count t)
    (uadd (total_decommit_bytes t) b) (reserve_count t) (total_reserve_bytes t).
Definition count_scavenge (t : Stats) : Stats :=
  mkStats (system_bytes t) (free_bytes t) (unmapped_bytes t) (committed_bytes t)
    (uadd (scavenge_count t) 1) (commit_count t) (total_commit_bytes t) (decommit_count t)
    (total_decommit_bytes t) (reserve_count t) (total_reserve_bytes t).
Definition add_reserve (t : Stats) (b : Z) : Stats :=
  mkStats (uadd (system_bytes t) b) (free_bytes t) (unmapped_bytes t) (uadd (committed_bytes t) b)
    (scavenge_count t) (uadd (commit_count t) 1) (uadd (total_commit_bytes t) b) (decommit_count t)
    (total_decommit_bytes t) (uadd (reserve_count t) 1) (uadd (total_reserve_bytes t) b).

(** ** The state

    The page heap, the spans and the links of their lists, the allocators of
    spans ([Static::span_allocator]) and of the stack traces of heap growth, the
    sizes of those, and the system. *)
Record PageHeap (P SA TA W : Type) := mkHeap {
  pagemap_ : P;
  large_normal_ : list SpanPtrWithLength;
  large_returned_ : list SpanPtrWithLength;
  stats_ : Stats;
  scavenge_counter_ : Z;
  release_index_ : Z;
  aggressive_decommit_ : bool;
  spans : gmap Z Span;
  span_links : links;
  span_allocator : SA;
  stacktrace_allocator : TA;
  growth_stacks : list Z;
  world : W;
}.
Arguments mkHeap {P SA TA W}.
Arguments pagemap_ {P SA TA W} _.
Arguments large_normal_ {P SA TA W} _.
Arguments large_returned_ {P SA TA W} _.
Arguments stats_ {P SA TA W} _.
Arguments scavenge_counter_ {P SA TA W} _.
Arguments release_index_ {P SA TA W} _.
Arguments aggressive_decommit_ {P SA TA W} _.
Arguments spans {P SA TA W} _.
Arguments span_links {P SA TA W} _.
Arguments span_allocator {P SA TA W} _.
Arguments stacktrace_allocator {P SA TA W} _.
Arguments growth_stacks {P SA TA W} _.
Arguments world {P SA TA W} _.

(** The heads of the lists [free_[i]] are fields of the page heap, not objects
    of an allocator: their addresses are negative. *)
Definition free_normal (i : Z) : Z := - (1 + 2 * i).
Definition free_returned (i : Z) : Z := - (2 + 2 * i).

(** The flags of the file: the release rate and the limit on the heap. *)
Record heap_flags := mkHeapFlags {
  tcmalloc_release_rate : spec_float;
  tcmalloc_heap_limit_mb : Z;
}.

Section updates.
Context {P SA TA W : Type}.
Abbreviation Heap := (PageHeap P SA TA W).
Implicit Types h : Heap.

Definition with_pagemap h (v : P) : Heap :=
  mkHeap v (large_normal_ h) (large_returned_ h) (stats_ h) (scavenge_counter_ h)
    (release_index_ h) (aggressive_decommit_ h) (spans h) (span_links h) (span_allocator h)
    (stacktrace_allocator h) (growth_stacks h) (world h).
Definition with_large_normal h (v : list SpanPtrWithLength) : Heap :=
  mkHeap (pagemap_ h) v (large_returned_ h) (stats_ h) (scavenge_counter_ h) (release_index_ h)
    (aggressive_decommit_ h) (spans h) (span_links h) (span_allocator h) 
    (stacktrace_allocator h) (growth_stacks h) (world h).
Definition with_large_returned h (v : list SpanPtrWithLength) : Heap :=
  mkHeap (pagemap_ h) (large_normal_ h) v (stats_ h) (scavenge_counter_ h) (release_index_ h)
    (aggressive_decommit_ h) (spans h) (span_links h) (span_allocator h) 
    (stacktrace_allocator h) (growth_stacks h) (world h).
Definition with_stats h (v : Stats) : Heap :=
  mkHeap (pagemap_ h) (large_normal_ h) (large_returned_ h) v (scavenge_counter_ h)
    (release_index_ h) (aggressive_decommit_ h) (spans h) (span_links h) (span_allocator h)
    (stacktrace_allocator h) (growth_stacks h) (world h).
Definition with_scavenge_counter h (v : Z) : Heap :=
  mkHeap (pagemap_ h) (large_normal_ h) (large_returned_ h) (stats_ h) v (release_index_ h)
    (aggressive_decommit_ h) (spans h) (span_links h) (span_allocator h) 
    (stacktrace_allocator h) (growth_stacks h) (world h).
Definition with_release_index h (v : Z) : Heap :=
  mkHeap (pagemap_ h) (large_normal_ h) (large_returned_ h) (stats_ h) (scavenge_counter_ h) v
    (aggressive_decommit_ h) (spans h) (span_links h) (span_allocator h) 
    (stacktrace_allocator h) (growth_stacks h) (world h).
Definition SetAggressiveDecommit h (v : bool) : Heap :=
  mkHeap (pagemap_ h) (large_normal_ h) (large_returned_ h) (stats_ h) (scavenge_counter_ h)
    (release_index_ h) v (spans h) (span_links h) (span_allocator h) (stacktrace_allocator h)
    (growth_stacks h) (world h).
Definition with_spans h (v : gmap Z Span) : Heap :=
  mkHeap (pagemap_ h) (large_normal_ h) (large_returned_ h) (stats_ h) (scavenge_counter_ h)
    (release_index_ h) (aggressive_decommit_ h) v (span_links h) (span_allocator h)
    (stacktrace_allocator h) (growth_stacks h) (world h).
Definition with_links h (v : links) : Heap :=
  mkHeap (pagemap_ h) (large_normal_ h) (large_returned_ h) (stats_ h) (scavenge_counter_ h)
    (release_index_ h) (aggressive_decommit_ h) (spans h) v (span_allocator h)
    (stacktrace_allocator h) (growth_stacks h) (world h).
Definition with_span_allocator h (v : SA) : Heap :=
  mkHeap (pagemap_ h) (large_normal_ h) (large_returned_ h) (stats_ h) (scavenge_counter_ h)
    (release_index_ h) (aggressive_decommit_ h) (spans h) (span_links h) v 
    (stacktrace_allocator h) (growth_stacks h) (world h).
Definition with_stacktraces h (v : TA) : Heap :=
  mkHeap (pagemap_ h) (large_normal_ h) (large_returned_ h) (stats_ h) (scavenge_counter_ h)
    (release_index_ h) (aggressive_decommit_ h) (spans h) (span_links h) (span_allocator h) v
    (growth_stacks h) (world h).
Definition with_growth_stacks h (v : list Z) : Heap :=
  mkHeap (pagemap_ h) (large_normal_ h) (large_returned_ h) (stats_ h) (scavenge_counter_ h)
    (release_index_ h) (aggressive_decommit_ h) (spans h) (span_links h) (span_allocator h)
    (stacktrace_allocator h) v (world h).
Definition with_world h (v : W) : Heap :=
  mkHeap (pagemap_ h) (large_normal_ h) (large_returned_ h) (stats_ h) (scavenge_counter_ h)
    (release_index_ h) (aggressive_decommit_ h) (spans h) (span_links h) (span_allocator h)
    (stacktrace_allocator h) (growth_stacks h) v.
End updates.

(** ** The operations *)
Section page_heap.
Context {P SA TA W : Type} `{PageMap P W, ObjAllocator SA W, ObjAllocator TA W, SysAlloc W}.
Variable flags : heap_flags.
Abbreviation Heap := (PageHeap P SA TA W).
Abbreviation HM := (M Heap).
Implicit Types (h : Heap) (p span : Z).

(** *** Access to the state *)
Definition load p : HM Span := λ h,
  match spans h !! p with Some s => Ok (s, h) | None => Undefined NullDeref end.
Definition store p (f : Span → Span) : HM unit := λ h,
  match spans h !! p with
  | Some s => Ok (tt, with_spans h (<[p := f s]> (spans h)))
  | None => Undefined NullDeref
  end.
Definition on_stats (f : Stats → Stats) : HM unit := act (λ h, with_stats h (f (stats_ h))).
(** A question to the lists, and a change of them. *)
Definition ask_links {A} (f : links → outcome A) : HM A := λ h,
  lift (f (span_links h)) h.
Definition on_links (f : links → outcome links) : HM unit := λ h,
  l ← f (span_links h); Ok (tt, with_links h l).
Definition on_world {A} (f : W → outcome (A * W)) : HM A := λ h,
  '(a, w) ← f (world h); Ok (a, with_world h w).
Definition ASSERT (c : bool) : HM unit := lift (check c).

Definition GetDescriptor (p : Z) : HM Z := λ h, lift (pm_get (pagemap_ h) p) h.
Definition pagemap_set (k v : Z) : HM unit := λ h,
  m ← pm_set (pagemap_ h) k v; Ok (tt, with_pagemap h m).

(** *** [span.cc] *)
Definition NewSpan (p len : Z) : HM Z := λ h,
  '(result, a, w) ← obj_new (span_allocator h) (world h);
  let h := with_world (with_span_allocator h a) w in
  let h := with_spans h (<[result := zero_span p len]> (spans h)) in
  Ok (result, with_links h (<[result := (0, 0)]> (span_links h))).
Definition DeleteSpan span : HM unit := λ h,
  let h := with_spans h (delete span (spans h)) in
  let h := with_links h (delete span (span_links h)) in
  a ← obj_delete (span_allocator h) span; Ok (tt, with_span_allocator h a).

(** *** The sets of large spans: [std::set] with [SpanBestFitLess]

    The elements in their order; an element is compared by its length and then
    by the start of its span, which is looked up when the lengths are equal. *)
Definition SpanBestFitLess (la : Z) (sa : outcome Z) (lb : Z) (sb : outcome Z) : outcome bool :=
  if la <? lb then mret true
  else if lb <? la then mret false
  else sa ← sa; sb ← sb; mret (sa <? sb).
Definition span_start (m : gmap Z Span) (a : SpanPtrWithLength) : outcome Z :=
  match m !! a.1 with Some s => Ok (start s) | None => Undefined NullDeref end.
Definition span_less (m : gmap Z Span) (a b : SpanPtrWithLength) : outcome bool :=
  SpanBestFitLess a.2 (span_start m a) b.2 (span_start m b).
(** [insert]: the set, and whether the element is new. *)
Fixpoint set_insert (m : gmap Z Span) (x : SpanPtrWithLength) (l : list SpanPtrWithLength)
  : outcome (list SpanPtrWithLength * bool) :=
  match l with
  | [] => mret ([x], true)
  | y :: l' =>
      lt ← span_less m y x;
      if lt : bool then '(l', b) ← set_insert m x l'; mret (y :: l', b)
      else gt ← span_less m x y; mret (if gt : bool then x :: l else l, gt)
  end.
(** [find]: the element equivalent to [x]. *)
Fixpoint set_find (m : gmap Z Span) (x : SpanPtrWithLength) (l : list SpanPtrWithLength)
  : outcome (option SpanPtrWithLength) :=
  match l with
  | [] => mret None
  | y :: l =>
      lt ← span_less m y x;
      if lt : bool then set_find m x l
      else gt ← span_less m x y; mret (if gt : bool then None else Some y)
  end.
(** [upper_bound] of a span of length [n] that starts at [st]. *)
Fixpoint set_upper_bound (m : gmap Z Span) (n st : Z) (l : list SpanPtrWithLength)
  : outcome (option SpanPtrWithLength) :=
  match l with
  | [] => mret None
  | y :: l =>
      gt ← SpanBestFitLess n (Ok st) y.2 (span_start m y);
      if gt : bool then mret (Some y) else set_upper_bound m n st l
  end.
(** [erase] of an iterator, which is the element it is at. *)
Definition set_erase (x : SpanPtrWithLength) (l : list SpanPtrWithLength)
  : list SpanPtrWithLength := filter (λ y, y ≠ x) l.

Definition large_set (loc : Location) h : list SpanPtrWithLength :=
  if decide (loc = ON_RETURNED_FREELIST) then large_returned_ h else large_normal_ h.
Definition with_large_set (loc : Location) h (l : list SpanPtrWithLength) : Heap :=
  if decide (loc = ON_RETURNED_FREELIST) then with_large_returned h l else with_large_normal h l.
Definition SetSpanSetIterator span (it : SpanPtrWithLength) : HM unit :=
  s ← load span;
  _ ← ASSERT (match span_iter s with None => true | Some _ => false end);
  store span (λ s, set_iter s (Some it)).
Definition ExtractSpanSetIterator span : HM SpanPtrWithLength :=
  s ← load span;
  match span_iter s with
  | None => lift (Throws Aborted)
  | Some it => _ ← store span (λ s, set_iter s None); mret it
  end.

(** *** Free lists *)
(** [&free_[i].normal] or [&free_[i].returned]. *)
Definition list_head (loc : Location) (i : Z) : Z :=
  if decide (loc = ON_NORMAL_FREELIST) then free_normal i else free_returned i.

Definition PrependToFreeList span : HM unit :=
  s ← load span;
  _ ← ASSERT (negb (bool_decide (location s = IN_USE)));
  _ ← (if decide (location s = ON_NORMAL_FREELIST)
       then on_stats (λ t, add_free t (page_bytes (length s)))
       else on_stats (λ t, add_unmapped t (page_bytes (length s))));
  if kMaxPages <? length s then
    set ← gets (large_set (location s));
    m ← gets spans;
    '(set, inserted) ← lift (set_insert m (span, length s) set);
    _ ← act (λ h, with_large_set (location s) h set);
    _ ← ASSERT inserted;
    SetSpanSetIterator span (span, length s)
  else
    on_links (λ l, DLL_Prepend l (list_head (location s) (length s - 1)) span).

Definition RemoveFromFreeList span : HM unit :=
  s ← load span;
  _ ← ASSERT (negb (bool_decide (location s = IN_USE)));
  _ ← (if decide (location s = ON_NORMAL_FREELIST)
       then on_stats (λ t, add_free t (- page_bytes (length s)))
       else on_stats (λ t, add_unmapped t (- page_bytes (length s))));
  if kMaxPages <? length s then
    iter ← ExtractSpanSetIterator span;
    _ ← ASSERT (iter.1 =? span);
    set ← gets (large_set (location s));
    m ← gets spans;
    found ← lift (set_find m (span, length s) set);
    _ ← ASSERT (bool_decide (found = Some iter));
    act (λ h, with_large_set (location s) h (set_erase iter set))
  else on_links (λ l, DLL_Remove l span).

Definition RecordSpan span : HM unit :=
  s ← load span;
  _ ← pagemap_set (start s) span;
  if 1 <? length s then pagemap_set (usub (uadd (start s) (length s)) 1) span else mret tt.

(** *** Committing and releasing *)
Definition CommitSpan span : HM unit :=
  _ ← on_stats count_commit;
  s ← load span;
  _ ← act (λ h, with_world h (SystemCommit (page_bytes (start s)) (page_bytes (length s)) (world h)));
  on_stats (λ t, add_commit t (page_bytes (length s))).
Definition DecommitSpan span : HM bool :=
  _ ← on_stats count_decommit;
  s ← load span;
  rv ← on_world (SystemRelease (page_bytes (start s)) (page_bytes (length s)));
  _ ← (if rv : bool then on_stats (λ t, add_decommit t (page_bytes (length s))) else mret tt);
  mret rv.

(** *** Coalescing *)
Definition CheckAndHandlePreMerge span (other : Z) : HM Z :=
  if other =? 0 then mret other else
  aggressive ← gets aggressive_decommit_;
  o ← load other;
  s ← load span;
  goes_on ←
    (if aggressive && bool_decide (location o = ON_NORMAL_FREELIST)
        && bool_decide (location s = ON_RETURNED_FREELIST) then DecommitSpan other
     else mret (bool_decide (location o = location s)));
  if goes_on : bool then _ ← RemoveFromFreeList other; mret other else mret 0.

(** Merge the preceding span into this one, which starts at page [p]. *)
Definition merge_prev span (p : Z) : HM unit :=
  other ← GetDescriptor (usub p 1);
  prev ← CheckAndHandlePreMerge span other;
  if negb (prev =? 0) then
    t ← load prev;
    _ ← ASSERT (uadd (start t) (length t) =? p);
    let len := length t in
    _ ← DeleteSpan prev;
    _ ← store span (λ s, set_start s (usub (start s) len));
    _ ← store span (λ s, set_length s (uadd (length s) len));
    s ← load span;
    pagemap_set (start s) span
  else mret tt.
(** Merge the span that starts at page [pn] into this one. *)
Definition merge_next span (pn : Z) : HM unit :=
  other ← GetDescriptor pn;
  next ← CheckAndHandlePreMerge span other;
  if negb (next =? 0) then
    t ← load next;
    _ ← ASSERT (start t =? pn);
    let len := length t in
    _ ← DeleteSpan next;
    _ ← store span (λ s, set_length s (uadd (length s) len));
    s ← load span;
    pagemap_set (usub (uadd (start s) (length s)) 1) span
  else mret tt.
Definition MergeIntoFreeList span : HM unit :=
  s ← load span;
  _ ← ASSERT (negb (bool_decide (location s = IN_USE)));
  let p := start s in
  let n := length s in
  aggressive ← gets aggressive_decommit_;
  _ ← (if aggressive && bool_decide (location s = ON_NORMAL_FREELIST) then
         worked ← DecommitSpan span;
         if worked : bool then store span (λ s, set_location s ON_RETURNED_FREELIST) else mret tt
       else mret tt);
  _ ← merge_prev span p;
  _ ← merge_next span (uadd p n);
  PrependToFreeList span.

(** *** Returning memory to the system *)
Definition ReleaseSpan span : HM Z :=
  s ← load span;
  _ ← ASSERT (bool_decide (location s = ON_NORMAL_FREELIST));
  worked ← DecommitSpan span;
  if worked : bool then
    _ ← RemoveFromFreeList span;
    s ← load span;
    let n := length s in
    _ ← store span (λ s, set_location s ON_RETURNED_FREELIST);
    _ ← MergeIntoFreeList span;
    mret n
  else mret 0.

(** The span the round robin is at, if its list has one. *)
Definition release_candidate : HM (option Z) :=
  i ← gets release_index_;
  if i =? kMaxPages then
    l ← gets large_normal_;
    mret (match l with [] => None | x :: _ => Some x.1 end)
  else
    empty ← ask_links (λ l, DLL_IsEmpty l (free_normal i));
    if empty : bool then mret None
    else s ← ask_links (λ l, get_prev l (free_normal i)); mret (Some s).
Definition next_release_index : HM unit :=
  act (λ h, with_release_index h (release_index_ h + 1)).
(** A round over the lists: whether a release failed, and the pages released. *)
Fixpoint release_round (fuel : nat) (i released_pages num_pages : Z) : HM (bool * Z) :=
  match fuel with
  | O => lift NoFuel
  | S fuel =>
      if (i <? kMaxPages + 1) && (released_pages <? num_pages) then
        _ ← act (λ h, if kMaxPages <? release_index_ h then with_release_index h 0 else h);
        candidate ← release_candidate;
        match candidate with
        | None => _ ← next_release_index; release_round fuel (i + 1) released_pages num_pages
        | Some s =>
            released_len ← ReleaseSpan s;
            if released_len =? 0 then mret (true, released_pages)
            else
              _ ← next_release_index;
              release_round fuel (i + 1) (uadd released_pages released_len) num_pages
        end
      else mret (false, released_pages)
  end.
Fixpoint release_loop (fuel : nat) (released_pages num_pages : Z) : HM Z :=
  match fuel with
  | O => lift NoFuel
  | S fuel =>
      t ← gets stats_;
      if (released_pages <? num_pages) && (0 <? free_bytes t) then
        '(failed, released_pages) ← release_round 130 0 released_pages num_pages;
        if failed : bool then mret released_pages else release_loop fuel released_pages num_pages
      else mret released_pages
  end.
Definition ReleaseAtLeastNPages (fuel : nat) (num_pages : Z) : HM Z := release_loop fuel 0 num_pages.

(** [1e-6] and the wait after releasing some pages. *)
Definition tiny_rate : spec_float := S754_finite false 4722366482869645 (-72).
Definition scavenge_wait (rate : spec_float) (released_pages : Z) : spec_float :=
  let mult := double_div (double_of_int 1000) rate in
  let wait := double_mul mult (double_of_int released_pages) in
  if SFltb (double_of_int kMaxReleaseDelay) wait then double_of_int kMaxReleaseDelay else wait.
Definition set_scavenge_counter (v : Z) : HM unit := act (λ h, with_scavenge_counter h v).
Definition IncrementalScavenge (fuel : nat) (n : Z) : HM unit :=
  _ ← act (λ h, with_scavenge_counter h (to_int64 (scavenge_counter_ h - n)));
  c ← gets scavenge_counter_;
  if 0 <=? c then mret tt else
  let rate := tcmalloc_release_rate flags in
  if SFleb rate tiny_rate then set_scavenge_counter kDefaultReleaseDelay else
  _ ← on_stats count_scavenge;
  released_pages ← ReleaseAtLeastNPages fuel 1;
  if released_pages =? 0 then set_scavenge_counter kDefaultReleaseDelay
  else w ← lift (int64_of_double (scavenge_wait rate released_pages)); set_scavenge_counter w.

Definition Delete (fuel : nat) span : HM unit :=
  s ← load span;
  _ ← ASSERT (bool_decide (location s = IN_USE));
  _ ← ASSERT (0 <? length s);
  d ← GetDescriptor (start s);
  _ ← ASSERT (d =? span);
  d ← GetDescriptor (usub (uadd (start s) (length s)) 1);
  _ ← ASSERT (d =? span);
  let n := length s in
  _ ← store span (λ s, set_sizeclass s 0);
  _ ← store span (λ s, set_sample s false);
  _ ← store span (λ s, set_location s ON_NORMAL_FREELIST);
  _ ← MergeIntoFreeList span;
  _ ← IncrementalScavenge fuel n;
  t ← gets stats_;
  ASSERT (uadd (unmapped_bytes t) (committed_bytes t) =? system_bytes t).

Definition EnsureLimit (fuel : nat) (n : Z) (withRelease : bool) : HM bool :=
  limit ← lift (mb ← i64 (tcmalloc_heap_limit_mb flags * 1024); mb ← i64 (mb * 1024);
                mret (Prelude.size_t (Z.shiftr mb kPageShift)));
  if limit =? 0 then mret true else
  taken ← gets (λ h, SystemTaken (world h));
  let takenPages := Z.shiftr taken kPageShift in
  t ← gets stats_;
  let unmapped := Z.shiftr (unmapped_bytes t) kPageShift in
  _ ← ASSERT (unmapped <=? takenPages);
  let takenPages := usub takenPages unmapped in
  takenPages ←
    (if (limit <? uadd takenPages n) && withRelease then
       released ← ReleaseAtLeastNPages fuel (usub (uadd takenPages n) limit);
       mret (usub takenPages released)
     else mret takenPages);
  mret (uadd takenPages n <=? limit).

(** *** Allocating *)
(** What is left of [span], [extra] pages after the first [n], goes on its list. *)
Definition carve_leftover span (old_location : Location) (extra n : Z) : HM unit :=
  if 0 <? extra then
    s ← load span;
    leftover ← NewSpan (uadd (start s) n) extra;
    _ ← store leftover (λ s, set_location s old_location);
    _ ← RecordSpan leftover;
    l ← load leftover;
    next ← GetDescriptor (uadd (start l) (length l));
    _ ← (if next =? 0 then mret tt
         else t ← load next;
              ASSERT (bool_decide (location t = IN_USE)
                      || negb (bool_decide (location t = location l))));
    _ ← PrependToFreeList leftover;
    _ ← store span (λ s, set_length s n);
    s ← load span;
    pagemap_set (usub (uadd (start s) n) 1) span
  else mret tt.
Definition Carve span (n : Z) : HM Z :=
  _ ← ASSERT (0 <? n);
  s ← load span;
  _ ← ASSERT (negb (bool_decide (location s = IN_USE)));
  let old_location := location s in
  _ ← RemoveFromFreeList span;
  _ ← store span (λ s, set_location s IN_USE);
  s ← load span;
  let extra := to_int (length s - n) in
  _ ← ASSERT (0 <=? extra);
  _ ← carve_leftover span old_location extra n;
  _ ← (if decide (old_location = ON_RETURNED_FREELIST) then CommitSpan span else mret tt);
  s ← load span;
  _ ← ASSERT (bool_decide (location s = IN_USE));
  _ ← ASSERT (length s =? n);
  t ← gets stats_;
  _ ← ASSERT (uadd (unmapped_bytes t) (committed_bytes t) =? system_bytes t);
  mret span.

(** The best fit among the large spans: [best] and [best_normal]. *)
Definition best_fit (n : Z) : HM (Z * Z) :=
  m ← gets spans;
  set ← gets large_normal_;
  place ← lift (set_upper_bound m n 0 set);
  let best_normal := match place with Some x => x.1 | None => 0 end in
  _ ← (if best_normal =? 0 then mret tt
       else s ← load best_normal; ASSERT (bool_decide (location s = ON_NORMAL_FREELIST)));
  set ← gets large_returned_;
  place ← lift (set_upper_bound m n 0 set);
  match place with
  | None => mret (best_normal, best_normal)
  | Some x =>
      c ← load x.1;
      _ ← ASSERT (bool_decide (location c = ON_RETURNED_FREELIST));
      if best_normal =? 0 then mret (x.1, best_normal)
      else
        b ← load best_normal;
        mret (if (length c <? length b) || (length c =? length b) && (start c <? start b)
              then x.1 else best_normal, best_normal)
  end.
(** The calls of [AllocLarge] are bounded by [depth]. *)
Fixpoint AllocLarge (depth fuel : nat) (n : Z) : HM Z :=
  match depth with
  | O => lift NoFuel
  | S depth =>
      '(best, best_normal) ← best_fit n;
      if best =? best_normal then (if best =? 0 then mret 0 else Carve best n) else
      ok ← EnsureLimit fuel n false;
      if ok : bool then Carve best n else
      ok ← EnsureLimit fuel n true;
      if ok : bool then AllocLarge depth fuel n else
      _ ← ASSERT (best_normal =? 0);
      mret 0
  end.

(** The lists of spans of at least [s] pages. *)
Fixpoint search_lists (k fuel : nat) (s n : Z) : HM Z :=
  match k with
  | O => lift NoFuel
  | S k =>
      if s <=? kMaxPages then
        let ll := free_normal (s - 1) in
        empty ← ask_links (λ l, DLL_IsEmpty l ll);
        if negb empty then
          first ← ask_links (λ l, get_next l ll);
          t ← load first;
          _ ← ASSERT (bool_decide (location t = ON_NORMAL_FREELIST));
          Carve first n
        else
          let ll := free_returned (s - 1) in
          empty ← ask_links (λ l, DLL_IsEmpty l ll);
          usable ←
            (if negb empty then
               ok ← EnsureLimit fuel n true;
               if ok : bool then empty ← ask_links (λ l, DLL_IsEmpty l ll); mret (negb empty)
               else mret false
             else mret false);
          if usable : bool then
            first ← ask_links (λ l, get_next l ll);
            t ← load first;
            _ ← ASSERT (bool_decide (location t = ON_RETURNED_FREELIST));
            Carve first n
          else search_lists k fuel (s + 1) n
      else AllocLarge 2 fuel n
  end.
Definition SearchFreeAndLargeLists (fuel : nat) (n : Z) : HM Z :=
  _ ← ASSERT (0 <? n);
  search_lists 129 fuel n n.

Definition RecordGrowth (growth : Z) : HM unit := λ h,
  '(_, a, w) ← obj_new (stacktrace_allocator h) (world h);
  let h := with_world (with_stacktraces h a) w in
  Ok (tt, with_growth_stacks h (growth :: growth_stacks h)).

(** A request to the system, within the limit: the address and the bytes. *)
Definition ask_system (fuel : nat) (ask : Z) : HM (Z * Z) :=
  ok ← EnsureLimit fuel ask true;
  if ok : bool then
    on_world (λ w, '(p, n, w) ← SystemAlloc (page_bytes ask) kPageSize w; Ok ((p, n), w))
  else mret (0, 0).
(** What [GrowHeap] does with a block from the system. *)
Definition add_block (pm_fuel fuel : nat) (ptr ask : Z) : HM bool :=
  _ ← RecordGrowth (page_bytes ask);
  t ← gets stats_;
  let old_system_bytes := system_bytes t in
  _ ← on_stats (λ t, add_reserve t (page_bytes ask));
  let p := Z.shiftr ptr kPageShift in
  _ ← ASSERT (0 <? p);
  t ← gets stats_;
  _ ← (if (old_system_bytes <? kPageMapBigAllocationThreshold)
          && (kPageMapBigAllocationThreshold <=? system_bytes t)
       then λ h, '(m, w) ← pm_prealloc pm_fuel (pagemap_ h) (world h);
                 Ok (tt, with_world (with_pagemap h m) w)
       else mret tt);
  ok ← (λ h, '(b, m, w) ← pm_ensure pm_fuel (pagemap_ h) (usub p 1) (uadd ask 2) (world h);
             Ok (b, with_world (with_pagemap h m) w));
  if ok : bool then
    span ← NewSpan p ask;
    _ ← RecordSpan span;
    _ ← Delete fuel span;
    t ← gets stats_;
    _ ← ASSERT (uadd (unmapped_bytes t) (committed_bytes t) =? system_bytes t);
    mret true
  else mret false.
Definition GrowHeap (pm_fuel fuel : nat) (n : Z) : HM bool :=
  _ ← ASSERT (kMinSystemAlloc <=? kMaxPages);
  if kMaxValidPages <? n then mret false else
  let ask := if kMinSystemAlloc <? n then n else kMinSystemAlloc in
  '(ptr, actual_size) ← ask_system fuel ask;
  if negb (ptr =? 0) then add_block pm_fuel fuel ptr (Z.shiftr actual_size kPageShift) else
  if n <? ask then
    '(ptr, actual_size) ← ask_system fuel n;
    if negb (ptr =? 0) then add_block pm_fuel fuel ptr (Z.shiftr actual_size kPageShift)
    else mret false
  else mret false.

(** Whether [New] returns free memory to the system before growing the heap. *)
Definition forced_coalesce (t : Stats) (n : Z) : bool :=
  negb (free_bytes t =? 0) && negb (unmapped_bytes t =? 0)
  && (system_bytes t / 4 <=? uadd (free_bytes t) (unmapped_bytes t))
  && negb (system_bytes t / kForcedCoalesceInterval
           =? uadd (system_bytes t) (page_bytes n) / kForcedCoalesceInterval).
Definition New (pm_fuel fuel : nat) (n : Z) : HM Z :=
  _ ← ASSERT (0 <? n);
  result ← SearchFreeAndLargeLists fuel n;
  if negb (result =? 0) then mret result else
  t ← gets stats_;
  result ←
    (if forced_coalesce t n then
       _ ← ReleaseAtLeastNPages fuel 2147483647;
       SearchFreeAndLargeLists fuel n
     else mret 0);
  if negb (result =? 0) then mret result else
  grown ← GrowHeap pm_fuel fuel n;
  if grown : bool then SearchFreeAndLargeLists fuel n
  else
    t ← gets stats_;
    _ ← ASSERT (uadd (unmapped_bytes t) (committed_bytes t) =? system_bytes t);
    mret 0.

(** *** Spans in use *)
Definition Split span (n : Z) : HM Z :=
  _ ← ASSERT (0 <? n);
  s ← load span;
  _ ← ASSERT (n <? length s);
  _ ← ASSERT (bool_decide (location s = IN_USE));
  _ ← ASSERT (sizeclass s =? 0);
  let extra := to_int (length s - n) in
  leftover ← NewSpan (uadd (start s) n) (Prelude.size_t extra);
  l ← load leftover;
  _ ← ASSERT (bool_decide (location l = IN_USE));
  _ ← RecordSpan leftover;
  _ ← pagemap_set (usub (uadd (start s) n) 1) span;
  _ ← store span (λ s, set_length s n);
  mret leftover.

(** The pages [i, ..., length - 2] of the span. *)
Fixpoint register_loop (fuel : nat) (i span : Z) : HM unit :=
  match fuel with
  | O => lift NoFuel
  | S fuel =>
      s ← load span;
      if i <? usub (length s) 1 then
        _ ← pagemap_set (uadd (start s) i) span;
        register_loop fuel (i + 1) span
      else mret tt
  end.
Definition RegisterSizeClass (fuel : nat) span (sc : Z) : HM unit :=
  s ← load span;
  _ ← ASSERT (bool_decide (location s = IN_USE));
  d ← GetDescriptor (start s);
  _ ← ASSERT (d =? span);
  d ← GetDescriptor (usub (uadd (start s) (length s)) 1);
  _ ← ASSERT (d =? span);
  _ ← store span (λ s, set_sizeclass s (sc mod 2 ^ 8));
  register_loop fuel 1 span.

(** *** Statistics and inspection *)
(** The lengths of the lists [free_[i], free_[i+1], ...], [count] of them. *)
Fixpoint small_span_stats (count fuel : nat) (i : Z) : HM (list (Z * Z)) :=
  match count with
  | O => mret []
  | S count =>
      normal ← ask_links (λ l, DLL_Length fuel l (free_normal i));
      returned ← ask_links (λ l, DLL_Length fuel l (free_returned i));
      rest ← small_span_stats count fuel (i + 1);
      mret ((normal, returned) :: rest)
  end.
Definition GetSmallSpanStats (fuel : nat) : HM (list (Z * Z)) :=
  small_span_stats (Z.to_nat kMaxPages) fuel 0.
(** The spans, and the pages of the normal and of the returned ones. *)
Definition GetLargeSpanStats h : Z * Z * Z :=
  (Z.of_nat (base.length (large_normal_ h) + base.length (large_returned_ h)),
   foldr (λ x n, x.2 + n) 0 (large_normal_ h),
   foldr (λ x n, x.2 + n) 0 (large_returned_ h)).

Inductive RangeType := INUSE | FREE | UNMAPPED.
Record MallocRange := mkRange {
  r_address : Z;
  r_length : Z;
  r_type : RangeType;
  r_fraction : spec_float;
}.
(** [class_size] is [Static::sizemap()->class_to_size]. *)
Definition GetNextRange (pm_fuel : nat) (class_size : Z → outcome Z) (from : Z)
  : HM (option MallocRange) :=
  m ← gets pagemap_;
  span ← lift (pm_next pm_fuel m from);
  if span =? 0 then mret None else
  s ← load span;
  let len := page_bytes (length s) in
  '(type, fraction) ←
    match location s with
    | IN_USE =>
        if 0 <? sizeclass s then
          osize ← lift (class_size (sizeclass s));
          mret (INUSE, double_div (double_mul (double_mul (double_of_int 1) (double_of_int osize))
                                     (double_of_int (refcount s))) (double_of_int len))
        else mret (INUSE, double_of_int 1)
    | ON_NORMAL_FREELIST => mret (FREE, double_of_int 0)
    | ON_RETURNED_FREELIST => mret (UNMAPPED, double_of_int 0)
    end;
  mret (Some (mkRange (page_bytes (start s)) len type fraction)).

(** The conditions on a span that [CheckList] and [CheckSet] share. *)
Definition check_span span (min_pages : Z) (max_pages : option Z) (freelist : Location) : HM unit :=
  s ← load span;
  _ ← ASSERT (bool_decide (location s = freelist));
  _ ← ASSERT (min_pages <=? length s);
  _ ← (match max_pages with Some max => ASSERT (length s <=? max) | None => mret tt end);
  d ← GetDescriptor (start s);
  _ ← ASSERT (d =? span);
  d ← GetDescriptor (usub (uadd (start s) (length s)) 1);
  ASSERT (d =? span).
Fixpoint CheckList (fuel : nat) (list s min_pages max_pages : Z) (freelist : Location) : HM unit :=
  match fuel with
  | O => lift NoFuel
  | S fuel =>
      if negb (s =? list) then
        _ ← check_span s min_pages (Some max_pages) freelist;
        n ← ask_links (λ l, get_next l s);
        CheckList fuel list n min_pages max_pages freelist
      else mret tt
  end.
Fixpoint CheckSet (set : list SpanPtrWithLength) (min_pages : Z) (freelist : Location) : HM unit :=
  match set with
  | [] => mret tt
  | x :: set =>
      s ← load x.1;
      _ ← ASSERT (length s =? x.2);
      _ ← check_span x.1 min_pages None freelist;
      CheckSet set min_pages freelist
  end.
(** The lists of [s, s+1, ...] pages, [count] of them. *)
Fixpoint check_lists (count fuel : nat) (s : Z) : HM unit :=
  match count with
  | O => mret tt
  | S count =>
      first ← ask_links (λ l, get_next l (free_normal (s - 1)));
      _ ← CheckList fuel (free_normal (s - 1)) first s s ON_NORMAL_FREELIST;
      first ← ask_links (λ l, get_next l (free_returned (s - 1)));
      _ ← CheckList fuel (free_returned (s - 1)) first s s ON_RETURNED_FREELIST;
      check_lists count fuel (s + 1)
  end.
Definition CheckExpensive (fuel : nat) : HM bool :=
  set ← gets large_normal_;
  _ ← CheckSet set (kMaxPages + 1) ON_NORMAL_FREELIST;
  set ← gets large_returned_;
  _ ← CheckSet set (kMaxPages + 1) ON_RETURNED_FREELIST;
  _ ← check_lists (Z.to_nat kMaxPages) fuel 1;
  mret true.

(** *** The constructor *)
(** [DLL_Init] of the heads of [free_[i], free_[i+1], ...], [count] of them. *)
Fixpoint init_lists (count : nat) (i : Z) (l : links) : outcome links :=
  match count with
  | O => mret l
  | S count =>
      let l := <[free_normal i := (0, 0)]> (<[free_returned i := (0, 0)]> l) in
      l ← DLL_Init l (free_normal i);
      l ← DLL_Init l (free_returned i);
      init_lists count (i + 1) l
  end.
(** The spans, the allocators and the system exist before the page heap. *)
Definition PageHeap_new (m : P) (sa : SA) (ta : TA) (w : W) : outcome Heap :=
  l ← init_lists (Z.to_nat kMaxPages) 0 ∅;
  Ok (mkHeap m [] [] Stats_new 0 kMaxPages false ∅ l sa ta [] w).
End page_heap.
