(* ===== verification/SpanSet.v ===== *)
(** * The sets of large spans

    The ordered sets of [page_heap.cc] ([std::set] with [SpanBestFitLess]) hold
    their elements in increasing order of length and, at equal lengths, of start;
    what [insert], [find], [upper_bound] and [erase] do to such a set. *)
From S2P Require Import Prelude SpanList PageMap SystemAlloc MetaData PageHeap.
From stdpp Require Import base numbers list option gmap fin_maps fin_map_dom.
From Stdlib Require Import ZArith Lia Sorting.Sorted.
Open Scope Z_scope.

(** ** Ordered sets *)
Section span_set.
Variable m : gmap Z Span.
Implicit Types (a b x y : SpanPtrWithLength) (l : list SpanPtrWithLength).

Definition start_of a : Z := match m !! a.1 with Some s => start s | None => 0 end.
Definition live_elem a : Prop := is_Some (m !! a.1).
Definition key_lt a b : Prop := a.2 < b.2 ∨ a.2 = b.2 ∧ start_of a < start_of b.
Definition set_ordered l : Prop := StronglySorted key_lt l ∧ Forall live_elem l.

Lemma span_less_spec a b : live_elem a → live_elem b →
  ∃ c, span_less m a b = Ok c ∧ (c = true ↔ key_lt a b).
Proof.
  intros [s Hs] [t Ht]. unfold span_less, SpanBestFitLess, span_start, key_lt, start_of.
  rewrite Hs, Ht. destruct (Z.ltb_spec a.2 b.2); [exists true; split; [done|lia]|].
  destruct (Z.ltb_spec b.2 a.2); [exists false; split; [done|lia]|].
  eexists. split; [done|]. rewrite Z.ltb_lt. lia.
Qed.
Lemma key_lt_trans a b c : key_lt a b → key_lt b c → key_lt a c.
Proof. unfold key_lt. lia. Qed.
Lemma key_lt_irrefl a : ¬ key_lt a a.
Proof. unfold key_lt. lia. Qed.

Lemma set_insert_spec x l : set_ordered l → live_elem x →
  (∀ y, y ∈ l → key_lt x y ∨ key_lt y x) →
  ∃ l', set_insert m x l = Ok (l', true) ∧ set_ordered l' ∧ ∀ y, y ∈ l' ↔ y = x ∨ y ∈ l.
Proof.
  intros [Hs Hl] Hx. revert Hl. induction Hs as [|y l Hs IH Hy]; intros Hl Hne; cbn [set_insert].
  - exists [x]. split; [done|]. split; [by split; repeat constructor|set_solver].
  - apply Forall_cons in Hl as [Hly Hl].
    destruct (span_less_spec y x Hly Hx) as (c & -> & Hc). cbn [mbind outcome_bind].
    destruct c.
    + destruct IH as (l' & -> & [Hs' Hl'] & Hin); [done|intros z Hz; apply Hne; by right|].
      cbn [mbind outcome_bind]. exists (y :: l'). split; [done|]. split; [|set_solver].
      split; [|by constructor]. constructor; [done|]. apply Forall_forall. intros z Hz.
      apply Hin in Hz as [->|Hz]; [by apply Hc|]. rewrite Forall_forall in Hy. by apply Hy.
    + destruct (span_less_spec x y Hx Hly) as (d & -> & Hd). cbn [mbind outcome_bind].
      assert (key_lt x y) as Hxy.
      { destruct (Hne y ltac:(left)) as [|Hyx]; [done|]. by apply Hc in Hyx. }
      assert (d = true) as -> by (by apply Hd).
      exists (x :: y :: l). split; [done|]. split; [|set_solver].
      split; [|by repeat constructor]. constructor; [by constructor|]. constructor; [done|].
      eapply Forall_impl; [exact Hy|]. intros z Hz. by eapply key_lt_trans.
Qed.

Lemma set_find_spec x l : set_ordered l → x ∈ l → set_find m x l = Ok (Some x).
Proof.
  intros [Hs Hl]. revert Hl. induction Hs as [|y l Hs IH Hy]; intros Hl Hx; cbn [set_find].
  - set_solver.
  - apply Forall_cons in Hl as [Hly Hl].
    assert (live_elem x) as Hlx.
    { apply elem_of_cons in Hx as [->|Hx]; [done|]. rewrite Forall_forall in Hl. auto. }
    destruct (span_less_spec y x Hly Hlx) as (c & -> & Hc).
    destruct (span_less_spec x y Hlx Hly) as (d & -> & Hd). cbn [mbind outcome_bind].
    apply elem_of_cons in Hx as [->|Hx].
    + destruct c; [exfalso; by eapply (key_lt_irrefl y), Hc|].
      destruct d; [exfalso; by eapply (key_lt_irrefl y), Hd|]. done.
    + rewrite Forall_forall in Hy. assert (c = true) as -> by (by apply Hc, Hy). auto.
Qed.

Lemma set_erase_spec x l : set_ordered l →
  set_ordered (set_erase x l) ∧ ∀ y, y ∈ set_erase x l ↔ y ≠ x ∧ y ∈ l.
Proof.
  intros [Hs Hl]. split; [split|].
  - unfold set_erase. induction Hs as [|y l Hs IH Hy]; [constructor|].
    apply Forall_cons in Hl as [Hly Hl]. rewrite filter_cons. case_decide; [|auto].
    constructor; [auto|]. rewrite !Forall_forall in *. intros z [_ Hz]%list_elem_of_filter. auto.
  - rewrite !Forall_forall in *. intros z [_ Hz]%list_elem_of_filter. auto.
  - intros y. unfold set_erase. by rewrite list_elem_of_filter.
Qed.

(** The first element that is longer than [n], or as long and past [st]. *)
Definition fits (n st : Z) x : Prop := n < x.2 ∨ n = x.2 ∧ st < start_of x.
Lemma set_upper_bound_spec n st l : set_ordered l →
  (set_upper_bound m n st l = Ok None ∧ ∀ x, x ∈ l → ¬ fits n st x) ∨
  (∃ x, set_upper_bound m n st l = Ok (Some x) ∧ x ∈ l ∧ fits n st x ∧
     ∀ y, y ∈ l → fits n st y → y = x ∨ key_lt x y).
Proof.
  intros [Hs Hl]. revert Hl. induction Hs as [|y l Hs IH Hy]; intros Hl; cbn [set_upper_bound].
  { left. split; [done|set_solver]. }
  apply Forall_cons in Hl as [[s Hly] Hl].
  assert (∃ c, SpanBestFitLess n (Ok st) y.2 (span_start m y) = Ok c ∧ (c = true ↔ fits n st y))
    as (c & -> & Hc).
  { unfold SpanBestFitLess, span_start, fits, start_of. rewrite Hly.
    destruct (Z.ltb_spec n y.2); [exists true; split; [done|lia]|].
    destruct (Z.ltb_spec y.2 n); [exists false; split; [done|lia]|].
    eexists. split; [done|]. rewrite Z.ltb_lt. lia. }
  cbn [mbind outcome_bind]. destruct c.
  - right. exists y. split; [done|]. split; [left|]. split; [by apply Hc|].
    intros z [->|Hz]%elem_of_cons _; [by left|right]. rewrite Forall_forall in Hy. by apply Hy.
  - destruct (IH Hl) as [[-> Hn]|(x & -> & Hx & Hf & Hmin)]; [left|right].
    + split; [done|]. intros z [->|Hz]%elem_of_cons; [by rewrite <- Hc|by apply Hn].
    + exists x. split; [done|]. split; [by right|]. split; [done|].
      intros z [->|Hz]%elem_of_cons Hfz; [by apply Hc in Hfz|by apply Hmin].
Qed.
End span_set.

(** The order depends only on the starts of the elements. *)
Lemma set_ordered_ext (m m' : gmap Z Span) l :
  (∀ x s, x ∈ l → m !! x.1 = Some s → ∃ s', m' !! x.1 = Some s' ∧ start s' = start s) →
  set_ordered m l → set_ordered m' l.
Proof.
  intros Hext [Hs Hl].
  assert (∀ x, x ∈ l → start_of m' x = start_of m x ∧ live_elem m' x) as Hx.
  { intros x Hx. rewrite Forall_forall in Hl. destruct (Hl x Hx) as [s Es].
    destruct (Hext x s Hx Es) as (s' & Es' & E). unfold start_of, live_elem.
    rewrite Es, Es'. by split. }
  split; [|apply Forall_forall; intros x ?; by apply Hx]. clear Hext Hl.
  induction Hs as [|y l Hs IH Hy]; [constructor|]. constructor; [apply IH; intros; apply Hx; by right|].
  rewrite Forall_forall in Hy. apply Forall_forall. intros z Hz. specialize (Hy z Hz).
  unfold key_lt in *. destruct (Hx y ltac:(left)) as [-> _]. destruct (Hx z ltac:(by right)) as [-> _]. done.
Qed.
