(* ===== verification/FreeLists.v ===== *)
(** * The free lists of the page heap

    The weakest preconditions of the steps of [PageHeap], the invariant of the
    free lists (the circular lists for each small length, the ordered sets of large
    spans, the iterators stored in spans and the byte counts), and the two
    operations that change them, [PrependToFreeList] and [RemoveFromFreeList].  The
    invariant leaves out a set of floating spans: those an operation has taken off
    the lists, or not put on them yet. *)
From stdpp Require Import base numbers list option gmap sets fin_maps fin_map_dom.
From Stdlib Require Import ZArith Lia.
From S2P Require Import Prelude SizeMap SpanList PageMap SystemAlloc MetaData PageHeap SpanSet.
Open Scope Z_scope.

Section heap_wp.
Context {P SA TA W : Type}.
Abbreviation Heap := (PageHeap P SA TA W).
Variable ab : Prop.
Implicit Types h : Heap.
Lemma wp_load p s (Q : Span → Heap → Prop) h :
  spans h !! p = Some s → Q s h → wp ab (load p) Q h.
Proof. unfold wp, load. by intros ->. Qed.
Lemma wp_store p f s (Q : () → Heap → Prop) h :
  spans h !! p = Some s → Q tt (with_spans h (<[p := f s]> (spans h))) → wp ab (store p f) Q h.
Proof. unfold wp, store. by intros ->. Qed.
Lemma wp_on_stats f (Q : () → Heap → Prop) h :
  Q tt (with_stats h (f (stats_ h))) → wp ab (on_stats f) Q h.
Proof. done. Qed.
Lemma wp_ask_links {A} (f : links → outcome A) a (Q : A → Heap → Prop) h :
  f (span_links h) = Ok a → Q a h → wp ab (ask_links f) Q h.
Proof. unfold wp, ask_links. by intros ->. Qed.
Lemma wp_on_links f l (Q : () → Heap → Prop) h :
  f (span_links h) = Ok l → Q tt (with_links h l) → wp ab (on_links f) Q h.
Proof. unfold wp, on_links. by intros ->. Qed.
Lemma wp_ASSERT (c : bool) (Q : () → Heap → Prop) h : c = true → Q tt h → wp ab (ASSERT c) Q h.
Proof. by intros ->. Qed.
End heap_wp.

(** ** The invariant of the lists *)
Definition free_loc (loc : Location) : Prop := loc ≠ IN_USE.

(** A span is listed when it is free and not floating. *)
Definition listed (m : gmap Z Span) (F : gset Z) (loc : Location) (p : Z) (s : Span) : Prop :=
  m !! p = Some s ∧ location s = loc ∧ p ∉ F.
(** Its contribution to the pages of the location. *)
Definition pages_at (F : gset Z) (loc : Location) (p : Z) (s : Span) : Z :=
  if decide (location s = loc ∧ p ∉ F) then length s else 0.

(** The circular lists, with the elements of each and the spans on none. *)
Definition small_ok (m : gmap Z Span) (F : gset Z) (st : links) : Prop :=
  ∃ lists det, dll_rep st lists det ∧
    (∀ loc i, free_loc loc → 0 ≤ i < kMaxPages → ∃ l, lists !! list_head loc i = Some l ∧
       ∀ p, p ∈ l ↔ ∃ s, listed m F loc p s ∧ length s = i + 1) ∧
    (∀ p, p ∈ det ↔ ∃ s, m !! p = Some s ∧ (p ∈ F ∨ location s = IN_USE ∨ kMaxPages < length s)) ∧
    (∀ x, is_Some (lists !! x) → ∃ loc i, free_loc loc ∧ 0 ≤ i < kMaxPages ∧ x = list_head loc i).
(** A set of large spans. *)
Definition large_ok (m : gmap Z Span) (F : gset Z) (loc : Location)
    (set : list SpanPtrWithLength) : Prop :=
  set_ordered m set ∧
  ∀ x, x ∈ set ↔ ∃ s, listed m F loc x.1 s ∧ length s = x.2 ∧ kMaxPages < x.2.
Definition iter_ok (F : gset Z) (p : Z) (s : Span) : Prop :=
  span_iter s = if decide (location s ≠ IN_USE ∧ p ∉ F ∧ kMaxPages < length s)
                then Some (p, length s) else None.

Section lists.
Context {P SA TA W : Type}.
Abbreviation Heap := (PageHeap P SA TA W).
Implicit Types h : Heap.

Record lists_ok h (F : gset Z) : Prop := {
  lk_small : small_ok (spans h) F (span_links h);
  lk_large loc : free_loc loc → large_ok (spans h) F loc (large_set loc h);
  lk_iter p s : spans h !! p = Some s → iter_ok F p s;
  lk_free : free_bytes (stats_ h) = 8192 * wsum (pages_at F ON_NORMAL_FREELIST) (spans h);
  lk_unmapped : unmapped_bytes (stats_ h) = 8192 * wsum (pages_at F ON_RETURNED_FREELIST) (spans h);
  lk_span p s : spans h !! p = Some s → 0 < p ∧ 1 ≤ length s;
  lk_class p s : spans h !! p = Some s → free_loc (location s) → sizeclass s = 0;
}.

(** What the operations on the lists leave alone. *)
Record lists_only h h' : Prop := {
  lo_pagemap : pagemap_ h' = pagemap_ h;
  lo_system : system_bytes (stats_ h') = system_bytes (stats_ h);
  lo_committed : committed_bytes (stats_ h') = committed_bytes (stats_ h);
  lo_counter : scavenge_counter_ h' = scavenge_counter_ h;
  lo_index : release_index_ h' = release_index_ h;
  lo_aggressive : aggressive_decommit_ h' = aggressive_decommit_ h;
  lo_allocator : span_allocator h' = span_allocator h;
  lo_traces : stacktrace_allocator h' = stacktrace_allocator h;
  lo_growth : growth_stacks h' = growth_stacks h;
  lo_world : world h' = world h;
}.
End lists.

Lemma list_head_inj loc i loc' i' : free_loc loc → free_loc loc' → 0 ≤ i → 0 ≤ i' →
  list_head loc i = list_head loc' i' → loc = loc' ∧ i = i'.
Proof.
  unfold free_loc, list_head, free_normal, free_returned. intros.
  repeat case_decide; destruct loc, loc'; try congruence; split; try done; try lia; exfalso; lia.
Qed.
Lemma list_head_neg loc i : 0 ≤ i → list_head loc i < 0.
Proof. unfold list_head, free_normal, free_returned. case_decide; lia. Qed.

(** ** The circular lists *)
Definition in_small (m : gmap Z Span) (F : gset Z) (loc : Location) (i p : Z) : Prop :=
  ∃ s, listed m F loc p s ∧ length s = i + 1.
Definition in_none (m : gmap Z Span) (F : gset Z) (p : Z) : Prop :=
  ∃ s, m !! p = Some s ∧ (p ∈ F ∨ location s = IN_USE ∨ kMaxPages < length s).

(** A change that lists no span elsewhere. *)
Lemma small_change m F m' F' st : small_ok m F st →
  (∀ loc i p, free_loc loc → 0 ≤ i < kMaxPages → in_small m' F' loc i p ↔ in_small m F loc i p) →
  (∀ p, in_none m' F' p ↔ in_none m F p) → small_ok m' F' st.
Proof.
  intros (lists & det & Hrep & Hl & Hd & Hx) Hin Hno. exists lists, det.
  split; [done|]. split; [|split; [|done]].
  - intros loc i Hloc Hi. destruct (Hl loc i Hloc Hi) as (l & El & Hpl). exists l. split; [done|].
    intros p. rewrite Hpl. symmetry. by apply Hin.
  - intros p. rewrite Hd. symmetry. apply Hno.
Qed.

Section small.
Variables (m : gmap Z Span) (F : gset Z) (st : links).
Hypothesis Hok : small_ok m F st.

Lemma small_prepend p s : m !! p = Some s → p ∈ F → free_loc (location s) →
  1 ≤ length s ≤ kMaxPages →
  ∃ st', DLL_Prepend st (list_head (location s) (length s - 1)) p = Ok st' ∧
    small_ok m (F ∖ {[p]}) st'.
Proof.
  intros Hp HF Hloc Hlen. destruct Hok as (lists & det & Hrep & Hl & Hd & Hx).
  destruct (Hl (location s) (length s - 1) Hloc ltac:(lia)) as (l & El & Hpl).
  assert (p ∈ det) as Hpd by (apply Hd; eauto).
  destruct (rep_Prepend _ _ _ Hrep _ _ _ El Hpd) as (st' & E & Hrep').
  exists st'. split; [done|]. exists (<[list_head (location s) (length s - 1) := p :: l]> lists), (det ∖ {[p]}).
  split; [done|]. split; [|split].
  - intros loc i Hloc' Hi. destruct (decide (loc = location s ∧ i = length s - 1)) as [[-> ->]|Hne].
    + exists (p :: l). split; [apply lookup_insert_eq|]. intros q. rewrite elem_of_cons, Hpl.
      unfold listed. destruct (decide (q = p)) as [->|Hq].
      * split; [|by left]. intros _. exists s. split; [|lia]. set_solver.
      * split; [intros [|(t & (? & ? & ?) & ?)]; [done|exists t; set_solver]|].
        intros (t & (? & ? & ?) & ?). right. exists t. set_solver.
    + destruct (Hl loc i Hloc' Hi) as (l' & El' & Hpl'). exists l'. split.
      * rewrite lookup_insert_ne; [done|]. intros Eh. apply Hne.
        apply list_head_inj in Eh as [-> ->]; try done; lia.
      * intros q. rewrite Hpl'. unfold listed. destruct (decide (q = p)) as [->|Hq].
        -- split; [intros (t & (_ & _ & ?) & _); done|].
           intros (t & (Ht & Hlt & _) & Hlen'). assert (t = s) as -> by congruence. exfalso. apply Hne.
           split; [done|lia].
        -- split; intros (t & (? & ? & ?) & ?); exists t; set_solver.
  - intros q. rewrite elem_of_difference, elem_of_singleton, Hd. split.
    + intros [(t & ? & Hor) Hq]. exists t. split; [done|]. set_solver.
    + intros (t & Ht & Hor). destruct (decide (q = p)) as [->|Hq].
      * exfalso. assert (t = s) as -> by congruence. destruct Hor as [?|[?|?]]; [set_solver|done|lia].
      * split; [|done]. exists t. split; [done|]. set_solver.
  - intros x Hx'. apply Hx. destruct (decide (x = list_head (location s) (length s - 1))) as [->|Hne].
    + by rewrite El.
    + by rewrite lookup_insert_ne in Hx'.
Qed.
Lemma small_remove loc p s : listed m F loc p s → free_loc loc → 1 ≤ length s ≤ kMaxPages →
  ∃ st', DLL_Remove st p = Ok st' ∧ small_ok m ({[p]} ∪ F) st'.
Proof.
  intros (Hp & Hloc & HF) Hfree Hlen. destruct Hok as (lists & det & Hrep & Hl & Hd & Hx).
  destruct (Hl loc (length s - 1) Hfree ltac:(lia)) as (l & El & Hpl).
  assert (p ∈ l) as Hin by (apply Hpl; exists s; split; [done|lia]).
  apply list_elem_of_split in Hin as (l1 & l2 & ->).
  destruct (rep_Remove _ _ _ Hrep _ _ _ _ El) as (st' & E & Hrep').
  destruct (dr_circular _ _ _ Hrep _ _ El) as [_ Hnd].
  rewrite <- Permutation_middle in Hnd. apply NoDup_cons in Hnd as [_ [Hp12 _]%NoDup_cons].
  exists st'. split; [done|]. exists (<[list_head loc (length s - 1) := l1 ++ l2]> lists), ({[p]} ∪ det).
  split; [done|]. split; [|split].
  - intros loc' i Hloc' Hi. destruct (decide (loc' = loc ∧ i = length s - 1)) as [[-> ->]|Hne].
    + exists (l1 ++ l2). split; [apply lookup_insert_eq|]. intros q.
      destruct (decide (q = p)) as [->|Hq].
      * split; [done|]. intros (t & (_ & _ & Hn) & _). set_solver.
      * specialize (Hpl q). unfold listed in *. rewrite elem_of_app in *. rewrite elem_of_cons in Hpl.
        split.
        -- intros Hor. destruct (proj1 Hpl) as (t & (? & ? & ?) & ?); [tauto|]. exists t. set_solver.
        -- intros (t & (? & ? & ?) & ?). destruct (proj2 Hpl) as [?|[?|?]]; [exists t; set_solver|tauto..].
    + destruct (Hl loc' i Hloc' Hi) as (l' & El' & Hpl'). exists l'. split.
      * rewrite lookup_insert_ne; [done|]. intros Eh. apply Hne.
        apply list_head_inj in Eh as [-> ->]; try done; lia.
      * intros q. rewrite Hpl'. unfold listed. destruct (decide (q = p)) as [->|Hq].
        -- split; [|intros (t & (_ & _ & ?) & _); set_solver].
           intros (t & (Ht & Hlt & _) & Hlen'). assert (t = s) as -> by congruence. exfalso. apply Hne.
           split; [congruence|lia].
        -- split; intros (t & (? & ? & ?) & ?); exists t; set_solver.
  - intros q. rewrite elem_of_union, elem_of_singleton, Hd. split.
    + intros [->|(t & ? & Hor)]; [exists s; set_solver|]. exists t. set_solver.
    + intros (t & Ht & Hor). destruct (decide (q = p)) as [->|Hq]; [by left|right].
      exists t. set_solver.
  - intros x Hx'. apply Hx. destruct (decide (x = list_head loc (length s - 1))) as [->|Hne].
    + by rewrite El.
    + by rewrite lookup_insert_ne in Hx'.
Qed.
(** A new span, and the end of a floating one. *)
Lemma small_new p s : m !! p = None → 0 < p →
  small_ok (<[p := s]> m) ({[p]} ∪ F) (<[p := (0, 0)]> st).
Proof.
  intros Hp Hpos. destruct Hok as (lists & det & Hrep & Hl & Hd & Hx).
  assert (∀ h l, lists !! h = Some l → p ∉ h :: l) as Hnew.
  { intros h l Hh. destruct (Hx h) as (loc & i & Hloc & Hi & ->); [by eexists|].
    destruct (Hl loc i Hloc Hi) as (l' & El' & Hpl). assert (l' = l) as -> by congruence.
    pose proof (list_head_neg loc i ltac:(lia)). intros [Heq|Hpin]%elem_of_cons; [lia|].
    apply Hpl in Hpin as (t & (Ht & _ & _) & _). congruence. }
  exists lists, ({[p]} ∪ det). split; [by apply rep_new|]. split; [|split; [|done]].
  - intros loc i Hloc Hi. destruct (Hl loc i Hloc Hi) as (l & El & Hpl). exists l. split; [done|].
    intros q. rewrite Hpl. unfold listed. destruct (decide (q = p)) as [->|Hq].
    + split; [intros (t & (Ht & _ & _) & _); congruence|].
      intros (t & (_ & _ & Hn) & _). set_solver.
    + rewrite lookup_insert_ne by done. split; intros (t & (? & ? & ?) & ?); exists t; set_solver.
  - intros q. rewrite elem_of_union, elem_of_singleton, Hd. destruct (decide (q = p)) as [->|Hq].
    + split; [|by left]. intros _. exists s. rewrite lookup_insert_eq. set_solver.
    + rewrite lookup_insert_ne by done. split.
      * intros [?|(t & Ht & Hor)]; [done|]. exists t. set_solver.
      * intros (t & Ht & Hor). right. exists t. set_solver.
Qed.
Lemma small_delete p s : m !! p = Some s → p ∈ F → small_ok (delete p m) (F ∖ {[p]}) (delete p st).
Proof.
  intros Hp HF. destruct Hok as (lists & det & Hrep & Hl & Hd & Hx).
  assert (p ∈ det) as Hpd by (apply Hd; eauto).
  exists lists, (det ∖ {[p]}). split; [by apply rep_delete|]. split; [|split; [|done]].
  - intros loc i Hloc Hi. destruct (Hl loc i Hloc Hi) as (l & El & Hpl). exists l. split; [done|].
    intros q. rewrite Hpl. unfold listed. destruct (decide (q = p)) as [->|Hq].
    + split; [intros (t & (_ & _ & ?) & _); done|].
      intros (t & (Ht & _ & _) & _). by rewrite lookup_delete_eq in Ht.
    + rewrite lookup_delete_ne by done. split; intros (t & (? & ? & ?) & ?); exists t; set_solver.
  - intros q. rewrite elem_of_difference, elem_of_singleton, Hd. destruct (decide (q = p)) as [->|Hq].
    + split; [by intros [_ ?]|]. intros (t & Ht & _). by rewrite lookup_delete_eq in Ht.
    + rewrite lookup_delete_ne by done. split.
      * intros [(t & Ht & Hor) _]. exists t. set_solver.
      * intros (t & Ht & Hor). split; [|done]. exists t. set_solver.
Qed.
End small.

(** ** Sums and sets when a span changes *)
Lemma pages_at_nonneg F loc p s : 1 ≤ length s → 0 ≤ pages_at F loc p s ≤ length s.
Proof. unfold pages_at. case_decide; lia. Qed.
Lemma pages_at_ext F F' loc q t : (q ∈ F ↔ q ∈ F') → pages_at F loc q t = pages_at F' loc q t.
Proof. intros Hq. unfold pages_at. repeat case_decide; naive_solver. Qed.

(** Two sets that differ at [p] at most. *)
Definition same_but (F F' : gset Z) (p : Z) : Prop := ∀ q, q ≠ p → q ∈ F ↔ q ∈ F'.
Definition unlisted (F : gset Z) (p : Z) (s : Span) : Prop := p ∈ F ∨ location s = IN_USE.

Lemma pages_change F F' loc m p s s' : m !! p = Some s → same_but F F' p →
  wsum (pages_at F' loc) (<[p := s']> m) =
  wsum (pages_at F loc) m - pages_at F loc p s + pages_at F' loc p s'.
Proof.
  intros Hp Hsame. apply wsum_change; [done|]. intros q t Hq _. symmetry. by apply pages_at_ext, Hsame.
Qed.
Lemma pages_unlisted F loc p s : free_loc loc → unlisted F p s → pages_at F loc p s = 0.
Proof. unfold pages_at, unlisted, free_loc. case_decide; naive_solver. Qed.
Lemma pages_listed F loc p s : location s = loc → p ∉ F → pages_at F loc p s = length s.
Proof. intros. unfold pages_at. by rewrite decide_True. Qed.
Lemma pages_other F loc p s : location s ≠ loc → pages_at F loc p s = 0.
Proof. unfold pages_at. case_decide; naive_solver. Qed.

Lemma iter_ok_ext F F' q t : (q ∈ F ↔ q ∈ F') → iter_ok F q t → iter_ok F' q t.
Proof. unfold iter_ok. intros Hq ->. repeat case_decide; naive_solver. Qed.

(** The elements of a large set stay when the listed large spans do. *)
Lemma large_change m F m' F' loc set : large_ok m F loc set →
  (∀ p s, listed m F loc p s → kMaxPages < length s →
     ∃ s', listed m' F' loc p s' ∧ length s' = length s ∧ start s' = start s) →
  (∀ p s, listed m' F' loc p s → kMaxPages < length s → ∃ s', listed m F loc p s' ∧ length s' = length s) →
  large_ok m' F' loc set.
Proof.
  intros [Hord Hin] H1 H2. split.
  - eapply set_ordered_ext; [|exact Hord]. intros x s Hx Hs.
    apply Hin in Hx as (s1 & Hl & Hlen & Hk). destruct (H1 _ _ Hl) as (s' & (? & _) & _ & ?); [lia|].
    destruct Hl as (Hs1 & _). exists s'. split; [done|]. congruence.
  - intros x. rewrite Hin. split; intros (s & Hl & Hlen & Hk).
    + destruct (H1 _ _ Hl) as (s' & ? & ? & _); [lia|]. exists s'. split; [done|]. split; [congruence|done].
    + destruct (H2 _ _ Hl) as (s' & ? & ?); [lia|]. exists s'. split; [done|]. split; [congruence|done].
Qed.

Section list_changes.
Context {P SA TA W : Type}.
Abbreviation Heap := (PageHeap P SA TA W).
Implicit Types h : Heap.

(** Nothing of the lists has changed. *)
Lemma lists_ok_frame h h' F : spans h' = spans h → span_links h' = span_links h →
  large_normal_ h' = large_normal_ h → large_returned_ h' = large_returned_ h →
  free_bytes (stats_ h') = free_bytes (stats_ h) →
  unmapped_bytes (stats_ h') = unmapped_bytes (stats_ h) → lists_ok h F → lists_ok h' F.
Proof.
  intros E1 E2 E3 E4 E5 E6 [K1 K2 K3 K4 K5 K6 K7].
  assert (∀ loc, large_set loc h' = large_set loc h) as E7.
  { intros loc. unfold large_set. by rewrite E3, E4. }
  split; rewrite ?E1, ?E2, ?E5, ?E6; try done. intros loc Hloc. rewrite E7. by apply K2.
Qed.

(** A change of a span that is on no list, before and after. *)
Lemma lists_ok_update h F F' p s s' :
  lists_ok h F → spans h !! p = Some s → same_but F F' p →
  unlisted F p s → unlisted F' p s' → span_iter s' = None →
  1 ≤ length s' → (free_loc (location s') → sizeclass s' = 0) →
  lists_ok (with_spans h (<[p := s']> (spans h))) F'.
Proof.
  intros [K1 K2 K3 K4 K5 K6 K7] Hp Hsame Hu Hu' Hit Hlen Hcl.
  assert (∀ loc q t, free_loc loc →
    listed (<[p := s']> (spans h)) F' loc q t ↔ listed (spans h) F loc q t) as Hlist.
  { intros loc q t Hloc. unfold listed, unlisted, free_loc in *. destruct (decide (q = p)) as [->|Hq].
    - rewrite lookup_insert_eq, Hp. split; intros ([= <-] & ? & ?); exfalso; naive_solver.
    - rewrite lookup_insert_ne by done. specialize (Hsame q Hq). naive_solver. }
  split; simpl.
  - eapply small_change; [exact K1| |].
    + intros loc i q Hloc _. unfold in_small. by setoid_rewrite (Hlist loc q _ Hloc).
    + intros q. unfold in_none, unlisted in *. destruct (decide (q = p)) as [->|Hq].
      * rewrite lookup_insert_eq. split; intros _; [exists s|exists s']; naive_solver.
      * rewrite lookup_insert_ne by done. specialize (Hsame q Hq). naive_solver.
  - intros loc Hloc. change (large_set loc (with_spans h _)) with (large_set loc h).
    eapply large_change; [by apply K2|..]; intros q t Hl _; exists t;
      [split; [by apply Hlist|done]|split; [by apply Hlist in Hl|done]].
  - intros q t Hq. destruct (decide (q = p)) as [->|Hne].
    + rewrite lookup_insert_eq in Hq. injection Hq as <-. unfold iter_ok. rewrite Hit.
      unfold unlisted in Hu'. case_decide; naive_solver.
    + rewrite lookup_insert_ne in Hq by done. eapply iter_ok_ext; [by apply Hsame|]. by apply K3.
  - rewrite K4, (pages_change F F' _ _ _ _ _ Hp Hsame), !pages_unlisted by done. lia.
  - rewrite K5, (pages_change F F' _ _ _ _ _ Hp Hsame), !pages_unlisted by done. lia.
  - intros q t Hq. destruct (decide (q = p)) as [->|Hne].
    + rewrite lookup_insert_eq in Hq. injection Hq as <-. split; [by apply (K6 p s)|done].
    + rewrite lookup_insert_ne in Hq by done. by apply K6.
  - intros q t [[<- <-]|[_ Hq]]%lookup_insert_Some; [done|by apply (K7 q)].
Qed.
End list_changes.

Section list_operations.
Context {P SA TA W : Type}.
Abbreviation Heap := (PageHeap P SA TA W).
Implicit Types h : Heap.

(** A span in use may be counted as floating, or not. *)
Lemma lists_ok_float h F F' p s : lists_ok h F → spans h !! p = Some s → same_but F F' p →
  unlisted F p s → unlisted F' p s → lists_ok h F'.
Proof.
  intros Hok Hp Hsame Hu Hu'. pose proof (lk_iter _ _ Hok _ _ Hp) as Hit. unfold iter_ok in Hit.
  pose proof (lk_span _ _ Hok _ _ Hp) as [_ Hlen]. unfold unlisted in Hu.
  rewrite decide_False in Hit by naive_solver.
  pose proof (lists_ok_update h F F' p s s Hok Hp Hsame Hu Hu' Hit Hlen (lk_class _ _ Hok _ _ Hp)) as Hok'.
  eapply lists_ok_frame; [..|exact Hok']; try done. simpl. by rewrite insert_id.
Qed.

(** [NewSpan]'s effect on the spans and the links. *)
Lemma lists_ok_new h F p s : lists_ok h F → spans h !! p = None → p ∉ F → 0 < p →
  span_iter s = None → 1 ≤ length s → sizeclass s = 0 →
  lists_ok (with_links (with_spans h (<[p := s]> (spans h))) (<[p := (0, 0)]> (span_links h)))
    ({[p]} ∪ F).
Proof.
  intros [K1 K2 K3 K4 K5 K6 K7] Hp HF Hpos Hit Hlen Hcl.
  assert (∀ loc q t, listed (<[p := s]> (spans h)) ({[p]} ∪ F) loc q t ↔ listed (spans h) F loc q t)
    as Hlist.
  { intros loc q t. unfold listed. destruct (decide (q = p)) as [->|Hq].
    - rewrite Hp. set_solver.
    - rewrite lookup_insert_ne by done. set_solver. }
  assert (∀ loc, wsum (pages_at ({[p]} ∪ F) loc) (<[p := s]> (spans h)) =
    wsum (pages_at F loc) (spans h)) as Hsum.
  { intros loc. rewrite wsum_insert by done.
    assert (pages_at ({[p]} ∪ F) loc p s = 0) as ->
      by (unfold pages_at; rewrite decide_False; [done|set_solver]).
    apply wsum_ext. intros q t Hq. apply pages_at_ext. set_solver. }
  split; simpl.
  - by apply small_new.
  - intros loc Hloc. change (large_set loc (with_links _ _)) with (large_set loc h).
    eapply large_change; [by apply K2|..]; intros q t Hl _; exists t;
      [split; [by apply Hlist|done]|split; [by apply Hlist in Hl|done]].
  - intros q t Hq. destruct (decide (q = p)) as [->|Hne].
    + rewrite lookup_insert_eq in Hq. injection Hq as <-. unfold iter_ok. rewrite Hit.
      case_decide; set_solver.
    + rewrite lookup_insert_ne in Hq by done. apply (iter_ok_ext F); [set_solver|]. by apply K3.
  - by rewrite Hsum.
  - by rewrite Hsum.
  - intros q t Hq. destruct (decide (q = p)) as [->|Hne].
    + rewrite lookup_insert_eq in Hq. by injection Hq as <-.
    + rewrite lookup_insert_ne in Hq by done. by apply K6.
  - intros q t [[<- <-]|[_ Hq]]%lookup_insert_Some; [done|by apply (K7 q)].
Qed.
(** [DeleteSpan]'s. *)
Lemma lists_ok_delete h F p s : lists_ok h F → spans h !! p = Some s → p ∈ F →
  lists_ok (with_links (with_spans h (delete p (spans h))) (delete p (span_links h))) (F ∖ {[p]}).
Proof.
  intros [K1 K2 K3 K4 K5 K6 K7] Hp HF.
  assert (∀ loc q t, listed (delete p (spans h)) (F ∖ {[p]}) loc q t ↔ listed (spans h) F loc q t)
    as Hlist.
  { intros loc q t. unfold listed. destruct (decide (q = p)) as [->|Hq].
    - rewrite lookup_delete_eq. naive_solver.
    - rewrite lookup_delete_ne by done. set_solver. }
  assert (∀ loc, wsum (pages_at (F ∖ {[p]}) loc) (delete p (spans h)) =
    wsum (pages_at F loc) (spans h)) as Hsum.
  { intros loc. rewrite (wsum_delete (pages_at F loc) (spans h) p s Hp).
    assert (pages_at F loc p s = 0) as -> by (unfold pages_at; rewrite decide_False; [done|naive_solver]).
    apply wsum_ext. intros q t [Hq _]%lookup_delete_Some. apply pages_at_ext. set_solver. }
  split; simpl.
  - by eapply small_delete.
  - intros loc Hloc. change (large_set loc (with_links _ _)) with (large_set loc h).
    eapply large_change; [by apply K2|..]; intros q t Hl _; exists t;
      [split; [by apply Hlist|done]|split; [by apply Hlist in Hl|done]].
  - intros q t [Hq Ht]%lookup_delete_Some. apply (iter_ok_ext F); [set_solver|]. by apply K3.
  - by rewrite Hsum.
  - by rewrite Hsum.
  - intros q t [Hq Ht]%lookup_delete_Some. by apply K6.
  - intros q t [Hq Ht]%lookup_delete_Some. by apply (K7 q).
Qed.

(** The byte counts when [p] goes on a list or off it. *)
Lemma page_bytes_eq n : 0 ≤ n < 2 ^ 50 → page_bytes n = 8192 * n.
Proof.
  intros Hn. unfold page_bytes, Prelude.size_t, kPageShift. rewrite Z.shiftl_mul_pow2 by lia.
  change (2 ^ 13) with 8192. rewrite Z.mod_small; lia.
Qed.
Definition count_pages (loc : Location) (b : Z) (t : Stats) : Stats :=
  if decide (loc = ON_NORMAL_FREELIST) then add_free t b else add_unmapped t b.
Lemma count_pages_bytes loc b t : free_loc loc →
  free_bytes (count_pages loc b t) =
    (if decide (loc = ON_NORMAL_FREELIST) then uadd (free_bytes t) b else free_bytes t) ∧
  unmapped_bytes (count_pages loc b t) =
    (if decide (loc = ON_RETURNED_FREELIST) then uadd (unmapped_bytes t) b else unmapped_bytes t) ∧
  system_bytes (count_pages loc b t) = system_bytes t ∧
  committed_bytes (count_pages loc b t) = committed_bytes t.
Proof. unfold count_pages, free_loc. destruct loc; [done|by repeat case_decide..]. Qed.
Lemma uadd_small a b : 0 ≤ a + b < 2 ^ 64 → uadd a b = a + b.
Proof. intros. unfold uadd, Prelude.size_t. by apply Z.mod_small. Qed.
Lemma usub_small a b : 0 ≤ a - b < 2 ^ 64 → usub a b = a - b.
Proof. intros. unfold usub, Prelude.size_t. by apply Z.mod_small. Qed.

Definition bytes_at (loc : Location) (t : Stats) : Z :=
  if decide (loc = ON_NORMAL_FREELIST) then free_bytes t else unmapped_bytes t.
Lemma lk_bytes h F loc : lists_ok h F → free_loc loc →
  bytes_at loc (stats_ h) = 8192 * wsum (pages_at F loc) (spans h).
Proof.
  intros Hok Hloc. unfold bytes_at, free_loc in *. destruct loc; [done|apply (lk_free _ _ Hok)|apply (lk_unmapped _ _ Hok)].
Qed.
End list_operations.

Section prepend_remove.
Context {P SA TA W : Type}.
Abbreviation Heap := (PageHeap P SA TA W).
Implicit Types (h : Heap) (Q : () → Heap → Prop).

Lemma set_iter_id s : set_iter s (span_iter s) = s.
Proof. by destruct s. Qed.
Lemma with_spans_id h : with_spans h (spans h) = h.
Proof. by destruct h. Qed.
Lemma pages_at_iter F loc p s it : pages_at F loc p (set_iter s it) = pages_at F loc p s.
Proof. done. Qed.

Lemma sum_prepend m F p s it loc : m !! p = Some s → p ∈ F →
  wsum (pages_at (F ∖ {[p]}) loc) (<[p := set_iter s it]> m) =
  wsum (pages_at F loc) m + (if decide (location s = loc) then length s else 0).
Proof.
  intros Hp HF. rewrite (pages_change F _ loc m p s) by (done || (intros q ?; set_solver)).
  rewrite pages_at_iter. unfold pages_at at 2 3. rewrite (decide_False (P := _ ∧ p ∉ F)) by naive_solver.
  repeat case_decide; try lia; exfalso; set_solver.
Qed.
Lemma sum_remove m F p s it loc : m !! p = Some s → p ∉ F →
  wsum (pages_at ({[p]} ∪ F) loc) (<[p := set_iter s it]> m) =
  wsum (pages_at F loc) m - (if decide (location s = loc) then length s else 0).
Proof.
  intros Hp HF. rewrite (pages_change F _ loc m p s) by (done || (intros q ?; set_solver)).
  rewrite pages_at_iter. unfold pages_at at 2 3.
  rewrite (decide_False (P := _ ∧ p ∉ {[p]} ∪ F)) by set_solver.
  repeat case_decide; try lia; exfalso; naive_solver.
Qed.
Lemma large_set_other loc h loc' l : free_loc loc → free_loc loc' →
  large_set loc (with_large_set loc' h l) = if decide (loc = loc') then l else large_set loc h.
Proof. unfold free_loc, large_set, with_large_set. destruct loc, loc'; try done. Qed.
Lemma listed_iter m F F' p s it loc q t :
  m !! p = Some s → q ≠ p → (q ∈ F ↔ q ∈ F') →
  listed (<[p := set_iter s it]> m) F' loc q t ↔ listed m F loc q t.
Proof. intros Hp Hq HF. unfold listed. rewrite lookup_insert_ne by done. naive_solver. Qed.

(** The large set that gains [p]. *)
Lemma large_insert m F p s it loc set' set :
  m !! p = Some s → p ∈ F → location s = loc → kMaxPages < length s →
  large_ok m F loc set → set_ordered m set' →
  (∀ y, y ∈ set' ↔ y = (p, length s) ∨ y ∈ set) →
  large_ok (<[p := set_iter s it]> m) (F ∖ {[p]}) loc set'.
Proof.
  intros Hp HF Hloc Hk [Hord Hin] Hord' Hin'. split.
  - eapply set_ordered_ext; [|exact Hord']. intros x t _ Hx. destruct (decide (x.1 = p)) as [E|Hne].
    + rewrite E in *. rewrite lookup_insert_eq. eexists. split; [done|]. simpl. congruence.
    + rewrite lookup_insert_ne by done. by exists t.
  - intros x. rewrite Hin', Hin. destruct (decide (x.1 = p)) as [E|Hne].
    + split.
      * intros [->|(t & (_ & _ & ?) & _)]; [|by rewrite E in *]. exists (set_iter s it).
        split; [|done]. split; [apply lookup_insert_eq|]. set_solver.
      * intros (t & (Ht & _) & Hlen & _). left. rewrite E, lookup_insert_eq in Ht.
        injection Ht as <-. destruct x; simpl in *. by subst.
    + setoid_rewrite (listed_iter m F (F ∖ {[p]}) p s it loc x.1); [|done|done|set_solver].
      split; [intros [->|?]; done|by right].
Qed.
(** The large set that loses [p]. *)
Lemma large_erase m F p s it loc set :
  m !! p = Some s → p ∉ F → large_ok m F loc set →
  large_ok (<[p := set_iter s it]> m) ({[p]} ∪ F) loc (set_erase (p, length s) set).
Proof.
  intros Hp HF [Hord Hin]. destruct (set_erase_spec m (p, length s) set Hord) as [Hord' Hin']. split.
  - eapply set_ordered_ext; [|exact Hord']. intros x t _ Hx. destruct (decide (x.1 = p)) as [E|Hne].
    + rewrite E in *. rewrite lookup_insert_eq. eexists. split; [done|]. simpl. congruence.
    + rewrite lookup_insert_ne by done. by exists t.
  - intros x. rewrite Hin', Hin. destruct (decide (x.1 = p)) as [E|Hne].
    + split.
      * intros [Hx (t & (Ht & _) & Hlen & _)]. exfalso. apply Hx. rewrite E, Hp in Ht.
        injection Ht as <-. destruct x; simpl in *. by subst.
      * intros (t & (_ & _ & Hn) & _). exfalso. set_solver.
    + setoid_rewrite (listed_iter m F ({[p]} ∪ F) p s it loc x.1); [|done|done|set_solver].
      split; [by intros [_ ?]|]. intros ?. split; [intros ->; done|done].
Qed.
(** Another large set, and the small lists, when a large span moves. *)
Lemma large_same m F F' p s it loc set :
  m !! p = Some s → same_but F F' p → location s ≠ loc ∨ length s ≤ kMaxPages →
  large_ok m F loc set → large_ok (<[p := set_iter s it]> m) F' loc set.
Proof.
  intros Hp Hsame Hor Hok. eapply large_change; [exact Hok|..]; intros q t (Hq & Hl & HF) Hk;
    (destruct (decide (q = p)) as [->|Hne]; [exfalso|]).
  - assert (t = s) as -> by congruence. destruct Hor; [done|lia].
  - exists t. split; [|done]. apply (listed_iter m F); [done|done|by apply Hsame|done].
  - rewrite lookup_insert_eq in Hq. injection Hq as <-. simpl in *. destruct Hor; [done|lia].
  - exists t. split; [|done]. apply (listed_iter m F F' p s it); [done|done|by apply Hsame|done].
Qed.
Lemma small_same m F F' p s it st :
  m !! p = Some s → same_but F F' p → kMaxPages < length s →
  small_ok m F st → small_ok (<[p := set_iter s it]> m) F' st.
Proof.
  intros Hp Hsame Hk Hok. eapply small_change; [exact Hok|..].
  - intros loc i q Hloc Hi. unfold in_small. destruct (decide (q = p)) as [->|Hne].
    + unfold listed. rewrite lookup_insert_eq. split; intros (t & (Ht & _ & _) & Hlen).
      * injection Ht as <-. simpl in Hlen. lia.
      * assert (t = s) as -> by congruence. lia.
    + by setoid_rewrite (listed_iter m F F' p s it loc q _ Hp Hne (Hsame q Hne)).
  - intros q. unfold in_none. destruct (decide (q = p)) as [->|Hne].
    + rewrite lookup_insert_eq. split; intros _; [exists s|eexists]; naive_solver.
    + rewrite lookup_insert_ne by done. specialize (Hsame q Hne). naive_solver.
Qed.

(** What [p] moving on or off the lists leaves to show. *)
Lemma lists_ok_moved h h' F F' p s it b :
  lists_ok h F → spans h !! p = Some s → same_but F F' p → free_loc (location s) →
  spans h' = <[p := set_iter s it]> (spans h) →
  small_ok (spans h') F' (span_links h') →
  large_ok (spans h') F' (location s) (large_set (location s) h') →
  (∀ loc, free_loc loc → loc ≠ location s → large_set loc h' = large_set loc h) →
  iter_ok F' p (set_iter s it) →
  stats_ h' = count_pages (location s) b (stats_ h) →
  uadd (bytes_at (location s) (stats_ h)) b =
    8192 * wsum (pages_at F' (location s)) (spans h') →
  (∀ loc, loc ≠ location s →
     wsum (pages_at F' loc) (spans h') = wsum (pages_at F loc) (spans h)) →
  lists_ok h' F'.
Proof.
  intros [K1 K2 K3 K4 K5 K6 K7] Hp Hsame Hloc Esp Hsm Hlg Hlo Hit Est Hb Hother.
  destruct (count_pages_bytes (location s) b (stats_ h) Hloc) as (B1 & B2 & _).
  split; [done| | | | | |].
  - intros loc Hl. destruct (decide (loc = location s)) as [->|Hne]; [done|].
    rewrite Esp, Hlo by done. apply large_same with (F := F); [done|done|left; congruence|by apply K2].
  - intros q t Hq. rewrite Esp in Hq. destruct (decide (q = p)) as [->|Hne].
    + rewrite lookup_insert_eq in Hq. by injection Hq as <-.
    + rewrite lookup_insert_ne in Hq by done. apply (iter_ok_ext F); [by apply Hsame|]. by apply K3.
  - rewrite Est, B1. unfold bytes_at in Hb. destruct (decide (location s = ON_NORMAL_FREELIST)) as [E|E].
    + rewrite Hb. by rewrite E.
    + rewrite K4, Hother; [done|congruence].
  - rewrite Est, B2. unfold bytes_at in Hb. destruct (decide (location s = ON_RETURNED_FREELIST)) as [E|E].
    + rewrite decide_False in Hb by (rewrite E; done). rewrite Hb. by rewrite E.
    + rewrite K5, Hother; [done|congruence].
  - intros q t Hq. rewrite Esp in Hq. destruct (decide (q = p)) as [->|Hne].
    + rewrite lookup_insert_eq in Hq. injection Hq as <-. by apply (K6 p s).
    + rewrite lookup_insert_ne in Hq by done. by apply K6.
  - intros q t Hq. rewrite Esp in Hq. apply lookup_insert_Some in Hq as [[<- <-]|[_ Hq]];
      [by apply (K7 p s)|by apply (K7 q)].
Qed.

(** The bytes counted at each location after a span has moved. *)
Definition counts_moved h h' (loc : Location) (b : Z) : Prop :=
  ∀ l, free_loc l → bytes_at l (stats_ h') = bytes_at l (stats_ h) + (if decide (loc = l) then b else 0).
Lemma counts_moved_intro h h' F F' p s it d :
  lists_ok h F → lists_ok h' F' → spans h' = <[p := set_iter s it]> (spans h) →
  (∀ loc, wsum (pages_at F' loc) (<[p := set_iter s it]> (spans h)) =
     wsum (pages_at F loc) (spans h) + (if decide (location s = loc) then d else 0)) →
  counts_moved h h' (location s) (8192 * d).
Proof.
  intros Hok Hok' Esp Hsum l Hl. rewrite (lk_bytes _ _ _ Hok' Hl), (lk_bytes _ _ _ Hok Hl), Esp, Hsum.
  case_decide; lia.
Qed.

Lemma wp_count_pages ab loc b Q h :
  Q tt (with_stats h (count_pages loc b (stats_ h))) →
  wp ab (if decide (loc = ON_NORMAL_FREELIST) then on_stats (λ t, add_free t b)
         else on_stats (λ t, add_unmapped t b)) Q h.
Proof. unfold count_pages. by destruct (decide (loc = ON_NORMAL_FREELIST)). Qed.

Lemma wp_PrependToFreeList ab h F p s Q :
  lists_ok h F → spans h !! p = Some s → p ∈ F → free_loc (location s) → length s < 2 ^ 50 →
  (∀ q t, listed (spans h) F (location s) q t → start t ≠ start s) →
  bytes_at (location s) (stats_ h) + 8192 * length s < 2 ^ 64 →
  (∀ h' it, lists_only h h' → lists_ok h' (F ∖ {[p]}) →
     spans h' = <[p := set_iter s it]> (spans h) →
     counts_moved h h' (location s) (8192 * length s) → Q tt h') →
  wp ab (PrependToFreeList p) Q h.
Proof.
  intros Hok Hp HF Hloc Hbig Hstart Hbytes HQ.
  pose proof (lk_span _ _ Hok _ _ Hp) as [Hpos Hlen]. pose proof (lk_iter _ _ Hok _ _ Hp) as Hit.
  unfold iter_ok in Hit. rewrite decide_False in Hit by naive_solver.
  assert (same_but F (F ∖ {[p]}) p) as Hsame by (intros q ?; set_solver).
  pose proof (lk_bytes _ _ _ Hok Hloc) as Hb.
  assert (0 ≤ bytes_at (location s) (stats_ h)) as Hb0.
  { rewrite Hb. pose proof (wsum_nonneg (pages_at F (location s)) (spans h)) as Hn.
    assert (0 ≤ wsum (pages_at F (location s)) (spans h)); [apply Hn|lia].
    intros q t Hq. apply pages_at_nonneg. by apply (lk_span _ _ Hok q). }
  set (b := page_bytes (length s)). assert (b = 8192 * length s) as Eb by (apply page_bytes_eq; lia).
  destruct (count_pages_bytes (location s) b (stats_ h) Hloc) as (_ & _ & Bs & Bc).
  assert (∀ h' it, lists_only h h' → spans h' = <[p := set_iter s it]> (spans h) →
    small_ok (spans h') (F ∖ {[p]}) (span_links h') →
    large_ok (spans h') (F ∖ {[p]}) (location s) (large_set (location s) h') →
    (∀ loc, free_loc loc → loc ≠ location s → large_set loc h' = large_set loc h) →
    iter_ok (F ∖ {[p]}) p (set_iter s it) → stats_ h' = count_pages (location s) b (stats_ h) →
    Q tt h') as Hfin.
  { intros h' it Hlo Esp Hsm Hlg Hls Hit' Est.
    assert (lists_ok h' (F ∖ {[p]})) as Hok'.
    { eapply lists_ok_moved; try done.
      - rewrite uadd_small, Hb, Esp, sum_prepend, decide_True by (done || lia). lia.
      - intros loc Hne. rewrite Esp, sum_prepend, decide_False by done. lia. }
    eapply HQ; try done. eapply counts_moved_intro; [exact Hok|exact Hok'|done|].
    intros loc. by apply sum_prepend. }
  unfold PrependToFreeList. apply wp_bind, (wp_load _ _ _ _ _ Hp).
  apply wp_bind, wp_ASSERT; [by apply negb_true_iff, bool_decide_eq_false|].
  apply wp_bind, wp_count_pages.
  destruct (Z.ltb_spec kMaxPages (length s)) as [Hk|Hk].
  - apply wp_bind, wp_gets, wp_bind, wp_gets. cbn [spans with_stats].
    change (large_set (location s) (with_stats h _)) with (large_set (location s) h).
    destruct (lk_large _ _ Hok (location s) Hloc) as [Hord Hin].
    destruct (set_insert_spec (spans h) (p, length s) (large_set (location s) h) Hord)
      as (set' & E & Hord' & Hin'); [by exists s| |].
    { intros y (t & Ht & Hty & _)%Hin. unfold key_lt, start_of. simpl. rewrite Hp.
      pose proof Ht as (-> & _). specialize (Hstart _ _ Ht). lia. }
    apply wp_bind. eapply wp_lift; [exact E|]. apply wp_bind, wp_act, wp_bind, wp_ASSERT; [done|].
    set (h1 := with_large_set _ _ _).
    assert (spans h1 = spans h) as E1 by (unfold h1, with_large_set; by case_decide).
    apply wp_bind, (wp_load _ _ s); [by rewrite E1|]. apply wp_bind, wp_ASSERT; [by rewrite Hit|].
    apply (wp_store _ _ _ s); [by rewrite E1|]. rewrite E1.
    apply (Hfin _ (Some (p, length s))); subst h1.
    + unfold with_large_set. case_decide; by split.
    + done.
    + simpl. replace (span_links (with_large_set _ _ _)) with (span_links h)
        by (unfold with_large_set; by case_decide).
      apply small_same with (F := F); [done..|]. apply (lk_small _ _ Hok).
    + change (large_set _ (with_spans ?x _)) with (large_set (location s) x).
      rewrite large_set_other, decide_True by done. simpl.
      by eapply large_insert; [| | | |apply (lk_large _ _ Hok)|..].
    + intros loc Hl Hne. change (large_set _ (with_spans ?x _)) with (large_set loc x).
      by rewrite large_set_other, decide_False by done.
    + unfold iter_ok. simpl. rewrite decide_True; [done|]. set_solver.
    + simpl. unfold with_large_set. by case_decide.
  - destruct (small_prepend _ _ _ (lk_small _ _ Hok) p s Hp HF Hloc ltac:(lia)) as (l' & E & Hsm).
    eapply wp_on_links; [exact E|]. 
    assert (<[p := set_iter s None]> (spans h) = spans h) as E1.
    { rewrite <- Hit, set_iter_id. by apply insert_id. }
    apply (Hfin _ None).
    + by split.
    + by rewrite E1.
    + done.
    + change (large_set _ (with_links _ _)) with (large_set (location s) h). simpl. rewrite <- E1.
      apply large_same with (F := F); [done..|by right|by apply (lk_large _ _ Hok)].
    + done.
    + unfold iter_ok. simpl. rewrite decide_False; [done|]. lia.
    + done.
Qed.

Lemma lists_ok_length_sum h F loc p s : lists_ok h F → listed (spans h) F loc p s →
  length s ≤ wsum (pages_at F loc) (spans h).
Proof.
  intros Hok (Hp & Hl & HF). rewrite (wsum_delete _ _ _ _ Hp), pages_listed by done.
  assert (0 ≤ wsum (pages_at F loc) (delete p (spans h))); [|lia]. apply wsum_nonneg.
  intros q t [_ Hq]%lookup_delete_Some. apply pages_at_nonneg. by apply (lk_span _ _ Hok q).
Qed.

Lemma wp_RemoveFromFreeList ab h F p s Q :
  lists_ok h F → listed (spans h) F (location s) p s → free_loc (location s) →
  bytes_at (location s) (stats_ h) < 2 ^ 63 →
  (∀ h', lists_only h h' → lists_ok h' ({[p]} ∪ F) →
     spans h' = <[p := set_iter s None]> (spans h) →
     counts_moved h h' (location s) (8192 * - length s) → Q tt h') →
  wp ab (RemoveFromFreeList p) Q h.
Proof.
  intros Hok Hlist Hloc Hbytes HQ. pose proof Hlist as (Hp & _ & HF).
  pose proof (lk_span _ _ Hok _ _ Hp) as [Hpos Hlen]. pose proof (lk_iter _ _ Hok _ _ Hp) as Hit.
  assert (same_but F ({[p]} ∪ F) p) as Hsame by (intros q ?; set_solver).
  pose proof (lk_bytes _ _ _ Hok Hloc) as Hb. pose proof (lists_ok_length_sum _ _ _ _ _ Hok Hlist).
  set (b := - page_bytes (length s)).
  assert (b = - (8192 * length s)) as Eb by (unfold b; rewrite page_bytes_eq; lia).
  destruct (count_pages_bytes (location s) b (stats_ h) Hloc) as (_ & _ & Bs & Bc).
  assert (∀ h', lists_only h h' → spans h' = <[p := set_iter s None]> (spans h) →
    small_ok (spans h') ({[p]} ∪ F) (span_links h') →
    large_ok (spans h') ({[p]} ∪ F) (location s) (large_set (location s) h') →
    (∀ loc, free_loc loc → loc ≠ location s → large_set loc h' = large_set loc h) →
    stats_ h' = count_pages (location s) b (stats_ h) → Q tt h') as Hfin.
  { intros h' Hlo Esp Hsm Hlg Hls Est.
    assert (lists_ok h' ({[p]} ∪ F)) as Hok'.
    { eapply lists_ok_moved; try done.
      - unfold iter_ok. rewrite decide_False; [done|]. set_solver.
      - rewrite uadd_small, Hb, Esp, sum_remove, decide_True by (done || lia). lia.
      - intros loc Hne. rewrite Esp, sum_remove, decide_False by done. lia. }
    eapply HQ; try done. eapply counts_moved_intro; [exact Hok|exact Hok'|done|].
    intros loc. rewrite sum_remove by done. case_decide; lia. }
  unfold RemoveFromFreeList. apply wp_bind, (wp_load _ _ _ _ _ Hp).
  apply wp_bind, wp_ASSERT; [by apply negb_true_iff, bool_decide_eq_false|].
  apply wp_bind, wp_count_pages. unfold iter_ok in Hit.
  destruct (Z.ltb_spec kMaxPages (length s)) as [Hk|Hk].
  - rewrite decide_True in Hit by done.
    unfold ExtractSpanSetIterator. do 2 apply wp_bind. apply (wp_load _ _ s); [done|]. rewrite Hit.
    apply wp_bind, (wp_store _ _ _ s); [done|]. apply wp_ret. cbn [spans with_stats].
    apply wp_bind, wp_ASSERT; [by apply Z.eqb_refl|]. apply wp_bind, wp_gets, wp_bind, wp_gets.
    cbn [spans with_spans]. change (large_set (location s) (with_spans (with_stats h _) _)) with (large_set (location s) h).
    pose proof (lk_large _ _ Hok (location s) Hloc) as Hlg. pose proof Hlg as [Hord Hin].
    assert (set_find (<[p := set_iter s None]> (spans h)) (p, length s) (large_set (location s) h) =
      Ok (Some (p, length s))) as E.
    { apply set_find_spec.
      - eapply set_ordered_ext; [|exact Hord]. intros x t _ Hx.
        destruct (decide (x.1 = p)) as [Ex|Hne].
        + rewrite Ex in *. rewrite lookup_insert_eq. eexists. split; [done|]. simpl. congruence.
        + rewrite lookup_insert_ne by done. by exists t.
      - apply Hin. by exists s. }
    apply wp_bind. eapply wp_lift; [exact E|]. apply wp_bind, wp_ASSERT; [by apply bool_decide_eq_true|].
    apply wp_act. apply Hfin.
    + unfold with_large_set. case_decide; by split.
    + unfold with_large_set. by case_decide.
    + unfold with_large_set. case_decide; simpl; (apply small_same with (F := F); [done..|];
        apply (lk_small _ _ Hok)).
    + rewrite large_set_other, decide_True by done. replace (spans (with_large_set _ _ _)) with (<[p := set_iter s None]> (spans h))
        by (unfold with_large_set; by case_decide). by apply large_erase.
    + intros loc Hl Hne. by rewrite large_set_other, decide_False by done.
    + unfold with_large_set. by case_decide.
  - destruct (small_remove _ _ _ (lk_small _ _ Hok) _ p s Hlist Hloc ltac:(lia)) as (l' & E & Hsm).
    eapply wp_on_links; [exact E|]. rewrite decide_False in Hit by lia.
    assert (<[p := set_iter s None]> (spans h) = spans h) as E1.
    { rewrite <- Hit, set_iter_id. by apply insert_id. }
    apply Hfin.
    + by split.
    + by rewrite E1.
    + done.
    + change (large_set _ (with_links _ _)) with (large_set (location s) h). simpl. rewrite <- E1.
      apply large_same with (F := F); [done..|by right|by apply (lk_large _ _ Hok)].
    + done.
    + done.
Qed.
End prepend_remove.
