(* ===== verification/SpanGeometry.v ===== *)
(** * Spans and the page map

    The spans of the page heap are disjoint runs of pages whose first and last
    pages map to them, as do all pages of those in use with a size class, and pages in
    no span map to null; so the page before a span
    and the page after it lead to its neighbours.  Merging two neighbours,
    splitting a span and adding one keep this. *)
From stdpp Require Import base numbers list option gmap sets fin_maps fin_map_dom.
From Stdlib Require Import ZArith Lia.
From S2P Require Import Prelude SizeMap SpanList PageMap SystemAlloc MetaData PageHeap SpanSet FreeLists.
Open Scope Z_scope.

Definition covers (s : Span) (x : Z) : Prop := start s ≤ x < start s + length s.
#[global] Instance covers_dec s x : Decision (covers s x).
Proof. unfold covers. apply _. Defined.

(** A span in use with a size class: all its pages map to it. *)
Definition classed (s : Span) : Prop := location s = IN_USE ∧ sizeclass s ≠ 0.

Section geometry.
Context {P W : Type} `{SysAlloc W} `{!SysAllocLaws W} `{MetaData W} `{!MetaDataLaws W}.
Context `{PageMap P W} `{!PageMapLaws P W}.
Implicit Types (m : gmap Z Span) (pm : P).

Record geom m pm : Prop := {
  g_wf : pm_wf pm;
  g_range p s : m !! p = Some s →
    0 < p ∧ 1 ≤ start s ∧ 1 ≤ length s ∧ 8192 * (start s + length s) ≤ 2 ^ sa_bits (Y := W);
  g_disjoint p q s t x : m !! p = Some s → m !! q = Some t → covers s x → covers t x → p = q;
  g_first p s : m !! p = Some s → pm_at pm (start s) = p;
  g_last p s : m !! p = Some s → pm_at pm (start s + length s - 1) = p;
  g_out x : (∀ p s, m !! p = Some s → ¬ covers s x) → pm_at pm x = 0;
  g_has p s x : m !! p = Some s → start s - 1 ≤ x ≤ start s + length s → pm_has pm x;
  g_inner p s x : m !! p = Some s → classed s → covers s x → pm_at pm x = p;
}.

Lemma covered_dec m x : (∃ p s, m !! p = Some s ∧ covers s x) ∨ (∀ p s, m !! p = Some s → ¬ covers s x).
Proof.
  destruct (decide (map_Exists (λ _ s, covers s x) m)) as [(p & s & ? & ?)|Hn]; [left; eauto|right].
  intros p s Hp Hc. apply Hn. by exists p, s.
Qed.

(** The neighbours of a span. *)
Lemma geom_prev m pm p s : geom m pm → m !! p = Some s →
  pm_at pm (start s - 1) = 0 ∨
  ∃ t, m !! pm_at pm (start s - 1) = Some t ∧ start t + length t = start s ∧
    pm_at pm (start s - 1) ≠ p.
Proof.
  intros Hg Hp. destruct (g_range _ _ Hg _ _ Hp) as (_ & _ & Hs & _).
  destruct (covered_dec m (start s - 1)) as [(q & t & Hq & Hc)|Hn]; [right|left; by apply (g_out _ _ Hg)].
  assert (p ≠ q) as Hne by (intros ->; assert (t = s) as -> by congruence; unfold covers in Hc; lia).
  assert (start t + length t = start s) as E.
  { destruct (Z.lt_total (start t + length t) (start s)) as [|[|]]; [unfold covers in Hc; lia|done|].
    exfalso. apply Hne, (g_disjoint _ _ Hg p q s t (start s)); [done..| |]; unfold covers in *; lia. }
  replace (start s - 1) with (start t + length t - 1) by lia. rewrite (g_last _ _ Hg _ _ Hq).
  by exists t.
Qed.
Lemma geom_next m pm p s : geom m pm → m !! p = Some s →
  pm_at pm (start s + length s) = 0 ∨
  ∃ t, m !! pm_at pm (start s + length s) = Some t ∧ start t = start s + length s ∧
    pm_at pm (start s + length s) ≠ p.
Proof.
  intros Hg Hp. destruct (g_range _ _ Hg _ _ Hp) as (_ & _ & Hs & _).
  destruct (covered_dec m (start s + length s)) as [(q & t & Hq & Hc)|Hn];
    [right|left; by apply (g_out _ _ Hg)].
  assert (p ≠ q) as Hne by (intros ->; assert (t = s) as -> by congruence; unfold covers in Hc; lia).
  assert (start t = start s + length s) as E.
  { destruct (Z.lt_total (start t) (start s + length s)) as [|[|]]; [|done|unfold covers in Hc; lia].
    exfalso. apply Hne, (g_disjoint _ _ Hg p q s t (start s + length s - 1));
      [done..| |]; unfold covers in *; lia. }
  rewrite <- E, (g_first _ _ Hg _ _ Hq). by exists t.
Qed.

(** Fields other than [start] and [length] do not matter. *)
Lemma geom_ext m m' pm :
  (∀ p s', m' !! p = Some s' →
     ∃ s, m !! p = Some s ∧ start s' = start s ∧ length s' = length s ∧ (classed s' → classed s)) →
  (∀ p s, m !! p = Some s → ∃ s', m' !! p = Some s' ∧ start s' = start s ∧ length s' = length s) →
  geom m pm → geom m' pm.
Proof.
  intros HA HB [G1 G2 G3 G4 G5 G6 G7 G8]. unfold covers in *. split; [done|..].
  - intros p s' Hp. destruct (HA _ _ Hp) as (s & Hs & E1 & E2 & _). rewrite ?E1, ?E2. by apply G2.
  - intros p q s' t' x Hp Hq Hc Hc'. destruct (HA _ _ Hp) as (s & Hs & E1 & E2 & _).
    destruct (HA _ _ Hq) as (t & Ht & E3 & E4 & _). apply (G3 p q s t x); try done; unfold covers in *; lia.
  - intros p s' Hp. destruct (HA _ _ Hp) as (s & Hs & E1 & E2 & _). rewrite ?E1, ?E2. by apply G4.
  - intros p s' Hp. destruct (HA _ _ Hp) as (s & Hs & E1 & E2 & _). rewrite ?E1, ?E2. by apply G5.
  - intros x Hn. apply G6. intros p s Hp Hc. destruct (HB _ _ Hp) as (s' & Hs' & E1 & E2).
    apply (Hn p s' Hs'). unfold covers in *. lia.
  - intros p s' x Hp Hx. destruct (HA _ _ Hp) as (s & Hs & E1 & E2 & _). apply (G7 p s x Hs). lia.
  - intros p s' x Hp Hcl Hx. destruct (HA _ _ Hp) as (s & Hs & E1 & E2 & Hc).
    apply (G8 p s); [done|by apply Hc|]. unfold covers in *. lia.
Qed.
Lemma geom_update m pm p s s' : m !! p = Some s → start s' = start s → length s' = length s →
  (classed s' → classed s) → geom m pm → geom (<[p := s']> m) pm.
Proof.
  intros Hp E1 E2 Hcl. apply geom_ext; intros q t Hq; destruct (decide (q = p)) as [->|Hne].
  - rewrite lookup_insert_eq in Hq. injection Hq as <-. by exists s.
  - rewrite lookup_insert_ne in Hq by done. by exists t.
  - exists s'. rewrite lookup_insert_eq. assert (t = s) as -> by congruence. done.
  - exists t. by rewrite lookup_insert_ne.
Qed.

(** The pages a change of the map concerns. *)
Definition map_step pm pm' : Prop := pm_wf pm' ∧ ∀ x, pm_has pm x → pm_has pm' x.

(** Two neighbours become one span: the far end of the other one maps to it. *)
Lemma geom_absorb m pm pm' p q s t s' far :
  geom m pm → m !! p = Some s → m !! q = Some t → p ≠ q →
  (start t + length t = start s ∧ start s' = start t ∧ far = start t) ∨
  (start s + length s = start t ∧ start s' = start s ∧ far = start t + length t - 1) →
  length s' = length s + length t → ¬ classed s' → map_step pm pm' →
  (∀ x, pm_at pm' x = if decide (x = far) then p else pm_at pm x) →
  geom (<[p := s']> (delete q m)) pm'.
Proof.
  intros [G1 G2 G3 G4 G5 G6 G7 G8] Hp Hq Hne Hends Hlen Hcl [Hwf Hhas] Hat.
  pose proof (G2 _ _ Hp) as (? & ? & ? & ?). pose proof (G2 _ _ Hq) as (? & ? & ? & ?).
  assert (∀ r u, <[p:=s']> (delete q m) !! r = Some u →
    (r = p ∧ u = s') ∨ (r ≠ p ∧ r ≠ q ∧ m !! r = Some u)) as Hin.
  { intros r u Hr. apply lookup_insert_Some in Hr as [[-> ->]|[? Hr]]; [by left|right].
    apply lookup_delete_Some in Hr as [? Hr]. done. }
  assert (∀ x, covers s' x ↔ covers s x ∨ covers t x) as Hcov.
  { intros x. unfold covers. lia. }
  assert (covers t far) as Hfar by (unfold covers; lia).
  assert (∀ r u, r ≠ p → r ≠ q → m !! r = Some u → ∀ x, covers s' x → covers u x → False) as Hdis.
  { intros r u Hrp Hrq Hr x [Hc|Hc]%Hcov Hu; [by apply Hrp, (G3 r p u s x)|by apply Hrq, (G3 r q u t x)]. }
  split; [done|..].
  - intros r u [[-> ->]|(Hrp & Hrq & Hr)]%Hin; [lia|by apply G2].
  - intros r1 r2 u1 u2 x [[-> ->]|(? & ? & Hr1)]%Hin [[-> ->]|(? & ? & Hr2)]%Hin Hc1 Hc2;
      [done|exfalso; by eapply Hdis|exfalso; by eapply Hdis|by eapply G3].
  - intros r u [[-> ->]|(Hrp & Hrq & Hr)]%Hin; rewrite Hat.
    + destruct Hends as [(? & -> & ->)|(? & -> & ->)]; [by rewrite decide_True|].
      case_decide; [done|by apply G4].
    + rewrite decide_False; [by apply G4|]. intros E.
      pose proof (G2 _ _ Hr). apply Hrq, (G3 r q u t far); [done..| |done]. unfold covers. lia.
  - intros r u [[-> ->]|(Hrp & Hrq & Hr)]%Hin; rewrite Hat.
    + destruct Hends as [(? & E & ->)|(? & E & ->)].
      * case_decide; [done|]. replace (start s' + length s' - 1) with (start s + length s - 1) by lia.
        by apply G5.
      * rewrite decide_True; [done|lia].
    + rewrite decide_False; [by apply G5|]. intros E.
      pose proof (G2 _ _ Hr). apply Hrq, (G3 r q u t far); [done..| |done]. unfold covers. lia.
  - intros x Hn. assert (x ≠ far) as Hx.
    { intros ->. apply (Hn p s'); [apply lookup_insert_eq|]. apply Hcov. by right. }
    rewrite Hat, decide_False by done. apply G6. intros r u Hr Hc.
    destruct (decide (r = p)) as [->|]; [|destruct (decide (r = q)) as [->|]].
    + assert (u = s) as -> by congruence. apply (Hn p s'); [apply lookup_insert_eq|]. apply Hcov. by left.
    + assert (u = t) as -> by congruence. apply (Hn p s'); [apply lookup_insert_eq|]. apply Hcov. by right.
    + apply (Hn r u); [|done]. by rewrite lookup_insert_ne, lookup_delete_ne.
  - intros r u x [[-> ->]|(Hrp & Hrq & Hr)]%Hin Hx; apply Hhas; [|by eapply G7].
    destruct (decide (start s - 1 ≤ x ≤ start s + length s)); [by apply (G7 p s)|].
    apply (G7 q t); [done|lia].
  - intros r u x [[-> ->]|(Hrp & Hrq & Hr)]%Hin Hu Hx; [done|]. rewrite Hat, decide_False; [by eapply G8|].
    intros ->. by apply Hrq, (G3 r q u t far).
Qed.

(** A span gives its pages from the [n]th on to a new one. *)
Lemma geom_split m pm pm' p q s t s' n :
  geom m pm → m !! p = Some s → m !! q = None → 0 < q → 0 < n < length s →
  start s' = start s → length s' = n → start t = start s + n → length t = length s - n →
  ¬ classed s' → ¬ classed t → map_step pm pm' →
  (∀ x, pm_at pm' x = if decide (x = start s + n - 1) then p
     else if decide (x = start t ∨ x = start t + length t - 1) then q else pm_at pm x) →
  geom (<[p := s']> (<[q := t]> m)) pm'.
Proof.
  intros [G1 G2 G3 G4 G5 G6 G7 G8] Hp Hq Hqp Hn Es1 Es2 Et1 Et2 Hcs Hct [Hwf Hhas] Hat.
  pose proof (G2 _ _ Hp) as (? & ? & ? & ?). assert (p ≠ q) as Hne by congruence.
  assert (∀ r u, <[p:=s']> (<[q:=t]> m) !! r = Some u →
    (r = p ∧ u = s') ∨ (r = q ∧ u = t) ∨ (r ≠ p ∧ r ≠ q ∧ m !! r = Some u)) as Hin.
  { intros r u Hr. apply lookup_insert_Some in Hr as [[-> ->]|[? Hr]]; [by left|right].
    apply lookup_insert_Some in Hr as [[-> ->]|[? Hr]]; [by left|by right]. }
  assert (∀ x, covers s x ↔ covers s' x ∨ covers t x) as Hcov by (intros x; unfold covers; lia).
  assert (∀ r u, r ≠ p → m !! r = Some u → ∀ x, covers s x → covers u x → False) as Hdis.
  { intros r u Hrp Hr x Hc Hu. by apply Hrp, (G3 r p u s x). }
  assert (∀ r u, r ≠ p → m !! r = Some u → ∀ x, covers u x → pm_at pm' x = pm_at pm x) as Hold.
  { intros r u Hr1 Hr x Hx. rewrite Hat, !decide_False; [done|..]; intros Hx';
      apply (Hdis r u Hr1 Hr x); try done; unfold covers; lia. }
  split; [done|..].
  - intros r u [[-> ->]|[[-> ->]|(Hrp & Hrq & Hr)]]%Hin; [lia|lia|by apply G2].
  - intros r1 r2 u1 u2 x Hr1 Hr2 Hc1 Hc2.
    apply Hin in Hr1 as [[-> ->]|[[-> ->]|(? & ? & Hr1)]];
      apply Hin in Hr2 as [[-> ->]|[[-> ->]|(? & ? & Hr2)]]; try done;
      try (exfalso; unfold covers in *; lia); try (by eapply G3);
      exfalso; (eapply Hdis; [|done| |done]; [done|]; apply Hcov; auto).
  - intros r u [[-> ->]|[[-> ->]|(Hrp & Hrq & Hr)]]%Hin.
    + rewrite Hat, Es1. case_decide; [done|]. rewrite decide_False by lia. by apply G4.
    + rewrite Hat, decide_False, decide_True; [done|lia|lia].
    + pose proof (G2 _ _ Hr). erewrite Hold; [by apply G4|exact Hrp|exact Hr|unfold covers; lia].
  - intros r u [[-> ->]|[[-> ->]|(Hrp & Hrq & Hr)]]%Hin.
    + rewrite Hat, decide_True; [done|lia].
    + rewrite Hat, decide_False, decide_True; [done|lia|lia].
    + pose proof (G2 _ _ Hr). erewrite Hold; [by apply G5|exact Hrp|exact Hr|unfold covers; lia].
  - intros x Hx. assert (¬ covers s x) as Hxs.
    { intros [Hc|Hc]%Hcov; [apply (Hx p s')|apply (Hx q t)]; try done; [apply lookup_insert_eq|].
      rewrite lookup_insert_ne by done. apply lookup_insert_eq. }
    rewrite Hat, !decide_False by (unfold covers in Hxs; lia). apply G6. intros r u Hr Hc.
    destruct (decide (r = p)) as [->|]; [congruence|]. apply (Hx r u); [|done].
    rewrite !lookup_insert_ne; [done|congruence|done].
  - intros r u x [[-> ->]|[[-> ->]|(Hrp & Hrq & Hr)]]%Hin Hx; apply Hhas; [apply (G7 p s); [done|lia]..|].
    by eapply G7.
  - intros r u x [[-> ->]|[[-> ->]|(Hrp & Hrq & Hr)]]%Hin Hu Hx; [done|done|].
    rewrite (Hold r u Hrp Hr x Hx). by eapply G8.
Qed.

(** A span on pages that no span has. *)
Lemma geom_add m pm pm' p s :
  geom m pm → m !! p = None → 0 < p → 1 ≤ start s → 1 ≤ length s →
  8192 * (start s + length s) ≤ 2 ^ sa_bits (Y := W) →
  (∀ q t x, m !! q = Some t → covers s x → covers t x → False) → ¬ classed s →
  map_step pm pm' → (∀ x, start s - 1 ≤ x ≤ start s + length s → pm_has pm' x) →
  (∀ x, pm_at pm' x = if decide (x = start s ∨ x = start s + length s - 1) then p else pm_at pm x) →
  geom (<[p := s]> m) pm'.
Proof.
  intros [G1 G2 G3 G4 G5 G6 G7 G8] Hp Hpos Hs Hl Hb Hfree Hcl [Hwf Hhas] Hnew Hat.
  assert (∀ q t x, m !! q = Some t → covers t x → pm_at pm' x = pm_at pm x) as Hold.
  { intros q t x Hq Hc. rewrite Hat, decide_False; [done|]. intros Hx.
    apply (Hfree q t x); try done. unfold covers. lia. }
  split; [done|..].
  - intros q t [[<- <-]|[? Hq]]%lookup_insert_Some; [lia|by apply G2].
  - intros q1 q2 t1 t2 x Hq1 Hq2 Hc1 Hc2.
    apply lookup_insert_Some in Hq1 as [[<- <-]|[? Hq1]]; apply lookup_insert_Some in Hq2 as [[<- <-]|[? Hq2]];
      [done|exfalso; by eapply Hfree|exfalso; by eapply Hfree|by eapply G3].
  - intros q t [[<- <-]|[? Hq]]%lookup_insert_Some; [rewrite Hat, decide_True by lia; done|].
    pose proof (G2 _ _ Hq). rewrite (Hold q t); [by apply G4|done|unfold covers; lia].
  - intros q t [[<- <-]|[? Hq]]%lookup_insert_Some; [rewrite Hat, decide_True by lia; done|].
    pose proof (G2 _ _ Hq). rewrite (Hold q t); [by apply G5|done|unfold covers; lia].
  - intros x Hn. assert (¬ covers s x) as Hxs by (apply (Hn p s), lookup_insert_eq).
    rewrite Hat, decide_False by (unfold covers in Hxs; lia). apply G6. intros q t Hq.
    apply (Hn q t). rewrite lookup_insert_ne; [done|congruence].
  - intros q t x [[<- <-]|[? Hq]]%lookup_insert_Some Hx; [by apply Hnew|]. apply Hhas. by eapply G7.
  - intros q t x [[<- <-]|[? Hq]]%lookup_insert_Some Hu Hx; [done|]. rewrite (Hold q t); [by eapply G8|done|done].
Qed.

(** A span whose pages all map to it gets a size class. *)
Lemma geom_register m pm p s c : geom m pm → m !! p = Some s →
  (∀ x, covers s x → pm_at pm x = p) → geom (<[p := set_sizeclass s c]> m) pm.
Proof.
  intros Hg Hp Hall. destruct (geom_update m pm p s (set_sizeclass s 0) Hp) as [G1 G2 G3 G4 G5 G6 G7 G8];
    [done..|by intros [? ?]|done|].
  assert (∀ q t, <[p := set_sizeclass s c]> m !! q = Some t → ∃ u,
    <[p := set_sizeclass s 0]> m !! q = Some u ∧ start t = start u ∧ length t = length u ∧ (p ≠ q → t = u)) as Hin.
  { intros q t Hq. destruct (decide (p = q)) as [->|Hne].
    - rewrite lookup_insert_eq in Hq. injection Hq as <-. exists (set_sizeclass s 0).
      by rewrite lookup_insert_eq.
    - rewrite lookup_insert_ne in Hq by done. exists t. by rewrite lookup_insert_ne. }
  split; [done|..].
  - intros q t (u & Hu & E1 & E2 & _)%Hin; rewrite ?E1, ?E2. by apply G2.
  - intros q r t t' x (u & Hu & E1 & E2 & _)%Hin (u' & Hu' & E1' & E2' & _)%Hin. unfold covers.
    rewrite E1, E2, E1', E2'. by apply (G3 q r u u').
  - intros q t (u & Hu & E1 & E2 & _)%Hin; rewrite ?E1, ?E2. by apply G4.
  - intros q t (u & Hu & E1 & E2 & _)%Hin; rewrite ?E1, ?E2. by apply G5.
  - intros x Hn. apply G6. intros q u Hu Hc. destruct (decide (p = q)) as [->|Hne].
    + rewrite lookup_insert_eq in Hu. injection Hu as <-. apply (Hn q (set_sizeclass s c)); [apply lookup_insert_eq|done].
    + apply (Hn q u); [|done]. by rewrite lookup_insert_ne in Hu |- *.
  - intros q t x (u & Hu & E1 & E2 & _)%Hin; rewrite ?E1, ?E2. by apply (G7 q u).
  - intros q t x Hq Hcl Hc. destruct (decide (p = q)) as [<-|Hne].
    + rewrite lookup_insert_eq in Hq. injection Hq as <-. by apply Hall.
    + rewrite lookup_insert_ne in Hq by done. apply (G8 q t); [by rewrite lookup_insert_ne|done|done].
Qed.
End geometry.
