(* ===== verification/Coalescing.v ===== *)
(** * Coalescing

    The invariant of the page heap and what [MergeIntoFreeList] does: a floating
    free span is merged with its free neighbours of the same kind and goes on its
    list, so that no two neighbours on lists are of the same kind. *)
From stdpp Require Import base numbers list option gmap sets fin_maps fin_map_dom.
From Stdlib Require Import ZArith Lia.
From S2P Require Import Prelude SizeMap SpanList PageMap SystemAlloc MetaData PageHeap SpanSet.
From S2P Require Import FreeLists SpanGeometry.
Open Scope Z_scope.

(** No free span is followed by a free span of its kind. *)
Definition coalesced (m : gmap Z Span) (F : gset Z) : Prop :=
  ∀ loc p q s t, free_loc loc → listed m F loc p s → listed m F loc q t →
    start s + length s ≠ start t.

Section coalescing.
Context {W : Type} `{SysAlloc W} `{!SysAllocLaws W} `{MetaData W} `{!MetaDataLaws W}.
Context {P : Type} `{PageMap P W} `{!PageMapLaws P W}.
Context {SA : Type} `{ObjAllocator SA W} `{!ObjAllocatorLaws SA W}.
Context {TA : Type} `{ObjAllocator TA W} `{!ObjAllocatorLaws TA W}.
Abbreviation Heap := (PageHeap P SA TA W).
Implicit Types h : Heap.

(** All the pages of spans, and what the allocators and the system know. *)
Definition all_pages (m : gmap Z Span) : Z := wsum (λ _ s, length s) m.
Record sys_ok h : Prop := {
  so_wf : sa_wf (world h);
  so_spans : oa_rep (span_allocator h) (world h) (dom (spans h));
  so_traces : ∃ live, oa_rep (stacktrace_allocator h) (world h) live ∧
    Z.of_nat (size live) = zlen (growth_stacks h) ∧
    8192 * zlen (growth_stacks h) ≤ system_bytes (stats_ h);
  so_given p s a : spans h !! p = Some s →
    8192 * start s ≤ a < 8192 * (start s + length s) → sa_given (world h) a;
  so_total : 8192 * all_pages (spans h) ≤ system_bytes (stats_ h);
  so_taken : system_bytes (stats_ h) ≤ SystemTaken (world h);
}.
Record inv h (F : gset Z) : Prop := {
  iv_geom : geom (spans h) (pagemap_ h);
  iv_lists : lists_ok h F;
  iv_sys : sys_ok h;
  iv_coalesced : coalesced (spans h) F;
  iv_aggressive : aggressive_decommit_ h = false;
  iv_index : 0 ≤ release_index_ h ≤ kMaxPages + 1;
}.

(** The assumption on the system: it gives less than 8 TiB. *)
Hypothesis taken_bound : ∀ w, sa_wf w → SystemTaken w < 2 ^ 43.

Lemma sys_pages h : sys_ok h → 0 ≤ system_bytes (stats_ h) < 2 ^ 43 ∧ all_pages (spans h) < 2 ^ 30.
Proof.
  intros [W1 _ (live & _ & _ & Ht) _ W4 W5]. pose proof (taken_bound _ W1). pose proof (zlen_nonneg (growth_stacks h)).
  lia.
Qed.
Lemma span_pages m p s : (∀ q t, m !! q = Some t → 1 ≤ length t) → m !! p = Some s →
  length s ≤ all_pages m.
Proof.
  intros Hpos Hp. unfold all_pages. rewrite (wsum_delete _ _ _ _ Hp).
  assert (0 ≤ wsum (λ _ s, length s) (delete p m)); [|lia]. apply wsum_nonneg.
  intros q t [_ Hq]%lookup_delete_Some. specialize (Hpos q t Hq). lia.
Qed.
Lemma span_length h F p s : lists_ok h F → sys_ok h → spans h !! p = Some s → 1 ≤ length s < 2 ^ 30.
Proof.
  intros Hl Hs Hp. destruct (sys_pages _ Hs). destruct (lk_span _ _ Hl _ _ Hp).
  assert (length s ≤ all_pages (spans h)); [|lia]. eapply span_pages; [|done].
  intros q t Hq. by apply (lk_span _ _ Hl q).
Qed.
Lemma bytes_total h F loc : lists_ok h F → sys_ok h → free_loc loc →
  0 ≤ bytes_at loc (stats_ h) ≤ system_bytes (stats_ h).
Proof.
  intros Hl Hs Hloc. rewrite (lk_bytes _ _ _ Hl Hloc). pose proof (so_total _ Hs) as Ht.
  assert (0 ≤ wsum (pages_at F loc) (spans h)).
  { apply wsum_nonneg. intros q t Hq. apply pages_at_nonneg. by apply (lk_span _ _ Hl q). }
  assert (wsum (pages_at F loc) (spans h) ≤ all_pages (spans h)); [|lia].
  apply wsum_le. intros q t Hq. apply pages_at_nonneg. by apply (lk_span _ _ Hl q).
Qed.
Lemma bits_range : 0 ≤ 2 ^ sa_bits (Y := W) ≤ 2 ^ 62.
Proof. pose proof (sa_bits_pow (Y := W)). lia. Qed.

(** *** The page map and the span objects *)
Variable ab : Prop.
Lemma wp_GetDescriptor k (Q : Z → Heap → Prop) h :
  pm_wf (pagemap_ h) → 0 ≤ k → Q (pm_at (pagemap_ h) k) h → wp ab (GetDescriptor k) Q h.
Proof. intros Hwf Hk HQ. unfold wp, GetDescriptor, lift. by rewrite (pm_get_spec _ _ Hwf Hk). Qed.
Lemma wp_pagemap_set k v (Q : () → Heap → Prop) h :
  pm_wf (pagemap_ h) → pm_has (pagemap_ h) k →
  (∀ pm, map_step (pagemap_ h) pm →
     (∀ j, pm_at pm j = if decide (j = k) then v else pm_at (pagemap_ h) j) →
     Q tt (with_pagemap h pm)) → wp ab (pagemap_set k v) Q h.
Proof.
  intros Hwf Hk HQ. destruct (pm_set_spec _ _ v Hwf Hk) as (pm & E & Hwf' & Hat & Hhas).
  unfold wp, pagemap_set. rewrite E. cbn. by apply HQ.
Qed.
Lemma wp_DeleteSpan p (Q : () → Heap → Prop) h live :
  oa_rep (span_allocator h) (world h) live → p ∈ live →
  (∀ a, oa_rep a (world h) (live ∖ {[p]}) →
     Q tt (with_span_allocator
        (with_links (with_spans h (delete p (spans h))) (delete p (span_links h))) a)) →
  wp ab (DeleteSpan p) Q h.
Proof.
  intros Hrep Hp HQ. destruct (oa_delete _ _ _ _ Hrep Hp) as (a & E & Hrep').
  unfold wp, DeleteSpan. simpl. rewrite E. cbn. by apply HQ.
Qed.
Lemma wp_NewSpan st len (Q : Z → Heap → Prop) h live :
  sa_wf (world h) → oa_rep (span_allocator h) (world h) live → Z.of_nat (size live) < INT_MAX →
  (∀ p a w, 0 < p → p ∉ live → sa_wf w → sys_le (world h) w → oa_rep a w ({[p]} ∪ live) →
     Q p (with_links (with_spans (with_world (with_span_allocator h a) w)
            (<[p := zero_span st len]> (spans h))) (<[p := (0, 0)]> (span_links h)))) →
  wp ab (NewSpan st len) Q h.
Proof.
  intros Hwf Hrep Hsz HQ. unfold wp, NewSpan.
  destruct (oa_new _ _ _ Hwf Hrep Hsz) as [->|(p & a & w & -> & ? & ? & ? & ? & ?)]; [done|].
  cbn. by apply HQ.
Qed.

(** *** What merging leaves alone *)
Record same_sys h h' : Prop := {
  ss_system : system_bytes (stats_ h') = system_bytes (stats_ h);
  ss_committed : committed_bytes (stats_ h') = committed_bytes (stats_ h);
  ss_counter : scavenge_counter_ h' = scavenge_counter_ h;
  ss_index : release_index_ h' = release_index_ h;
  ss_aggressive : aggressive_decommit_ h' = aggressive_decommit_ h;
  ss_traces : stacktrace_allocator h' = stacktrace_allocator h;
  ss_growth : growth_stacks h' = growth_stacks h;
  ss_world : world h' = world h;
}.
Lemma same_sys_trans h1 h2 h3 : same_sys h1 h2 → same_sys h2 h3 → same_sys h1 h3.
Proof. intros [] []. split; congruence. Qed.
Lemma lists_only_same_sys h h' : lists_only h h' → same_sys h h'.
Proof. intros []. by split. Qed.
(** The spans in use, but for [p]. *)
Definition used_but (p : Z) h h' : Prop := ∀ q t, q ≠ p → location t = IN_USE →
  spans h' !! q = Some t ↔ spans h !! q = Some t.
Lemma used_but_trans p h1 h2 h3 : used_but p h1 h2 → used_but p h2 h3 → used_but p h1 h3.
Proof. intros H12 H23 q t Hq Ht. etrans; [by apply H23|by apply H12]. Qed.

(** A floating span [p] that is being merged. *)
Record merging h (p : Z) (s : Span) : Prop := {
  mg_geom : geom (spans h) (pagemap_ h);
  mg_lists : lists_ok h {[p]};
  mg_sys : sys_ok h;
  mg_coalesced : coalesced (spans h) {[p]};
  mg_aggressive : aggressive_decommit_ h = false;
  mg_span : spans h !! p = Some s;
  mg_loc : free_loc (location s);
}.
(** The bytes of a location, with those of [p] when it goes there. *)
Definition potential (loc : Location) h (s : Span) : Z :=
  bytes_at loc (stats_ h) + (if decide (location s = loc) then 8192 * length s else 0).

(** Taking a free neighbour off its list, or leaving it. *)
Lemma wp_CheckAndHandlePreMerge h p s q (Q : Z → Heap → Prop) :
  merging h p s → q ≠ p →
  (q = 0 → Q 0 h) →
  (∀ t, spans h !! q = Some t → location t ≠ location s → Q 0 h) →
  (∀ t h', q ≠ 0 → listed (spans h) {[p]} (location s) q t → lists_only h h' →
     lists_ok h' ({[q]} ∪ {[p]}) → spans h' = <[q := set_iter t None]> (spans h) →
     counts_moved h h' (location s) (8192 * - length t) → Q q h') →
  (q = 0 ∨ is_Some (spans h !! q)) →
  wp ab (CheckAndHandlePreMerge p q) Q h.
Proof.
  intros [Mg Ml Ms Mc Ma Mp Mloc] Hne Hnull Hkeep Htake Hq. unfold CheckAndHandlePreMerge.
  destruct (Z.eqb_spec q 0) as [->|Hq0]; [apply wp_ret; by apply Hnull|].
  destruct Hq as [|[t Ht]]; [done|].
  apply wp_bind, wp_gets. rewrite Ma. apply wp_bind, (wp_load _ _ _ _ _ Ht).
  apply wp_bind, (wp_load _ _ _ _ _ Mp). cbn [andb]. apply wp_bind, wp_ret.
  case_bool_decide as Hl; [|apply wp_ret; by apply (Hkeep t)].
  assert (listed (spans h) {[p]} (location s) q t) as Hlist by (split; [done|set_solver]).
  apply wp_bind, wp_RemoveFromFreeList with (F := {[p]}) (s := t); [done|by rewrite Hl|by rewrite Hl| |].
  - rewrite Hl. destruct (sys_pages _ Ms) as [? _]. pose proof (bytes_total _ _ _ Ml Ms Mloc). lia.
  - intros h' Hlo Hok Hsp Hcm. rewrite Hl in Hcm. apply wp_ret. by apply (Htake t).
Qed.

(** The state after a neighbour has been merged into [p]. *)
Definition merged h p s h' (s' : Span) : Prop :=
  merging h' p s' ∧ location s' = location s ∧ length s ≤ length s' ∧ same_sys h h' ∧
  used_but p h h' ∧ (∀ loc, free_loc loc → potential loc h' s' = potential loc h s) ∧
  ∀ loc q t, listed (spans h') {[p]} loc q t → listed (spans h) {[p]} loc q t.

(** What deleting a span and changing another leave alone. *)
Record rest_same h h' : Prop := {
  rs_normal : large_normal_ h' = large_normal_ h;
  rs_returned : large_returned_ h' = large_returned_ h;
  rs_stats : stats_ h' = stats_ h;
  rs_counter : scavenge_counter_ h' = scavenge_counter_ h;
  rs_index : release_index_ h' = release_index_ h;
  rs_aggressive : aggressive_decommit_ h' = aggressive_decommit_ h;
  rs_traces : stacktrace_allocator h' = stacktrace_allocator h;
  rs_growth : growth_stacks h' = growth_stacks h;
  rs_world : world h' = world h;
}.

(** The neighbour [q], off its list, becomes part of [p]. *)
Lemma absorb h p s q t h1 h2 s' far :
  merging h p s → q ≠ p → listed (spans h) {[p]} (location s) q t → lists_only h h1 →
  lists_ok h1 ({[q]} ∪ {[p]}) → spans h1 = <[q := set_iter t None]> (spans h) →
  counts_moved h h1 (location s) (8192 * - length t) →
  (start t + length t = start s ∧ start s' = start t ∧ far = start t) ∨
  (start s + length s = start t ∧ start s' = start s ∧ far = start t + length t - 1) →
  length s' = length s + length t → location s' = location s →
  sizeclass s' = sizeclass s → span_iter s' = None →
  map_step (pagemap_ h) (pagemap_ h2) →
  (∀ x, pm_at (pagemap_ h2) x = if decide (x = far) then p else pm_at (pagemap_ h) x) →
  oa_rep (span_allocator h2) (world h) (dom (spans h) ∖ {[q]}) →
  rest_same h1 h2 → spans h2 = <[p := s']> (delete q (spans h)) →
  span_links h2 = delete q (span_links h1) → merged h p s h2 s'.
Proof.
  intros [Mg Ml Ms Mc Ma Mp Mloc] Hne Hlist Hlo Hok1 Hsp1 Hcm Hends Hlen Hloc Hcl Hit Hmap Hat Ha
    [] Hsp2 Hlk2.
  pose proof Hlist as (Hq & Hlq & _). pose proof (lk_span _ _ Ml _ _ Hq) as [_ Hlt].
  assert (delete q (spans h1) = delete q (spans h)) as Esp.
  { rewrite Hsp1. apply delete_insert_eq. }
  assert (spans h1 !! q = Some (set_iter t None)) as Hq1 by (rewrite Hsp1; apply lookup_insert_eq).
  assert (lists_ok h2 {[p]}) as Hok2.
  { pose proof (lists_ok_delete _ _ _ _ Hok1 Hq1 ltac:(set_solver)) as Hok2.
    replace (({[q]} ∪ {[p]}) ∖ {[q]} : gset Z) with ({[p]} : gset Z) in Hok2 by set_solver.
    rewrite Esp in Hok2.
    apply (lists_ok_update _ _ {[p]} p s s') in Hok2.
    - eapply lists_ok_frame; [..|exact Hok2]; simpl; congruence.
    - simpl. rewrite lookup_delete_ne by done. done.
    - done.
    - left. set_solver.
    - left. set_solver.
    - done.
    - pose proof (lk_span _ _ Ml _ _ Mp). lia.
    - intros _. rewrite Hcl. by apply (lk_class _ _ Ml p s). }
  assert (all_pages (<[p := s']> (delete q (spans h))) = all_pages (spans h)) as Etot.
  { unfold all_pages. rewrite (wsum_change _ (λ _ s, length s) _ p s) by (done || (rewrite lookup_delete_ne; done)).
    rewrite (wsum_delete _ (spans h) q t Hq). lia. }
  assert (merging h2 p s') as Hm.
  { split; rewrite ?Hsp2.
    - eapply geom_absorb; try done. intros [E _]. apply Mloc. congruence.
    - done.
    - destruct Ms as [S1 S2 S3 S4 S5 S6], Hlo. split; rewrite ?Hsp2, ?rs_world0, ?lo_world, ?rs_stats0, ?lo_system.
      + done.
      + rewrite dom_insert_L, dom_delete_L.
        replace ({[p]} ∪ dom (spans h) ∖ {[q]}) with (dom (spans h) ∖ {[q]}); [done|].
        apply elem_of_dom_2 in Mp. set_solver.
      + by rewrite rs_traces0, rs_growth0, lo_traces, lo_growth.
      + intros r u a0 [[<- <-]|[? [? Hr]%lookup_delete_Some]]%lookup_insert_Some Hra.
        * destruct (decide (8192 * start s ≤ a0 < 8192 * (start s + length s))); [by apply (S4 p s)|].
          apply (S4 q t); [done|lia].
        * by apply (S4 r u).
      + by rewrite Etot.
      + done.
    - intros loc r1 r2 u1 u2 Hfl (Hr1 & Hl1 & Hn1) (Hr2 & Hl2 & Hn2).
      apply lookup_insert_Some in Hr1 as [[<- <-]|[? [? Hr1]%lookup_delete_Some]]; [set_solver|].
      apply lookup_insert_Some in Hr2 as [[<- <-]|[? [? Hr2]%lookup_delete_Some]]; [set_solver|].
      by apply (Mc loc r1 r2).
    - destruct Hlo. congruence.
    - apply lookup_insert_eq.
    - congruence. }
  split; [done|]. split; [done|]. split; [lia|].
  split; [destruct Hlo; split; congruence|]. split; [|split].
  - intros r u Hr Hu. rewrite Hsp2, lookup_insert_ne by done. destruct (decide (r = q)) as [->|].
    + rewrite lookup_delete_eq, Hq. split; [done|]. intros [= <-]. exfalso. apply Mloc. congruence.
    + by rewrite lookup_delete_ne.
  - intros loc Hfl. unfold potential. rewrite Hloc. specialize (Hcm loc Hfl).
    rewrite rs_stats0, Hcm. case_decide; lia.
  - intros loc r u (Hr & Hl & Hn). rewrite Hsp2 in Hr.
    apply lookup_insert_Some in Hr as [[<- <-]|[? [? Hr]%lookup_delete_Some]]; [set_solver|done].
Qed.

Lemma merged_refl h p s : merging h p s → merged h p s h s.
Proof. intros Hm. by do 5 (split; [done|]). Qed.
Definition no_prev h p s : Prop :=
  ∀ q t, listed (spans h) {[p]} (location s) q t → start t + length t ≠ start s.
Definition no_next h p s : Prop :=
  ∀ q t, listed (spans h) {[p]} (location s) q t → start s + length s ≠ start t.

Lemma merging_range h p s : merging h p s →
  1 ≤ start s ∧ 1 ≤ length s < 2 ^ 30 ∧ start s + length s ≤ 2 ^ 60.
Proof.
  intros [Mg Ml Ms Mc Ma Mp Mloc]. destruct (g_range _ _ Mg _ _ Mp) as (_ & ? & _ & ?).
  pose proof (span_length _ _ _ _ Ml Ms Mp). pose proof bits_range. lia.
Qed.

Lemma merging_iter h p s : merging h p s → span_iter s = None.
Proof.
  intros [_ Ml _ _ _ Mp _]. rewrite (lk_iter _ _ Ml _ _ Mp). rewrite decide_False; [done|]. set_solver.
Qed.

Lemma wp_merge_prev h p s (Q : () → Heap → Prop) : merging h p s →
  (∀ h' s', merged h p s h' s' → start s' + length s' = start s + length s → no_prev h' p s' → Q tt h') →
  wp ab (merge_prev p (start s)) Q h.
Proof.
  intros Hm HQ. pose proof Hm as [Mg Ml Ms Mc Ma Mp Mloc].
  destruct (merging_range _ _ _ Hm) as (R1 & R2 & R3).
  unfold merge_prev. rewrite usub_small by lia.
  apply wp_bind, wp_GetDescriptor; [apply (g_wf _ _ Mg)|lia|].
  set (q := pm_at (pagemap_ h) (start s - 1)).
  assert (∀ q' t', listed (spans h) {[p]} (location s) q' t' → start t' + length t' = start s →
    q' = q) as Hq'.
  { intros q' t' (Hq' & _ & _) Hend. unfold q. rewrite <- Hend. symmetry. by apply (g_last _ _ Mg). }
  pose proof (geom_prev _ _ _ _ Mg Mp) as Hprev. fold q in Hprev.
  assert (q ≠ p) as Hqp.
  { destruct Hprev as [->|(? & _ & _ & ?)]; [|done]. pose proof (lk_span _ _ Ml _ _ Mp). lia. }
  apply wp_bind, (wp_CheckAndHandlePreMerge h p s q); try done.
  - intros Hq0. rewrite Z.eqb_refl. apply wp_ret. apply (HQ h s); [by apply merged_refl|done|].
    intros q' t' Hl Hend. pose proof (Hq' _ _ Hl Hend) as ->. destruct Hl as (Hl & _).
    pose proof (lk_span _ _ Ml _ _ Hl). lia.
  - intros t Ht Hloc. rewrite Z.eqb_refl. apply wp_ret. apply (HQ h s); [by apply merged_refl|done|].
    intros q' t' Hl Hend. pose proof (Hq' _ _ Hl Hend) as ->. destruct Hl as (Hl & ? & _). congruence.
  - intros t h1 Hq0 Hlist Hlo Hok1 Hsp1 Hcm.
    assert (start t + length t = start s) as Hend.
    { destruct Hprev as [?|(t' & Ht' & ? & _)]; [done|]. destruct Hlist as (Ht & _). congruence. }
    rewrite (proj2 (Z.eqb_neq _ _)) by done. cbn [negb]. pose proof Hlist as (Ht & _ & _).
    assert (spans h1 !! q = Some (set_iter t None)) as Hq1 by (rewrite Hsp1; apply lookup_insert_eq).
    apply wp_bind, (wp_load _ _ _ _ _ Hq1). destruct (g_range _ _ Mg _ _ Ht) as (_ & ? & ? & _).
    apply wp_bind, wp_ASSERT; [simpl; rewrite uadd_small by lia; apply Z.eqb_eq; lia|].
    assert (delete q (spans h1) = delete q (spans h)) as Esp by (rewrite Hsp1; apply delete_insert_eq).
    apply wp_bind. apply (wp_DeleteSpan _ _ _ (dom (spans h))).
    { destruct Hlo. rewrite lo_allocator, lo_world. apply (so_spans _ Ms). }
    { by eapply elem_of_dom_2. }
    intros a Ha. pose proof (lo_pagemap _ _ Hlo) as Lp. rewrite (lo_world _ _ Hlo) in Ha.
    apply wp_bind, (wp_store _ _ _ s); [simpl; by rewrite Esp, lookup_delete_ne|].
    apply wp_bind. eapply wp_store; [simpl; by rewrite lookup_insert_eq|]. simpl spans.
    apply wp_bind. eapply wp_load; [simpl; by rewrite lookup_insert_eq|].
    set (s' := set_length _ _).
    assert (start s' = start t ∧ length s' = length s + length t) as [Es' El'].
    { unfold s'. simpl. rewrite usub_small, uadd_small by lia. lia. }
    rewrite Es'. apply wp_pagemap_set.
    { simpl. rewrite Lp. apply (g_wf _ _ Mg). }
    { simpl. rewrite Lp. apply (g_has _ _ Mg q t); [done|lia]. }
    intros pm Hmap Hat. simpl in Hmap, Hat. rewrite Lp in Hmap, Hat.
    eapply (HQ _ s'); [|lia|].
    + eapply (absorb h p s q t h1 _ s' (start t)); try done; [by left|exact (merging_iter _ _ _ Hm)| ].
      simpl. by rewrite insert_insert_eq, Esp.
    + intros q' t' (Hq1' & Hl' & Hn') Hend'. simpl in Hq1'.
      rewrite insert_insert_eq, Esp in Hq1'.
      apply lookup_insert_Some in Hq1' as [[<- <-]|[? [? Hq1']%lookup_delete_Some]]; [set_solver|].
      apply (Mc (location s) q' q t' t Mloc); [done|done|]. lia.
  - destruct Hprev as [|(t & ? & _)]; [by left|right; by eexists].
Qed.
Lemma wp_merge_next h p s (Q : () → Heap → Prop) : merging h p s →
  (∀ h' s', merged h p s h' s' → start s' = start s → no_next h' p s' → Q tt h') →
  wp ab (merge_next p (start s + length s)) Q h.
Proof.
  intros Hm HQ. pose proof Hm as [Mg Ml Ms Mc Ma Mp Mloc].
  destruct (merging_range _ _ _ Hm) as (R1 & R2 & R3).
  unfold merge_next.
  apply wp_bind, wp_GetDescriptor; [apply (g_wf _ _ Mg)|lia|].
  set (q := pm_at (pagemap_ h) (start s + length s)).
  assert (∀ q' t', listed (spans h) {[p]} (location s) q' t' → start s + length s = start t' →
    q' = q) as Hq'.
  { intros q' t' (Hq' & _ & _) Hend. unfold q. rewrite Hend. symmetry. by apply (g_first _ _ Mg). }
  pose proof (geom_next _ _ _ _ Mg Mp) as Hnext. fold q in Hnext.
  assert (q ≠ p) as Hqp.
  { destruct Hnext as [->|(? & _ & _ & ?)]; [|done]. pose proof (lk_span _ _ Ml _ _ Mp). lia. }
  apply wp_bind, (wp_CheckAndHandlePreMerge h p s q); try done.
  - intros Hq0. rewrite Z.eqb_refl. apply wp_ret. apply (HQ h s); [by apply merged_refl|done|].
    intros q' t' Hl Hend. pose proof (Hq' _ _ Hl Hend) as ->. destruct Hl as (Hl & _).
    pose proof (lk_span _ _ Ml _ _ Hl). lia.
  - intros t Ht Hloc. rewrite Z.eqb_refl. apply wp_ret. apply (HQ h s); [by apply merged_refl|done|].
    intros q' t' Hl Hend. pose proof (Hq' _ _ Hl Hend) as ->. destruct Hl as (Hl & ? & _). congruence.
  - intros t h1 Hq0 Hlist Hlo Hok1 Hsp1 Hcm.
    assert (start t = start s + length s) as Hend.
    { destruct Hnext as [?|(t' & Ht' & ? & _)]; [done|]. destruct Hlist as (Ht & _). congruence. }
    rewrite (proj2 (Z.eqb_neq _ _)) by done. cbn [negb]. pose proof Hlist as (Ht & _ & _).
    assert (spans h1 !! q = Some (set_iter t None)) as Hq1 by (rewrite Hsp1; apply lookup_insert_eq).
    apply wp_bind, (wp_load _ _ _ _ _ Hq1). destruct (g_range _ _ Mg _ _ Ht) as (_ & ? & ? & ?). pose proof bits_range.
    pose proof (span_length _ _ _ _ Ml Ms Ht).
    apply wp_bind, wp_ASSERT; [simpl; apply Z.eqb_eq; lia|].
    assert (delete q (spans h1) = delete q (spans h)) as Esp by (rewrite Hsp1; apply delete_insert_eq).
    apply wp_bind. apply (wp_DeleteSpan _ _ _ (dom (spans h))).
    { destruct Hlo. rewrite lo_allocator, lo_world. apply (so_spans _ Ms). }
    { by eapply elem_of_dom_2. }
    intros a Ha. pose proof (lo_pagemap _ _ Hlo) as Lp. rewrite (lo_world _ _ Hlo) in Ha.
    apply wp_bind, (wp_store _ _ _ s); [simpl; by rewrite Esp, lookup_delete_ne|].
    apply wp_bind. eapply wp_load; [simpl; by rewrite lookup_insert_eq|].
    set (s' := set_length _ _).
    assert (start s' = start s ∧ length s' = length s + length t) as [Es' El'].
    { unfold s'. simpl. rewrite uadd_small by lia. lia. }
    rewrite Es', El', uadd_small, usub_small by lia. apply wp_pagemap_set.
    { simpl. rewrite Lp. apply (g_wf _ _ Mg). }
    { simpl. rewrite Lp. apply (g_has _ _ Mg q t); [done|lia]. }
    intros pm Hmap Hat. simpl in Hmap, Hat. rewrite Lp in Hmap, Hat.
    eapply (HQ _ s'); [|lia|].
    + eapply (absorb h p s q t h1 _ s' (start s + (length s + length t) - 1)); try done.
      { right. split; [lia|]. split; [done|lia]. }
      { exact (merging_iter _ _ _ Hm). }
      simpl. by rewrite Esp.
    + intros q' t' (Hq1' & Hl' & Hn') Hend'. simpl in Hq1'.
      rewrite Esp in Hq1'.
      apply lookup_insert_Some in Hq1' as [[<- <-]|[? [? Hq1']%lookup_delete_Some]]; [set_solver|].
      apply (Mc (location s) q q' t t' Mloc); [done|done|]. lia.
  - destruct Hnext as [|(t & ? & _)]; [by left|right; by eexists].
Qed.

(** A change of other fields of a span. *)
Lemma all_pages_update m p s s' : m !! p = Some s → length s' = length s →
  all_pages (<[p := s']> m) = all_pages m.
Proof.
  intros Hp Hl. unfold all_pages. rewrite (wsum_change (λ _ s, length s) (λ _ s, length s) m p s) by done. simpl. lia.
Qed.
Lemma sys_ok_update h h' p s s' : sys_ok h → same_sys h h' → span_allocator h' = span_allocator h →
  spans h !! p = Some s → spans h' = <[p := s']> (spans h) →
  start s' = start s → length s' = length s → sys_ok h'.
Proof.
  intros [S1 S2 S3 S4 S5 S6] [] Ea Hp Esp E1 E2.
  split; rewrite ?Esp, ?ss_world0, ?ss_system0, ?ss_traces0, ?ss_growth0; try done.
  - rewrite Ea, dom_insert_lookup_L; [done|by eexists].
  - intros q t a Hq Ha. apply lookup_insert_Some in Hq as [[<- <-]|[? Hq]]; [|by eapply S4].
    apply (S4 p s); [done|]. by rewrite E1, E2 in Ha.
  - by rewrite (all_pages_update _ _ s).
Qed.
Lemma bytes_listed h F p s : lists_ok h F → sys_ok h → spans h !! p = Some s →
  free_loc (location s) → bytes_at (location s) (stats_ h) + 8192 * length s < 2 ^ 64.
Proof.
  intros Hl Hs Hp Hloc. pose proof (span_length _ _ _ _ Hl Hs Hp).
  pose proof (bytes_total _ _ _ Hl Hs Hloc). destruct (sys_pages _ Hs). lia.
Qed.

Lemma wp_MergeIntoFreeList h p s (Q : () → Heap → Prop) :
  merging h p s → 0 ≤ release_index_ h ≤ kMaxPages + 1 →
  (∀ h', inv h' ∅ → same_sys h h' → used_but p h h' →
     (∃ t, spans h' !! p = Some t ∧ location t = location s) →
     counts_moved h h' (location s) (8192 * length s) → Q tt h') →
  wp ab (MergeIntoFreeList p) Q h.
Proof.
  intros Hm Hidx HQ. pose proof Hm as [Mg Ml Ms Mc Ma Mp Mloc].
  destruct (merging_range _ _ _ Hm) as (R1 & R2 & R3). unfold MergeIntoFreeList.
  apply wp_bind, (wp_load _ _ _ _ _ Mp).
  apply wp_bind, wp_ASSERT; [by apply negb_true_iff, bool_decide_eq_false|].
  apply wp_bind, wp_gets. rewrite Ma. cbn [andb]. apply wp_bind, wp_ret.
  apply wp_bind, (wp_merge_prev h p s); [done|].
  intros h1 s1 (Hm1 & Hl1 & Hlen1 & Hs1 & Hu1 & Hp1 & Hsub1) Hend1 Hnp1.
  rewrite uadd_small, <- Hend1 by lia. apply wp_bind, (wp_merge_next h1 p s1); [done|].
  intros h2 s2 (Hm2 & Hl2 & Hlen2 & Hs2 & Hu2 & Hp2 & Hsub2) Hst2 Hnn2.
  pose proof Hm2 as [Ng Nl Ns Nc Na Np Nloc].
  destruct (merging_range _ _ _ Hm2) as (T1 & T2 & T3).
  eapply wp_PrependToFreeList with (F := {[p]}); [done|done|by apply elem_of_singleton|done|lia| |by eapply bytes_listed|].
  { intros q t (Hq & _ & Hn) Hst. apply Hn, elem_of_singleton.
    apply (g_disjoint _ _ Ng q p t s2 (start t)); [done..|unfold covers|unfold covers; lia].
    pose proof (g_range _ _ Ng _ _ Hq). lia. }
  intros h3 it Hlo Hok3 Hsp3 Hcm3. rewrite difference_diag_L in Hok3.
  pose proof (lists_only_same_sys _ _ Hlo) as Hs3.
  apply HQ.
  - split.
    + rewrite Hsp3, (lo_pagemap _ _ Hlo). eapply geom_update; [done..| |done]. by intros [? _].
    + done.
    + eapply sys_ok_update; [exact Ns|done|apply (lo_allocator _ _ Hlo)|exact Np|exact Hsp3|done|done].
    + assert (∀ loc q t, listed (spans h3) ∅ loc q t →
        (q = p ∧ t = set_iter s2 it ∧ loc = location s2) ∨ listed (spans h2) {[p]} loc q t) as Hin.
      { intros loc q t (Hq & Hl & _). rewrite Hsp3 in Hq.
        apply lookup_insert_Some in Hq as [[<- <-]|[? Hq]]; [by left|right].
        split; [done|]. split; [done|]. by rewrite elem_of_singleton. }
      intros loc q1 q2 t1 t2 Hfl [(-> & -> & ->)|H1']%Hin [(-> & -> & E)|H2']%Hin.
      * simpl. lia.
      * simpl. by apply (Hnn2 q2).
      * subst loc. simpl. rewrite Hst2. apply (Hnp1 q1). apply Hsub2. by rewrite <- Hl2.
      * by apply (Nc loc q1 q2).
    + rewrite (lo_aggressive _ _ Hlo). done.
    + rewrite (ss_index _ _ Hs3), (ss_index _ _ Hs2), (ss_index _ _ Hs1). done.
  - eapply same_sys_trans; [|exact Hs3]. by eapply same_sys_trans.
  - eapply used_but_trans; [|eapply used_but_trans; [exact Hu2|]]; [done|].
    intros q t Hq _. rewrite Hsp3. by rewrite lookup_insert_ne.
  - exists (set_iter s2 it). rewrite Hsp3, lookup_insert_eq. split; [done|]. simpl. congruence.
  - intros l Hfl. specialize (Hcm3 l Hfl). specialize (Hp1 l Hfl). specialize (Hp2 l Hfl).
    unfold potential in *. rewrite Hl2, Hl1 in *. case_decide; lia.
Qed.
End coalescing.
