(* ===== verification/Releasing.v ===== *)
(** * Returning memory to the system

    [ReleaseSpan], the round robin of [ReleaseAtLeastNPages] and
    [IncrementalScavenge] with its arithmetic on doubles: they keep the invariant
    and the spans in use, they terminate, and the byte counts say how much was
    released. *)
From stdpp Require Import base numbers list option gmap sets fin_maps fin_map_dom.
From Stdlib Require Import ZArith Lia Floats.SpecFloat.
From S2P Require Import Prelude Doubles SizeMap SpanList PageMap SystemAlloc MetaData PageHeap.
From S2P Require Import SpanSet FreeLists SpanGeometry Coalescing.
Open Scope Z_scope.

(** ** The wait of the scavenger *)
Lemma i64_ok z : - 2 ^ 63 ≤ z < 2 ^ 63 → i64 z = Ok z.
Proof. intros H. unfold i64. by rewrite (proj2 (Z.leb_le _ _)), (proj2 (Z.ltb_lt _ _)) by lia. Qed.
Definition kMaxReleaseDelay_double : spec_float := S754_finite false 4503599627370496 (-32).
Lemma kMaxReleaseDelay_value : double_of_int kMaxReleaseDelay = kMaxReleaseDelay_double.
Proof. reflexivity. Qed.

Lemma wait_value m k : Zpos m < 2 ^ 53 → 33 ≤ k ∨ k = 32 ∧ Zpos m ≤ 2 ^ 52 →
  0 ≤ Zpos m / 2 ^ k ≤ kMaxReleaseDelay.
Proof.
  intros Hm Hk. assert (0 < 2 ^ k) by (apply Z.pow_pos_nonneg; lia).
  split; [apply Z.div_pos; lia|]. change kMaxReleaseDelay with (2 ^ 20).
  destruct Hk as [Hk|[-> Hk]].
  - assert (Zpos m / 2 ^ k < 2 ^ 20); [|lia]. apply Z.div_lt_upper_bound; [done|].
    assert (2 ^ 33 ≤ 2 ^ k) by (apply Z.pow_le_mono_r; lia). lia.
  - apply Z.div_le_upper_bound; lia.
Qed.
Lemma not_longer m e : SFltb kMaxReleaseDelay_double (S754_finite false m e) = false →
  e < -32 ∨ e = -32 ∧ Zpos m ≤ 2 ^ 52.
Proof.
  unfold SFltb, kMaxReleaseDelay_double, SFcompare.
  destruct (Z.compare_spec (-32) e) as [<-|Hlt|Hgt]; [|discriminate|intros _; by left].
  change (Z.pos m ≤ 2 ^ 52) with (Z.pos m ≤ Z.pos 4503599627370496).
  generalize 4503599627370496%positive. intros k.
  change (Pos.compare_cont Eq k m) with (Pos.compare k m).
  destruct (Pos.compare_spec k m); [|discriminate|]; intros _; right; (split; [reflexivity|lia]).
Qed.
Lemma clamped_wait w : nonneg_double w →
  ∃ z, int64_of_double (if SFltb kMaxReleaseDelay_double w then kMaxReleaseDelay_double else w) = Ok z ∧
    0 ≤ z ≤ kMaxReleaseDelay.
Proof.
  assert (int64_of_double kMaxReleaseDelay_double = Ok kMaxReleaseDelay) as Emax by reflexivity.
  assert (0 ≤ kMaxReleaseDelay < 2 ^ 63) as Hmax by (change kMaxReleaseDelay with 1048576; lia).
  destruct w as [s|s| |s m e]; simpl nonneg_double; try done; intros Hw.
  - by exists 0.
  - subst s. exists kMaxReleaseDelay. split; [exact Emax|lia].
  - destruct Hw as [-> Hm].
    pose proof (not_longer m e) as Hle.
    destruct (SFltb _ _); [exists kMaxReleaseDelay; split; [exact Emax|lia]|].
    specialize (Hle eq_refl). cbn [int64_of_double]. rewrite (proj2 (Z.leb_gt 0 e)) by lia.
    pose proof (wait_value m (- e) Hm ltac:(lia)). eexists. split; [apply i64_ok; lia|done].
Qed.
(** A rate the scavenger computes with is positive, unless it is no number. *)
Lemma scavenge_wait_ok rate n : rate ≠ S754_nan → SFleb rate tiny_rate = false → 0 < n < 2 ^ 53 →
  ∃ z, int64_of_double (scavenge_wait rate n) = Ok z ∧ 0 ≤ z ≤ kMaxReleaseDelay.
Proof.
  intros Hnan Hrate Hn. unfold scavenge_wait. rewrite kMaxReleaseDelay_value. apply clamped_wait.
  apply double_mul_nonneg; [|by apply double_of_int_pos].
  apply double_div_nonneg; [by apply double_of_int_pos|].
  destruct rate as [[]|[]| |[] m e]; try done; [by right|by left].
Qed.

Section releasing.
Context {W : Type} `{SysAlloc W} `{!SysAllocLaws W} `{MetaData W} `{!MetaDataLaws W}.
Context {P : Type} `{PageMap P W} `{!PageMapLaws P W}.
Context {SA : Type} `{ObjAllocator SA W} `{!ObjAllocatorLaws SA W}.
Context {TA : Type} `{ObjAllocator TA W} `{!ObjAllocatorLaws TA W}.
Abbreviation Heap := (PageHeap P SA TA W).
Implicit Types h : Heap.
Variable flags : heap_flags.
Hypothesis taken_bound : ∀ w, sa_wf w → SystemTaken w < 2 ^ 43.
Variable ab : Prop.

(** The memory that is committed, and the invariant between operations. *)
Definition balanced h : Prop :=
  committed_bytes (stats_ h) + unmapped_bytes (stats_ h) = system_bytes (stats_ h) ∧
  0 ≤ committed_bytes (stats_ h).
Definition good h : Prop := inv h ∅ ∧ balanced h.

(** *** Steps that concern the system only *)
Record world_step h h' (d : Z) : Prop := {
  ws_spans : spans h' = spans h;
  ws_links : span_links h' = span_links h;
  ws_normal : large_normal_ h' = large_normal_ h;
  ws_returned : large_returned_ h' = large_returned_ h;
  ws_free : free_bytes (stats_ h') = free_bytes (stats_ h);
  ws_unmapped : unmapped_bytes (stats_ h') = unmapped_bytes (stats_ h);
  ws_system : system_bytes (stats_ h') = system_bytes (stats_ h);
  ws_committed : committed_bytes (stats_ h') = committed_bytes (stats_ h) + d;
  ws_pagemap : pagemap_ h' = pagemap_ h;
  ws_index : release_index_ h' = release_index_ h;
  ws_aggressive : aggressive_decommit_ h' = aggressive_decommit_ h;
  ws_allocator : span_allocator h' = span_allocator h;
  ws_traces : stacktrace_allocator h' = stacktrace_allocator h;
  ws_growth : growth_stacks h' = growth_stacks h;
  ws_wf : sa_wf (world h');
  ws_le : sys_le (world h) (world h');
  ws_taken : SystemTaken (world h') = SystemTaken (world h);
}.
Lemma sys_ok_world h h' d : world_step h h' d → sys_ok h → sys_ok h'.
Proof.
  intros [] [S1 S2 (live & S3 & S3') S4 S5 S6]. pose proof ws_le0 as [Hg _].
  split; rewrite ?ws_spans0, ?ws_allocator0, ?ws_growth0, ?ws_system0, ?ws_traces0; try done.
  - by eapply oa_mono.
  - exists live. split; [by eapply oa_mono|done].
  - intros p s a Hp Ha. apply Hg. by eapply S4.
  - lia.
Qed.
Lemma inv_world h h' d F : world_step h h' d → inv h F → inv h' F.
Proof.
  intros Hw [I1 I2 I3 I4 I5 I6]. pose proof (sys_ok_world _ _ _ Hw I3). destruct Hw. split.
  - by rewrite ws_spans0, ws_pagemap0.
  - by eapply lists_ok_frame.
  - done.
  - by rewrite ws_spans0.
  - congruence.
  - by rewrite ws_index0.
Qed.

Lemma span_bytes h F p s : geom (spans h) (pagemap_ h) → lists_ok h F → sys_ok h → spans h !! p = Some s →
  page_bytes (start s) = 8192 * start s ∧ page_bytes (length s) = 8192 * length s ∧
  1 ≤ start s ∧ 1 ≤ length s < 2 ^ 30 ∧ 8192 * (start s + length s) ≤ 2 ^ sa_bits (Y := W).
Proof.
  intros Hg Hl Hs Hp. destruct (g_range _ _ Hg _ _ Hp) as (_ & ? & ? & ?).
  pose proof (span_length taken_bound _ _ _ _ Hl Hs Hp). pose proof (bits_range (W := W)).
  rewrite !page_bytes_eq by lia. lia.
Qed.

(** A call of the system to take memory back, and its refusal, as the last call
    before [h'], of a free span which is still in the heap. *)
Definition release_call (w w' : W) : Prop := ∃ p n b, SystemRelease p n w = Ok (b, w').
Definition refused h h' : Prop := ∃ w p s,
  rtc release_call (world h) w ∧
  spans h' !! p = Some s ∧ location s = ON_NORMAL_FREELIST ∧ 1 ≤ length s ∧
  SystemRelease (8192 * start s) (8192 * length s) w = Ok (false, world h').
Lemma wp_DecommitSpan h F p s (Q : bool → Heap → Prop) :
  inv h F → spans h !! p = Some s → 8192 * length s ≤ committed_bytes (stats_ h) < 2 ^ 63 →
  (∀ (b : bool) h', world_step h h' (if b then - (8192 * length s) else 0) →
     SystemRelease (8192 * start s) (8192 * length s) (world h) = Ok (b, world h') → Q b h') →
  wp ab (DecommitSpan p) Q h.
Proof.
  intros [I1 I2 I3 I4 I5 I6] Hp Hc HQ.
  destruct (span_bytes _ _ _ _ I1 I2 I3 Hp) as (E1 & E2 & B1 & B2 & B3).
  unfold DecommitSpan. apply wp_bind, wp_on_stats, wp_bind, (wp_load _ _ s); [done|].
  rewrite E1, E2. apply wp_bind. unfold wp at 1, on_world. simpl.
  destruct (sa_release (world h) (8192 * start s) (8192 * length s) (so_wf _ I3))
    as (b & w & Er & Hwf & Ht & Hg); [lia..|]. rewrite Er. cbn.
  assert (sys_le (world h) w) as Hle by (split; [intros a; apply Hg|lia]).
  apply wp_bind. destruct b; [apply wp_on_stats|apply wp_ret]; apply wp_ret.
  - apply HQ; [|exact Er]. split; try done. simpl. rewrite usub_small; lia.
  - apply HQ; [split; try done; simpl; lia|exact Er].
Qed.
Lemma wp_CommitSpan h F p s (Q : () → Heap → Prop) :
  inv h F → spans h !! p = Some s → 0 ≤ committed_bytes (stats_ h) < 2 ^ 63 →
  (∀ h', world_step h h' (8192 * length s) → Q tt h') → wp ab (CommitSpan p) Q h.
Proof.
  intros [I1 I2 I3 I4 I5 I6] Hp Hc HQ.
  destruct (span_bytes _ _ _ _ I1 I2 I3 Hp) as (E1 & E2 & B1 & B2 & B3).
  unfold CommitSpan. apply wp_bind, wp_on_stats, wp_bind, (wp_load _ _ s); [done|].
  apply wp_bind, wp_act, wp_on_stats. apply HQ.
  destruct (sa_commit (world h) (page_bytes (start s)) (page_bytes (length s)) (so_wf _ I3)) as (Hwf & Ht & Hg).
  split; try done; simpl.
  - rewrite E2, uadd_small; lia.
  - split; [intros a; apply Hg|lia].
Qed.

(** *** A span starts to float *)
Lemma float_span h h' p s s' : inv h ∅ → spans h !! p = Some s → lists_ok h' {[p]} →
  spans h' = <[p := s']> (spans h) → start s' = start s → length s' = length s →
  same_sys h h' → pagemap_ h' = pagemap_ h → span_allocator h' = span_allocator h →
  free_loc (location s') → merging h' p s'.
Proof.
  intros [I1 I2 I3 I4 I5 I6] Hp Hl Hsp E1 E2 Hsys Hpm Hal Hloc. split.
  - rewrite Hsp, Hpm. eapply geom_update; [done..| |done]. by intros [? _].
  - done.
  - by eapply sys_ok_update.
  - intros loc q1 q2 t1 t2 Hfl (Hq1 & Hl1 & Hn1) (Hq2 & Hl2 & Hn2). rewrite Hsp in Hq1, Hq2.
    rewrite lookup_insert_ne in Hq1 by (intros <-; by apply Hn1, elem_of_singleton).
    rewrite lookup_insert_ne in Hq2 by (intros <-; by apply Hn2, elem_of_singleton).
    by apply (I4 loc q1 q2).
  - by rewrite (ss_aggressive _ _ Hsys).
  - rewrite Hsp. apply lookup_insert_eq.
  - done.
Qed.

(** *** Releasing a span *)
Record kept h h' : Prop := {
  kp_used q t : location t = IN_USE → spans h' !! q = Some t ↔ spans h !! q = Some t;
  kp_system : system_bytes (stats_ h') = system_bytes (stats_ h);
  kp_taken : SystemTaken (world h') = SystemTaken (world h);
  kp_calls : rtc release_call (world h) (world h');
}.
Lemma kept_refl h : kept h h.
Proof. by split. Qed.
Lemma kept_trans h1 h2 h3 : kept h1 h2 → kept h2 h3 → kept h1 h3.
Proof.
  intros [A1 A2 A3 A4] [B1 B2 B3 B4]. split; [|congruence..|by etrans].
  intros q t Ht. rewrite B1, A1; done.
Qed.
Lemma refused_later h1 h2 h3 : kept h1 h2 → refused h2 h3 → refused h1 h3.
Proof.
  intros [_ _ _ Hk] (w & p & s & Hw & Hrest). exists w, p, s. split; [by etrans|done].
Qed.
(** [k] pages have been returned to the system. *)
Definition released h h' (k : Z) : Prop :=
  0 ≤ k ∧ free_bytes (stats_ h') = free_bytes (stats_ h) - 8192 * k ∧
  unmapped_bytes (stats_ h') = unmapped_bytes (stats_ h) + 8192 * k.
Lemma released_refl h h' : stats_ h' = stats_ h → released h h' 0.
Proof. unfold released. intros ->. lia. Qed.
Lemma released_trans h1 h2 h3 k l : released h1 h2 k → released h2 h3 l → released h1 h3 (k + l).
Proof. unfold released. lia. Qed.

(** There is room in the committed memory for a normal span. *)
Lemma normal_committed h p s : good h → listed (spans h) ∅ ON_NORMAL_FREELIST p s →
  8192 * length s ≤ committed_bytes (stats_ h) ∧ 8192 * length s ≤ free_bytes (stats_ h).
Proof.
  intros [[I1 I2 I3 I4 I5 I6] [Hb _]] Hlist. pose proof Hlist as (Hp & Hl & _).
  pose proof (so_total _ I3) as Ht. rewrite (lk_free _ _ I2). rewrite (lk_unmapped _ _ I2) in Hb.
  pose proof (lists_ok_length_sum _ _ _ _ _ I2 Hlist). split; [|lia].
  assert (wsum (pages_at ∅ ON_RETURNED_FREELIST) (spans h) + length s ≤ all_pages (spans h)); [|lia].
  unfold all_pages. rewrite !(wsum_delete _ (spans h) p s Hp). rewrite pages_other by congruence.
  assert (wsum (pages_at ∅ ON_RETURNED_FREELIST) (delete p (spans h)) ≤
    wsum (λ _ s, length s) (delete p (spans h))); [|lia].
  apply wsum_le. intros q t [_ Hq]%lookup_delete_Some. apply pages_at_nonneg. by apply (lk_span _ _ I2 q).
Qed.

Lemma wp_ReleaseSpan h p s (Q : Z → Heap → Prop) :
  good h → listed (spans h) ∅ ON_NORMAL_FREELIST p s →
  (∀ r h', good h' → kept h h' → release_index_ h' = release_index_ h → released h h' r →
     (r = 0 ∧ refused h h' ∨ r = length s) → Q r h') →
  wp ab (ReleaseSpan p) Q h.
Proof.
  intros Hgood Hlist HQ. pose proof (normal_committed _ _ _ Hgood Hlist) as [Hc Hfb].
  destruct Hgood as [Hinv [Hb Hc0]]. pose proof Hinv as [I1 I2 I3 I4 I5 I6].
  pose proof Hlist as (Hp & Hl & _). destruct (sys_pages taken_bound _ I3) as [Hsb _].
  pose proof (bytes_total _ _ ON_RETURNED_FREELIST I2 I3 ltac:(done)) as Hub.
  pose proof (bytes_total _ _ ON_NORMAL_FREELIST I2 I3 ltac:(done)) as Hnb.
  unfold bytes_at in Hub, Hnb. simpl in Hub, Hnb.
  unfold ReleaseSpan. apply wp_bind, (wp_load _ _ _ _ _ Hp).
  apply wp_bind, wp_ASSERT; [by apply bool_decide_eq_true|].
  apply wp_bind, wp_DecommitSpan with (F := ∅) (s := s); [done|done|lia|].
  intros [] h1 Hw Er.
  - pose proof (inv_world _ _ _ _ Hw Hinv) as Hinv1. pose proof Hinv1 as [J1 J2 J3 J4 J5 J6].
    pose proof Hw as [W1 _ _ _ W5 W6 W7 W8 _ W10 _ _ _ _ _ _ W17].
    apply wp_bind, wp_RemoveFromFreeList with (F := ∅) (s := s); [done|by rewrite W1, Hl|by rewrite Hl| |].
    { rewrite Hl. unfold bytes_at. simpl. rewrite W5. lia. }
    intros h2 Hlo Hok2 Hsp2 Hcm2. rewrite union_empty_r_L in Hok2.
    assert (spans h2 !! p = Some (set_iter s None)) as Hp2 by (rewrite Hsp2; apply lookup_insert_eq).
    apply wp_bind, (wp_load _ _ _ _ _ Hp2), wp_bind, (wp_store _ _ _ _ _ _ Hp2).
    set (s3 := set_location _ _). set (h3 := with_spans _ _).
    assert (lists_ok h3 {[p]}) as Hok3.
    { eapply lists_ok_update; [exact Hok2|exact Hp2|done|by left; apply elem_of_singleton
        |by left; apply elem_of_singleton|done| |]; simpl; [apply (lk_span _ _ I2 p s Hp)|].
      intros _. apply (lk_class _ _ I2 p s Hp). by rewrite Hl. }
    assert (merging h3 p s3) as Hm.
    { apply (float_span h1 h3 p s s3); try done; [by rewrite W1| | | |].
      - simpl. by rewrite Hsp2, insert_insert_eq.
      - destruct Hlo. by split.
      - apply (lo_pagemap _ _ Hlo).
      - apply (lo_allocator _ _ Hlo). }
    apply wp_bind, (wp_MergeIntoFreeList taken_bound ab h3 p s3); [done|destruct Hlo; simpl; lia|].
    intros h4 Hinv4 Hsys4 Hused4 (t & Ht & Hlt) Hcm4. apply wp_ret.
    pose proof (Hcm2 ON_NORMAL_FREELIST ltac:(done)) as C1.
    pose proof (Hcm2 ON_RETURNED_FREELIST ltac:(done)) as C2.
    pose proof (Hcm4 ON_NORMAL_FREELIST ltac:(done)) as C3.
    pose proof (Hcm4 ON_RETURNED_FREELIST ltac:(done)) as C4.
    rewrite Hl in C1, C2. unfold bytes_at in C1, C2, C3, C4. simpl in C1, C2, C3, C4.
    assert (released h h4 (length s)) as Hrel.
    { split; [pose proof (lk_span _ _ I2 p s Hp); lia|]. lia. }
    apply HQ; [|split| |done|by right].
    + split; [done|]. split; destruct Hsys4, Hlo, Hrel as (_ & _ & Hrel); simpl in *; lia.
    + intros q u Hu. destruct (decide (q = p)) as [->|Hne].
      * rewrite Ht, Hp. split; intros [= ->]; simpl in *; congruence.
      * rewrite (Hused4 q u Hne Hu). simpl. rewrite Hsp2, !lookup_insert_ne, W1 by done. done.
    + destruct Hsys4, Hlo. simpl in *. congruence.
    + destruct Hsys4, Hlo. simpl in *. congruence.
    + apply rtc_once. exists (8192 * start s), (8192 * length s), true.
      replace (world h4) with (world h1); [exact Er|]. destruct Hsys4, Hlo. simpl in *. congruence.
    + destruct Hsys4, Hlo. simpl in *. congruence.
  - pose proof (inv_world _ _ _ _ Hw Hinv) as Hinv1. destruct Hw. apply wp_ret.
    apply HQ; [|split| | |].
    + split; [done|]. split; lia.
    + intros q u _. by rewrite ws_spans0.
    + done.
    + done.
    + apply rtc_once. by exists (8192 * start s), (8192 * length s), false.
    + done.
    + split; [done|]. lia.
    + left. split; [done|]. exists (world h), p, s. split_and!; [done|by rewrite ws_spans0|done| |done].
      apply (lk_span _ _ I2 p s Hp).
Qed.

(** *** The round robin *)
(** The list a span of some length is on: an index below [kMaxPages], or
    [kMaxPages] for the large spans. *)
Definition list_index (len : Z) : Z := if kMaxPages <? len then kMaxPages else len - 1.
Definition none_at (m : gmap Z Span) (i : Z) : Prop :=
  ∀ p s, listed m ∅ ON_NORMAL_FREELIST p s → list_index (length s) ≠ i.

Lemma small_head F m st loc i : small_ok m F st → free_loc loc → 0 ≤ i < kMaxPages →
  (DLL_IsEmpty st (list_head loc i) = Ok true ∧ ∀ p, ¬ in_small m F loc i p) ∨
  (∃ p q, DLL_IsEmpty st (list_head loc i) = Ok false ∧
     get_next st (list_head loc i) = Ok p ∧ in_small m F loc i p ∧
     get_prev st (list_head loc i) = Ok q ∧ in_small m F loc i q).
Proof.
  intros (lists & det & Hrep & Hl & _) Hloc Hi. destruct (Hl loc i Hloc Hi) as (l & El & Hin).
  rewrite (rep_IsEmpty _ _ _ Hrep _ _ El), (rep_first _ _ _ Hrep _ _ El), (rep_last _ _ _ Hrep _ _ El).
  destruct l as [|x l]; [left|right].
  - split; [done|]. intros p Hp. by apply Hin in Hp; apply not_elem_of_nil in Hp.
  - exists x, (before (list_head loc i) (x :: l)). split; [done|]. split; [done|].
    split; [apply Hin; left|]. split; [done|]. apply Hin. unfold before.
    destruct (last (x :: l)) as [y|] eqn:E; [by apply last_Some_elem_of|].
    by apply last_None in E.
Qed.
Lemma wp_release_candidate h F (Q : option Z → Heap → Prop) :
  lists_ok h F → 0 ≤ release_index_ h ≤ kMaxPages → F = ∅ →
  (none_at (spans h) (release_index_ h) → Q None h) →
  (∀ p s, listed (spans h) ∅ ON_NORMAL_FREELIST p s → Q (Some p) h) →
  wp ab release_candidate Q h.
Proof.
  intros Hok Hi -> Hnone Hsome. unfold release_candidate. apply wp_bind, wp_gets.
  destruct (Z.eqb_spec (release_index_ h) kMaxPages) as [E|Hne].
  - apply wp_bind, wp_gets, wp_ret.
    destruct (lk_large _ _ Hok ON_NORMAL_FREELIST ltac:(done)) as [_ Hin].
    change (large_set ON_NORMAL_FREELIST h) with (large_normal_ h) in Hin.
    destruct (large_normal_ h) as [|x l].
    + apply Hnone. intros p s Hl Hidx. apply (not_elem_of_nil (p, length s)), Hin.
      exists s. split; [done|]. split; [done|]. simpl. unfold list_index in Hidx.
      destruct (Z.ltb_spec kMaxPages (length s)); lia.
    + destruct (proj1 (Hin x) ltac:(left)) as (s & Hl & _). by apply (Hsome x.1 s).
  - destruct (small_head ∅ (spans h) (span_links h) ON_NORMAL_FREELIST (release_index_ h))
      as [[Ee Hno]|(p & q & Ee & _ & _ & Eq & s & Hl & _)]; [apply (lk_small _ _ Hok)|done|lia| |];
      change (list_head ON_NORMAL_FREELIST ?i) with (free_normal i) in *.
    + apply wp_bind. eapply wp_ask_links; [exact Ee|]. apply wp_ret, Hnone.
      intros p s Hl Hidx. apply (Hno p). exists s. split; [done|].
      unfold list_index in Hidx. destruct (Z.ltb_spec kMaxPages (length s)); lia.
    + apply wp_bind. eapply wp_ask_links; [exact Ee|].
      apply wp_bind. eapply wp_ask_links; [exact Eq|]. apply wp_ret. by apply (Hsome q s).
Qed.

(** The index at a turn of the round. *)
Definition turn (idx k : Z) : Z := (idx + k) mod (kMaxPages + 1).
Lemma good_index h i : good h → 0 ≤ i ≤ kMaxPages + 1 → good (with_release_index h i).
Proof.
  intros [[I1 I2 I3 I4 I5 I6] Hb] Hi. split; [|done]. split; try done.
  - by apply (lists_ok_frame h).
  - by destruct I3.
Qed.

Lemma wp_release_round fuel num (Q : bool * Z → Heap → Prop) : ∀ i r h,
  0 ≤ i ≤ kMaxPages + 1 → kMaxPages + 1 - i < Z.of_nat fuel → (0 < fuel)%nat →
  good h → 0 ≤ r → r + free_bytes (stats_ h) < 2 ^ 63 →
  (∀ b k h', good h' → kept h h' → released h h' k →
     (b = true ∧ refused h h' ∨ b = false ∧ (num ≤ r + k ∨ 0 < k ∨
      ∀ j, 0 ≤ j < kMaxPages + 1 - i → none_at (spans h) (turn (release_index_ h) j))) →
     Q (b, r + k) h') →
  wp ab (release_round fuel i r num) Q h.
Proof.
  change kMaxPages with 128.
  induction fuel as [|fuel IH]; intros i r h Hi Hf Hpos Hgood Hr Hfree HQ; [lia|].
  cbn [release_round]. change (i <? kMaxPages + 1) with (i <? 129).
  destruct (Z.ltb_spec i 129) as [Hi1|]; cbn [andb].
  2: { apply wp_ret. rewrite <- (Z.add_0_r r). apply HQ; [done|apply kept_refl|by apply released_refl|].
       right. split; [done|]. do 2 right. lia. }
  destruct (Z.ltb_spec r num) as [Hrn|].
  2: { apply wp_ret. rewrite <- (Z.add_0_r r). apply HQ; [done|apply kept_refl|by apply released_refl|].
       right. split; [done|]. left. lia. }
  apply wp_bind, wp_act. pose proof Hgood as [[_ _ _ _ _ Hidx] _]. change kMaxPages with 128 in Hidx.
  set (h1 := if kMaxPages <? release_index_ h then with_release_index h 0 else h).
  assert (good h1 ∧ release_index_ h1 = turn (release_index_ h) 0 ∧ 0 ≤ release_index_ h1 ≤ 128 ∧
    spans h1 = spans h ∧ stats_ h1 = stats_ h ∧ world h1 = world h) as (Hg1 & Ei1 & Hi1' & Es1 & Et1 & Ew1).
  { unfold h1, turn. change kMaxPages with 128. destruct (Z.ltb_spec 128 (release_index_ h)).
    - split; [by apply good_index|]. simpl. assert (release_index_ h = 129) as -> by lia. done.
    - split; [done|]. rewrite Z.add_0_r, Z.mod_small by lia. split; [done|]. split; [lia|done]. }
  assert (kept h h1) as Hk1 by (split; [intros q u _; by rewrite Es1|by rewrite Et1|by rewrite Ew1|by rewrite Ew1]).
  assert (∀ h', stats_ h' = stats_ h1 → ∀ k h'', released h' h'' k → released h h'' k) as Hrel1.
  { intros h' E k h''. unfold released. rewrite E, Et1. done. }
  apply wp_bind. destruct Hg1 as [Hinv1 Hb1] eqn:Eg1. clear Eg1.
  eapply (wp_release_candidate h1 ∅); [apply Hinv1|done|done|..].
  - intros Hnone. apply wp_bind, wp_act.
    apply IH; [lia|lia|lia|apply good_index; [by split|change kMaxPages with 128; lia]|done|by rewrite <- Et1 in Hfree|].
    intros b k h' Hg' Hkept' Hrel' Hor. apply HQ; [done| | |].
    + eapply kept_trans; [exact Hk1|]. destruct Hkept'. by split.
    + by eapply Hrel1; [|exact Hrel'].
    + destruct Hor as [[? Href]|[Eb [?|[?|Hall]]]];
        [left; split; [done|]; by apply (refused_later _ h1)|by right; split; [|left]|by right; split; [|right; left]|].
      right. split; [done|]. do 2 right.
      intros j Hj. simpl in Hall. rewrite Es1 in Hall, Hnone. rewrite Ei1 in Hall, Hnone.
      destruct (Z.eq_dec j 0) as [->|]; [done|]. specialize (Hall (j - 1) ltac:(lia)).
      replace (turn (release_index_ h) j) with (turn (turn (release_index_ h) 0 + 1) (j - 1)); [done|].
      unfold turn. change (kMaxPages + 1) with 129. rewrite Z.add_0_r.
      rewrite <- Z.add_assoc, Zplus_mod_idemp_l. f_equal. lia.
  - intros p s Hlist. apply wp_bind, (wp_ReleaseSpan h1 p s); [by split|done|].
    intros r1 h2 Hg2 Hk2 Hi2 Hrel2 Hr1.
    assert (released h h2 r1) as Hrel by (by apply (Hrel1 h1)).
    destruct (Z.eqb_spec r1 0) as [->|Hne].
    + apply wp_ret. rewrite <- (Z.add_0_r r). apply HQ; [done|by eapply kept_trans|done|]. left. split; [done|].
      destruct Hr1 as [[_ ?]|Hr1]; [by apply (refused_later _ h1)|]. destruct Hlist as (Hp & _). pose proof (lk_span _ _ (iv_lists _ _ Hinv1) _ _ Hp). lia.
    + apply wp_bind, wp_act. pose proof (proj1 Hrel) as Hr1pos. pose proof Hrel as (_ & Hf2 & _).
      assert (0 ≤ free_bytes (stats_ h2)).
      { destruct Hg2 as [[_ J2 J3 _ _ _] _].
        pose proof (bytes_total _ _ ON_NORMAL_FREELIST J2 J3 ltac:(done)) as Hb. unfold bytes_at in Hb. simpl in Hb. lia. }
      rewrite uadd_small by lia.
      apply IH; [lia|lia|lia|apply good_index; [done|change kMaxPages with 128; lia]|lia|simpl; lia|].
      intros b k h' Hg' Hkept' Hrel' Hor. rewrite <- Z.add_assoc.
      assert (released h2 h' k) as Hrel'' by exact Hrel'. pose proof (proj1 Hrel'').
      apply HQ; [done| |by eapply released_trans|].
      2: { destruct Hor as [[? Href]|[-> _]];
             [left; split; [done|]; eapply refused_later; [exact Hk1|]; by eapply refused_later|right; split; [done|right; left; lia]]. }
      eapply kept_trans; [exact Hk1|]. eapply kept_trans; [exact Hk2|]. destruct Hkept'. by split.
Qed.

Lemma good_free h : good h → 0 ≤ free_bytes (stats_ h) < 2 ^ 43.
Proof.
  intros [[_ J2 J3 _ _ _] _]. destruct (sys_pages taken_bound _ J3) as [? _].
  pose proof (bytes_total _ _ ON_NORMAL_FREELIST J2 J3 ltac:(done)) as Hb. unfold bytes_at in Hb. simpl in Hb. lia.
Qed.
(** When there is a free byte, a round meets a span. *)
Lemma round_meets h idx : good h → 0 < free_bytes (stats_ h) → 
  ¬ ∀ j, 0 ≤ j < kMaxPages + 1 → none_at (spans h) (turn idx j).
Proof.
  intros [[_ J2 _ _ _ _] _] Hfree Hall. rewrite (lk_free _ _ J2) in Hfree.
  destruct (wsum_pos (pages_at ∅ ON_NORMAL_FREELIST) (spans h)) as (p & s & Hp & Hs); [|lia|].
  { intros p s Hp. apply pages_at_nonneg. by apply (lk_span _ _ J2 p). }
  unfold pages_at in Hs. case_decide as Hl; [|lia]. destruct Hl as [Hl Hn].
  pose proof (lk_span _ _ J2 _ _ Hp) as [_ Hlen].
  assert (0 ≤ list_index (length s) < kMaxPages + 1) as Hi.
  { unfold list_index. change kMaxPages with 128. destruct (Z.ltb_spec 128 (length s)); lia. }
  apply (Hall ((list_index (length s) - idx) mod (kMaxPages + 1))) with (p := p) (s := s);
    [apply Z.mod_pos_bound; change kMaxPages with 128; lia|done|].
  unfold turn. rewrite Zplus_mod_idemp_r. replace (idx + (list_index (length s) - idx)) with (list_index (length s)) by lia.
  symmetry. by apply Z.mod_small.
Qed.
Lemma wp_release_loop num (Q : Z → Heap → Prop) fuel : ∀ r h,
  good h → free_bytes (stats_ h) < 8192 * Z.of_nat fuel → 0 ≤ r → r + free_bytes (stats_ h) < 2 ^ 63 →
  (∀ k h', good h' → kept h h' → released h h' k →
     (num ≤ r + k ∨ free_bytes (stats_ h') = 0 ∨ refused h h') → Q (r + k) h') →
  wp ab (release_loop fuel r num) Q h.
Proof.
  induction fuel as [|fuel IH]; intros r h Hgood Hf Hr Hfree HQ; pose proof (good_free _ Hgood); [lia|].
  cbn [release_loop]. apply wp_bind, wp_gets.
  assert (num ≤ r ∨ free_bytes (stats_ h) = 0 → Q r h) as Hdone.
  { intros Hor. rewrite <- (Z.add_0_r r).
    apply HQ; [done|apply kept_refl|by apply released_refl|rewrite Z.add_0_r; tauto]. }
  destruct (Z.ltb_spec r num) as [Hrn|]; [|by apply wp_ret, Hdone; left].
  destruct (Z.ltb_spec 0 (free_bytes (stats_ h))) as [Hpos|];
    [|by apply wp_ret, Hdone; right; lia]. cbn [andb].
  apply wp_bind, wp_release_round; [change kMaxPages with 128; lia..|lia|done|done|done|].
  intros b k h' Hg' Hk' Hrel' Hor. destruct b.
  { apply wp_ret, HQ; [done..|]. destruct Hor as [[_ ?]|[? _]]; [by do 2 right|done]. }
  assert (0 < k) as Hkpos.
  { destruct Hor as [[? _]|[_ [?|[?|Hall]]]]; [done|lia|done|]. exfalso.
    apply (round_meets h (release_index_ h) Hgood Hpos). intros j Hj. apply Hall. lia. }
  pose proof Hrel' as (_ & Hf' & _). apply IH; [done|lia|lia|lia|].
  intros k2 h2 Hg2 Hk2 Hrel2 Hor2. rewrite <- Z.add_assoc.
  apply HQ; [done|by eapply kept_trans|by eapply released_trans|].
  rewrite Z.add_assoc. destruct Hor2 as [?|[?|?]]; [by left|by right; left|].
  do 2 right. by eapply refused_later.
Qed.

Section with_fuel.
Variable fuel : nat.
Hypothesis fuel_enough : 2 ^ 30 ≤ Z.of_nat fuel.

(** At least the pages asked for are released, when there are so many free ones
    and the system takes them. *)
Lemma wp_release_enough num (Q : Z → Heap → Prop) h :
  good h → (∀ k h', good h' → kept h h' → released h h' k →
     (num ≤ k ∨ free_bytes (stats_ h') = 0 ∨ refused h h') → Q k h') →
  wp ab (ReleaseAtLeastNPages fuel num) Q h.
Proof.
  intros Hg HQ. pose proof (good_free _ Hg).
  apply wp_release_loop; [done|lia|lia|lia|]. intros k h' ? ? ?. by apply HQ.
Qed.
Lemma wp_ReleaseAtLeastNPages num (Q : Z → Heap → Prop) h :
  good h → (∀ k h', good h' → kept h h' → released h h' k → Q k h') →
  wp ab (ReleaseAtLeastNPages fuel num) Q h.
Proof. intros Hg HQ. apply wp_release_enough; [done|]. intros. by apply HQ. Qed.

Hypothesis rate_number : tcmalloc_release_rate flags ≠ S754_nan.

Lemma good_counter h c : good h → good (with_scavenge_counter h c).
Proof.
  intros [[I1 I2 I3 I4 I5 I6] Hb]. split; [|done]. split; try done.
  - by apply (lists_ok_frame h).
  - by destruct I3.
Qed.
Lemma good_scavenge_count h : good h → good (with_stats h (count_scavenge (stats_ h))).
Proof.
  intros [[I1 I2 I3 I4 I5 I6] Hb]. split; [|done]. split; try done.
  - by apply (lists_ok_frame h).
  - by destruct I3.
Qed.
Lemma released_pages h h' k : good h → released h h' k → good h' → 0 ≤ k < 2 ^ 30.
Proof.
  intros Hg (Hk & Hf & _) Hg'. pose proof (good_free _ Hg). pose proof (good_free _ Hg'). lia.
Qed.
Lemma wp_IncrementalScavenge n (Q : () → Heap → Prop) h :
  good h → (∀ h', good h' → kept h h' → Q tt h') → wp ab (IncrementalScavenge flags fuel n) Q h.
Proof.
  intros Hg HQ. unfold IncrementalScavenge. apply wp_bind, wp_act, wp_bind, wp_gets.
  set (h1 := with_scavenge_counter _ _). assert (good h1) as Hg1 by (by apply good_counter).
  assert (∀ h' c, good h' → kept h1 h' → wp ab (set_scavenge_counter c) Q h') as Hend.
  { intros h' c Hg' Hk'. apply wp_act, HQ; [by apply good_counter|]. destruct Hk'. by split. }
  apply wp_if; intros _; [by apply wp_ret, HQ|].
  apply wp_if; intros Hrate; [apply Hend; [done|apply kept_refl]|].
  apply wp_bind, wp_on_stats. set (h2 := with_stats _ _).
  assert (good h2) as Hg2 by (by apply good_scavenge_count).
  apply wp_bind, wp_ReleaseAtLeastNPages; [done|]. intros k h3 Hg3 Hk3 Hrel3.
  pose proof (released_pages _ _ _ Hg2 Hrel3 Hg3) as Hk.
  assert (kept h1 h3) as Hk13 by (destruct Hk3; by split).
  destruct (Z.eqb_spec k 0) as [->|Hne]; [by apply Hend|].
  destruct (scavenge_wait_ok (tcmalloc_release_rate flags) k rate_number Hrate ltac:(lia)) as (z & Ez & _).
  apply wp_bind. eapply wp_lift; [exact Ez|]. by apply Hend.
Qed.
End with_fuel.
End releasing.
