(* ===== verification/SpanOps.v ===== *)
(** * Freeing, taking and splitting spans

    [Delete], [Carve], [Split], [RegisterSizeClass] and [EnsureLimit] of
    [page_heap.cc]: what they do to the spans in use, that they keep the invariant, and that none of their
    assertions fails. *)
From stdpp Require Import base numbers list option gmap sets fin_maps fin_map_dom.
From Stdlib Require Import ZArith Lia Floats.SpecFloat.
From S2P Require Import Prelude Doubles SizeMap SpanList PageMap SystemAlloc MetaData PageHeap.
From S2P Require Import SpanSet FreeLists SpanGeometry Coalescing Releasing.
Open Scope Z_scope.

Section span_operations.
Context {W : Type} `{SysAlloc W} `{!SysAllocLaws W} `{MetaData W} `{!MetaDataLaws W}.
Context {P : Type} `{PageMap P W} `{!PageMapLaws P W}.
Context {SA : Type} `{ObjAllocator SA W} `{!ObjAllocatorLaws SA W}.
Context {TA : Type} `{ObjAllocator TA W} `{!ObjAllocatorLaws TA W}.
Abbreviation Heap := (PageHeap P SA TA W).
Implicit Types h : Heap.
Variable flags : heap_flags.
Hypothesis taken_bound : ∀ w, sa_wf w → SystemTaken w < 2 ^ 43.
Variable ab : Prop.

Lemma good_bytes h : good h →
  uadd (unmapped_bytes (stats_ h)) (committed_bytes (stats_ h)) = system_bytes (stats_ h) ∧
  0 ≤ unmapped_bytes (stats_ h) ≤ system_bytes (stats_ h) ∧
  0 ≤ committed_bytes (stats_ h) ≤ system_bytes (stats_ h) ∧ system_bytes (stats_ h) < 2 ^ 43.
Proof.
  intros [[_ I2 I3 _ _ _] [Hb Hc]]. destruct (sys_pages taken_bound _ I3) as [Hs _].
  pose proof (bytes_total _ _ ON_RETURNED_FREELIST I2 I3 ltac:(done)) as Hu.
  unfold bytes_at in Hu. simpl in Hu. rewrite uadd_small by lia. lia.
Qed.
Lemma wp_committed_check h (Q : () → Heap → Prop) : good h → Q tt h →
  wp ab (ASSERT (uadd (unmapped_bytes (stats_ h)) (committed_bytes (stats_ h))
                 =? system_bytes (stats_ h))) Q h.
Proof. intros Hg. apply wp_ASSERT. by apply Z.eqb_eq, good_bytes. Qed.

(** The two ends of a span lead to it. *)
Lemma wp_ends_check {A} h p s (m : M Heap A) (Q : A → Heap → Prop) :
  inv h ∅ → spans h !! p = Some s → wp ab m Q h →
  wp ab (d ← GetDescriptor (start s); _ ← ASSERT (d =? p);
         d ← GetDescriptor (usub (uadd (start s) (length s)) 1); _ ← ASSERT (d =? p); m) Q h.
Proof.
  intros [I1 I2 I3 _ _ _] Hp HQ. pose proof (bits_range (W := W)).
  destruct (span_bytes taken_bound _ _ _ _ I1 I2 I3 Hp) as (_ & _ & B1 & B2 & B3).
  apply wp_bind, wp_GetDescriptor; [apply (g_wf _ _ I1)|lia|].
  apply wp_bind, wp_ASSERT; [apply Z.eqb_eq, (g_first _ _ I1 _ _ Hp)|].
  rewrite uadd_small, usub_small by lia.
  apply wp_bind, wp_GetDescriptor; [apply (g_wf _ _ I1)|lia|].
  by apply wp_bind, wp_ASSERT; [apply Z.eqb_eq, (g_last _ _ I1 _ _ Hp)|].
Qed.

(** ** Splitting a span *)
Lemma wp_RecordSpan h p s (Q : () → Heap → Prop) :
  spans h !! p = Some s → pm_wf (pagemap_ h) → 0 ≤ start s → 1 ≤ length s →
  start s + length s < 2 ^ 64 → pm_has (pagemap_ h) (start s) →
  pm_has (pagemap_ h) (start s + length s - 1) →
  (∀ pm, map_step (pagemap_ h) pm →
     (∀ x, pm_at pm x =
        if decide (x = start s ∨ x = start s + length s - 1) then p else pm_at (pagemap_ h) x) →
     Q tt (with_pagemap h pm)) → wp ab (RecordSpan p) Q h.
Proof.
  intros Hp Hwf Hs Hl Hb Hh1 Hh2 HQ. unfold RecordSpan. apply wp_bind, (wp_load _ _ _ _ _ Hp).
  apply wp_bind, wp_pagemap_set; [done..|]. intros pm [Hwf1 Hhas1] Hat1. rewrite uadd_small, usub_small by lia.
  apply wp_if; intros Hc.
  - apply wp_pagemap_set; [done|by apply Hhas1|]. intros pm2 [Hwf2 Hhas2] Hat2. simpl in *.
    apply (HQ pm2); [split; [done|by eauto]|]. intros x. rewrite Hat2, Hat1.
    repeat case_decide; (done || lia).
  - apply Z.ltb_ge in Hc. apply wp_ret, HQ; [done|]. intros x. rewrite Hat1.
    repeat case_decide; (done || lia).
Qed.

(** What the operations on one span leave alone, but for metadata taken from the
    system. *)
Record only_grown h h' : Prop := {
  og_system : system_bytes (stats_ h') = system_bytes (stats_ h);
  og_traces : stacktrace_allocator h' = stacktrace_allocator h;
  og_growth : growth_stacks h' = growth_stacks h;
  og_index : release_index_ h' = release_index_ h;
  og_aggressive : aggressive_decommit_ h' = aggressive_decommit_ h;
  og_wf : sa_wf (world h');
  og_le : sys_le (world h) (world h');
}.
Lemma inv_split h h' p q s s' t n : inv h ∅ →
  spans h !! p = Some s → spans h !! q = None → 0 < q → 0 < n < length s →
  start s' = start s → length s' = n → location s' = IN_USE → sizeclass s' = 0 →
  start t = start s + n → length t = length s - n → location t = location s → sizeclass t = 0 →
  spans h' = <[p := s']> (<[q := t]> (spans h)) → map_step (pagemap_ h) (pagemap_ h') →
  (∀ x, pm_at (pagemap_ h') x = if decide (x = start s + n - 1) then p
     else if decide (x = start t ∨ x = start t + length t - 1) then q else pm_at (pagemap_ h) x) →
  lists_ok h' ∅ → only_grown h h' →
  oa_rep (span_allocator h') (world h') ({[q]} ∪ dom (spans h)) → inv h' ∅.
Proof.
  intros [I1 I2 I3 I4 I5 I6] Hp Hq Hqp Hn Es1 Es2 Ls Cs Et1 Et2 Lt Ct Esp Hmap Hat Hok [] Hrep.
  assert (p ≠ q) as Hne by congruence.
  assert (∀ r u, spans h' !! r = Some u →
    (r = p ∧ u = s') ∨ (r = q ∧ u = t) ∨ (r ≠ p ∧ r ≠ q ∧ spans h !! r = Some u)) as Hin.
  { intros r u Hr. rewrite Esp in Hr. apply lookup_insert_Some in Hr as [[-> ->]|[? Hr]]; [by left|].
    apply lookup_insert_Some in Hr as [[-> ->]|[? Hr]]; [by right; left|by right; right]. }
  split.
  - rewrite Esp. eapply geom_split; try done; by intros [_ ?].
  - done.
  - destruct I3 as [S1 S2 (live & S3 & S3') S4 S5 S6]. pose proof og_le0 as [Hgiven Htaken].
    split; rewrite ?og_system0, ?og_traces0, ?og_growth0; try done.
    + rewrite Esp, !dom_insert_L. apply elem_of_dom_2 in Hp.
      by rewrite (subseteq_union_1_L {[p]}) by (apply singleton_subseteq_l, elem_of_union; by right).
    + exists live. split; [by eapply oa_mono|done].
    + intros r u a Hr Ha. apply Hgiven. apply Hin in Hr as [[-> ->]|[[-> ->]|(_ & _ & Hr)]];
        [apply (S4 p s); [done|lia]..|by eapply S4].
    + replace (all_pages (spans h')) with (all_pages (spans h)); [done|].
      rewrite Esp. unfold all_pages.
      rewrite (wsum_change _ (λ _ s, length s) _ p s) by (done || by rewrite lookup_insert_ne).
      rewrite wsum_insert by done. lia.
    + lia.
  - intros loc r1 r2 u1 u2 Hfl (Hr1 & L1 & _) (Hr2 & L2 & _).
    unfold free_loc in Hfl. apply Hin in Hr1, Hr2.
    assert (∀ r u, r ≠ p → spans h !! r = Some u → covers s (start u + length u - 1) → False) as Hover.
    { intros r u Hr Hu Hc. apply Hr, (g_disjoint _ _ I1 r p u s (start u + length u - 1)); [done..| |done].
      pose proof (lk_span _ _ I2 _ _ Hu). unfold covers. lia. }
    destruct Hr1 as [[-> ->]|[[-> ->]|(Hr1p & Hr1q & Hr1)]]; [congruence| |];
      destruct Hr2 as [[-> ->]|[[-> ->]|(Hr2p & Hr2q & Hr2)]]; try congruence.
    + lia.
    + rewrite Et1, Et2. intros E. apply (I4 loc p r2 s u2 Hfl); [split; [done|]|split; [done|]|lia];
        split; (congruence || set_solver).
    + intros E. apply (Hover r1 u1); [done|done|]. unfold covers. lia.
    + apply (I4 loc r1 r2); [done|split; [done|]|split; [done|]]; split; (done || set_solver).
  - congruence.
  - by rewrite og_index0.
Qed.

(** The number of span objects. *)
Lemma spans_few h F : lists_ok h F → sys_ok h → Z.of_nat (size (dom (spans h))) < INT_MAX.
Proof.
  intros Hl Hs. destruct (sys_pages taken_bound _ Hs) as [_ Hp]. rewrite <- wsum_one.
  assert (wsum (λ _ _, 1) (spans h) ≤ all_pages (spans h)); [|unfold INT_MAX; lia].
  apply wsum_le. intros q t Hq. by apply (lk_span _ _ Hl q).
Qed.

(** A span that comes into use separates no free neighbours. *)
Lemma coalesced_used m p s : coalesced m ∅ → location s = IN_USE → coalesced (<[p := s]> m) ∅.
Proof.
  intros Hco Hl loc q1 q2 t1 t2 Hfl (Hq1 & L1 & _) (Hq2 & L2 & _). unfold free_loc in Hfl.
  apply lookup_insert_Some in Hq1 as [[<- <-]|[? Hq1]]; [congruence|].
  apply lookup_insert_Some in Hq2 as [[<- <-]|[? Hq2]]; [congruence|]. by apply (Hco loc q1 q2).
Qed.

(** ** [Carve] *)
(** The span [p] of [h], whose record was [s], has been taken off its list. *)
Record taken h p s h1 (s1 : Span) : Prop := {
  tk_listed : listed (spans h) ∅ (location s) p s;
  tk_free : free_loc (location s);
  tk_spans : spans h1 = <[p := s1]> (spans h);
  tk_span : s1 = set_location (set_iter s None) IN_USE;
  tk_lists : lists_ok h1 ∅;
  tk_only : lists_only h h1;
  tk_counts : counts_moved h h1 (location s) (8192 * - length s);
}.
(** What carving [n] pages at [p] does, but for committing them. *)
Record carved h p s n h' : Prop := {
  cv_inv : inv h' ∅;
  cv_span : spans h' !! p = Some (set_length (set_location (set_iter s None) IN_USE) n);
  cv_used : used_but p h h';
  cv_committed : committed_bytes (stats_ h') = committed_bytes (stats_ h);
  cv_grown : only_grown h h';
  cv_counts : counts_moved h h' (location s) (8192 * - n);
}.
Lemma eta_pagemap h : with_pagemap h (pagemap_ h) = h.
Proof. by destruct h. Qed.
Lemma set_length_id s : set_length s (length s) = s.
Proof. by destruct s. Qed.

Lemma taken_whole h p s h1 s1 : inv h ∅ → taken h p s h1 s1 → carved h p s (length s) h1.
Proof.
  intros [I1 I2 I3 I4 I5 I6] [Hlist Hfree Hsp Hs1 Hok Hlo Hcm]. pose proof Hlist as (Hp & _ & _).
  pose proof (lists_only_same_sys _ _ Hlo) as Hss.
  assert (sys_ok h1) as Hsys.
  { apply (sys_ok_update h h1 p s s1); [done|done|apply (lo_allocator _ _ Hlo)|done|done|by subst s1|by subst s1]. }
  split.
  - split; [|done|done| |by rewrite (lo_aggressive _ _ Hlo)|by rewrite (lo_index _ _ Hlo)].
    + rewrite Hsp, (lo_pagemap _ _ Hlo). eapply geom_update; [exact Hp|by subst s1|by subst s1| |done].
      intros [_ Hc]. exfalso. apply Hc. subst s1. exact (lk_class _ _ I2 _ _ Hp Hfree).
    + rewrite Hsp. apply coalesced_used; [done|by subst s1].
  - rewrite Hsp, lookup_insert_eq, Hs1.
    change (length s) with (length (set_location (set_iter s None) IN_USE)). by rewrite set_length_id.
  - intros q u Hq _. by rewrite Hsp, lookup_insert_ne.
  - by destruct Hss.
  - destruct Hss. split; [done..| |]; rewrite ss_world; [apply (so_wf _ I3)|reflexivity].
  - done.
Qed.

(** A free span has no free neighbour of its kind. *)
Lemma next_differs h p s q u : inv h ∅ → listed (spans h) ∅ (location s) p s → free_loc (location s) →
  spans h !! q = Some u → start u = start s + length s →
  bool_decide (location u = IN_USE) || negb (bool_decide (location u = location s)) = true.
Proof.
  intros [_ _ _ I4 _ _] Hlist Hfree Hq Hst. case_bool_decide as E1; [done|].
  case_bool_decide as E2; [|done]. exfalso.
  apply (I4 (location s) p q s u Hfree Hlist); [|done]. split; [done|]. split; [done|]. set_solver.
Qed.

Lemma wp_carve_leftover h p s h1 s1 n (Q : () → Heap → Prop) :
  inv h ∅ → taken h p s h1 s1 → 0 < n ≤ length s →
  (∀ h', carved h p s n h' → Q tt h') →
  wp ab (carve_leftover p (location s) (length s - n) n) Q h1.
Proof.
  intros Hinv Htk Hn HQ. pose proof Hinv as [I1 I2 I3 I4 I5 I6].
  pose proof Htk as [Hlist Hfree Hsp Hs1 Hok Hlo Hcm]. pose proof Hlist as (Hp & _ & _).
  destruct (span_bytes taken_bound _ _ _ _ I1 I2 I3 Hp) as (_ & _ & B1 & B2 & B3).
  pose proof (bits_range (W := W)) as HB. pose proof (lo_pagemap _ _ Hlo) as Epm.
  pose proof (lo_world _ _ Hlo) as Ew. pose proof (lo_allocator _ _ Hlo) as Ea.
  unfold carve_leftover. apply wp_if; intros Hx; [|apply Z.ltb_ge in Hx].
  2: { apply wp_ret, HQ. assert (n = length s) as -> by lia. by eapply taken_whole. }
  apply Z.ltb_lt in Hx. apply wp_bind, (wp_load _ _ s1); [rewrite Hsp; apply lookup_insert_eq|].
  assert (start s1 = start s ∧ length s1 = length s) as [Est Eln] by (by subst s1). rewrite Est, uadd_small by lia.
  apply wp_bind, (wp_NewSpan _ _ _ _ _ (dom (spans h))).
  { rewrite Ew. apply (so_wf _ I3). }
  { rewrite Ew, Ea. apply (so_spans _ I3). }
  { by eapply spans_few. }
  intros q a w Hqp Hqn Hwf Hle Hrep. apply not_elem_of_dom in Hqn. rewrite Ew in Hle.
  assert (q ≠ p) as Hqp' by (intros ->; congruence).
  assert (spans h1 !! q = None) as Hq1 by (by rewrite Hsp, lookup_insert_ne).
  apply wp_bind. eapply wp_store; [apply lookup_insert_eq|]. simpl spans. rewrite insert_insert_eq.
  set (t := set_location _ _). set (h2 := with_spans _ _).
  assert (lists_ok h2 {[q]}) as Hok2.
  { pose proof (lists_ok_new h1 ∅ q (zero_span (start s + n) (length s - n)) Hok Hq1
      (not_elem_of_empty q) Hqp eq_refl ltac:(simpl; lia) eq_refl) as Hok2.
    rewrite union_empty_r_L in Hok2.
    apply (lists_ok_update _ _ {[q]} q (zero_span (start s + n) (length s - n)) t) in Hok2; [|apply lookup_insert_eq|done|
      by left; apply elem_of_singleton|by left; apply elem_of_singleton|done|simpl; lia|done].
    eapply lists_ok_frame; [..|exact Hok2]; try done. simpl. by rewrite insert_insert_eq. }
  apply wp_bind, (wp_RecordSpan _ _ t); [apply lookup_insert_eq|simpl; rewrite ?Epm..|].
  { apply (g_wf _ _ I1). } { lia. } { lia. } { lia. }
  { apply (g_has _ _ I1 p s); [done|lia]. } { apply (g_has _ _ I1 p s); [done|lia]. }
  intros pm1 Hmap1 Hat1. simpl in Hmap1, Hat1. rewrite Epm in Hmap1, Hat1.
  apply wp_bind, (wp_load _ q t); [apply lookup_insert_eq|]. simpl start. simpl length.
  rewrite uadd_small by lia. apply wp_bind, wp_GetDescriptor; [apply Hmap1|lia|].
  replace (start s + n + (length s - n)) with (start s + length s) by lia.
  assert (pm_at pm1 (start s + length s) = pm_at (pagemap_ h) (start s + length s)) as Enext.
  { rewrite Hat1, decide_False by lia. done. }
  simpl pagemap_. rewrite Enext. apply wp_bind.
  set (next := pm_at (pagemap_ h) (start s + length s)).
  assert (wp ab (if next =? 0 then mret tt else u ← load next;
      ASSERT (bool_decide (location u = IN_USE) || negb (bool_decide (location u = location t))))
    (λ _ h', h' = with_pagemap h2 pm1) (with_pagemap h2 pm1)) as Hnext.
  { apply wp_if; intros Hz; [done|]. apply Z.eqb_neq in Hz.
    destruct (geom_next _ _ _ _ I1 Hp) as [|(u & Hu & Hst & Hup)]; [done|]. fold next in Hu, Hup.
    assert (next ≠ q) by (intros E; congruence).
    apply wp_bind, (wp_load _ _ u); [simpl; by rewrite lookup_insert_ne, Hsp, lookup_insert_ne|].
    apply wp_ASSERT; [|done]. exact (next_differs h p s next u Hinv Hlist Hfree Hu Hst). }
  eapply wp_mono; [exact Hnext|]. intros _ h' ->.
  pose proof (bytes_total _ _ _ I2 I3 Hfree) as Htot. destruct (sys_pages taken_bound _ I3) as [Hsb _].
  pose proof (Hcm _ Hfree) as Hcml. rewrite decide_True in Hcml by done.
  pose proof (lists_ok_length_sum _ _ _ _ _ I2 Hlist).
  apply wp_bind, (wp_PrependToFreeList _ _ {[q]} _ t).
  { by eapply lists_ok_frame; [..|exact Hok2]. }
  { apply lookup_insert_eq. } { by apply elem_of_singleton. } { done. } { simpl; lia. }
  { intros r u (Hr & Lu & Hn') Hst. simpl in Hr, Lu, Hst. rewrite elem_of_singleton in Hn'.
    rewrite lookup_insert_ne, Hsp in Hr by done.
    apply lookup_insert_Some in Hr as [[<- <-]|[Hrp Hr]]; [subst s1; simpl in Lu; by rewrite <- Lu in Hfree|].
    apply Hrp, (g_disjoint _ _ I1 p r s u (start u)); [done..| |]; unfold covers;
      pose proof (lk_span _ _ I2 _ _ Hr); lia. }
  { simpl location. simpl length. simpl stats_. lia. }
  intros h3 it Hlo3 Hok3 Hsp3 Hcm3. rewrite difference_diag_L in Hok3.
  simpl in Hsp3. rewrite insert_insert_eq in Hsp3.
  assert (spans h3 !! p = Some s1) as Hp3.
  { rewrite Hsp3, lookup_insert_ne, Hsp by done. apply lookup_insert_eq. }
  apply wp_bind, (wp_store _ _ _ _ _ _ Hp3). apply wp_bind.
  apply (wp_load _ p (set_length s1 n)); [apply lookup_insert_eq|].
  simpl start. rewrite Est, uadd_small, usub_small by lia.
  pose proof (lo_pagemap _ _ Hlo3) as Epm3. simpl in Epm3. destruct Hmap1 as [Hwf1 Hhas1].
  apply wp_pagemap_set; [simpl; by rewrite Epm3|simpl; rewrite Epm3; apply Hhas1, (g_has _ _ I1 p s); [done|lia]|].
  intros pm4 [Hwf4 Hhas4] Hat4. simpl in Hhas4, Hat4. rewrite Epm3 in Hhas4, Hat4. apply HQ.
  set (s4 := set_length s1 n). set (t4 := set_iter t it) in *.
  assert (<[p:=s4]> (spans h3) = <[p:=s4]> (<[q:=t4]> (spans h))) as Esp4.
  { rewrite Hsp3, Hsp, (insert_insert_ne _ q p) by done. by rewrite insert_insert_eq. }
  assert (only_grown h (with_pagemap (with_spans h3 (<[p:=s4]> (spans h3))) pm4)) as Hgrown.
  { destruct Hlo, Hlo3. simpl in *. split; simpl; try congruence. }
  split.
  - eapply (inv_split h _ p q s s4 t4 n); [done|done|done|done|lia|done|done|by subst s4 s1|
      by subst s4 s1; apply (lk_class _ _ I2 p s)|done|done|done|done|
      exact Esp4|split; [done|by eauto]| | |done|].
    + intros x. simpl pagemap_. rewrite Hat4, Hat1. simpl. done.
    + eapply lists_ok_frame; [..|apply (lists_ok_update h3 ∅ ∅ p s1 s4 Hok3 Hp3)]; try done;
        [by right; subst s1|by right; subst s4 s1|by subst s4 s1|simpl; lia|by subst s4 s1; intros []].
    + simpl. rewrite (lo_allocator _ _ Hlo3), (lo_world _ _ Hlo3). done.
  - simpl. rewrite lookup_insert_eq. by subst s4 s1.
  - intros r u Hr Hu. simpl. rewrite Esp4, lookup_insert_ne by done.
    destruct (decide (r = q)) as [->|]; [|by rewrite lookup_insert_ne].
    rewrite lookup_insert_eq. split; [intros [= <-]; done|congruence].
  - destruct Hlo, Hlo3. simpl in *. congruence.
  - done.
  - intros l Hl. pose proof (Hcm l Hl). pose proof (Hcm3 l Hl) as C3. simpl in C3 |- *. case_decide; lia.
Qed.

(** [p] is a span in use of [n] pages, which it was not; the other spans in use
    are as they were. *)
Record allocated h n p h' : Prop := {
  ac_span : ∃ s, spans h' !! p = Some s ∧ location s = IN_USE ∧ length s = n ∧ sizeclass s = 0;
  ac_fresh s : spans h !! p = Some s → location s ≠ IN_USE;
  ac_used : used_but p h h';
}.

Lemma wp_Carve h p s n (Q : Z → Heap → Prop) :
  good h → listed (spans h) ∅ (location s) p s → free_loc (location s) → 0 < n ≤ length s →
  (∀ h', good h' → allocated h n p h' → only_grown h h' → Q p h') → wp ab (Carve p n) Q h.
Proof.
  intros Hgood Hlist Hfree Hn HQ. pose proof Hgood as [Hinv [Hb Hc]]. pose proof Hinv as [I1 I2 I3 I4 I5 I6].
  pose proof Hlist as (Hp & _ & _). destruct (good_bytes _ Hgood) as (_ & Hub & Hcb & Hsb).
  pose proof (span_length taken_bound _ _ _ _ I2 I3 Hp) as Hlen.
  unfold Carve. apply wp_bind, wp_ASSERT; [by apply Z.ltb_lt; lia|]. apply wp_bind, (wp_load _ _ _ _ _ Hp).
  apply wp_bind, wp_ASSERT; [by apply negb_true_iff, bool_decide_eq_false|].
  apply wp_bind, (wp_RemoveFromFreeList _ _ ∅ _ s); [done|done|done| |].
  { pose proof (bytes_total _ _ _ I2 I3 Hfree). lia. }
  intros h1 Hlo Hok1 Hsp1 Hcm1. rewrite union_empty_r_L in Hok1.
  apply wp_bind, (wp_store _ _ _ (set_iter s None)); [rewrite Hsp1; apply lookup_insert_eq|].
  set (s1 := set_location _ _). set (h2 := with_spans _ _).
  assert (taken h p s h2 s1) as Htk.
  { split; [done|done| |done| |by destruct Hlo; split|done].
    - simpl. by rewrite Hsp1, insert_insert_eq.
    - apply (lists_ok_update h1 {[p]} ∅ p (set_iter s None)); [done| | | | |done|simpl; lia|by intros []].
      + rewrite Hsp1. apply lookup_insert_eq.
      + intros q Hq. by rewrite elem_of_singleton.
      + left. by apply elem_of_singleton.
      + by right. }
  apply wp_bind, (wp_load _ _ s1); [apply lookup_insert_eq|]. simpl length.
  rewrite to_int_small by (unfold INT_MAX; lia).
  apply wp_bind, wp_ASSERT; [by apply Z.leb_le; lia|].
  apply wp_bind, (wp_carve_leftover h p s h2 s1 n); [done|done|done|]. intros h3 [C1 C2 C3 C4 C5 C6].
  assert (unmapped_bytes (stats_ h3) = unmapped_bytes (stats_ h) +
    (if decide (location s = ON_RETURNED_FREELIST) then 8192 * - n else 0)) as Cu
    by exact (C6 ON_RETURNED_FREELIST ltac:(done)).
  set (s3 := set_length _ n) in *. pose proof C5 as [G1 G2 G3 G4 G5 G6 G7].
  assert (∀ h4, good h4 → spans h4 = spans h3 → only_grown h h4 →
    wp ab (s ← load p; _ ← ASSERT (bool_decide (location s = IN_USE)); _ ← ASSERT (length s =? n);
      t ← gets stats_;
      _ ← ASSERT (uadd (unmapped_bytes t) (committed_bytes t) =? system_bytes t); mret p) Q h4) as Hend.
  { intros h4 Hg4 E4 Hgr4. apply wp_bind, (wp_load _ _ s3); [by rewrite E4|].
    apply wp_bind, wp_ASSERT; [by apply bool_decide_eq_true|]. apply wp_bind, wp_ASSERT; [by apply Z.eqb_eq|].
    apply wp_bind, wp_gets, wp_bind, wp_committed_check; [done|]. apply wp_ret, HQ; [done| |done].
    split; [exists s3; rewrite E4; split_and!; try done; by apply (lk_class _ _ I2 p s)|by rewrite Hp; intros u [= <-]|].
    intros q u Hq Hu. rewrite E4. by apply C3. }
  apply wp_bind. destruct (decide (location s = ON_RETURNED_FREELIST)) as [Hl|Hl].
  - apply (wp_CommitSpan taken_bound _ h3 ∅ p s3); [done|done|rewrite C4; lia|]. intros h4 Hw.
    pose proof (inv_world _ _ _ _ Hw C1) as Hinv4. apply Hend.
    + split; [done|]. destruct Hw. simpl in *. split; lia.
    + apply Hw.
    + destruct Hw. split; try congruence. by etrans.
  - apply wp_ret, Hend; [|done|done].
    split; [done|]. split; lia.
Qed.

(** ** [Split] *)
(** The span [p] keeps its first [n] pages and the new span [q] has the others. *)
Record split_off h p s n q h' : Prop := {
  sp_first : spans h' !! p = Some (set_length s n);
  sp_rest : spans h' !! q = Some (zero_span (start s + n) (length s - n));
  sp_new : spans h !! q = None;
  sp_others r : r ≠ p → r ≠ q → spans h' !! r = spans h !! r;
}.

Lemma wp_Split h p s n (Q : Z → Heap → Prop) :
  good h → spans h !! p = Some s → location s = IN_USE → sizeclass s = 0 → 0 < n < length s →
  (∀ q h', good h' → split_off h p s n q h' → Q q h') → wp ab (Split p n) Q h.
Proof.
  intros [Hinv [Hb Hc]] Hp Hl Hsc Hn HQ. pose proof Hinv as [I1 I2 I3 I4 I5 I6].
  destruct (span_bytes taken_bound _ _ _ _ I1 I2 I3 Hp) as (_ & _ & B1 & B2 & B3).
  pose proof (bits_range (W := W)) as HB.
  unfold Split. apply wp_bind, wp_ASSERT; [by apply Z.ltb_lt; lia|]. apply wp_bind, (wp_load _ _ _ _ _ Hp).
  apply wp_bind, wp_ASSERT; [by apply Z.ltb_lt; lia|].
  apply wp_bind, wp_ASSERT; [by apply bool_decide_eq_true|]. apply wp_bind, wp_ASSERT; [by apply Z.eqb_eq|].
  rewrite to_int_small by (unfold INT_MAX; lia).
  replace (Prelude.size_t (length s - n)) with (length s - n)
    by (unfold Prelude.size_t; rewrite Z.mod_small; lia).
  rewrite uadd_small by lia.
  apply wp_bind, (wp_NewSpan _ _ _ _ _ (dom (spans h))); [apply (so_wf _ I3)|apply (so_spans _ I3)|
    by eapply spans_few|].
  intros q a w Hqp Hqn Hwf Hle Hrep. apply not_elem_of_dom in Hqn.
  set (t := zero_span _ _). set (h1 := with_links _ _). assert (q ≠ p) as Hqp' by (intros ->; congruence).
  apply wp_bind, (wp_load _ q t); [apply lookup_insert_eq|]. apply wp_bind, wp_ASSERT; [done|].
  apply wp_bind, (wp_RecordSpan _ q t); [apply lookup_insert_eq|apply (g_wf _ _ I1)|simpl; lia..| | |].
  { apply (g_has _ _ I1 p s); [done|simpl; lia]. } { apply (g_has _ _ I1 p s); [done|simpl; lia]. }
  intros pm1 [Hwf1 Hhas1] Hat1. rewrite usub_small by lia.
  apply wp_bind, wp_pagemap_set; [done|apply Hhas1, (g_has _ _ I1 p s); [done|lia]|].
  intros pm2 [Hwf2 Hhas2] Hat2. simpl in Hhas2, Hat1, Hat2.
  apply wp_bind, (wp_store _ _ _ s); [simpl; by rewrite lookup_insert_ne|]. apply wp_ret.
  set (h2 := with_spans _ _). assert (lists_ok h2 ∅) as Hok2.
  { apply (lists_ok_update (with_pagemap (with_pagemap h1 pm1) pm2) ∅ ∅ p s (set_length s n)); [|simpl; by rewrite lookup_insert_ne|
      done|by right|by right| |simpl; lia|by intros []].
    - pose proof (lists_ok_new h ∅ q t I2 Hqn (not_elem_of_empty q) Hqp eq_refl ltac:(simpl; lia) eq_refl) as Hok.
      apply (lists_ok_float _ _ ∅ q t) in Hok; [|apply lookup_insert_eq| |by right|by right].
      + by eapply lists_ok_frame; [..|exact Hok].
      + intros r Hr. set_solver.
    - simpl. rewrite (lk_iter _ _ I2 _ _ Hp), decide_False; [done|]. by intros [? _]. }
  apply HQ; [split|split].
  - eapply (inv_split h h2 p q s (set_length s n) t n); try done; [split; [done|by eauto]|].
    intros x. simpl pagemap_. rewrite Hat2, Hat1. done.
  - done.
  - simpl. by rewrite lookup_insert_eq.
  - simpl. by rewrite lookup_insert_ne, lookup_insert_eq.
  - done.
  - intros r Hr1 Hr2. simpl. by rewrite !lookup_insert_ne.
Qed.

(** ** [RegisterSizeClass] *)
(** The first [i] pages of the span lead to it. *)
Definition registered (pm : P) p s (i : Z) : Prop :=
  ∀ x, start s ≤ x < start s + i → pm_at pm x = p.

Lemma wp_register_loop fuel m p s (Q : () → Heap → Prop) : ∀ i h,
  good (with_spans h m) → m !! p = Some s →
  (∃ s1, spans h !! p = Some s1 ∧ start s1 = start s ∧ length s1 = length s) → ¬ classed s →
  length s - i < Z.of_nat fuel → 1 ≤ i ≤ length s → registered (pagemap_ h) p s i →
  (∀ pm, good (with_spans (with_pagemap h pm) m) → registered pm p s (length s) → Q tt (with_pagemap h pm)) →
  wp ab (register_loop fuel i p) Q h.
Proof.
  induction fuel as [|fuel IH]; intros i h Hgood Hp (s1 & Hp1 & E1 & E2) Hcl Hf Hi Hreg HQ; [lia|].
  pose proof Hgood as [[I1 I2 I3 I4 I5 I6] Hb]. pose proof (bits_range (W := W)).
  destruct (span_bytes taken_bound _ _ _ _ I1 I2 I3 Hp) as (_ & _ & B1 & B2 & B3).
  cbn [register_loop]. apply wp_bind, (wp_load _ _ _ _ _ Hp1). rewrite E2, usub_small by lia.
  apply wp_if; intros Hc; [apply Z.ltb_lt in Hc|apply Z.ltb_ge in Hc].
  - rewrite E1, uadd_small by lia.
    apply wp_bind, wp_pagemap_set; [apply (g_wf _ _ I1)|apply (g_has _ _ I1 p s); [done|lia]|].
    intros pm [Hwf Hhas] Hat. apply IH; [|done|by exists s1|done|lia|lia| |exact HQ].
    + split; [|done]. split; try done.
      * destruct I1 as [G1 G2 G3 G4 G5 G6 G7 G8]. split; try done; simpl.
        -- intros r u Hr. rewrite Hat. case_decide as E; [|by apply G4].
           pose proof (G2 _ _ Hr). apply (G3 p r s u (start u)); [done..| |]; unfold covers; lia.
        -- intros r u Hr. rewrite Hat. case_decide as E; [|by apply G5].
           pose proof (G2 _ _ Hr). apply (G3 p r s u (start u + length u - 1)); [done..| |]; unfold covers; lia.
        -- intros x Hx. rewrite Hat, decide_False; [by apply G6|]. intros ->.
           apply (Hx p s Hp). unfold covers. lia.
        -- intros r u x Hr Hx. apply Hhas. by eapply G7.
        -- intros r u x Hr Hu Hx. rewrite Hat. case_decide as E; [|by eapply G8].
           apply (G3 p r s u x); [done..| |done]. unfold covers. lia.
      * by eapply lists_ok_frame; [..|exact I2].
      * by destruct I3.
    + intros x Hx. simpl. rewrite Hat. case_decide; [done|]. apply Hreg. lia.
  - apply wp_ret. rewrite <- (eta_pagemap h). apply HQ; [by rewrite eta_pagemap|].
    intros x Hx. destruct (Z.eq_dec x (start s + length s - 1)) as [->|]; [by apply (g_last _ _ I1)|].
    apply Hreg. lia.
Qed.

(** The size class of a span in use is no concern of the invariant, but for the
    pages that map to it. *)
Lemma good_set_class h p s c : good h → spans h !! p = Some s → location s = IN_USE →
  c = 0 ∨ registered (pagemap_ h) p s (length s) → good (with_spans h (<[p := set_sizeclass s c]> (spans h))).
Proof.
  intros [Hinv Hb] Hp Hl Hc. pose proof Hinv as [I1 I2 I3 I4 I5 I6].
  pose proof (lk_span _ _ I2 _ _ Hp). split; [|done].
  split; [| |by eapply (sys_ok_update h _ p s)| |done|done].
  - destruct Hc as [->|Hreg]; [eapply geom_update; [exact Hp|done|done|by intros [_ ?]|done]|].
    apply geom_register; [done..|]. intros x Hx. apply Hreg. unfold covers in Hx. lia.
  - apply (lists_ok_update h ∅ ∅ p s (set_sizeclass s c)); try done; [by right|by right| |simpl; lia].
    simpl. rewrite (lk_iter _ _ I2 _ _ Hp), decide_False; [done|]. by intros [? _].
  - by apply coalesced_used.
Qed.
Lemma wp_RegisterSizeClass fuel h p s sc (Q : () → Heap → Prop) :
  good h → spans h !! p = Some s → location s = IN_USE → length s < Z.of_nat fuel →
  (∀ h', good h' → spans h' = <[p := set_sizeclass s (sc mod 2 ^ 8)]> (spans h) → Q tt h') →
  wp ab (RegisterSizeClass fuel p sc) Q h.
Proof.
  intros Hgood Hp Hl Hf HQ. pose proof Hgood as [Hinv Hb]. pose proof Hinv as [I1 I2 I3 I4 I5 I6].
  destruct (span_bytes taken_bound _ _ _ _ I1 I2 I3 Hp) as (_ & _ & B1 & B2 & B3).
  unfold RegisterSizeClass. apply wp_bind, (wp_load _ _ _ _ _ Hp).
  apply wp_bind, wp_ASSERT; [by apply bool_decide_eq_true|]. apply wp_ends_check; [done|done|].
  set (s1 := set_sizeclass s _) in *. apply wp_bind, (wp_store _ _ _ s); [done|]. fold s1.
  set (h1 := with_spans _ _). set (m := <[p := set_sizeclass s 0]> (spans h)).
  apply (wp_register_loop fuel m p (set_sizeclass s 0)).
  - apply (good_set_class h p s 0); auto.
  - apply lookup_insert_eq.
  - exists s1. split; [apply lookup_insert_eq|done].
  - by intros [_ ?].
  - simpl. lia.
  - simpl. lia.
  - intros x Hx. simpl in Hx |- *. replace x with (start s) by lia. by apply (g_first _ _ I1).
  - intros pm Hg Hreg. apply HQ; [|done].
    pose proof (good_set_class _ p (set_sizeclass s 0) (sc mod 2 ^ 8) Hg (lookup_insert_eq _ _ _) Hl
      (or_intror Hreg)) as Hg'.
    simpl in Hg'. unfold m in Hg'. rewrite insert_insert_eq in Hg'. exact Hg'.
Qed.

(** ** [Delete] *)
(** [p] is in use no more, and the other spans in use are as they were. *)
Record freed h (p : Z) h' : Prop := {
  fr_used q t : location t = IN_USE → spans h' !! q = Some t ↔ q ≠ p ∧ spans h !! q = Some t;
  fr_system : system_bytes (stats_ h') = system_bytes (stats_ h);
  fr_taken : SystemTaken (world h') = SystemTaken (world h);
}.

Section with_fuel.
Variable fuel : nat.
Hypothesis fuel_enough : 2 ^ 30 ≤ Z.of_nat fuel.
Hypothesis rate_number : tcmalloc_release_rate flags ≠ S754_nan.

Lemma wp_Delete h p s (Q : () → Heap → Prop) :
  good h → spans h !! p = Some s → location s = IN_USE →
  (∀ h', good h' → freed h p h' → Q tt h') → wp ab (Delete flags fuel p) Q h.
Proof.
  intros Hgood Hp Hl HQ. pose proof Hgood as [Hinv [Hb Hc]]. pose proof Hinv as [I1 I2 I3 I4 I5 I6].
  pose proof (lk_span _ _ I2 _ _ Hp) as [_ Hlen].
  unfold Delete. apply wp_bind, (wp_load _ _ _ _ _ Hp).
  apply wp_bind, wp_ASSERT; [by apply bool_decide_eq_true|].
  apply wp_bind, wp_ASSERT; [by apply Z.ltb_lt; lia|].
  apply wp_ends_check; [done|done|].
  apply wp_bind, (wp_store _ _ _ s); [done|].
  apply wp_bind. eapply wp_store; [apply lookup_insert_eq|].
  apply wp_bind. eapply wp_store; [apply lookup_insert_eq|]. simpl. rewrite !insert_insert_eq.
  set (s3 := set_location _ _). set (h3 := with_spans _ _).
  assert (lists_ok h3 {[p]}) as Hok3.
  { apply (lists_ok_update h ∅ {[p]} p s s3); try done.
    - intros q Hq. by rewrite elem_of_singleton.
    - by right.
    - left. by apply elem_of_singleton.
    - simpl. rewrite (lk_iter _ _ I2 _ _ Hp), decide_False; [done|]. by intros [? _]. }
  assert (merging h3 p s3) as Hm by (by apply (float_span h h3 p s s3)).
  apply wp_bind, (wp_MergeIntoFreeList taken_bound ab h3 p s3); [done|done|].
  intros h4 Hinv4 Hsys4 Hused4 (t & Ht & Hlt) Hcm4.
  pose proof (Hcm4 ON_RETURNED_FREELIST ltac:(done)) as C. unfold bytes_at in C. simpl in C.
  assert (good h4) as Hg4.
  { split; [done|]. destruct Hsys4. simpl in *. split; lia. }
  apply wp_bind, wp_IncrementalScavenge; [done..|]. intros h5 Hg5 Hk5.
  apply wp_bind, wp_gets, wp_committed_check; [done|]. apply HQ; [done|].
  destruct Hk5 as [K1 K2 K3], Hsys4. simpl in *. split; [|congruence..].
  intros q u Hu. rewrite K1 by done. destruct (decide (q = p)) as [->|Hne].
  - rewrite Ht. split; [intros [= ->]; congruence|by intros [? _]].
  - rewrite (Hused4 q u Hne Hu). simpl. rewrite lookup_insert_ne by done. naive_solver.
Qed.

(** ** [EnsureLimit] *)
Lemma free_pages h : good h →
  0 ≤ free_bytes (stats_ h) ∧ free_bytes (stats_ h) + unmapped_bytes (stats_ h) ≤ SystemTaken (world h) ∧
  SystemTaken (world h) < 2 ^ 43.
Proof.
  intros Hg. pose proof (good_free taken_bound _ Hg) as [Hf _]. destruct Hg as [[_ I2 I3 _ _ _] _].
  pose proof (taken_bound _ (so_wf _ I3)). pose proof (so_taken _ I3). pose proof (so_total _ I3) as Ht.
  rewrite (lk_free _ _ I2) in Hf |- *. rewrite (lk_unmapped _ _ I2).
  assert (wsum (pages_at ∅ ON_NORMAL_FREELIST) (spans h) + wsum (pages_at ∅ ON_RETURNED_FREELIST) (spans h)
    ≤ all_pages (spans h)); [|lia].
  rewrite <- wsum_plus. apply wsum_le. intros q t Hq. pose proof (lk_span _ _ I2 _ _ Hq) as [_ Hl].
  unfold pages_at. repeat case_decide; (lia || (exfalso; intuition congruence)).
Qed.

(** The limit in pages; [within h n]: there is room for [n] pages more. *)
Definition limit_pages : Z := tcmalloc_heap_limit_mb flags * 128.
Definition within h (n : Z) : Prop :=
  tcmalloc_heap_limit_mb flags = 0 ∨
  SystemTaken (world h) / 8192 - unmapped_bytes (stats_ h) / 8192 + n ≤ limit_pages.
Hypothesis limit_range : 0 ≤ tcmalloc_heap_limit_mb flags < 2 ^ 43.

Lemma wp_EnsureLimit h n (b : bool) (Q : bool → Heap → Prop) :
  good h → 0 ≤ n < 2 ^ 63 →
  (∀ (ok : bool) k h', good h' → kept h h' → released h h' k →
     (b = false ∨ tcmalloc_heap_limit_mb flags = 0 → h' = h) →
     (ok = true ↔ within h' n) → (within h n → ok = true) → Q ok h') →
  wp ab (EnsureLimit flags fuel n b) Q h.
Proof.
  intros Hg Hn HQ. pose proof (free_pages _ Hg) as (Hf & Hfu & Ht). pose proof (good_bytes _ Hg) as (_ & Hu & _ & _).
  unfold EnsureLimit. rewrite !i64_ok by lia. apply wp_bind. eapply wp_lift.
  { cbn. rewrite i64_ok by lia. cbn. reflexivity. }
  assert (Prelude.size_t (Z.shiftr (tcmalloc_heap_limit_mb flags * 1024 * 1024) kPageShift) = limit_pages) as ->.
  { unfold limit_pages, Prelude.size_t, kPageShift. rewrite Z.shiftr_div_pow2 by lia.
    change (2 ^ 13) with 8192.
    replace (tcmalloc_heap_limit_mb flags * 1024 * 1024) with (tcmalloc_heap_limit_mb flags * 128 * 8192) by lia.
    rewrite Z.div_mul, Z.mod_small; lia. }
  unfold within in HQ. destruct (Z.eqb_spec limit_pages 0) as [E|E]; unfold limit_pages in E.
  { apply wp_ret. apply (HQ true 0 h); [done|apply kept_refl|by apply released_refl|done| |done].
    split; [by left; lia|done]. }
  apply wp_bind, wp_gets, wp_bind, wp_gets. unfold kPageShift. rewrite !Z.shiftr_div_pow2 by lia.
  change (2 ^ 13) with 8192. set (T := SystemTaken (world h) / 8192) in *.
  set (U := unmapped_bytes (stats_ h) / 8192) in *.
  assert (0 ≤ U ∧ U ≤ T ∧ T < 2 ^ 30) as (HU & HUT & HT).
  { unfold U, T. split; [apply Z.div_pos; lia|]. split; [apply Z.div_le_mono; lia|].
    apply Z.div_lt_upper_bound; lia. }
  apply wp_bind, wp_ASSERT; [by apply Z.leb_le|]. rewrite usub_small, uadd_small by lia.
  assert (∀ k h', good h' → kept h h' → released h h' k → (b = false → h' = h) →
    (k = 0 ∨ limit_pages < T - U + n) →
    wp ab (mret (uadd (usub (T - U) k) n <=? limit_pages)) Q h') as Hend.
  { intros k h' Hg' Hk' Hr' Hb Hor. pose proof Hr' as (? & Hf' & Hu').
    pose proof (free_pages _ Hg') as (Hf2 & Hfu2 & Ht2).
    assert (unmapped_bytes (stats_ h') / 8192 = U + k) as EU.
    { rewrite Hu', Z.mul_comm, Z.div_add by lia. done. }
    assert (U + k ≤ T) as Hk.
    { rewrite <- EU. unfold T. rewrite <- (kp_taken _ _ Hk'). apply Z.div_le_mono; lia. }
    assert (SystemTaken (world h') / 8192 = T) as ET by (unfold T; by rewrite (kp_taken _ _ Hk')).
    rewrite usub_small, uadd_small by lia. apply wp_ret. apply (HQ _ k h'); try done.
    - intros [?|?]; [by apply Hb|lia].
    - rewrite ET, EU, Z.leb_le. unfold limit_pages in *. lia.
    - rewrite Z.leb_le. unfold limit_pages in *. lia. }
  apply wp_bind. apply wp_if; intros Hc.
  - apply andb_true_iff in Hc as [Hc ->]. apply Z.ltb_lt in Hc.
    apply wp_bind, wp_ReleaseAtLeastNPages; [done..|]. intros k h' Hg' Hk' Hr'. apply wp_ret.
    apply Hend; try done. by right.
  - apply wp_ret. replace (T - U) with (usub (T - U) 0) at 1 by (rewrite usub_small; lia).
    apply (Hend 0 h); [done|apply kept_refl|by apply released_refl|done|by left].
Qed.
End with_fuel.
End span_operations.
