(* ===== verification/Allocation.v ===== *)
(** * Allocating spans

    The best fit among the large spans, [AllocLarge], [SearchFreeAndLargeLists],
    [GrowHeap] and [New] of [page_heap.cc]: they give null or a span in use of the
    pages asked for that was not in use, and leave the other spans in use alone.
    Only one assertion may fail, and only with a limit on the heap: the one of
    [AllocLarge] on [best_normal]. *)
From stdpp Require Import base numbers list option gmap sets fin_maps fin_map_dom.
From Stdlib Require Import ZArith Lia Floats.SpecFloat.
From S2P Require Import Prelude Doubles SizeMap SpanList PageMap SystemAlloc MetaData PageHeap.
From S2P Require Import SpanSet FreeLists SpanGeometry Coalescing Releasing SpanOps.
Open Scope Z_scope.

Section allocation.
Context {W : Type} `{SysAlloc W} `{!SysAllocLaws W} `{MetaData W} `{!MetaDataLaws W}.
Context {P : Type} `{PageMap P W} `{!PageMapLaws P W}.
Context {SA : Type} `{ObjAllocator SA W} `{!ObjAllocatorLaws SA W}.
Context {TA : Type} `{ObjAllocator TA W} `{!ObjAllocatorLaws TA W}.
Abbreviation Heap := (PageHeap P SA TA W).
Implicit Types h : Heap.
Variable flags : heap_flags.
Hypothesis taken_bound : ∀ w, sa_wf w → SystemTaken w < 2 ^ 43.
Variable ab : Prop.

(** ** The best fit *)
Definition free_span h p s : Prop := listed (spans h) ∅ (location s) p s ∧ free_loc (location s).
Definition large_fit h (n : Z) p s : Prop := free_span h p s ∧ kMaxPages < length s ∧ n ≤ length s.
(** No longer, and no higher when as long. *)
Definition no_worse (s t : Span) : Prop :=
  length s < length t ∨ length s = length t ∧ start s ≤ start t.
Lemma no_worse_trans s t u : no_worse s t → no_worse t u → no_worse s u.
Proof. unfold no_worse. lia. Qed.
(** [p] is null or the best fit among the large spans of the locations [L]. *)
Definition best_among h (n : Z) (L : Location → Prop) (p : Z) : Prop :=
  (p = 0 ∧ ∀ q t, L (location t) → ¬ large_fit h n q t) ∨
  (∃ s, large_fit h n p s ∧ L (location s) ∧
     ∀ q t, L (location t) → large_fit h n q t → no_worse s t).

Lemma large_best h n loc : lists_ok h ∅ → (∀ p s, spans h !! p = Some s → 1 ≤ start s) → free_loc loc →
  ∃ o : option (Z * Z), set_upper_bound (spans h) n 0 (large_set loc h) = Ok o ∧
    best_among h n (eq loc) (match o with Some x => x.1 | None => 0 end) ∧
    match o with Some x => x.1 ≠ 0 | None => True end.
Proof.
  intros Hok Hst Hloc. destruct (lk_large _ _ Hok loc Hloc) as [Hord Hin].
  assert (∀ q t, loc = location t → large_fit h n q t →
    (q, length t) ∈ large_set loc h ∧ fits (spans h) n 0 (q, length t)) as Hfit.
  { intros q t -> ((Hl & _) & Hk & Hn). split; [apply Hin; by exists t|].
    pose proof Hl as (Hq & _ & _). pose proof (Hst _ _ Hq). unfold fits, start_of. simpl. rewrite Hq. lia. }
  destruct (set_upper_bound_spec (spans h) n 0 _ Hord) as [[E Hn]|(x & E & Hx & Hf & Hmin)].
  - exists None. split; [done|]. split; [|done]. left. split; [done|]. intros q t Hl Hlf.
    destruct (Hfit q t Hl Hlf) as [Hi Hff]. by apply (Hn _ Hi).
  - exists (Some x). split; [done|]. apply Hin in Hx as (s & Hl & El & Hk). pose proof Hl as (Hp & Ls & _).
    split; [|pose proof (lk_span _ _ Hok _ _ Hp); lia].
    right. exists s. split; [|split; [done|]].
    + split; [unfold free_span; by rewrite Ls|]. unfold fits in Hf. lia.
    + intros q t Hlt Hlf. destruct (Hfit q t Hlt Hlf) as [Hi Hff].
      destruct (Hmin _ Hi Hff) as [<-|Hkey].
      * simpl in *. destruct Hlf as ((Hl' & _) & _). pose proof Hl' as (Hq & _). assert (s = t) as -> by congruence.
        right. lia.
      * unfold key_lt, start_of in Hkey. destruct Hlf as ((Hl' & _) & _). pose proof Hl' as (Hq & _).
        simpl in Hkey. rewrite Hp, Hq in Hkey. unfold no_worse. lia.
Qed.

Lemma starts_pos h F p s : inv h F → spans h !! p = Some s → 1 ≤ start s.
Proof. intros [I1 _ _ _ _ _] Hp. by apply (g_range _ _ I1 p). Qed.

Lemma wp_best_fit h n (Q : Z * Z → Heap → Prop) : inv h ∅ →
  (∀ best best_normal, best_among h n free_loc best →
     best_among h n (eq ON_NORMAL_FREELIST) best_normal →
     (best = best_normal ∨ ∃ s, large_fit h n best s ∧ location s = ON_RETURNED_FREELIST) →
     Q (best, best_normal) h) →
  wp ab (best_fit n) Q h.
Proof.
  intros Hinv HQ. pose proof Hinv as [_ I2 _ _ _ _]. pose proof (λ p s, starts_pos h ∅ p s Hinv) as Hst.
  destruct (large_best h n ON_NORMAL_FREELIST I2 Hst ltac:(done)) as (o1 & E1 & B1 & N1).
  destruct (large_best h n ON_RETURNED_FREELIST I2 Hst ltac:(done)) as (o2 & E2 & B2 & N2).
  change (large_set ON_NORMAL_FREELIST h) with (large_normal_ h) in E1.
  change (large_set ON_RETURNED_FREELIST h) with (large_returned_ h) in E2.
  unfold best_fit. apply wp_bind, wp_gets, wp_bind, wp_gets, wp_bind. eapply wp_lift; [exact E1|].
  cbv beta zeta. set (bn := match o1 with Some x => x.1 | None => 0 end) in *. clearbody bn. apply wp_bind.
  assert (wp ab (if bn =? 0 then mret tt else s ← load bn; ASSERT (bool_decide (location s = ON_NORMAL_FREELIST)))
    (λ _ h', h' = h) h) as Hcheck.
  { apply wp_if; intros Hz; [done|]. apply Z.eqb_neq in Hz.
    destruct B1 as [[? _]|(s & (((Hp & _) & _) & _) & Hl & _)]; [done|].
    apply wp_bind, (wp_load _ _ s); [done|]. apply wp_ASSERT; [|done]. by rewrite <- Hl. }
  eapply wp_mono; [exact Hcheck|]. intros _ ? ->.
  apply wp_bind, wp_gets, wp_bind. eapply wp_lift; [exact E2|].
  assert (∀ L loc, free_loc loc → (L = free_loc ∨ L = eq loc) → L loc) as HL.
  { intros L loc Hl [->| ->]; done. }
  destruct o2 as [[c lc]|]; cycle 1.
  - apply wp_ret, HQ; [|done|by left]. destruct B2 as [[_ B2]|(s & (((Hp & _) & _) & _) & _)].
    2: { pose proof (lk_span _ _ I2 _ _ Hp). lia. }
    destruct B1 as [[E0 B1]|(s & Hs & Ls & Hmin)]; [left; split; [exact E0|]|right; exists s].
    + intros q t Hl Hf. destruct (location t) eqn:E; [by destruct Hl|by apply (B1 q t)|by apply (B2 q t)].
    + split; [done|]. split; [by rewrite <- Ls|]. intros q t Hl Hf.
      destruct (location t) eqn:E; [by destruct Hl|by apply (Hmin q t)|by destruct (B2 q t)].
  - simpl in B2, N2. destruct B2 as [[? _]|(s2 & Hs2 & Ls2 & Hmin2)]; [done|].
    pose proof Hs2 as (((Hc & _) & _) & _). simpl fst.
    apply wp_bind, (wp_load _ _ s2); [done|]. apply wp_bind, wp_ASSERT; [by rewrite <- Ls2|].
    apply wp_if; intros Hz; [apply Z.eqb_eq in Hz|apply Z.eqb_neq in Hz].
    + apply wp_ret, HQ; [|done|right; by exists s2]. right. exists s2. split; [done|].
      split; [by rewrite <- Ls2|]. intros q t Hl Hf.
      destruct B1 as [[_ B1]|(s & (((Hp & _) & _) & _) & _)].
      * destruct (location t) eqn:E; [by destruct Hl|by destruct (B1 q t)|by apply (Hmin2 q t)].
      * pose proof (lk_span _ _ I2 _ _ Hp) as [Hpos _]. rewrite Hz in Hpos. lia.
    + destruct B1 as [[? _]|(s1 & Hs1 & Ls1 & Hmin1)]; [done|]. pose proof Hs1 as (((Hb & _) & _) & _).
      apply wp_bind, (wp_load _ _ s1); [done|]. apply wp_ret.
      destruct (_ || _) eqn:E; [|apply orb_false_iff in E as [Ea Eb]].
      * apply HQ; [|right; by exists s1|right; by exists s2]. right. exists s2. split; [done|].
        split; [by rewrite <- Ls2|]. intros q t Hl Hf.
        destruct (location t) eqn:El; [by destruct Hl| |by apply (Hmin2 q t)].
        apply (no_worse_trans s2 s1); [|by apply (Hmin1 q t)]. unfold no_worse. lia.
      * apply HQ; [|right; by exists s1|by left]. right. exists s1. split; [done|].
        split; [by rewrite <- Ls1|]. intros q t Hl Hf.
        destruct (location t) eqn:El; [by destruct Hl|by apply (Hmin1 q t)|].
        apply (no_worse_trans s1 s2); [|by apply (Hmin2 q t)]. unfold no_worse. lia.
Qed.

(** ** Searching the free spans *)
Definition same_used h h' : Prop := ∀ q t, location t = IN_USE →
  spans h' !! q = Some t ↔ spans h !! q = Some t.
Lemma same_used_trans h1 h2 h3 : same_used h1 h2 → same_used h2 h3 → same_used h1 h3.
Proof. intros A B q t Ht. by rewrite (B q t Ht), (A q t Ht). Qed.
Lemma allocated_after h1 h2 n p h : same_used h1 h2 → allocated h2 n p h → allocated h1 n p h.
Proof.
  intros Hs [A1 A2 A3]. split; [done| |].
  - intros s Hp Hl. apply (A2 s); [by apply Hs|done].
  - intros q t Hq Ht. rewrite (A3 q t Hq Ht). by apply Hs.
Qed.
Definition no_limit : Prop := tcmalloc_heap_limit_mb flags = 0.
Definition no_fit h (n : Z) : Prop := ∀ q t, free_span h q t → length t < n.
(** A search gives null, when no span fits unless there is a limit, or a span. *)
Definition searched h (n : Z) (p : Z) h' : Prop :=
  good h' ∧
  (p = 0 ∧ same_used h h' ∧ (no_limit → no_fit h' n) ∨ p ≠ 0 ∧ allocated h n p h').
Lemma searched_after h1 h2 n p h : same_used h1 h2 → searched h2 n p h → searched h1 n p h.
Proof.
  intros Hs [Hg [(E & Hu & Hn)|[E Ha]]]; (split; [done|]).
  - left. split; [done|]. split; [by eapply same_used_trans|done].
  - right. split; [done|]. by eapply allocated_after.
Qed.
(** The spans of at least [s] pages: none is free below. *)
Definition none_below h (n s : Z) : Prop := ∀ q t, free_span h q t → n ≤ length t → s ≤ length t.

Variable fuel : nat.
Hypothesis fuel_enough : 2 ^ 30 ≤ Z.of_nat fuel.
Hypothesis limit_range : 0 ≤ tcmalloc_heap_limit_mb flags < 2 ^ 43.
Hypothesis may_abort : no_limit ∨ ab.

Lemma wp_Carve_search h p s n h0 (Q : Z → Heap → Prop) :
  good h → same_used h0 h → free_span h p s → 0 < n ≤ length s →
  (∀ q h', searched h0 n q h' → Q q h') → wp ab (Carve p n) Q h.
Proof.
  intros Hg Hs [Hl Hf] Hn HQ. pose proof Hg as [[_ I2 _ _ _ _] _]. pose proof Hl as (Hp & _).
  pose proof (lk_span _ _ I2 _ _ Hp). apply (wp_Carve taken_bound ab h p s); [done..|].
  intros h' Hg' Ha _. apply HQ. split; [done|]. right. split; [lia|]. by eapply allocated_after.
Qed.
Lemma within_no_limit h n : no_limit → within flags h n.
Proof. by left. Qed.
Lemma kept_same_used h h' : kept h h' → same_used h h'.
Proof. by intros []. Qed.

Lemma wp_ASSERT_may (c : bool) (Q : () → Heap → Prop) h :
  ab → (c = true → Q tt h) → wp ab (ASSERT c) Q h.
Proof. intros Hab HQ. destruct c; [by apply HQ|exact Hab]. Qed.

(** The large spans, once there is room within the limit: no call is needed. *)
Lemma wp_AllocLarge_within depth h n (Q : Z → Heap → Prop) :
  good h → within flags h n → 0 < n < 2 ^ 63 → (no_limit → none_below h n (kMaxPages + 1)) →
  (∀ p h', searched h n p h' → Q p h') → wp ab (AllocLarge flags (S depth) fuel n) Q h.
Proof.
  intros Hg Hw Hn Hbelow HQ. cbn [AllocLarge]. apply wp_bind, wp_best_fit; [apply Hg|].
  intros best bn Hb Hbn Hor.
  assert (∀ s, large_fit h n best s → wp ab (Carve best n) Q h) as Hcarve.
  { intros s (Hfree & _ & Hlen). by apply (wp_Carve_search h best s n h); [| |done|lia|]. }
  apply wp_if; intros Hc; [apply Z.eqb_eq in Hc|apply Z.eqb_neq in Hc].
  - apply wp_if; intros Hz; [apply Z.eqb_eq in Hz|apply Z.eqb_neq in Hz].
    + apply wp_ret, HQ. split; [done|]. left. split; [done|]. split; [by intros ?|].
      intros Hno q t Hfree. destruct (Z.lt_ge_cases (length t) n) as [|Hge]; [done|exfalso].
      destruct Hb as [[_ Hb]|(s & ((Hl & _) & _) & _)].
      * apply (Hb q t); [apply Hfree|]. split; [done|]. specialize (Hbelow Hno q t Hfree Hge). lia.
      * destruct Hg as [[_ I2 _ _ _ _] _]. pose proof Hl as (Hp & _). pose proof (lk_span _ _ I2 _ _ Hp). lia.
    + destruct Hb as [[? _]|(s & Hs & _)]; [done|]. by apply (Hcarve s).
  - apply wp_bind, (wp_EnsureLimit flags taken_bound ab fuel fuel_enough limit_range); [done|lia|].
    intros ok k h' Hg' Hk' _ Hsame _ Hok. rewrite (Hok Hw), (Hsame (or_introl eq_refl)).
    destruct Hor as [?|(s & Hs & _)]; [done|]. by apply (Hcarve s).
Qed.
Lemma wp_AllocLarge depth h n (Q : Z → Heap → Prop) :
  good h → 0 < n < 2 ^ 63 → (no_limit → none_below h n (kMaxPages + 1)) →
  (∀ p h', searched h n p h' → Q p h') → wp ab (AllocLarge flags (S (S depth)) fuel n) Q h.
Proof.
  intros Hg Hn Hbelow HQ. destruct (decide (no_limit)) as [Hno|Hlim].
  { apply wp_AllocLarge_within; try done. by left. }
  remember (S depth) as d eqn:Ed. cbn [AllocLarge]. apply wp_bind, wp_best_fit; [apply Hg|].
  intros best bn Hb Hbn Hor.
  assert (∀ s, large_fit h n best s → wp ab (Carve best n) Q h) as Hcarve.
  { intros s (Hfree & _ & Hlen). by apply (wp_Carve_search h best s n h); [| |done|lia|]. }
  apply wp_if; intros Hc; [apply Z.eqb_eq in Hc|apply Z.eqb_neq in Hc].
  - apply wp_if; intros Hz; [apply Z.eqb_eq in Hz|apply Z.eqb_neq in Hz].
    + apply wp_ret, HQ. split; [done|]. left. split; [done|]. split; [by intros ?|]. done.
    + destruct Hb as [[? _]|(s & Hs & _)]; [done|]. by apply (Hcarve s).
  - apply wp_bind, (wp_EnsureLimit flags taken_bound ab fuel fuel_enough limit_range); [done|lia|].
    intros ok k h' Hg' Hk' _ Hsame _ _. rewrite (Hsame (or_introl eq_refl)). destruct ok.
    { destruct Hor as [?|(s & Hs & _)]; [done|]. by apply (Hcarve s). }
    apply wp_bind, (wp_EnsureLimit flags taken_bound ab fuel fuel_enough limit_range); [done|lia|].
    intros ok k2 h2 Hg2 Hk2 _ _ Hok _. destruct ok.
    + subst d. apply wp_AllocLarge_within; [done|by apply Hok|done|done|].
      intros p h3 Hs3. apply HQ. eapply searched_after; [by apply kept_same_used|done].
    + apply wp_bind, wp_ASSERT_may; [by destruct may_abort|]. intros _. apply wp_ret, HQ.
      split; [done|]. left. split; [done|]. split; [by apply kept_same_used|done].
Qed.

Lemma small_free h loc i p s : lists_ok h ∅ → free_loc loc → in_small (spans h) ∅ loc i p →
  spans h !! p = Some s → free_span h p s ∧ location s = loc ∧ length s = i + 1.
Proof.
  intros Hok Hloc (t & Hl & Hlen) Hp. pose proof Hl as (Ht & Lt & _). assert (t = s) as -> by congruence.
  split; [|done]. unfold free_span. rewrite Lt. by split.
Qed.
(** The list of the free spans of [i + 1] pages: empty, or its first span. *)
Lemma list_first h loc i : lists_ok h ∅ → free_loc loc → 0 ≤ i < kMaxPages →
  (DLL_IsEmpty (span_links h) (list_head loc i) = Ok true ∧
     ∀ q t, free_span h q t → location t = loc → length t ≠ i + 1) ∨
  (∃ p s, DLL_IsEmpty (span_links h) (list_head loc i) = Ok false ∧
     get_next (span_links h) (list_head loc i) = Ok p ∧
     free_span h p s ∧ location s = loc ∧ length s = i + 1).
Proof.
  intros Hok Hloc Hi.
  destruct (small_head ∅ (spans h) (span_links h) loc i) as [[E Hn]|(p & q & E & En & Hp & _)];
    [apply (lk_small _ _ Hok)|done..| |]; [left|right].
  - split; [done|]. intros q t [Hl _] Ll Hlen. apply (Hn q). exists t. rewrite <- Ll. by split.
  - pose proof Hp as (s & (Hs & _) & _). exists p, s. split; [done|]. split; [done|].
    by apply small_free.
Qed.

Lemma wp_search_lists n (Q : Z → Heap → Prop) k : ∀ s h,
  good h → 0 < n < 2 ^ 63 → n ≤ s → kMaxPages + 1 - s < Z.of_nat k → (0 < k)%nat →
  (no_limit → none_below h n s) →
  (∀ p h', searched h n p h' → Q p h') → wp ab (search_lists flags k fuel s n) Q h.
Proof.
  change kMaxPages with 128.
  induction k as [|k IH]; intros s h Hg Hn Hs Hk Hpos Hbelow HQ; [lia|].
  cbn [search_lists]. change kMaxPages with 128 in *.
  apply wp_if; intros Hc; [apply Z.leb_le in Hc|apply Z.leb_gt in Hc].
  2: { apply wp_AllocLarge; [done..| |done]. intros Hno q t Hf Hge.
       specialize (Hbelow Hno q t Hf Hge). change kMaxPages with 128. lia. }
  assert (∀ h', good h' → same_used h h' → ∀ p t, free_span h' p t → length t = s - 1 + 1 →
    wp ab (Carve p n) Q h') as Hcarve.
  { intros h' Hg' Hs' p t Hf Hlen. by apply (wp_Carve_search h' p t n h); [| | |lia|]. }
  assert (∀ h', good h' → same_used h h' → (no_limit → none_below h' n (s + 1)) →
    wp ab (search_lists flags k fuel (s + 1) n) Q h') as Hnext.
  { intros h' Hg' Hs' Hb'. apply IH; [done|done|lia|lia|lia|done|]. intros p h2 Hsr. apply HQ.
    by eapply searched_after. }
  pose proof Hg as [[_ I2 _ _ _ _] _].
  destruct (list_first h ON_NORMAL_FREELIST (s - 1) I2) as [[E Hno1]|(p & t & E & En & Hf & Hl & Hlen)];
    [done|change kMaxPages with 128; lia| |]; change (list_head ON_NORMAL_FREELIST (s - 1)) with (free_normal (s - 1)) in *;
    apply wp_bind; (eapply wp_ask_links; [exact E|]); cbn [negb].
  2: { apply wp_bind. eapply wp_ask_links; [exact En|]. pose proof Hf as [(Hp & _) _].
       apply wp_bind, (wp_load _ _ t); [done|]. apply wp_bind, wp_ASSERT; [by apply bool_decide_eq_true|].
       by apply (Hcarve h Hg) with (t := t). }
  destruct (list_first h ON_RETURNED_FREELIST (s - 1) I2) as [[E2 Hno2]|(p & t & E2 & En & Hf & Hl & Hlen)];
    [done|change kMaxPages with 128; lia| |]; change (list_head ON_RETURNED_FREELIST (s - 1)) with (free_returned (s - 1)) in *;
    apply wp_bind; (eapply wp_ask_links; [exact E2|]); cbn [negb].
  { apply wp_bind, wp_ret, Hnext; [done|done|]. intros Hno q t Hf Hge. specialize (Hbelow Hno q t Hf Hge).
    destruct (Z.eq_dec (length t) s); [|lia]. exfalso. pose proof Hf as [_ Hl]. unfold free_loc in Hl.
    destruct (location t) eqn:El; [done|apply (Hno1 q t)|apply (Hno2 q t)]; (done || lia). }
  apply wp_bind, wp_bind, (wp_EnsureLimit flags taken_bound ab fuel fuel_enough limit_range); [done|lia|].
  intros ok k2 h2 Hg2 Hk2 Hr2 Hsame _ Hok. pose proof (kept_same_used _ _ Hk2) as Hs2.
  assert (no_limit → ok = true) as Hok' by (intros Hno; by apply Hok, within_no_limit).
  destruct ok; [|apply wp_ret, Hnext; [done|done|]; intros Hno; by specialize (Hok' Hno)].
  pose proof Hg2 as [[_ J2 _ _ _ _] _].
  destruct (list_first h2 ON_RETURNED_FREELIST (s - 1) J2)
    as [[E3 _]|(p3 & t3 & E3 & En3 & Hf3 & Hl3 & Hlen3)];
    [done|change kMaxPages with 128; lia| |]; change (list_head ON_RETURNED_FREELIST (s - 1)) with (free_returned (s - 1)) in *;
    apply wp_bind; (eapply wp_ask_links; [exact E3|]); apply wp_ret; cbn [negb].
  - apply Hnext; [done|done|]. intros Hno. rewrite (Hsame (or_intror Hno)) in E3. congruence.
  - apply wp_bind. eapply wp_ask_links; [exact En3|]. pose proof Hf3 as [(Hp & _) _].
    apply wp_bind, (wp_load _ _ t3); [done|]. apply wp_bind, wp_ASSERT; [by apply bool_decide_eq_true|].
    by apply (Hcarve h2 Hg2 Hs2) with (t := t3).
Qed.

Lemma wp_SearchFreeAndLargeLists n (Q : Z → Heap → Prop) h :
  good h → 0 < n < 2 ^ 63 → (∀ p h', searched h n p h' → Q p h') →
  wp ab (SearchFreeAndLargeLists flags fuel n) Q h.
Proof.
  intros Hg Hn HQ. unfold SearchFreeAndLargeLists. apply wp_bind, wp_ASSERT; [by apply Z.ltb_lt; lia|].
  apply wp_search_lists; [done|done|done|change kMaxPages with 128; lia|lia| |done].
  by intros _ q t _.
Qed.
End allocation.
