(* ===== verification/Growing.v ===== *)
(** * Growing the heap

    [GrowHeap] asks the system for a block, makes entries for its pages in the page
    map and frees it as a span; [New] searches, coalesces and grows. *)
From stdpp Require Import base numbers list option gmap sets fin_maps fin_map_dom.
From Stdlib Require Import ZArith Lia Floats.SpecFloat.
From S2P Require Import Prelude Doubles SizeMap SpanList PageMap SystemAlloc MetaData PageHeap.
From S2P Require Import SpanSet FreeLists SpanGeometry Coalescing Releasing SpanOps Allocation.
Open Scope Z_scope.

Section growing.
Context {W : Type} `{SysAlloc W} `{!SysAllocLaws W} `{MetaData W} `{!MetaDataLaws W}.
Context {P : Type} `{PageMap P W} `{!PageMapLaws P W}.
Context {SA : Type} `{ObjAllocator SA W} `{!ObjAllocatorLaws SA W}.
Context {TA : Type} `{ObjAllocator TA W} `{!ObjAllocatorLaws TA W}.
Abbreviation Heap := (PageHeap P SA TA W).
Implicit Types h : Heap.
Variable flags : heap_flags.
Hypothesis taken_bound : ∀ w, sa_wf w → SystemTaken w < 2 ^ 43.
Variable ab : Prop.
Variables pm_fuel fuel : nat.
Hypothesis fuel_enough : 2 ^ 30 ≤ Z.of_nat fuel.
Hypothesis map_fuel : pm_enough (P := P) (A := W) pm_fuel.
(** The page map covers the addresses of the system. *)
Hypothesis map_covers : sa_bits (Y := W) ≤ pm_bits (P := P) (A := W) + 13.
Hypothesis limit_range : 0 ≤ tcmalloc_heap_limit_mb flags < 2 ^ 43.
Hypothesis rate_number : tcmalloc_release_rate flags ≠ S754_nan.
Hypothesis may_abort : no_limit flags ∨ ab.

Lemma good_world h w : good h → sa_wf w → sys_le (world h) w → good (with_world h w).
Proof.
  intros [[I1 I2 [S1 S2 (live & S3 & S3') S4 S5 S6] I4 I5 I6] Hb] Hwf Hle. split; [|done].
  split; try done; [by apply (lists_ok_frame h)|]. pose proof Hle as [Hgiven Htaken].
  split; simpl; try done.
  - by eapply oa_mono.
  - exists live. split; [by eapply oa_mono|done].
  - intros p s a Hp Ha. apply Hgiven. by eapply S4.
  - lia.
Qed.

(** A block from the system that the heap does not have yet. *)
Record block h (ptr n : Z) : Prop := {
  bk_pos : 0 < ptr;
  bk_aligned : ptr mod 8192 = 0;
  bk_end : ptr + n ≤ 2 ^ sa_bits (Y := W);
  bk_taken : system_bytes (stats_ h) + n ≤ SystemTaken (world h);
  bk_given a : ptr ≤ a < ptr + n → sa_given (world h) a;
  bk_apart q t x : spans h !! q = Some t → covers t x → ptr ≤ 8192 * x < ptr + n → False;
}.

Lemma wp_ask_system h ask (Q : Z * Z → Heap → Prop) : good h → 0 < ask < 2 ^ 51 →
  (∀ n h', good h' → same_used h h' → Q (0, n) h') →
  (∀ ptr n h', good h' → same_used h h' → block h' ptr n → 8192 * ask ≤ n → Q (ptr, n) h') →
  wp ab (ask_system flags fuel ask) Q h.
Proof.
  intros Hg Hask Hnull Hsome. unfold ask_system.
  apply wp_bind, (wp_EnsureLimit flags taken_bound ab fuel fuel_enough limit_range); [done|lia|].
  intros ok k h1 Hg1 Hk1 _ _ _ _. pose proof (kept_same_used _ _ Hk1) as Hs1.
  destruct ok; [|by apply wp_ret, Hnull].
  assert (page_bytes ask = 8192 * ask) as E.
  { unfold page_bytes, Prelude.size_t, kPageShift. rewrite Z.shiftl_mul_pow2 by lia.
    change (2 ^ 13) with 8192. rewrite Z.mod_small; lia. }
  rewrite E. pose proof Hg1 as [[I1 I2 I3 _ _ _] _].
  assert (∃ p n w, SystemAlloc (8192 * ask) kPageSize (world h1) = Ok (p, n, w) ∧ sa_wf w ∧
    (∀ a, sa_given (world h1) a → sa_given w a) ∧
    ((p = 0 ∧ SystemTaken w = SystemTaken (world h1)) ∨
     (0 < p ∧ p mod kPageSize = 0 ∧ 8192 * ask ≤ n ∧ p + n ≤ 2 ^ sa_bits (Y := W) ∧
      SystemTaken w = SystemTaken (world h1) + n ∧
      ∀ a, p ≤ a < p + n → ¬ sa_given (world h1) a ∧ sa_given w a)))
    as (ptr & n & w & Ea & Hwf & Hmono & Hor).
  { apply sa_alloc; [apply (so_wf _ I3)|lia|by exists 13|]. change kPageSize with 8192. lia. }
  unfold wp, on_world. cbn [mbind outcome_bind]. rewrite Ea. cbn.
  destruct Hor as [[-> Et]|(Hp & Hal & Hn & Hend & Et & Hfresh)].
  - apply Hnull; [|done]. apply good_world; [done|done|]. split; [done|lia].
  - apply Hsome; [|done| |done].
    + apply good_world; [done|done|]. split; [done|lia].
    + split; try done.
      * simpl. pose proof (so_taken _ I3). lia.
      * intros a Ha. by apply Hfresh.
      * intros q t x Hq Hc Hx. destruct (Hfresh (8192 * x)) as [Hf _]; [lia|]. apply Hf.
        apply (so_given _ I3 q t); [done|]. unfold covers in Hc. lia.
Qed.

(** [RecordGrowth] and the counters: the bytes of the block are in no span yet. *)
Lemma wp_record_growth h b (Q : () → Heap → Prop) : good h →
  (∀ a w, sa_wf w → sys_le (world h) w →
     (∃ live, oa_rep a w live ∧ Z.of_nat (size live) = zlen (growth_stacks h) + 1) →
     Q tt (with_growth_stacks (with_world (with_stacktraces h a) w) (b :: growth_stacks h))) →
  wp ab (RecordGrowth b) Q h.
Proof.
  intros [[_ _ I3 _ _ _] _] HQ. pose proof (so_traces _ I3) as (live & Hrep & Hsz & Hb).
  destruct (sys_pages taken_bound _ I3) as [Hsb _]. unfold wp, RecordGrowth.
  destruct (oa_new _ _ _ (so_wf _ I3) Hrep) as [->|(p & a & w & -> & Hwf & Hle & _ & Hn & Hrep')]; [|done|].
  { unfold INT_MAX. lia. }
  cbn. apply HQ; [done|done|]. exists ({[p]} ∪ live). split; [done|].
  rewrite size_union, size_singleton by set_solver. lia.
Qed.
Lemma good_reserve h a w b :
  good h → 8192 ≤ b → sa_wf w → sys_le (world h) w →
  (∃ live, oa_rep a w live ∧ Z.of_nat (size live) = zlen (growth_stacks h) + 1) →
  system_bytes (stats_ h) + b ≤ SystemTaken (world h) →
  good (with_stats (with_growth_stacks (with_world (with_stacktraces h a) w) (b :: growth_stacks h))
          (add_reserve (stats_ h) b)).
Proof.
  intros Hg Hb Hwf Hle (live & Hrep & Hsz) Ht. pose proof (good_bytes taken_bound _ Hg) as (_ & ? & ? & ?).
  destruct Hg as [[I1 I2 [S1 S2 S3 S4 S5 S6] I4 I5 I6] [Hbal Hc]].
  pose proof (taken_bound _ S1). pose proof Hle as [Hgiven Htaken].
  assert (uadd (system_bytes (stats_ h)) b = system_bytes (stats_ h) + b) as E1 by (apply uadd_small; lia).
  assert (uadd (committed_bytes (stats_ h)) b = committed_bytes (stats_ h) + b) as E2 by (apply uadd_small; lia).
  split; [split; try done|split; simpl; lia].
  - by eapply lists_ok_frame; [..|exact I2].
  - destruct S3 as (live0 & _ & _ & S3). split; simpl; try done.
    + by eapply oa_mono.
    + exists live. split; [done|]. rewrite E1. unfold zlen in *. simpl base.length. lia.
    + intros p s x Hp Hx. apply Hgiven. by eapply S4.
    + lia.
    + lia.
Qed.
Lemma good_map h m w : good h → pm_wf m → (∀ x, pm_at m x = pm_at (pagemap_ h) x) →
  (∀ x, pm_has (pagemap_ h) x → pm_has m x) → sa_wf w → sys_le (world h) w →
  good (with_world (with_pagemap h m) w).
Proof.
  intros Hg Hm Hat Hhas Hw Hle. pose proof (good_world h w Hg Hw Hle) as [[I1 I2 I3 I4 I5 I6] Hb].
  split; [|done]. split; try done; [|by eapply lists_ok_frame; [..|exact I2]|by destruct I3].
  destruct I1 as [G1 G2 G3 G4 G5 G6 G7 G8]. split; simpl; try done.
  - intros p s Hp. rewrite Hat. by apply G4.
  - intros p s Hp. rewrite Hat. by apply G5.
  - intros x Hx. rewrite Hat. by apply G6.
  - intros p s x Hp Hx. apply Hhas. by eapply G7.
  - intros p s x Hp Hcl Hx. rewrite Hat. by eapply G8.
Qed.

(** The block becomes a span in use. *)
Lemma wp_new_span {A} h ptr n (p := ptr / 8192) (len := n / 8192) (m : Z → M Heap A) (Q : A → Heap → Prop) :
  good h → 8192 ≤ n → 0 < ptr → ptr mod 8192 = 0 → ptr + n ≤ 2 ^ sa_bits (Y := W) →
  (∀ a, ptr ≤ a < ptr + n → sa_given (world h) a) →
  (∀ q t x, spans h !! q = Some t → covers t x → ptr ≤ 8192 * x < ptr + n → False) →
  8192 * (all_pages (spans h) + len) ≤ system_bytes (stats_ h) →
  (∀ x, p - 1 ≤ x ≤ p + len → pm_has (pagemap_ h) x) →
  (∀ q h', good h' → spans h !! q = None → spans h' = <[q := zero_span p len]> (spans h) →
     wp ab (m q) Q h') →
  wp ab (span ← NewSpan p len; _ ← RecordSpan span; m span) Q h.
Proof.
  intros [Hinv Hbal] Hn Hptr Hal Hend Hgiven Hapart Hsum Hhas HQ. pose proof Hinv as [I1 I2 I3 I4 I5 I6].
  assert (ptr = 8192 * p) as Ep by (unfold p; pose proof (Z.div_mod ptr 8192); lia).
  assert (1 ≤ len ∧ 8192 * len ≤ n) as [Hlen Hlen'].
  { unfold len. pose proof (Z.div_mod n 8192). pose proof (Z.mod_pos_bound n 8192).
    assert (8192 / 8192 ≤ n / 8192); [apply Z.div_le_mono; lia|]. change (8192 / 8192) with 1 in *. lia. }
  pose proof (bits_range (W := W)).
  apply wp_bind, (wp_NewSpan _ _ _ _ _ (dom (spans h))); [apply (so_wf _ I3)|apply (so_spans _ I3)|
    by eapply spans_few|].
  intros q a w Hq Hqn Hwf Hle Hrep. apply not_elem_of_dom in Hqn.
  set (t := zero_span p len). set (h1 := with_links _ _).
  apply wp_bind, (wp_RecordSpan _ _ q t); [apply lookup_insert_eq|apply (g_wf _ _ I1)|simpl; lia..| | |].
  { apply Hhas. simpl. lia. } { apply Hhas. simpl. lia. }
  intros pm [Hwf' Hhas'] Hat. apply HQ; [|done|done]. split; [|done].
  pose proof I3 as [S1 S2 (live & S3 & S3') S4 S5 S6]. pose proof Hle as [Hmono Htaken].
  split; simpl; try done.
  - apply (geom_add (spans h) (pagemap_ h)); simpl; try done; try lia.
    + intros r u x Hr Hc Hu. apply (Hapart r u x Hr Hu). unfold covers in Hc. simpl in Hc. lia.
    + by intros [_ ?].
    + intros x Hx. apply Hhas', Hhas. lia.
  - pose proof (lists_ok_new h ∅ q t I2 Hqn (not_elem_of_empty q) Hq eq_refl ltac:(simpl; lia) eq_refl) as Hok.
    apply (lists_ok_float _ _ ∅ q t) in Hok; [|apply lookup_insert_eq| |by right|by right].
    + by eapply lists_ok_frame; [..|exact Hok].
    + intros r Hr. set_solver.
  - split; simpl; try done.
    + by rewrite dom_insert_L.
    + exists live. split; [by eapply oa_mono|done].
    + intros r u x [[<- <-]|[? Hr]]%lookup_insert_Some Hx; simpl in *; apply Hmono;
        [apply Hgiven; lia|by eapply S4].
    + unfold all_pages in *. rewrite wsum_insert by done. simpl. lia.
    + lia.
  - by apply coalesced_used.
Qed.

Lemma wp_add_block h ptr n (Q : bool → Heap → Prop) :
  good h → block h ptr n → 8192 ≤ n →
  (∀ b h', good h' → same_used h h' → Q b h') →
  wp ab (add_block flags pm_fuel fuel ptr (Z.shiftr n kPageShift)) Q h.
Proof.
  intros Hg [B1 B2 B3 B4 B5 B6] Hn HQ. unfold kPageShift. rewrite Z.shiftr_div_pow2 by lia.
  change (2 ^ 13) with 8192. set (ask := n / 8192).
  assert (1 ≤ ask ∧ 8192 * ask ≤ n ∧ n < 2 ^ 43) as (Hask & Hask' & Hn').
  { pose proof Hg as [[_ _ I3 _ _ _] _]. pose proof (taken_bound _ (so_wf _ I3)).
    destruct (sys_pages taken_bound _ I3) as [? _].
    unfold ask. pose proof (Z.div_mod n 8192). pose proof (Z.mod_pos_bound n 8192).
    assert (8192 / 8192 ≤ n / 8192); [apply Z.div_le_mono; lia|]. change (8192 / 8192) with 1 in *. lia. }
  assert (ptr = 8192 * (ptr / 8192)) as Eptr by (pose proof (Z.div_mod ptr 8192); lia).
  pose proof (bits_range (W := W)) as HB. unfold add_block. rewrite page_bytes_eq by lia.
  apply wp_bind, wp_record_growth; [done|]. intros a w Hwf Hle Hlive.
  apply wp_bind, wp_gets, wp_bind, wp_on_stats. set (h1 := with_stats _ _).
  assert (good h1) as Hg1 by (apply (good_reserve h a w (8192 * ask)); (done || lia)).
  assert (8192 * (all_pages (spans h) + ask) ≤ system_bytes (stats_ h1)) as Hsum.
  { destruct Hg as [[_ _ I3 _ _ _] _]. pose proof (so_total _ I3).
    destruct (sys_pages taken_bound _ I3) as [? _]. simpl. rewrite uadd_small; lia. }
  unfold kPageShift. rewrite Z.shiftr_div_pow2 by lia. change (2 ^ 13) with 8192.
  apply wp_bind, wp_ASSERT; [apply Z.ltb_lt; lia|]. apply wp_bind, wp_gets.
  (* The page map. *)
  assert (∀ h2, good h2 → spans h2 = spans h → system_bytes (stats_ h2) = system_bytes (stats_ h1) →
    sys_le w (world h2) →
    (∀ x, ptr / 8192 - 1 ≤ x ≤ ptr / 8192 + ask → pm_has (pagemap_ h2) x) →
    wp ab (span ← NewSpan (ptr / 8192) ask; _ ← RecordSpan span; _ ← Delete flags fuel span;
           t ← gets stats_; _ ← ASSERT (uadd (unmapped_bytes t) (committed_bytes t) =? system_bytes t);
           mret true) Q h2) as Hadd.
  { intros h2 Hg2 E2 Es2 Hle2 Hhas.
    apply (wp_new_span h2 ptr n); rewrite ?E2, ?Es2; try done.
    - intros x Hx. apply Hle2, Hle. by apply B5.
    - intros q h3 Hg3 Hq Hsp3.
      apply wp_bind, (wp_Delete flags taken_bound ab fuel fuel_enough rate_number h3 q (zero_span (ptr / 8192) ask));
        [done|rewrite Hsp3; apply lookup_insert_eq|done|].
      intros h4 Hg4 Hfr. apply wp_bind, wp_gets, wp_bind, wp_committed_check; [done..|]. apply wp_ret, HQ; [done|].
      intros r u Hu. rewrite (fr_used _ _ _ Hfr r u Hu), Hsp3. destruct (decide (r = q)) as [->|Hne].
      + rewrite Hq. naive_solver.
      + rewrite lookup_insert_ne by done. naive_solver. }
  apply wp_bind. eapply (wp_mono ab _ (λ _ h2, good h2 ∧ spans h2 = spans h ∧ stats_ h2 = stats_ h1 ∧
    sys_le w (world h2))).
  { apply wp_if; intros _; [|apply wp_ret; by split_and!].
    destruct (pm_prealloc_spec pm_fuel (pagemap_ h1) (world h1)) as (m & w2 & E & Hm & Hat & Hhas & Hw2 & Hle2);
      [apply (g_wf _ _ (iv_geom _ _ (proj1 Hg1)))|done|done|].
    unfold wp. rewrite E. cbn. split; [by apply good_map|done]. }
  intros _ h2 (Hg2 & E2 & Es2 & Hle2). pose proof (proj1 Hg2) as [J1 _ _ _ _ _].
  assert (ptr / 8192 ≤ 2 ^ pm_bits (P := P) (A := W)) as Hpb.
  { pose proof (pm_bits_range (P := P) (A := W)). assert (8192 * (ptr / 8192) ≤ 8192 * 2 ^ pm_bits (P := P) (A := W)); [|lia].
    change 8192 with (2 ^ 13) at 3. rewrite <- Z.pow_add_r by lia.
    assert (2 ^ sa_bits (Y := W) ≤ 2 ^ (13 + pm_bits (P := P) (A := W))) by (apply Z.pow_le_mono_r; lia). lia. }
  rewrite usub_small, uadd_small by lia.
  destruct (pm_ensure_spec pm_fuel (pagemap_ h2) (ptr / 8192 - 1) (ask + 2) (world h2))
    as (b & m & w3 & E & Hm & Hat & Hhas & Hnew & Hw3 & Hle3);
    [apply (g_wf _ _ J1)|apply (so_wf _ (iv_sys _ _ (proj1 Hg2)))|done|lia|lia|lia|].
  apply wp_bind. unfold wp at 1. rewrite E. cbn [mbind outcome_bind].
  assert (good (with_world (with_pagemap h2 m) w3)) as Hg3 by (by apply good_map).
  destruct b.
  - apply Hadd; [done|done|simpl; by rewrite Es2|simpl; by etrans|].
    intros x Hx. apply Hnew; [done|lia].
  - apply wp_ret, HQ; [done|]. intros q t _. simpl. by rewrite E2.
Qed.

Lemma wp_GrowHeap h n (Q : bool → Heap → Prop) :
  good h → 0 < n → (∀ b h', good h' → same_used h h' → Q b h') →
  wp ab (GrowHeap flags pm_fuel fuel n) Q h.
Proof.
  intros Hg Hn HQ. unfold GrowHeap. apply wp_bind, wp_ASSERT; [done|].
  apply wp_if; intros Hc; [apply wp_ret, HQ; [done|by intros ?]|]. apply Z.ltb_ge in Hc.
  change kMaxValidPages with (2 ^ 51 - 1) in Hc.
  change kMinSystemAlloc with 128. set (ask := if 128 <? n then n else 128).
  assert (0 < ask < 2 ^ 51) as Hask by (unfold ask; destruct (128 <? n); lia).
  assert (∀ ptr m h', good h' → same_used h h' → block h' ptr m → 8192 ≤ m →
    wp ab (add_block flags pm_fuel fuel ptr (Z.shiftr m kPageShift)) Q h') as Hadd.
  { intros ptr m h' Hg' Hs' Hb Hm. apply wp_add_block; [done..|]. intros b h2 Hg2 Hs2. apply HQ; [done|].
    by eapply same_used_trans. }
  apply wp_bind, wp_ask_system; [done|done| |]; cbn [fst snd].
  - intros m h1 Hg1 Hs1. cbn [Z.eqb negb]. apply wp_if; intros _; [|by apply wp_ret, HQ].
    apply wp_bind, wp_ask_system; [done|lia| |].
    + intros m2 h2 Hg2 Hs2. cbn [Z.eqb negb]. apply wp_ret, HQ; [done|]. by eapply same_used_trans.
    + intros ptr m2 h2 Hg2 Hs2 Hb Hm. pose proof (bk_pos _ _ _ Hb).
      rewrite (proj2 (Z.eqb_neq ptr 0)) by lia. apply Hadd; [done|by eapply same_used_trans|done|lia].
  - intros ptr m h1 Hg1 Hs1 Hb Hm. pose proof (bk_pos _ _ _ Hb).
    rewrite (proj2 (Z.eqb_neq ptr 0)) by lia. apply Hadd; [done..|lia].
Qed.

(** ** [New] *)
Lemma wp_New h n (Q : Z → Heap → Prop) :
  good h → 0 < n < 2 ^ 63 →
  (∀ p h', good h' → (p = 0 ∧ same_used h h' ∨ p ≠ 0 ∧ allocated h n p h') → Q p h') →
  wp ab (New flags pm_fuel fuel n) Q h.
Proof.
  intros Hg Hn HQ. unfold New. apply wp_bind, wp_ASSERT; [by apply Z.ltb_lt; lia|].
  assert (∀ h', good h' → same_used h h' → ∀ Q' : Z → Heap → Prop,
    (∀ p h2, good h2 → p ≠ 0 → allocated h n p h2 → Q' p h2) →
    (∀ h2, good h2 → same_used h h2 → Q' 0 h2) →
    wp ab (SearchFreeAndLargeLists flags fuel n) Q' h') as Hsearch.
  { intros h' Hg' Hs' Q' Hsome Hnull.
    apply (wp_SearchFreeAndLargeLists flags taken_bound ab fuel fuel_enough limit_range may_abort); [done|done|].
    intros p h2 (Hg2 & [(-> & Hs2 & _)|[Hp Ha]]).
    - apply Hnull; [done|]. by eapply same_used_trans.
    - apply Hsome; [done|done|]. by eapply allocated_after. }
  assert (∀ p h', good h' → p ≠ 0 → allocated h n p h' → ∀ m : M Heap Z,
    wp ab (if negb (p =? 0) then mret p else m) Q h') as Hfound.
  { intros p h' Hg' Hp Ha m. rewrite (proj2 (Z.eqb_neq p 0)) by done. apply wp_ret, HQ; [done|by right]. }
  apply wp_bind, Hsearch; [done|by intros ?|by eauto|]. intros h1 Hg1 Hs1. cbn [negb Z.eqb].
  apply wp_bind, wp_gets, wp_bind.
  apply (wp_mono ab _ (λ p h', good h' ∧ (p = 0 ∧ same_used h h' ∨ p ≠ 0 ∧ allocated h n p h'))).
  { apply wp_if; intros _; [|apply wp_ret; split; [done|by left]].
    apply wp_bind, (wp_ReleaseAtLeastNPages taken_bound ab fuel fuel_enough); [done|].
    intros k h2 Hg2 Hk2 _. apply Hsearch; [done| |by auto|by auto].
    eapply same_used_trans; [exact Hs1|by apply kept_same_used]. }
  intros p h2 (Hg2 & [[-> Hs2]|[Hp Ha]]); [|by apply Hfound]. cbn [negb Z.eqb].
  apply wp_bind, wp_GrowHeap; [done|lia|]. intros b h3 Hg3 Hs3.
  assert (same_used h h3) as Hs by (by eapply same_used_trans).
  destruct b.
  - apply Hsearch; [done|done|by auto|by auto].
  - apply wp_bind, wp_gets, wp_bind, wp_committed_check; [done..|]. apply wp_ret, HQ; [done|by left].
Qed.
End growing.
