(* ===== verification/Inspection.v ===== *)
(** * The constructor and the checks of the page heap

    [PageHeap_new] establishes the invariant; under it [CheckExpensive] finds
    nothing wrong, the statistics count the spans, and [GetNextRange] enumerates
    them in the order of their addresses. *)
From stdpp Require Import base numbers list option gmap sets fin_maps fin_map_dom.
From Stdlib Require Import ZArith Lia Floats.SpecFloat.
From S2P Require Import Prelude Doubles SizeMap SpanList PageMap SystemAlloc MetaData PageHeap.
From S2P Require Import SpanSet FreeLists SpanGeometry Coalescing Releasing SpanOps Allocation.
Open Scope Z_scope.

Section inspection.
Context {W : Type} `{SysAlloc W} `{!SysAllocLaws W} `{MetaData W} `{!MetaDataLaws W}.
Context {P : Type} `{PageMap P W} `{!PageMapLaws P W}.
Context {SA : Type} `{ObjAllocator SA W} `{!ObjAllocatorLaws SA W}.
Context {TA : Type} `{ObjAllocator TA W} `{!ObjAllocatorLaws TA W}.
Abbreviation Heap := (PageHeap P SA TA W).
Implicit Types h : Heap.
Hypothesis taken_bound : ∀ w, sa_wf w → SystemTaken w < 2 ^ 43.
Variable ab : Prop.

(** ** The elements of a list *)
Lemma list_elements h loc i : lists_ok h ∅ → sys_ok h → free_loc loc → 0 ≤ i < kMaxPages →
  ∃ l, circular (span_links h) (list_head loc i) l ∧ zlen l < 2 ^ 30 ∧
    ∀ p, p ∈ l ↔ ∃ s, free_span h p s ∧ location s = loc ∧ length s = i + 1.
Proof.
  intros Hok Hsys Hloc Hi. destruct (lk_small _ _ Hok) as (lists & det & Hrep & Hl & _).
  destruct (Hl loc i Hloc Hi) as (l & El & Hin).
  pose proof (dr_circular _ _ _ Hrep _ _ El) as Hc. exists l. split; [done|].
  assert (∀ p, p ∈ l ↔ ∃ s, free_span h p s ∧ location s = loc ∧ length s = i + 1) as Hin'.
  { intros p. rewrite Hin. unfold free_span. split.
    - intros (s & Hs & Hlen). pose proof Hs as (_ & Ls & _). exists s. by rewrite Ls.
    - intros (s & (Hs & _) & Ls & Hlen). exists s. by rewrite <- Ls. }
  split; [|done]. destruct Hc as [_ [_ Hnd]%NoDup_cons].
  assert (list_to_set l ⊆ dom (spans h)) as Hsub.
  { intros p Hp. apply elem_of_list_to_set, Hin' in Hp as (s & ((Hs & _) & _) & _). by eapply elem_of_dom_2. }
  apply subseteq_size in Hsub. rewrite size_list_to_set in Hsub by done.
  destruct (sys_pages taken_bound _ Hsys) as [_ Hp].
  assert (Z.of_nat (size (dom (spans h))) ≤ all_pages (spans h)); [|unfold zlen; lia].
  rewrite <- wsum_one. apply wsum_le. intros q t Hq. by apply (lk_span _ _ Hok q).
Qed.

(** ** [CheckExpensive] *)
Lemma wp_check_span h p s loc lo hi (Q : () → Heap → Prop) :
  inv h ∅ → spans h !! p = Some s → location s = loc → lo ≤ length s →
  match hi with Some hi => length s ≤ hi | None => True end →
  Q tt h → wp ab (check_span p lo hi loc) Q h.
Proof.
  intros Hinv Hp Hl Hlo Hhi HQ. pose proof Hinv as [I1 I2 I3 _ _ _]. pose proof (bits_range (W := W)).
  destruct (span_bytes taken_bound _ _ _ _ I1 I2 I3 Hp) as (_ & _ & B1 & B2 & B3).
  unfold check_span. apply wp_bind, (wp_load _ _ _ _ _ Hp).
  apply wp_bind, wp_ASSERT; [by apply bool_decide_eq_true|]. apply wp_bind, wp_ASSERT; [by apply Z.leb_le|].
  apply wp_bind. assert (wp ab (match hi with Some max => ASSERT (length s <=? max) | None => mret tt end)
    (λ _ h', h' = h) h) as Hmax.
  { destruct hi; [apply wp_ASSERT; [by apply Z.leb_le|done]|done]. }
  eapply wp_mono; [exact Hmax|]. intros _ ? ->.
  apply wp_bind, wp_GetDescriptor; [apply (g_wf _ _ I1)|lia|].
  apply wp_bind, wp_ASSERT; [apply Z.eqb_eq, (g_first _ _ I1 _ _ Hp)|].
  rewrite uadd_small, usub_small by lia.
  apply wp_bind, wp_GetDescriptor; [apply (g_wf _ _ I1)|lia|].
  by apply wp_ASSERT; [apply Z.eqb_eq, (g_last _ _ I1 _ _ Hp)|].
Qed.

Lemma wp_CheckList h loc i (Q : () → Heap → Prop) fuel l2 : ∀ l1,
  inv h ∅ → circular (span_links h) (list_head loc i) (l1 ++ l2) → zlen l2 < Z.of_nat fuel →
  (∀ p, p ∈ l2 → ∃ s, spans h !! p = Some s ∧ location s = loc ∧ length s = i + 1) →
  Q tt h →
  wp ab (CheckList fuel (list_head loc i) (after (list_head loc i) l2) (i + 1) (i + 1) loc) Q h.
Proof.
  revert l2. induction fuel as [|fuel IH]; intros l2 l1 Hinv Hc Hf Hin HQ; cbn [CheckList].
  { pose proof (zlen_nonneg l2). lia. }
  destruct l2 as [|p l2].
  { unfold after. simpl. rewrite Z.eqb_refl. by apply wp_ret. }
  change (after (list_head loc i) (p :: l2)) with p.
  pose proof Hc as [_ Hnd]. assert (p ≠ list_head loc i) as Hp.
  { intros E. apply NoDup_cons in Hnd as [Hh _]. apply Hh. rewrite <- E. set_solver. }
  rewrite (proj2 (Z.eqb_neq _ _)) by done. cbn [negb].
  destruct (Hin p) as (s & Hs & Ls & Hlen); [left|].
  apply wp_bind, (wp_check_span h p s); [done|done|done|lia|simpl; lia|].
  pose proof Hc as (_ & [Hn _] & _)%circular_insert_facts.
  apply wp_bind. eapply wp_ask_links; [by apply get_next_spec|].
  rewrite zlen_cons in Hf. apply (IH l2 (l1 ++ [p])); [done|by rewrite <- app_assoc|lia| |done].
  intros q Hq. apply Hin. by right.
Qed.
Lemma wp_CheckSet h loc set (Q : () → Heap → Prop) :
  inv h ∅ → (∀ x, x ∈ set → ∃ s, listed (spans h) ∅ loc x.1 s ∧ length s = x.2 ∧ kMaxPages < x.2) →
  Q tt h → wp ab (CheckSet set (kMaxPages + 1) loc) Q h.
Proof.
  intros Hinv. induction set as [|x set IH]; intros Hin HQ; cbn [CheckSet]; [done|].
  destruct (Hin x) as (s & (Hs & Ls & _) & Hlen & Hk); [left|].
  apply wp_bind, (wp_load _ _ _ _ _ Hs). apply wp_bind, wp_ASSERT; [by apply Z.eqb_eq|].
  apply wp_bind, (wp_check_span h x.1 s); [done|done|done|lia|done|]. apply IH; [|done].
  intros y Hy. apply Hin. by right.
Qed.
Lemma wp_check_lists h fuel (Q : () → Heap → Prop) count : ∀ s,
  inv h ∅ → 2 ^ 30 ≤ Z.of_nat fuel → 1 ≤ s → s + Z.of_nat count ≤ kMaxPages + 1 →
  Q tt h → wp ab (check_lists count fuel s) Q h.
Proof.
  induction count as [|count IH]; intros s Hinv Hf Hs Hc HQ; cbn [check_lists]; [done|].
  pose proof Hinv as [I1 I2 I3 _ _ _].
  assert (∀ loc m, free_loc loc → wp ab m Q h →
    wp ab (first ← ask_links (λ l, get_next l (list_head loc (s - 1)));
           _ ← CheckList fuel (list_head loc (s - 1)) first s s loc; m) Q h) as Hlist.
  { intros loc m Hloc Hm. destruct (list_elements h loc (s - 1) I2 I3 Hloc) as (l & Hcirc & Hlen & Hin); [lia|].
    apply wp_bind. eapply wp_ask_links; [by apply (circular_first _ _ _ Hcirc)|]. apply wp_bind.
    replace s with (s - 1 + 1) at 3 4 by lia. apply (wp_CheckList h loc (s - 1) _ fuel l []); [done|done|lia| |done].
    intros p Hp. apply Hin in Hp as (t & ((Ht & _) & _) & Lt & Htl). by exists t. }
  apply (Hlist ON_NORMAL_FREELIST); [done|]. apply (Hlist ON_RETURNED_FREELIST); [done|].
  apply IH; [done|done|lia|lia|done].
Qed.
Lemma wp_CheckExpensive h fuel (Q : bool → Heap → Prop) :
  inv h ∅ → 2 ^ 30 ≤ Z.of_nat fuel → Q true h → wp ab (CheckExpensive fuel) Q h.
Proof.
  intros Hinv Hf HQ. pose proof Hinv as [_ I2 _ _ _ _]. unfold CheckExpensive.
  apply wp_bind, wp_gets, wp_bind, wp_CheckSet; [done| |].
  { intros x Hx. by apply (lk_large _ _ I2 ON_NORMAL_FREELIST). }
  apply wp_bind, wp_gets, wp_bind, wp_CheckSet; [done| |].
  { intros x Hx. by apply (lk_large _ _ I2 ON_RETURNED_FREELIST). }
  apply wp_bind, wp_check_lists; [done|done|lia|change kMaxPages with 128; lia|]. by apply wp_ret.
Qed.

(** ** The statistics *)
(** The lengths of the lists, counted. *)
Definition small_count h loc i : Z :=
  wsum (λ _ s, if decide (location s = loc ∧ length s = i + 1) then 1 else 0) (spans h).
Lemma list_count h loc i l : free_loc loc → NoDup l →
  (∀ p, p ∈ l ↔ ∃ s, free_span h p s ∧ location s = loc ∧ length s = i + 1) → zlen l = small_count h loc i.
Proof.
  intros Hloc Hnd Hin. unfold small_count, free_span, listed, free_loc in *.
  assert (∀ p, p ∈ l ↔ ∃ s, spans h !! p = Some s ∧ location s = loc ∧ length s = i + 1) as Hin'.
  { intros p. rewrite Hin. split; intros (s & Hs); exists s; [naive_solver|].
    destruct Hs as (Hs & Ls & Hl). rewrite Ls. set_solver. }
  clear Hin. generalize dependent (spans h). induction l as [|p l IH]; intros m Hin.
  - rewrite zlen_nil. symmetry. transitivity (wsum (λ _ _, 0) m); [|clear].
    + apply wsum_ext. intros q t Hq. case_decide as Hd; [|done]. exfalso.
      apply (not_elem_of_nil q), Hin. by exists t.
    + induction m as [|q t m Hq IH] using map_ind; [apply wsum_empty|]. by rewrite wsum_insert, IH.
  - apply NoDup_cons in Hnd as [Hp Hnd]. destruct (Hin p) as [(s & Hs & Ls & Hl) _]; [left|].
    rewrite zlen_cons, (wsum_delete _ _ _ _ Hs), decide_True by done.
    rewrite (IH Hnd (delete p m)); [lia|]. intros q. split.
    + intros Hq. destruct (Hin q) as [(t & Ht & ?) _]; [by right|]. exists t.
      rewrite lookup_delete_ne; [done|]. by intros ->.
    + intros (t & [Hne Ht]%lookup_delete_Some & Hor). destruct (Hin q) as [_ Hi].
      destruct (proj1 (elem_of_cons _ _ _) (Hi (ex_intro _ t (conj Ht Hor)))); [congruence|done].
Qed.

Lemma wp_small_span_stats h fuel (Q : list (Z * Z) → Heap → Prop) count : ∀ i,
  inv h ∅ → 2 ^ 30 ≤ Z.of_nat fuel → 0 ≤ i → i + Z.of_nat count ≤ kMaxPages →
  Q (map (λ i, (small_count h ON_NORMAL_FREELIST i, small_count h ON_RETURNED_FREELIST i)) (seqZ i (Z.of_nat count))) h →
  wp ab (small_span_stats count fuel i) Q h.
Proof.
  induction count as [|count IH] in Q |- *; intros i Hinv Hf Hi Hc HQ; cbn [small_span_stats]; [done|].
  pose proof Hinv as [_ I2 I3 _ _ _].
  assert (∀ loc, free_loc loc → DLL_Length fuel (span_links h) (list_head loc i) = Ok (small_count h loc i)) as Hlen.
  { intros loc Hloc. destruct (list_elements h loc i I2 I3 Hloc) as (l & Hcirc & Hlen & Hin); [lia|].
    rewrite <- (list_count h loc i l); [|done| |done].
    - unfold zlen in *. apply DLL_Length_spec; [done|lia|unfold zlen, INT_MAX; lia].
    - by destruct Hcirc as [_ [_ ?]%NoDup_cons]. }
  apply wp_bind. eapply wp_ask_links; [by apply (Hlen ON_NORMAL_FREELIST)|].
  apply wp_bind. eapply wp_ask_links; [by apply (Hlen ON_RETURNED_FREELIST)|].
  apply wp_bind, IH; [done|done|lia|lia|]. apply wp_ret.
  rewrite Nat2Z.inj_succ, seqZ_cons in HQ by lia. simpl in HQ. by rewrite Z.pred_succ in HQ.
Qed.

(** ** [GetNextRange] *)
Definition range_type (loc : Location) : RangeType :=
  match loc with IN_USE => INUSE | ON_NORMAL_FREELIST => FREE | ON_RETURNED_FREELIST => UNMAPPED end.
(** The page [from] is not inside a span: it is where an enumeration starts, or
    the end of the range it has given last. *)
Definition boundary h (from : Z) : Prop :=
  ∀ p s, spans h !! p = Some s → ¬ (start s < from < start s + length s).
(** [s] is the first span from [from] on. *)
Definition first_span h (from : Z) s : Prop :=
  (∃ p, spans h !! p = Some s) ∧ from ≤ start s ∧
  ∀ q t, spans h !! q = Some t → from ≤ start t → start s ≤ start t.

Lemma first_span_from h from r : inv h ∅ → boundary h from → first_from (pm_at (pagemap_ h)) from r →
  (r = 0 ∧ ∀ q t, spans h !! q = Some t → start t < from) ∨
  (r ≠ 0 ∧ ∃ s, spans h !! r = Some s ∧ first_span h from s).
Proof.
  intros Hinv Hb Hr. pose proof Hinv as [I1 I2 _ _ _ _].
  assert (∀ q t, spans h !! q = Some t → pm_at (pagemap_ h) (start t) ≠ 0) as Hne.
  { intros q t Hq. rewrite (g_first _ _ I1 _ _ Hq). pose proof (lk_span _ _ I2 _ _ Hq). lia. }
  destruct Hr as [[-> Hz]|(Hr & j & Hj & Hfj & Hz)]; [left|right].
  - split; [done|]. intros q t Hq. destruct (Z.lt_ge_cases (start t) from) as [|Hge]; [done|].
    exfalso. by apply (Hne q t Hq), Hz.
  - split; [done|]. destruct (covered_dec (spans h) j) as [(q & t & Hq & Hc)|Hn].
    2: { exfalso. apply Hr. rewrite <- Hfj. by apply (g_out _ _ I1). }
    unfold covers in Hc. specialize (Hb q t Hq).
    assert (start t = j) as E.
    { destruct (Z.lt_total (start t) j) as [Hlt|[|]]; [|done|lia].
      exfalso. apply (Hne q t Hq), Hz. lia. }
    assert (r = q) as -> by (rewrite <- Hfj, <- E; by apply (g_first _ _ I1)).
    exists t. split; [done|]. split; [by exists q|]. split; [lia|].
    intros q' u Hu Hge. destruct (Z.lt_ge_cases (start u) (start t)) as [Hlt|]; [|done].
    exfalso. apply (Hne q' u Hu), Hz. lia.
Qed.
Lemma wp_GetNextRange h pm_fuel class_size from (Q : option MallocRange → Heap → Prop) :
  inv h ∅ → pm_enough (P := P) (A := W) pm_fuel → 0 ≤ from → boundary h from →
  (∀ p s, spans h !! p = Some s → 0 < sizeclass s → ∃ z, class_size (sizeclass s) = Ok z) →
  ((∀ q t, spans h !! q = Some t → start t < from) → Q None h) →
  (∀ s r, first_span h from s → r_address r = 8192 * start s → r_length r = 8192 * length s →
     r_type r = range_type (location s) → Q (Some r) h) →
  wp ab (GetNextRange pm_fuel class_size from) Q h.
Proof.
  intros Hinv Hf Hfrom Hb Hcl Hnone Hsome. pose proof Hinv as [I1 I2 I3 _ _ _].
  destruct (pm_next_spec pm_fuel (pagemap_ h) from (g_wf _ _ I1) Hf Hfrom) as (r & E & Hr).
  unfold GetNextRange. apply wp_bind, wp_gets, wp_bind. eapply wp_lift; [exact E|].
  destruct (first_span_from h from r Hinv Hb Hr) as [[-> Hn]|(Hr0 & s & Hs & Hfs)]; [by apply wp_ret, Hnone|].
  rewrite (proj2 (Z.eqb_neq r 0)) by done. apply wp_bind, (wp_load _ _ _ _ _ Hs).
  destruct (span_bytes taken_bound _ _ _ _ I1 I2 I3 Hs) as (E1 & E2 & _). rewrite E1, E2.
  assert (∀ fr, Q (Some (mkRange (8192 * start s) (8192 * length s) (range_type (location s)) fr)) h) as HQ
    by (intros fr; by apply (Hsome s)).
  apply wp_bind. destruct (location s) eqn:El.
  - apply wp_if; intros Hc; [apply Z.ltb_lt in Hc|by apply wp_ret, wp_ret, HQ].
    destruct (Hcl r s Hs Hc) as [z Ez]. apply wp_bind. eapply wp_lift; [exact Ez|]. by apply wp_ret, wp_ret, HQ.
  - by apply wp_ret, wp_ret, HQ.
  - by apply wp_ret, wp_ret, HQ.
Qed.

(** ** The constructor *)
Definition all_empty (lists : gmap Z (list Z)) (i : Z) : Prop :=
  ∀ x l, lists !! x = Some l ↔
    l = [] ∧ ∃ loc j, free_loc loc ∧ 0 ≤ j < i ∧ x = list_head loc j.

Lemma init_lists_spec count : ∀ i st lists,
  dll_rep st lists ∅ → all_empty lists i → 0 ≤ i →
  ∃ st' lists', init_lists count i st = Ok st' ∧ dll_rep st' lists' ∅ ∧
    all_empty lists' (i + Z.of_nat count).
Proof.
  induction count as [|count IH]; intros i st lists Hrep Hall Hi.
  { exists st, lists. split; [done|]. by rewrite Z.add_0_r. }
  assert (∀ loc, free_loc loc → lists !! list_head loc i = None) as Hnew.
  { intros loc Hloc. destruct (lists !! list_head loc i) as [l|] eqn:El; [|done]. exfalso.
    apply Hall in El as (_ & loc' & j & Hl' & Hj & E). apply list_head_inj in E as [_ ->]; (done || lia). }
  assert (∀ x l, lists !! x = Some l → l = []) as Hnil by (intros x l Hx; by apply Hall in Hx as [-> _]).
  pose proof (Hnew ON_NORMAL_FREELIST ltac:(done)) as Hn1. pose proof (Hnew ON_RETURNED_FREELIST ltac:(done)) as Hn2.
  change (list_head ON_NORMAL_FREELIST i) with (free_normal i) in Hn1.
  change (list_head ON_RETURNED_FREELIST i) with (free_returned i) in Hn2.
  assert (free_normal i ≠ free_returned i) as Hne by (unfold free_normal, free_returned; lia).
  cbn [init_lists].
  assert (∀ hd x l, lists !! hd = None → lists !! x = Some l → hd ∉ x :: l) as Hout.
  { intros hd x l Hhd Hx [->|Hin]%elem_of_cons; [congruence|]. rewrite (Hnil _ _ Hx) in Hin.
    by apply not_elem_of_nil in Hin. }
  pose proof (rep_new _ _ _ Hrep (free_returned i) (λ x l, Hout _ x l Hn2)) as R1.
  pose proof (rep_new _ _ _ R1 (free_normal i) (λ x l, Hout _ x l Hn1)) as R2.
  destruct (rep_Init _ _ _ R2 (free_normal i)) as (st1 & E1 & R3); [set_solver|].
  rewrite E1. cbn [mbind outcome_bind].
  destruct (rep_Init _ _ _ R3 (free_returned i)) as (st2 & E2 & R4); [set_solver|].
  rewrite E2. cbn [mbind outcome_bind].
  replace ((({[free_normal i]} ∪ ({[free_returned i]} ∪ ∅)) ∖ {[free_normal i]}) ∖ {[free_returned i]} : gset Z)
    with (∅ : gset Z) in R4 by set_solver.
  destruct (IH (i + 1) st2 _ R4) as (st3 & lists3 & E3 & R5 & A3); [|lia|].
  - intros x l. rewrite !lookup_insert_Some. split.
    + intros [[<- <-]|[_ [[<- <-]|[_ Hx]]]].
      * split; [done|]. by exists ON_RETURNED_FREELIST, i; split_and!; (done || lia).
      * split; [done|]. by exists ON_NORMAL_FREELIST, i; split_and!; (done || lia).
      * apply Hall in Hx as (-> & loc & j & ? & ? & ?). split; [done|]. exists loc, j. split_and!; (done || lia).
    + intros (-> & loc & j & Hl & Hj & ->). destruct (decide (j = i)) as [->|Hji].
      * unfold free_loc in Hl. destruct loc; [done| |by left].
        right. split; [by apply not_eq_sym|by left].
      * right. split; [|right; split].
        -- intros E. apply (list_head_inj ON_RETURNED_FREELIST i) in E as [_ ?]; (done || lia).
        -- intros E. apply (list_head_inj ON_NORMAL_FREELIST i) in E as [_ ?]; (done || lia).
        -- apply Hall. split; [done|]. exists loc, j. split_and!; (done || lia).
  - exists st3, lists3. split; [done|]. split; [done|].
    by replace (i + Z.of_nat (S count)) with (i + 1 + Z.of_nat count) by lia.
Qed.

Lemma PageHeap_new_good (m : P) (sa : SA) (ta : TA) (w : W) :
  pm_wf m → (∀ k, pm_at m k = 0) → sa_wf w → oa_rep sa w ∅ → oa_rep ta w ∅ →
  ∃ h, PageHeap_new m sa ta w = Ok h ∧ good h ∧ spans h = ∅ ∧ world h = w.
Proof.
  intros Hm Hat Hw Hsa Hta.
  destruct (init_lists_spec (Z.to_nat kMaxPages) 0 ∅ ∅) as (st & lists & E & Hrep & Hall).
  { split; [done|done|done|done]. }
  { intros x l. rewrite lookup_empty. split; [done|]. intros (_ & loc & j & _ & ? & _). lia. }
  { done. }
  unfold PageHeap_new. rewrite E. clear E. cbn [mbind outcome_bind]. eexists. split; [done|]. split; [|done].
  rewrite Z2Nat.id in Hall by done. split; [|split; simpl; lia]. split; simpl.
  - by split.
  - split; simpl; try done.
    + exists lists, ∅. split; [done|]. split; [|split].
      * intros loc i Hloc Hi. exists []. split; [apply Hall; split; [done|]; by exists loc, i|].
        intros p. split; [by intros ?%not_elem_of_nil|]. by intros (s & (Hs & _) & _).
      * intros p. split; [by intros ?%not_elem_of_empty|]. by intros (s & Hs & _).
      * intros x [l Hx]. apply Hall in Hx as (_ & loc & j & ? & ? & ->). by exists loc, j.
    + intros loc Hloc. unfold large_set. simpl. split.
      * by case_decide; split; constructor.
      * intros x. case_decide; (split; [by intros ?%not_elem_of_nil|]; by intros (s & (Hs & _) & _)).
  - split; simpl; try done.
    + exists ∅. split_and!; [done|by rewrite size_empty|]. unfold zlen. simpl. lia.
    + by apply sa_taken_range.
  - by intros loc p q s t _ (Hs & _).
  - done.
  - change kMaxPages with 128. lia.
Qed.
End inspection.
