(* ===== verification/PageHeapSpec.v ===== *)
(** * What the page heap promises

    The page heap as a state machine over the spans its clients have: [New] gives
    pages that no client has, [Delete] takes a span back, [Split] divides one,
    [RegisterSizeClass] marks one and [ReleaseAtLeastNPages] changes none.  The
    implementation refines it from its constructor on, whatever the clients do with
    the spans they have. *)
From stdpp Require Import base numbers list option gmap sets fin_maps fin_map_dom.
From Stdlib Require Import ZArith Lia Floats.SpecFloat.
From S2P Require Import Prelude Doubles SizeMap SpanHeap SpanList PageMap SystemAlloc MetaData PageHeap.
From S2P Require Import SpanSet FreeLists SpanGeometry Coalescing Releasing SpanOps Allocation.
From S2P Require Import Growing Inspection.
Open Scope Z_scope.

(** ** The specification *)
(** The spans a client has, of [SpanHeap]. *)
Definition use_of (s : Span) : use := mkUse (start s) (length s) (sizeclass s).
Inductive heap_op :=
  | OpNew (n : Z)
  | OpDelete (p : Z)
  | OpSplit (p n : Z)
  | OpRegisterSizeClass (p sc : Z)
  | OpRelease (num_pages : Z).
(** What a client may ask for. *)
Definition op_ok (u : gmap Z use) (o : heap_op) : Prop :=
  match o with
  | OpNew n => 0 < n < 2 ^ 63
  | OpDelete p | OpRegisterSizeClass p _ => is_Some (u !! p)
  | OpSplit p n => ∃ a, u !! p = Some a ∧ u_class a = 0 ∧ 0 < n < u_pages a
  | OpRelease _ => True
  end.
Definition spec_step (u : gmap Z use) (o : heap_op) (r : Z) (u' : gmap Z use) : Prop :=
  match o with
  | OpNew n => r = 0 ∧ u' = u ∨
      r ≠ 0 ∧ u !! r = None ∧ ∃ st, u' = <[r := mkUse st n 0]> u
  | OpDelete p => u' = delete p u
  | OpSplit p n => ∃ a, u !! p = Some a ∧ u !! r = None ∧
      u' = <[p := mkUse (u_start a) n 0]> (<[r := mkUse (u_start a + n) (u_pages a - n) 0]> u)
  | OpRegisterSizeClass p sc => ∃ a, u !! p = Some a ∧
      u' = <[p := mkUse (u_start a) (u_pages a) (sc mod 2 ^ 8)]> u
  | OpRelease _ => u' = u
  end.

Section refinement.
Context {W : Type} `{SysAlloc W} `{!SysAllocLaws W} `{MetaData W} `{!MetaDataLaws W}.
Context {P : Type} `{PageMap P W} `{!PageMapLaws P W}.
Context {SA : Type} `{ObjAllocator SA W} `{!ObjAllocatorLaws SA W}.
Context {TA : Type} `{ObjAllocator TA W} `{!ObjAllocatorLaws TA W}.
Abbreviation Heap := (PageHeap P SA TA W).
Implicit Types h : Heap.
Variable flags : heap_flags.
Variables pm_fuel fuel : nat.

Definition run_op (o : heap_op) : M Heap Z :=
  match o with
  | OpNew n => New flags pm_fuel fuel n
  | OpDelete p => _ ← Delete flags fuel p; mret 0
  | OpSplit p n => Split p n
  | OpRegisterSizeClass p sc => _ ← RegisterSizeClass fuel p sc; mret 0
  | OpRelease n => ReleaseAtLeastNPages fuel n
  end.
(** The spans the clients have. *)
Definition used_span (s : Span) : option use :=
  if decide (location s = IN_USE) then Some (use_of s) else None.
Definition used h : gmap Z use := omap used_span (spans h).

(** The states a heap goes through. *)
Inductive reachable : Heap → Prop :=
  | reach_new m sa ta w h : pm_wf m → (∀ k, pm_at m k = 0) → sa_wf w →
      oa_rep sa w ∅ → oa_rep ta w ∅ → PageHeap_new m sa ta w = Ok h → reachable h
  | reach_op h o r h' : reachable h → op_ok (used h) o → run_op o h = Ok (r, h') → reachable h'.

Lemma used_lookup h p u :
  used h !! p = Some u ↔ ∃ s, spans h !! p = Some s ∧ location s = IN_USE ∧ u = use_of s.
Proof.
  unfold used. rewrite lookup_omap_Some. unfold used_span. split.
  - intros (s & Hs & Hp). exists s. case_decide; naive_solver.
  - intros (s & Hp & Hl & ->). exists s. split; [|done]. by rewrite decide_True.
Qed.
Lemma used_None h p : (∀ s, spans h !! p = Some s → location s ≠ IN_USE) → used h !! p = None.
Proof.
  intros Hn. destruct (used h !! p) as [u|] eqn:E; [|done].
  apply used_lookup in E as (s & Hs & Hl & _). by destruct (Hn s Hs).
Qed.
(** Equal uses, from the spans in use. *)
Lemma used_ext h h' : same_used h h' → used h' = used h.
Proof.
  intros Hs. apply map_eq. intros p. apply option_eq. intros u. rewrite !used_lookup.
  split; intros (s & Hp & Hl & ->); exists s; split_and!; try done; by apply (Hs p s Hl).
Qed.
Lemma used_insert h h' p s : used_but p h h' → spans h' !! p = Some s → location s = IN_USE →
  used h' = <[p := use_of s]> (used h).
Proof.
  intros Hu Hp Hl. apply map_eq. intros q. apply option_eq. intros u.
  rewrite lookup_insert_Some, !used_lookup. split.
  - intros (t & Hq & Lt & ->). destruct (decide (p = q)) as [->|Hne]; [left|right].
    + split; [done|]. congruence.
    + split; [done|]. exists t. split_and!; try done. by apply (Hu q t).
  - intros [[<- <-]|[Hne (t & Hq & Lt & ->)]]; [by exists s|]. exists t.
    split_and!; try done. by apply (Hu q t).
Qed.
Lemma good_apart h : good h → apart (used h).
Proof.
  intros [[I1 _ _ _ _ _] _] p q a b x Ha Hb Hxa Hxb.
  apply used_lookup in Ha as (s & Hs & _ & ->). apply used_lookup in Hb as (t & Ht & _ & ->).
  by apply (g_disjoint _ _ I1 p q s t x).
Qed.

Hypothesis taken_bound : ∀ w, sa_wf w → SystemTaken w < 2 ^ 43.
Hypothesis fuel_enough : 2 ^ 30 ≤ Z.of_nat fuel.
Hypothesis map_fuel : pm_enough (P := P) (A := W) pm_fuel.
Hypothesis map_covers : sa_bits (Y := W) ≤ pm_bits (P := P) (A := W) + 13.
Hypothesis limit_range : 0 ≤ tcmalloc_heap_limit_mb flags < 2 ^ 43.
Hypothesis rate_number : tcmalloc_release_rate flags ≠ S754_nan.

(** Every operation keeps the invariant and does a step of the specification. *)
Lemma wp_run_op h o : good h → op_ok (used h) o →
  wp (¬ no_limit flags) (run_op o) (λ r h', good h' ∧ spec_step (used h) o r (used h')) h.
Proof.
  intros Hg Hok. pose proof Hg as [[I1 I2 I3 _ _ _] _]. destruct o as [n|p|p n|p sc|n]; simpl in Hok; cbn [run_op].
  - apply wp_New; [done..|destruct (decide (no_limit flags)); [by left|by right]|done|done|].
    intros p h' Hg' [[-> Hs]|[Hp [(s & Hs & Ls & Hlen & Hcl) Hfresh Hu]]]; (split; [done|]); simpl.
    + left. split; [done|]. by apply used_ext.
    + right. split; [done|]. split; [by apply used_None|]. exists (start s).
      rewrite (used_insert h h' p s) by done. unfold use_of. by rewrite Hlen, Hcl.
  - destruct Hok as [u (s & Hs & Ls & ->)%used_lookup].
    apply wp_bind, (wp_Delete flags taken_bound _ fuel fuel_enough rate_number h p s); [done..|].
    intros h' Hg' [Hu _ _]. apply wp_ret. split; [done|]. simpl.
    apply map_eq. intros q. apply option_eq. intros u. rewrite lookup_delete_Some, !used_lookup.
    split.
    + intros (t & Ht & Lt & ->). apply Hu in Ht as [Hq Ht]; [|done]. split; [done|]. by exists t.
    + intros (Hq & t & Ht & Lt & ->). exists t. split_and!; try done. by apply Hu.
  - destruct Hok as (u & (s & Hs & Ls & ->)%used_lookup & Hcl & Hn). simpl in Hcl, Hn.
    apply (wp_Split taken_bound _ h p s); [done..|]. intros q h' Hg' [S1 S2 S3 S4]. split; [done|]. simpl.
    exists (use_of s). split; [apply used_lookup; by exists s|]. split; [apply used_None; congruence|].
    assert (p ≠ q) as Hne by congruence.
    apply map_eq. intros r. destruct (decide (r = p)) as [->|Hrp]; [|destruct (decide (r = q)) as [->|Hrq]].
    + rewrite lookup_insert_eq. apply used_lookup. exists (set_length s n).
      split; [done|]. split; [done|]. unfold use_of. simpl. by rewrite Hcl.
    + rewrite lookup_insert_ne, lookup_insert_eq by done. apply used_lookup. eexists. by split.
    + rewrite !lookup_insert_ne by done. unfold used. by rewrite !lookup_omap, S4.
  - destruct Hok as [u (s & Hs & Ls & ->)%used_lookup].
    pose proof (span_length taken_bound _ _ _ _ I2 I3 Hs).
    apply wp_bind, (wp_RegisterSizeClass taken_bound _ fuel h p s); [done|done|done|lia|].
    intros h' Hg' Esp. apply wp_ret. split; [done|]. simpl. exists (use_of s).
    split; [apply used_lookup; by exists s|].
    rewrite (used_insert h h' p (set_sizeclass s (sc mod 2 ^ 8))); [done| |by rewrite Esp, lookup_insert_eq|done].
    intros q t Hq _. by rewrite Esp, lookup_insert_ne.
  - apply (wp_ReleaseAtLeastNPages taken_bound _ fuel fuel_enough); [done|].
    intros k h' Hg' Hk _. split; [done|]. by apply used_ext, kept_same_used.
Qed.
Lemma reachable_good h : reachable h → good h.
Proof.
  induction 1 as [m sa ta w h Hm Hat Hw Hsa Hta E|h o r h' _ IH Hok E].
  - destruct (PageHeap_new_good taken_bound m sa ta w) as (h' & E' & Hg & _); [done..|].
    assert (h = h') as -> by congruence. done.
  - pose proof (wp_run_op h o IH Hok) as Hwp. unfold wp in Hwp. rewrite E in Hwp. by destruct Hwp.
Qed.

(** ** The properties *)
(** C3. A page heap in any state that clients can bring it to from its constructor does a step of
    the specification: [New] gives null or a span of the pages asked for that was
    nobody's, [Delete] takes a span back, [Split] divides it, and the spans of the
    clients stay apart.  No pointer is wild and no arithmetic undefined; the program
    stops only for want of memory for its own data, or, when the heap has a limit,
    at the assertion of [AllocLarge].  The clients do not switch aggressive decommit on,
    and the release rate, the limit and the bytes ever taken from the system are in the
    ranges that the section assumes. *)
Theorem page_heap_refines_spec h o : reachable h → op_ok (used h) o →
  match run_op o h with
  | Ok (r, h') => spec_step (used h) o r (used h') ∧ apart (used h')
  | Throws OutOfMemory => True
  | Throws Aborted => tcmalloc_heap_limit_mb flags ≠ 0
  | _ => False
  end.
Proof.
  intros Hr Hok. pose proof (wp_run_op h o (reachable_good h Hr) Hok) as Hwp. unfold wp in Hwp.
  destruct (run_op o h) as [[r h']| |[]|]; try done.
  destruct Hwp as [Hg Hs]. split; [done|]. by apply good_apart.
Qed.

(** C21. The internal consistency check of the page heap ([CheckExpensive], run by
    [MallocExtension::VerifyAllMemory]) passes in every state clients can bring the
    heap to: the spans of each list have the location and the length of the list,
    and the page map leads from both their ends to them. *)
Theorem check_expensive_passes h : reachable h →
  wp False (CheckExpensive fuel) (λ b h', b = true ∧ h' = h) h.
Proof.
  intros Hr. apply wp_CheckExpensive; [done|apply reachable_good, Hr|done|done].
Qed.

(** [GetNextRange], from the end of the range it gave last, gives the first span
    from there on, its bytes and its kind, or nothing when no span is left. *)
Theorem get_next_range_enumerates h class_size from : reachable h → boundary h from → 0 ≤ from →
  (∀ p s, spans h !! p = Some s → 0 < sizeclass s → ∃ z, class_size (sizeclass s) = Ok z) →
  wp False (GetNextRange pm_fuel class_size from)
    (λ r h', h' = h ∧
       match r with
       | None => ∀ q t, spans h !! q = Some t → start t < from
       | Some r => ∃ s, first_span h from s ∧ r_address r = 8192 * start s ∧
           r_length r = 8192 * length s ∧ r_type r = range_type (location s) ∧
           boundary h (r_address r / 8192 + r_length r / 8192)
       end) h.
Proof.
  intros Hr Hb Hfrom Hcl. destruct (reachable_good h Hr) as [Hinv _].
  apply (wp_GetNextRange taken_bound _ h); [done..| |].
  - intros Hn. by split.
  - intros s r Hs E1 E2 E3. split; [done|]. exists s. split_and!; try done.
    rewrite E1, E2, !(Z.mul_comm 8192), !Z.div_mul by done.
    destruct Hs as ((p & Hp) & _). intros q t Hq Hin. destruct Hinv as [I1 _ _ _ _ _].
    pose proof (g_range _ _ I1 _ _ Hp). pose proof (g_range _ _ I1 _ _ Hq).
    assert (p = q) as ->; [|assert (s = t) as -> by congruence; lia].
    apply (g_disjoint _ _ I1 p q s t (start s + length s - 1)); [done..| |]; unfold covers; lia.
Qed.

(** C25. With no limit on the heap, a search gives null only when no free span has the
    pages asked for; and what it gives is a span that was nobody's. *)
Theorem search_finds_a_fit h n : reachable h → 0 < n < 2 ^ 63 → tcmalloc_heap_limit_mb flags = 0 →
  wp False (SearchFreeAndLargeLists flags fuel n)
    (λ p h', if decide (p = 0) then used h' = used h ∧ no_fit h' n else allocated h n p h') h.
Proof.
  intros Hr Hn Hlim. apply (wp_SearchFreeAndLargeLists flags taken_bound _ fuel fuel_enough limit_range);
    [by left|by apply reachable_good|done|].
  intros p h' (Hg & [(-> & Hs & Hnf)|[Hp Ha]]); [|by rewrite decide_False].
  rewrite decide_True by done. split; [by apply used_ext|by apply Hnf].
Qed.

(** Among the free spans of more than [kMaxPages] pages, the best fit of
    [AllocLarge] is a shortest one that is long enough, and among those of that
    length the one at the lowest address; it is null when there is none. *)
Theorem best_fit_is_best h n : reachable h →
  wp False (best_fit n)
    (λ r h', h' = h ∧ best_among h n free_loc r.1 ∧ best_among h n (eq ON_NORMAL_FREELIST) r.2) h.
Proof. intros Hr. apply wp_best_fit; [apply reachable_good, Hr|done]. Qed.

(** C29. [ReleaseAtLeastNPages] ends; it moves the bytes it counts from the free to the
    unmapped ones, and no span of a client changes.  It counts at least the pages
    asked for, unless no free page is left or the last thing it did was to ask the
    system to take a free span of the heap, of at least a page, and the system
    refused. *)
Theorem release_at_least_n_pages h n : reachable h →
  wp False (ReleaseAtLeastNPages fuel n)
    (λ k h', released h h' k ∧ used h' = used h ∧
       (n ≤ k ∨ free_bytes (stats_ h') = 0 ∨ refused h h')) h.
Proof.
  intros Hr. apply (wp_release_enough taken_bound _ fuel fuel_enough); [by apply reachable_good|].
  intros k h' Hg' Hk Hrel Hor. split; [done|]. split; [|done]. by apply used_ext, kept_same_used.
Qed.

(** [EnsureLimit] answers whether the pages in use by the heap, and [n] more, are
    within the limit, after having released what it was allowed to. *)
Theorem ensure_limit_is_exact h n b : reachable h → 0 ≤ n < 2 ^ 63 →
  wp False (EnsureLimit flags fuel n b)
    (λ ok h', (ok = true ↔ within flags h' n) ∧ used h' = used h ∧ (b = false → h' = h)) h.
Proof.
  intros Hr Hn. apply (wp_EnsureLimit flags taken_bound _ fuel fuel_enough limit_range);
    [by apply reachable_good|done|].
  intros ok k h' Hg' Hk' _ Hsame Hok _. split; [done|]. split; [by apply used_ext, kept_same_used|].
  intros Hb. apply Hsame. by left.
Qed.
End refinement.
