(* ===== verification/PageHeapClient.v ===== *)
(** * The page heap as its clients see it

    [PageHeap] implements the interface [SpanHeap]. *)
From stdpp Require Import base numbers list option gmap sets.
From Stdlib Require Import ZArith Lia Floats.SpecFloat.
From S2P Require Import Prelude Doubles SizeMap SpanHeap SpanList PageMap SystemAlloc MetaData PageHeap.
From S2P Require Import SpanSet FreeLists SpanGeometry Coalescing Releasing SpanOps Allocation.
From S2P Require Import Growing Inspection PageHeapSpec.
Open Scope Z_scope.

Section client.
Context {W : Type} `{SysAlloc W} `{!SysAllocLaws W} `{MetaData W} `{!MetaDataLaws W}.
Context {P : Type} `{PageMap P W} `{!PageMapLaws P W}.
Context {SA : Type} `{ObjAllocator SA W} `{!ObjAllocatorLaws SA W}.
Context {TA : Type} `{ObjAllocator TA W} `{!ObjAllocatorLaws TA W}.
Abbreviation Heap := (PageHeap P SA TA W).
Implicit Types h : Heap.
Variable flags : heap_flags.
Variables pm_fuel fuel : nat.

Definition page_heap_SpanHeap : SpanHeap Heap := {|
  sh_new := New flags pm_fuel fuel;
  sh_delete := Delete flags fuel;
  sh_split := Split;
  sh_register := RegisterSizeClass fuel;
  sh_descriptor x h := pm_get (pagemap_ h) x;
  sh_load p h := match spans h !! p with Some s => Ok (use_of s) | None => Undefined NullDeref end;
|}.

Hypothesis taken_bound : ∀ w, sa_wf w → SystemTaken w < 2 ^ 43.
Hypothesis fuel_enough : 2 ^ 30 ≤ Z.of_nat fuel.
Hypothesis map_fuel : pm_enough (P := P) (A := W) pm_fuel.
Hypothesis map_covers : sa_bits (Y := W) ≤ pm_bits (P := P) (A := W) + 13.
Hypothesis limit_range : 0 ≤ tcmalloc_heap_limit_mb flags < 2 ^ 43.
Hypothesis rate_number : tcmalloc_release_rate flags ≠ S754_nan.
(** Addresses have 48 bits. *)
Hypothesis address_bits : sa_bits (Y := W) ≤ 48.

Lemma run_op_spec h o : good h → op_ok (used h) o →
  wp (¬ no_limit flags) (run_op flags pm_fuel fuel o) (λ r h', good h' ∧ spec_step (used h) o r (used h')) h.
Proof. by apply wp_run_op. Qed.
(** An operation without a result. *)
Lemma wp_unit ab (m : M Heap unit) (Q : Heap → Prop) h :
  wp ab (_ ← m; mret 0) (λ _, Q) h → wp ab m (λ _, Q) h.
Proof. unfold wp, mbind, M_bind. destruct (m h) as [[]| |[]|]; auto. Qed.

Program Definition page_heap_SpanHeapLaws : @SpanHeapLaws Heap page_heap_SpanHeap := {|
  sh_good := good;
  sh_used := used;
  sh_ab := ¬ no_limit flags;
|}.
Next Obligation.
  intros h p u [[I1 _ _ _ _ _] _] (s & Hs & _ & ->)%used_lookup.
  pose proof (g_range _ _ I1 _ _ Hs) as (? & ? & ? & Hr).
  assert (2 ^ sa_bits (Y := W) ≤ 2 ^ 48) by (apply Z.pow_le_mono_r; lia).
  change (2 ^ kPageBits) with (2 ^ 35). change (2 ^ 48) with (8192 * 2 ^ 35) in *. simpl. lia.
Qed.
Next Obligation. apply good_apart. Qed.
Next Obligation. intros h p u _ (s & Hs & _ & ->)%used_lookup. simpl. by rewrite Hs. Qed.
Next Obligation.
  intros h p u x [[I1 _ _ _ _ _] _] (s & Hs & Hl & ->)%used_lookup Hx Hor. simpl in *.
  pose proof (g_range _ _ I1 _ _ Hs) as (_ & ? & _ & _). unfold has_page in Hx. simpl in Hx.
  rewrite pm_get_spec; [|apply (g_wf _ _ I1)|lia]. f_equal.
  destruct Hor as [Hc| ->]; [by apply (g_inner _ _ I1 p s)|by apply (g_first _ _ I1)].
Qed.
Next Obligation.
  intros h [[I1 _ _ _ _ _] _]. simpl. rewrite pm_get_spec; [|apply (g_wf _ _ I1)|done]. f_equal.
  apply (g_out _ _ I1). intros p s Hp. pose proof (g_range _ _ I1 _ _ Hp). unfold covers. lia.
Qed.
Next Obligation.
  intros h n Hg Hn. eapply wp_mono; [by apply (run_op_spec h (OpNew n))|].
  intros r h' [Hg' [[? ?]|(? & ? & ?)]]; (split; [done|]); [by left|by right].
Qed.
Next Obligation.
  intros h p u Hg Hp. apply wp_unit. eapply wp_mono; [apply (run_op_spec h (OpDelete p)); [done|by eexists]|done].
Qed.
Next Obligation.
  intros h p u n Hg Hp Hc Hn. eapply wp_mono; [apply (run_op_spec h (OpSplit p n)); [done|by exists u]|].
  intros r h' [Hg' (a & Ha & Hr & ->)]. assert (a = u) as -> by congruence. done.
Qed.
Next Obligation.
  intros h p u sc Hg Hp. apply wp_unit.
  eapply wp_mono; [apply (run_op_spec h (OpRegisterSizeClass p sc)); [done|by eexists]|].
  intros r h' [Hg' (a & Ha & ->)]. assert (a = u) as -> by congruence. done.
Qed.
End client.
