(* ===== verification/CentralFreeList.v ===== *)
(** * Central free lists: [libs/tcmalloc/src/central_freelist.{h,cc}]

    For each size class, the spans whose pages are cut into objects of the class,
    and a cache of chains of objects as the thread caches move them.  Spans come from
    the page heap, through the interface [SpanHeap]; the first word of an object
    that is free holds the address of the next one.

    The lists of all classes are one state, since a class can take a slot of
    another one's cache.  A thread runs each operation to its end: the places where
    the code gives up a lock are not marked. *)
From stdpp Require Import base numbers list option gmap list_numbers.
From Stdlib Require Import ZArith Lia.
From S2P Require Import Prelude SizeMap PackedCache SpanList SpanHeap.
Open Scope Z_scope.

Definition kMaxNumTransferEntries : Z := 64.

(** The lists [empty_] and [nonempty_] are kept in the store of the links, under
    addresses that no span has. *)
Record CentralFreeList := mkCFL {
  size_class_ : Z;
  num_spans_ : Z;
  counter_ : Z;
  tc_slots_ : list (Z * Z);
  used_slots_ : Z;
  cache_size_ : Z;
  max_cache_size_ : Z;
}.
Definition empty_ (cl : Z) : Z := - (1 + 2 * cl).
Definition nonempty_ (cl : Z) : Z := - (2 + 2 * cl).
(** The two of each class from [n] on. *)
Definition list_heads (n : Z) : gset Z :=
  list_to_set (flat_map (λ cl, [empty_ cl; nonempty_ cl]) (seqZ n (kClassSizesMax - n))).
(** In static storage. *)
Definition CFL_static : CentralFreeList :=
  mkCFL 0 0 0 (replicate (Z.to_nat kMaxNumTransferEntries) (0, 0)) 0 0 0.

Definition set_num_spans (f : CentralFreeList) (v : Z) : CentralFreeList :=
  mkCFL (size_class_ f) v (counter_ f) (tc_slots_ f) (used_slots_ f) (cache_size_ f) (max_cache_size_ f).
Definition set_counter (f : CentralFreeList) (v : Z) : CentralFreeList :=
  mkCFL (size_class_ f) (num_spans_ f) v (tc_slots_ f) (used_slots_ f) (cache_size_ f) (max_cache_size_ f).
Definition set_slots (f : CentralFreeList) (v : list (Z * Z)) : CentralFreeList :=
  mkCFL (size_class_ f) (num_spans_ f) (counter_ f) v (used_slots_ f) (cache_size_ f) (max_cache_size_ f).
Definition set_used_slots (f : CentralFreeList) (v : Z) : CentralFreeList :=
  mkCFL (size_class_ f) (num_spans_ f) (counter_ f) (tc_slots_ f) v (cache_size_ f) (max_cache_size_ f).
Definition set_cache_size (f : CentralFreeList) (v : Z) : CentralFreeList :=
  mkCFL (size_class_ f) (num_spans_ f) (counter_ f) (tc_slots_ f) (used_slots_ f) v (max_cache_size_ f).

(** The fields of a span that the central lists use; [refcount] has 16 bits. *)
Record SmallSpan := mkSmall { objects : Z; refcount : Z }.

Record Central (H : Type) := mkCentral {
  central_cache : list CentralFreeList;
  race_counter : Z;
  span_lists : links;
  small_spans : gmap Z SmallSpan;
  memory : words;
  pagemap_cache_ : PackedCache;
  pageheap : H;
}.
Arguments mkCentral {H}.
Arguments central_cache {H} _.
Arguments race_counter {H} _.
Arguments span_lists {H} _.
Arguments small_spans {H} _.
Arguments memory {H} _.
Arguments pagemap_cache_ {H} _.
Arguments pageheap {H} _.

Section updates.
Context {H : Type}.
Implicit Types c : Central H.
Definition with_cache c (v : list CentralFreeList) : Central H :=
  mkCentral v (race_counter c) (span_lists c) (small_spans c) (memory c) (pagemap_cache_ c) (pageheap c).
Definition with_race c (v : Z) : Central H :=
  mkCentral (central_cache c) v (span_lists c) (small_spans c) (memory c) (pagemap_cache_ c) (pageheap c).
Definition with_lists c (v : links) : Central H :=
  mkCentral (central_cache c) (race_counter c) v (small_spans c) (memory c) (pagemap_cache_ c) (pageheap c).
Definition with_small c (v : gmap Z SmallSpan) : Central H :=
  mkCentral (central_cache c) (race_counter c) (span_lists c) v (memory c) (pagemap_cache_ c) (pageheap c).
Definition with_memory c (v : words) : Central H :=
  mkCentral (central_cache c) (race_counter c) (span_lists c) (small_spans c) v (pagemap_cache_ c) (pageheap c).
Definition with_class_cache c (v : PackedCache) : Central H :=
  mkCentral (central_cache c) (race_counter c) (span_lists c) (small_spans c) (memory c) v (pageheap c).
Definition with_heap c (v : H) : Central H :=
  mkCentral (central_cache c) (race_counter c) (span_lists c) (small_spans c) (memory c) (pagemap_cache_ c) v.
End updates.

(** ** The operations *)
Section central.
Context {H : Type} `{SpanHeap H}.
(** [Static::sizemap()]. *)
Variable sm : SizeMap.
Abbreviation CM := (M (Central H)).
Implicit Types (cl span object N : Z).

(** *** Access to the state *)
Definition get_list cl : CM CentralFreeList := λ c, lift (arr_get (central_cache c) cl) c.
Definition put_list cl (f : CentralFreeList) : CM unit := λ c,
  a ← arr_set (central_cache c) cl f; Ok (tt, with_cache c a).
Definition on_list cl (f : CentralFreeList → CentralFreeList) : CM unit :=
  l ← get_list cl; put_list cl (f l).
Definition on_links (f : links → outcome links) : CM unit := λ c,
  l ← f (span_lists c); Ok (tt, with_lists c l).
Definition ask_links {A} (f : links → outcome A) : CM A := λ c, lift (f (span_lists c)) c.
Definition load_small span : CM SmallSpan := λ c,
  match small_spans c !! span with Some s => Ok (s, c) | None => Undefined NullDeref end.
Definition store_small span (s : SmallSpan) : CM unit := λ c,
  match small_spans c !! span with
  | Some _ => Ok (tt, with_small c (<[span := s]> (small_spans c)))
  | None => Undefined NullDeref
  end.
Definition on_heap {A} (m : M H A) : CM A := λ c,
  '(a, h) ← m (pageheap c); Ok (a, with_heap c h).
Definition load_span span : CM use := λ c, lift (sh_load span (pageheap c)) c.
Definition read_word (a : Z) : CM Z := λ c, lift (SLL_Next (memory c) a) c.
Definition write_word (a v : Z) : CM unit := λ c,
  m ← SLL_SetNext (memory c) a v; Ok (tt, with_memory c m).
Definition ASSERT (b : bool) : CM unit := lift (check b).

(** *** The cache of size classes: page_heap.h *)
Definition TryGetSizeClass (p : Z) : CM (option Z) := λ c, lift (TryGet kPageBits (pagemap_cache_ c) p) c.
Definition SetCachedSizeClass (p cl : Z) : CM unit := λ c,
  _ ← check (negb (cl =? 0));
  k ← Put kPageBits (pagemap_cache_ c) p cl; Ok (tt, with_class_cache c k).
Definition InvalidateCachedSizeClass (p : Z) : CM unit := λ c,
  k ← Invalidate kPageBits (pagemap_cache_ c) p; Ok (tt, with_class_cache c k).
Definition GetSizeClassOrZero (p : Z) : CM Z :=
  cached_value ← TryGetSizeClass p; mret (default 0 cached_value).

(** *** A span changes hands

    While a span is in use, its fields [next], [prev], [objects] and [refcount] and
    the words of its pages belong to the central lists.  The page heap gives and
    takes spans whose [next] and [prev] are null (it asserts so when it links
    them); what [objects] and [refcount] hold when a span is given is never read. *)
Definition take_over span : CM unit := act (λ c,
  with_small (with_lists c (<[span := (0, 0)]> (span_lists c)))
    (<[span := mkSmall 0 0]> (small_spans c))).
Definition in_pages (u : use) (a : Z) : Prop :=
  Z.shiftl (u_start u) kPageShift ≤ a < Z.shiftl (u_start u + u_pages u) kPageShift.
#[global] Instance in_pages_dec u a : Decision (in_pages u a).
Proof. unfold in_pages. apply _. Defined.
Definition hand_back span : CM unit :=
  u ← load_span span;
  n ← ask_links (λ st, get_next st span); p ← ask_links (λ st, get_prev st span);
  _ ← ASSERT ((n =? 0) && (p =? 0));
  act (λ c, with_memory (with_small (with_lists c (delete span (span_lists c)))
        (delete span (small_spans c))) (filter (λ kv, ¬ in_pages u kv.1) (memory c))).

(** *** [Init] *)
Definition c_div (a b : Z) : outcome Z :=
  if b =? 0 then Undefined DivideByZero else Ok (Z.quot a b).
Definition slots_for_class cl : outcome Z :=
  bytes ← ByteSizeForClass sm cl; let bytes := to_int bytes in
  objs_to_move ← num_objects_to_move sm cl;
  _ ← check ((0 <? objs_to_move) && (0 <? bytes));
  b ← i32 (bytes * objs_to_move);
  n ← c_div (1024 * 1024) b;
  mret (Z.min kMaxNumTransferEntries (Z.max 1 n)).
Definition CentralFreeList_Init cl : CM unit :=
  _ ← on_list cl (λ f, mkCFL cl (num_spans_ f) (counter_ f) (tc_slots_ f) (used_slots_ f)
                          (cache_size_ f) (max_cache_size_ f));
  _ ← on_links (λ st, DLL_Init st (empty_ cl));
  _ ← on_links (λ st, DLL_Init st (nonempty_ cl));
  max_cache_size ← (if 0 <? cl then lift (slots_for_class cl) else mret kMaxNumTransferEntries);
  let cache_size := if 0 <? cl then Z.min 16 max_cache_size else 16 in
  _ ← on_list cl (λ f, mkCFL cl 0 0 (tc_slots_ f) 0 cache_size max_cache_size);
  ASSERT (cache_size <=? max_cache_size).

(** *** Objects go back to their spans *)
Definition MapObjectToSpan object : CM Z := λ c,
  lift (sh_descriptor (Z.shiftr object kPageShift) (pageheap c)) c.
Definition ReleaseToSpans cl object : CM unit :=
  span ← MapObjectToSpan object;
  _ ← ASSERT (negb (span =? 0));
  s ← load_small span;
  _ ← ASSERT (0 <? refcount s);
  _ ← (if objects s =? 0 then
         _ ← on_links (λ st, DLL_Remove st span);
         on_links (λ st, DLL_Prepend st (nonempty_ cl) span)
       else mret tt);
  _ ← on_list cl (λ f, set_counter f (size_t (counter_ f + 1)));
  let s := mkSmall (objects s) (u16 (refcount s - 1)) in
  _ ← store_small span s;
  if refcount s =? 0 then
    u ← load_span span;
    bytes ← lift (ByteSizeForClass sm (u_class u));
    n ← lift (c_div (Z.shiftl (u_pages u) kPageShift) bytes);
    _ ← on_list cl (λ f, set_counter f (size_t (counter_ f - n)));
    _ ← on_links (λ st, DLL_Remove st span);
    _ ← on_list cl (λ f, set_num_spans f (size_t (num_spans_ f - 1)));
    _ ← hand_back span;
    on_heap (sh_delete span)
  else
    _ ← write_word object (objects s);
    store_small span (mkSmall object (refcount s)).
Fixpoint ReleaseListToSpans (fuel : nat) cl (start : Z) : CM unit :=
  match fuel with
  | O => lift NoFuel
  | S fuel =>
      if start =? 0 then mret tt
      else
        next ← read_word start;
        _ ← ReleaseToSpans cl start;
        ReleaseListToSpans fuel cl next
  end.

(** *** Room in the cache of chains *)
Definition ShrinkCache (fuel : nat) cl (force : bool) : CM bool :=
  f ← get_list cl;
  if cache_size_ f =? 0 then mret false else
  if negb force && (used_slots_ f =? cache_size_ f) then mret false else
  _ ← ASSERT (used_slots_ f <=? cache_size_ f);
  _ ← ASSERT (0 <=? cache_size_ f);
  if cache_size_ f =? 0 then mret false else
  if used_slots_ f =? cache_size_ f then
    if negb force then mret false else
    _ ← put_list cl (set_used_slots (set_cache_size f (cache_size_ f - 1)) (used_slots_ f - 1));
    e ← lift (arr_get (tc_slots_ f) (used_slots_ f - 1));
    _ ← ReleaseListToSpans fuel cl e.1;
    mret true
  else
    _ ← put_list cl (set_cache_size f (cache_size_ f - 1));
    mret true.
(** The rounds of [while (t >= num_size_classes) t -= num_size_classes]. *)
Fixpoint reduce (fuel : nat) (t n : Z) : outcome Z :=
  match fuel with
  | O => NoFuel
  | S fuel => if n <=? t then reduce fuel (t - n) n else mret t
  end.
Definition EvictRandomSizeClass (fuel : nat) (locked_size_class : Z) (force : bool) : CM bool :=
  t ← gets race_counter;
  t1 ← lift (i32 (t + 1));
  _ ← act (λ c, with_race c t1);
  t ← (if num_size_classes sm <=? t then
         t ← lift (reduce fuel t (num_size_classes sm));
         _ ← act (λ c, with_race c t); mret t
       else mret t);
  _ ← ASSERT (0 <=? t);
  _ ← ASSERT (t <? num_size_classes sm);
  if t =? locked_size_class then mret false else ShrinkCache fuel t force.
Definition MakeCacheSpace (fuel : nat) cl : CM bool :=
  f ← get_list cl;
  if used_slots_ f <? cache_size_ f then mret true else
  if cache_size_ f =? max_cache_size_ f then mret false else
  evicted ← EvictRandomSizeClass fuel (size_class_ f) false;
  evicted ← (if evicted : bool then mret true else EvictRandomSizeClass fuel (size_class_ f) true);
  if evicted : bool then
    f ← get_list cl;
    if cache_size_ f <? max_cache_size_ f then
      _ ← put_list cl (set_cache_size f (cache_size_ f + 1));
      mret true
    else mret false
  else mret false.

Definition InsertRange (fuel : nat) cl (start end_ N : Z) : CM unit :=
  f ← get_list cl;
  batch ← lift (num_objects_to_move sm (size_class_ f));
  room ← (if N =? batch then MakeCacheSpace fuel cl else mret false);
  if room : bool then
    f ← get_list cl;
    let slot := used_slots_ f in
    _ ← put_list cl (set_used_slots f (slot + 1));
    _ ← ASSERT (0 <=? slot);
    _ ← ASSERT (slot <? max_cache_size_ f);
    slots ← lift (arr_set (tc_slots_ f) slot (start, end_));
    on_list cl (λ f, set_slots f slots)
  else ReleaseListToSpans fuel cl start.

(** *** Objects come from the spans *)
(** [do { prev = curr; curr = *curr; } while (++result < N && curr != NULL)]:
    [prev], [curr] and [result] at the end. *)
Fixpoint walk_objects (fuel : nat) (curr result N : Z) : CM (Z * Z * Z) :=
  match fuel with
  | O => lift NoFuel
  | S fuel =>
      next ← read_word curr;
      let result := result + 1 in
      if (result <? N) && negb (next =? 0) then walk_objects fuel next result N
      else mret (curr, next, result)
  end.
(** The number of objects, the first and the last; null ones when there is none. *)
Definition FetchFromOneSpans cl N : CM (Z * Z * Z) :=
  none ← ask_links (λ st, DLL_IsEmpty st (nonempty_ cl));
  if none : bool then mret (0, 0, 0) else
  span ← ask_links (λ st, get_next st (nonempty_ cl));
  s ← load_small span;
  _ ← ASSERT (negb (objects s =? 0));
  '(prev, curr, result) ← walk_objects (S (Z.to_nat N)) (objects s) 0 N;
  _ ← (if curr =? 0 then
         _ ← on_links (λ st, DLL_Remove st span);
         on_links (λ st, DLL_Prepend st (empty_ cl) span)
       else mret tt);
  _ ← store_small span (mkSmall curr (refcount s));
  _ ← write_word prev 0;
  _ ← store_small span (mkSmall curr (u16 (refcount s + result)));
  _ ← on_list cl (λ f, set_counter f (size_t (counter_ f - result)));
  mret (result, objects s, prev).

(** [for (int i = 0; i < npages; i++) SetCachedSizeClass(start + i, cl)]. *)
Fixpoint cache_pages (npages : nat) (start cl : Z) : CM unit :=
  match npages with
  | O => mret tt
  | S n => _ ← SetCachedSizeClass start cl; cache_pages n (start + 1) cl
  end.
(** The block is cut into objects; [tail] is where the address of the next one is
    written: the field [objects] of the span, or the word of an object.  The number
    of objects and the last [tail]. *)
Definition write_tail span (tail : option Z) (v : Z) : CM unit :=
  match tail with
  | None => s ← load_small span; store_small span (mkSmall v (refcount s))
  | Some a => act (λ c, with_memory c (<[a := v]> (memory c)))
  end.
Fixpoint cut_objects (fuel : nat) span (tail : option Z) (ptr limit size num : Z) : CM (Z * option Z) :=
  match fuel with
  | O => lift NoFuel
  | S fuel =>
      if ptr + size <=? limit then
        _ ← write_tail span tail ptr;
        cut_objects fuel span (Some ptr) (ptr + size) limit size (num + 1)
      else
        _ ← ASSERT (ptr <=? limit);
        mret (num, tail)
  end.
Definition Populate cl : CM unit :=
  npages ← lift (class_to_pages sm cl);
  span ← on_heap (sh_new npages);
  if span =? 0 then mret tt else
  _ ← on_heap (sh_register span cl);
  _ ← take_over span;
  u ← load_span span;
  _ ← ASSERT (u_pages u =? npages);
  _ ← cache_pages (Z.to_nat npages) (u_start u) cl;
  let ptr := Z.shiftl (u_start u) kPageShift in
  let limit := ptr + Z.shiftl npages kPageShift in
  size ← lift (ByteSizeForClass sm cl);
  '(num, tail) ← cut_objects (S (Z.to_nat (Z.shiftl npages kPageShift))) span None ptr limit size 0;
  _ ← write_tail span tail 0;
  s ← load_small span;
  _ ← store_small span (mkSmall (objects s) 0);
  _ ← on_links (λ st, DLL_Prepend st (nonempty_ cl) span);
  on_list cl (λ f, set_counter (set_num_spans f (size_t (num_spans_ f + 1))) (size_t (counter_ f + num))).

Definition FetchFromOneSpansSafe cl N : CM (Z * Z * Z) :=
  '(result, start, end_) ← FetchFromOneSpans cl N;
  if result =? 0 then _ ← Populate cl; FetchFromOneSpans cl N else mret (result, start, end_).
(** [while (result < N)] of [RemoveRange]. *)
Fixpoint fetch_more (fuel : nat) cl (result N start : Z) : CM (Z * Z) :=
  match fuel with
  | O => lift NoFuel
  | S fuel =>
      if result <? N then
        '(n, head, tail) ← FetchFromOneSpans cl (N - result);
        if n =? 0 then mret (result, start) else
        '(m, start) ← (λ c, lift (SLL_PushRange (memory c) start head tail) c);
        _ ← act (λ c, with_memory c m);
        fetch_more fuel cl (result + n) N start
      else mret (result, start)
  end.
(** The number of objects, the first and the last. *)
Definition RemoveRange cl N : CM (Z * Z * Z) :=
  _ ← ASSERT (0 <? N);
  f ← get_list cl;
  batch ← lift (num_objects_to_move sm (size_class_ f));
  if (N =? batch) && (0 <? used_slots_ f) then
    let slot := used_slots_ f - 1 in
    _ ← put_list cl (set_used_slots f slot);
    _ ← ASSERT (0 <=? slot);
    entry ← lift (arr_get (tc_slots_ f) slot);
    mret (N, entry.1, entry.2)
  else
    '(result, start, end_) ← FetchFromOneSpansSafe cl N;
    if result =? 0 then mret (result, start, end_) else
    '(result, start) ← fetch_more (S (Z.to_nat N)) cl result N start;
    mret (result, start, end_).

(** *** Statistics *)
Definition central_length cl : CM Z := f ← get_list cl; mret (counter_ f).
Definition tc_length cl : CM Z :=
  f ← get_list cl;
  batch ← lift (num_objects_to_move sm (size_class_ f));
  lift (i32 (used_slots_ f * batch)).
Definition OverheadBytes cl : CM Z :=
  f ← get_list cl;
  if size_class_ f =? 0 then mret 0 else
  pages_per_span ← lift (class_to_pages sm (size_class_ f));
  object_size ← lift (class_to_size sm (size_class_ f));
  _ ← ASSERT (0 <? object_size);
  r ← lift (c_rem (pages_per_span * kPageSize) object_size);
  mret (size_t (num_spans_ f * r)).

(** The loop over the classes of [Static::InitStaticVars]. *)
Fixpoint init_lists (n : nat) cl : CM unit :=
  match n with
  | O => mret tt
  | S n => _ ← CentralFreeList_Init cl; init_lists n (cl + 1)
  end.
Definition central_static (h : H) : Central H :=
  mkCentral (replicate (Z.to_nat kClassSizesMax) CFL_static) 0
    (gset_to_gmap (0, 0) (list_heads 0)) ∅ ∅ Clear h.
Definition InitCentral : CM unit := init_lists (Z.to_nat (num_size_classes sm)) 0.
End central.
