(* ===== verification/CentralLists.v ===== *)
(** * The objects of the central free lists

    What the state of the central free lists stands for: where each object is (free
    in its span, in a chain of a cache, or held by a client), and on which list each
    span is.  First the sizes of the classes and the objects of a span, then the
    lists of spans, then the free objects of each span. *)
From stdpp Require Import base numbers list option gmap sets fin_maps fin_map_dom list_numbers.
From Stdlib Require Import ZArith Lia.
From S2P Require Import Prelude SizeMap PackedCache SpanList SpanHeap CentralFreeList.
Open Scope Z_scope.

(** ** Sizes and objects *)
(** What [SizeMap::Init] guarantees of the classes. *)
Record class_sizes (sm : SizeMap) (cl size pages batch : Z) : Prop := {
  cs_size : class_to_size_ sm !! Z.to_nat cl = Some size;
  cs_pages : class_to_pages_ sm !! Z.to_nat cl = Some pages;
  cs_batch : num_objects_to_move_ sm !! Z.to_nat cl = Some batch;
  cs_size_range : 8 ≤ size ≤ kMaxSize;
  cs_size_align : size mod 8 = 0;
  cs_pages_range : 1 ≤ pages < 2 ^ 20;
  cs_fits : size ≤ 8192 * pages;
  cs_count : 8192 * pages / size < 2 ^ 16;
  cs_batch_range : 1 ≤ batch ≤ 8192;
  cs_moved : size * batch ≤ 2 ^ 20;
}.
Record sizes_ok (sm : SizeMap) : Prop := {
  so_classes : 2 ≤ num_size_classes sm ≤ kClassSizesMax;
  so_class cl : 1 ≤ cl < num_size_classes sm → ∃ size pages batch, class_sizes sm cl size pages batch;
}.

Section objects.
Variable sm : SizeMap.
Hypothesis Hsm : sizes_ok sm.
Implicit Types (u : use) (x p cl : Z).

Definition csize cl : Z := class_to_size_ sm @! cl.
Definition cpages cl : Z := class_to_pages_ sm @! cl.
Definition cbatch cl : Z := num_objects_to_move_ sm @! cl.
Definition class_ok cl : Prop := 1 ≤ cl < num_size_classes sm.
Lemma num_classes_nonneg : 0 ≤ num_size_classes sm.
Proof. pose proof (so_classes _ Hsm). lia. Qed.
Lemma class_sizes_of cl : class_ok cl → class_sizes sm cl (csize cl) (cpages cl) (cbatch cl).
Proof.
  intros Hcl. destruct (so_class _ Hsm cl Hcl) as (s & p & b & Hc). pose proof Hc as [E1 E2 E3].
  unfold csize, cpages, cbatch. by rewrite !list_lookup_total_alt, E1, E2, E3.
Qed.
Lemma ByteSizeForClass_ok cl : class_ok cl → ByteSizeForClass sm cl = Ok (csize cl).
Proof. intros Hcl. destruct (class_sizes_of cl Hcl). apply arr_get_ok; [unfold class_ok in *; lia|done]. Qed.
Lemma class_to_pages_ok cl : class_ok cl → class_to_pages sm cl = Ok (cpages cl).
Proof. intros Hcl. destruct (class_sizes_of cl Hcl). apply arr_get_ok; [unfold class_ok in *; lia|done]. Qed.
Lemma num_objects_to_move_ok cl : class_ok cl → num_objects_to_move sm cl = Ok (cbatch cl).
Proof. intros Hcl. destruct (class_sizes_of cl Hcl). apply arr_get_ok; [unfold class_ok in *; lia|done]. Qed.

(** The number of objects of a span, and the objects. *)
Definition nobj u : Z := 8192 * u_pages u / csize (u_class u).
Definition object_at u (i : Z) : Z := 8192 * u_start u + i * csize (u_class u).
Definition objs u : list Z := object_at u <$> seqZ 0 (nobj u).
(** A span cut into objects. *)
Definition small_use u : Prop :=
  class_ok (u_class u) ∧ u_pages u = cpages (u_class u) ∧ 1 ≤ u_start u ∧ u_start u + u_pages u ≤ 2 ^ kPageBits.

Lemma nobj_range u : small_use u → 1 ≤ nobj u < 2 ^ 16 ∧ nobj u * csize (u_class u) ≤ 8192 * u_pages u.
Proof.
  intros (Hcl & Ep & _). destruct (class_sizes_of _ Hcl) as [_ _ _ Hs _ Hp Hf Hn _ _].
  unfold nobj. rewrite Ep. split; [split; [|done]|].
  - apply Z.div_le_lower_bound; lia.
  - rewrite Z.mul_comm. apply Z.mul_div_le. lia.
Qed.
Lemma objs_length u : small_use u → zlen (objs u) = nobj u.
Proof.
  intros Hu. pose proof (nobj_range u Hu). unfold objs, zlen. rewrite length_fmap, length_seqZ. lia.
Qed.
Lemma elem_of_objs u x : x ∈ objs u ↔ ∃ i, 0 ≤ i < nobj u ∧ x = object_at u i.
Proof.
  unfold objs. rewrite list_elem_of_fmap. setoid_rewrite elem_of_seqZ. rewrite Z.add_0_l. naive_solver.
Qed.
Lemma csize_pos u : small_use u → 8 ≤ csize (u_class u).
Proof. intros (Hcl & _). destruct (class_sizes_of _ Hcl). lia. Qed.
Lemma objs_NoDup u : small_use u → NoDup (objs u).
Proof.
  intros Hu. pose proof (csize_pos u Hu). unfold objs. apply NoDup_fmap_2_strong; [|apply NoDup_seqZ].
  intros i j _ _. unfold object_at. nia.
Qed.
(** The bytes of an object are in the pages of its span. *)
Lemma object_in_pages u x : small_use u → x ∈ objs u →
  8192 * u_start u ≤ x ∧ x + csize (u_class u) ≤ 8192 * (u_start u + u_pages u).
Proof.
  intros Hu (i & Hi & ->)%elem_of_objs. destruct (nobj_range u Hu) as [_ Hn]. pose proof (csize_pos u Hu).
  unfold object_at. nia.
Qed.
Lemma object_page u x : small_use u → x ∈ objs u → has_page u (Z.shiftr x kPageShift) ∧ 0 < x.
Proof.
  intros Hu Hx. pose proof (object_in_pages u x Hu Hx). pose proof (csize_pos u Hu).
  destruct Hu as (_ & _ & ? & _). rewrite Z.shiftr_div_pow2 by done. change (2 ^ kPageShift) with 8192.
  unfold has_page. split; [|lia]. split; [apply Z.div_le_lower_bound; lia|apply Z.div_lt_upper_bound; lia].
Qed.
(** Objects of a span do not overlap. *)
Lemma objs_apart u x y : small_use u → x ∈ objs u → y ∈ objs u → x < y → x + csize (u_class u) ≤ y.
Proof.
  intros Hu (i & Hi & ->)%elem_of_objs (j & Hj & ->)%elem_of_objs Hlt. pose proof (csize_pos u Hu).
  unfold object_at in *. assert (i < j) by nia. assert ((i + 1) * csize (u_class u) ≤ j * csize (u_class u)); [|lia].
  apply Z.mul_le_mono_nonneg_r; lia.
Qed.
(** Some of the objects: at most as many, and all when as many. *)
Lemma some_objs u l : small_use u → NoDup l → (∀ x, x ∈ l → x ∈ objs u) →
  zlen l ≤ nobj u ∧ (zlen l = nobj u → l ≡ₚ objs u).
Proof.
  intros Hu Hnd Hin. assert (l ⊆+ objs u) as Hsub by by apply NoDup_submseteq.
  rewrite <- (objs_length u Hu). split.
  - unfold zlen. apply submseteq_length in Hsub. lia.
  - intros E. apply submseteq_length_Permutation; [done|]. unfold zlen in E. lia.
Qed.
End objects.

(** ** The lists of spans *)
Definition list_of (cl : Z) (full : bool) : Z := if full then empty_ cl else nonempty_ cl.
Lemma list_of_inj cl b cl' b' : list_of cl b = list_of cl' b' → cl = cl' ∧ b = b'.
Proof. unfold list_of, empty_, nonempty_. destruct b, b'; split; (done || lia). Qed.

Lemma elem_of_heads n d : d ∈ list_heads n ↔ ∃ cl b, n ≤ cl < kClassSizesMax ∧ d = list_of cl b.
Proof.
  unfold list_heads. rewrite elem_of_list_to_set, list_elem_of_In, in_flat_map. split.
  - intros (cl & Hcl%list_elem_of_In%elem_of_seqZ & [<-|[<-|[]]]); [exists cl, true|exists cl, false]; split; lia || done.
  - intros (cl & b & Hcl & ->). exists cl. split; [apply list_elem_of_In, elem_of_seqZ; lia|].
    unfold list_of. destruct b; simpl; tauto.
Qed.
Lemma heads_neg n d : d ∈ list_heads n → 0 ≤ n → d < 0.
Proof. intros (cl & b & Hcl & ->)%elem_of_heads Hn. unfold list_of, empty_, nonempty_. destruct b; lia. Qed.

(** [G] gives the list of each span that is on one: its class, and whether it is the
    list of the spans without free objects; the spans of [D] are on none.  The lists
    of the classes from [n] on are not used. *)
Record lists_at (n : Z) (st : links) (G : gmap Z (Z * bool)) (D : gset Z) (lists : gmap Z (list Z)) : Prop := {
  la_rep : dll_rep st lists (D ∪ list_heads n);
  la_in cl b : 0 ≤ cl < n → ∃ l, lists !! list_of cl b = Some l ∧ ∀ p, p ∈ l ↔ G !! p = Some (cl, b);
  la_heads h : is_Some (lists !! h) → ∃ cl b, 0 ≤ cl < n ∧ h = list_of cl b;
  la_class p cl b : G !! p = Some (cl, b) → 0 ≤ cl < n ∧ 0 < p;
}.
Definition spans_listed n st G D : Prop := ∃ lists, lists_at n st G D lists.

Lemma heads_outside n D p : 0 ≤ n → 0 < p → (D ∪ list_heads n) ∖ {[p]} = (D ∖ {[p]}) ∪ list_heads n.
Proof.
  intros Hn Hp. assert (p ∉ list_heads n) by (intros ?%heads_neg; lia). set_solver.
Qed.

Section span_lists.
Variables (n : Z) (st : links) (G : gmap Z (Z * bool)) (D : gset Z).
Hypothesis Hn : 0 ≤ n.
Hypothesis Hst : spans_listed n st G D.

Lemma listed_first cl b : 0 ≤ cl < n →
  (DLL_IsEmpty st (list_of cl b) = Ok true ∧ ∀ p, G !! p ≠ Some (cl, b)) ∨
  ∃ p, DLL_IsEmpty st (list_of cl b) = Ok false ∧ get_next st (list_of cl b) = Ok p ∧ G !! p = Some (cl, b).
Proof.
  intros Hcl. destruct Hst as (lists & [L1 L2 L3 L4]). destruct (L2 cl b Hcl) as (l & El & Hl).
  rewrite (rep_IsEmpty _ _ _ L1 _ _ El), (rep_first _ _ _ L1 _ _ El). destruct l as [|p l]; [left|right].
  - split; [done|]. intros p Hp%Hl. by apply not_elem_of_nil in Hp.
  - exists p. split; [done|]. split; [done|]. apply Hl. by left.
Qed.
Lemma listed_remove p cl b : G !! p = Some (cl, b) →
  ∃ st', DLL_Remove st p = Ok st' ∧ spans_listed n st' (delete p G) ({[p]} ∪ D).
Proof.
  intros Hp. destruct Hst as (lists & [L1 L2 L3 L4]). destruct (L4 _ _ _ Hp) as [Hcl _].
  destruct (L2 cl b Hcl) as (l & El & Hl). pose proof (proj2 (Hl p) Hp) as Hin.
  apply list_elem_of_split in Hin as (l1 & l2 & ->).
  destruct (rep_Remove _ _ _ L1 _ _ _ _ El) as (st' & E & Hrep). exists st'. split; [done|].
  destruct (dr_circular _ _ _ L1 _ _ El) as [_ Hnd].
  rewrite <- Permutation_middle in Hnd. apply NoDup_cons in Hnd as [_ [Hp12 _]%NoDup_cons].
  rewrite (assoc_L (∪)) in Hrep. eexists. split; [exact Hrep|..].
  - intros cl' b' Hcl'. destruct (decide (list_of cl' b' = list_of cl b)) as [E'|Hne].
    + apply list_of_inj in E' as [-> ->]. eexists. split; [apply lookup_insert_eq|]. intros q.
      specialize (Hl q). rewrite lookup_delete_Some. rewrite elem_of_app in *. rewrite elem_of_cons in Hl.
      split; [intros Hq; split; [intros <-; set_solver|tauto]|intros [Hne Hq]; naive_solver].
    + destruct (L2 cl' b' Hcl') as (l' & El' & Hl'). exists l'. rewrite lookup_insert_ne by done.
      split; [done|]. intros q. rewrite Hl', lookup_delete_Some. split; [|by intros [_ ?]].
      intros Hq. split; [|done]. intros <-. apply Hne. congruence.
  - intros h Hh. apply L3. destruct (decide (list_of cl b = h)) as [<-|]; [by rewrite El|].
    by rewrite lookup_insert_ne in Hh.
  - intros q cl' b' [_ Hq]%lookup_delete_Some. by eapply L4.
Qed.
Lemma listed_prepend p cl b : p ∈ D → 0 < p → 0 ≤ cl < n → G !! p = None →
  ∃ st', DLL_Prepend st (list_of cl b) p = Ok st' ∧ spans_listed n st' (<[p := (cl, b)]> G) (D ∖ {[p]}).
Proof.
  intros HD Hpos Hcl HG. destruct Hst as (lists & [L1 L2 L3 L4]).
  destruct (L2 cl b Hcl) as (l & El & Hl).
  assert ((D ∪ list_heads n) ∖ {[p]} = (D ∖ {[p]}) ∪ list_heads n) as Ed by (apply heads_outside; lia).
  destruct (rep_Prepend _ _ _ L1 _ _ p El) as (st' & E & Hrep); [by apply elem_of_union_l|]. exists st'. split; [done|].
  rewrite Ed in Hrep. eexists. split; [exact Hrep|..].
  - intros cl' b' Hcl'. destruct (decide (list_of cl' b' = list_of cl b)) as [E'|Hne].
    + apply list_of_inj in E' as [-> ->]. eexists. split; [apply lookup_insert_eq|]. intros q.
      rewrite elem_of_cons, Hl, lookup_insert_Some. naive_solver.
    + destruct (L2 cl' b' Hcl') as (l' & El' & Hl'). exists l'. rewrite lookup_insert_ne by done.
      split; [done|]. intros q. rewrite Hl', lookup_insert_Some. split; [|naive_solver].
      intros Hq. right. split; [|done]. congruence.
  - intros h Hh. apply L3. destruct (decide (list_of cl b = h)) as [<-|]; [by rewrite El|].
    by rewrite lookup_insert_ne in Hh.
  - intros q cl' b' [[<- [= <- <-]]|[_ Hq]]%lookup_insert_Some; [done|by eapply L4].
Qed.
(** A span comes with null links; one with null links goes. *)
Lemma listed_new p : 0 < p → G !! p = None → spans_listed n (<[p := (0, 0)]> st) G ({[p]} ∪ D).
Proof.
  intros Hpos HG. destruct Hst as (lists & [L1 L2 L3 L4]). exists lists. split; [|done..].
  rewrite <- (assoc_L (∪)). apply rep_new; [done|]. intros h l Hl. destruct (L3 h) as (cl & b & Hcl & ->); [by eexists|].
  destruct (L2 cl b Hcl) as (l' & El & Hl'). assert (l = l') as -> by congruence.
  intros [->|Hp]%elem_of_cons; [unfold list_of, empty_, nonempty_ in Hpos; destruct b; lia|].
  apply Hl' in Hp. congruence.
Qed.
Lemma listed_delete p : p ∈ D → 0 < p → st !! p = Some (0, 0) ∧ spans_listed n (delete p st) G (D ∖ {[p]}).
Proof.
  intros HD Hp. destruct Hst as (lists & [L1 L2 L3 L4]). split; [by apply (dr_detached _ _ _ L1), elem_of_union_l|].
  exists lists. split; [|done..]. rewrite <- heads_outside by done. by apply rep_delete, elem_of_union_l.
Qed.
End span_lists.

(** ** The free objects *)
(** An object is in the free list of its span, in a chain of the cache of a class,
    or with a client. *)
Inductive place := InSpan | InSlot (cl i : Z) | Held.
#[global] Instance place_eq_dec : EqDecision place.
Proof. solve_decision. Defined.
Abbreviation places := (gmap Z (Z * place)).
Implicit Types (m : words) (U : gmap Z use) (S : gmap Z SmallSpan) (W : places).

Definition put_all (l : list Z) (v : Z * place) W : places := foldr (λ x W, <[x := v]> W) W l.
Lemma lookup_put_all l v W y : put_all l v W !! y = if decide (y ∈ l) then Some v else W !! y.
Proof.
  induction l as [|x l IH]; cbn [put_all foldr].
  { rewrite decide_False; [done|]. apply not_elem_of_nil. }
  change (foldr _ W l) with (put_all l v W).
  destruct (decide (y = x)) as [->|Hne].
  - rewrite lookup_insert_eq, decide_True; [done|left].
  - rewrite lookup_insert_ne, IH by done. repeat case_decide; set_solver.
Qed.

Section free_objects.
Variable sm : SizeMap.
Hypothesis Hsm : sizes_ok sm.

Definition free_list m W p (s : SmallSpan) (u : use) (l : list Z) : Prop :=
  sll m (objects s) l ∧ (∀ x, x ∈ l ↔ W !! x = Some (p, InSpan)) ∧ refcount s = nobj sm u - zlen l.
Record objs_ok m U S W : Prop := {
  oo_use p u : U !! p = Some u → 0 < p ∧ small_use sm u;
  oo_apart : apart U;
  oo_dom p : is_Some (S !! p) ↔ is_Some (U !! p);
  oo_span x p pl : W !! x = Some (p, pl) → ∃ u, U !! p = Some u ∧ x ∈ objs sm u;
  oo_all p u x : U !! p = Some u → x ∈ objs sm u → ∃ pl, W !! x = Some (p, pl);
  oo_mem x : is_Some (m !! x) ↔ is_Some (W !! x);
  oo_free p u s : U !! p = Some u → S !! p = Some s → ∃ l, free_list m W p s u l;
}.

Lemma sll_frame m m' head l : (∀ x, x ∈ l → m' !! x = m !! x) → sll m head l → sll m' head l.
Proof. intros Hf [Hs Hn]. split; [|done]. by eapply sll_seg_frame. Qed.
Lemma sll_nil m head : sll m head [] ↔ head = 0.
Proof. split; [by intros [? _]|]. intros ->. split; [done|constructor]. Qed.
Lemma sll_cons m head l : sll m head l → head ≠ 0 → ∃ n l', l = head :: l' ∧ m !! head = Some n ∧ sll m n l'.
Proof.
  intros [Hs Hnd] Hh. destruct l as [|x l]; [done|]. destruct Hs as (-> & _ & n & Hn & Hl).
  apply NoDup_cons in Hnd as [_ Hnd]. exists n, l. by split_and!.
Qed.
Lemma free_frame m m' W W' p s u l : (∀ x, x ∈ l → m' !! x = m !! x) →
  (∀ x, W' !! x = Some (p, InSpan) ↔ W !! x = Some (p, InSpan)) →
  free_list m W p s u l → free_list m' W' p s u l.
Proof.
  intros Hm HW (Hs & Hin & Hr). split; [by eapply sll_frame|]. split; [|done].
  intros x. by rewrite Hin, HW.
Qed.

Section state.
Variables (m : words) (U : gmap Z use) (S : gmap Z SmallSpan) (W : places).
Hypothesis Hok : objs_ok m U S W.

Lemma objs_span_inj p q u v x : U !! p = Some u → U !! q = Some v → x ∈ objs sm u → x ∈ objs sm v → p = q.
Proof.
  intros Hp Hq Hx Hy. destruct (oo_use _ _ _ _ Hok _ _ Hp) as [_ Hu].
  destruct (oo_use _ _ _ _ Hok _ _ Hq) as [_ Hv].
  destruct (object_page sm Hsm u x Hu Hx) as [Pu _]. destruct (object_page sm Hsm v x Hv Hy) as [Pv _].
  by apply (oo_apart _ _ _ _ Hok p q u v (Z.shiftr x kPageShift)).
Qed.
Lemma place_of x p u pl : W !! x = Some (p, pl) → U !! p = Some u → x ∈ objs sm u.
Proof. intros Hx Hp. destruct (oo_span _ _ _ _ Hok _ _ _ Hx) as (u' & Hu & Hin). congruence. Qed.
Lemma free_in_objs p u s l x : U !! p = Some u → free_list m W p s u l → x ∈ l → x ∈ objs sm u.
Proof. intros Hp (_ & Hin & _) Hx%Hin. by eapply place_of. Qed.
Lemma free_nil p s u l : free_list m W p s u l → objects s = 0 ↔ l = [].
Proof.
  intros ([Hs _] & _ & _). split; [|by intros ->]. destruct l as [|x l]; [done|].
  by destruct Hs as (-> & ? & _).
Qed.

(** An object goes back to its span. *)
Lemma give_object x p pl s u : W !! x = Some (p, pl) → pl ≠ InSpan → U !! p = Some u → S !! p = Some s →
  1 ≤ refcount s < 2 ^ 16 ∧
  objs_ok (<[x := objects s]> m) U (<[p := mkSmall x (refcount s - 1)]> S) (<[x := (p, InSpan)]> W) ∧
  (refcount s = 1 → ∀ y, y ∈ objs sm u → y ≠ x → W !! y = Some (p, InSpan)).
Proof.
  intros Hx Hpl Hp Hs. pose proof Hok as [O1 O2 O3 O4 O5 O6 O7].
  destruct (O1 _ _ Hp) as [Hpos Hu]. pose proof (place_of x p u _ Hx Hp) as Hxu.
  destruct (O7 _ _ _ Hp Hs) as (l & Hl). pose proof Hl as (Hsll & Hin & Hrc).
  assert (x ∉ l) as Hxl by (intros Hx'%Hin; congruence).
  assert (NoDup (x :: l)) as Hnd by (apply NoDup_cons; split; [done|apply Hsll]).
  destruct (some_objs sm Hsm u (x :: l) Hu Hnd) as [Hle Heq].
  { intros y [->|Hy]%elem_of_cons; [done|by eapply free_in_objs]. }
  rewrite zlen_cons in Hle, Heq. pose proof (nobj_range sm Hsm u Hu) as [Hn _]. pose proof (zlen_nonneg l).
  split; [lia|]. split.
  - split; try done.
    + intros q. destruct (decide (q = p)) as [->|]; [rewrite lookup_insert_eq, Hp; split; by eexists|].
      by rewrite lookup_insert_ne.
    + intros y q pl' [[<- [= <- <-]]|[_ Hy]]%lookup_insert_Some; [by exists u|by eapply O4].
    + intros q v y Hq Hy. destruct (decide (y = x)) as [->|]; [|rewrite lookup_insert_ne by done; by eapply O5].
      rewrite lookup_insert_eq. exists InSpan. by rewrite (objs_span_inj p q u v x Hp Hq Hxu Hy).
    + intros y. destruct (decide (y = x)) as [->|]; [|by rewrite !lookup_insert_ne].
      rewrite !lookup_insert_eq. split; by eexists.
    + intros q v t Hq Ht. destruct (decide (q = p)) as [->|Hne].
      * rewrite lookup_insert_eq in Ht. injection Ht as <-. assert (v = u) as -> by congruence.
        exists (x :: l). split; [split; [|done]|split].
        -- cbn [sll_seg objects]. split; [done|]. split; [destruct (object_page sm Hsm u x Hu Hxu); lia|].
           exists (objects s). rewrite lookup_insert_eq. split; [done|]. eapply sll_seg_frame; [|apply Hsll].
           intros y Hy. apply lookup_insert_ne. by intros <-.
        -- intros y. rewrite elem_of_cons, Hin, lookup_insert_Some. naive_solver.
        -- rewrite zlen_cons. simpl. lia.
      * rewrite lookup_insert_ne in Ht by done. destruct (O7 _ _ _ Hq Ht) as (l' & Hl'). exists l'.
        eapply free_frame; [| |exact Hl'].
        -- intros y Hy. apply lookup_insert_ne. intros <-. apply Hl' in Hy. congruence.
        -- intros y. rewrite lookup_insert_Some. naive_solver.
  - intros E1 y Hy Hyx. apply Hin. rewrite <- (Heq ltac:(lia)) in Hy. apply elem_of_cons in Hy as [?|?]; done.
Qed.

(** A span goes back to the page heap. *)
Lemma drop_span p u : U !! p = Some u →
  objs_ok (filter (λ kv, ¬ in_pages u kv.1) m) (delete p U) (delete p S) (filter (λ kv, kv.2.1 ≠ p) W).
Proof.
  intros Hp. pose proof Hok as [O1 O2 O3 O4 O5 O6 O7].
  assert (∀ x q v, U !! q = Some v → x ∈ objs sm v → in_pages u x → q = p) as Hin.
  { intros x q v Hq Hx Hpg. destruct (O1 _ _ Hq) as [_ Hv].
    destruct (object_page sm Hsm v x Hv Hx) as [Pv _].
    apply (O2 q p v u (Z.shiftr x kPageShift)); [done..|]. unfold in_pages in Hpg.
    rewrite !Z.shiftl_mul_pow2 in Hpg by done. rewrite Z.shiftr_div_pow2 by done.
    unfold has_page. change (2 ^ kPageShift) with 8192 in *.
    split; [apply Z.div_le_lower_bound; lia|apply Z.div_lt_upper_bound; lia]. }
  split.
  - intros q v [_ Hq]%lookup_delete_Some. by apply O1.
  - intros q1 q2 u1 u2 x [_ H1]%lookup_delete_Some [_ H2]%lookup_delete_Some. by apply O2.
  - intros q. destruct (decide (q = p)) as [->|]; [by rewrite !lookup_delete_eq|by rewrite !lookup_delete_ne].
  - intros x q pl [Hx Hq]%map_lookup_filter_Some. simpl in Hq. destruct (O4 _ _ _ Hx) as (v & Hv & Hxv).
    exists v. by rewrite lookup_delete_ne.
  - intros q v x [Hne Hq]%lookup_delete_Some Hx. destruct (O5 _ _ _ Hq Hx) as (pl & Hpl). exists pl.
    apply map_lookup_filter_Some. split; [done|]. simpl. congruence.
  - intros x. split; intros [v Hv]; apply map_lookup_filter_Some in Hv as [Hv Hc]; simpl in Hc.
    + destruct (proj1 (O6 x)) as [[q pl] HW]; [by eexists|]. exists (q, pl).
      apply map_lookup_filter_Some. split; [done|]. simpl. intros ->. apply Hc.
      pose proof (place_of x p u pl HW Hp) as Hx. destruct (O1 _ _ Hp) as [_ Hu].
      pose proof (object_in_pages sm Hsm u x Hu Hx). pose proof (csize_pos sm Hsm u Hu).
      unfold in_pages. rewrite !Z.shiftl_mul_pow2 by done. change (2 ^ kPageShift) with 8192. lia.
    + destruct v as [q pl]. destruct (proj2 (O6 x)) as [w Hw]; [by eexists|]. exists w.
      apply map_lookup_filter_Some. split; [done|]. simpl. intros Hpg.
      destruct (O4 _ _ _ Hv) as (v & Hq & Hx). by apply Hc, (Hin x q v).
  - intros q v t [Hne Hq]%lookup_delete_Some [_ Ht]%lookup_delete_Some.
    destruct (O7 _ _ _ Hq Ht) as (l & Hl). exists l. eapply free_frame; [| |exact Hl].
    + intros x Hx. pose proof (free_in_objs q v t l x Hq Hl Hx) as Hxv.
      destruct (proj2 (O6 x)) as [w Hw]; [apply Hl in Hx; by eexists|]. rewrite Hw.
      apply map_lookup_filter_Some. split; [done|]. simpl. intros Hpg. by apply Hne, eq_sym, (Hin x q v).
    + intros x. rewrite map_lookup_filter_Some. simpl. split; [by intros [? _]|]. intros ?. split; [done|congruence].
Qed.

(** The first objects of a span's list, up to [x], are taken. *)
Lemma take_objects p u s l1 x l2 : U !! p = Some u → S !! p = Some s →
  free_list m W p s u (l1 ++ x :: l2) →
  objs_ok (<[x := 0]> m) U (<[p := mkSmall (default 0 (head l2)) (refcount s + zlen (l1 ++ [x]))]> S)
    (put_all (l1 ++ [x]) (p, Held) W) ∧
  sll (<[x := 0]> m) (objects s) (l1 ++ [x]) ∧ 0 ≤ refcount s + zlen (l1 ++ [x]) < 2 ^ 16.
Proof.
  intros Hp Hs Hl. pose proof Hl as ([Hsll Hnd] & Hin & Hrc). pose proof Hok as [O1 O2 O3 O4 O5 O6 O7].
  destruct (O1 _ _ Hp) as [_ Hu]. pose proof (nobj_range sm Hsm u Hu) as [Hn _].
  pose proof (proj1 (NoDup_app _ _) Hnd) as (Hnd1 & Hdis & [Hx2 Hnd2]%NoDup_cons).
  assert (∀ y, y ∈ l1 ++ [x] ↔ y ∈ l1 ∨ y = x) as Hin1.
  { intros y. by rewrite elem_of_app, list_elem_of_singleton. }
  assert (∀ y, y ∈ l1 ++ [x] → W !! y = Some (p, InSpan)) as HW1.
  { intros y Hy%Hin1. apply Hin. rewrite elem_of_app, elem_of_cons. tauto. }
  assert (zlen (l1 ++ x :: l2) = zlen (l1 ++ [x]) + zlen l2) as Ez.
  { change (l1 ++ x :: l2) with (l1 ++ [x] ++ l2). by rewrite app_assoc, zlen_app. }
  destruct (some_objs sm Hsm u (l1 ++ x :: l2) Hu Hnd) as [Hall _].
  { intros y Hy. by apply (free_in_objs p u s _ y Hp Hl). }
  pose proof (zlen_nonneg l2). pose proof (zlen_nonneg (l1 ++ [x])). apply sll_seg_app in Hsll as (h & Hs1 & -> & Hx0 & n & Hnx & Hs2).
  split; [|split; [split|lia]].
  - split; try done.
    + intros q. destruct (decide (q = p)) as [->|]; [rewrite lookup_insert_eq, Hp; split; by eexists|].
      by rewrite lookup_insert_ne.
    + intros y q pl. rewrite lookup_put_all. case_decide as Hy; [|apply O4].
      intros [= <- <-]. exists u. split; [done|]. apply (place_of y p u InSpan); [by apply HW1|done].
    + intros q v y Hq Hy. rewrite lookup_put_all. case_decide as Hyl; [|by eapply O5].
      exists Held. assert (q = p) as ->; [|done]. apply (objs_span_inj q p v u y); [done..|].
      apply (place_of y p u InSpan); [by apply HW1|done].
    + intros y. rewrite lookup_put_all. destruct (decide (y = x)) as [->|Hne].
      * rewrite lookup_insert_eq, decide_True; [split; by eexists|]. apply Hin1. by right.
      * rewrite lookup_insert_ne by done. case_decide as Hy; [|done].
        rewrite O6, HW1 by done. split; by eexists.
    + intros q v t Hq Ht. destruct (decide (q = p)) as [->|Hne].
      * rewrite lookup_insert_eq in Ht. injection Ht as <-. assert (v = u) as -> by congruence.
        exists l2. split; [split; [|done]|split].
        -- cbn [objects]. rewrite <- (sll_head m n l2) by done. eapply sll_seg_frame; [|exact Hs2].
           intros y Hy. apply lookup_insert_ne. by intros <-.
        -- intros y. rewrite lookup_put_all. case_decide as Hy.
           ++ split; [|by intros [=]]. intros Hy2. apply Hin1 in Hy as [Hy| ->]; [|done].
              exfalso. apply (Hdis y Hy). by right.
           ++ rewrite <- Hin, elem_of_app, elem_of_cons. rewrite Hin1 in Hy. tauto.
        -- simpl. lia.
      * rewrite lookup_insert_ne in Ht by done. destruct (O7 _ _ _ Hq Ht) as (l' & Hl'). exists l'.
        assert (∀ y, y ∈ l1 ++ [x] → y ∉ l') as Hy'.
        { intros y Hy%HW1 Hy2. apply Hl' in Hy2. congruence. }
        eapply free_frame; [| |exact Hl'].
        -- intros y Hy. apply lookup_insert_ne. intros <-. apply (Hy' x); [apply Hin1; by right|done].
        -- intros y. rewrite lookup_put_all. case_decide as Hy; [|done]. rewrite HW1 by done. naive_solver.
  - apply sll_seg_app. exists x. split.
    + eapply sll_seg_frame; [|exact Hs1]. intros y Hy. apply lookup_insert_ne. intros <-.
      apply (Hdis x Hy). left.
    + split; [done|]. split; [done|]. exists 0. by rewrite lookup_insert_eq.
  - apply NoDup_app. split; [done|]. split; [|apply NoDup_singleton].
    intros y Hy ->%list_elem_of_singleton. apply (Hdis x Hy). left.
Qed.

(** A new span, cut into objects; nothing was at the addresses of the objects. *)
Lemma new_objects p u x : U !! p = None → small_use sm u → apart (<[p := u]> U) → x ∈ objs sm u → W !! x = None.
Proof.
  intros Hp Hu Hap Hx. destruct (W !! x) as [[q pl]|] eqn:E; [|done].
  destruct (oo_span _ _ _ _ Hok _ _ _ E) as (v & Hq & Hv). destruct (oo_use _ _ _ _ Hok _ _ Hq) as [_ Hv'].
  destruct (object_page sm Hsm u x Hu Hx) as [Pu _]. destruct (object_page sm Hsm v x Hv' Hv) as [Pv _].
  assert (p = q); [|congruence]. apply (Hap p q u v (Z.shiftr x kPageShift)); try done;
    [apply lookup_insert_eq|rewrite lookup_insert_ne; [done|congruence]].
Qed.
Lemma add_span p u s m' : U !! p = None → 0 < p → small_use sm u → apart (<[p := u]> U) →
  sll m' (objects s) (objs sm u) → refcount s = 0 → (∀ x, x ∉ objs sm u → m' !! x = m !! x) →
  objs_ok m' (<[p := u]> U) (<[p := s]> S) (put_all (objs sm u) (p, InSpan) W).
Proof.
  intros Hp Hpos Hu Hap Hsll Hrc Hm. pose proof Hok as [O1 O2 O3 O4 O5 O6 O7].
  assert (∀ x, x ∈ objs sm u → W !! x = None) as HW by (intros x; by apply (new_objects p)).
  assert (∀ q v x, U !! q = Some v → x ∈ objs sm v → x ∉ objs sm u) as Hdis.
  { intros q v x Hq Hx Hx'. destruct (O5 _ _ _ Hq Hx) as [pl Hpl]. by rewrite (HW x Hx') in Hpl. }
  split.
  - intros q v [[<- <-]|[_ Hq]]%lookup_insert_Some; [done|by apply O1].
  - done.
  - intros q. destruct (decide (q = p)) as [->|]; [rewrite !lookup_insert_eq; split; by eexists|].
    by rewrite !lookup_insert_ne.
  - intros x q pl. rewrite lookup_put_all. case_decide as Hx.
    + intros [= <- <-]. exists u. by rewrite lookup_insert_eq.
    + intros HWx. destruct (O4 _ _ _ HWx) as (v & Hq & Hv). exists v. rewrite lookup_insert_ne; [done|congruence].
  - intros q v x [[<- <-]|[_ Hq]]%lookup_insert_Some Hx; rewrite lookup_put_all.
    + rewrite decide_True by done. by eexists.
    + rewrite decide_False by (by eapply Hdis). by eapply O5.
  - intros x. rewrite lookup_put_all. case_decide as Hx; [|by rewrite Hm].
    split; [by eexists|]. intros _. destruct Hsll as [Hseg _]. apply list_elem_of_split in Hx as (l1 & l2 & E).
    rewrite E in Hseg. apply sll_seg_app in Hseg as (h & _ & _ & _ & n & Hn & _). by eexists.
  - intros q v t Hq Ht. destruct (decide (q = p)) as [->|Hne].
    + rewrite lookup_insert_eq in Hq. rewrite lookup_insert_eq in Ht. injection Hq as <-. injection Ht as <-.
      exists (objs sm u). split; [done|]. split; [|rewrite objs_length by done; lia].
      intros x. rewrite lookup_put_all. case_decide as Hx; [done|]. split; [done|].
      intros HWx. destruct (O4 _ _ _ HWx) as (v & Hq & _). congruence.
    + rewrite lookup_insert_ne in Hq by done. rewrite lookup_insert_ne in Ht by done. destruct (O7 _ _ _ Hq Ht) as (l & Hl). exists l.
      eapply free_frame; [| |exact Hl].
      * intros x Hx. apply Hm. eapply Hdis; [exact Hq|]. by eapply free_in_objs.
      * intros x. rewrite lookup_put_all. case_decide as Hx; [|done]. rewrite (HW x Hx). naive_solver.
Qed.
End state.
End free_objects.
