(* ===== verification/CentralSpec.v ===== *)
(** * Central free lists: the invariant and the operations

    Every object of every span with a size class is in one place: the free list of
    its span, a chain of the cache of its class, or with a client ([Held]).  Every
    operation keeps this, gives the clients only objects that nobody had, and takes
    back only what it is given; no assertion fails and no address outside of the
    spans is read or written. *)
From stdpp Require Import base numbers list option gmap sets fin_maps fin_map_dom.
From Stdlib Require Import ZArith Lia.
From S2P Require Import Prelude SizeMap PackedCache SpanList SpanHeap CentralFreeList CentralLists.
Open Scope Z_scope.

(** ** The invariant *)
Section invariant.
Context {H : Type} `{SpanHeap H} `{!SpanHeapLaws H}.
Variable sm : SizeMap.
Implicit Types (c : Central H) (U : gmap Z use) (S : gmap Z SmallSpan) (W : places) (m : words)
  (cc : list CentralFreeList) (f : CentralFreeList).

(** The spans with a size class. *)
Definition classed (U : gmap Z use) : gmap Z use := filter (λ kv, u_class kv.2 ≠ 0) U.
(** The list each of them is on. *)
Definition kind (u : use) (s : SmallSpan) : Z * bool := (u_class u, objects s =? 0).
Definition kinds U S : gmap Z (Z * bool) := map_zip_with kind U S.

(** The caches of chains: slot [i] of class [cl] holds the chain [l]. *)
Definition chain_at m W cl i (e : Z * Z) (l : list Z) : Prop :=
  sll m e.1 l ∧ last l = Some e.2 ∧ zlen l = cbatch sm cl ∧ ∀ x, x ∈ l ↔ ∃ p, W !! x = Some (p, InSlot cl i).
Record slots_ok m U cc W : Prop := {
  sl_length : zlen cc = kClassSizesMax;
  sl_list cl : 0 ≤ cl < num_size_classes sm → ∃ f, cc !! Z.to_nat cl = Some f ∧ size_class_ f = cl ∧
    0 ≤ used_slots_ f ≤ cache_size_ f ∧ cache_size_ f ≤ max_cache_size_ f ≤ kMaxNumTransferEntries ∧
    zlen (tc_slots_ f) = kMaxNumTransferEntries;
  sl_chain cl f i : 0 ≤ cl < num_size_classes sm → cc !! Z.to_nat cl = Some f → 0 ≤ i < used_slots_ f →
    ∃ e l, tc_slots_ f !! Z.to_nat i = Some e ∧ chain_at m W cl i e l;
  sl_place x p cl i : W !! x = Some (p, InSlot cl i) → 0 ≤ cl < num_size_classes sm ∧
    (∃ f, cc !! Z.to_nat cl = Some f ∧ 0 ≤ i < used_slots_ f) ∧ ∃ u, U !! p = Some u ∧ u_class u = cl;
}.
(** The counters, as numbers of 64 bits. *)
Definition free_of U cl (p : Z) (s : SmallSpan) : Z :=
  match U !! p with Some u => if u_class u =? cl then nobj sm u - refcount s else 0 | None => 0 end.
Definition one_of U cl (p : Z) (s : SmallSpan) : Z :=
  match U !! p with Some u => if u_class u =? cl then 1 else 0 | None => 0 end.
Definition counts_ok U S cc : Prop := ∀ cl f, 0 ≤ cl < num_size_classes sm → cc !! Z.to_nat cl = Some f →
  counter_ f = size_t (wsum (free_of U cl) S) ∧ num_spans_ f = size_t (wsum (one_of U cl) S).
(** The cache of size classes: never wrong for a span with a class, and without an
    entry for the first page of the large spans [L] or for the page 0. *)
Record entries_ok (t : table) U (L : gmap Z use) : Prop := {
  en_class p u x v : U !! p = Some u → u_class u ≠ 0 → has_page u x → table_get t x = Some v → v = u_class u;
  en_large p u : L !! p = Some u → U !! p = Some u ∧ u_class u = 0 ∧ table_get t (u_start u) = None;
  en_null : table_get t 0 = None;
}.
Definition cache_ok (k : PackedCache) U (L : gmap Z use) : Prop := ∃ t, cache_holds k t ∧ entries_ok t U L.

Record cinv c W (L : gmap Z use) : Prop := {
  ci_heap : sh_good (pageheap c);
  ci_objs : objs_ok sm (memory c) (classed (sh_used (pageheap c))) (small_spans c) W;
  ci_lists : spans_listed (num_size_classes sm) (span_lists c)
    (kinds (classed (sh_used (pageheap c))) (small_spans c)) ∅;
  ci_slots : slots_ok (memory c) (classed (sh_used (pageheap c))) (central_cache c) W;
  ci_counts : counts_ok (classed (sh_used (pageheap c))) (small_spans c) (central_cache c);
  ci_race : 0 ≤ race_counter c ≤ num_size_classes sm;
  ci_cache : cache_ok (pagemap_cache_ c) (sh_used (pageheap c)) L;
}.

Lemma classed_lookup U p u : classed U !! p = Some u ↔ U !! p = Some u ∧ u_class u ≠ 0.
Proof. unfold classed. by rewrite map_lookup_filter_Some. Qed.
Lemma classed_insert U p u : u_class u ≠ 0 → classed (<[p := u]> U) = <[p := u]> (classed U).
Proof. intros. unfold classed. by rewrite map_filter_insert_True. Qed.
Lemma classed_large U p u : u_class u = 0 → U !! p = None → classed (<[p := u]> U) = classed U.
Proof.
  intros Hu Hp. unfold classed. apply map_filter_insert_not'; simpl; [intros Hn; by apply Hn|]. intros v. by rewrite Hp.
Qed.
Lemma classed_delete U p : classed (delete p U) = delete p (classed U).
Proof. apply map_filter_delete. Qed.
Lemma kinds_lookup U S p u s : U !! p = Some u → S !! p = Some s → kinds U S !! p = Some (kind u s).
Proof. intros Hu Hs. unfold kinds. rewrite map_lookup_zip_with, Hu, Hs. done. Qed.
Lemma kinds_insert U S p u s : U !! p = Some u → kinds U (<[p := s]> S) = <[p := kind u s]> (kinds U S).
Proof. intros Hu. unfold kinds. rewrite <- (insert_id U p u) at 1 by done. symmetry. apply map_insert_zip_with. Qed.
Lemma kinds_delete U S p : kinds (delete p U) (delete p S) = delete p (kinds U S).
Proof. unfold kinds. symmetry. apply map_delete_zip_with. Qed.

(** Changing the fields of a list that are not the chains, and changing places. *)
Definition same_chains cc cc' : Prop := zlen cc' = zlen cc ∧ ∀ i : nat,
  match cc !! i, cc' !! i with
  | Some f, Some f' => size_class_ f' = size_class_ f ∧ tc_slots_ f' = tc_slots_ f ∧
      used_slots_ f' = used_slots_ f ∧ cache_size_ f' = cache_size_ f ∧ max_cache_size_ f' = max_cache_size_ f
  | None, None => True
  | _, _ => False
  end.
Lemma same_chains_refl cc : same_chains cc cc.
Proof. split; [done|]. intros i. by destruct (cc !! i). Qed.
Lemma same_chains_trans cc1 cc2 cc3 : same_chains cc1 cc2 → same_chains cc2 cc3 → same_chains cc1 cc3.
Proof.
  intros [L1 H1] [L2 H2]. split; [lia|]. intros i. specialize (H1 i). specialize (H2 i).
  destruct (cc1 !! i), (cc2 !! i), (cc3 !! i); try done. intuition congruence.
Qed.
Lemma same_chains_insert cc i f f' : cc !! i = Some f → size_class_ f' = size_class_ f →
  tc_slots_ f' = tc_slots_ f → used_slots_ f' = used_slots_ f → cache_size_ f' = cache_size_ f →
  max_cache_size_ f' = max_cache_size_ f → same_chains cc (<[i := f']> cc).
Proof.
  intros Hi E1 E2 E3 E4 E5. split; [apply zlen_insert|]. intros j. destruct (decide (i = j)) as [->|Hne].
  - rewrite Hi, list_lookup_insert_eq; [done|]. by apply lookup_lt_Some in Hi.
  - rewrite list_lookup_insert_ne by done. by destruct (cc !! j).
Qed.

(** ** Single steps *)
Section steps.
Variable ab : Prop.
Lemma wp_get_list cl f (Q : CentralFreeList → Central H → Prop) c : 0 ≤ cl →
  central_cache c !! Z.to_nat cl = Some f → Q f c → wp ab (get_list cl) Q c.
Proof. intros Hcl Hf HQ. unfold wp, get_list, lift. by rewrite (arr_get_ok _ _ f). Qed.
Lemma wp_put_list cl f (Q : () → Central H → Prop) c : 0 ≤ cl < zlen (central_cache c) →
  Q tt (with_cache c (<[Z.to_nat cl := f]> (central_cache c))) → wp ab (put_list cl f) Q c.
Proof. intros Hcl HQ. unfold wp, put_list. by rewrite arr_set_ok. Qed.
Lemma wp_on_list cl f g (Q : () → Central H → Prop) c : 0 ≤ cl < zlen (central_cache c) →
  central_cache c !! Z.to_nat cl = Some f →
  Q tt (with_cache c (<[Z.to_nat cl := g f]> (central_cache c))) → wp ab (on_list cl g) Q c.
Proof.
  intros Hcl Hf HQ. unfold on_list. apply wp_bind, (wp_get_list cl f); [lia|done|]. by apply wp_put_list.
Qed.
Lemma wp_on_lists g st (Q : () → Central H → Prop) c : g (span_lists c) = Ok st →
  Q tt (with_lists c st) → wp ab (on_links g) Q c.
Proof. unfold wp, on_links. by intros ->. Qed.
Lemma wp_ask_lists {A} (g : links → outcome A) a (Q : A → Central H → Prop) c : g (span_lists c) = Ok a →
  Q a c → wp ab (ask_links g) Q c.
Proof. unfold wp, ask_links, lift. by intros ->. Qed.
Lemma wp_load_small p s (Q : SmallSpan → Central H → Prop) c : small_spans c !! p = Some s → Q s c →
  wp ab (load_small p) Q c.
Proof. unfold wp, load_small. by intros ->. Qed.
Lemma wp_store_small p s s' (Q : () → Central H → Prop) c : small_spans c !! p = Some s →
  Q tt (with_small c (<[p := s']> (small_spans c))) → wp ab (store_small p s') Q c.
Proof. unfold wp, store_small. by intros ->. Qed.
Lemma wp_load_span p u (Q : use → Central H → Prop) c : sh_good (pageheap c) →
  sh_used (pageheap c) !! p = Some u → Q u c → wp ab (load_span p) Q c.
Proof. intros Hg Hp HQ. unfold wp, load_span, lift. by rewrite (sh_load_spec _ _ _ Hg Hp). Qed.
Lemma wp_on_heap {A} (n : M H A) (Q : A → Central H → Prop) c :
  wp ab n (λ a h, Q a (with_heap c h)) (pageheap c) → wp ab (on_heap n) Q c.
Proof. unfold wp, on_heap. destruct (n (pageheap c)) as [[a h]| |[]|]; done. Qed.
Lemma wp_read_word a v (Q : Z → Central H → Prop) c : memory c !! a = Some v → Q v c →
  wp ab (read_word a) Q c.
Proof. unfold wp, read_word, SLL_Next, lift. by intros ->. Qed.
Lemma wp_write_word a v (Q : () → Central H → Prop) c : is_Some (memory c !! a) →
  Q tt (with_memory c (<[a := v]> (memory c))) → wp ab (write_word a v) Q c.
Proof. intros [w Hw]. unfold wp, write_word, SLL_SetNext. by rewrite Hw. Qed.
Lemma wp_assert (b : bool) (Q : () → Central H → Prop) c : b = true → Q tt c → wp ab (ASSERT b) Q c.
Proof. by intros ->. Qed.
End steps.
End invariant.

(** ** Objects go back to their spans *)
Section release.
Context {H : Type} `{SpanHeap H} `{!SpanHeapLaws H}.
Variable sm : SizeMap.
Hypothesis Hsm : sizes_ok sm.
Implicit Types (c : Central H) (U : gmap Z use) (S : gmap Z SmallSpan) (W : places) (m : words)
  (cc : list CentralFreeList) (f : CentralFreeList).

(** The objects [l] are where they were no more, and the other ones that are not free in
    their spans are. *)
Record gave c W (l : list Z) c' W' : Prop := {
  gv_out x q pl : pl ≠ InSpan → W' !! x = Some (q, pl) ↔ W !! x = Some (q, pl) ∧ x ∉ l;
  gv_mem x q pl : pl ≠ InSpan → W' !! x = Some (q, pl) → memory c' !! x = memory c !! x;
  gv_use x q pl : pl ≠ InSpan → W' !! x = Some (q, pl) →
    sh_used (pageheap c') !! q = sh_used (pageheap c) !! q;
  gv_large p u : u_class u = 0 → sh_used (pageheap c') !! p = Some u ↔ sh_used (pageheap c) !! p = Some u;
  gv_chains : same_chains (central_cache c) (central_cache c');
  gv_race : race_counter c' = race_counter c;
}.
Lemma gave_nil c W : gave c W [] c W.
Proof.
  split; try done; [|apply same_chains_refl]. intros x q pl _. split; [|by intros [? _]].
  intros Hx. split; [done|]. apply not_elem_of_nil.
Qed.
Lemma gave_trans c1 W1 l1 c2 W2 l2 c3 W3 :
  gave c1 W1 l1 c2 W2 → gave c2 W2 l2 c3 W3 → gave c1 W1 (l1 ++ l2) c3 W3.
Proof.
  intros [A1 A2 A3 A4 A5 A6] [B1 B2 B3 B4 B5 B6]. split.
  - intros x q pl Hpl. rewrite B1, A1, elem_of_app by done. tauto.
  - intros x q pl Hpl Hx. rewrite (B2 x q pl) by done. apply (A2 x q pl); [done|]. by apply (B1 x q pl) in Hx as [? _].
  - intros x q pl Hpl Hx. rewrite (B3 x q pl) by done. apply (A3 x q pl); [done|]. by apply (B1 x q pl) in Hx as [? _].
  - intros p u Hu. by rewrite B4, A4.
  - by eapply same_chains_trans.
  - congruence.
Qed.

(** The chains of the caches when their objects stay. *)
Lemma slots_frame m U cc W m' U' cc' W' : slots_ok sm m U cc W → same_chains cc cc' →
  (∀ x q cl i, W' !! x = Some (q, InSlot cl i) ↔ W !! x = Some (q, InSlot cl i)) →
  (∀ x q cl i, W !! x = Some (q, InSlot cl i) → m' !! x = m !! x ∧ U' !! q = U !! q) →
  slots_ok sm m' U' cc' W'.
Proof.
  intros [S0 S1 S2 S3] [G5 G6] Hsame Hfr. split; [by rewrite G5| | |].
  - intros cl Hcl. destruct (S1 cl Hcl) as (f & Ef & ? & ? & ? & ?). specialize (G6 (Z.to_nat cl)).
    rewrite Ef in G6. destruct (cc' !! Z.to_nat cl) as [f'|]; [|done]. exists f'.
    destruct G6 as (-> & -> & -> & -> & ->). done.
  - intros cl f' i Hcl Ef' Hi. specialize (G6 (Z.to_nat cl)). rewrite Ef' in G6.
    destruct (cc !! Z.to_nat cl) as [f|] eqn:Ef; [|done]. destruct G6 as (_ & -> & E & _). rewrite E in Hi.
    destruct (S2 cl f i Hcl Ef Hi) as (e & l' & E1 & E2 & E3 & E4 & E5). exists e, l'.
    split; [done|]. split; [|split_and!; [done..|]; intros x; rewrite E5; by setoid_rewrite Hsame].
    eapply sll_frame; [|exact E2]. intros x Hx. apply E5 in Hx as (q & Hq). by apply (Hfr x q cl i).
  - intros x q cl i Hx%Hsame. destruct (S3 _ _ _ _ Hx) as (Hcl & (f & Ef & Hi) & u & Hu & Eu). split; [done|].
    split.
    + specialize (G6 (Z.to_nat cl)). rewrite Ef in G6. destruct (cc' !! Z.to_nat cl) as [f'|]; [|done]. exists f'.
      destruct G6 as (_ & _ & -> & _). done.
    + exists u. split; [|done]. destruct (Hfr _ _ _ _ Hx) as [_ HU]. congruence.
Qed.
Lemma slots_give c W l c' W' U U' : slots_ok sm (memory c) U (central_cache c) W →
  gave c W l c' W' → (∀ x q pl, x ∈ l → W !! x = Some (q, pl) → pl = Held) →
  (∀ q u, U !! q = Some u → U' !! q = Some u ∨ ∀ x pl, pl ≠ InSpan → W' !! x ≠ Some (q, pl)) →
  slots_ok sm (memory c') U' (central_cache c') W'.
Proof.
  intros Hs [G1 G2 _ _ G5 _] Hl HU.
  assert (∀ x q cl i, W' !! x = Some (q, InSlot cl i) ↔ W !! x = Some (q, InSlot cl i)) as Hsame.
  { intros x q cl i. rewrite G1 by done. split; [by intros [? _]|]. intros Hx. split; [done|].
    intros Hin. by specialize (Hl _ _ _ Hin Hx). }
  apply (slots_frame _ _ _ _ _ _ _ _ Hs G5 Hsame). intros x q cl i Hx. pose proof (proj2 (Hsame x q cl i) Hx) as Hx'.
  split; [by apply (G2 x q (InSlot cl i))|].
  destruct (sl_place _ _ _ _ _ Hs _ _ _ _ Hx) as (_ & _ & u & Hu & _). rewrite Hu.
  destruct (HU q u Hu) as [?|Hno]; [done|]. by destruct (Hno x (InSlot cl i)).
Qed.

(** A span goes on the list [hd] of its class when [b] says so, else it stays. *)
Lemma relist ab G p cl b0 b1 (b : bool) hd (Q : () → Central H → Prop) c :
  spans_listed (num_size_classes sm) (span_lists c) G ∅ → G !! p = Some (cl, b0) →
  (if b then hd = list_of cl b1 else b0 = b1) →
  (∀ st', spans_listed (num_size_classes sm) st' (<[p := (cl, b1)]> G) ∅ → Q tt (with_lists c st')) →
  wp ab (if b then
           _ ← on_links (λ st, DLL_Remove st p);
           on_links (λ st, DLL_Prepend st hd p)
         else mret tt) Q c.
Proof.
  intros Hst Hk Hb HQ. apply wp_if; intros ->.
  - destruct (listed_remove _ _ _ _ (num_classes_nonneg sm Hsm) Hst _ _ _ Hk) as (st1 & E1 & Hst1).
    destruct Hst as (lists & Hla). pose proof (la_class _ _ _ _ _ Hla _ _ _ Hk) as [Hcl Hp].
    destruct (listed_prepend _ _ _ _ (num_classes_nonneg sm Hsm) Hst1 p cl b1) as (st2 & E2 & Hst2);
      [by apply elem_of_union_l, elem_of_singleton|done|done|apply lookup_delete_eq|].
    apply wp_bind, (wp_on_lists _ _ st1); [done|].
    apply (wp_on_lists _ _ st2); [by rewrite Hb|]. apply HQ. rewrite insert_delete_eq in Hst2.
    by replace (({[p]} ∪ ∅) ∖ {[p]} : gset Z) with (∅ : gset Z) in Hst2 by set_solver.
  - apply wp_ret. replace c with (with_lists c (span_lists c)) by (by destruct c). apply HQ.
    by rewrite insert_id by congruence.
Qed.

(** The counters. *)
Lemma size_t_plus a k : size_t (size_t a + k) = size_t (a + k).
Proof. unfold size_t. apply Z.add_mod_idemp_l. lia. Qed.
Lemma size_t_minus a k : size_t (size_t a - k) = size_t (a - k).
Proof. apply size_t_plus. Qed.
Lemma counts_change U S cc U' S' cl f f' : counts_ok sm U S cc → 0 ≤ cl → cc !! Z.to_nat cl = Some f →
  (∀ cl', 0 ≤ cl' → cl' ≠ cl → wsum (free_of sm U' cl') S' = wsum (free_of sm U cl') S ∧
     wsum (one_of U' cl') S' = wsum (one_of U cl') S) →
  counter_ f' = size_t (wsum (free_of sm U' cl) S') → num_spans_ f' = size_t (wsum (one_of U' cl) S') →
  counts_ok sm U' S' (<[Z.to_nat cl := f']> cc).
Proof.
  intros Hc Hcl Hf Hother E1 E2 cl' g Hcl' Hg. destruct (decide (cl' = cl)) as [->|Hne].
  - rewrite list_lookup_insert_eq in Hg by (by apply lookup_lt_Some in Hf). by injection Hg as <-.
  - rewrite list_lookup_insert_ne in Hg by lia. destruct (Hother cl') as [-> ->]; [lia|done|]. by apply Hc.
Qed.
(** [k] more objects of a span are free. *)
Lemma counts_give U S cc p u s s' f k : counts_ok sm U S cc → U !! p = Some u → S !! p = Some s →
  0 ≤ u_class u < num_size_classes sm → cc !! Z.to_nat (u_class u) = Some f → refcount s' = refcount s - k →
  counts_ok sm U (<[p := s']> S) (<[Z.to_nat (u_class u) := set_counter f (size_t (counter_ f + k))]> cc).
Proof.
  intros Hc Hu Hs Hcl Hf Hr. destruct (Hc _ f Hcl Hf) as [E1 E2].
  assert (∀ cl, wsum (free_of sm U cl) (<[p := s']> S) =
    wsum (free_of sm U cl) S - free_of sm U cl p s + free_of sm U cl p s') as Ef.
  { intros cl. by apply wsum_change. }
  assert (∀ cl, wsum (one_of U cl) (<[p := s']> S) = wsum (one_of U cl) S) as Eo.
  { intros cl. rewrite (wsum_change _ (one_of U cl) S p s s') by done. unfold one_of. lia. }
  apply (counts_change U S cc _ _ _ f); [done|lia|done|..]; cbn [set_counter counter_ num_spans_].
  - intros cl' _ Hne. rewrite Ef, Eo. unfold free_of. rewrite Hu, (proj2 (Z.eqb_neq _ _)) by done. lia.
  - rewrite Ef, E1, size_t_plus. unfold free_of. rewrite Hu, Z.eqb_refl. f_equal. lia.
  - by rewrite Eo.
Qed.
(** A span all of whose objects are free but one goes. *)
Lemma counts_drop U S cc p u s f f' : counts_ok sm U S cc → U !! p = Some u → S !! p = Some s →
  0 ≤ u_class u < num_size_classes sm → cc !! Z.to_nat (u_class u) = Some f → refcount s = 1 →
  counter_ f' = size_t (counter_ f + 1 - nobj sm u) → num_spans_ f' = size_t (num_spans_ f - 1) →
  counts_ok sm (delete p U) (delete p S) (<[Z.to_nat (u_class u) := f']> cc).
Proof.
  intros Hc Hu Hs Hcl Hf Hr F1 F2. destruct (Hc _ f Hcl Hf) as [E1 E2].
  assert (∀ cl, wsum (free_of sm (delete p U) cl) (delete p S) = wsum (free_of sm U cl) S - free_of sm U cl p s) as Ef.
  { intros cl. rewrite (wsum_delete (free_of sm U cl) S p s Hs).
    rewrite (wsum_ext (free_of sm (delete p U) cl) (free_of sm U cl)); [lia|].
    intros q t [Hne _]%lookup_delete_Some. unfold free_of. by rewrite lookup_delete_ne. }
  assert (∀ cl, wsum (one_of (delete p U) cl) (delete p S) = wsum (one_of U cl) S - one_of U cl p s) as Eo.
  { intros cl. rewrite (wsum_delete (one_of U cl) S p s Hs).
    rewrite (wsum_ext (one_of (delete p U) cl) (one_of U cl)); [lia|].
    intros q t [Hne _]%lookup_delete_Some. unfold one_of. by rewrite lookup_delete_ne. }
  apply (counts_change U S cc _ _ _ f); [done|lia|done|..].
  - intros cl' _ Hne. rewrite Ef, Eo. unfold free_of, one_of. rewrite Hu, (proj2 (Z.eqb_neq _ _)) by done. lia.
  - rewrite Ef, F1, E1. generalize (wsum (free_of sm U (u_class u)) S). intros n.
    replace (size_t n + 1 - nobj sm u) with (size_t n + (1 - nobj sm u)) by lia. rewrite size_t_plus.
    unfold free_of. rewrite Hu, Z.eqb_refl, Hr. f_equal. lia.
  - rewrite Eo, F2, E2, size_t_minus. unfold one_of. by rewrite Hu, Z.eqb_refl.
Qed.

(** An object that is not free in its span. *)
Record outside c W x p pl u s f : Prop := {
  os_place : W !! x = Some (p, pl);
  os_pl : pl ≠ InSpan;
  os_used : sh_used (pageheap c) !! p = Some u;
  os_classed : classed (sh_used (pageheap c)) !! p = Some u;
  os_small : small_spans c !! p = Some s;
  os_list : central_cache c !! Z.to_nat (u_class u) = Some f;
  os_class : class_ok sm (u_class u);
  os_use : small_use sm u;
  os_objs : x ∈ objs sm u;
  os_pos : 0 < p ∧ 0 < x;
  os_page : sh_descriptor (Z.shiftr x kPageShift) (pageheap c) = Ok p;
}.
Lemma outside_intro c W L x p pl : cinv sm c W L → W !! x = Some (p, pl) → pl ≠ InSpan →
  ∃ u s f, outside c W x p pl u s f.
Proof.
  intros Hc Hx Hpl. destruct (oo_span _ _ _ _ _ (ci_objs _ _ _ _ Hc) _ _ _ Hx) as (u & Hu & Hxu).
  pose proof (proj1 (classed_lookup _ _ _) Hu) as [Hu' Hcl].
  destruct (oo_use _ _ _ _ _ (ci_objs _ _ _ _ Hc) _ _ Hu) as [Hp Hsu].
  destruct (proj2 (oo_dom _ _ _ _ _ (ci_objs _ _ _ _ Hc) p)) as [s Hs]; [by eexists|].
  destruct (sl_list _ _ _ _ _ (ci_slots _ _ _ _ Hc) (u_class u)) as (f & Hf & _).
  { destruct Hsu as [? _]. unfold class_ok in *. lia. }
  destruct (object_page sm Hsm u x Hsu Hxu) as [Hpg Hx0].
  exists u, s, f. split; try done; [apply Hsu|].
  apply (sh_descriptor_spec _ p u); [apply (ci_heap _ _ _ _ Hc)|done|done|by left].
Qed.

(** The object goes on the list of its span. *)
Lemma give_some c W L c' x p u s f st : cinv sm c W L → outside c W x p Held u s f → refcount s ≠ 1 →
  spans_listed (num_size_classes sm) st
    (<[p := (u_class u, false)]> (kinds (classed (sh_used (pageheap c))) (small_spans c))) ∅ →
  c' = mkCentral (<[Z.to_nat (u_class u) := set_counter f (size_t (counter_ f + 1))]> (central_cache c))
    (race_counter c) st (<[p := mkSmall x (refcount s - 1)]> (small_spans c))
    (<[x := objects s]> (memory c)) (pagemap_cache_ c) (pageheap c) →
  cinv sm c' (<[x := (p, InSpan)]> W) L ∧ gave c W [x] c' (<[x := (p, InSpan)]> W).
Proof.
  intros [I1 I2 I3 I4 I5 I6 I7] [O1 O2 O3 O4 O5 O6 O7 O8 O9 [Hp Hx0] O10] Hr Hst ->.
  destruct (give_object sm Hsm _ _ _ _ I2 x p Held s u O1 O2 O4 O5) as (Hrc & Hok & _).
  assert (gave c W [x] (mkCentral (<[Z.to_nat (u_class u) := set_counter f (size_t (counter_ f + 1))]> (central_cache c))
    (race_counter c) st (<[p := mkSmall x (refcount s - 1)]> (small_spans c))
    (<[x := objects s]> (memory c)) (pagemap_cache_ c) (pageheap c)) (<[x := (p, InSpan)]> W)) as Hgave.
  { split; simpl; try done; [| |by eapply same_chains_insert].
    - intros y q pl Hpl. rewrite list_elem_of_singleton, lookup_insert_Some. naive_solver.
    - intros y q pl Hpl. rewrite lookup_insert_Some. intros [[<- [= <- <-]]|[Hne _]]; [done|].
      by apply lookup_insert_ne. }
  split; [|done]. split; simpl; try done.
  - rewrite (kinds_insert _ _ p u) by done. unfold kind. simpl. by rewrite (proj2 (Z.eqb_neq x 0)) by lia.
  - eapply (slots_give c W [x] _ _ _ _ I4 Hgave); [|by left].
    intros y q pl ->%list_elem_of_singleton. rewrite O1. by intros [= <- <-].
  - apply (counts_give _ _ _ p u s); try done. destruct O7. lia.
Qed.

(** The span goes: [x] was its only object that was not free. *)
Lemma give_last c W L c' x p u s f f' st h : cinv sm c W L → outside c W x p Held u s f → refcount s = 1 →
  spans_listed (num_size_classes sm) st
    (delete p (kinds (classed (sh_used (pageheap c))) (small_spans c))) ∅ →
  sh_good h → sh_used h = delete p (sh_used (pageheap c)) →
  f' = set_num_spans (set_counter f (counter_ f')) (num_spans_ f') →
  counter_ f' = size_t (counter_ f + 1 - nobj sm u) → num_spans_ f' = size_t (num_spans_ f - 1) →
  c' = mkCentral (<[Z.to_nat (u_class u) := f']> (central_cache c))
    (race_counter c) st (delete p (small_spans c))
    (filter (λ kv, ¬ in_pages u kv.1) (memory c)) (pagemap_cache_ c) h →
  ∃ W', cinv sm c' W' L ∧ gave c W [x] c' W'.
Proof.
  intros [I1 I2 I3 I4 I5 I6 I7] [O1 O2 O3 O4 O5 O6 O7 O8 O9 [Hp Hx0] O10] Hr Hst Hg Hused Ef Ec En ->.
  assert (size_class_ f' = size_class_ f ∧ tc_slots_ f' = tc_slots_ f ∧ used_slots_ f' = used_slots_ f ∧
    cache_size_ f' = cache_size_ f ∧ max_cache_size_ f' = max_cache_size_ f) as (F1 & F2 & F3 & F4 & F5)
    by (rewrite Ef; done).
  destruct (give_object sm Hsm _ _ _ _ I2 x p Held s u O1 O2 O4 O5) as (_ & _ & Hall).
  set (W' := filter (λ kv, kv.2.1 ≠ p) W). exists W'.
  assert (∀ y q pl, W' !! y = Some (q, pl) ↔ W !! y = Some (q, pl) ∧ q ≠ p) as HW'.
  { intros y q pl. unfold W'. by rewrite map_lookup_filter_Some. }
  pose proof (drop_span sm Hsm _ _ _ _ I2 p u O4) as Hok. fold W' in Hok.
  assert (gave c W [x] (mkCentral (<[Z.to_nat (u_class u) := f']> (central_cache c))
    (race_counter c) st (delete p (small_spans c))
    (filter (λ kv, ¬ in_pages u kv.1) (memory c)) (pagemap_cache_ c) h) W') as Hgave.
  { split; simpl; [..|by eapply same_chains_insert|done].
    - intros y q pl Hpl. rewrite HW', list_elem_of_singleton. split; intros [Hy Hn]; (split; [done|]).
      + intros ->. congruence.
      + intros ->. apply Hpl. pose proof (place_of sm _ _ _ _ I2 y p u pl Hy O4) as Hyu.
        specialize (Hall Hr y Hyu Hn). congruence.
    - intros y q pl _ Hy. destruct (proj2 (oo_mem _ _ _ _ _ Hok y)) as [w Hw]; [by eexists|].
      rewrite Hw. apply map_lookup_filter_Some in Hw as [Hw _]. done.
    - intros y q pl _ [_ Hn]%HW'. rewrite Hused. by apply lookup_delete_ne.
    - intros q v Hv. rewrite Hused, lookup_delete_Some. split; [by intros [_ ?]|]. intros Hq. split; [|done].
      intros <-. destruct O7. rewrite O3 in Hq. injection Hq as <-. lia. }
  split; [|exact Hgave]. split; simpl; try done.
  - by rewrite Hused, classed_delete.
  - by rewrite Hused, classed_delete, kinds_delete.
  - rewrite Hused, classed_delete. eapply (slots_give c W [x] _ _ _ _ I4 Hgave).
    + intros y q pl ->%list_elem_of_singleton. rewrite O1. by intros [= <- <-].
    + intros q v Hq. destruct (decide (q = p)) as [->|Hne]; [|left; by rewrite lookup_delete_ne].
      right. intros y pl _ [_ Hn]%HW'. done.
  - rewrite Hused, classed_delete. apply (counts_drop _ _ _ p u s f); try done; destruct O7. lia.
  - destruct I7 as (t & Ht & [Hcl HL Hn]). exists t. split; [done|]. rewrite Hused. split; [| |done].
    + intros q v y w [_ Hq]%lookup_delete_Some. by eapply Hcl.
    + intros q v Hq. destruct (HL q v Hq) as (Hv & Hv0 & Htv). split; [|done].
      rewrite lookup_delete_ne; [done|]. intros <-. destruct O7. assert (v = u) as -> by congruence. lia.
Qed.

Lemma wp_hand_back ab c p u (Q : () → Central H → Prop) : sh_good (pageheap c) →
  sh_used (pageheap c) !! p = Some u → span_lists c !! p = Some (0, 0) →
  Q tt (with_memory (with_small (with_lists c (delete p (span_lists c)))
        (delete p (small_spans c))) (filter (λ kv, ¬ in_pages u kv.1) (memory c))) →
  wp ab (hand_back p) Q c.
Proof.
  intros Hg Hu Hp HQ. unfold hand_back. apply wp_bind, (wp_load_span _ _ u); [done|done|].
  apply wp_bind, (wp_ask_lists _ _ 0); [unfold get_next; by rewrite Hp|].
  apply wp_bind, (wp_ask_lists _ _ 0); [unfold get_prev; by rewrite Hp|].
  apply wp_bind, wp_assert; [done|]. by apply wp_act.
Qed.
Lemma nobj_div u : small_use sm u →
  c_div (Z.shiftl (u_pages u) kPageShift) (csize sm (u_class u)) = Ok (nobj sm u).
Proof.
  intros (Hcl & Ep & _). destruct (class_sizes_of sm Hsm _ Hcl). unfold c_div.
  rewrite (proj2 (Z.eqb_neq _ _)) by lia. rewrite Z.shiftl_mul_pow2 by done. change (2 ^ kPageShift) with 8192.
  rewrite Z.quot_div_nonneg by lia. unfold nobj. do 2 f_equal. lia.
Qed.

Lemma wp_ReleaseToSpans c W L x p u (Q : () → Central H → Prop) : cinv sm c W L → W !! x = Some (p, Held) →
  sh_used (pageheap c) !! p = Some u →
  (∀ c' W', cinv sm c' W' L → gave c W [x] c' W' → Q tt c') →
  wp (sh_ab (H := H)) (ReleaseToSpans sm (u_class u) x) Q c.
Proof.
  intros Hc Hx Hu HQ. destruct (outside_intro c W L x p Held Hc Hx) as (u' & s & f & Ho); [done|].
  assert (u' = u) as -> by (destruct Ho; congruence).
  pose proof Hc as [I1 I2 I3 I4 I5 I6 I7]. pose proof Ho as [O1 O2 O3 O4 O5 O6 O7 O8 O9 [Hp Hx0] O10].
  destruct (give_object sm Hsm _ _ _ _ I2 x p Held s u O1 O2 O4 O5) as (Hrc & _ & _).
  pose proof (sl_length _ _ _ _ _ I4) as Hlen. pose proof (so_classes _ Hsm).
  assert (0 ≤ u_class u < zlen (central_cache c)) as Hclr by (unfold class_ok in *; lia).
  unfold ReleaseToSpans. apply wp_bind. unfold wp at 1, MapObjectToSpan, lift. rewrite O10.
  apply wp_bind, wp_assert; [by apply negb_true_iff, Z.eqb_neq; lia|].
  apply wp_bind, (wp_load_small _ _ s); [done|]. apply wp_bind, wp_assert; [apply Z.ltb_lt; lia|].
  pose proof (kinds_lookup _ _ p u s O4 O5) as Hk.
  eapply wp_bind, (relist _ _ p (u_class u) (objects s =? 0) false); [exact I3|exact Hk| |].
  { by destruct (objects s =? 0). }
  intros st Hst. apply wp_bind, (wp_on_list _ _ f); [done|done|].
  apply wp_bind, (wp_store_small _ _ s); [done|]. cbn [refcount].
  assert (u16 (refcount s - 1) = refcount s - 1) as -> by (unfold u16; apply Z.mod_small; lia).
  apply wp_if; intros Hz; [apply Z.eqb_eq in Hz|apply Z.eqb_neq in Hz].
  - apply wp_bind, (wp_load_span _ _ u); [done|done|].
    apply wp_bind, (wp_lift _ _ (csize sm (u_class u))); [by apply ByteSizeForClass_ok|].
    apply wp_bind, (wp_lift _ _ (nobj sm u)); [by apply nobj_div|].
    apply wp_bind. eapply wp_on_list; [simpl; by rewrite zlen_insert| |].
    { simpl. apply list_lookup_insert_eq. unfold zlen in Hclr. lia. }
    simpl. rewrite list_insert_insert_eq.
    destruct (listed_remove _ _ _ _ (num_classes_nonneg sm Hsm) Hst p (u_class u) false (lookup_insert_eq _ _ _)) as (st2 & E2 & Hst2).
    apply wp_bind, (wp_on_lists _ _ st2); [done|].
    apply wp_bind. eapply wp_on_list; [simpl; by rewrite zlen_insert| |].
    { simpl. apply list_lookup_insert_eq. unfold zlen in Hclr. lia. }
    simpl. rewrite list_insert_insert_eq. rewrite delete_insert_eq in Hst2.
    destruct (listed_delete _ _ _ _ (num_classes_nonneg sm Hsm) Hst2 p) as [Hp0 Hst3];
      [by apply elem_of_union_l, elem_of_singleton|done|].
    apply wp_bind, (wp_hand_back _ _ p u); [done|done|done|]. apply wp_on_heap. simpl.
    eapply wp_mono; [by apply (sh_delete_spec _ p u)|]. intros [] h [Hgh Huh]. simpl.
    replace (({[p]} ∪ ∅) ∖ {[p]} : gset Z) with (∅ : gset Z) in Hst3 by set_solver.
    rewrite delete_insert_eq.
    edestruct (give_last c W L) as (W' & Hc' & Hg'); [exact Hc|exact Ho|lia|exact Hst3|exact Hgh|exact Huh|..];
      [| | |reflexivity|eapply HQ; [exact Hc'|exact Hg']].
    + reflexivity.
    + exact (size_t_minus _ _).
    + done.
  - apply wp_bind, wp_write_word; [simpl; apply (oo_mem _ _ _ _ _ I2); by eexists|].
    eapply wp_store_small; [simpl; apply lookup_insert_eq|]. simpl. unfold with_small. simpl. rewrite insert_insert_eq.
    edestruct (give_some c W L) as (Hc' & Hg'); [exact Hc|exact Ho|lia|exact Hst|reflexivity|].
    eapply HQ; [exact Hc'|exact Hg'].
Qed.

(** Objects a client has, all of one class. *)
Definition held_class c W cl x : Prop := ∃ p u, W !! x = Some (p, Held) ∧
  sh_used (pageheap c) !! p = Some u ∧ u_class u = cl.
Lemma wp_ReleaseListToSpans L cl fuel l (Q : () → Central H → Prop) : ∀ c W start,
  cinv sm c W L → sll (memory c) start l → (∀ x, x ∈ l → held_class c W cl x) → (length l < fuel)%nat →
  (∀ c' W', cinv sm c' W' L → gave c W l c' W' → Q tt c') →
  wp (sh_ab (H := H)) (ReleaseListToSpans sm fuel cl start) Q c.
Proof.
  revert fuel Q. induction l as [|x l IH]; intros [|fuel] Q c W start Hc Hs Hl Hf HQ; simpl in Hf; try lia.
  - apply sll_nil in Hs as ->. apply wp_ret. exact (HQ c W Hc (gave_nil c W)).
  - cbn [ReleaseListToSpans]. destruct Hs as [(-> & Hx0 & n & Hn & Hs) [Hxl Hnd]%NoDup_cons].
    apply wp_if; intros Hz; [by apply Z.eqb_eq in Hz|]. destruct (Hl x ltac:(left)) as (p & u & Hx & Hu & <-).
    apply wp_bind, (wp_read_word _ _ n); [done|]. apply wp_bind, (wp_ReleaseToSpans c W L x p u); [done..|].
    intros c1 W1 Hc1 Hg1.
    assert (∀ y, y ∈ l → ∃ q v, W !! y = Some (q, Held) ∧ W1 !! y = Some (q, Held) ∧
      sh_used (pageheap c) !! q = Some v ∧ u_class v = u_class u) as Hl1.
    { intros y Hy. destruct (Hl y ltac:(by right)) as (q & v & Hq & Hv & Hcl). exists q, v.
      split_and!; try done. apply (gv_out _ _ _ _ _ Hg1); [done|]. split; [done|].
      rewrite list_elem_of_singleton. by intros ->. }
    apply (IH fuel Q c1 W1); [done| | |lia|].
    + split; [|done]. eapply sll_seg_frame; [|exact Hs]. intros y Hy.
      destruct (Hl1 y Hy) as (q & v & _ & Hq & _). apply (gv_mem c W [x] c1 W1 Hg1 y q Held); done.
    + intros y Hy. destruct (Hl1 y Hy) as (q & v & _ & Hq & Hv & Hcl). exists q, v. split; [done|].
      split; [|done]. rewrite <- Hv. apply (gv_use c W [x] c1 W1 Hg1 y q Held); done.
    + intros c2 W2 Hc2 Hg2. exact (HQ c2 W2 Hc2 (gave_trans c W [x] c1 W1 l c2 W2 Hg1 Hg2)).
Qed.
End release.
