(* ===== verification/CentralCaches.v ===== *)
(** * Central free lists: the caches of chains

    What the cache of each class holds, and the operations that make room in it,
    put a chain into it and take one out. *)
From stdpp Require Import base numbers list option gmap sets fin_maps fin_map_dom.
From Stdlib Require Import ZArith Lia.
From S2P Require Import Prelude SizeMap PackedCache SpanList SpanHeap CentralFreeList CentralLists CentralSpec.
Open Scope Z_scope.

(** ** What clients see *)
Section views.
Context {H : Type} `{SpanHeap H} `{!SpanHeapLaws H}.
Implicit Types (c : Central H) (W : places).

(** What a client sees of an operation: the objects [out] are its own no more, the
    objects [into] of the class [cl] are, and nobody's before; its other objects
    hold what they held, and its large spans are the same. *)
Record moved c W (out : list Z) cl (into : list Z) c' W' : Prop := {
  mv_held x cl' : held_class c' W' cl' x ↔ (held_class c W cl' x ∧ x ∉ out) ∨ (cl' = cl ∧ x ∈ into);
  mv_fresh x cl' : x ∈ into → ¬ held_class c W cl' x;
  mv_mem x cl' : held_class c W cl' x → x ∉ out → memory c' !! x = memory c !! x;
  mv_large p u : u_class u = 0 → sh_used (pageheap c') !! p = Some u ↔ sh_used (pageheap c) !! p = Some u;
}.
Definition kept c W c' W' : Prop := ∀ cl, moved c W [] cl [] c' W'.
Lemma kept_intro c W c' W' :
  (∀ x cl, held_class c' W' cl x ↔ held_class c W cl x) →
  (∀ x cl, held_class c W cl x → memory c' !! x = memory c !! x) →
  (∀ p u, u_class u = 0 → sh_used (pageheap c') !! p = Some u ↔ sh_used (pageheap c) !! p = Some u) →
  kept c W c' W'.
Proof.
  intros H1 H2 H3 cl. split; [|by intros x cl' ?%not_elem_of_nil|by intros x cl' ? _; apply (H2 x cl')|done].
  intros x cl'. rewrite H1. set_solver.
Qed.
Lemma kept_same c W : kept c W c W.
Proof. by apply kept_intro. Qed.
(** Taking and taking more, or changing nothing before or after. *)
Lemma moved_trans c W into1 out2 into2 cl c1 W1 c2 W2 : into1 = [] ∨ out2 = [] →
  moved c W [] cl into1 c1 W1 → moved c1 W1 out2 cl into2 c2 W2 → moved c W out2 cl (into2 ++ into1) c2 W2.
Proof.
  intros Hd [A1 A2 A3 A4] [B1 B2 B3 B4].
  assert (∀ x cl', held_class c W cl' x → held_class c1 W1 cl' x) as Hkeep.
  { intros x cl' Hx. apply A1. left. split; [done|apply not_elem_of_nil]. }
  split.
  - intros x cl'. rewrite B1, A1, elem_of_app.
    assert (x ∉ []) by apply not_elem_of_nil. destruct Hd as [-> | ->]; tauto.
  - intros x cl' [Hx|Hx]%elem_of_app Hh; [by apply (B2 x cl' Hx), Hkeep|by apply (A2 x cl' Hx)].
  - intros x cl' Hh Hx. rewrite (B3 x cl'); [apply (A3 x cl'); [done|apply not_elem_of_nil]|by apply Hkeep|done].
  - intros p u Hu. by rewrite B4, A4.
Qed.
Lemma kept_moved c W out into cl c1 W1 c2 W2 :
  kept c W c1 W1 → moved c1 W1 out cl into c2 W2 → moved c W out cl into c2 W2.
Proof. intros Hk Hm. rewrite <- (app_nil_r into). apply (moved_trans c W [] out into cl c1 W1); [by left|done|done]. Qed.
Lemma kept_then c W c1 W1 c2 W2 : kept c W c1 W1 → kept c1 W1 c2 W2 → kept c W c2 W2.
Proof. intros H1 H2 cl. by eapply kept_moved. Qed.
Lemma gave_moved c W l cl c' W' : gave c W l c' W' → moved c W l cl [] c' W'.
Proof.
  intros [G1 G2 G3 G4 G5 G6]. split; [|by intros x cl' ?%not_elem_of_nil| |done].
  - intros x cl'. unfold held_class. split.
    + intros (p & u & Hx & Hu & E). left. rewrite (G3 x p Held) in Hu by done.
      apply G1 in Hx as [Hx Hn]; [|done]. split; [by exists p, u|done].
    + intros [[(p & u & Hx & Hu & E) Hn]|[_ ?%not_elem_of_nil]]; [|done]. exists p, u.
      assert (W' !! x = Some (p, Held)) as Hx' by by apply G1. by rewrite (G3 x p Held).
  - intros x cl' (p & u & Hx & _) Hn. apply (G2 x p Held); [done|]. by apply G1.
Qed.

(** What was taken from a cache goes back. *)
Lemma evicted c W cl l c1 W1 c2 W2 : moved c W [] cl l c1 W1 → moved c1 W1 l cl [] c2 W2 → kept c W c2 W2.
Proof.
  intros [A1 A2 A3 A4] [B1 B2 B3 B4].
  assert (∀ x cl', held_class c W cl' x ↔ held_class c1 W1 cl' x ∧ x ∉ l) as Hh.
  { intros x cl'. rewrite A1. assert (x ∉ []) by apply not_elem_of_nil. specialize (A2 x cl'). tauto. }
  apply kept_intro.
  - intros x cl'. rewrite Hh, B1. assert (x ∉ []) by apply not_elem_of_nil. tauto.
  - intros x cl' Hx. pose proof (proj1 (Hh x cl') Hx) as [Hx1 Hn]. rewrite (B3 x cl' Hx1 Hn).
    apply (A3 x cl' Hx). apply not_elem_of_nil.
  - intros p u Hu. by rewrite B4, A4.
Qed.
End views.

Section caches.
Context {H : Type} `{SpanHeap H} `{!SpanHeapLaws H}.
Variable sm : SizeMap.
Hypothesis Hsm : sizes_ok sm.
Implicit Types (c : Central H) (U : gmap Z use) (S : gmap Z SmallSpan) (W : places) (m : words)
  (cc : list CentralFreeList) (f : CentralFreeList).

(** ** The caches of chains *)
(** The objects [l] are moved. *)
Definition relocate (l : list Z) (pl : place) W : places :=
  map_imap (λ x v, Some (if decide (x ∈ l) then (v.1, pl) else v)) W.
Lemma lookup_relocate l pl W x : relocate l pl W !! x = (λ v, if decide (x ∈ l) then (v.1, pl) else v) <$> W !! x.
Proof. unfold relocate. rewrite map_lookup_imap. by destruct (W !! x). Qed.
Lemma relocate_Some l pl W x q pl' : relocate l pl W !! x = Some (q, pl') ↔
  (x ∈ l ∧ pl' = pl ∧ ∃ pl0, W !! x = Some (q, pl0)) ∨ (x ∉ l ∧ W !! x = Some (q, pl')).
Proof.
  rewrite lookup_relocate, fmap_Some. split.
  - intros ([q0 pl0] & Hx & E). case_decide; injection E as -> ->; [left|right]; naive_solver.
  - intros [(Hx & -> & pl0 & HW)|[Hx HW]]; [exists (q, pl0)|exists (q, pl')]; by case_decide.
Qed.
Lemma objs_relocate m U S W l pl : objs_ok sm m U S W → pl ≠ InSpan →
  (∀ x q, x ∈ l → W !! x ≠ Some (q, InSpan)) → objs_ok sm m U S (relocate l pl W).
Proof.
  intros [O1 O2 O3 O4 O5 O6 O7] Hpl Hl. split; try done.
  - intros x q pl'. rewrite relocate_Some. intros [(_ & _ & pl0 & Hx)|[_ Hx]]; by eapply O4.
  - intros q u x Hq Hx. destruct (O5 _ _ _ Hq Hx) as [pl' Hpl']. rewrite lookup_relocate, Hpl'. simpl.
    case_decide; by eexists.
  - intros x. by rewrite lookup_relocate, fmap_is_Some.
  - intros q u t Hq Ht. destruct (O7 _ _ _ Hq Ht) as (l' & Hl'). exists l'.
    eapply free_frame; [done| |exact Hl']. intros x. rewrite relocate_Some. split.
    + intros [(_ & <- & _)|[_ ?]]; done.
    + intros Hx. right. split; [|done]. intros Hin. by apply (Hl x q).
Qed.
(** A change of the lists of classes. *)
Lemma cinv_lists c W L cc W' : cinv sm c W L →
  objs_ok sm (memory c) (classed (sh_used (pageheap c))) (small_spans c) W' →
  slots_ok sm (memory c) (classed (sh_used (pageheap c))) cc W' →
  (∀ i f', cc !! i = Some f' → ∃ f, central_cache c !! i = Some f ∧ counter_ f' = counter_ f ∧
     num_spans_ f' = num_spans_ f) → cinv sm (with_cache c cc) W' L.
Proof.
  intros [I1 I2 I3 I4 I5 I6 I7] Ho Hs Hf. split; simpl; try done.
  intros cl f' Hcl Ef'. destruct (Hf _ _ Ef') as (f & Ef & -> & ->). by apply I5.
Qed.


(** One list changes. *)
Definition list_ok f cl : Prop := size_class_ f = cl ∧
  0 ≤ used_slots_ f ≤ cache_size_ f ∧ cache_size_ f ≤ max_cache_size_ f ≤ kMaxNumTransferEntries ∧
  zlen (tc_slots_ f) = kMaxNumTransferEntries.
Lemma slots_update m U cc W W' cl f f' : slots_ok sm m U cc W → 0 ≤ cl < num_size_classes sm →
  cc !! Z.to_nat cl = Some f → list_ok f' cl →
  (∀ x p cl' i, cl' ≠ cl → W' !! x = Some (p, InSlot cl' i) ↔ W !! x = Some (p, InSlot cl' i)) →
  (∀ i, 0 ≤ i < used_slots_ f' → ∃ e l, tc_slots_ f' !! Z.to_nat i = Some e ∧ chain_at sm m W' cl i e l) →
  (∀ x p i, W' !! x = Some (p, InSlot cl i) → 0 ≤ i < used_slots_ f' ∧ ∃ u, U !! p = Some u ∧ u_class u = cl) →
  slots_ok sm m U (<[Z.to_nat cl := f']> cc) W'.
Proof.
  intros [S0 S1 S2 S3] Hcl Ef Hf' HW Hch Hpl.
  assert (<[Z.to_nat cl := f']> cc !! Z.to_nat cl = Some f') as Eself.
  { apply list_lookup_insert_eq. by apply lookup_lt_Some in Ef. }
  assert (∀ cl', 0 ≤ cl' → cl' ≠ cl → <[Z.to_nat cl := f']> cc !! Z.to_nat cl' = cc !! Z.to_nat cl') as Eother.
  { intros cl' ? ?. apply list_lookup_insert_ne. lia. }
  split.
  - by rewrite zlen_insert.
  - intros cl' Hcl'. destruct (decide (cl' = cl)) as [->|Hne]; [exists f'; rewrite Eself; split; [done|exact Hf']|].
    rewrite Eother by (lia || done). by apply S1.
  - intros cl' g i Hcl' Eg Hi. destruct (decide (cl' = cl)) as [->|Hne].
    + rewrite Eself in Eg. injection Eg as <-. by apply Hch.
    + rewrite Eother in Eg by (lia || done). destruct (S2 cl' g i Hcl' Eg Hi) as (e & l & Ee & C1 & C2 & C3 & C4).
      exists e, l. split; [done|]. split_and!; [done..|]. intros x. rewrite C4.
      split; intros [p Hp]; exists p; by apply HW.
  - intros x p cl' i Hx. destruct (decide (cl' = cl)) as [->|Hne].
    + destruct (Hpl _ _ _ Hx) as [Hi Hu]. split; [done|]. split; [|done]. exists f'. by rewrite Eself.
    + apply HW in Hx; [|done]. destruct (S3 _ _ _ _ Hx) as (Hcl' & Hf & Hu). split; [done|].
      split; [|done]. rewrite Eother by (lia || done). done.
Qed.
(** The size of a cache changes. *)
Lemma slots_resize m U cc W cl f f' : slots_ok sm m U cc W → 0 ≤ cl < num_size_classes sm →
  cc !! Z.to_nat cl = Some f → list_ok f' cl → tc_slots_ f' = tc_slots_ f → used_slots_ f' = used_slots_ f →
  slots_ok sm m U (<[Z.to_nat cl := f']> cc) W.
Proof.
  intros Hs Hcl Ef Hf' E1 E2. apply (slots_update m U cc W W cl f f'); try done.
  - intros i Hi. rewrite E1. rewrite E2 in Hi. by apply (sl_chain _ _ _ _ _ Hs cl f i).
  - intros x p i Hx. destruct (sl_place _ _ _ _ _ Hs _ _ _ _ Hx) as (_ & (g & Eg & Hi) & Hu).
    assert (g = f) as -> by congruence. by rewrite E2.
Qed.
(** The last chain of a cache leaves it. *)
Lemma slots_pop m U cc W cl f f' : slots_ok sm m U cc W → 0 ≤ cl < num_size_classes sm →
  cc !! Z.to_nat cl = Some f → list_ok f' cl → tc_slots_ f' = tc_slots_ f →
  used_slots_ f' = used_slots_ f - 1 → ∃ e l, tc_slots_ f !! Z.to_nat (used_slots_ f - 1) = Some e ∧
    chain_at sm m W cl (used_slots_ f - 1) e l ∧ slots_ok sm m U (<[Z.to_nat cl := f']> cc) (relocate l Held W).
Proof.
  intros Hs Hcl Ef Hf' E1 E2. destruct Hf' as (F1 & F2 & F3 & F4).
  destruct (sl_chain _ _ _ _ _ Hs cl f (used_slots_ f - 1)) as (e & l & Ee & C1 & C2 & C3 & C4); [done|done|lia|].
  exists e, l. split; [done|]. split; [done|].
  assert (∀ x q cl' i, (cl' ≠ cl ∨ i ≠ used_slots_ f - 1) →
    relocate l Held W !! x = Some (q, InSlot cl' i) ↔ W !! x = Some (q, InSlot cl' i)) as HW.
  { intros x q cl' i Hne. rewrite relocate_Some. split; [by intros [(_ & ? & _)|[_ ?]]|]. intros Hx. right.
    split; [|done]. intros [p Hp]%C4. rewrite Hx in Hp. injection Hp as -> -> ->. by destruct Hne. }
  apply (slots_update m U cc W _ cl f f'); try done.
  - intros x q cl' i Hne. apply HW. by left.
  - intros i Hi. rewrite E1. destruct (sl_chain _ _ _ _ _ Hs cl f i) as (e' & l' & Ee' & D1 & D2 & D3 & D4); [done|done|lia|].
    exists e', l'. split; [done|]. split_and!; try done. intros x. rewrite D4.
    split; intros [q Hq]; exists q; apply HW; (done || (right; lia)).
  - intros x q i Hx. pose proof Hx as [(_ & ? & _)|[Hn Hx0]]%relocate_Some; [done|].
    destruct (sl_place _ _ _ _ _ Hs _ _ _ _ Hx0) as (_ & (g & Eg & Hi) & Hu).
    assert (g = f) as -> by congruence. split; [|done]. rewrite E2.
    assert (i ≠ used_slots_ f - 1); [|lia]. intros ->. apply Hn, C4. by exists q.
Qed.
(** A chain of objects of a client goes into a cache. *)
Lemma slots_push m U cc W cl f f' l e : slots_ok sm m U cc W → 0 ≤ cl < num_size_classes sm →
  cc !! Z.to_nat cl = Some f → list_ok f' cl → used_slots_ f' = used_slots_ f + 1 →
  tc_slots_ f' = <[Z.to_nat (used_slots_ f) := e]> (tc_slots_ f) → 0 ≤ used_slots_ f < zlen (tc_slots_ f) →
  sll m e.1 l → last l = Some e.2 → zlen l = cbatch sm cl →
  (∀ x, x ∈ l → ∃ p u, W !! x = Some (p, Held) ∧ U !! p = Some u ∧ u_class u = cl) →
  slots_ok sm m U (<[Z.to_nat cl := f']> cc) (relocate l (InSlot cl (used_slots_ f)) W).
Proof.
  intros Hs Hcl Ef Hf' E1 E2 Hr C1 C2 C3 Hl.
  assert (∀ x q cl' i, (cl' ≠ cl ∨ i ≠ used_slots_ f) →
    relocate l (InSlot cl (used_slots_ f)) W !! x = Some (q, InSlot cl' i) ↔ W !! x = Some (q, InSlot cl' i)) as HW.
  { intros x q cl' i Hne. rewrite relocate_Some. split.
    - intros [(_ & [= -> ->] & _)|[_ ?]]; [by destruct Hne|done].
    - intros Hx. right. split; [|done]. intros (p & u & Hp & _)%Hl. congruence. }
  apply (slots_update m U cc W _ cl f f'); try done.
  - intros x q cl' i Hne. apply HW. by left.
  - intros i Hi. rewrite E2. unfold zlen in Hr. destruct (decide (i = used_slots_ f)) as [->|Hne].
    + exists e, l. rewrite list_lookup_insert_eq by lia. split; [done|]. split_and!; try done.
      intros x. setoid_rewrite relocate_Some. split.
      * intros Hx. destruct (Hl x Hx) as (p & u & Hp & _). exists p. left. split; [done|]. split; [done|by exists Held].
      * intros (p & [(Hx & _)|[_ Hx]]); [done|]. destruct (sl_place _ _ _ _ _ Hs _ _ _ _ Hx) as (_ & (g & Eg & Hi') & _).
        assert (g = f) as -> by congruence. lia.
    + rewrite list_lookup_insert_ne by lia.
      destruct (sl_chain _ _ _ _ _ Hs cl f i) as (e' & l' & Ee' & D1 & D2 & D3 & D4); [done|done|lia|].
      exists e', l'. split; [done|]. split_and!; try done. intros x. rewrite D4.
      split; intros [q Hq]; exists q; apply HW; (done || by right).
  - intros x q i [(Hx & [= ->] & q0 & Hq)|[Hn Hx]]%relocate_Some.
    + destruct (Hl x Hx) as (p & u & Hp & Hu & E). rewrite Hp in Hq. injection Hq as -> _.
      split; [lia|by exists u].
    + destruct (sl_place _ _ _ _ _ Hs _ _ _ _ Hx) as (_ & (g & Eg & Hi) & Hu).
      assert (g = f) as -> by congruence. split; [lia|done].
Qed.


(** *** Chains and the invariant *)
Lemma cinv_class c W L x cl : cinv sm c W L → held_class c W cl x → class_ok sm cl.
Proof.
  intros Hc (p & u & Hx & Hu & <-). destruct (outside_intro sm Hsm c W L x p Held Hc Hx) as (u' & s & f & []); [done|].
  by assert (u' = u) as -> by congruence.
Qed.
Lemma cinv_resize c W L cl f f' : cinv sm c W L → 0 ≤ cl < num_size_classes sm →
  central_cache c !! Z.to_nat cl = Some f → list_ok f' cl → tc_slots_ f' = tc_slots_ f →
  used_slots_ f' = used_slots_ f → counter_ f' = counter_ f → num_spans_ f' = num_spans_ f →
  cinv sm (with_cache c (<[Z.to_nat cl := f']> (central_cache c))) W L.
Proof.
  intros Hc Hcl Ef Hf' E1 E2 E3 E4. pose proof Hc as [I1 I2 I3 I4 I5 I6 I7].
  apply cinv_lists with W; [done|done|by apply (slots_resize _ _ _ _ cl f)|].
  intros i g Hg. destruct (decide (i = Z.to_nat cl)) as [->|Hne].
  - rewrite list_lookup_insert_eq in Hg by (by apply lookup_lt_Some in Ef). injection Hg as <-. by exists f.
  - rewrite list_lookup_insert_ne in Hg by done. by exists g.
Qed.
Lemma cinv_pop c W L cl f f' : cinv sm c W L → 0 ≤ cl < num_size_classes sm →
  central_cache c !! Z.to_nat cl = Some f → list_ok f' cl → tc_slots_ f' = tc_slots_ f →
  used_slots_ f' = used_slots_ f - 1 → counter_ f' = counter_ f → num_spans_ f' = num_spans_ f →
  let c' := with_cache c (<[Z.to_nat cl := f']> (central_cache c)) in
  ∃ e l, tc_slots_ f !! Z.to_nat (used_slots_ f - 1) = Some e ∧ sll (memory c) e.1 l ∧ last l = Some e.2 ∧
    zlen l = cbatch sm cl ∧ cinv sm c' (relocate l Held W) L ∧ moved c W [] cl l c' (relocate l Held W).
Proof.
  intros Hc Hcl Ef Hf' E1 E2 E3 E4 c'. pose proof Hc as [I1 I2 I3 I4 I5 I6 I7].
  destruct (slots_pop _ _ _ _ cl f f' I4 Hcl Ef Hf' E1 E2) as (e & l & Ee & (C1 & C2 & C3 & C4) & Hs').
  exists e, l. split_and!; try done.
  - apply cinv_lists with W; [done| |done|].
    + apply objs_relocate; [done|done|]. intros x q [p Hp]%C4. congruence.
    + intros i g Hg. destruct (decide (i = Z.to_nat cl)) as [->|Hne].
      * rewrite list_lookup_insert_eq in Hg by (by apply lookup_lt_Some in Ef). injection Hg as <-. by exists f.
      * rewrite list_lookup_insert_ne in Hg by done. by exists g.
  - split; try done.
    + intros x cl'. split.
      * intros (p & u & [(Hx & _ & pl & Hp)|[Hn Hp]]%relocate_Some & Hu & E).
        -- right. split; [|done]. pose proof Hx as [q Hq]%C4.
           destruct (sl_place _ _ _ _ _ I4 _ _ _ _ Hq) as (_ & _ & v & [Hv _]%classed_lookup & <-).
           rewrite Hq in Hp. injection Hp as -> _. simpl in Hu. congruence.
        -- left. split; [|apply not_elem_of_nil]. by exists p, u.
      * intros [[(p & u & Hp & Hu & E) _]|[-> Hx]].
        -- exists p, u. split; [apply relocate_Some|done]. right. split; [|done]. intros [q Hq]%C4. congruence.
        -- pose proof Hx as [q Hq]%C4.
           destruct (sl_place _ _ _ _ _ I4 _ _ _ _ Hq) as (_ & _ & v & [Hv _]%classed_lookup & Ev).
           exists q, v. split; [apply relocate_Some|done]. left. split; [done|]. split; [done|]. by eexists.
    + intros x cl' [q Hq]%C4 (p & u & Hp & _). congruence.
Qed.
Lemma cinv_push c W L cl f f' e l : cinv sm c W L → 0 ≤ cl < num_size_classes sm →
  central_cache c !! Z.to_nat cl = Some f → list_ok f' cl → used_slots_ f' = used_slots_ f + 1 →
  tc_slots_ f' = <[Z.to_nat (used_slots_ f) := e]> (tc_slots_ f) → 0 ≤ used_slots_ f < zlen (tc_slots_ f) →
  sll (memory c) e.1 l → last l = Some e.2 → zlen l = cbatch sm cl → (∀ x, x ∈ l → held_class c W cl x) →
  counter_ f' = counter_ f → num_spans_ f' = num_spans_ f →
  let c' := with_cache c (<[Z.to_nat cl := f']> (central_cache c)) in
  let W' := relocate l (InSlot cl (used_slots_ f)) W in cinv sm c' W' L ∧ moved c W l cl [] c' W'.
Proof.
  intros Hc Hcl Ef Hf' E1 E2 Hr C1 C2 C3 Hl E3 E4 c' W'. pose proof Hc as [I1 I2 I3 I4 I5 I6 I7].
  split.
  - apply cinv_lists with W; [done|..].
    + apply objs_relocate; [done|done|]. intros x q (p & u & Hx & _)%Hl. congruence.
    + apply (slots_push _ _ _ _ cl f f' l e); try done. intros x Hx. pose proof (Hl x Hx) as (p & u & Hp & Hu & E).
      exists p, u. split; [done|]. split; [|done]. apply classed_lookup. split; [done|].
      pose proof (cinv_class _ _ _ _ _ Hc (Hl x Hx)) as Hok. unfold class_ok in Hok. lia.
    + intros i g Hg. destruct (decide (i = Z.to_nat cl)) as [->|Hne].
      * rewrite list_lookup_insert_eq in Hg by (by apply lookup_lt_Some in Ef). injection Hg as <-. by exists f.
      * rewrite list_lookup_insert_ne in Hg by done. by exists g.
  - split; try done.
    + intros x cl'. split.
      * intros (p & u & [(_ & ? & _)|[Hn Hp]]%relocate_Some & Hu & E); [done|]. left. split; [|done]. by exists p, u.
      * intros [[(p & u & Hp & Hu & E) Hn]|[_ ?%not_elem_of_nil]]; [|done]. exists p, u. split; [apply relocate_Some|done]. by right.
    + intros x cl' ?%not_elem_of_nil. done.
Qed.


(** ** The operations *)
(** Enough fuel for a chain of a cache. *)
Definition chain_fuel (fuel : nat) : Prop := ∀ cl, class_ok sm cl → cbatch sm cl < Z.of_nat fuel.

Lemma cinv_list c W L cl : cinv sm c W L → 0 ≤ cl < num_size_classes sm →
  0 ≤ cl < zlen (central_cache c) ∧ ∃ f, central_cache c !! Z.to_nat cl = Some f ∧ list_ok f cl.
Proof.
  intros Hc Hcl. pose proof (ci_slots _ _ _ _ Hc) as Hs. pose proof (so_classes _ Hsm).
  rewrite (sl_length _ _ _ _ _ Hs). split; [lia|]. by apply (sl_list _ _ _ _ _ Hs).
Qed.
(** A chain of objects of clients goes back to the spans. *)
Lemma wp_release_chain c W L cl fuel start l (Q : () → Central H → Prop) : cinv sm c W L →
  sll (memory c) start l → (∀ x, x ∈ l → held_class c W cl x) → (length l < fuel)%nat →
  (∀ c' W', cinv sm c' W' L → moved c W l cl [] c' W' → Q tt c') →
  wp (sh_ab (H := H)) (ReleaseListToSpans sm fuel cl start) Q c.
Proof.
  intros Hc Hs Hl Hf HQ. apply (wp_ReleaseListToSpans sm Hsm L cl fuel l Q c W start); [done..|].
  intros c' W' Hc' Hg. apply (HQ c' W'); [done|by apply gave_moved].
Qed.

Lemma wp_ShrinkCache c W L t force fuel (Q : bool → Central H → Prop) : cinv sm c W L →
  0 ≤ t < num_size_classes sm → chain_fuel fuel →
  (∀ b c' W', cinv sm c' W' L → kept c W c' W' → Q b c') →
  wp (sh_ab (H := H)) (ShrinkCache sm fuel t force) Q c.
Proof.
  intros Hc Ht Hfuel HQ. destruct (cinv_list _ _ _ _ Hc Ht) as (Htl & f & Ef & Hf).
  pose proof Hf as (F1 & F2 & F3 & F4). assert (Q false c) as Hno by (apply (HQ _ _ W); [done|apply kept_same]).
  unfold ShrinkCache. apply wp_bind, (wp_get_list _ _ f); [lia|done|].
  apply wp_if; intros Hz; [by apply wp_ret|]. apply Z.eqb_neq in Hz.
  apply wp_if; intros Hfull; [by apply wp_ret|].
  apply wp_bind, wp_assert; [apply Z.leb_le; lia|]. apply wp_bind, wp_assert; [apply Z.leb_le; lia|].
  apply wp_if; intros _; [by apply wp_ret|]. apply wp_if; intros Hu.
  - apply Z.eqb_eq in Hu. apply wp_if; intros _; [by apply wp_ret|].
    apply wp_bind, wp_put_list; [done|].
    destruct (cinv_pop c W L t f (set_used_slots (set_cache_size f (cache_size_ f - 1)) (used_slots_ f - 1)))
      as (e & l & Ee & C1 & C2 & C3 & Hc1 & Hm1); [done..|unfold list_ok; simpl; lia|done|done|done|done|].
    apply wp_bind, (wp_lift _ _ e); [apply arr_get_ok; [lia|done]|].
    assert (∀ x, x ∈ l → held_class (with_cache c (<[Z.to_nat t := set_used_slots (set_cache_size f
      (cache_size_ f - 1)) (used_slots_ f - 1)]> (central_cache c))) (relocate l Held W) t x) as Hl.
    { intros x Hx. apply (mv_held _ _ _ _ _ _ _ Hm1). by right. }
    apply wp_bind. eapply (wp_release_chain _ _ L t fuel e.1 l); [done|done|done| |].
    { apply last_Some_elem_of in C2. pose proof (Hfuel t (cinv_class _ _ _ _ _ Hc1 (Hl _ C2))) as Hb.
      unfold zlen in C3. lia. }
    intros c2 W2 Hc2 Hm2. apply wp_ret. apply (HQ _ _ W2); [done|]. by apply (evicted _ _ t l _ _ _ _ Hm1).
  - apply Z.eqb_neq in Hu. apply wp_bind, wp_put_list; [done|]. apply wp_ret. apply (HQ _ _ W).
    + apply (cinv_resize _ _ _ _ f); try done. unfold list_ok. simpl. lia.
    + apply kept_intro; done.
Qed.


Lemma cinv_race c W L r : cinv sm c W L → 0 ≤ r ≤ num_size_classes sm → cinv sm (with_race c r) W L.
Proof. intros [I1 I2 I3 I4 I5 I6 I7] Hr. by split. Qed.
Lemma wp_EvictRandomSizeClass c W L locked force fuel (Q : bool → Central H → Prop) : cinv sm c W L →
  chain_fuel fuel → (2 ≤ fuel)%nat → (∀ b c' W', cinv sm c' W' L → kept c W c' W' → Q b c') →
  wp (sh_ab (H := H)) (EvictRandomSizeClass sm fuel locked force) Q c.
Proof.
  intros Hc Hfuel Hf2 HQ. pose proof (ci_race _ _ _ _ Hc) as Hr. destruct (so_classes _ Hsm) as [Hn1 Hn2].
  assert (∀ r, kept c W (with_race c r) W) as Hk by (intros r; by apply kept_intro).
  unfold EvictRandomSizeClass. set (n := num_size_classes sm) in *.
  change kClassSizesMax with 96 in Hn2.
  apply wp_bind, wp_gets, wp_bind, (wp_lift _ _ (race_counter c + 1)).
  { apply i32_ok. unfold INT_MIN, INT_MAX. lia. }
  apply wp_bind, wp_act.
  assert (∀ r, 0 ≤ r < n → wp (sh_ab (H := H)) (_ ← ASSERT (0 <=? r); _ ← ASSERT (r <? n);
    if r =? locked then mret false else ShrinkCache sm fuel r force) Q
    (with_race c (if n <=? race_counter c then 0 else race_counter c + 1))) as Hgo.
  { intros r Hrr. apply wp_bind, wp_assert; [apply Z.leb_le; lia|]. apply wp_bind, wp_assert; [apply Z.ltb_lt; lia|].
    assert (cinv sm (with_race c (if n <=? race_counter c then 0 else race_counter c + 1)) W L) as Hc1.
    { apply cinv_race; [done|]. fold n. destruct (Z.leb_spec n (race_counter c)); lia. }
    apply wp_if; intros _; [apply wp_ret, (HQ _ _ W); done|]. apply (wp_ShrinkCache _ W L); [done..|].
    intros b c' W' Hc' Hk'. apply (HQ b c' W'); [done|]. by eapply kept_then; [apply Hk|]. }
  apply wp_bind, wp_if; intros Hge; rewrite Hge in Hgo; [apply Z.leb_le in Hge|apply Z.leb_gt in Hge].
  - apply wp_bind, (wp_lift _ _ 0).
    { destruct fuel as [|[|fuel]]; [lia..|]. cbn [reduce]. rewrite (proj2 (Z.leb_le _ _)) by lia.
      replace (race_counter c - n) with 0 by lia. by rewrite (proj2 (Z.leb_gt _ _)) by lia. }
    apply wp_bind, wp_act, wp_ret. apply Hgo. lia.
  - apply wp_ret, Hgo. lia.
Qed.

Lemma wp_MakeCacheSpace c W L cl fuel (Q : bool → Central H → Prop) : cinv sm c W L →
  0 ≤ cl < num_size_classes sm → chain_fuel fuel → (2 ≤ fuel)%nat →
  (∀ b c' W', cinv sm c' W' L → kept c W c' W' → (b = true → ∃ f, central_cache c' !! Z.to_nat cl = Some f ∧
     list_ok f cl ∧ used_slots_ f < cache_size_ f) → Q b c') →
  wp (sh_ab (H := H)) (MakeCacheSpace sm fuel cl) Q c.
Proof.
  intros Hc Hcl Hfuel Hf2 HQ. destruct (cinv_list _ _ _ _ Hc Hcl) as (Htl & f & Ef & Hf).
  unfold MakeCacheSpace. apply wp_bind, (wp_get_list _ _ f); [lia|done|].
  apply wp_if; intros Hu; [apply Z.ltb_lt in Hu; apply wp_ret|].
  { apply (HQ _ _ W); [done|apply kept_same|]. intros _. by exists f. }
  apply wp_if; intros Hm; [apply wp_ret, (HQ _ _ W); [done|apply kept_same|done]|].
  apply wp_bind, (wp_EvictRandomSizeClass c W L); [done..|]. intros b c1 W1 Hc1 Hk1.
  assert (∀ b c2 W2, cinv sm c2 W2 L → kept c W c2 W2 → wp (sh_ab (H := H)) (if b : bool then
      f ← get_list cl;
      if cache_size_ f <? max_cache_size_ f then
        _ ← put_list cl (set_cache_size f (cache_size_ f + 1)); mret true
      else mret false else mret false) Q c2) as Hgrow.
  { intros b2 c2 W2 Hc2 Hk2. apply wp_if; intros _; [|apply wp_ret, (HQ _ _ W2); done].
    destruct (cinv_list _ _ _ _ Hc2 Hcl) as (Htl2 & f2 & Ef2 & Hf2').
    apply wp_bind, (wp_get_list _ _ f2); [lia|done|].
    apply wp_if; intros Hlt; [apply Z.ltb_lt in Hlt|apply wp_ret, (HQ _ _ W2); done].
    assert (list_ok (set_cache_size f2 (cache_size_ f2 + 1)) cl) as Hok.
    { destruct Hf2' as (? & ? & ? & ?). unfold list_ok. simpl. split_and!; (done || lia). }
    apply wp_bind, wp_put_list, wp_ret; [done|]. apply (HQ _ _ W2).
    - by apply (cinv_resize _ _ _ _ f2).
    - eapply kept_then; [exact Hk2|by apply kept_intro].
    - intros _. eexists. split; [apply list_lookup_insert_eq; by apply lookup_lt_Some in Ef2|].
      split; [done|]. destruct Hf2' as (? & ? & _). simpl. lia. }
  apply wp_bind, wp_if; intros _; [by apply wp_ret, (Hgrow true c1 W1)|].
  apply (wp_EvictRandomSizeClass c1 W1 L); [done..|]. intros b2 c2 W2 Hc2 Hk2.
  apply (Hgrow b2 c2 W2 Hc2). by eapply kept_then.
Qed.

(** The chain [l] of [N] objects of clients goes. *)
Lemma wp_InsertRange c W L cl fuel l start end_ N (Q : () → Central H → Prop) : cinv sm c W L →
  class_ok sm cl → chain_fuel fuel → (2 ≤ fuel)%nat → (length l < fuel)%nat →
  sll (memory c) start l → last l = Some end_ → zlen l = N → (∀ x, x ∈ l → held_class c W cl x) →
  (∀ c' W', cinv sm c' W' L → moved c W l cl [] c' W' → Q tt c') →
  wp (sh_ab (H := H)) (InsertRange sm fuel cl start end_ N) Q c.
Proof.
  intros Hc Hok Hfuel Hf2 Hfl Hs Hlast HN Hl HQ. assert (0 ≤ cl < num_size_classes sm) as Hcl by (unfold class_ok in Hok; lia).
  destruct (cinv_list _ _ _ _ Hc Hcl) as (Htl & f & Ef & Hf).
  unfold InsertRange. apply wp_bind, (wp_get_list _ _ f); [lia|done|].
  apply wp_bind, (wp_lift _ _ (cbatch sm cl)); [destruct Hf as [-> _]; by apply num_objects_to_move_ok|].
  assert (∀ c1 W1, cinv sm c1 W1 L → kept c W c1 W1 →
    sll (memory c1) start l ∧ (∀ x, x ∈ l → held_class c1 W1 cl x)) as Hkeep.
  { intros c1 W1 _ Hk. split.
    - eapply sll_frame; [|exact Hs]. intros x Hx. apply (mv_mem _ _ _ _ _ _ _ (Hk cl) x cl); [by apply Hl|apply not_elem_of_nil].
    - intros x Hx. apply (mv_held _ _ _ _ _ _ _ (Hk cl)). left. split; [by apply Hl|apply not_elem_of_nil]. }
  assert (∀ c1 W1, cinv sm c1 W1 L → kept c W c1 W1 →
    wp (sh_ab (H := H)) (ReleaseListToSpans sm fuel cl start) Q c1) as Hrel.
  { intros c1 W1 Hc1 Hk. destruct (Hkeep _ _ Hc1 Hk) as [Hs1 Hl1].
    apply (wp_release_chain c1 W1 L cl fuel start l); [done..|]. intros c2 W2 Hc2 Hm2.
    apply (HQ c2 W2 Hc2). by eapply kept_moved. }
  apply wp_bind, wp_if; intros HNb; [|apply wp_ret, (Hrel c W); [done|apply kept_same]].
  apply Z.eqb_eq in HNb. apply (wp_MakeCacheSpace c W L); [done..|]. intros b c1 W1 Hc1 Hk1 Hroom.
  apply wp_if; intros Hb; [|by apply (Hrel c1 W1)]. destruct (Hroom Hb) as (f1 & Ef1 & Hf1 & Hu1).
  destruct (Hkeep _ _ Hc1 Hk1) as [Hs1 Hl1]. destruct (cinv_list _ _ _ _ Hc1 Hcl) as (Htl1 & _).
  pose proof Hf1 as (F1 & F2 & F3 & F4).
  apply wp_bind, (wp_get_list _ _ f1); [lia|done|]. apply wp_bind, wp_put_list; [done|].
  apply wp_bind, wp_assert; [apply Z.leb_le; lia|]. apply wp_bind, wp_assert; [apply Z.ltb_lt; lia|].
  apply wp_bind. eapply wp_lift; [apply arr_set_ok; lia|].
  eapply wp_on_list; [simpl; by rewrite zlen_insert|simpl; apply list_lookup_insert_eq; by apply lookup_lt_Some in Ef1|].
  simpl. rewrite list_insert_insert_eq.
  destruct (cinv_push c1 W1 L cl f1 (set_slots (set_used_slots f1 (used_slots_ f1 + 1))
    (<[Z.to_nat (used_slots_ f1) := (start, end_)]> (tc_slots_ f1))) (start, end_) l) as [Hc2 Hm2]; try done.
  - unfold list_ok. simpl. rewrite zlen_insert. split_and!; (done || lia).
  - lia.
  - simpl. lia.
  - apply (HQ _ _ Hc2). by eapply kept_moved.
Qed.
End caches.
