(* ===== verification/CentralFetch.v ===== *)
(** * Central free lists: objects for the clients

    Objects are taken from the spans that have free ones; when there are none, a new
    span comes from the page heap and is cut into objects. *)
From stdpp Require Import base numbers list option gmap sets fin_maps fin_map_dom list_numbers.
From Stdlib Require Import ZArith Lia.
From S2P Require Import Prelude SizeMap PackedCache SpanList SpanHeap CentralFreeList CentralLists.
From S2P Require Import CentralSpec CentralCaches.
Open Scope Z_scope.

Section fetch.
Context {H : Type} `{SpanHeap H} `{!SpanHeapLaws H}.
Variable sm : SizeMap.
Hypothesis Hsm : sizes_ok sm.
Implicit Types (c : Central H) (U : gmap Z use) (S : gmap Z SmallSpan) (W : places) (m : words)
  (cc : list CentralFreeList) (f : CentralFreeList) (k : PackedCache).

(** ** From the spans *)
Lemma walk_objects_ok (c : Central H) N : ∀ l curr r fuel, sll (memory c) curr l → l ≠ [] →
  r < N → N - r < Z.of_nat fuel → ∃ l1 x l2, l = l1 ++ x :: l2 ∧ r + zlen (l1 ++ [x]) ≤ N ∧
    walk_objects fuel curr r N c = Ok ((x, default 0 (head l2), r + zlen (l1 ++ [x])), c).
Proof.
  induction l as [|x l IH]; intros curr r fuel Hs Hne Hr Hf; [done|].
  destruct fuel as [|fuel]; [lia|]. destruct Hs as [(-> & Hx0 & n & Hn & Hs) [Hx Hnd]%NoDup_cons].
  cbn [walk_objects]. unfold mbind, M_bind, read_word, lift, SLL_Next. rewrite Hn. cbn [mbind outcome_bind].
  destruct (Z.ltb_spec (r + 1) N) as [Hlt|Hge], (Z.eqb_spec n 0) as [E0|E0]; cbn [andb negb].
  2: { destruct (IH n (r + 1) fuel) as (l1 & y & l2 & -> & Hle & E); [done| |lia|lia|].
       { intros ->. simpl in Hs. lia. }
       exists (x :: l1), y, l2. rewrite E. simpl app. rewrite zlen_cons. split; [done|]. split; [lia|].
       do 2 f_equal. f_equal. lia. }
  all: exists [], x, l; split; [done|]; split; [unfold zlen; simpl; lia|];
    rewrite (sll_head (memory c) n l) by done; done.
Qed.

(** What [RemoveRange] and the functions it calls give: a chain of new objects. *)
Definition fetched c W cl (l : list Z) start end_ c' W' : Prop :=
  sll (memory c') start l ∧ last l = Some end_ ∧ moved c W [] cl l c' W'.

(** The first objects of a span are taken. *)
Lemma cinv_take c W L p u s l1 x l2 st f : cinv sm c W L →
  classed (sh_used (pageheap c)) !! p = Some u → small_spans c !! p = Some s →
  free_list sm (memory c) W p s u (l1 ++ x :: l2) →
  spans_listed (num_size_classes sm) st (<[p := (u_class u, default 0 (head l2) =? 0)]>
    (kinds (classed (sh_used (pageheap c))) (small_spans c))) ∅ →
  central_cache c !! Z.to_nat (u_class u) = Some f →
  let l := l1 ++ [x] in
  let s' := mkSmall (default 0 (head l2)) (refcount s + zlen l) in
  let c' := mkCentral (<[Z.to_nat (u_class u) := set_counter f (size_t (counter_ f - zlen l))]> (central_cache c))
    (race_counter c) st (<[p := s']> (small_spans c)) (<[x := 0]> (memory c)) (pagemap_cache_ c) (pageheap c) in
  let W' := put_all l (p, Held) W in
  cinv sm c' W' L ∧ fetched c W (u_class u) l (objects s) x c' W'.
Proof.
  intros Hc Hu Hs Hl Hst Ef l s' c' W'. pose proof Hc as [I1 I2 I3 I4 I5 I6 I7].
  destruct (take_objects sm Hsm _ _ _ _ I2 p u s l1 x l2 Hu Hs Hl) as (Hok & Hsll & _).
  pose proof (proj1 (classed_lookup _ _ _) Hu) as [Hu' Hcl0].
  destruct (oo_use _ _ _ _ _ I2 _ _ Hu) as [Hp Hsu]. assert (class_ok sm (u_class u)) as Hcl by apply Hsu.
  assert (∀ y, y ∈ l → W !! y = Some (p, InSpan)) as Hin.
  { intros y Hy. apply Hl. unfold l in Hy. rewrite elem_of_app, list_elem_of_singleton in Hy.
    rewrite elem_of_app, elem_of_cons. tauto. }
  assert (x ∈ l) as Hx by (unfold l; rewrite elem_of_app, list_elem_of_singleton; by right).
  assert (∀ y q pl, pl ≠ InSpan → pl ≠ Held → W' !! y = Some (q, pl) ↔ W !! y = Some (q, pl)) as Hsame.
  { intros y q pl Hpl Hpl'. unfold W'. rewrite lookup_put_all. case_decide as Hy; [|done].
    rewrite (Hin y Hy). naive_solver. }
  split; [|split_and!; [exact Hsll|unfold l; by rewrite last_snoc|]].
  - split; try done.
    + simpl. by rewrite (kinds_insert _ _ p u).
    + eapply (slots_frame sm _ _ _ W); [exact I4|by eapply same_chains_insert| |].
      * intros y q cl' i. by apply Hsame.
      * intros y q cl' i Hy. split; [|done]. apply lookup_insert_ne. intros ->. rewrite (Hin y Hx) in Hy. done.
    + apply (counts_give _ _ _ _ p u s); try done; [unfold class_ok in Hcl; lia|]. simpl. lia.
  - assert (∀ y cl', y ∈ l → ¬ held_class c W cl' y) as Hnot.
    { intros y cl' Hy (q & v & Hq & _). rewrite (Hin y Hy) in Hq. done. }
    split; try done.
    + intros y cl'. split.
      * intros (q & v & Hq & Hv & E). unfold W' in Hq. rewrite lookup_put_all in Hq. case_decide as Hy.
        -- injection Hq as <-. right. split; [|done]. simpl in Hv. congruence.
        -- left. split; [by exists q, v|apply not_elem_of_nil].
      * unfold held_class, W'. setoid_rewrite lookup_put_all.
        intros [[Hh _]|[-> Hy]]; [|exists p, u; by rewrite decide_True].
        rewrite decide_False; [done|]. intros Hy. by destruct (Hnot y cl' Hy).
    + intros y cl' Hh _. apply lookup_insert_ne. intros ->. by destruct (Hnot y cl' Hx).
Qed.
Lemma wp_FetchFromOneSpans c W L cl N (Q : Z * Z * Z → Central H → Prop) : cinv sm c W L →
  class_ok sm cl → 0 < N →
  ((∀ p, kinds (classed (sh_used (pageheap c))) (small_spans c) !! p ≠ Some (cl, false)) → Q (0, 0, 0) c) →
  (∀ l start end_ c' W', 1 ≤ zlen l ≤ N → cinv sm c' W' L → fetched c W cl l start end_ c' W' →
     Q (zlen l, start, end_) c') →
  wp (sh_ab (H := H)) (FetchFromOneSpans cl N) Q c.
Proof.
  intros Hc Hcl HN Hnone Hsome. assert (0 ≤ cl < num_size_classes sm) as Hclr by (unfold class_ok in Hcl; lia).
  destruct (cinv_list sm Hsm _ _ _ _ Hc Hclr) as (Htl & f & Ef & Hf). pose proof Hc as [I1 I2 I3 I4 I5 I6 I7].
  unfold FetchFromOneSpans.
  destruct (listed_first _ _ _ _ I3 cl false Hclr) as [[E HG]|(p & E & Efst & Hk)].
  { apply wp_bind, (wp_ask_lists _ _ true); [exact E|]. apply wp_ret. by apply Hnone. }
  apply wp_bind, (wp_ask_lists _ _ false); [exact E|]. apply wp_bind, (wp_ask_lists _ _ p); [exact Efst|].
  pose proof Hk as (u & s & Ek & Hu & Hs)%map_lookup_zip_with_Some. unfold kind in Ek. injection Ek as -> Eo.
  symmetry in Eo. destruct (oo_free _ _ _ _ _ I2 _ _ _ Hu Hs) as (fl & Hfl).
  apply wp_bind, (wp_load_small _ _ s); [done|]. apply wp_bind, wp_assert; [by rewrite Eo|].
  destruct (walk_objects_ok c N fl (objects s) 0 (S (Z.to_nat N))) as (l1 & x & l2 & -> & Hle & Ew);
    [apply Hfl| |lia|lia|]; [intros ->; apply Z.eqb_neq in Eo; by apply Eo, (free_nil sm (memory c) W p s u [])|].
  rewrite Z.add_0_l in Ew, Hle. apply wp_bind. unfold wp at 1. rewrite Ew. set (l := l1 ++ [x]) in *.
  assert (1 ≤ zlen l) as Hl1 by (unfold l; rewrite zlen_app; pose proof (zlen_nonneg l1); unfold zlen; simpl; lia).
  destruct (take_objects sm Hsm _ _ _ _ I2 p u s l1 x l2 Hu Hs Hfl) as (Hok & _ & Hrc). fold l in Hok, Hrc.
  eapply wp_bind, (relist sm Hsm _ _ p _ _ (default 0 (head l2) =? 0)); [exact I3|exact Hk| |].
  { by destruct (default 0 (head l2) =? 0). }
  intros st Hst. apply wp_bind, (wp_store_small _ _ s); [done|].
  apply wp_bind, wp_write_word.
  { apply (oo_mem _ _ _ _ _ I2). exists (p, InSpan). apply Hfl. rewrite elem_of_app, elem_of_cons. tauto. }
  apply wp_bind. eapply wp_store_small; [simpl; apply lookup_insert_eq|]. simpl. rewrite insert_insert_eq.
  assert (u16 (refcount s + zlen l) = refcount s + zlen l) as -> by (unfold u16; by apply Z.mod_small).
  apply wp_bind. eapply wp_on_list; [done|exact Ef|]. apply wp_ret.
  destruct (cinv_take c W L p u s l1 x l2 st f Hc Hu Hs Hfl Hst Ef) as [Hc' Hf'].
  by apply (Hsome l (objects s) x _ _ (conj Hl1 Hle) Hc').
Qed.

(** ** A new span is cut into objects *)
Fixpoint steps (ptr size : Z) (n : nat) : list Z :=
  match n with O => [] | S n => ptr :: steps (ptr + size) size n end.
Lemma steps_seqZ p size n i : steps (p + i * size) size n = (λ j, p + j * size) <$> seqZ i (Z.of_nat n).
Proof.
  revert i. induction n as [|n IH]; intros i; [done|]. rewrite seqZ_cons by lia. cbn [steps fmap list_fmap].
  f_equal. replace (Z.pred (Z.of_nat (S n))) with (Z.of_nat n) by lia. rewrite <- IH. f_equal. lia.
Qed.
Lemma steps_objs u : small_use sm u →
  steps (8192 * u_start u) (csize sm (u_class u)) (Z.to_nat (nobj sm u)) = objs sm u.
Proof.
  intros Hu. destruct (nobj_range sm Hsm u Hu) as [Hn _].
  pose proof (steps_seqZ (8192 * u_start u) (csize sm (u_class u)) (Z.to_nat (nobj sm u)) 0) as E.
  rewrite Z.mul_0_l, Z.add_0_r in E. rewrite E, Z2Nat.id by lia. done.
Qed.
Lemma steps_above ptr size n x : 0 ≤ size → x ∈ steps ptr size n → ptr ≤ x.
Proof.
  intros Hs. revert ptr. induction n as [|n IH]; intros ptr; [by intros ?%not_elem_of_nil|].
  intros [->|Hx%IH]%elem_of_cons; lia.
Qed.

(** The objects from [ptr] on are linked after the object [a]. *)
Lemma wp_cut_from ab span limit size (Q : Z → Central H → Prop) : 0 < size → ∀ n fuel a ptr num c,
  0 < a < ptr → ptr + Z.of_nat n * size ≤ limit < ptr + (Z.of_nat n + 1) * size → (n < fuel)%nat →
  (∀ m', sll_seg m' a (a :: steps ptr size n) 0 →
     (∀ x, x ∉ a :: steps ptr size n → m' !! x = memory c !! x) → Q (num + Z.of_nat n) (with_memory c m')) →
  wp ab (cut_objects fuel span (Some a) ptr limit size num)
    (λ r c', wp ab (write_tail span r.2 0) (λ _, Q r.1) c') c.
Proof.
  intros Hs. induction n as [|n IH]; intros [|fuel] a ptr num c Ha Hlim Hf HQ; [lia| |lia|]; cbn [cut_objects].
  - rewrite (proj2 (Z.leb_gt _ _)) by lia. apply wp_bind, wp_assert; [apply Z.leb_le; lia|]. apply wp_ret.
    cbn [write_tail fst snd]. apply wp_act. replace num with (num + Z.of_nat 0) by lia. apply HQ; simpl.
    + split; [done|]. split; [lia|]. exists 0. by rewrite lookup_insert_eq.
    + intros x Hx. apply lookup_insert_ne. intros ->. apply Hx. left.
  - rewrite (proj2 (Z.leb_le _ _)) by nia. apply wp_bind, wp_act. cbn [write_tail].
    apply IH; [lia|lia|lia|]. intros m' Hm' Hfr. cbn [memory with_memory] in Hfr.
    replace (num + 1 + Z.of_nat n) with (num + Z.of_nat (S n)) by lia. apply HQ.
    + cbn [steps]. split; [done|]. split; [lia|]. exists ptr. split; [|exact Hm'].
      rewrite Hfr; [apply lookup_insert_eq|]. intros [->|Hx%steps_above]%elem_of_cons; lia.
    + intros x Hx. cbn [steps] in Hx. apply not_elem_of_cons in Hx as [Hxa Hx].
      rewrite Hfr by done. by apply lookup_insert_ne.
Qed.
Lemma wp_cut_objects ab span limit size s n fuel ptr c (Q : Z → Central H → Prop) : 0 < size → 0 < ptr →
  small_spans c !! span = Some s →
  ptr + Z.of_nat (S n) * size ≤ limit < ptr + (Z.of_nat (S n) + 1) * size → (S n < fuel)%nat →
  (∀ m', sll_seg m' ptr (steps ptr size (S n)) 0 → (∀ x, x ∉ steps ptr size (S n) → m' !! x = memory c !! x) →
     Q (Z.of_nat (S n)) (with_memory (with_small c (<[span := mkSmall ptr (refcount s)]> (small_spans c))) m')) →
  wp ab (cut_objects fuel span None ptr limit size 0)
    (λ r c', wp ab (write_tail span r.2 0) (λ _, Q r.1) c') c.
Proof.
  intros Hs Hp Hsp Hlim Hf HQ. destruct fuel as [|fuel]; [lia|]. cbn [cut_objects].
  rewrite (proj2 (Z.leb_le _ _)) by nia. apply wp_bind. cbn [write_tail].
  apply wp_bind, (wp_load_small _ _ s); [done|]. apply (wp_store_small _ _ s); [done|].
  apply wp_cut_from with n; [done|lia|lia|lia|]. intros m' Hm' Hfr.
  replace (0 + 1 + Z.of_nat n) with (Z.of_nat (S n)) by lia. apply HQ; [exact Hm'|exact Hfr].
Qed.

(** ** Its pages in the cache of size classes *)
Lemma wp_cache_pages ab cl n (Q : () → Central H → Prop) : 0 < cl < 2 ^ kValuebits → ∀ start t c,
  0 ≤ start → start + Z.of_nat n ≤ 2 ^ kPageBits → cache_holds (pagemap_cache_ c) t →
  (∀ k' t', cache_holds k' t' → (∀ x v, table_get t' x = Some v →
      (start ≤ x < start + Z.of_nat n → v = cl) ∧
      (¬ start ≤ x < start + Z.of_nat n → table_get t x = Some v)) → Q tt (with_class_cache c k')) →
  wp ab (cache_pages n start cl) Q c.
Proof.
  intros Hcl. induction n as [|n IH]; intros start t c Hs He Hc HQ; cbn [cache_pages].
  - apply wp_ret. replace c with (with_class_cache c (pagemap_cache_ c)) by (by destruct c).
    apply (HQ _ t); [done|]. intros x v Hx. split; [lia|done].
  - apply wp_bind. destruct (Put_spec kPageBits (pagemap_cache_ c) t start cl) as (k1 & E1 & Hk1);
      [done|done|split; lia|lia|].
    unfold wp at 1, SetCachedSizeClass. rewrite (proj2 (Z.eqb_neq cl 0)) by lia. cbn [negb check mbind outcome_bind].
    rewrite E1. cbn [mbind outcome_bind].
    apply (IH (start + 1) (table_put t start (Some cl))); [lia|lia|done|].
    intros k' t' Hk' Ht'. apply (HQ k' t'); [done|]. intros x v Hx. destruct (Ht' x v Hx) as [T1 T2].
    assert (¬ start + 1 ≤ x < start + 1 + Z.of_nat n → (x = start → v = cl) ∧ (x ≠ start → table_get t x = Some v)) as Hx'.
    { intros Hn. specialize (T2 Hn). unfold table_get, table_put in T2 |- *.
      destruct (Hash x =? Hash start) eqn:Eh; cbn [fmap option_fmap option_map] in T2.
      - destruct (Z.eqb_spec start x) as [->|]; [|done]. injection T2 as <-. by split.
      - split; [intros ->; by rewrite Z.eqb_refl in Eh|done]. }
    split; intros Hr; destruct (decide (x = start)); (apply T1; lia) || (apply Hx'; lia).
Qed.

(** ** The invariant with one more span *)
Lemma entries_add t t' U L p u : entries_ok t U L → U !! p = None → apart (<[p := u]> U) →
  1 ≤ u_pages u → 1 ≤ u_start u →
  (∀ x v, table_get t' x = Some v → (has_page u x → v = u_class u) ∧ (¬ has_page u x → table_get t x = Some v)) →
  (∀ q v, U !! q = Some v → 1 ≤ u_pages v) →
  entries_ok t' (<[p := u]> U) L.
Proof.
  intros [Hcl HL H0'] Hp Hap Hn Hst Ht Hpg.
  assert (∀ q v x, U !! q = Some v → has_page v x → ¬ has_page u x) as Hdis.
  { intros q v x Hq Hv Hu. assert (p = q); [|congruence].
    apply (Hap p q u v x); try done; [apply lookup_insert_eq|rewrite lookup_insert_ne; congruence]. }
  split.
  - intros q v x w [[<- <-]|[_ Hq]]%lookup_insert_Some Hv Hx Hw; [by apply (Ht x w)|].
    apply (Hcl q v x w); [done..|]. apply (Ht x w); [done|]. by apply (Hdis q v).
  - intros q v Hq. destruct (HL q v Hq) as (Hv & Hv0 & Htv). rewrite lookup_insert_ne by congruence.
    split_and!; try done. destruct (table_get t' (u_start v)) as [w|] eqn:E; [|done].
    destruct (Ht _ _ E) as [_ Hn']. rewrite Hn' in Htv; [done|]. apply (Hdis q v); [done|].
    pose proof (Hpg q v Hv). unfold has_page. lia.
  - destruct (table_get t' 0) as [w|] eqn:E; [|done]. destruct (Ht _ _ E) as [_ Hn']. rewrite Hn' in H0'; [done|]. unfold has_page. lia.
Qed.
(** All objects of the span are free. *)
Lemma counts_add U S cc p u s f f' : counts_ok sm U S cc → U !! p = None → S !! p = None →
  class_ok sm (u_class u) → cc !! Z.to_nat (u_class u) = Some f → refcount s = 0 →
  counter_ f' = size_t (counter_ f + nobj sm u) → num_spans_ f' = size_t (num_spans_ f + 1) →
  counts_ok sm (<[p := u]> U) (<[p := s]> S) (<[Z.to_nat (u_class u) := f']> cc).
Proof.
  intros Hc HU HS Hcl Hf Hr F1 F2. unfold class_ok in Hcl. destruct (Hc (u_class u) f ltac:(lia) Hf) as [E1 E2].
  assert (∀ cl, wsum (free_of sm (<[p := u]> U) cl) (<[p := s]> S) =
    (if u_class u =? cl then nobj sm u else 0) + wsum (free_of sm U cl) S) as Ef.
  { intros cl. rewrite wsum_insert by done. f_equal.
    - unfold free_of. rewrite lookup_insert_eq, Hr. destruct (u_class u =? cl); lia.
    - apply wsum_ext. intros q t Hq. unfold free_of. rewrite lookup_insert_ne; [done|congruence]. }
  assert (∀ cl, wsum (one_of (<[p := u]> U) cl) (<[p := s]> S) =
    (if u_class u =? cl then 1 else 0) + wsum (one_of U cl) S) as Eo.
  { intros cl. rewrite wsum_insert by done. f_equal.
    - unfold one_of. by rewrite lookup_insert_eq.
    - apply wsum_ext. intros q t Hq. unfold one_of. rewrite lookup_insert_ne; [done|congruence]. }
  apply (counts_change sm U S cc _ _ _ f); [done|lia|done|..].
  - intros cl' _ Hne. rewrite Ef, Eo, (proj2 (Z.eqb_neq _ _)) by done. lia.
  - rewrite Ef, Z.eqb_refl, F1, E1, size_t_plus. f_equal. lia.
  - rewrite Eo, Z.eqb_refl, F2, E2, size_t_plus. f_equal. lia.
Qed.
Lemma cinv_add c W L p u s st m' k' t t' h' f f' : cinv sm c W L → sh_used (pageheap c) !! p = None →
  small_use sm u → sh_good h' → sh_used h' = <[p := u]> (sh_used (pageheap c)) →
  sll m' (objects s) (objs sm u) → refcount s = 0 → (∀ x, x ∉ objs sm u → m' !! x = memory c !! x) →
  spans_listed (num_size_classes sm) st (<[p := (u_class u, false)]>
    (kinds (classed (sh_used (pageheap c))) (small_spans c))) ∅ →
  central_cache c !! Z.to_nat (u_class u) = Some f →
  f' = set_counter (set_num_spans f (size_t (num_spans_ f + 1))) (size_t (counter_ f + nobj sm u)) →
  entries_ok t (sh_used (pageheap c)) L → cache_holds k' t' →
  (∀ x v, table_get t' x = Some v → (has_page u x → v = u_class u) ∧ (¬ has_page u x → table_get t x = Some v)) →
  let c' := mkCentral (<[Z.to_nat (u_class u) := f']> (central_cache c)) (race_counter c) st
    (<[p := s]> (small_spans c)) m' k' h' in
  let W' := put_all (objs sm u) (p, InSpan) W in
  cinv sm c' W' L ∧ kept c W c' W' ∧
  kinds (classed (sh_used (pageheap c'))) (small_spans c') !! p = Some (u_class u, false).
Proof.
  intros Hc Hp Hu Hg Hused Hsll Hr Hfr Hst Ef -> Ht Hk' Ht' c' W'. pose proof Hc as [I1 I2 I3 I4 I5 I6 I7].
  assert (class_ok sm (u_class u)) as Hcl by apply Hu. assert (u_class u ≠ 0) as Hcl0 by (unfold class_ok in Hcl; lia).
  assert (classed (sh_used (pageheap c)) !! p = None) as Hp'.
  { destruct (classed (sh_used (pageheap c)) !! p) eqn:E; [|done]. apply classed_lookup in E as [E _]. congruence. }
  assert (small_spans c !! p = None) as Hs.
  { apply eq_None_not_Some. rewrite (oo_dom _ _ _ _ _ I2), Hp'. by intros [? ?]. }
  pose proof (sh_apart h' Hg) as Hap. rewrite Hused in Hap.
  assert (apart (<[p := u]> (classed (sh_used (pageheap c))))) as Hap'.
  { rewrite <- classed_insert by done. intros q1 q2 u1 u2 x [H1 _]%classed_lookup [H2 _]%classed_lookup. by apply Hap. }
  assert (0 < p) as Hpos by (apply (sh_range h' p u Hg); rewrite Hused; apply lookup_insert_eq).
  assert (∀ x, x ∈ objs sm u → W !! x = None) as HW by (intros x; by apply (new_objects sm Hsm _ _ _ _ I2 p)).
  assert (∀ x q pl, pl ≠ InSpan → W' !! x = Some (q, pl) ↔ W !! x = Some (q, pl)) as Hsame.
  { intros x q pl Hpl. unfold W'. rewrite lookup_put_all. case_decide as Hx; [|done]. rewrite (HW x Hx). naive_solver. }
  assert (objects s ≠ 0) as Hobj.
  { intros E. destruct Hsll as [Hseg _]. rewrite E in Hseg. destruct (nobj_range sm Hsm u Hu) as [Hn _].
    pose proof (objs_length sm Hsm u Hu). destruct (objs sm u); [unfold zlen in *; simpl in *; lia|].
    by destruct Hseg as (<- & ? & _). }
  assert (kinds (classed (<[p := u]> (sh_used (pageheap c)))) (<[p := s]> (small_spans c)) =
    <[p := (u_class u, false)]> (kinds (classed (sh_used (pageheap c))) (small_spans c))) as Ek.
  { rewrite classed_insert by done. unfold kinds. rewrite <- map_insert_zip_with. unfold kind.
    by rewrite (proj2 (Z.eqb_neq _ _)). }
  split; [split; simpl; rewrite ?Hused; try done|split].
  - rewrite classed_insert by done. by eapply add_span.
  - by rewrite Ek.
  - rewrite classed_insert by done. eapply (slots_frame sm _ _ _ W); [exact I4|by eapply same_chains_insert| |].
    + intros x q cl i. by apply Hsame.
    + intros x q cl i Hx. split.
      * apply Hfr. intros Hx'. by rewrite (HW x Hx') in Hx.
      * destruct (sl_place _ _ _ _ _ I4 _ _ _ _ Hx) as (_ & _ & v & Hv & _). apply lookup_insert_ne. congruence.
  - rewrite classed_insert by done. by apply (counts_add _ _ _ _ _ _ f).
  - exists t'. split; [done|]. apply (entries_add t); try done.
    + by apply (sh_range h' p u Hg); rewrite Hused; apply lookup_insert_eq.
    + by apply (sh_range h' p u Hg); rewrite Hused; apply lookup_insert_eq.
    + intros q v Hq. by apply (sh_range (pageheap c) q v).
  - apply kept_intro; simpl; rewrite ?Hused.
    + intros x cl. split; intros (q & v & Hx & Hv & E); exists q, v;
        apply (Hsame x q Held) in Hx as Hx'; try done; (split; [done|split; [|done]]); simpl in *.
      * rewrite Hused in Hv. apply lookup_insert_Some in Hv as [[<- <-]|[_ ?]]; [|done].
        destruct (oo_span _ _ _ _ _ I2 _ _ _ Hx') as (v & Hv & _). congruence.
      * rewrite Hused, lookup_insert_ne; [done|congruence].
    + intros x cl (q & v & Hx & _). apply Hfr. intros Hx'. by rewrite (HW x Hx') in Hx.
    + intros q v Hv. rewrite lookup_insert_Some. split; [intros [[<- <-]|[_ ?]]; done|]. intros Hq. right.
      split; [congruence|done].
  - simpl. rewrite Hused, Ek. apply lookup_insert_eq.
Qed.

Lemma cinv_heap c W L h' : cinv sm c W L → sh_good h' → sh_used h' = sh_used (pageheap c) →
  cinv sm (with_heap c h') W L ∧ kept c W (with_heap c h') W.
Proof.
  intros [I1 I2 I3 I4 I5 I6 I7] Hg Hu. split; [split; simpl; by rewrite ?Hu|].
  apply kept_intro; simpl; rewrite ?Hu; try done. intros x cl. unfold held_class. simpl. by rewrite Hu.
Qed.
(** The page heap had no span. *)
Definition no_span c cl : Prop := ∃ h, sh_new (cpages sm cl) (pageheap c) = Ok (0, h).

(** The part of [Populate] after the span is registered: [c] is the state before, [h]
    the page heap with the span. *)
Lemma wp_cut_span c W L p u h (Q : () → Central H → Prop) : cinv sm c W L →
  sh_used (pageheap c) !! p = None → small_use sm u → sh_good h → sh_used h = <[p := u]> (sh_used (pageheap c)) →
  (∀ c' W', cinv sm c' W' L → kept c W c' W' →
     kinds (classed (sh_used (pageheap c'))) (small_spans c') !! p = Some (u_class u, false) → Q tt c') →
  wp (sh_ab (H := H)) (_ ← take_over p;
    v ← load_span p;
    _ ← ASSERT (u_pages v =? u_pages u);
    _ ← cache_pages (Z.to_nat (u_pages u)) (u_start v) (u_class u);
    let ptr := Z.shiftl (u_start v) kPageShift in
    let limit := ptr + Z.shiftl (u_pages u) kPageShift in
    size ← lift (ByteSizeForClass sm (u_class u));
    '(num, tail) ← cut_objects (S (Z.to_nat (Z.shiftl (u_pages u) kPageShift))) p None ptr limit size 0;
    _ ← write_tail p tail 0;
    s ← load_small p;
    _ ← store_small p (mkSmall (objects s) 0);
    _ ← on_links (λ st, DLL_Prepend st (nonempty_ (u_class u)) p);
    on_list (u_class u) (λ f, set_counter (set_num_spans f (size_t (num_spans_ f + 1)))
      (size_t (counter_ f + num)))) Q (with_heap c h).
Proof.
  intros Hc Hp Hu Hg Hused HQ. pose proof Hc as [I1 I2 I3 I4 I5 I6 I7].
  assert (class_ok sm (u_class u)) as Hcl by apply Hu. pose proof (so_classes _ Hsm) as [_ Hn96].
  change kClassSizesMax with 96 in Hn96. unfold class_ok in Hcl.
  destruct (cinv_list sm Hsm _ _ _ (u_class u) Hc) as (Htl & f & Ef & Hf); [lia|].
  destruct (nobj_range sm Hsm u Hu) as [Hn Hnb]. pose proof (csize_pos sm Hsm u Hu) as Hsz.
  destruct (sh_range h p u Hg) as (Hpos & Hst1 & Hpg1 & Hend); [rewrite Hused; apply lookup_insert_eq|].
  assert (kinds (classed (sh_used (pageheap c))) (small_spans c) !! p = None) as Hk.
  { unfold kinds. rewrite map_lookup_zip_with.
    destruct (classed (sh_used (pageheap c)) !! p) eqn:E; [|done]. apply classed_lookup in E as [E _]. congruence. }
  apply wp_bind, wp_act, wp_bind, (wp_load_span _ _ u); [exact Hg|simpl; rewrite Hused; apply lookup_insert_eq|].
  apply wp_bind, wp_assert; [apply Z.eqb_refl|]. destruct I7 as (t & Ht & Het).
  apply wp_bind, (wp_cache_pages _ (u_class u)) with (t := t);
    [change (2 ^ kValuebits) with 128; lia|lia|lia|done|]. intros k' t' Hk' Ht'. rewrite Z2Nat.id in Ht' by lia.
  apply wp_bind, (wp_lift _ _ (csize sm (u_class u))); [by apply ByteSizeForClass_ok|].
  rewrite !Z.shiftl_mul_pow2 by done. change (2 ^ kPageShift) with 8192. rewrite !(Z.mul_comm _ 8192).
  assert (Z.of_nat (S (Z.to_nat (nobj sm u) - 1)) = nobj sm u) as En by lia.
  assert (8192 * u_pages u < (nobj sm u + 1) * csize sm (u_class u)) as Hlast.
  { pose proof (Z.mul_succ_div_gt (8192 * u_pages u) (csize sm (u_class u)) ltac:(lia)). unfold nobj. lia. }
  eapply wp_bind, wp_mono; [eapply (wp_cut_objects _ p _ (csize sm (u_class u)) (mkSmall 0 0) (Z.to_nat (nobj sm u) - 1))|].
  { lia. } { lia. } { simpl. apply lookup_insert_eq. } { rewrite En. lia. } { nia. }
  2: { intros [num tail] c1 Hr. cbn [fst snd] in Hr. apply wp_bind. exact Hr. }
  rewrite En. replace (S (Z.to_nat (nobj sm u) - 1)) with (Z.to_nat (nobj sm u)) by lia. rewrite steps_objs by done.
  intros m' Hm' Hfr. simpl. rewrite insert_insert_eq.
  apply wp_bind. eapply wp_load_small; [simpl; apply lookup_insert_eq|].
  apply wp_bind. eapply wp_store_small; [simpl; apply lookup_insert_eq|]. simpl. rewrite insert_insert_eq.
  destruct (listed_prepend _ _ _ _ (num_classes_nonneg sm Hsm)
    (listed_new _ _ _ _ I3 p Hpos Hk) p (u_class u) false) as (st & Est & Hst);
    [by apply elem_of_union_l, elem_of_singleton|done|lia|done|].
  replace (({[p]} ∪ ∅) ∖ {[p]} : gset Z) with (∅ : gset Z) in Hst by set_solver.
  apply wp_bind, (wp_on_lists _ _ st); [exact Est|]. eapply wp_on_list; [done|exact Ef|].
  destruct (cinv_add c W L p u (mkSmall (8192 * u_start u) 0) st m' k' t t' h f
    (set_counter (set_num_spans f (size_t (num_spans_ f + 1))) (size_t (counter_ f + nobj sm u))))
    as (Hc' & Hk2 & Hkd); try done; [split; [done|by apply objs_NoDup]|].
  by apply (HQ _ _ Hc' Hk2 Hkd).
Qed.

Lemma wp_Populate c W L cl (Q : () → Central H → Prop) : cinv sm c W L → class_ok sm cl →
  (∀ c' W', cinv sm c' W' L → kept c W c' W' → no_span c cl ∨
     (∃ p, kinds (classed (sh_used (pageheap c'))) (small_spans c') !! p = Some (cl, false)) → Q tt c') →
  wp (sh_ab (H := H)) (Populate sm cl) Q c.
Proof.
  intros Hc Hcl HQ. pose proof (ci_heap _ _ _ _ Hc) as Hg. pose proof (so_classes _ Hsm) as [_ Hn96].
  change kClassSizesMax with 96 in Hn96. destruct (class_sizes_of sm Hsm cl Hcl) as [_ _ _ _ _ Hpg _ _ _ _].
  unfold Populate. apply wp_bind, (wp_lift _ _ (cpages sm cl)); [by apply class_to_pages_ok|].
  apply wp_bind, wp_on_heap. eapply wp_mono; [apply wp_eq, (sh_new_spec _ (cpages sm cl)); [done|lia]|].
  intros p h1 (Enew & Hg1 & Hu1). destruct Hu1 as [[-> Hu1]|(Hp & st & Hu1)].
  { apply wp_if; [intros _; apply wp_ret|done]. destruct (cinv_heap c W L h1 Hc Hg1 Hu1) as [Hc1 Hk1].
    apply (HQ _ _ Hc1 Hk1). left. by exists h1. }
  set (u := mkUse st (cpages sm cl) cl).
  assert (sh_used h1 !! p = Some (mkUse st (cpages sm cl) 0)) as Hpu by (rewrite Hu1; apply lookup_insert_eq).
  pose proof (sh_range _ _ _ Hg1 Hpu) as (Hpos & Hst & _ & Hend). simpl in Hst, Hend.
  apply wp_if; intros Hz; [apply Z.eqb_eq in Hz; lia|].
  apply wp_bind, wp_on_heap. eapply wp_mono; [by apply (sh_register_spec _ p _ cl Hg1 Hpu)|].
  intros _ h2 [Hg2 Hu2]. simpl in Hu2. unfold class_ok in Hcl. rewrite Z.mod_small in Hu2 by lia.
  rewrite Hu1, insert_insert_eq in Hu2. fold u in Hu2.
  apply (wp_cut_span c W L p u h2); [done|done|by unfold small_use|done|done|].
  intros c' W' Hc' Hk' Hkd. apply (HQ c' W' Hc' Hk'). right. by exists p.
Qed.

Lemma wp_FetchFromOneSpansSafe c W L cl N (Q : Z * Z * Z → Central H → Prop) : cinv sm c W L →
  class_ok sm cl → 0 < N →
  (∀ l start end_ c' W', zlen l ≤ N → cinv sm c' W' L →
     (if decide (l = []) then start = 0 ∧ no_span c cl ∧ kept c W c' W' else fetched c W cl l start end_ c' W') →
     Q (zlen l, start, end_) c') →
  wp (sh_ab (H := H)) (FetchFromOneSpansSafe sm cl N) Q c.
Proof.
  intros Hc Hcl HN HQ. unfold FetchFromOneSpansSafe. apply wp_bind, (wp_FetchFromOneSpans c W L); [done..| |].
  - intros Hnone. cbv beta iota. change (0 =? 0) with true. cbv iota. apply wp_bind, (wp_Populate c W L); [done..|].
    intros c1 W1 Hc1 Hk1 Hor. apply (wp_FetchFromOneSpans c1 W1 L); [done..| |].
    + intros Hnone1. destruct Hor as [Hno|[p Hp]]; [|by destruct (Hnone1 p)].
      by apply (HQ [] 0 0 c1 W1); [unfold zlen; simpl; lia|done|].
    + intros l start end_ c2 W2 Hl Hc2 (F1 & F2 & F3). apply (HQ l start end_ c2 W2); [lia|done|].
      rewrite decide_False by (intros ->; unfold zlen in Hl; simpl in Hl; lia).
      split_and!; [done..|by eapply kept_moved].
  - intros l start end_ c1 W1 Hl Hc1 Hf. apply wp_if; intros Hz; [apply Z.eqb_eq in Hz; lia|]. apply wp_ret.
    apply (HQ l start end_ c1 W1); [lia|done|]. rewrite decide_False; [done|].
    intros ->. unfold zlen in Hl. simpl in Hl. lia.
Qed.

(** *** A client writes the first word of an object *)
Lemma cinv_mem c W L cl x : cinv sm c W L → held_class c W cl x → is_Some (memory c !! x).
Proof. intros Hc (p & u & Hx & _). apply (oo_mem _ _ _ _ _ (ci_objs _ _ _ _ Hc)). by eexists. Qed.
Lemma cinv_write c W L x v cl : cinv sm c W L → held_class c W cl x →
  cinv sm (with_memory c (<[x := v]> (memory c))) W L.
Proof.
  intros [I1 I2 I3 I4 I5 I6 I7] (p & u & Hx & _).
  assert (∀ y q pl, W !! y = Some (q, pl) → pl ≠ Held → y ≠ x) as Hne by (intros y q pl Hy Hpl ->; congruence).
  split; try done; simpl.
  - destruct I2 as [O1 O2 O3 O4 O5 O6 O7]. split; try done.
    + intros y. destruct (decide (y = x)) as [->|]; [|by rewrite lookup_insert_ne].
      rewrite lookup_insert_eq, Hx. split; by eexists.
    + intros q w s Hq Hs. destruct (O7 q w s Hq Hs) as (l & Hl). exists l.
      eapply free_frame; [|done|exact Hl]. intros y Hy%Hl. apply lookup_insert_ne. symmetry. by eapply Hne.
  - eapply (slots_frame sm _ _ _ W); [exact I4|apply same_chains_refl|done|]. intros y q cl' i Hy. split; [|done].
    apply lookup_insert_ne. symmetry. by eapply Hne.
Qed.
Lemma moved_write c W cl into c' W' x v : moved c W [] cl into c' W' → x ∈ into →
  moved c W [] cl into (with_memory c' (<[x := v]> (memory c'))) W'.
Proof.
  intros [M1 M2 M3 M4] Hx. split; try done. intros y cl' Hh Hn. simpl.
  rewrite lookup_insert_ne; [by apply (M3 y cl')|]. intros ->. by apply (M2 y cl').
Qed.
Lemma sll_append m head tail start l1 l2 : sll m head l1 → last l1 = Some tail → sll m start l2 →
  (∀ x, x ∈ l1 → x ∉ l2) → sll (<[tail := start]> m) head (l1 ++ l2).
Proof.
  intros [Hs1 Hn1] (l1' & ->)%last_Some [Hs2 Hn2] Hd. apply sll_seg_app in Hs1 as (h & Hs1 & -> & Ht0 & _).
  apply NoDup_app in Hn1 as (Hn1 & Hd1 & _). split.
  - rewrite <- app_assoc. apply sll_seg_app. exists tail. split.
    + eapply sll_seg_frame; [|exact Hs1]. intros y Hy. apply lookup_insert_ne. intros <-. apply (Hd1 tail Hy). left.
    + split; [done|]. split; [done|]. exists start. rewrite lookup_insert_eq. split; [done|].
      eapply sll_seg_frame; [|exact Hs2]. intros y Hy. apply lookup_insert_ne. intros <-.
      apply (Hd tail); [|done]. rewrite elem_of_app. right. left.
  - apply NoDup_app. split_and!; [|done|done]. apply NoDup_app. split_and!; [done|done|apply NoDup_singleton].
Qed.

(** *** [RemoveRange] *)
(** More objects are taken until there are [N]; [l] are there already. *)
Lemma wp_fetch_more cl N L c0 W0 end_ fuel (Q : Z * Z → Central H → Prop) : class_ok sm cl →
  (∀ l start c W, 1 ≤ zlen l ≤ N → cinv sm c W L → fetched c0 W0 cl l start end_ c W → Q (zlen l, start) c) →
  ∀ l start c W, 1 ≤ zlen l ≤ N → N - zlen l < Z.of_nat fuel → cinv sm c W L →
  fetched c0 W0 cl l start end_ c W → wp (sh_ab (H := H)) (fetch_more fuel cl (zlen l) N start) Q c.
Proof.
  intros Hcl HQ. induction fuel as [|fuel IH]; intros l start c W Hl Hfu Hc Hf; [lia|]. cbn [fetch_more].
  apply wp_if; intros HN; [apply Z.ltb_lt in HN|by apply wp_ret, (HQ l start c W)].
  apply wp_bind, (wp_FetchFromOneSpans c W L); [done|done|lia| |].
  { intros _. cbv iota beta. change (0 =? 0) with true. cbv iota. by apply wp_ret, (HQ l start c W). }
  intros l2 head tail c1 W1 Hl2 Hc1 (G1 & G2 & G3). destruct Hf as (F1 & F2 & F3). cbv iota beta.
  apply wp_if; intros Hz; [apply Z.eqb_eq in Hz; lia|].
  assert (∀ x, x ∈ l → held_class c W cl x) as Hheld by (intros x Hx; apply (mv_held _ _ _ _ _ _ _ F3); by right).
  assert (tail ∈ l2) as Htl by by apply last_Some_elem_of.
  assert (held_class c1 W1 cl tail) as Ht by (apply (mv_held _ _ _ _ _ _ _ G3); by right).
  assert (sll (memory c1) start l) as F1'.
  { eapply sll_frame; [|exact F1]. intros x Hx. apply (mv_mem _ _ _ _ _ _ _ G3 x cl); [by apply Hheld|apply not_elem_of_nil]. }
  assert (sll (<[tail := start]> (memory c1)) head (l2 ++ l)) as Hs.
  { apply sll_append; [done..|]. intros x Hx Hx'. by apply (mv_fresh _ _ _ _ _ _ _ G3 x cl Hx), Hheld. }
  assert (head ≠ 0) as Hh by (intros ->; destruct G1 as [G1 _]; by destruct l2; [|destruct G1 as (<- & ? & _)]).
  destruct (cinv_mem c1 W1 L cl tail Hc1 Ht) as [w Hw].
  apply wp_bind. unfold wp at 1, SLL_PushRange, SLL_SetNext, lift. rewrite (proj2 (Z.eqb_neq head 0)) by done.
  rewrite Hw. cbn [mbind outcome_bind mret outcome_ret]. cbv iota beta. apply wp_bind, wp_act.
  replace (zlen l + zlen l2) with (zlen (l2 ++ l)) by (rewrite zlen_app; lia).
  assert (zlen (l2 ++ l) = zlen l2 + zlen l) as Ez by apply zlen_app.
  apply (IH (l2 ++ l) head _ W1); [lia|lia|by apply (cinv_write _ _ _ _ _ cl)|].
  split_and!; [exact Hs| |].
  - rewrite last_app, F2. done.
  - apply moved_write; [|by apply elem_of_app; left]. eapply moved_trans; [by right|exact F3|exact G3].
Qed.

Lemma wp_RemoveRange c W L cl N (Q : Z * Z * Z → Central H → Prop) : cinv sm c W L → class_ok sm cl → 0 < N →
  (∀ l start end_ c' W', zlen l ≤ N → cinv sm c' W' L →
     (if decide (l = []) then start = 0 ∧ no_span c cl ∧ kept c W c' W' else fetched c W cl l start end_ c' W') →
     Q (zlen l, start, end_) c') →
  wp (sh_ab (H := H)) (RemoveRange sm cl N) Q c.
Proof.
  intros Hc Hcl HN HQ. assert (0 ≤ cl < num_size_classes sm) as Hclr by (unfold class_ok in Hcl; lia).
  destruct (cinv_list sm Hsm _ _ _ _ Hc Hclr) as (Htl & f & Ef & Hf).
  unfold RemoveRange. apply wp_bind, wp_assert; [by apply Z.ltb_lt|].
  apply wp_bind, (wp_get_list _ _ f); [lia|done|].
  apply wp_bind, (wp_lift _ _ (cbatch sm cl)); [destruct Hf as [-> _]; by apply num_objects_to_move_ok|].
  apply wp_if; intros Hb.
  - apply andb_prop in Hb as [->%Z.eqb_eq Hu%Z.ltb_lt]. apply wp_bind, wp_put_list; [done|].
    apply wp_bind, wp_assert; [apply Z.leb_le; lia|].
    destruct (cinv_pop sm c W L cl f (set_used_slots f (used_slots_ f - 1)))
      as (e & l & Ee & C1 & C2 & C3 & Hc1 & Hm1); try done.
    { destruct Hf as (? & ? & ? & ?). unfold list_ok. simpl. split_and!; (done || lia). }
    apply wp_bind, (wp_lift _ _ e); [apply arr_get_ok; [lia|done]|]. apply wp_ret.
    rewrite <- C3. apply (HQ l e.1 e.2 _ (relocate l Held W)); [lia|done|].
    rewrite decide_False; [by split_and!|]. intros ->. done.
  - clear Hb. apply wp_bind, (wp_FetchFromOneSpansSafe c W L); [done..|].
    intros l start end_ c1 W1 Hl Hc1 Hor. cbv iota beta.
    apply wp_if; intros Hz; [apply Z.eqb_eq in Hz; apply wp_ret; by apply (HQ l start end_ c1 W1)|].
    apply Z.eqb_neq in Hz. rewrite decide_False in Hor by (by intros ->). pose proof (zlen_nonneg l).
    apply wp_bind, (wp_fetch_more cl N L c W end_) with (W := W1); [done| |lia|lia|done|done].
    intros l2 start2 c2 W2 Hl2 Hc2 Hf2. apply wp_ret, (HQ l2 start2 end_ c2 W2); [lia|done|].
    rewrite decide_False; [done|]. intros ->. unfold zlen in Hl2. simpl in Hl2. lia.
Qed.
End fetch.
