(* ===== verification/CentralInit.v ===== *)
(** * Central free lists: the start of the program

    The size classes that [SizeMap::Init] computes are the ones the central lists rely
    on, and the lists that [Static::InitStaticVars] sets up satisfy the invariant. *)
From stdpp Require Import base numbers list option gmap sets fin_maps fin_map_dom list_numbers.
From Stdlib Require Import ZArith Lia.
From S2P Require Import Prelude SizeMap PackedCache SpanList SpanHeap CentralFreeList CentralLists.
From S2P Require Import CentralSpec CentralCaches.
Open Scope Z_scope.

(** ** The size classes *)
Lemma sizes_ok_computed sm transfer : 1 ≤ transfer → map_ok sm →
  computed (num_size_classes sm) (class_to_size_ sm) (class_to_pages_ sm) → zlen (num_objects_to_move_ sm) = kClassSizesMax →
  (∀ c, 1 ≤ c < num_size_classes sm → num_objects_to_move_ sm @! c = Z.min transfer (Z.max 2 (65536 / class_to_size_ sm @! c))) →
  sizes_ok sm.
Proof.
  intros Ht Hm Hcomp Hl Hmv. pose proof (map_wf _ Hm) as Hwf. destruct (wf_count _ _ Hwf) as [Hn1 Hn2].
  split; [lia|]. intros cl Hcl. pose proof (wf_increasing _ _ Hwf cl Hcl) as Hinc.
  pose proof (wf_range _ _ (cl - 1) Hwf ltac:(lia)) as Hprev. pose proof (wf_range _ _ cl Hwf ltac:(lia)) as Hmax.
  destruct (wf_granularity _ _ Hwf cl ltac:(lia)) as [Hmod _].
  pose proof (comp_good _ _ _ Hcomp cl Hcl) as Hg. unfold class_good in Hg. rewrite !andb_true_iff in Hg.
  destruct Hg as [[[_ [[Hp1%Z.ltb_lt Hp2%Z.ltb_lt] Hcnt%Z.ltb_lt]] _] Hfit%Z.leb_le].
  rewrite Z.shiftl_mul_pow2, Z.mul_comm in Hcnt, Hfit by done. change (2 ^ kPageShift) with 8192 in *.
  change kClassSizesMax with 96 in *. pose proof (wf_length _ _ Hwf) as L1. pose proof (comp_pages _ _ _ Hcomp) as L2.
  change kClassSizesMax with 96 in L1, L2, Hl. specialize (Hmv cl Hcl).
  assert (8 ≤ class_to_size_ sm @! cl) as H8 by (apply Z.mod_divide in Hmod as [k Hk]; [|done]; lia).
  eexists _, _, _. unfold zlen in *.
  split; [apply list_lookup_lookup_total_lt; lia..| | | | | | |].
  all: try done; try lia.
  - rewrite Hmv. pose proof (Z.div_le_upper_bound 65536 (class_to_size_ sm @! cl) 8192). lia.
  - rewrite Hmv. set (size := class_to_size_ sm @! cl) in *. pose proof (Z.mul_div_le 65536 size).
    assert (0 < size) by lia. change kMaxSize with 262144 in *.
    generalize dependent (65536 / size). nia.
Qed.
Lemma sizes_ok_Init flag env fuel :
  1 ≤ InitTCMallocTransferNumObjects flag env → 33000 ≤ Z.of_nat fuel →
  ∃ sm, SizeMap_Init fuel (InitTCMallocTransferNumObjects flag env) SizeMap_static = Ok sm ∧ sizes_ok sm.
Proof.
  intros Ht Hf. destruct (SizeMap_Init_computed fuel (InitTCMallocTransferNumObjects flag env)) as (sm & E & Hm & Hcomp & Hl & Hmv); [lia|done|].
  exists sm. split; [done|]. by apply (sizes_ok_computed sm (InitTCMallocTransferNumObjects flag env)).
Qed.

(** ** The lists *)
Section init.
Context {H : Type} `{SpanHeap H} `{!SpanHeapLaws H}.
Variable sm : SizeMap.
Implicit Types (c : Central H) (cc : list CentralFreeList) (f : CentralFreeList) (st : links).

(** The lists of the classes below [i] are set up, and empty. *)
Definition fresh_list f cl : Prop := list_ok f cl ∧ used_slots_ f = 0 ∧ counter_ f = 0 ∧ num_spans_ f = 0.
Record ready i cc st : Prop := {
  rd_length : zlen cc = kClassSizesMax;
  rd_done cl : 0 ≤ cl < i → ∃ f, cc !! Z.to_nat cl = Some f ∧ fresh_list f cl;
  rd_slots k f : cc !! k = Some f → zlen (tc_slots_ f) = kMaxNumTransferEntries;
  rd_links : spans_listed i st ∅ ∅;
}.
Lemma ready_static : ready 0 (replicate (Z.to_nat kClassSizesMax) CFL_static) (gset_to_gmap (0, 0) (list_heads 0)).
Proof.
  split; [done|lia|by intros k f [-> _]%lookup_replicate|]. exists ∅. split; [|lia|by intros h [? ?]|by intros p cl b ?].
  split; [done|done| |done]. intros p Hp. rewrite (left_id_L ∅ (∪)) in Hp. by rewrite lookup_gset_to_gmap_Some.
Qed.
(** The heads of one more class. *)
Lemma listed_init i st : spans_listed i st ∅ ∅ → 0 ≤ i < kClassSizesMax → ∃ st1 st2,
  DLL_Init st (empty_ i) = Ok st1 ∧ DLL_Init st1 (nonempty_ i) = Ok st2 ∧ spans_listed (i + 1) st2 ∅ ∅.
Proof.
  intros (lists & [L1 L2 L3 L4]) Hi. rewrite (left_id_L ∅ (∪)) in L1.
  assert (∀ cl b, list_of cl b ∈ list_heads i ↔ i ≤ cl < kClassSizesMax) as Hin.
  { intros cl b. rewrite elem_of_heads. split; [|intros Hcl; by exists cl, b].
    by intros (cl' & b' & Hcl & [-> ->]%list_of_inj). }
  destruct (rep_Init _ _ _ L1 (list_of i true)) as (st1 & E1 & R1); [apply Hin; lia|].
  assert (list_of i true ≠ list_of i false) as Hne by (by intros [_ ?]%list_of_inj).
  destruct (rep_Init _ _ _ R1 (list_of i false)) as (st2 & E2 & R2).
  { apply elem_of_difference. rewrite elem_of_singleton. split; [apply Hin; lia|done]. }
  exists st1, st2. split; [done|]. split; [done|].
  replace ((list_heads i ∖ {[list_of i true]}) ∖ {[list_of i false]}) with (∅ ∪ list_heads (i + 1)) in R2.
  2: { apply set_eq. intros d. rewrite (left_id_L ∅ (∪)), !elem_of_difference, !elem_of_singleton, !elem_of_heads. split.
       - intros (cl & b & Hcl & ->). split_and!; [exists cl, b; split; [lia|done]|..]; intros [-> _]%list_of_inj; lia.
       - intros [[(cl & b & Hcl & ->) H1] H2]. exists cl, b. split; [|done].
         assert (cl ≠ i); [|lia]. intros ->. by destruct b. }
  eexists. split; [exact R2|..].
  - intros cl b Hcl. destruct (decide (cl = i)) as [->|Hn].
    + exists []. split; [|intros p; split; [by intros ?%not_elem_of_nil|done]].
      destruct b; [by rewrite lookup_insert_ne, lookup_insert_eq|by rewrite lookup_insert_eq].
    + rewrite !lookup_insert_ne by (by intros [? _]%list_of_inj). apply L2. lia.
  - intros h [l Hl]. rewrite !lookup_insert_Some in Hl. destruct Hl as [[<- _]|[_ [[<- _]|[_ Hl]]]].
    + exists i, false. split; [lia|done].
    + exists i, true. split; [lia|done].
    + destruct (L3 h) as (cl & b & Hcl & ->); [by eexists|]. exists cl, b. split; [lia|done].
  - done.
Qed.

(** The slots of a class: 64 for class 0, which is not used. *)
Definition slots_for i n : Prop := if 0 <? i then slots_for_class sm i = Ok n else n = kMaxNumTransferEntries.
Lemma slots_ok_for i n c : slots_for i n →
  (if 0 <? i then lift (slots_for_class sm i) else mret kMaxNumTransferEntries) c = Ok (n, c).
Proof. unfold slots_for, lift. destruct (0 <? i); [by intros ->|by intros ->]. Qed.
Lemma on_list_ok cl g f c : 0 ≤ cl < zlen (central_cache c) → central_cache c !! Z.to_nat cl = Some f →
  on_list cl g c = Ok (tt, with_cache c (<[Z.to_nat cl := g f]> (central_cache c))).
Proof.
  intros Hcl Ef. unfold on_list. erewrite M_bind_ok; [|unfold get_list, lift; rewrite (arr_get_ok _ _ f) by (lia || done); done].
  unfold put_list. by rewrite arr_set_ok.
Qed.
Lemma on_links_ok g st c : g (span_lists c) = Ok st → on_links g c = Ok (tt, with_lists c st).
Proof. unfold on_links. by intros ->. Qed.
(** The lists of a class before its sizes are known. *)
Lemma init_heads i cc st : ready i cc st → 0 ≤ i < kClassSizesMax → ∃ st1 st2 f,
  DLL_Init st (empty_ i) = Ok st1 ∧ DLL_Init st1 (nonempty_ i) = Ok st2 ∧ spans_listed (i + 1) st2 ∅ ∅ ∧
  0 ≤ i < zlen cc ∧ cc !! Z.to_nat i = Some f.
Proof.
  intros [R1 R2 R3 R4] Hi. destruct (listed_init i st R4 Hi) as (st1 & st2 & E1 & E2 & Hst).
  destruct (lookup_lt_is_Some_2 cc (Z.to_nat i)) as [f Ef]; [unfold zlen in R1; lia|].
  exists st1, st2, f. split_and!; (done || lia).
Qed.
Lemma CentralFreeList_Init_ok i cc st m S k r (h : H) n : ready i cc st →
  0 ≤ i < kClassSizesMax → slots_for i n → 1 ≤ n ≤ kMaxNumTransferEntries →
  ∃ cc' st', CentralFreeList_Init sm i (mkCentral cc r st S m k h) = Ok (tt, mkCentral cc' r st' S m k h) ∧
    ready (i + 1) cc' st'.
Proof.
  intros Hr Hi Hn Hnr. destruct (init_heads i cc st Hr Hi) as (st1 & st2 & f & E1 & E2 & Hst & Hir & Ef).
  destruct Hr as [R1 R2 R3 R4]. assert (Z.to_nat i < length cc)%nat as Hin by (unfold zlen in Hir; lia).
  set (size := if 0 <? i then Z.min 16 n else 16). assert (0 ≤ size ≤ n) as Hsz.
  { unfold size, slots_for, kMaxNumTransferEntries in *. destruct (Z.ltb_spec 0 i); lia. }
  exists (<[Z.to_nat i := mkCFL i 0 0 (tc_slots_ f) 0 size n]> cc), st2. split.
  - unfold CentralFreeList_Init. erewrite M_bind_ok by by apply (on_list_ok i _ f).
    erewrite M_bind_ok by (by apply (on_links_ok _ st1)). erewrite M_bind_ok by (by apply (on_links_ok _ st2)).
    erewrite M_bind_ok by (by apply (slots_ok_for i n)). fold size.
    erewrite M_bind_ok by (eapply on_list_ok; [simpl; by rewrite zlen_insert|by apply list_lookup_insert_eq]).
    simpl. rewrite list_insert_insert_eq. unfold ASSERT, lift. by rewrite (proj2 (Z.leb_le size n)) by lia.
  - split; [by rewrite zlen_insert| | |done].
    + intros cl Hcl. destruct (decide (cl = i)) as [->|Hne].
      * eexists. split; [by apply list_lookup_insert_eq|]. unfold fresh_list, list_ok. simpl.
        split_and!; try done; try lia. by apply (R3 _ _ Ef).
      * rewrite list_lookup_insert_ne by lia. apply R2. lia.
    + intros j g Hg. destruct (decide (j = Z.to_nat i)) as [->|Hne].
      * rewrite list_lookup_insert_eq in Hg by done. injection Hg as <-. by apply (R3 _ _ Ef).
      * rewrite list_lookup_insert_ne in Hg by done. by apply (R3 j).
Qed.
Hypothesis Hsm : sizes_ok sm.
Lemma slots_for_class_ok cl : class_ok sm cl → ∃ n, slots_for_class sm cl = Ok n ∧ 1 ≤ n ≤ kMaxNumTransferEntries.
Proof.
  intros Hcl. destruct (class_sizes_of sm Hsm cl Hcl) as [E1 E2 E3 Hs _ _ _ _ Hb Hm]. unfold slots_for_class.
  change kMaxSize with 262144 in Hs. rewrite ByteSizeForClass_ok, num_objects_to_move_ok by done. cbn [mbind outcome_bind].
  rewrite to_int_small by (unfold INT_MAX; lia).
  rewrite (proj2 (Z.ltb_lt _ _)), (proj2 (Z.ltb_lt _ _)) by lia. cbn [check andb mbind outcome_bind].
  rewrite i32_ok by (unfold INT_MIN, INT_MAX; nia). cbn [mbind outcome_bind]. unfold c_div.
  rewrite (proj2 (Z.eqb_neq _ _)) by nia. cbn [mbind outcome_bind]. eexists. split; [done|].
  unfold kMaxNumTransferEntries. lia.
Qed.
Lemma init_lists_ok r S m k (h : H) n : ∀ i cc st, ready i cc st → 0 ≤ i → i + Z.of_nat n ≤ num_size_classes sm →
  ∃ cc' st', init_lists sm n i (mkCentral cc r st S m k h) = Ok (tt, mkCentral cc' r st' S m k h) ∧
    ready (i + Z.of_nat n) cc' st'.
Proof.
  induction n as [|n IH]; intros i cc st Hr Hi Hn; cbn [init_lists].
  - exists cc, st. split; [done|]. by rewrite Z.add_0_r.
  - assert (∃ k, slots_for i k ∧ 1 ≤ k ≤ kMaxNumTransferEntries) as (k' & Hk & Hkr).
    { unfold slots_for. destruct (Z.ltb_spec 0 i); [|by exists kMaxNumTransferEntries].
      apply slots_for_class_ok. unfold class_ok. lia. }
    pose proof (so_classes _ Hsm) as [_ Hmax].
    destruct (CentralFreeList_Init_ok i cc st m S k r h k') as (cc1 & st1 & E & Hr1); [done|lia|done|done|].
    destruct (IH (i + 1) cc1 st1 Hr1) as (cc2 & st2 & E2 & Hr2); [lia|lia|]. exists cc2, st2.
    rewrite (M_bind_ok _ _ _ _ _ E). split; [exact E2|].
    by replace (i + Z.of_nat (Datatypes.S n)) with (i + 1 + Z.of_nat n) by lia.
Qed.
(** Before the first span has a size class, the lists are empty and nobody has objects. *)
Lemma InitCentral_ok h : sh_good h → (∀ p u, sh_used h !! p = Some u → u_class u = 0) →
  ∃ c, InitCentral sm (central_static h) = Ok (tt, c) ∧ pageheap c = h ∧ cinv sm c ∅ ∅.
Proof.
  intros Hg Hlarge. pose proof (num_classes_nonneg sm Hsm) as Hn.
  destruct (init_lists_ok 0 ∅ ∅ Clear h (Z.to_nat (num_size_classes sm)) 0 _ _ ready_static) as (cc & st & E & Hr);
    [done|rewrite Z2Nat.id by done; lia|]. eexists. split; [exact E|]. clear E. split; [done|].
  rewrite Z2Nat.id, Z.add_0_l in Hr by done. destruct Hr as [R1 R2 R3 R4].
  assert (classed (sh_used h) = ∅) as Ecl.
  { apply map_eq. intros p. rewrite lookup_empty. apply eq_None_not_Some. intros [u Hu].
    apply classed_lookup in Hu as [Hu Hne]. by apply Hne, (Hlarge p). }
  assert (kinds ∅ ∅ = ∅) as Ek by (apply map_eq; intros p; unfold kinds; by rewrite map_lookup_zip_with).
  split; simpl; rewrite ?Ecl, ?Ek; try done.
  - split; try done; intros p; rewrite !lookup_empty; split; by intros [? ?].
  - split; [done| | |done].
    + intros cl Hcl. destruct (R2 cl Hcl) as (f & Ef & Hf & _). by exists f.
    + intros cl f i Hcl Ef Hi. destruct (R2 cl Hcl) as (f' & Ef' & _ & Hu & _).
      assert (f = f') as -> by congruence. lia.
  - intros cl f Hcl Ef. destruct (R2 cl Hcl) as (f' & Ef' & _ & _ & E1 & E2).
    assert (f = f') as -> by congruence. by rewrite E1, E2, !wsum_empty.
  - exists table_empty. split; [apply Clear_spec|]. by split.
Qed.
End init.

(** ** A flag that stops the program *)
Section zero_transfer.
Context {H : Type} `{SpanHeap H} `{!SpanHeapLaws H}.

Lemma slots_for_class_zero sm cl bytes : 0 ≤ cl → class_to_size_ sm !! Z.to_nat cl = Some bytes →
  num_objects_to_move_ sm !! Z.to_nat cl = Some 0 → slots_for_class sm cl = Throws Aborted.
Proof.
  intros Hcl E1 E2. unfold slots_for_class, ByteSizeForClass, num_objects_to_move.
  by rewrite (arr_get_ok (class_to_size_ sm) cl bytes), (arr_get_ok (num_objects_to_move_ sm) cl 0).
Qed.
(** With TCMALLOC_TRANSFER_NUM_OBJ=0 in the environment the size classes are set up,
    and then the program stops at the assertion of [CentralFreeList::Init] that some
    objects are moved at a time; without assertions it divides by zero there. *)
Theorem zero_transfer_flag_aborts fuel (h : H) : 33000 ≤ Z.of_nat fuel →
  ∃ sm, SizeMap_Init fuel (InitTCMallocTransferNumObjects 0 (Some 0)) SizeMap_static = Ok sm ∧
    InitCentral sm (central_static h) = Throws Aborted.
Proof.
  intros Hf. destruct (SizeMap_Init_computed fuel 0 ltac:(done) Hf) as (sm & E & Hm & _ & Hl & Hmv).
  exists sm. split; [exact E|]. destruct (wf_count _ _ (map_wf _ Hm)) as [Hn1 Hn2].
  pose proof (wf_length _ _ (map_wf _ Hm)) as Hlen. specialize (Hmv 1 ltac:(lia)). unfold zlen in Hl, Hlen.
  change kClassSizesMax with 96 in Hl, Hlen.
  destruct (lookup_lt_is_Some_2 (class_to_size_ sm) (Z.to_nat 1)) as [bytes Eb]; [lia|].
  assert (slots_for_class sm 1 = Throws Aborted) as Es.
  { apply slots_for_class_zero with bytes; [done|done|]. rewrite list_lookup_lookup_total_lt by lia. f_equal. lia. }
  unfold InitCentral. replace (Z.to_nat (num_size_classes sm)) with (S (S (Z.to_nat (num_size_classes sm - 2)))) by lia.
  cbn [init_lists]. destruct (CentralFreeList_Init_ok (H := H) sm 0 _ _ ∅ ∅ Clear 0 h kMaxNumTransferEntries ready_static)
    as (cc & st & E0 & Hr); [done..|]. unfold central_static. rewrite (M_bind_ok _ _ _ _ _ E0). clear E0.
  destruct (init_heads _ cc st Hr) as (st1 & st2 & f & E1 & E2 & _ & Hir & Ef); [done|].
  rewrite (M_bind_throws _ _ _ Aborted); [done|]. change (0 + 1) with 1 in *. unfold CentralFreeList_Init.
  erewrite M_bind_ok by by apply (on_list_ok 1 _ f). erewrite M_bind_ok by (by apply (on_links_ok _ st1)).
  erewrite M_bind_ok by (by apply (on_links_ok _ st2)).
  change (0 <? 1) with true. cbv iota. rewrite (M_bind_throws _ _ _ Aborted); [done|]. unfold lift. by rewrite Es.
Qed.
End zero_transfer.
