(* ===== verification/CentralPool.v ===== *)
(** * Central free lists: what they promise

    To a client the central lists are a pool: the objects it holds, each with its
    size class.  It takes chains of objects, gives chains back, and writes into the
    objects it holds, in any order; the lists and the page heap below them do what
    the pool says. *)
From stdpp Require Import base numbers list option gmap sets fin_maps fin_map_dom.
From Stdlib Require Import ZArith Lia.
From S2P Require Import Prelude SizeMap PackedCache SpanList SpanHeap CentralFreeList CentralLists.
From S2P Require Import CentralSpec CentralCaches CentralFetch CentralInit.
Open Scope Z_scope.

(** The class of each object that clients hold. *)
Abbreviation pool := (gmap Z Z).
Definition pool_add (l : list Z) (cl : Z) (P : pool) : pool := foldr (λ x, <[x := cl]>) P l.
Definition pool_remove (l : list Z) (P : pool) : pool := filter (λ kv, kv.1 ∉ l) P.

(** What a client does; [PoolWrite] stores to the first word of an object. *)
Inductive pool_op :=
  | PoolRemove (cl N : Z)
  | PoolInsert (cl start end_ N : Z)
  | PoolWrite (x v : Z).

(** Between two states of the memory and the pool; [r] is the number of objects, the
    first and the last. *)
Definition objects_step (P : pool) (m : words) (o : pool_op) (r : Z * Z * Z) (P' : pool) (m' : words) : Prop :=
  match o with
  | PoolRemove cl N => ∃ l, sll m' r.1.2 l ∧ zlen l = r.1.1 ∧ zlen l ≤ N ∧ (l ≠ [] → last l = Some r.2) ∧
      (∀ x, x ∈ l → P !! x = None) ∧ P' = pool_add l cl P ∧ ∀ x, is_Some (P !! x) → m' !! x = m !! x
  | PoolInsert cl start _ _ => ∃ l, sll m start l ∧ P' = pool_remove l P ∧ ∀ x, is_Some (P' !! x) → m' !! x = m !! x
  | PoolWrite x v => P' = P ∧ m' = <[x := v]> m
  end.

Lemma lookup_pool_add l cl P x : pool_add l cl P !! x = if decide (x ∈ l) then Some cl else P !! x.
Proof.
  induction l as [|y l IH]; cbn [pool_add foldr]; [rewrite decide_False; [done|apply not_elem_of_nil]|].
  change (foldr _ P l) with (pool_add l cl P). destruct (decide (x = y)) as [->|Hne].
  - rewrite lookup_insert_eq, decide_True; [done|left].
  - rewrite lookup_insert_ne, IH by done. repeat case_decide; set_solver.
Qed.
Lemma lookup_pool_remove l P x cl : pool_remove l P !! x = Some cl ↔ P !! x = Some cl ∧ x ∉ l.
Proof. unfold pool_remove. by rewrite map_lookup_filter_Some. Qed.
(** A chain is determined by its first object. *)
Lemma sll_fun m l1 l2 h : sll m h l1 → sll m h l2 → l1 = l2.
Proof.
  intros [H1 _] [H2 _]. revert l2 h H1 H2. induction l1 as [|x l1 IH]; intros [|y l2] h H1 H2; [done|..].
  - simpl in H1. destruct H2 as (-> & ? & _). lia.
  - simpl in H2. destruct H1 as (-> & ? & _). lia.
  - destruct H1 as (-> & _ & n & En & H1), H2 as (<- & _ & n' & En' & H2). f_equal. apply (IH l2 n); [done|].
    by replace n with n' by congruence.
Qed.
Lemma objects_step_fun P m o r P1 P2 m' : objects_step P m o r P1 m' → objects_step P m o r P2 m' → P1 = P2.
Proof.
  destruct o as [cl N|cl start end_ N|x v]; simpl.
  - intros (l1 & H1 & _ & _ & _ & _ & -> & _) (l2 & H2 & _ & _ & _ & _ & -> & _). by rewrite (sll_fun _ _ _ _ H1 H2).
  - intros (l1 & H1 & -> & _) (l2 & H2 & -> & _). by rewrite (sll_fun _ _ _ _ H1 H2).
  - by intros [-> _] [-> _].
Qed.

Section pool.
Context {H : Type} `{SpanHeap H} `{!SpanHeapLaws H}.
Variable sm : SizeMap.
Variable fuel : nat.
Implicit Types (c : Central H) (P : pool).

Definition run_pool (o : pool_op) : M (Central H) (Z * Z * Z) :=
  match o with
  | PoolRemove cl N => RemoveRange sm cl N
  | PoolInsert cl start end_ N => _ ← InsertRange sm fuel cl start end_ N; mret (0, 0, 0)
  | PoolWrite x v => _ ← write_word x v; mret (0, 0, 0)
  end.
(** What a client may do: it gives back a chain of [N] objects of a class, linked by
    their first words, and writes to what it holds. *)
Definition pool_ok P (m : words) (o : pool_op) : Prop :=
  match o with
  | PoolRemove cl N => 1 ≤ cl < num_size_classes sm ∧ 0 < N
  | PoolInsert cl start end_ N => N < Z.of_nat fuel ∧ ∃ l, sll m start l ∧ last l = Some end_ ∧ zlen l = N ∧
      ∀ x, x ∈ l → P !! x = Some cl
  | PoolWrite x _ => is_Some (P !! x)
  end.
(** Objects do not overlap: each has the bytes of its class. *)
Definition separate P : Prop := ∀ x y cl cl', P !! x = Some cl → P !! y = Some cl' → x < y → x + csize sm cl ≤ y.

(** The states the central lists go through, from the start of the program. *)
Inductive pool_reachable : Central H → pool → Prop :=
  | pool_start h c : sh_good h → (∀ p u, sh_used h !! p = Some u → u_class u = 0) →
      InitCentral sm (central_static h) = Ok (tt, c) → pool_reachable c ∅
  | pool_next c P o r c' P' : pool_reachable c P → pool_ok P (memory c) o → run_pool o c = Ok (r, c') →
      objects_step P (memory c) o r P' (memory c') → pool_reachable c' P'.

Hypothesis Hsm : sizes_ok sm.
Hypothesis fuel_enough : 2 ^ 17 < Z.of_nat fuel.
Lemma fuel_chains : chain_fuel sm fuel.
Proof. intros cl Hcl. destruct (class_sizes_of sm Hsm cl Hcl). nia. Qed.

(** [L] are the large spans that other clients of the page heap hold. *)
Definition pool_rep (L : gmap Z use) c P : Prop := ∃ W, cinv sm c W L ∧ ∀ x cl, P !! x = Some cl ↔ held_class c W cl x.

Lemma wp_run_pool L c P o : pool_rep L c P → pool_ok P (memory c) o →
  wp (sh_ab (H := H)) (run_pool o) (λ r c', ∃ P', pool_rep L c' P' ∧ objects_step P (memory c) o r P' (memory c') ∧
    match o with PoolRemove cl _ => r.1.1 = 0 → no_span sm c cl | _ => True end) c.
Proof.
  intros (W & Hc & HP) Hok. destruct o as [cl N|cl start end_ N|x v]; cbn [run_pool].
  - destruct Hok as [Hcl HN]. apply (wp_RemoveRange sm Hsm c W L cl N); [done..|].
    intros l start end_ c' W' Hl Hc' Hor. exists (pool_add l cl P).
    assert (moved c W [] cl l c' W' ∧ sll (memory c') start l ∧ (l ≠ [] → last l = Some end_) ∧
      (l = [] → no_span sm c cl)) as (Hm & Hs & Hlast & Hno).
    { case_decide as El; [|destruct Hor as (? & ? & ?); by split_and!].
      destruct Hor as (-> & Hno & Hk). subst l. split_and!; try done. by apply sll_nil. }
    clear Hor. assert (∀ x, x ∈ l → P !! x = None) as Hfresh.
    { intros x Hx. apply eq_None_not_Some. intros [cl' Hx']. apply HP in Hx'. by apply (mv_fresh _ _ _ _ _ _ _ Hm x cl'). }
    split; [exists W'; split; [done|]|split].
    + intros x cl'. rewrite lookup_pool_add, (mv_held _ _ _ _ _ _ _ Hm), <- HP. assert (x ∉ []) by apply not_elem_of_nil.
      case_decide as Hx; [rewrite (Hfresh x Hx)|]; naive_solver.
    + exists l. split_and!; try done. intros x [cl' Hx]. apply HP in Hx.
      apply (mv_mem _ _ _ _ _ _ _ Hm x cl' Hx), not_elem_of_nil.
    + simpl. intros Hz. apply Hno. by apply zlen_0_nil.
  - destruct Hok as (HN & l & Hs & Hlast & Hlen & Hl). assert (∀ x, x ∈ l → held_class c W cl x) as Hl' by (intros x Hx; by apply HP, Hl).
    assert (class_ok sm cl) as Hcl by (apply last_Some_elem_of in Hlast; by eapply cinv_class, Hl').
    apply wp_bind, (wp_InsertRange sm Hsm c W L cl fuel l start end_ N); try done.
    { apply fuel_chains. } { lia. } { unfold zlen in Hlen. lia. }
    intros c' W' Hc' Hm. apply wp_ret. exists (pool_remove l P). split; [exists W'; split; [done|]|split; [|done]].
    + intros x cl'. rewrite lookup_pool_remove, (mv_held _ _ _ _ _ _ _ Hm), <- HP. assert (x ∉ []) by apply not_elem_of_nil. tauto.
    + exists l. split_and!; try done. intros x [cl' [Hx Hn]%lookup_pool_remove]. apply HP in Hx.
      by apply (mv_mem _ _ _ _ _ _ _ Hm x cl' Hx).
  - destruct Hok as [cl Hx]. pose proof (proj1 (HP x cl) Hx) as Hh. apply wp_bind, wp_write_word; [by apply (cinv_mem sm c W L cl x)|].
    apply wp_ret. exists P. split; [|done]. exists W. split; [by apply (cinv_write sm c W L x v cl)|done].
Qed.
Lemma pool_reachable_rep c P : pool_reachable c P → pool_rep ∅ c P.
Proof.
  induction 1 as [h c Hg Hlarge E|c P o r c' P' _ IH Hok E Hstep].
  - destruct (InitCentral_ok sm Hsm h Hg Hlarge) as (c' & E' & _ & Hc). rewrite E in E'. injection E' as <-. exists ∅. split; [done|]. intros x cl. rewrite lookup_empty.
    split; [done|]. intros (p & u & Hx & _). by rewrite lookup_empty in Hx.
  - pose proof (wp_run_pool ∅ c P o IH Hok) as Hwp. unfold wp in Hwp. rewrite E in Hwp.
    destruct Hwp as (P1 & Hrep & Hstep1 & _). by rewrite (objects_step_fun _ _ _ _ _ _ _ Hstep Hstep1).
Qed.
Lemma pool_rep_separate L c P : pool_rep L c P → separate P.
Proof.
  intros (W & Hc & HP) x y cl cl' (p & u & Hx & Hu & <-)%HP (q & v & Hy & Hv & <-)%HP Hlt.
  destruct (outside_intro sm Hsm c W L x p Held Hc Hx) as (u' & s & f & [_ _ U1 _ _ _ _ U2 U3 _ _]); [done|].
  destruct (outside_intro sm Hsm c W L y q Held Hc Hy) as (v' & t & g & [_ _ V1 _ _ _ _ V2 V3 _ _]); [done|].
  assert (u' = u) as -> by congruence. assert (v' = v) as -> by congruence.
  destruct (decide (p = q)) as [->|Hne]; [assert (v = u) as -> by congruence; by apply (objs_apart sm Hsm u)|].
  pose proof (object_in_pages sm Hsm u x U2 U3) as [Hx1 Hx2]. pose proof (object_in_pages sm Hsm v y V2 V3) as [Hy1 Hy2].
  pose proof (csize_pos sm Hsm v V2). pose proof (csize_pos sm Hsm u U2).
  assert (u_start u + u_pages u ≤ u_start v); [|lia]. apply Z.nlt_ge. intros Hov.
  pose proof (sh_apart _ (ci_heap _ _ _ _ Hc) p q u v (Z.max (u_start u) (u_start v)) U1 V1) as Hap.
  apply Hne, Hap; unfold has_page; lia.
Qed.
Lemma central_pool_step c P o : pool_reachable c P → pool_ok P (memory c) o →
  match run_pool o c with
  | Ok (r, c') => ∃ P', objects_step P (memory c) o r P' (memory c') ∧ pool_reachable c' P'
  | _ => True
  end.
Proof.
  intros Hr Hok. pose proof (wp_run_pool ∅ c P o (pool_reachable_rep c P Hr) Hok) as Hwp. unfold wp in Hwp.
  destruct (run_pool o c) as [[r c']| | |] eqn:E; try done. destruct Hwp as (P' & _ & Hstep & _).
  exists P'. split; [done|]. by eapply pool_next.
Qed.

(** What the functions that free memory find out from an address inside an object. *)
Record found c x cl y p u (k : option Z) : Prop := {
  fd_span : MapObjectToSpan y c = Ok (p, c);
  fd_load : load_span p c = Ok (u, c);
  fd_cached : TryGetSizeClass (Z.shiftr y kPageShift) c = Ok (k, c);
  fd_hit : k = None ∨ k = Some cl;
  fd_class : u_class u = cl;
  fd_use : small_use sm u;
  fd_object : x ∈ objs sm u;
  fd_page : has_page u (Z.shiftr y kPageShift);
  fd_pos : 0 < p;
}.
Lemma object_found L c P x cl y : pool_rep L c P → P !! x = Some cl → x ≤ y < x + csize sm cl → ∃ p u k, found c x cl y p u k.
Proof.
  clear fuel_enough fuel.
  intros (W & Hc & HP) Hx Hy. apply HP in Hx as (p & u & Hx & Hu & <-).
  destruct (outside_intro sm Hsm c W L x p Held Hc Hx) as (u' & s & f & [_ _ U1 _ _ _ Hcl U2 U3 [Hp _] _]); [done|].
  assert (u' = u) as -> by congruence. pose proof (object_in_pages sm Hsm u x U2 U3).
  pose proof (ci_heap _ _ _ _ Hc) as Hg. destruct (sh_range _ _ _ Hg Hu) as (_ & Hst & _ & Hend).
  assert (has_page u (Z.shiftr y kPageShift)) as Hpg.
  { rewrite Z.shiftr_div_pow2 by done. change (2 ^ kPageShift) with 8192. unfold has_page.
    split; [apply Z.div_le_lower_bound|apply Z.div_lt_upper_bound]; lia. }
  assert (u_class u ≠ 0) as Hcl0 by (unfold class_ok in Hcl; lia).
  destruct (ci_cache _ _ _ _ Hc) as (t & Ht & [Hent _ _]). exists p, u, (table_get t (Z.shiftr y kPageShift)). split; try done.
  - unfold MapObjectToSpan, lift. rewrite (sh_descriptor_spec _ p u); [done..|by left].
  - unfold load_span, lift. by rewrite (sh_load_spec _ _ _ Hg Hu).
  - unfold TryGetSizeClass, lift. rewrite (TryGet_spec _ _ t); [done..|]. unfold key_ok, has_page in *. lia.
  - destruct (table_get t (Z.shiftr y kPageShift)) as [v|] eqn:E; [right|by left]. f_equal. by apply (Hent p u (Z.shiftr y kPageShift)).
Qed.

(** ** The properties *)
(** C12. The central free lists, in any state that clients can bring them to from the
    start of the program, do a step of the pool: [RemoveRange] gives a chain of at
    most the objects asked for, of which nobody had any, and none only when the page
    heap has no span; [InsertRange] takes a chain back; the objects that clients keep
    hold what they held, and no two overlap.  No assertion fails and no memory outside
    of the spans is read or written; the program stops only where the page heap stops it. *)
Theorem central_refines_pool c P o : pool_reachable c P → pool_ok P (memory c) o →
  match run_pool o c with
  | Ok (r, c') => ∃ P', objects_step P (memory c) o r P' (memory c') ∧ pool_reachable c' P' ∧ separate P' ∧
      match o with PoolRemove cl _ => r.1.1 = 0 → no_span sm c cl | _ => True end
  | Throws OutOfMemory => True
  | Throws Aborted => sh_ab (H := H)
  | _ => False
  end.
Proof.
  intros Hr Hok. pose proof (wp_run_pool ∅ c P o (pool_reachable_rep c P Hr) Hok) as Hwp. unfold wp in Hwp.
  destruct (run_pool o c) as [[r c']| |[]|] eqn:E; try done. destruct Hwp as (P' & Hrep & Hstep & Hno).
  exists P'. split; [done|]. split; [by eapply pool_next|]. split; [by eapply pool_rep_separate|done].
Qed.

(** C13. From any address inside an object that a client holds, the page map leads to the
    span of the object, which has the class of the object, and the cache of size
    classes gives this class or none: what the functions that free memory rely on. *)
Theorem object_class_is_found c P x cl y : pool_reachable c P → P !! x = Some cl → x ≤ y < x + csize sm cl →
  ∃ p u k, MapObjectToSpan y c = Ok (p, c) ∧ load_span p c = Ok (u, c) ∧ u_class u = cl ∧ x ∈ objs sm u ∧
    GetSizeClassOrZero (Z.shiftr y kPageShift) c = Ok (k, c) ∧ (k = 0 ∨ k = cl).
Proof.
  intros Hr Hx Hy. destruct (object_found ∅ c P x cl y (pool_reachable_rep c P Hr) Hx Hy) as (p & u & k & [F1 F2 F3 F4 F5 F6 F7 F8 F9]).
  exists p, u, (default 0 k). split_and!; try done.
  - unfold GetSizeClassOrZero. by erewrite M_bind_ok by exact F3.
  - destruct F4 as [-> | ->]; [by left|by right].
Qed.
End pool.
