(* ===== verification/Sampler.v ===== *)
(** * The sampler: [libs/tcmalloc/src/sampler.{h,cc}]

    Each thread cache counts down the bytes until the next allocation that is
    sampled.  The gap comes from a generator of 48 bits and the logarithms of the C
    library, which are parameters; without sampling ([FLAGS_tcmalloc_sample_parameter]
    is 0) it is 16 MiB, and the allocation that exhausts it is not sampled. *)
From stdpp Require Import base numbers list.
From Stdlib Require Import ZArith Lia Floats.SpecFloat.
From S2P Require Import Prelude Doubles.
Open Scope Z_scope.

(** The conversion of 64 bits to [ssize_t], and its arithmetic. *)
Definition ssize (z : Z) : Z := let u := size_t z in if u <? 2 ^ 63 then u else u - 2 ^ 64.
Definition i64 (z : Z) : outcome Z :=
  if (- 2 ^ 63 <=? z) && (z <? 2 ^ 63) then Ok z else Undefined SignedOverflow.
Definition ssize_of_double (d : spec_float) : outcome Z :=
  match d with
  | S754_zero _ => Ok 0
  | S754_finite s m e =>
      let a := if 0 <=? e then Zpos m * 2 ^ e else Zpos m / 2 ^ (- e) in
      let z := if s then - a else a in
      if (- 2 ^ 63 <=? z) && (z <? 2 ^ 63) then Ok z else Undefined FloatToInt
  | S754_infinity _ | S754_nan => Undefined FloatToInt
  end.
(** [std::min<double>(a, b)]. *)
Definition double_min (a b : spec_float) : spec_float := if SFltb b a then b else a.

Definition MAX_SSIZE : Z := 2 ^ 63 - 1.

Record Sampler := mkSampler {
  bytes_until_sample_ : Z;
  rnd_ : Z;
  initialized_ : bool;
}.
(** In memory that holds zeroes. *)
Definition Sampler_zero : Sampler := mkSampler 0 0 false.

Definition NextRandom (rnd : Z) : Z :=
  Z.land (size_t (0x5DEECE66D * rnd + 0xB)) (Z.lnot (Z.shiftl (-1) 48)).

Section sampler.
(** [log2] and [log] of the C library. *)
Variables log2 log : spec_float → spec_float.
(** [FLAGS_tcmalloc_sample_parameter]. *)
Variable sample_parameter : Z.
Implicit Types (s : Sampler) (k : Z).

(** The gap for a state of the generator. *)
Definition interval (rnd : Z) : spec_float :=
  let q := SFadd 53 1024 (double_of_int (u32 (Z.shiftr rnd (48 - 26)))) (double_of_int 1) in
  double_mul (SFsub 53 1024 (log2 q) (double_of_int 26))
    (double_mul (SFopp (log (double_of_int 2))) (double_of_int sample_parameter)).
Definition PickNextSamplingPoint : M Sampler Z := λ s,
  if sample_parameter <=? 0 then Ok (Z.shiftl 16 20, s) else
  let rnd := NextRandom (rnd_ s) in
  n ← ssize_of_double (double_min (interval rnd) (double_of_int MAX_SSIZE));
  Ok (n, mkSampler (bytes_until_sample_ s) rnd (initialized_ s)).

Definition Sampler_Init (seed : Z) : M Sampler unit := λ s,
  _ ← check (negb (seed =? 0));
  let rnd := Nat.iter 20 NextRandom seed in
  '(n, s) ← PickNextSamplingPoint (mkSampler (bytes_until_sample_ s) rnd (initialized_ s));
  Ok (tt, mkSampler n (rnd_ s) (initialized_ s)).

(** [this] is the address of the sampler. *)
Definition RecordAllocationSlow (this k : Z) : M Sampler bool := λ s,
  let again s := '(n, s) ← PickNextSamplingPoint s;
    Ok (sample_parameter <=? 0, mkSampler n (rnd_ s) (initialized_ s)) in
  if negb (initialized_ s) then
    '(_, s) ← Sampler_Init this (mkSampler (bytes_until_sample_ s) (rnd_ s) true);
    if k <=? size_t (bytes_until_sample_ s)
    then Ok (true, mkSampler (ssize (bytes_until_sample_ s - k)) (rnd_ s) (initialized_ s))
    else again s
  else again s.
(** [inited]: [Static::IsInited()]. *)
Definition RecordAllocation (inited : bool) (this k : Z) : M Sampler bool := λ s,
  _ ← check (inited || (bytes_until_sample_ s =? 0));
  if size_t (bytes_until_sample_ s) <? k then
    '(result, s) ← RecordAllocationSlow this k s;
    _ ← check inited;
    Ok (result, s)
  else
    let s := mkSampler (ssize (bytes_until_sample_ s - k)) (rnd_ s) (initialized_ s) in
    _ ← check inited;
    Ok (true, s).
Definition TryRecordAllocationFast (k : Z) : M Sampler bool := λ s,
  _ ← check (0 <=? ssize k);
  b ← i64 (bytes_until_sample_ s - ssize k);
  if b <? 0
  then Ok (false, mkSampler (ssize (b + k)) (rnd_ s) (initialized_ s))
  else Ok (true, mkSampler b (rnd_ s) (initialized_ s)).
End sampler.

(** ** The generator *)
Lemma land_48 z : Z.land (size_t z) (Z.lnot (Z.shiftl (-1) 48)) = z mod 2 ^ 48.
Proof.
  change (Z.lnot (Z.shiftl (-1) 48)) with (Z.ones 48). rewrite Z.land_ones by lia. unfold size_t.
  change (2 ^ 64) with (2 ^ 48 * 2 ^ 16). rewrite Z.rem_mul_r by lia. rewrite Z.mul_comm, Z.mod_add by lia.
  apply Z.mod_mod. lia.
Qed.
Lemma NextRandom_mod rnd : NextRandom rnd = (0x5DEECE66D * rnd + 0xB) mod 2 ^ 48.
Proof. apply land_48. Qed.
Lemma NextRandom_range rnd : 0 ≤ NextRandom rnd < 2 ^ 48.
Proof. rewrite NextRandom_mod. apply Z.mod_pos_bound. lia. Qed.

Lemma ssize_id z : - 2 ^ 63 ≤ z < 2 ^ 63 → ssize z = z.
Proof.
  intros Hz. unfold ssize, size_t. destruct (Z.leb_spec 0 z).
  - rewrite Z.mod_small by lia. zcases; lia.
  - rewrite <- (Z.mod_add z 1) by lia. rewrite Z.mod_small by lia. zcases; lia.
Qed.
Lemma size_t_id z : 0 ≤ z < 2 ^ 64 → size_t z = z.
Proof. intros. unfold size_t. by rewrite Z.mod_small. Qed.

(** ** Counting *)
Section counting.
Variables log2 log : spec_float → spec_float.
Variable sample_parameter : Z.
Abbreviation pick := (PickNextSamplingPoint log2 log sample_parameter).
Abbreviation record := (RecordAllocation log2 log sample_parameter true).

Definition sampler_ok (s : Sampler) : Prop := 0 ≤ bytes_until_sample_ s < 2 ^ 63.
(** What the code counts on: the logarithms give gaps that are not negative and fit. *)
Definition gaps_ok : Prop := 0 < sample_parameter → ∀ rnd, 0 ≤ rnd < 2 ^ 48 →
  ∃ n, ssize_of_double (double_min (interval log2 log sample_parameter rnd) (double_of_int MAX_SSIZE)) = Ok n ∧
    0 ≤ n < 2 ^ 63.

Lemma pick_ok s : gaps_ok → ∃ n rnd, pick s = Ok (n, mkSampler (bytes_until_sample_ s) rnd (initialized_ s)) ∧ 0 ≤ n < 2 ^ 63.
Proof.
  intros Hg. unfold PickNextSamplingPoint. destruct (Z.leb_spec sample_parameter 0) as [H0|H0].
  - exists (Z.shiftl 16 20), (rnd_ s). split; [by destruct s|done].
  - destruct (Hg H0 _ (NextRandom_range (rnd_ s))) as (n & E & Hn). exists n, (NextRandom (rnd_ s)). by rewrite E.
Qed.
Lemma Sampler_Init_ok seed s : gaps_ok → seed ≠ 0 → ∃ s', Sampler_Init log2 log sample_parameter seed s = Ok (tt, s') ∧ sampler_ok s'.
Proof.
  intros Hg Hs. unfold Sampler_Init. rewrite (proj2 (Z.eqb_neq _ _) Hs). cbn [negb check mbind outcome_bind].
  destruct (pick_ok (mkSampler (bytes_until_sample_ s) (Nat.iter 20 NextRandom seed) (initialized_ s)) Hg) as (n & rnd & -> & Hn).
  eexists. split; [done|exact Hn].
Qed.
Lemma slow_ok this k s : gaps_ok → this ≠ 0 → 0 ≤ k → ∃ b s', RecordAllocationSlow log2 log sample_parameter this k s = Ok (b, s') ∧
  sampler_ok s' ∧ (initialized_ s → b = (sample_parameter <=? 0)).
Proof.
  intros Hg Ht Hk. unfold RecordAllocationSlow. destruct (initialized_ s) eqn:Ei; cbn [negb].
  - destruct (pick_ok s Hg) as (n & rnd & -> & Hn). by eexists _, _.
  - destruct (Sampler_Init_ok this (mkSampler (bytes_until_sample_ s) (rnd_ s) true) Hg Ht) as (s1 & -> & Hs1).
    cbn [mbind outcome_bind]. rewrite size_t_id by (unfold sampler_ok in Hs1; lia).
    destruct (Z.leb_spec k (bytes_until_sample_ s1)).
    + eexists _, _. split; [done|]. split; [|done]. unfold sampler_ok in *. simpl. rewrite ssize_id; lia.
    + destruct (pick_ok s1 Hg) as (n & rnd & -> & Hn). by eexists _, _.
Qed.

Lemma record_within this k s : sampler_ok s → 0 ≤ k ≤ bytes_until_sample_ s →
  record this k s = Ok (true, mkSampler (bytes_until_sample_ s - k) (rnd_ s) (initialized_ s)).
Proof.
  intros Hs Hk. unfold sampler_ok in Hs. unfold RecordAllocation. cbn [orb check mbind outcome_bind].
  rewrite size_t_id, (proj2 (Z.ltb_ge _ _)), ssize_id by lia. done.
Qed.
Lemma record_beyond this k s : sampler_ok s → bytes_until_sample_ s < k →
  record this k s = RecordAllocationSlow log2 log sample_parameter this k s.
Proof.
  intros Hs Hk. unfold sampler_ok in Hs. unfold RecordAllocation. cbn [orb check mbind outcome_bind].
  rewrite size_t_id, (proj2 (Z.ltb_lt _ _)) by lia. by destruct RecordAllocationSlow as [[]| | |].
Qed.
Lemma record_ok this k s : gaps_ok → this ≠ 0 → 0 ≤ k → sampler_ok s →
  ∃ b s', record this k s = Ok (b, s') ∧ sampler_ok s'.
Proof.
  intros Hg Ht Hk Hs. destruct (Z.le_gt_cases k (bytes_until_sample_ s)) as [Hle|Hgt].
  - rewrite record_within by lia || done. eexists _, _. split; [done|]. unfold sampler_ok in *. simpl. lia.
  - rewrite record_beyond by lia || done. destruct (slow_ok this k s Hg Ht Hk) as (b & s' & -> & ? & _). by eexists _, _.
Qed.

Lemma fast_ok k s : sampler_ok s → 0 ≤ k < 2 ^ 63 → ∃ b s', TryRecordAllocationFast k s = Ok (b, s') ∧ sampler_ok s'.
Proof.
  intros Hs Hk. unfold TryRecordAllocationFast. unfold sampler_ok in *. rewrite (ssize_id k), (proj2 (Z.leb_le 0 k)) by lia. cbn [check mbind outcome_bind].
  unfold i64. rewrite (proj2 (andb_true_iff _ _)) by lia. cbn [mbind outcome_bind]. destruct (Z.ltb_spec (bytes_until_sample_ s - k) 0).
  - rewrite Z.sub_add, ssize_id by lia. by eexists _, _.
  - eexists _, _. split; [done|]. simpl. lia.
Qed.

(** The results of allocations of the sizes [ks], one after the other. *)
Fixpoint record_all (this : Z) (ks : list Z) : M Sampler (list bool) :=
  match ks with
  | [] => mret []
  | k :: ks => b ← record this k; bs ← record_all this ks; mret (b :: bs)
  end.
Definition total (ks : list Z) : Z := foldr Z.add 0 ks.
Lemma record_all_within this ks : ∀ s, sampler_ok s → Forall (λ k, 0 ≤ k) ks → total ks ≤ bytes_until_sample_ s →
  record_all this ks s = Ok (replicate (length ks) true, mkSampler (bytes_until_sample_ s - total ks) (rnd_ s) (initialized_ s)).
Proof.
  induction ks as [|k ks IH]; intros s Hs Hk Ht.
  { simpl. rewrite Z.sub_0_r. by destruct s. }
  apply Forall_cons in Hk as [Hk Hks]. assert (0 ≤ total ks) as Ht0 by (clear -Hks; induction Hks; simpl; lia).
  cbn [total foldr] in Ht. fold (total ks) in Ht. cbn [record_all]. erewrite M_bind_ok by (apply record_within; [done|lia]).
  erewrite M_bind_ok by (apply IH; [unfold sampler_ok in *; simpl; lia|done|simpl; lia]). cbn [length replicate total foldr bytes_until_sample_ rnd_ initialized_].
  unfold mret, M_ret. fold (total ks). by rewrite Z.sub_add_distr.
Qed.

(** ** The properties *)
(** C10. Exactly the allocation that passes the gap is sampled: those before it, of any
    number and sizes that the gap covers, are not, and the one that goes beyond is,
    when sampling is on and the sampler has begun; then a new gap is drawn. *)
Theorem samples_when_gap_is_passed this ks k s : gaps_ok → 0 < sample_parameter → initialized_ s → sampler_ok s →
  Forall (λ k, 0 ≤ k) ks → total ks ≤ bytes_until_sample_ s < total ks + k →
  ∃ n rnd, record_all this (ks ++ [k]) s = Ok (replicate (length ks) true ++ [false], mkSampler n rnd true) ∧ 0 ≤ n < 2 ^ 63.
Proof.
  intros Hg Hp Hi Hs Hk Ht.
  assert (∀ ls s, record_all this (ks ++ ls) s = (bs ← record_all this ks; cs ← record_all this ls; mret (bs ++ cs)) s) as Happ.
  { clear. intros ls. induction ks as [|k ks IH]; intros s; cbn [app record_all].
    - rewrite M_bind_ret. unfold mbind, M_bind. by destruct (record_all this ls s) as [[]| | |].
    - unfold mbind, M_bind in *. destruct (record this k s) as [[b s1]| | |]; [|done..]. rewrite IH.
      destruct (record_all this ks s1) as [[bs s2]| | |]; [|done..]. simpl.
      by destruct (record_all this ls s2) as [[]| | |]. }
  rewrite Happ. erewrite M_bind_ok by (apply record_all_within; [done..|lia]). set (s1 := mkSampler _ _ _).
  assert (sampler_ok s1) as Hs1.
  { unfold sampler_ok in *. assert (0 ≤ total ks) by (clear -Hk; induction Hk; simpl; lia). simpl. lia. }
  cbn [record_all]. unfold mbind at 1, M_bind at 1. unfold mbind at 1, M_bind at 1.
  rewrite record_beyond by (try done; simpl; lia). unfold RecordAllocationSlow. replace (initialized_ s1) with true by (by destruct s, initialized_).
  cbn [negb]. destruct (pick_ok s1 Hg) as (n & rnd & -> & Hn). cbn [mbind outcome_bind].
  exists n, rnd. rewrite (proj2 (Z.leb_gt _ _)) by lia. cbn [initialized_ rnd_]. replace (initialized_ s1) with true by (by destruct s, initialized_). done.
Qed.

(** C11. The fast path agrees with the other one: where it returns true, so does
    [RecordAllocation], with the same state after; where it returns false, it has
    changed nothing. *)
Theorem fast_path_agrees this k s : sampler_ok s → 0 ≤ k < 2 ^ 63 →
  (TryRecordAllocationFast k s = record this k s ∧ k ≤ bytes_until_sample_ s) ∨
  (TryRecordAllocationFast k s = Ok (false, s) ∧ bytes_until_sample_ s < k).
Proof.
  intros Hs Hk. unfold TryRecordAllocationFast. unfold sampler_ok in Hs. rewrite (ssize_id k), (proj2 (Z.leb_le 0 k)) by lia. cbn [check mbind outcome_bind].
  unfold i64. rewrite (proj2 (andb_true_iff _ _)) by lia. cbn [mbind outcome_bind].
  destruct (Z.ltb_spec (bytes_until_sample_ s - k) 0) as [Hlt|Hge].
  - right. rewrite Z.sub_add, ssize_id by lia. split; [by destruct s|lia].
  - left. rewrite record_within by (done || lia). split; [done|lia].
Qed.
End counting.

(** A gap that is too large is not cut to the largest value, as the comment says, but
    is undefined: as a double, the bound is 2^63, which is outside [ssize_t]. *)
Theorem clamped_gap_is_undefined d : SFltb (double_of_int MAX_SSIZE) d = true →
  ssize_of_double (double_min d (double_of_int MAX_SSIZE)) = Undefined FloatToInt.
Proof. intros Hd. unfold double_min. rewrite Hd. vm_compute. reflexivity. Qed.
