(* ===== verification/ObjectPool.v ===== *)
(** * What the thread caches rely on

    The thread caches use the central lists through this interface: chains of
    objects come from a pool and go back to it, and the objects a client holds are
    its own to write to.  [Central_pool_laws]: the central lists implement it. *)
From stdpp Require Import base numbers list option gmap sets fin_maps fin_map_dom.
From Stdlib Require Import ZArith Lia.
From S2P Require Import Prelude SizeMap PackedCache SpanList SpanHeap CentralFreeList CentralLists.
From S2P Require Import CentralSpec CentralCaches CentralFetch CentralInit CentralPool.
Open Scope Z_scope.

Class ObjectPool (C : Type) := {
  op_remove : Z → Z → M C (Z * Z * Z);
  op_insert : Z → Z → Z → Z → M C unit;
  op_words : C → words;
  op_set_words : words → C → C;
}.
(** [op_rep c P]: [P] are the objects that clients hold, with their classes;
    [op_empty c cl]: there is no memory for more objects of the class [cl]. *)
Class ObjectPoolLaws (C : Type) `{ObjectPool C} (sm : SizeMap) := {
  op_rep : C → pool → Prop;
  op_ab : Prop;
  op_empty : C → Z → Prop;
  op_words_set m c : op_words (op_set_words m c) = m;
  op_set_id c : op_set_words (op_words c) c = c;
  op_object c P x cl : op_rep c P → P !! x = Some cl → class_ok sm cl ∧ 0 < x ∧ is_Some (op_words c !! x);
  op_separate c P : op_rep c P → separate sm P;
  op_write c P x v cl : op_rep c P → P !! x = Some cl → op_rep (op_set_words (<[x := v]> (op_words c)) c) P;
  op_remove_spec c P cl N : op_rep c P → class_ok sm cl → 0 < N →
    wp op_ab (op_remove cl N) (λ r c', ∃ P', op_rep c' P' ∧
      objects_step P (op_words c) (PoolRemove cl N) r P' (op_words c') ∧ (r.1.1 = 0 → op_empty c cl)) c;
  op_insert_spec c P cl start end_ l : op_rep c P → sll (op_words c) start l → last l = Some end_ →
    (∀ x, x ∈ l → P !! x = Some cl) → zlen l ≤ cbatch sm cl →
    wp op_ab (op_insert cl start end_ (zlen l)) (λ _ c', ∃ P', op_rep c' P' ∧
      objects_step P (op_words c) (PoolInsert cl start end_ (zlen l)) (0, 0, 0) P' (op_words c')) c;
}.

(** ** The central lists *)
Section central_pool.
Context {H : Type} `{SpanHeap H} `{!SpanHeapLaws H}.
Variable sm : SizeMap.
Variable fuel : nat.
Definition Central_pool : ObjectPool (Central H) := {|
  op_remove := RemoveRange sm;
  op_insert := InsertRange sm fuel;
  op_words := memory;
  op_set_words m c := with_memory c m;
|}.

Hypothesis Hsm : sizes_ok sm.
Hypothesis fuel_enough : 2 ^ 17 < Z.of_nat fuel.
(** The large spans that others hold. *)
Variable L : gmap Z use.

Lemma pool_rep_object c P x cl : pool_rep sm L c P → P !! x = Some cl → class_ok sm cl ∧ 0 < x ∧ is_Some (memory c !! x).
Proof.
  intros (W & Hc & HP) Hx%HP. split; [by eapply cinv_class|]. split; [|by eapply cinv_mem].
  destruct Hx as (p & u & Hx & Hu & <-). destruct (outside_intro sm Hsm c W L x p Held Hc Hx) as (u' & s & f & [_ _ U1 _ _ _ _ U2 U3 _ _]); [done|].
  by apply (object_page sm Hsm u').
Qed.
Program Definition Central_pool_laws : @ObjectPoolLaws (Central H) Central_pool sm := {|
  op_rep := pool_rep sm L;
  op_ab := sh_ab (H := H);
  op_empty := no_span sm;
|}.
Next Obligation. done. Qed.
Next Obligation. by intros []. Qed.
Next Obligation. apply pool_rep_object. Qed.
Next Obligation. intros. by eapply pool_rep_separate. Qed.
Next Obligation. intros c P x v cl (W & Hc & HP) Hx%HP. exists W. split; [by eapply cinv_write|done]. Qed.
Next Obligation.
  intros c P cl N Hrep Hcl HN. eapply wp_mono; [by apply (wp_run_pool sm fuel Hsm fuel_enough L c P (PoolRemove cl N))|].
  intros r c' (P' & ? & ? & Hno). by exists P'.
Qed.
Next Obligation.
  intros c P cl start end_ l Hrep Hs Hlast Hl Hlen.
  assert (zlen l < Z.of_nat fuel) as Hf.
  { assert (class_ok sm cl) as Hcl by (by destruct (pool_rep_object c P end_ cl Hrep (Hl _ (last_Some_elem_of _ _ Hlast)))).
    pose proof (cs_batch_range _ _ _ _ _ (class_sizes_of sm Hsm cl Hcl)). lia. }
  pose proof (wp_run_pool sm fuel Hsm fuel_enough L c P (PoolInsert cl start end_ (zlen l)) Hrep) as Hwp. cbn [run_pool] in Hwp.
  unfold wp in *. change (@op_insert _ Central_pool) with (InsertRange (H := H) sm fuel). unfold mbind, M_bind in Hwp.
  assert (pool_ok sm fuel P (memory c) (PoolInsert cl start end_ (zlen l))) as Hok by (split; [done|by exists l]).
  specialize (Hwp Hok). destruct (InsertRange sm fuel cl start end_ (zlen l) c) as [[[] c']| |[]|]; try done.
  destruct Hwp as (P' & ? & ? & _). by exists P'.
Qed.
End central_pool.
