(* ===== verification/ThreadCache.v ===== *)
(** * Thread caches: [libs/tcmalloc/src/thread_cache.{h,cc}]

    Each thread has a list of free objects for each size class.  Objects move between
    these lists and the central ones in chains, through [ObjectPool]; the limits on
    the bytes a cache may hold are shared by all threads.

    The caches themselves are objects of a [PageHeapAllocator], through
    [ObjAllocator], which has its own part [W] of the memory of the system.  A thread
    runs each operation to its end: where the code takes a lock is not marked. *)
From stdpp Require Import base numbers list option gmap.
From Stdlib Require Import ZArith Lia Floats.SpecFloat.
From S2P Require Import Prelude Doubles SizeMap SpanList MetaData ObjectPool Sampler.
Open Scope Z_scope.

(** ** [ThreadCache::FreeList]

    The fields have 32 bits; [object_size] is the field [size_]. *)
Record FreeList := mkFreeList {
  list_ : Z;
  length_ : Z;
  lowater_ : Z;
  max_length_ : Z;
  length_overages_ : Z;
  object_size : Z;
}.
Definition set_max_length (f : FreeList) (new_max : Z) : FreeList :=
  mkFreeList (list_ f) (length_ f) (lowater_ f) (u32 new_max) (length_overages_ f) (object_size f).
Definition set_length_overages (f : FreeList) (new_count : Z) : FreeList :=
  mkFreeList (list_ f) (length_ f) (lowater_ f) (max_length_ f) (u32 new_count) (object_size f).
Definition clear_lowwatermark (f : FreeList) : FreeList :=
  mkFreeList (list_ f) (length_ f) (length_ f) (max_length_ f) (length_overages_ f) (object_size f).
Definition FreeList_Init (size : Z) : FreeList := mkFreeList 0 0 0 1 0 (to_int size).

(** The first word of a free object holds the address of the next one. *)
Abbreviation FM := (M (FreeList * words)).
(** The new head and length; with [low], [lowater_] follows the length down. *)
Definition relink (low : bool) (f : FreeList) (head length : Z) : FreeList :=
  mkFreeList head length (if low && (length <? lowater_ f) then length else lowater_ f)
    (max_length_ f) (length_overages_ f) (object_size f).
Definition Push (ptr : Z) : FM Z := λ '(f, m),
  let length := u32 (length_ f + 1) in
  '(m, head) ← SLL_Push m (list_ f) ptr;
  Ok (length, (relink false f head length, m)).
Definition Pop : FM Z := λ '(f, m),
  _ ← check (negb (list_ f =? 0));
  '(rv, head) ← SLL_Pop m (list_ f);
  Ok (rv, (relink true f head (u32 (length_ f - 1)), m)).
Definition TryPop : FM (option Z) := λ '(f, m),
  r ← SLL_TryPop m (list_ f);
  match r with
  | Some (rv, head) => Ok (Some rv, (relink true f head (u32 (length_ f - 1)), m))
  | None => Ok (None, (f, m))
  end.
Definition PushRange (N start end_ : Z) : FM unit := λ '(f, m),
  '(m, head) ← SLL_PushRange m (list_ f) start end_;
  Ok (tt, (relink false f head (u32 (length_ f + N)), m)).
(** [start] and [end]. *)
Definition PopRange (N : Z) : FM (Z * Z) := λ '(f, m),
  '(m, head, start, end_) ← SLL_PopRange m (list_ f) N;
  _ ← check (u32 N <=? length_ f);
  Ok ((start, end_), (relink true f head (u32 (length_ f - N)), m)).

(** ** [ThreadCache] *)
Record ThreadCache := mkThreadCache {
  lists_ : list FreeList;       (** the array [list_] *)
  size_ : Z;
  max_size_ : Z;
  sampler_ : Sampler;
  tid_ : Z;
  in_setspecific_ : bool;
  next_ : Z;
  prev_ : Z;
}.
(** What memory that holds zeroes is as a [ThreadCache]. *)
Definition ThreadCache_zero : ThreadCache :=
  mkThreadCache (replicate (Z.to_nat kClassSizesMax) (mkFreeList 0 0 0 0 0 0)) 0 0 Sampler_zero 0 false 0 0.
Definition with_fl (t : ThreadCache) (v : list FreeList) : ThreadCache :=
  mkThreadCache v (size_ t) (max_size_ t) (sampler_ t) (tid_ t) (in_setspecific_ t) (next_ t) (prev_ t).
Definition with_size (t : ThreadCache) (v : Z) : ThreadCache :=
  mkThreadCache (lists_ t) v (max_size_ t) (sampler_ t) (tid_ t) (in_setspecific_ t) (next_ t) (prev_ t).
(** The argument of [SetMaxSize] has 32 bits. *)
Definition SetMaxSize (t : ThreadCache) (new_max_size : Z) : ThreadCache :=
  mkThreadCache (lists_ t) (size_ t) (to_int (size_t new_max_size)) (sampler_ t) (tid_ t) (in_setspecific_ t) (next_ t) (prev_ t).
Definition with_sampler (t : ThreadCache) (v : Sampler) : ThreadCache :=
  mkThreadCache (lists_ t) (size_ t) (max_size_ t) v (tid_ t) (in_setspecific_ t) (next_ t) (prev_ t).
Definition with_owner (t : ThreadCache) (tid : Z) (v : bool) : ThreadCache :=
  mkThreadCache (lists_ t) (size_ t) (max_size_ t) (sampler_ t) tid v (next_ t) (prev_ t).
Definition with_neighbours (t : ThreadCache) (next prev : Z) : ThreadCache :=
  mkThreadCache (lists_ t) (size_ t) (max_size_ t) (sampler_ t) (tid_ t) (in_setspecific_ t) next prev.
(** [&heap->sampler_]: after 96 lists of 32 bytes and two [int32]. *)
Definition sampler_address (this : Z) : Z := this + 3080.

Definition kMinThreadCacheSize : Z := kMaxSize * 2.
Definition kMaxThreadCacheSize : Z := Z.shiftl 4 20.
Definition kDefaultOverallThreadCacheSize : Z := 8 * kMaxThreadCacheSize.
Definition kStealAmount : Z := Z.shiftl 1 16.
Definition kMaxOverages : Z := 3.
Definition kMaxDynamicFreeListLength : Z := 8192.

(** The static members that the lock of the page heap protects. *)
Record Registry := mkRegistry {
  thread_heaps_ : Z;
  thread_heap_count_ : Z;
  next_memory_steal_ : Z;
  overall_thread_cache_size_ : Z;
  per_thread_cache_size_ : Z;
  unclaimed_cache_space_ : Z;
}.
Definition Registry_static : Registry :=
  mkRegistry 0 0 0 kDefaultOverallThreadCacheSize kMaxThreadCacheSize kDefaultOverallThreadCacheSize.
Definition with_thread_heaps (r : Registry) (heaps count : Z) : Registry :=
  mkRegistry heaps count (next_memory_steal_ r) (overall_thread_cache_size_ r) (per_thread_cache_size_ r) (unclaimed_cache_space_ r).
Definition with_steal (r : Registry) (v : Z) : Registry :=
  mkRegistry (thread_heaps_ r) (thread_heap_count_ r) v (overall_thread_cache_size_ r) (per_thread_cache_size_ r) (unclaimed_cache_space_ r).
Definition with_overall (r : Registry) (v : Z) : Registry :=
  mkRegistry (thread_heaps_ r) (thread_heap_count_ r) (next_memory_steal_ r) v (per_thread_cache_size_ r) (unclaimed_cache_space_ r).
Definition with_per_thread (r : Registry) (v : Z) : Registry :=
  mkRegistry (thread_heaps_ r) (thread_heap_count_ r) (next_memory_steal_ r) (overall_thread_cache_size_ r) v (unclaimed_cache_space_ r).
Definition with_unclaimed (r : Registry) (v : Z) : Registry :=
  mkRegistry (thread_heaps_ r) (thread_heap_count_ r) (next_memory_steal_ r) (overall_thread_cache_size_ r) (per_thread_cache_size_ r) v.

(** [threadlocal_data_] of a thread, the value it has for [heap_key_], and the local
    variable of [CreateCacheIfNecessary] that [current_heap_ptr] points to. *)
Record ThreadLocal := mkLocal {
  fast_path_heap : Z;
  heap : Z;
  use_emergency_malloc : bool;
  specific : Z;
  current_heap : option Z;
}.
Definition Local_zero : ThreadLocal := mkLocal 0 0 false 0 None.
Definition with_heap_of (l : ThreadLocal) (v : Z) : ThreadLocal :=
  mkLocal v v (use_emergency_malloc l) (specific l) (current_heap l).
Definition with_specific (l : ThreadLocal) (v : Z) : ThreadLocal :=
  mkLocal (fast_path_heap l) (heap l) (use_emergency_malloc l) v (current_heap l).
Definition with_current (l : ThreadLocal) (v : option Z) : ThreadLocal :=
  mkLocal (fast_path_heap l) (heap l) (use_emergency_malloc l) (specific l) v.

(** [old_caches] is what the memory of deleted caches holds. *)
Record Threads (C T W : Type) := mkThreads {
  caches : gmap Z ThreadCache;
  old_caches : gmap Z ThreadCache;
  registry : Registry;
  locals : gmap Z ThreadLocal;
  tsd_inited_ : bool;
  phinited : bool;
  threadcache_allocator : T;
  metadata : W;
  objects_of : C;
}.
Arguments mkThreads {C T W}.
Arguments caches {C T W} _.
Arguments old_caches {C T W} _.
Arguments registry {C T W} _.
Arguments locals {C T W} _.
Arguments tsd_inited_ {C T W} _.
Arguments phinited {C T W} _.
Arguments threadcache_allocator {C T W} _.
Arguments metadata {C T W} _.
Arguments objects_of {C T W} _.

Section updates.
Context {C T W : Type}.
Implicit Types s : Threads C T W.
Definition with_caches s (v : gmap Z ThreadCache) : Threads C T W :=
  mkThreads v (old_caches s) (registry s) (locals s) (tsd_inited_ s) (phinited s) (threadcache_allocator s) (metadata s) (objects_of s).
Definition with_old s (v : gmap Z ThreadCache) : Threads C T W :=
  mkThreads (caches s) v (registry s) (locals s) (tsd_inited_ s) (phinited s) (threadcache_allocator s) (metadata s) (objects_of s).
Definition with_registry s (v : Registry) : Threads C T W :=
  mkThreads (caches s) (old_caches s) v (locals s) (tsd_inited_ s) (phinited s) (threadcache_allocator s) (metadata s) (objects_of s).
Definition with_locals s (v : gmap Z ThreadLocal) : Threads C T W :=
  mkThreads (caches s) (old_caches s) (registry s) v (tsd_inited_ s) (phinited s) (threadcache_allocator s) (metadata s) (objects_of s).
Definition with_inited s (tsd ph : bool) : Threads C T W :=
  mkThreads (caches s) (old_caches s) (registry s) (locals s) tsd ph (threadcache_allocator s) (metadata s) (objects_of s).
Definition with_allocator s (v : T) (w : W) : Threads C T W :=
  mkThreads (caches s) (old_caches s) (registry s) (locals s) (tsd_inited_ s) (phinited s) v w (objects_of s).
Definition with_objects s (v : C) : Threads C T W :=
  mkThreads (caches s) (old_caches s) (registry s) (locals s) (tsd_inited_ s) (phinited s) (threadcache_allocator s) (metadata s) v.
End updates.

(** ** The operations of a cache *)
Section thread_cache.
Context {C T W : Type} `{ObjectPool C} `{ObjAllocator T W}.
(** [Static::sizemap()]. *)
Variable sm : SizeMap.
Abbreviation TM := (M (Threads C T W)).
Implicit Types (this cl : Z).

(** *** Access to the state *)
Definition get_cache this : TM ThreadCache := λ s,
  match caches s !! this with Some t => Ok (t, s) | None => Undefined NullDeref end.
Definition put_cache this (t : ThreadCache) : TM unit := λ s,
  match caches s !! this with
  | Some _ => Ok (tt, with_caches s (<[this := t]> (caches s)))
  | None => Undefined NullDeref
  end.
Definition on_cache this (f : ThreadCache → ThreadCache) : TM unit :=
  t ← get_cache this; put_cache this (f t).
Definition get_fl this cl : TM FreeList := t ← get_cache this; lift (arr_get (lists_ t) cl).
Definition put_fl this cl (f : FreeList) : TM unit :=
  t ← get_cache this; l ← lift (arr_set (lists_ t) cl f); put_cache this (with_fl t l).
(** An operation of a list, in the memory of the objects. *)
Definition on_fl {A} this cl (m : FM A) : TM A :=
  f ← get_fl this cl;
  '(a, f) ← (λ s, '(a, (f, w)) ← m (f, op_words (objects_of s)); Ok ((a, f), with_objects s (op_set_words w (objects_of s))));
  _ ← put_fl this cl f; mret a.
Definition add_bytes this (z : Z) : TM unit :=
  t ← get_cache this; v ← lift (i32 (size_ t + z)); put_cache this (with_size t v).
Definition on_pool {A} (m : M C A) : TM A := λ s,
  '(a, c) ← m (objects_of s); Ok (a, with_objects s c).
Definition get_registry : TM Registry := gets registry.
Definition on_registry (f : Registry → Registry) : TM unit := act (λ s, with_registry s (f (registry s))).
Definition TASSERT (b : bool) : TM unit := lift (check b).

(** *** Limits *)
(** [for (int i = 0; i < 10; ...)]; [n] is 10 - i. *)
Fixpoint steal_loop (n : nat) this : TM unit :=
  match n with
  | O => mret tt
  | S n =>
      r ← get_registry;
      _ ← (if next_memory_steal_ r =? 0 then
             _ ← TASSERT (negb (thread_heaps_ r =? 0));
             on_registry (λ r, with_steal r (thread_heaps_ r))
           else mret tt);
      r ← get_registry;
      let victim := next_memory_steal_ r in
      skip ← (if victim =? this then mret true else
                t ← get_cache victim; mret (size_t (max_size_ t) <=? kMinThreadCacheSize));
      if skip : bool then
        t ← get_cache victim;
        _ ← on_registry (λ r, with_steal r (next_ t));
        steal_loop n this
      else
        _ ← on_cache victim (λ t, SetMaxSize t (max_size_ t - kStealAmount));
        _ ← on_cache this (λ t, SetMaxSize t (max_size_ t + kStealAmount));
        t ← get_cache victim;
        on_registry (λ r, with_steal r (next_ t))
  end.
Definition IncreaseCacheLimitLocked this : TM unit :=
  r ← get_registry;
  if 0 <? unclaimed_cache_space_ r then
    _ ← on_registry (λ r, with_unclaimed r (ssize (unclaimed_cache_space_ r - kStealAmount)));
    on_cache this (λ t, SetMaxSize t (max_size_ t + kStealAmount))
  else steal_loop 10 this.
Definition IncreaseCacheLimit this : TM unit := IncreaseCacheLimitLocked this.

(** *** Objects go to the central lists *)
(** [while (N > batch_size)]; what is left of [N]. *)
Fixpoint release_batches (fuel : nat) this cl (N batch_size : Z) : TM Z :=
  match fuel with
  | O => lift NoFuel
  | S fuel =>
      if batch_size <? N then
        '(head, tail) ← on_fl this cl (PopRange batch_size);
        _ ← on_pool (op_insert cl head tail batch_size);
        release_batches fuel this cl (N - batch_size) batch_size
      else mret N
  end.
Definition ReleaseToCentralCache this cl (N : Z) : TM unit :=
  src ← get_fl this cl;
  let N := if length_ src <? size_t N then to_int (length_ src) else N in
  size ← lift (ByteSizeForClass sm cl);
  delta ← lift (i32 (N * size));
  let delta_bytes := size_t delta in
  batch_size ← lift (num_objects_to_move sm cl);
  N ← release_batches (S (Z.to_nat N)) this cl N batch_size;
  '(head, tail) ← on_fl this cl (PopRange N);
  _ ← on_pool (op_insert cl head tail N);
  on_cache this (λ t, with_size t (to_int (size_t (size_ t - delta_bytes)))).

(** The body of the loop of [Scavenge]. *)
Definition scavenge_list this cl : TM unit :=
  list ← get_fl this cl;
  let lowmark := to_int (lowater_ list) in
  _ ← (if 0 <? lowmark then
         let drop := if 1 <? lowmark then Z.quot lowmark 2 else 1 in
         _ ← ReleaseToCentralCache this cl drop;
         batch_size ← lift (num_objects_to_move sm cl);
         list ← get_fl this cl;
         if size_t batch_size <? max_length_ list then
           put_fl this cl (set_max_length list (Z.max (to_int (size_t (max_length_ list - batch_size))) batch_size))
         else mret tt
       else mret tt);
  list ← get_fl this cl;
  put_fl this cl (clear_lowwatermark list).
Fixpoint scavenge_lists (n : nat) this cl : TM unit :=
  match n with
  | O => mret tt
  | S n => _ ← scavenge_list this cl; scavenge_lists n this (cl + 1)
  end.
Definition Scavenge this : TM unit :=
  _ ← scavenge_lists (Z.to_nat (num_size_classes sm)) this 0;
  IncreaseCacheLimit this.

(** [list->object_size()] is added to [size_], objects go to the central lists, and
    [max_length_] changes. *)
Definition ListTooLong this cl : TM unit :=
  list ← get_fl this cl;
  _ ← add_bytes this (object_size list);
  batch_size ← lift (num_objects_to_move sm cl);
  _ ← ReleaseToCentralCache this cl batch_size;
  list ← get_fl this cl;
  _ ← (if max_length_ list <? size_t batch_size then
         put_fl this cl (set_max_length list (max_length_ list + 1))
       else if size_t batch_size <? max_length_ list then
         let list := set_length_overages list (length_overages_ list + 1) in
         _ ← put_fl this cl list;
         if kMaxOverages <? length_overages_ list then
           _ ← TASSERT (size_t batch_size <? max_length_ list);
           put_fl this cl (set_length_overages (set_max_length list (max_length_ list - batch_size)) 0)
         else mret tt
       else mret tt);
  t ← get_cache this;
  if max_size_ t <? size_ t then Scavenge this else mret tt.

Fixpoint cleanup_lists (n : nat) this cl : TM unit :=
  match n with
  | O => mret tt
  | S n =>
      list ← get_fl this cl;
      _ ← (if 0 <? length_ list then ReleaseToCentralCache this cl (to_int (length_ list)) else mret tt);
      cleanup_lists n this (cl + 1)
  end.
Definition Cleanup this : TM unit := cleanup_lists (Z.to_nat (num_size_classes sm)) this 0.

(** *** Objects come from the central lists *)
Definition FetchFromCentralCache this cl (byte_size : Z) (oom_handler : Z → TM Z) : TM Z :=
  list ← get_fl this cl;
  _ ← TASSERT (list_ list =? 0);
  batch_size ← lift (num_objects_to_move sm cl);
  let num_to_move := Z.min (to_int (max_length_ list)) batch_size in
  '(fetch_count, start, end_) ← on_pool (op_remove cl num_to_move);
  if fetch_count =? 0 then
    _ ← TASSERT (start =? 0);
    oom_handler (size_t byte_size)
  else
    _ ← TASSERT (negb (start =? 0));
    let fetch_count := fetch_count - 1 in
    _ ← (if 0 <=? fetch_count then
           bytes ← lift (i32 (byte_size * fetch_count));
           _ ← add_bytes this bytes;
           next ← (λ s, lift (SLL_Next (op_words (objects_of s)) start) s);
           on_fl this cl (PushRange fetch_count next end_)
         else mret tt);
    list ← get_fl this cl;
    _ ← (if max_length_ list <? size_t batch_size then
           put_fl this cl (set_max_length list (max_length_ list + 1))
         else
           let new_length := Z.min (to_int (size_t (max_length_ list + batch_size))) kMaxDynamicFreeListLength in
           r ← lift (c_rem new_length batch_size);
           let new_length := new_length - r in
           r ← lift (c_rem new_length batch_size);
           _ ← TASSERT (r =? 0);
           put_fl this cl (set_max_length list new_length));
    mret start.

(** *** [Allocate] and [Deallocate] *)
Definition Allocate this (size cl : Z) (oom_handler : Z → TM Z) : TM Z :=
  _ ← TASSERT (size <=? kMaxSize);
  _ ← TASSERT (negb (size =? 0));
  bytes ← lift (ByteSizeForClass sm cl);
  _ ← TASSERT ((size =? 0) || (size =? size_t bytes));
  rv ← on_fl this cl TryPop;
  match rv with
  | None => FetchFromCentralCache this cl (to_int size) oom_handler
  | Some rv =>
      _ ← on_cache this (λ t, with_size t (to_int (size_t (size_ t - size))));
      mret rv
  end.
Definition Deallocate this (ptr cl : Z) : TM unit :=
  list ← get_fl this cl;
  _ ← TASSERT (0 <? max_length_ list);
  _ ← TASSERT (negb (ptr =? list_ list));
  length ← on_fl this cl (Push ptr);
  list ← get_fl this cl;
  if max_length_ list <? length then ListTooLong this cl else
  _ ← add_bytes this (object_size list);
  t ← get_cache this;
  if max_size_ t <? size_ t then Scavenge this else mret tt.

(** *** The cache of a thread is made *)
Section making.
Variables log2 log : spec_float → spec_float.
Variable sample_parameter : Z.

Definition on_sampler {A} this (m : M Sampler A) : TM A :=
  t ← get_cache this; '(a, sampler) ← lift (m (sampler_ t)); _ ← put_cache this (with_sampler t sampler); mret a.
Fixpoint init_free_lists (n : nat) this cl : TM unit :=
  match n with
  | O => mret tt
  | S n =>
      size ← lift (class_to_size sm cl);
      _ ← put_fl this cl (FreeList_Init size);
      init_free_lists n this (cl + 1)
  end.
(** The seed is the lower half of [tid]. *)
Definition Init this (tid : Z) : TM unit :=
  _ ← on_cache this (λ t, SetMaxSize (with_size t 0) 0);
  _ ← IncreaseCacheLimitLocked this;
  t ← get_cache this;
  _ ← (if max_size_ t =? 0 then
         _ ← on_cache this (λ t, SetMaxSize t kMinThreadCacheSize);
         _ ← on_registry (λ r, with_unclaimed r (ssize (unclaimed_cache_space_ r - kMinThreadCacheSize)));
         r ← get_registry;
         TASSERT (unclaimed_cache_space_ r <? 0)
       else mret tt);
  _ ← on_cache this (λ t, with_owner (with_neighbours t 0 0) tid false);
  _ ← init_free_lists (Z.to_nat (num_size_classes sm)) this 0;
  on_sampler this (Sampler_Init log2 log sample_parameter (u32 tid)).
(** [threadcache_allocator.New()]. *)
Definition new_cache : TM Z := λ s,
  '(p, a, w) ← obj_new (threadcache_allocator s) (metadata s);
  let s := with_allocator s a w in
  Ok (p, with_caches s (<[p := default ThreadCache_zero (old_caches s !! p)]> (caches s))).
Definition delete_cache (p : Z) : TM unit := λ s,
  a ← obj_delete (threadcache_allocator s) p;
  let s := with_allocator s a (metadata s) in
  let s := with_old s (match caches s !! p with Some t => <[p := t]> (old_caches s) | None => old_caches s end) in
  Ok (tt, with_caches s (delete p (caches s))).
Definition NewHeap (tid : Z) : TM Z :=
  heap ← new_cache;
  _ ← Init heap tid;
  r ← get_registry;
  _ ← on_cache heap (λ t, with_neighbours t (thread_heaps_ r) 0);
  _ ← (if negb (thread_heaps_ r =? 0) then
         on_cache (thread_heaps_ r) (λ t, with_neighbours t (next_ t) heap)
       else
         _ ← TASSERT (next_memory_steal_ r =? 0);
         on_registry (λ r, with_steal r heap));
  count ← lift (i32 (thread_heap_count_ r + 1));
  _ ← on_registry (λ r, with_thread_heaps r heap count);
  mret heap.
Definition DeleteCache (heap : Z) : TM unit :=
  _ ← Cleanup heap;
  t ← get_cache heap;
  _ ← (if negb (next_ t =? 0) then on_cache (next_ t) (λ n, with_neighbours n (next_ n) (prev_ t)) else mret tt);
  _ ← (if negb (prev_ t =? 0) then on_cache (prev_ t) (λ p, with_neighbours p (next_ t) (prev_ p)) else mret tt);
  r ← get_registry;
  count ← lift (i32 (thread_heap_count_ r - 1));
  _ ← on_registry (λ r, with_thread_heaps r (if thread_heaps_ r =? heap then next_ t else thread_heaps_ r) count);
  _ ← on_registry (λ r, if next_memory_steal_ r =? heap then with_steal r (next_ t) else r);
  _ ← on_registry (λ r, if next_memory_steal_ r =? 0 then with_steal r (thread_heaps_ r) else r);
  _ ← on_registry (λ r, with_unclaimed r (ssize (unclaimed_cache_space_ r + max_size_ t)));
  delete_cache heap.

(** *** Which cache a thread uses; [me] is [pthread_self()] *)
Definition local (me : Z) : TM ThreadLocal := gets (λ s, default Local_zero (locals s !! me)).
Definition on_local (me : Z) (f : ThreadLocal → ThreadLocal) : TM unit := act (λ s,
  with_locals s (<[me := f (default Local_zero (locals s !! me))]> (locals s))).
(** [perftools_pthread_setspecific]: the C library keeps the value. *)
Definition setspecific (me heap : Z) : TM unit := on_local me (λ l, with_specific l heap).
Definition GetThreadHeap (me : Z) : TM Z := l ← local me; mret (heap l).
Definition GetCacheIfPresent (me : Z) : TM Z := GetThreadHeap me.
Definition GetFastPathCache (me : Z) : TM Z := l ← local me; mret (fast_path_heap l).
Definition GetCacheWhichMustBePresent (me : Z) : TM Z :=
  l ← local me; _ ← TASSERT (negb (heap l =? 0)); mret (heap l).
Definition SetUseEmergencyMalloc (me : Z) : TM unit :=
  on_local me (λ l, mkLocal 0 (heap l) true (specific l) (current_heap l)).
Definition ResetUseEmergencyMalloc (me : Z) : TM unit :=
  on_local me (λ l, mkLocal (heap l) (heap l) false (specific l) (current_heap l)).

(** The environment, [Static::InitStaticVars] and [PageHeapAllocator::Init].  What
    [InitLateMaybeRecursive] does, fork handlers, is left out. *)
Variable tcb : option Z.
Variable InitStaticVars : M C unit.
Variable allocator_Init : W → outcome (T * W).

(** The loop of [RecomputePerThreadCacheSize]; [claimed] at the end. *)
Fixpoint recompute_loop (fuel : nat) (ratio : spec_float) (h claimed : Z) : TM Z :=
  match fuel with
  | O => lift NoFuel
  | S fuel =>
      if h =? 0 then mret claimed else
      t ← get_cache h;
      _ ← (if SFltb ratio (double_of_int 1) then
             m ← lift (int_of_double (double_mul (double_of_int (max_size_ t)) ratio));
             on_cache h (λ t, SetMaxSize t m)
           else mret tt);
      t ← get_cache h;
      recompute_loop fuel ratio (next_ t) (size_t (claimed + max_size_ t))
  end.
Definition RecomputePerThreadCacheSize (fuel : nat) : TM unit :=
  r ← get_registry;
  let n := if 0 <? thread_heap_count_ r then thread_heap_count_ r else 1 in
  let space := overall_thread_cache_size_ r / n in
  let space := if space <? kMinThreadCacheSize then kMinThreadCacheSize else space in
  let space := if kMaxThreadCacheSize <? space then kMaxThreadCacheSize else space in
  let per := double_of_int (per_thread_cache_size_ r) in
  let ratio := double_div (double_of_int space) (if SFltb (double_of_int 1) per then per else double_of_int 1) in
  claimed ← recompute_loop fuel ratio (thread_heaps_ r) 0;
  _ ← on_registry (λ r, with_unclaimed r (ssize (overall_thread_cache_size_ r - claimed)));
  on_registry (λ r, with_per_thread r space).
Definition set_overall_thread_cache_size (fuel : nat) (new_size : Z) : TM unit :=
  let new_size := if new_size <? kMinThreadCacheSize then kMinThreadCacheSize else new_size in
  let new_size := if Z.shiftl 1 30 <? new_size then Z.shiftl 1 30 else new_size in
  _ ← on_registry (λ r, with_overall r new_size);
  RecomputePerThreadCacheSize fuel.
Definition InitModule (fuel : nat) : TM unit :=
  done ← gets phinited;
  if done : bool then mret tt else
  _ ← (match tcb with Some n => set_overall_thread_cache_size fuel (size_t n) | None => mret tt end);
  _ ← on_pool InitStaticVars;
  _ ← (λ s, '(a, w) ← allocator_Init (metadata s); Ok (tt, with_allocator s a w));
  act (λ s, with_inited s (tsd_inited_ s) true).
Definition InitTSD : TM unit :=
  inited ← gets tsd_inited_;
  _ ← TASSERT (negb inited);
  act (λ s, with_inited s true (phinited s)).

(** The search in [thread_heaps_] for the cache of [me]. *)
Fixpoint find_heap (fuel : nat) (me h : Z) : TM Z :=
  match fuel with
  | O => lift NoFuel
  | S fuel =>
      if h =? 0 then mret 0 else
      t ← get_cache h;
      if tid_ t =? me then mret h else find_heap fuel me (next_ t)
  end.
(** After [heap] is found or made. *)
Definition set_thread_heap (me heap : Z) : TM Z :=
  t ← get_cache heap;
  inited ← gets tsd_inited_;
  _ ← (if negb (in_setspecific_ t) && inited then
         _ ← on_cache heap (λ t, with_owner t (tid_ t) true);
         _ ← setspecific me heap;
         _ ← on_local me (λ l, with_heap_of l heap);
         on_cache heap (λ t, with_owner t (tid_ t) false)
       else mret tt);
  _ ← on_local me (λ l, with_current l None);
  mret heap.
(** The call of [free(NULL)] of the builds with assertions: [do_free_with_callback]
    looks the thread's cache up, finds no span for null, with or without a page heap,
    and has nothing to do for it ([wp_free_null] of MallocSpec, for the function as it
    is modelled there). *)
Definition free_null (me : Z) : TM unit := _ ← GetCacheIfPresent me; mret tt.
Definition CreateCacheIfNecessary (fuel : nat) (me : Z) : TM Z :=
  inited ← gets tsd_inited_;
  _ ← (if negb inited then _ ← free_null me; InitModule fuel else mret tt);
  inited ← gets tsd_inited_;
  l ← local me;
  match (if inited : bool then current_heap l else None) with
  | Some heap => mret heap
  | None =>
      _ ← (if inited : bool then on_local me (λ l, with_current l (Some 0)) else mret tt);
      r ← get_registry;
      heap ← (if negb inited then find_heap fuel me (thread_heaps_ r) else mret 0);
      heap ← (if heap =? 0 then NewHeap me else mret heap);
      _ ← (if inited : bool then on_local me (λ l, with_current l (Some heap)) else mret tt);
      set_thread_heap me heap
  end.
Definition GetCache (fuel : nat) (me : Z) : TM Z :=
  ptr ← GetThreadHeap me;
  if ptr =? 0 then CreateCacheIfNecessary fuel me else mret ptr.

(** *** A thread gives its cache up *)
Definition BecomeIdle (me : Z) : TM unit :=
  inited ← gets tsd_inited_;
  if negb inited then mret tt else
  h ← GetThreadHeap me;
  if h =? 0 then mret tt else
  t ← get_cache h;
  if in_setspecific_ t then mret tt else
  _ ← on_cache h (λ t, with_owner t (tid_ t) true);
  _ ← setspecific me 0;
  _ ← on_local me (λ l, with_heap_of l 0);
  _ ← on_cache h (λ t, with_owner t (tid_ t) false);
  h' ← GetThreadHeap me;
  if h' =? h then mret tt else DeleteCache h.
Definition BecomeTemporarilyIdle (me : Z) : TM unit :=
  h ← GetCacheIfPresent me;
  if negb (h =? 0) then Cleanup h else mret tt.
Definition DestroyThreadCache (me ptr : Z) : TM unit :=
  if ptr =? 0 then mret tt else
  _ ← on_local me (λ l, with_heap_of l 0);
  DeleteCache ptr.

(** *** Sampling and statistics *)
(** [ThreadCache::GetSamplePeriod] and [Sampler::GetSamplePeriod]. *)
Definition GetSamplePeriod : Z := to_int (size_t sample_parameter).
Definition SampleAllocation this (k : Z) : TM bool :=
  inited ← gets phinited;
  b ← on_sampler this (RecordAllocation log2 log sample_parameter inited (sampler_address this) k);
  mret (negb b).
Definition ThreadCache_TryRecordAllocationFast this (k : Z) : TM bool :=
  on_sampler this (TryRecordAllocationFast k).
Fixpoint count_lists (n : nat) this cl (class_count : list Z) : TM (list Z) :=
  match n with
  | O => mret class_count
  | S n =>
      f ← get_fl this cl;
      v ← lift (arr_get class_count cl);
      class_count ← lift (arr_set class_count cl (size_t (v + to_int (length_ f))));
      count_lists n this (cl + 1) class_count
  end.
Fixpoint thread_stats (fuel : nat) (h total_bytes : Z) (class_count : option (list Z)) : TM (Z * option (list Z)) :=
  match fuel with
  | O => lift NoFuel
  | S fuel =>
      if h =? 0 then mret (total_bytes, class_count) else
      t ← get_cache h;
      let total_bytes := size_t (total_bytes + size_t (size_ t)) in
      class_count ← (match class_count with
                     | Some l => l ← count_lists (Z.to_nat (num_size_classes sm)) h 0 l; mret (Some l)
                     | None => mret None
                     end);
      thread_stats fuel (next_ t) total_bytes class_count
  end.
Definition GetThreadStats (fuel : nat) (total_bytes : Z) (class_count : option (list Z)) : TM (Z * option (list Z)) :=
  r ← get_registry; thread_stats fuel (thread_heaps_ r) total_bytes class_count.
End making.
End thread_cache.

(** Before the first allocation. *)
Definition Threads_static {C T W} (a : T) (w : W) (c : C) : Threads C T W :=
  mkThreads ∅ ∅ Registry_static ∅ false false a w c.
