(* ===== verification/ThreadLists.v ===== *)
(** * Thread caches: where the free objects are

    Which objects are on which list of which cache; the operations that move chains
    between the lists and the pool of objects, and what each changes. *)
From stdpp Require Import base numbers list option gmap sets fin_maps fin_map_dom.
From Stdlib Require Import ZArith Lia.
From S2P Require Import Prelude SizeMap SpanList MetaData CentralFreeList CentralLists CentralFetch CentralPool.
From S2P Require Import ObjectPool Sampler ThreadCache.
Open Scope Z_scope.

(** ** The operations of [FreeList] *)
Section free_list.
Implicit Types (f : FreeList) (m : words) (l : list Z).

(** The list [f] has the objects [l]. *)
Record chain m f l : Prop := {
  ch_sll : sll m (list_ f) l;
  ch_length : length_ f = zlen l;
  ch_max : zlen l ≤ kMaxDynamicFreeListLength + 1;
}.
Lemma u32_id z : 0 ≤ z < 2 ^ 32 → u32 z = z.
Proof. intros. unfold u32. by rewrite Z.mod_small. Qed.

Lemma Push_ok m f l x : chain m f l → zlen l ≤ kMaxDynamicFreeListLength → is_Some (m !! x) → x ≠ 0 → x ∉ l →
  let f' := relink false f x (zlen (x :: l)) in
  Push x (f, m) = Ok (zlen (x :: l), (f', <[x := list_ f]> m)) ∧ chain (<[x := list_ f]> m) f' (x :: l).
Proof.
  intros [H1 H2 H3] Hl Hx Hx0 Hxl f'. change kMaxDynamicFreeListLength with 8192 in *. pose proof (zlen_nonneg l). unfold Push.
  destruct (SLL_Push_spec m (list_ f) l x H1 Hx Hx0 Hxl) as (m' & -> & -> & Hs). cbn [mbind outcome_bind].
  rewrite H2, u32_id by lia. replace (zlen l + 1) with (zlen (x :: l)) by (rewrite zlen_cons; lia). split; [done|].
  split; [done|done|rewrite zlen_cons; change kMaxDynamicFreeListLength with 8192; lia].
Qed.
Lemma TryPop_ok m f l : chain m f l →
  match l with
  | [] => TryPop (f, m) = Ok (None, (f, m))
  | x :: l' => ∃ head, TryPop (f, m) = Ok (Some x, (relink true f head (zlen l'), m)) ∧
      chain m (relink true f head (zlen l')) l'
  end.
Proof.
  intros [H1 H2 H3]. change (kMaxDynamicFreeListLength) with 8192 in *. unfold TryPop. destruct (SLL_TryPop_spec m (list_ f) l H1) as [-> Hl]. destruct l as [|x l]; [done|].
  cbn [mbind outcome_bind]. rewrite zlen_cons in *. pose proof (zlen_nonneg l). rewrite H2, u32_id by lia.
  replace (1 + zlen l - 1) with (zlen l) by lia. eexists. split; [done|]. split; [by eapply Hl|done|change kMaxDynamicFreeListLength with 8192; lia].
Qed.
Lemma PushRange_ok m f l l1 start end_ : chain m f l → sll m start l1 → last l1 = Some end_ → (∀ x, x ∈ l1 → x ∉ l) →
  zlen (l1 ++ l) ≤ kMaxDynamicFreeListLength →
  let f' := relink false f start (zlen (l1 ++ l)) in
  PushRange (zlen l1) start end_ (f, m) = Ok (tt, (f', <[end_ := list_ f]> m)) ∧ chain (<[end_ := list_ f]> m) f' (l1 ++ l).
Proof.
  intros [H1 H2 H3] Hs Hlast Hd Hlen f'. change kMaxDynamicFreeListLength with 8192 in *. pose proof (zlen_nonneg l). pose proof (zlen_nonneg l1).
  assert (is_Some (m !! end_)) as [w Hw].
  { destruct Hs as [Hs _]. apply last_Some in Hlast as (l1' & ->). apply sll_seg_app in Hs as (h & _ & -> & _ & n & Hn & _). by eexists. }
  assert (start ≠ 0) by (intros ->; destruct Hs as [Hs _]; by destruct l1; [|destruct Hs as (<- & ? & _)]).
  unfold PushRange, SLL_PushRange, SLL_SetNext. rewrite (proj2 (Z.eqb_neq start 0)), Hw by done. cbn [mbind outcome_bind mret outcome_ret].
  rewrite H2, u32_id, Z.add_comm, <- zlen_app by (rewrite zlen_app in Hlen; lia). split; [done|].
  split; [by apply sll_append|done|change kMaxDynamicFreeListLength with 8192; lia].
Qed.
Lemma PopRange_ok m f l k : chain m f l → 1 ≤ k ≤ zlen l → ∃ l1 l2 x head, l = l1 ++ l2 ∧ zlen l1 = k ∧ last l1 = Some x ∧
  let f' := relink true f head (zlen l2) in
  PopRange k (f, m) = Ok ((list_ f, x), (f', <[x := 0]> m)) ∧ chain (<[x := 0]> m) f' l2 ∧ sll (<[x := 0]> m) (list_ f) l1.
Proof.
  intros [H1 H2 H3] Hk. change kMaxDynamicFreeListLength with 8192 in *. unfold zlen in Hk.
  destruct (lookup_lt_is_Some_2 l (Z.to_nat (k - 1))) as [x Hx]; [lia|]. pose proof (take_drop_middle l _ x Hx) as El.
  set (l1 := take (Z.to_nat (k - 1)) l) in *. set (l2 := drop (S (Z.to_nat (k - 1))) l) in *.
  assert (zlen (l1 ++ [x]) = k) as Ek by (unfold l1, zlen; rewrite length_app, length_take; simpl; lia).
  assert (zlen l = k + zlen l2) as Ez by (rewrite <- El, zlen_app, zlen_cons; rewrite zlen_app, zlen_cons, zlen_nil in Ek; lia).
  rewrite <- El in H1. destruct (sll_pop_range_push_range m (list_ f) l1 x l2 H1) as (m' & head & E & Hl2 & Hl1 & Hx0 & Hm & _).
  assert (m' = <[x := 0]> m) as ->.
  { apply map_eq. intros y. destruct (decide (y = x)) as [->|Hne]; [by rewrite lookup_insert_eq|]. rewrite lookup_insert_ne, Hm; done. }
  exists (l1 ++ [x]), l2, x, head. split; [by rewrite <- app_assoc|]. split; [done|]. split; [by rewrite last_snoc|]. intros f'.
  pose proof (zlen_nonneg l2). rewrite Ek in E. unfold PopRange. rewrite E. cbn [mbind outcome_bind]. rewrite H2, (u32_id k), (u32_id (zlen l - k)), (proj2 (Z.leb_le _ _)) by lia. replace (zlen l - k) with (zlen l2) by lia.
  split; [done|]. split; [|done]. split; [done|done|change kMaxDynamicFreeListLength with 8192; lia].
Qed.
End free_list.

(** ** Who has each object

    [g h cl] are the objects of class [cl] in the cache [h]; [D] are the caches whose
    lists are set up. *)
Abbreviation contents := (Z → Z → list Z).
Definition put (g : contents) (h cl : Z) (l : list Z) : contents :=
  λ h' cl', if decide (h' = h ∧ cl' = cl) then l else g h' cl'.
Lemma put_eq g h cl l : put g h cl l h cl = l.
Proof. unfold put. by rewrite decide_True. Qed.
Lemma put_ne g h cl l h' cl' : h' ≠ h ∨ cl' ≠ cl → put g h cl l h' cl' = g h' cl'.
Proof. intros Hne. unfold put. rewrite decide_False; [done|tauto]. Qed.

Section lists.
Context {C T W : Type} `{ObjectPool C} {sm : SizeMap} `{!ObjectPoolLaws C sm}.
Abbreviation state := (Threads C T W).
Implicit Types (s : state) (g : contents) (P : pool) (D : gset Z) (h cl x : Z) (t : ThreadCache) (f : FreeList) (c : C).
Definition held_words s : words := op_words (objects_of s).

Definition lists_hold (m : words) t (gh : Z → list Z) : Prop :=
  zlen (lists_ t) = kClassSizesMax ∧
  ∀ cl, 0 ≤ cl < num_size_classes sm → ∃ f, lists_ t !! Z.to_nat cl = Some f ∧ chain m f (gh cl).
Record tinv D s g P : Prop := {
  ti_pool : op_rep (objects_of s) P;
  ti_cache h : h ∈ D → ∃ t, caches s !! h = Some t ∧ lists_hold (held_words s) t (g h);
  ti_class h cl x : h ∈ D → x ∈ g h cl → P !! x = Some cl;
  ti_uniq h h' cl x : h ∈ D → h' ∈ D → x ∈ g h cl → x ∈ g h' cl → h = h';
}.
(** The objects that are on no list. *)
Definition loose D g x : Prop := ∀ h cl, h ∈ D → x ∉ g h cl.
Definition user D g P x cl : Prop := P !! x = Some cl ∧ loose D g x.

(** A change of the cache [h] and of the objects. *)
Definition upd s h t c : state := with_objects (with_caches s (<[h := t]> (caches s))) c.
Lemma upd_upd s h t c t' c' : upd (upd s h t c) h t' c' = upd s h t' c'.
Proof. unfold upd. simpl. unfold with_objects, with_caches. simpl. by rewrite insert_insert_eq. Qed.
Lemma upd_caches s h t c : caches (upd s h t c) !! h = Some t.
Proof. apply lookup_insert_eq. Qed.
Lemma upd_id s h t : caches s !! h = Some t → upd s h t (objects_of s) = s.
Proof. intros Ht. unfold upd, with_objects, with_caches. simpl. rewrite insert_id by done. by destruct s. Qed.

Lemma tinv_class D s g P h cl x : tinv D s g P → h ∈ D → x ∈ g h cl → class_ok sm cl.
Proof. intros Hi Hh Hx. by destruct (op_object _ _ _ _ (ti_pool _ _ _ _ Hi) (ti_class _ _ _ _ Hi _ _ _ Hh Hx)). Qed.
Lemma tinv_uniq D s g P h h' cl cl' x : tinv D s g P → h ∈ D → h' ∈ D → x ∈ g h cl → x ∈ g h' cl' → h = h' ∧ cl = cl'.
Proof.
  intros Hi Hh Hh' Hx Hx'. pose proof (ti_class _ _ _ _ Hi _ _ _ Hh Hx). pose proof (ti_class _ _ _ _ Hi _ _ _ Hh' Hx').
  assert (cl = cl') as -> by congruence. split; [by eapply ti_uniq|done].
Qed.
Lemma chain_frame m m' f l : (∀ x, x ∈ l → m' !! x = m !! x) → chain m f l → chain m' f l.
Proof. intros Hm [? ? ?]. split; [by eapply sll_frame|done|done]. Qed.
Lemma tinv_list D s g P h t cl : tinv D s g P → h ∈ D → caches s !! h = Some t → 0 ≤ cl < num_size_classes sm →
  ∃ f, lists_ t !! Z.to_nat cl = Some f ∧ chain (held_words s) f (g h cl).
Proof. intros Hi Hh Ht Hcl. destruct (ti_cache _ _ _ _ Hi _ Hh) as (t' & Ht' & _ & Hl). simplify_eq. by apply Hl. Qed.

(** One list of one cache changes, with the objects of the pool. *)
Lemma tinv_update D s g P h t cl f' l' c' P' z : tinv D s g P → h ∈ D → caches s !! h = Some t → 0 ≤ cl < num_size_classes sm →
  op_rep c' P' → chain (op_words c') f' l' → (∀ x, x ∈ l' → P' !! x = Some cl) →
  (∀ h' cl' x, h' ∈ D → x ∈ g h' cl' → h' ≠ h ∨ cl' ≠ cl → P' !! x = P !! x ∧ op_words c' !! x = held_words s !! x ∧ x ∉ l') →
  tinv D (upd s h (with_size (with_fl t (<[Z.to_nat cl := f']> (lists_ t))) z) c') (put g h cl l') P'.
Proof.
  intros Hi Hh Ht Hcl Hrep Hf' Hl' Hfr. split; [done| | |].
  - intros h' Hh'. destruct (ti_cache _ _ _ _ Hi h' Hh') as (t' & Ht' & Hlen & Hls). unfold held_words at 1. simpl.
    destruct (decide (h' = h)) as [->|Hne].
    + assert (t' = t) as -> by congruence. rewrite lookup_insert_eq. eexists. split; [done|]. split; [simpl; by rewrite zlen_insert|]. simpl.
      intros cl' Hcl'. destruct (decide (cl' = cl)) as [->|Hc].
      * exists f'. rewrite put_eq, list_lookup_insert_eq; [done|]. destruct (Hls cl Hcl) as (f & Hf & _). by eapply lookup_lt_Some.
      * rewrite put_ne by auto. destruct (Hls cl' Hcl') as (f & Hf & Hch). exists f. rewrite list_lookup_insert_ne by lia. split; [done|].
        eapply chain_frame; [|done]. intros x Hx. apply (Hfr h cl' x); auto.
    + rewrite lookup_insert_ne by done. exists t'. split; [done|]. split; [done|]. intros cl' Hcl'. rewrite put_ne by auto.
      destruct (Hls cl' Hcl') as (f & Hf & Hch). exists f. split; [done|]. eapply chain_frame; [|done]. intros x Hx. apply (Hfr h' cl' x); auto.
  - intros h' cl' x Hh' Hx. destruct (decide (h' = h ∧ cl' = cl)) as [[-> ->]|Hne].
    + rewrite put_eq in Hx. auto.
    + assert (h' ≠ h ∨ cl' ≠ cl) as Hne' by (destruct (decide (h' = h)); [right|left]; naive_solver). rewrite put_ne in Hx by done.
      destruct (Hfr h' cl' x Hh' Hx Hne') as (-> & _). by eapply ti_class.
  - intros h1 h2 cl' x H1 H2 Hx1 Hx2.
    destruct (decide (h1 = h)) as [->|N1], (decide (h2 = h)) as [->|N2]; [done|..].
    + rewrite (put_ne _ _ _ _ h2) in Hx2 by auto. destruct (decide (cl' = cl)) as [->|Hc].
      * rewrite put_eq in Hx1. by destruct (Hfr h2 cl x) as (_ & _ & ?); auto.
      * rewrite put_ne in Hx1 by auto. by eapply ti_uniq.
    + rewrite (put_ne _ _ _ _ h1) in Hx1 by auto. destruct (decide (cl' = cl)) as [->|Hc].
      * rewrite put_eq in Hx2. by destruct (Hfr h1 cl x) as (_ & _ & ?); auto.
      * rewrite put_ne in Hx2 by auto. by eapply ti_uniq.
    + rewrite put_ne in Hx1, Hx2 by auto. by eapply ti_uniq.
Qed.

(** ** Steps of a cache

    From [s] to [s'] only the cache [h] and the objects change.  The objects [gone] go
    from their user to the caches, and [come], of class [cl], to a user; the other
    users keep theirs, with what they hold. *)
Record goes D h s g P t' (gone come : list Z) cl s' g' P' : Prop := {
  go_state : ∃ c', s' = upd s h t' c';
  go_inv : tinv D s' g' P';
  go_user x k : user D g' P' x k ↔ (user D g P x k ∧ x ∉ gone) ∨ (x ∈ come ∧ k = cl);
  go_fresh x k : x ∈ come → ¬ user D g P x k;
  go_words x k : user D g P x k → x ∉ gone → held_words s' !! x = held_words s !! x;
}.
Abbreviation still D h s g P t' s' g' P' := (goes D h s g P t' [] [] 0 s' g' P').
Lemma goes_class D h s g P t' k k' s' g' P' : goes D h s g P t' [] [] k s' g' P' → goes D h s g P t' [] [] k' s' g' P'.
Proof.
  intros [G1 G2 G3 G4 G5]. split; [done..| | |done]; intros x j; rewrite ?G3; [|by intros ?%not_elem_of_nil].
  assert (x ∉ []) by apply not_elem_of_nil. tauto.
Qed.
Lemma goes_still_l D h s g P t1 s1 g1 P1 t2 gone come cl s2 g2 P2 : still D h s g P t1 s1 g1 P1 →
  goes D h s1 g1 P1 t2 gone come cl s2 g2 P2 → goes D h s g P t2 gone come cl s2 g2 P2.
Proof.
  intros [[c1 ->] A2 A3 A4 A5] [[c2 ->] B2 B3 B4 B5].
  assert (∀ x k, user D g1 P1 x k ↔ user D g P x k) as Hu by (intros x k; rewrite A3; assert (x ∉ []) by apply not_elem_of_nil; tauto).
  split; [exists c2; by rewrite upd_upd|done| | |].
  - intros x k. by rewrite B3, Hu.
  - intros x k Hx. rewrite <- Hu. by apply B4.
  - intros x k Hx Hn. rewrite (B5 x k) by (done || by apply Hu). apply (A5 x k); [done|apply not_elem_of_nil].
Qed.
Lemma goes_still_r D h s g P t1 gone come cl s1 g1 P1 t2 s2 g2 P2 : goes D h s g P t1 gone come cl s1 g1 P1 →
  still D h s1 g1 P1 t2 s2 g2 P2 → goes D h s g P t2 gone come cl s2 g2 P2.
Proof.
  intros [[c1 ->] A2 A3 A4 A5] [[c2 ->] B2 B3 B4 B5].
  assert (∀ x k, user D g2 P2 x k ↔ user D g1 P1 x k) as Hu by (intros x k; rewrite B3; assert (x ∉ []) by apply not_elem_of_nil; tauto).
  split; [exists c2; by rewrite upd_upd|done| |done|].
  - intros x k. by rewrite Hu, A3.
  - intros x k Hx Hn. rewrite (B5 x k); [by apply (A5 x k)| |apply not_elem_of_nil]. apply A3. by left.
Qed.
Lemma still_refl D h s g P t : tinv D s g P → caches s !! h = Some t → still D h s g P t s g P.
Proof.
  intros Hi Ht. split; [exists (objects_of s); by rewrite upd_id|done| | |done].
  - intros x k. assert (x ∉ []) by apply not_elem_of_nil. tauto.
  - by intros x k ?%not_elem_of_nil.
Qed.
Lemma goes_cache D h s g P t' gone come cl s' g' P' : goes D h s g P t' gone come cl s' g' P' → caches s' !! h = Some t'.
Proof. intros [[c ->] _ _ _ _]. apply upd_caches. Qed.
(** Fields that are not the lists. *)
Lemma tinv_fields D s g P h t t' : tinv D s g P → h ∈ D → caches s !! h = Some t → lists_ t' = lists_ t →
  tinv D (upd s h t' (objects_of s)) g P.
Proof.
  intros [I1 I2 I3 I4] Hh Ht El. split; [done| |done|done]. intros h' Hh'. destruct (I2 h' Hh') as (t0 & Ht0 & Hl0). simpl.
  destruct (decide (h' = h)) as [->|Hne]; [|rewrite lookup_insert_ne by done; by exists t0].
  rewrite lookup_insert_eq. exists t'. split; [done|]. assert (t0 = t) as -> by congruence. destruct Hl0 as [Hlen Hls]. split; [by rewrite El|].
  intros cl Hcl. destruct (Hls cl Hcl) as (f & Hf & Hch). exists f. by rewrite El.
Qed.
Lemma still_fields D s g P h t t' : tinv D s g P → h ∈ D → caches s !! h = Some t → lists_ t' = lists_ t →
  still D h s g P t' (upd s h t' (objects_of s)) g P.
Proof.
  intros Hi Hh Ht El. split; [by eexists|by eapply tinv_fields| | |done].
  - intros x k. assert (x ∉ []) by apply not_elem_of_nil. tauto.
  - by intros x k ?%not_elem_of_nil.
Qed.

(** ** Rules for the accesses *)
Definition set_fl t cl f : ThreadCache := with_fl t (<[Z.to_nat cl := f]> (lists_ t)).
Section rules.
Variable ab : Prop.
Lemma wp_get_cache h t (Q : ThreadCache → state → Prop) s : caches s !! h = Some t → Q t s → wp ab (get_cache h) Q s.
Proof. unfold wp, get_cache. by intros ->. Qed.
Lemma wp_put_cache h t t' (Q : () → state → Prop) s : caches s !! h = Some t → Q tt (upd s h t' (objects_of s)) → wp ab (put_cache h t') Q s.
Proof. unfold wp, put_cache. by intros ->. Qed.
Lemma wp_on_cache h t u (Q : () → state → Prop) s : caches s !! h = Some t → Q tt (upd s h (u t) (objects_of s)) → wp ab (on_cache h u) Q s.
Proof. intros Ht HQ. unfold on_cache. by eapply wp_bind, wp_get_cache, wp_put_cache. Qed.
Lemma wp_get_fl h t cl f (Q : FreeList → state → Prop) s : caches s !! h = Some t → 0 ≤ cl → lists_ t !! Z.to_nat cl = Some f →
  Q f s → wp ab (get_fl h cl) Q s.
Proof. intros Ht Hcl Hf HQ. eapply wp_bind, wp_get_cache; [done|]. eapply wp_lift; [by apply arr_get_ok|done]. Qed.
Lemma wp_put_fl h t cl f f' (Q : () → state → Prop) s : caches s !! h = Some t → 0 ≤ cl → lists_ t !! Z.to_nat cl = Some f →
  Q tt (upd s h (set_fl t cl f') (objects_of s)) → wp ab (put_fl h cl f') Q s.
Proof.
  intros Ht Hcl Hf HQ. eapply wp_bind, wp_get_cache; [done|]. apply lookup_lt_Some in Hf. unfold zlen.
  eapply wp_bind, wp_lift; [apply arr_set_ok; unfold zlen; lia|]. by eapply wp_put_cache.
Qed.
Lemma wp_on_fl {A} h t cl f (m : FM A) a f' w (Q : A → state → Prop) s : caches s !! h = Some t → 0 ≤ cl →
  lists_ t !! Z.to_nat cl = Some f → m (f, held_words s) = Ok (a, (f', w)) →
  Q a (upd s h (set_fl t cl f') (op_set_words w (objects_of s))) → wp ab (on_fl h cl m) Q s.
Proof.
  intros Ht Hcl Hf Hm HQ. unfold on_fl. eapply wp_bind, wp_get_fl; [done..|]. apply wp_bind. unfold wp at 1.
  change (op_words (objects_of s)) with (held_words s). rewrite Hm. cbn [mbind outcome_bind]. apply wp_bind.
  eapply wp_put_fl; [done..|]. by apply wp_ret.
Qed.
Lemma wp_on_pool {A} (m : M C A) (Q : A → state → Prop) s : wp ab m (λ a c, Q a (with_objects s c)) (objects_of s) → wp ab (on_pool m) Q s.
Proof. unfold wp, on_pool. by destruct (m (objects_of s)) as [[]| |[]|]. Qed.
Lemma wp_tassert (b : bool) (Q : () → state → Prop) s : b = true → Q tt s → wp ab (TASSERT b) Q s.
Proof. by intros ->. Qed.
End rules.
End lists.
Abbreviation still D h s g P t s' g' P' := (goes D h s g P t [] [] 0 s' g' P').
