(* ===== verification/ThreadMoves.v ===== *)
(** * Thread caches: objects move

    What the operations on one list of a cache do: chains go to the central lists and
    come from them, and an object comes from a user and goes to one. *)
From stdpp Require Import base numbers list option gmap sets fin_maps fin_map_dom.
From Stdlib Require Import ZArith Lia.
From S2P Require Import Prelude SizeMap SpanList MetaData CentralFreeList CentralLists CentralPool.
From S2P Require Import ObjectPool Sampler ThreadCache ThreadLists.
Open Scope Z_scope.

Section moves.
Context {C T W : Type} `{ObjectPool C} {sm : SizeMap} `{!ObjectPoolLaws C sm}.
Abbreviation state := (Threads C T W).
Hypothesis Hsm : sizes_ok sm.
Implicit Types (s : state) (g : contents) (P : pool) (D : gset Z) (h cl x : Z) (t : ThreadCache) (f : FreeList) (c : C).
Abbreviation ab := (op_ab (C := C) (sm := sm)).

Lemma loose_put D g h cl l x : h ∈ D → loose D (put g h cl l) x ∧ x ∉ g h cl ↔ loose D g x ∧ x ∉ l.
Proof.
  intros Hh. unfold loose. split.
  - intros [Hl Hx]. split; [|specialize (Hl h cl Hh); by rewrite put_eq in Hl]. intros h' cl' Hh'.
    destruct (decide (h' = h ∧ cl' = cl)) as [[-> ->]|Hne]; [done|]. specialize (Hl h' cl' Hh'). unfold put in Hl. by rewrite decide_False in Hl.
  - intros [Hl Hx]. split; [|by apply Hl]. intros h' cl' Hh'. unfold put. case_decide; [done|by apply Hl].
Qed.

(** A chain of [N] objects goes to the central lists. *)
Lemma wp_release_chunk {A} (k : M state A) D s g P h t cl f N (Q : A → state → Prop) : tinv D s g P → h ∈ D →
  caches s !! h = Some t → class_ok sm cl → lists_ t !! Z.to_nat cl = Some f → 1 ≤ N ≤ length_ f → N ≤ cbatch sm cl →
  (∀ head s' g' P', still D h s g P (set_fl t cl (relink true f head (length_ f - N))) s' g' P' → wp ab k Q s') →
  wp ab ('(head, tail) ← on_fl h cl (PopRange N); _ ← on_pool (op_insert cl head tail N); k) Q s.
Proof.
  intros Hi Hh Ht Hcl Hf HN Hb HQ. assert (0 ≤ cl < num_size_classes sm) as Hcl' by (unfold class_ok in Hcl; lia).
  destruct (tinv_list _ _ _ _ h t cl Hi Hh Ht Hcl') as (f0 & Hf0 & Hch). assert (f0 = f) as -> by congruence.
  rewrite (ch_length _ _ _ Hch) in HN, HQ. destruct (PopRange_ok _ f (g h cl) N Hch HN) as (l1 & l2 & x & head & El & Hl1 & Hlast & E & Hch2 & Hs1).
  set (f' := relink true f head (zlen l2)) in *. set (w := <[x := 0]> (held_words s)) in *.
  assert (NoDup (l1 ++ l2)) as (Hnd & Hd & _)%NoDup_app by (rewrite <- El; apply (ch_sll _ _ _ Hch)).
  assert (∀ y, y ∈ l1 ++ l2 → P !! y = Some cl) as HP by (intros y Hy; rewrite <- El in Hy; by eapply ti_class).
  assert (x ∈ l1) as Hx by by apply last_Some_elem_of.
  assert (P !! x = Some cl) as HPx by (apply HP, elem_of_app; by left).
  eapply wp_bind, (wp_on_fl _ h t cl f); [done|lia|done|exact E|]. cbv iota beta.
  assert (op_rep (op_set_words w (objects_of s)) P) as Hrep by (apply (op_write _ _ _ _ cl); [by eapply ti_pool|done]).
  apply wp_bind, wp_on_pool. eapply wp_mono.
  { rewrite <- Hl1. apply (op_insert_spec _ P cl (list_ f) x l1); [done|simpl; by rewrite op_words_set|done| |lia].
    intros y Hy. apply HP, elem_of_app. by left. }
  intros _ c2 (P' & Hrep' & l & Hsl & -> & Hw). simpl in Hsl, Hw. rewrite op_words_set in *.
  assert (l = l1) as -> by by eapply sll_fun. apply (HQ head _ (put g h cl l2) (pool_remove l1 P)).
  replace (zlen (g h cl) - N) with (zlen l2) by (rewrite El, zlen_app; lia). fold f'.
  assert (∀ y k0, pool_remove l1 P !! y = Some k0 ↔ P !! y = Some k0 ∧ y ∉ l1) as HP' by (intros; apply lookup_pool_remove).
  assert (∀ y k0, pool_remove l1 P !! y = Some k0 → op_words c2 !! y = held_words s !! y) as Hmem.
  { intros y k0 Hy. rewrite Hw by by eexists. unfold w. apply lookup_insert_ne. intros <-. by apply HP' in Hy as [_ []]. }
  assert (∀ y, y ∈ l2 → pool_remove l1 P !! y = Some cl) as Hl2.
  { intros y Hy. apply HP'. split; [apply HP, elem_of_app; by right|]. intros Hy1. by apply (Hd y). }
  split; [exists c2; by unfold upd, with_objects, with_caches; simpl| | | |].
  - apply (tinv_update D s g P h t cl f' l2 c2 _ (size_ t)); try done.
    + eapply chain_frame; [|exact Hch2]. intros y Hy. apply Hw. by eexists; apply Hl2.
    + intros h' cl' y Hh' Hy Hne. pose proof (ti_class _ _ _ _ Hi _ _ _ Hh' Hy) as HPy.
      assert (y ∉ l1 ++ l2) as Hny.
      { rewrite <- El. intros Hy2. destruct (tinv_uniq _ _ _ _ _ _ _ _ _ Hi Hh' Hh Hy Hy2). naive_solver. }
      rewrite not_elem_of_app in Hny. assert (pool_remove l1 P !! y = Some cl') as Hy' by (apply HP'; tauto).
      split; [congruence|]. split; [by eapply Hmem|tauto].
  - intros y k0. unfold user. rewrite HP'. pose proof (loose_put D g h cl l2 y Hh) as Hlo. assert (y ∉ []) by apply not_elem_of_nil.
    assert (y ∈ g h cl ↔ y ∈ l1 ∨ y ∈ l2) as Hg by (by rewrite El, elem_of_app).
    assert (y ∈ l2 → ¬ loose D (put g h cl l2) y) as Hn2 by (intros Hy Hl; apply (Hl h cl Hh); by rewrite put_eq).
    assert (y ∈ g h cl → ¬ loose D g y) as Hn1 by (intros Hy Hl; by apply (Hl h cl Hh)). tauto.
  - by intros y k0 ?%not_elem_of_nil.
  - intros y k0 [Hy Hl] _. apply (Hmem y k0). apply HP'. split; [done|]. intros Hy1. apply (Hl h cl Hh). rewrite El, elem_of_app. by left.
Qed.

(** ** [ReleaseToCentralCache] *)
(** [f'] has [k] objects less than [f]. *)
Record less f k f' : Prop := {
  le_length : length_ f' = length_ f - k;
  le_low : lowater_ f' = Z.min (lowater_ f) (length_ f');
  le_max : max_length_ f' = max_length_ f;
  le_over : length_overages_ f' = length_overages_ f;
  le_size : object_size f' = object_size f;
}.
Lemma less_refl f : lowater_ f ≤ length_ f → less f 0 f.
Proof. intros. split; lia || done. Qed.
Lemma less_relink f k head : less f k (relink true f head (length_ f - k)).
Proof. split; try done. simpl. zcases; lia. Qed.
Lemma less_trans f j f1 k f2 : less f j f1 → less f1 k f2 → 0 ≤ k → less f (j + k) f2.
Proof. intros [] [] ?. split; try congruence; lia. Qed.
Lemma set_fl_twice t cl f f' : set_fl (set_fl t cl f) cl f' = set_fl t cl f'.
Proof. unfold set_fl, with_fl. simpl. by rewrite list_insert_insert_eq. Qed.
Lemma set_fl_lookup t cl f f' : lists_ t !! Z.to_nat cl = Some f → lists_ (set_fl t cl f') !! Z.to_nat cl = Some f'.
Proof. intros Hf. apply lookup_lt_Some in Hf. simpl. by apply list_lookup_insert_eq. Qed.

Lemma wp_release_batches D h cl : class_ok sm cl → h ∈ D → ∀ fuel t f s g P N (Q : Z → state → Prop), tinv D s g P →
  caches s !! h = Some t → lists_ t !! Z.to_nat cl = Some f → lowater_ f ≤ length_ f → 1 ≤ N ≤ length_ f → N < Z.of_nat fuel →
  (∀ k f' s' g' P', 1 ≤ k ≤ N → k ≤ cbatch sm cl → less f (N - k) f' → still D h s g P (set_fl t cl f') s' g' P' → Q k s') →
  wp ab (release_batches fuel h cl N (cbatch sm cl)) Q s.
Proof.
  intros Hcl Hh. pose proof (cs_batch_range _ _ _ _ _ (class_sizes_of sm Hsm cl Hcl)) as Hb.
  induction fuel as [|fuel IH]; intros t f s g P N Q Hi Ht Hf Hlow HN Hfu HQ; [lia|]. cbn [release_batches].
  apply wp_if; intros Hc; [apply Z.ltb_lt in Hc|apply Z.ltb_ge in Hc].
  - eapply (wp_release_chunk _ D s g P h t cl f (cbatch sm cl)); [done..|lia|lia|]. intros head s1 g1 P1 Hgo.
    pose proof (less_relink f (cbatch sm cl) head) as Hle. set (f1 := relink true f head _) in *.
    eapply (IH (set_fl t cl f1) f1); [by eapply go_inv|by eapply goes_cache|by eapply set_fl_lookup|destruct Hle; lia..|lia|].
    intros k f' s' g' P' Hk Hkb Hle' Hgo'. rewrite set_fl_twice in Hgo'. apply (HQ k f' s' g' P'); [lia|done| |by eapply goes_still_l].
    replace (N - k) with (cbatch sm cl + (N - cbatch sm cl - k)) by lia. eapply less_trans; [done..|lia].
  - apply wp_ret, (HQ N f s g P); [lia|done|rewrite Z.sub_diag; by apply less_refl|].
    replace (set_fl t cl f) with t; [by apply still_refl|]. unfold set_fl. rewrite list_insert_id by done. by destruct t.
Qed.
(** At most [N] objects of the list go to the central lists. *)
Definition released t cl f' (n : Z) : ThreadCache := with_size (set_fl t cl f') (to_int (size_t (size_ t - n * csize sm cl))).
Lemma wp_ReleaseToCentralCache D s g P h t cl f N (Q : () → state → Prop) : tinv D s g P → h ∈ D →
  caches s !! h = Some t → class_ok sm cl → lists_ t !! Z.to_nat cl = Some f → lowater_ f ≤ length_ f → 1 ≤ length_ f → 1 ≤ N ≤ INT_MAX →
  csize sm cl * length_ f ≤ INT_MAX →
  (∀ f' s' g' P', less f (Z.min N (length_ f)) f' → still D h s g P (released t cl f' (Z.min N (length_ f))) s' g' P' → Q tt s') →
  wp ab (ReleaseToCentralCache sm h cl N) Q s.
Proof.
  intros Hi Hh Ht Hcl Hf Hlow Hlen HN Hfit HQ. assert (0 ≤ cl < num_size_classes sm) as Hcl' by (unfold class_ok in Hcl; lia).
  assert (length_ f ≤ 8193) as Hmax.
  { destruct (tinv_list _ _ _ _ h t cl Hi Hh Ht Hcl') as (f0 & Hf0 & [_ E Hm]). assert (f0 = f) as -> by congruence. change kMaxDynamicFreeListLength with 8192 in Hm. lia. }
  unfold ReleaseToCentralCache. eapply wp_bind, wp_get_fl; [done|lia|done|].
  set (n := if length_ f <? size_t N then to_int (length_ f) else N).
  assert (n = Z.min N (length_ f)) as En.
  { unfold n. rewrite size_t_nonneg by lia. destruct (Z.ltb_spec (length_ f) N); [rewrite to_int_small by (unfold INT_MAX; lia)|]; lia. }
  rewrite En. clear n En. set (n := Z.min N (length_ f)) in *.
  eapply wp_bind, wp_lift; [by apply ByteSizeForClass_ok|]. cbv zeta.
  pose proof (cs_size_range _ _ _ _ _ (class_sizes_of sm Hsm cl Hcl)) as Hcs. assert (0 ≤ n ≤ length_ f) as Hn by (unfold n; lia).
  eapply wp_bind, wp_lift; [apply i32_ok; unfold INT_MIN; nia|]. eapply wp_bind, wp_lift; [by apply num_objects_to_move_ok|].
  eapply wp_bind, (wp_release_batches D h cl Hcl Hh); [done..|lia|lia|]. intros k f1 s1 g1 P1 Hk Hkb Hle1 Hgo1.
  eapply (wp_release_chunk _ D s1 g1 P1 h _ cl f1 k); [by eapply go_inv|done|by eapply goes_cache|done|by eapply set_fl_lookup|destruct Hle1; lia|done|].
  intros head s2 g2 P2 Hgo2. rewrite set_fl_twice in Hgo2. pose proof (less_relink f1 k head) as Hle2. set (f2 := relink true f1 head _) in *.
  eapply wp_on_cache; [by eapply goes_cache|]. apply (HQ f2 _ g2 P2).
  { replace n with (n - k + k) by lia. eapply less_trans; [done..|lia]. }
  pose proof (goes_still_l _ _ _ _ _ _ _ _ _ _ _ _ _ _ _ _ Hgo1 Hgo2) as Hgo. eapply goes_still_l; [exact Hgo|].
  replace (size_ (set_fl t cl f2) - size_t (n * csize sm cl)) with (size_ t - size_t (n * csize sm cl)) by done.
  replace (with_size (set_fl t cl f2) _) with (released t cl f2 n).
  - eapply still_fields; [by eapply go_inv|done|by eapply goes_cache|done].
  - unfold released. f_equal. f_equal. unfold size_t. by rewrite Zminus_mod_idemp_r.
Qed.

(** ** One object *)
Lemma user_object D s g P x cl : tinv D s g P → user D g P x cl → class_ok sm cl ∧ 0 < x ∧ is_Some (held_words s !! x).
Proof. intros Hi [Hx _]. by eapply op_object; [by eapply ti_pool|]. Qed.
(** Objects of users become the first ones of a list. *)
Lemma goes_give D s g P h t cl f f' l1 x v : tinv D s g P → h ∈ D → caches s !! h = Some t → 0 ≤ cl < num_size_classes sm →
  x ∈ l1 → (∀ y, y ∈ l1 → user D g P y cl) → chain (<[x := v]> (held_words s)) f' (l1 ++ g h cl) →
  goes D h s g P (set_fl t cl f') l1 [] cl (upd s h (set_fl t cl f') (op_set_words (<[x := v]> (held_words s)) (objects_of s)))
    (put g h cl (l1 ++ g h cl)) P.
Proof.
  intros Hi Hh Ht Hcl Hx Hl1 Hch. split; [by eexists| | | |].
  - apply (tinv_update D s g P h t cl f' (l1 ++ g h cl) _ _ (size_ t)); try done.
    + apply (op_write _ _ _ _ cl); [by eapply ti_pool|by apply Hl1].
    + by rewrite op_words_set.
    + intros y [Hy|Hy]%elem_of_app; [by apply Hl1|by eapply ti_class].
    + intros h' cl' y Hh' Hy Hne. assert (y ∉ l1) as Hn by (intros Hy'; destruct (Hl1 y Hy') as [_ Hl]; by apply (Hl h' cl' Hh')).
      rewrite op_words_set. split; [done|]. split; [apply lookup_insert_ne; by intros ->|]. rewrite not_elem_of_app. split; [done|].
      intros Hy'. destruct (tinv_uniq _ _ _ _ _ _ _ _ _ Hi Hh' Hh Hy Hy'). naive_solver.
  - intros y k. unfold user. pose proof (loose_put D g h cl (l1 ++ g h cl) y Hh) as Hlo. rewrite elem_of_app in Hlo.
    assert (y ∉ []) by apply not_elem_of_nil. assert (y ∈ l1 ++ g h cl → ¬ loose D (put g h cl (l1 ++ g h cl)) y) as Hn2 by (intros Hy Hl; apply (Hl h cl Hh); by rewrite put_eq).
    rewrite elem_of_app in Hn2. assert (y ∈ g h cl → ¬ loose D g y) as Hn1 by (intros Hy Hl; by apply (Hl h cl Hh)). tauto.
  - by intros y k ?%not_elem_of_nil.
  - intros y k _ Hy. unfold held_words. simpl. rewrite op_words_set. apply lookup_insert_ne. by intros ->.
Qed.
Lemma wp_Push D s g P h t cl f x (Q : Z → state → Prop) : tinv D s g P → h ∈ D → caches s !! h = Some t →
  lists_ t !! Z.to_nat cl = Some f → user D g P x cl → length_ f ≤ kMaxDynamicFreeListLength →
  (∀ s' g' P', goes D h s g P (set_fl t cl (relink false f x (length_ f + 1))) [x] [] cl s' g' P' → Q (length_ f + 1) s') →
  wp ab (on_fl h cl (Push x)) Q s.
Proof.
  intros Hi Hh Ht Hf Hu Hlen HQ. destruct (user_object _ _ _ _ _ _ Hi Hu) as (Hcl & Hx0 & Hx). unfold class_ok in Hcl.
  destruct (tinv_list _ _ _ _ h t cl Hi Hh Ht) as (f0 & Hf0 & Hch); [lia|]. assert (f0 = f) as -> by congruence.
  assert (x ∉ g h cl) as Hxl by by apply Hu.
  destruct (Push_ok _ f _ x Hch) as [E Hch']; [rewrite <- (ch_length _ _ _ Hch); done|done|lia|done|].
  replace (zlen (x :: g h cl)) with (length_ f + 1) in * by (rewrite zlen_cons, (ch_length _ _ _ Hch); lia).
  eapply wp_on_fl; [done|lia|done|exact E|]. eapply HQ, (goes_give D s g P h t cl f _ [x] x); [done..|lia|left| |exact Hch'].
  by intros y ->%list_elem_of_singleton.
Qed.

Lemma chain_nil m f l : chain m f l → length_ f = 0 → l = [].
Proof. intros [_ E _] Hz. apply zlen_0_nil. congruence. Qed.
Lemma wp_TryPop D s g P h t cl f (Q : option Z → state → Prop) : tinv D s g P → h ∈ D → caches s !! h = Some t →
  class_ok sm cl → lists_ t !! Z.to_nat cl = Some f →
  (length_ f = 0 → g h cl = [] → list_ f = 0 → Q None s) →
  (∀ x head s' g' P', 1 ≤ length_ f → goes D h s g P (set_fl t cl (relink true f head (length_ f - 1))) [] [x] cl s' g' P' → Q (Some x) s') →
  wp ab (on_fl h cl TryPop) Q s.
Proof.
  intros Hi Hh Ht Hcl Hf HQ0 HQ1. unfold class_ok in Hcl. destruct (tinv_list _ _ _ _ h t cl Hi Hh Ht) as (f0 & Hf0 & Hch); [lia|]. assert (f0 = f) as -> by congruence.
  pose proof (TryPop_ok _ f _ Hch) as Hpop. destruct (g h cl) as [|x l] eqn:El.
  { eapply wp_on_fl; [done|lia|done|exact Hpop|]. unfold set_fl. rewrite list_insert_id by done. unfold held_words. rewrite op_set_id.
    replace (with_fl t (lists_ t)) with t by by destruct t. rewrite upd_id by done.
    apply HQ0; [by rewrite (ch_length _ _ _ Hch)|done|]. by destruct Hch as [[] _ _]. }
  destruct Hpop as (head & E & Hch'). pose proof (ch_length _ _ _ Hch) as Hlen. rewrite zlen_cons in Hlen. pose proof (zlen_nonneg l).
  eapply wp_on_fl; [done|lia|done|exact E|]. unfold held_words at 1. rewrite op_set_id. replace (zlen l) with (length_ f - 1) in * by lia. set (f' := relink true f head _) in *.
  assert (x ∉ l) as Hxl by (destruct (ch_sll _ _ _ Hch) as [_ Hnd]; by apply NoDup_cons in Hnd as [? _]).
  assert (∀ y, y ∈ x :: l → P !! y = Some cl) as HP by (intros y Hy; rewrite <- El in Hy; by eapply ti_class).
  apply (HQ1 x head _ (put g h cl l) P); [lia|]. split; [by eexists| | | |].
  - apply (tinv_update D s g P h t cl f' l _ _ (size_ t)); try done; [lia|by eapply ti_pool|intros y Hy; apply HP; by right|].
    intros h' cl' y Hh' Hy Hne. split; [done|]. split; [done|]. intros Hyl. assert (y ∈ g h cl) as Hy' by (rewrite El; by right).
    destruct (tinv_uniq _ _ _ _ _ _ _ _ _ Hi Hh' Hh Hy Hy'). naive_solver.
  - intros y k. unfold user. pose proof (loose_put D g h cl l y Hh) as Hlo. rewrite El, elem_of_cons in Hlo. rewrite list_elem_of_singleton.
    assert (y ∉ []) by apply not_elem_of_nil. assert (y ∈ l → ¬ loose D (put g h cl l) y) as Hn2 by (intros Hy Hl; apply (Hl h cl Hh); by rewrite put_eq).
    assert (y ∈ x :: l → ¬ loose D g y) as Hn1 by (intros Hy Hl; apply (Hl h cl Hh); by rewrite El). rewrite elem_of_cons in Hn1.
    split; [|intros [[[??] _]|[-> ->]]].
    + intros [HPy Hl]. destruct (decide (y = x)) as [->|Hne]; [|left; tauto]. right. split; [done|]. assert (P !! x = Some cl) by (apply HP; left). congruence.
    + tauto.
    + split; [apply HP; left|]. intros h' cl' Hh'. unfold put. case_decide as Hd; [done|]. intros Hx'. assert (x ∈ g h cl) as Hx by (rewrite El; left).
      by destruct (tinv_uniq _ _ _ _ _ _ _ _ _ Hi Hh' Hh Hx' Hx) as [-> ->], Hd.
  - intros y k ->%list_elem_of_singleton [_ Hl]. apply (Hl h cl Hh). rewrite El. left.
  - done.
Qed.

(** ** [FetchFromCentralCache] *)
(** How [max_length_] grows. *)
Definition grown (ml batch : Z) : Z :=
  if ml <? batch then ml + 1 else let n := Z.min (ml + batch) kMaxDynamicFreeListLength in n - n mod batch.
(** The pool gives a chain. *)
Lemma wp_op_remove {A} (k : Z * Z * Z → M state A) D s g P h t cl N (Q : A → state → Prop) : tinv D s g P → h ∈ D →
  caches s !! h = Some t → class_ok sm cl → 0 < N →
  (∀ l start end_ s' P', zlen l ≤ N → sll (held_words s') start l → (l ≠ [] → last l = Some end_) → (l = [] → op_empty (objects_of s) cl) →
     goes D h s g P t [] l cl s' g P' → wp ab (k (zlen l, start, end_)) Q s') →
  wp ab (r ← on_pool (op_remove cl N); k r) Q s.
Proof.
  intros Hi Hh Ht Hcl HN HQ. pose proof (ti_pool _ _ _ _ Hi) as Hrep. apply wp_bind, wp_on_pool. eapply wp_mono; [by apply (op_remove_spec _ P cl N)|].
  intros [[count start] end_] c1 (P' & Hrep' & (l & Hs & Hlz & Hlen & Hlast & Hfresh & -> & Hw) & Hemp). simpl in *. subst count.
  assert (with_objects s c1 = upd s h t c1) as Es.
  { unfold upd, with_objects, with_caches. simpl. by rewrite insert_id. }
  apply (HQ l start end_ _ (pool_add l cl P)); [done..|by intros ->; apply Hemp|]. split; [by exists c1| | | |].
  - destruct Hi as [I1 I2 I3 I4]. split; [done| | |done].
    + intros h' Hh'. destruct (I2 h' Hh') as (t' & Ht' & Hlen' & Hls). exists t'. split; [done|]. split; [done|]. intros cl' Hcl'.
      destruct (Hls cl' Hcl') as (f & Hf & Hch). exists f. split; [done|]. eapply chain_frame; [|done]. intros y Hy.
      apply Hw. eexists. by eapply I3.
    + intros h' cl' y Hh' Hy. rewrite lookup_pool_add. pose proof (I3 _ _ _ Hh' Hy). case_decide as Hd; [|done]. apply Hfresh in Hd. congruence.
  - intros y j. unfold user. rewrite lookup_pool_add. assert (y ∉ []) by apply not_elem_of_nil. case_decide as Hd; [|tauto].
    assert (loose D g y). { intros h' cl' Hh' Hy. apply Hfresh in Hd. pose proof (ti_class _ _ _ _ Hi _ _ _ Hh' Hy). congruence. }
    pose proof (Hfresh y Hd). naive_solver.
  - intros y j Hy [HPy _]. apply Hfresh in Hy. congruence.
  - intros y j [HPy _] _. apply Hw. by eexists.
Qed.
(** All but the first object of a chain that came go on the list. *)
Lemma goes_keep_first D h s g P t t' x l2 cl s1 g1 P1 s2 g2 P2 : x ∉ l2 → goes D h s g P t [] (x :: l2) cl s1 g1 P1 →
  goes D h s1 g1 P1 t' l2 [] cl s2 g2 P2 → goes D h s g P t' [] [x] cl s2 g2 P2.
Proof.
  intros Hx [[c1 ->] A2 A3 A4 A5] [[c2 ->] B2 B3 B4 B5]. assert (∀ y : Z, y ∉ []) as Hn by (intros; apply not_elem_of_nil).
  assert (∀ y k, user D g P y k → y ∉ l2) as Hfr by (intros y k Hy Hl; apply (A4 y k); [by right|done]).
  split; [exists c2; by rewrite upd_upd|done| | |].
  - intros y k. rewrite B3, A3, elem_of_cons, list_elem_of_singleton. pose proof (Hn y). pose proof (Hfr y k). naive_solver.
  - intros y k ->%list_elem_of_singleton. apply A4. left.
  - intros y k Hy _. rewrite (B5 y k); [by apply (A5 y k)|apply A3; by left|by eapply Hfr].
Qed.
Lemma wp_PushRange D s g P h t cl f l1 start end_ (Q : () → state → Prop) : tinv D s g P → h ∈ D → caches s !! h = Some t →
  class_ok sm cl → lists_ t !! Z.to_nat cl = Some f → sll (held_words s) start l1 → (l1 ≠ [] → last l1 = Some end_) →
  (∀ y, y ∈ l1 → user D g P y cl) → zlen l1 + length_ f ≤ kMaxDynamicFreeListLength →
  (∀ head s' g' P', goes D h s g P (set_fl t cl (relink false f head (length_ f + zlen l1))) l1 [] cl s' g' P' → Q tt s') →
  wp ab (on_fl h cl (PushRange (zlen l1) start end_)) Q s.
Proof.
  intros Hi Hh Ht Hcl Hf Hs Hlast Hu Hlen HQ. unfold class_ok in Hcl.
  destruct (tinv_list _ _ _ _ h t cl Hi Hh Ht) as (f0 & Hf0 & Hch); [lia|]. assert (f0 = f) as -> by congruence.
  pose proof (ch_length _ _ _ Hch) as Ef. destruct l1 as [|y l1].
  - destruct Hs as [Hs _]. simpl in Hs. subst start. pose proof (zlen_nonneg (g h cl)). change kMaxDynamicFreeListLength with 8192 in *.
    eapply wp_on_fl; [done|lia|done| |].
    { unfold PushRange, SLL_PushRange. change (0 =? 0) with true. cbn [mbind outcome_bind mret outcome_ret]. reflexivity. }
    unfold held_words. rewrite op_set_id. rewrite zlen_nil, Z.add_0_r, u32_id in * by lia.
    replace (relink false f (list_ f) (length_ f)) with f in * by by destruct f. apply (HQ (list_ f) _ g P).
    replace (relink false f (list_ f) (length_ f)) with f by by destruct f.
    eapply (goes_class D h s g P (set_fl t cl f) 0 cl), still_fields; [done..|]. simpl. by rewrite list_insert_id.
  - set (l := y :: l1) in *. assert (last l = Some end_) as Hl by by apply Hlast.
    destruct (PushRange_ok _ f (g h cl) l start end_ Hch Hs Hl) as [E Hch'].
    { intros z Hz. by apply (Hu z Hz). } { rewrite zlen_app. lia. }
    replace (zlen (l ++ g h cl)) with (length_ f + zlen l) in * by (rewrite zlen_app; lia).
    eapply wp_on_fl; [done|lia|done|exact E|]. eapply HQ, (goes_give D s g P h t cl f _ l end_); [done..|lia|by apply last_Some_elem_of|done|exact Hch'].
Qed.
(** [f'] has [k] objects, and has grown. *)
Record refilled f cl k f' : Prop := {
  re_length : length_ f' = k;
  re_low : lowater_ f' = lowater_ f;
  re_max : max_length_ f' = grown (max_length_ f) (cbatch sm cl);
  re_over : length_overages_ f' = length_overages_ f;
  re_size : object_size f' = object_size f;
}.
Lemma grown_range ml batch : 1 ≤ ml ≤ 8192 → 1 ≤ batch ≤ 8192 → 1 ≤ grown ml batch ≤ 8192.
Proof.
  intros Hm Hb. unfold grown. change kMaxDynamicFreeListLength with 8192. zcase; [lia|]. set (n := Z.min (ml + batch) 8192).
  pose proof (Z.mod_pos_bound n batch ltac:(lia)). pose proof (Z.mod_le n batch). destruct (Z.eq_dec n batch) as [E|]; [rewrite E, Z.mod_same by lia|]; lia.
Qed.
(** The counters of a list change. *)
Lemma still_fl D s g P h t cl f f' : tinv D s g P → h ∈ D → caches s !! h = Some t → 0 ≤ cl < num_size_classes sm →
  lists_ t !! Z.to_nat cl = Some f → list_ f' = list_ f → length_ f' = length_ f →
  still D h s g P (set_fl t cl f') (upd s h (set_fl t cl f') (objects_of s)) g P.
Proof.
  intros Hi Hh Ht Hcl Hf E1 E2. destruct (tinv_list _ _ _ _ h t cl Hi Hh Ht Hcl) as (f0 & Hf0 & [S1 S2 S3]).
  assert (f0 = f) as -> by congruence. split; [by eexists| | | |done].
  - destruct Hi as [I1 I2 I3 I4]. split; [done| |done|done]. intros h' Hh'. destruct (I2 h' Hh') as (t' & Ht' & Hlen & Hls). simpl.
    destruct (decide (h' = h)) as [->|Hne]; [|rewrite lookup_insert_ne by done; by exists t'].
    assert (t' = t) as -> by congruence. rewrite lookup_insert_eq. eexists. split; [done|]. split; [simpl; by rewrite zlen_insert|]. intros cl' Hcl2.
    destruct (decide (cl' = cl)) as [->|Hc].
    + exists f'. split; [by eapply set_fl_lookup|]. split; [by rewrite E1|congruence|done].
    + destruct (Hls cl' Hcl2) as (f2 & Hf2 & Hch). exists f2. simpl. by rewrite list_lookup_insert_ne by lia.
  - intros y j. assert (y ∉ []) by apply not_elem_of_nil. tauto.
  - by intros y j ?%not_elem_of_nil.
Qed.
Lemma wp_grow {A} (k : M state A) D s g P h t cl f (Q : A → state → Prop) : tinv D s g P → h ∈ D → caches s !! h = Some t →
  class_ok sm cl → lists_ t !! Z.to_nat cl = Some f → 1 ≤ max_length_ f ≤ kMaxDynamicFreeListLength →
  (∀ s', still D h s g P (set_fl t cl (set_max_length f (grown (max_length_ f) (cbatch sm cl)))) s' g P → wp ab k Q s') →
  wp ab (_ ← (if max_length_ f <? size_t (cbatch sm cl) then put_fl h cl (set_max_length f (max_length_ f + 1))
          else
            let new_length := Z.min (to_int (size_t (max_length_ f + cbatch sm cl))) kMaxDynamicFreeListLength in
            r ← lift (c_rem new_length (cbatch sm cl));
            let new_length := new_length - r in
            r ← lift (c_rem new_length (cbatch sm cl));
            _ ← TASSERT (r =? 0);
            put_fl h cl (set_max_length f new_length)); k) Q s.
Proof.
  intros Hi Hh Ht Hcl Hf Hml HQ. assert (0 ≤ cl < num_size_classes sm) as Hcl' by (unfold class_ok in Hcl; lia).
  pose proof (cs_batch_range _ _ _ _ _ (class_sizes_of sm Hsm cl Hcl)) as Hb. change kMaxDynamicFreeListLength with 8192 in *.
  apply wp_bind. rewrite size_t_nonneg by (unfold INT_MAX; lia). unfold grown in HQ. change kMaxDynamicFreeListLength with 8192 in HQ.
  apply wp_if; intros Hc; [rewrite Hc in HQ|rewrite Hc in HQ; apply Z.ltb_ge in Hc].
  - eapply wp_put_fl; [done|lia|done|]. by eapply HQ, still_fl.
  - cbv zeta. rewrite size_t_nonneg, to_int_small by (unfold INT_MAX; lia). set (n := Z.min _ _) in *. assert (0 ≤ n) by lia.
    eapply wp_bind, wp_lift; [apply c_rem_ok; lia|]. pose proof (Z.mod_pos_bound n (cbatch sm cl) ltac:(lia)). pose proof (Z.mod_le n (cbatch sm cl) ltac:(lia) ltac:(lia)).
    eapply wp_bind, wp_lift; [apply c_rem_ok; lia|]. apply wp_bind, wp_tassert.
    { apply Z.eqb_eq. rewrite Zminus_mod_idemp_r, Z.sub_diag. apply Z.mod_0_l. lia. }
    eapply wp_put_fl; [done|lia|done|]. by eapply HQ, still_fl.
Qed.
Lemma wp_FetchFromCentralCache D s g P h t cl f oom (Q : Z → state → Prop) : tinv D s g P → h ∈ D → caches s !! h = Some t →
  class_ok sm cl → lists_ t !! Z.to_nat cl = Some f → list_ f = 0 → length_ f = 0 → 1 ≤ max_length_ f ≤ kMaxDynamicFreeListLength →
  0 ≤ size_ t → size_ t + 2 ^ 20 ≤ INT_MAX →
  (∀ s' P', op_empty (objects_of s) cl → still D h s g P t s' g P' → wp ab (oom (csize sm cl)) Q s') →
  (∀ x k f' s' g' P', 0 ≤ k < Z.min (max_length_ f) (cbatch sm cl) → refilled f cl k f' →
     goes D h s g P (with_size (set_fl t cl f') (size_ t + csize sm cl * k)) [] [x] cl s' g' P' → Q x s') →
  wp ab (FetchFromCentralCache sm h cl (csize sm cl) oom) Q s.
Proof.
  intros Hi Hh Ht Hcl Hf Hlist Hlen0 Hml Hsz0 Hsz HQ0 HQ1. assert (0 ≤ cl < num_size_classes sm) as Hcl' by (unfold class_ok in Hcl; lia).
  pose proof (class_sizes_of sm Hsm cl Hcl) as Hcs. pose proof (cs_batch_range _ _ _ _ _ Hcs) as Hb. pose proof (cs_moved _ _ _ _ _ Hcs) as Hmv.
  pose proof (cs_size_range _ _ _ _ _ Hcs) as Hsr. change kMaxSize with 262144 in Hsr. change kMaxDynamicFreeListLength with 8192 in *.
  unfold FetchFromCentralCache. eapply wp_bind, wp_get_fl; [done|lia|done|]. apply wp_bind, wp_tassert; [by apply Z.eqb_eq|].
  eapply wp_bind, wp_lift; [by apply num_objects_to_move_ok|]. cbv zeta. rewrite to_int_small by (unfold INT_MAX; lia).
  eapply (wp_op_remove _ D s g P h t cl); [done..|lia|]. intros l start end_ s1 P1 Hl Hs Hlast Hemp Hgo. cbv iota beta.
  apply wp_if; intros Hz; [apply Z.eqb_eq in Hz|apply Z.eqb_neq in Hz].
  - apply zlen_0_nil in Hz as ->. apply wp_bind, wp_tassert; [destruct Hs as [-> _]; done|]. rewrite size_t_nonneg by (unfold INT_MAX; lia).
    apply (HQ0 s1 P1); [by apply Hemp|]. by apply (goes_class D h s g P t cl 0).
  - destruct l as [|x l2]; [done|]. pose proof Hs as [(-> & Hx0 & next & Hnext & Hs2) Hnd]. apply NoDup_cons in Hnd as [Hx Hnd].
    apply wp_bind, wp_tassert; [apply negb_true_iff, Z.eqb_neq; done|]. rewrite zlen_cons in *. replace (1 + zlen l2 - 1) with (zlen l2) by lia.
    pose proof (zlen_nonneg l2). rewrite (proj2 (Z.leb_le 0 (zlen l2))) by done. apply wp_bind.
    assert (0 ≤ csize sm cl * zlen l2 ≤ 2 ^ 20) as Hbytes by (split; [apply Z.mul_nonneg_nonneg|transitivity (csize sm cl * cbatch sm cl); [apply Z.mul_le_mono_nonneg_l|]]; lia).
    eapply wp_bind, wp_lift; [apply i32_ok; unfold INT_MIN, INT_MAX; lia|]. apply wp_bind. unfold add_bytes.
    pose proof (goes_cache _ _ _ _ _ _ _ _ _ _ _ _ Hgo) as Ht1.
    eapply wp_bind, wp_get_cache; [done|]. eapply wp_bind, wp_lift; [apply i32_ok; unfold INT_MIN; lia|]. eapply wp_put_cache; [done|].
    set (t2 := with_size t _). pose proof (still_fields D s1 g P1 h t t2 (go_inv _ _ _ _ _ _ _ _ _ _ _ _ Hgo) Hh Ht1 eq_refl) as Hgo2.
    pose proof (goes_still_r _ _ _ _ _ _ _ _ _ _ _ _ _ _ _ _ Hgo Hgo2) as Hgo3. apply wp_bind. unfold wp at 1. unfold lift, SLL_Next.
    change (op_words (objects_of (upd s1 h t2 (objects_of s1)))) with (held_words s1). rewrite Hnext.
    eapply (wp_PushRange D _ g P1 h t2 cl f l2); [by eapply go_inv|done|by eapply goes_cache|done|done|by split| | |change kMaxDynamicFreeListLength with 8192; lia|].
    { intros Hne. rewrite <- Hlast by done. by destruct l2. }
    { intros y Hy. apply (go_user _ _ _ _ _ _ _ _ _ _ _ _ Hgo3). right. split; [by right|done]. }
    intros head s4 g4 P4 Hgo4. rewrite Hlen0, Z.add_0_l in Hgo4. set (f4 := relink false f head _) in *.
    pose proof (goes_keep_first _ _ _ _ _ _ _ _ _ _ _ _ _ _ _ _ Hx Hgo3 Hgo4) as Hgo5.
    assert (lists_ (set_fl t2 cl f4) !! Z.to_nat cl = Some f4) as Hf4 by by eapply set_fl_lookup.
    eapply wp_bind, wp_get_fl; [by eapply goes_cache|lia|exact Hf4|].
    eapply (wp_grow _ D s4 g4 P4 h (set_fl t2 cl f4) cl f4); [by eapply go_inv|done|by eapply goes_cache|done|done|done|].
    intros s6 Hgo6. apply wp_ret. eapply (HQ1 x (zlen l2) (set_max_length f4 _)); [lia| |].
    + split; try done. simpl. apply u32_id. pose proof (grown_range (max_length_ f4) (cbatch sm cl) ltac:(simpl; lia) ltac:(lia)). simpl in *. lia.
    + rewrite set_fl_twice in Hgo6. replace (with_size (set_fl t cl _) _) with (set_fl t2 cl (set_max_length f4 (grown (max_length_ f4) (cbatch sm cl)))).
      * by eapply goes_still_r.
      * done.
Qed.
End moves.
