(* ===== verification/ThreadSizes.v ===== *)
(** * Thread caches: lengths and sizes

    The counters of the lists of a cache, the sum [size_] of the bytes on them, and the
    bound on it that makes 32 bits enough. *)
From stdpp Require Import base numbers list option gmap sets fin_maps fin_map_dom.
From Stdlib Require Import ZArith Lia.
From S2P Require Import Prelude SizeMap SpanList MetaData CentralFreeList CentralLists CentralPool.
From S2P Require Import ObjectPool Sampler ThreadCache ThreadLists ThreadMoves.
Open Scope Z_scope.

(** ** Sums over the lists *)
Section sums.
Implicit Types (w d : nat → FreeList → Z) (l : list FreeList).
Fixpoint lsum w l : Z := match l with [] => 0 | f :: l => w 0%nat f + lsum (λ k, w (S k)) l end.
Lemma lsum_insert l f' : ∀ w k f, l !! k = Some f → lsum w (<[k := f']> l) = lsum w l - w k f + w k f'.
Proof.
  induction l as [|f0 l IH]; intros w [|k] f Hf; simplify_eq/=; [lia|]. rewrite (IH (λ k, w (S k)) k f Hf). lia.
Qed.
Lemma lsum_le l l' : ∀ w w' d, length l = length l' →
  (∀ k f f', l !! k = Some f → l' !! k = Some f' → w' k f' + d k f ≤ w k f) → lsum w' l' + lsum d l ≤ lsum w l.
Proof.
  revert l'. induction l as [|f l IH]; intros [|f' l'] w w' d Hlen Hle; simplify_eq/=; [done|].
  pose proof (Hle 0%nat f f' eq_refl eq_refl). assert (lsum (λ k, w' (S k)) l' + lsum (λ k, d (S k)) l ≤ lsum (λ k, w (S k)) l); [|lia].
  apply IH; [done|]. intros k a b Ha Hb. by apply (Hle (S k)).
Qed.
Lemma lsum_nonneg l : ∀ w, (∀ k f, l !! k = Some f → 0 ≤ w k f) → 0 ≤ lsum w l.
Proof.
  induction l as [|f l IH]; intros w Hw; simpl; [done|]. pose proof (Hw 0%nat f eq_refl).
  assert (0 ≤ lsum (λ k, w (S k)) l); [|lia]. apply IH. intros k a Ha. by apply (Hw (S k)).
Qed.
Lemma lsum_at l : ∀ w k f, l !! k = Some f → (∀ j a, l !! j = Some a → 0 ≤ w j a) → w k f ≤ lsum w l.
Proof.
  induction l as [|f0 l IH]; intros w [|k] f Hf Hw; simplify_eq/=.
  - pose proof (lsum_nonneg l (λ j, w (S j)) (λ j a Ha, Hw (S j) a Ha)). cbn beta in *. lia.
  - pose proof (Hw 0%nat f0 eq_refl). pose proof (IH (λ j, w (S j)) k f Hf (λ j a Ha, Hw (S j) a Ha)). cbn beta in *. lia.
Qed.
Lemma lsum_bound l z : 0 ≤ z → ∀ w, (∀ k f, l !! k = Some f → w k f ≤ z) → lsum w l ≤ z * zlen l.
Proof.
  intros Hz. induction l as [|f l IH]; intros w Hw; cbn [lsum]; [unfold zlen; simpl; lia|]. rewrite zlen_cons.
  pose proof (Hw 0%nat f eq_refl). pose proof (IH (λ k, w (S k)) (λ j a Ha, Hw (S j) a Ha)). cbn beta in *. lia.
Qed.
End sums.

Section sizes.
Variable sm : SizeMap.
Hypothesis Hsm : sizes_ok sm.
Implicit Types (t : ThreadCache) (f : FreeList) (cl : Z).

(** ** The counters of a list, and of all *)
Record fl_ok cl f : Prop := {
  fo_length : 0 ≤ length_ f ≤ kMaxDynamicFreeListLength;
  fo_low : 0 ≤ lowater_ f ≤ length_ f;
  fo_max : 1 ≤ max_length_ f ≤ kMaxDynamicFreeListLength;
  fo_over : 0 ≤ length_overages_ f ≤ kMaxOverages;
  fo_size : class_ok sm cl → object_size f = csize sm cl;
  fo_zero : cl = 0 → length_ f = 0;
  fo_multiple : class_ok sm cl → cbatch sm cl < max_length_ f → (cbatch sm cl | max_length_ f);
}.
Definition is_class cl : bool := (1 <=? cl) && (cl <? num_size_classes sm).
Lemma is_class_ok cl : is_class cl = true ↔ class_ok sm cl.
Proof. unfold is_class, class_ok. rewrite andb_true_iff, Z.leb_le, Z.ltb_lt. done. Qed.
Definition bytes_of (k : nat) f : Z := if is_class (Z.of_nat k) then csize sm (Z.of_nat k) * length_ f else 0.
(** The bytes beyond a batch and one more object. *)
Definition excess_of (k : nat) f : Z :=
  if is_class (Z.of_nat k) then csize sm (Z.of_nat k) * Z.max 0 (length_ f - (cbatch sm (Z.of_nat k) + 1)) else 0.
Definition bytes t : Z := lsum bytes_of (lists_ t).
Definition excess t : Z := lsum excess_of (lists_ t).

(** [size_] is the sum, and fits. *)
Record counted t : Prop := {
  ct_length : zlen (lists_ t) = kClassSizesMax;
  ct_list cl : 0 ≤ cl < num_size_classes sm → ∃ f, lists_ t !! Z.to_nat cl = Some f ∧ fl_ok cl f;
  ct_size : size_ t = bytes t;
  ct_fits : size_ t ≤ INT_MAX;
}.
Lemma ct_fl t cl f : counted t → 0 ≤ cl < num_size_classes sm → lists_ t !! Z.to_nat cl = Some f → fl_ok cl f.
Proof. intros Ht Hcl Hf. destruct (ct_list t Ht cl Hcl) as (f' & Hf' & Hok). by assert (f' = f) as -> by congruence. Qed.
Lemma ct_at t k f : counted t → is_class (Z.of_nat k) = true → lists_ t !! k = Some f → fl_ok (Z.of_nat k) f ∧ 8 ≤ csize sm (Z.of_nat k) ≤ kMaxSize.
Proof.
  intros Ht Hk%is_class_ok Hf. split; [|apply (cs_size_range _ _ _ _ _ (class_sizes_of sm Hsm _ Hk))].
  unfold class_ok in Hk. apply (ct_fl t); [done|lia|by rewrite Nat2Z.id].
Qed.
Lemma bytes_of_nonneg t k f : counted t → lists_ t !! k = Some f → 0 ≤ bytes_of k f.
Proof.
  intros Ht Hf. unfold bytes_of. destruct (is_class (Z.of_nat k)) eqn:E; [|done]. destruct (ct_at t k f Ht E Hf) as [[] ?]. nia.
Qed.
Lemma bytes_nonneg t : counted t → 0 ≤ bytes t.
Proof. intros Ht. apply lsum_nonneg. intros k f. by apply bytes_of_nonneg. Qed.
Lemma excess_of_nonneg t k f : counted t → lists_ t !! k = Some f → 0 ≤ excess_of k f.
Proof.
  intros Ht Hf. unfold excess_of. destruct (is_class (Z.of_nat k)) eqn:E; [|done]. destruct (ct_at t k f Ht E Hf) as [_ ?]. nia.
Qed.
Lemma excess_le_bytes t : counted t → excess t ≤ bytes t.
Proof.
  intros Ht. pose proof (lsum_le (lists_ t) (lists_ t) bytes_of excess_of (λ _ _, 0) eq_refl) as Hle.
  assert (0 ≤ lsum (λ _ _, 0) (lists_ t)) by (by apply lsum_nonneg). unfold excess, bytes. cut (lsum excess_of (lists_ t) + lsum (λ _ _, 0) (lists_ t) ≤ lsum bytes_of (lists_ t)); [lia|].
  apply Hle. intros k f f' Hf Hf'. simplify_eq. unfold excess_of, bytes_of. destruct (is_class (Z.of_nat k)) eqn:E; [|done].
  destruct (ct_at t k f Ht E Hf) as [[] ?]. pose proof (cs_batch_range _ _ _ _ _ (class_sizes_of sm Hsm _ (proj1 (is_class_ok _) E))). nia.
Qed.
(** What the lists hold besides the excess. *)
Definition kBatchBytes : Z := kClassSizesMax * (2 ^ 20 + 2 ^ 18).
Lemma bytes_le_excess t : counted t → bytes t ≤ excess t + kBatchBytes.
Proof.
  intros Ht. set (d := λ (k : nat) (_ : FreeList), if is_class (Z.of_nat k) then csize sm (Z.of_nat k) * (cbatch sm (Z.of_nat k) + 1) else 0).
  assert (lsum d (lists_ t) ≤ kBatchBytes) as Hd.
  { unfold kBatchBytes. rewrite <- (ct_length t Ht), Z.mul_comm. apply lsum_bound; [lia|]. intros k f Hf. unfold d. destruct (is_class (Z.of_nat k)) eqn:E; [|lia].
    pose proof (class_sizes_of sm Hsm _ (proj1 (is_class_ok _) E)) as Hcs. pose proof (cs_moved _ _ _ _ _ Hcs). pose proof (cs_size_range _ _ _ _ _ Hcs) as Hr. change kMaxSize with (2 ^ 18) in Hr. lia. }
  assert (∀ l, (∀ k f, l !! k = Some f → bytes_of k f ≤ excess_of k f + d k f) → lsum bytes_of l ≤ lsum excess_of l + lsum d l) as Hgen.
  { clear. generalize bytes_of excess_of d. intros w1 w2 w3 l. revert w1 w2 w3. induction l as [|f l IH]; intros w1 w2 w3 Hw; simpl; [lia|].
    pose proof (Hw 0%nat f eq_refl). pose proof (IH (λ k, w1 (S k)) (λ k, w2 (S k)) (λ k, w3 (S k)) (λ k a Ha, Hw (S k) a Ha)). lia. }
  unfold bytes, excess. etransitivity; [apply Hgen|lia]. intros k f Hf. unfold bytes_of, excess_of, d. destruct (is_class (Z.of_nat k)) eqn:E; [|lia].
  destruct (ct_at t k f Ht E Hf) as [[] ?]. nia.
Qed.

(** ** A list changes *)
Section change.
Variables (t : ThreadCache) (cl : Z) (f f' : FreeList).
Hypothesis Hcl : class_ok sm cl.
Hypothesis Hf : lists_ t !! Z.to_nat cl = Some f.
Lemma bytes_set z : bytes (with_size (set_fl t cl f') z) = bytes t + csize sm cl * (length_ f' - length_ f).
Proof.
  unfold bytes. simpl. rewrite (lsum_insert _ f' _ _ f Hf). unfold bytes_of. unfold class_ok in Hcl.
  rewrite Z2Nat.id, (proj2 (is_class_ok cl)) by (done || lia). lia.
Qed.
Lemma excess_set z : excess (with_size (set_fl t cl f') z) = excess t +
  csize sm cl * (Z.max 0 (length_ f' - (cbatch sm cl + 1)) - Z.max 0 (length_ f - (cbatch sm cl + 1))).
Proof.
  unfold excess. simpl. rewrite (lsum_insert _ f' _ _ f Hf). unfold excess_of. unfold class_ok in Hcl.
  rewrite Z2Nat.id, (proj2 (is_class_ok cl)) by (done || lia). lia.
Qed.
Lemma counted_set z : counted t → fl_ok cl f' → z = size_ t + csize sm cl * (length_ f' - length_ f) → z ≤ INT_MAX →
  counted (with_size (set_fl t cl f') z).
Proof.
  intros [C1 C2 C3 C4] Hf' -> Hz. unfold class_ok in Hcl. split; [simpl; by rewrite zlen_insert| |by rewrite bytes_set; simpl; rewrite C3|done].
  intros k Hk. simpl. destruct (decide (k = cl)) as [->|Hne].
  - exists f'. split; [|done]. apply list_lookup_insert_eq. by eapply lookup_lt_Some.
  - rewrite list_lookup_insert_ne by lia. by apply C2.
Qed.
End change.
Lemma csize_range cl : class_ok sm cl → 8 ≤ csize sm cl ≤ kMaxSize.
Proof. intros Hcl. apply (cs_size_range _ _ _ _ _ (class_sizes_of sm Hsm cl Hcl)). Qed.
Lemma cbatch_range cl : class_ok sm cl → 1 ≤ cbatch sm cl ≤ 8192.
Proof. intros Hcl. apply (cs_batch_range _ _ _ _ _ (class_sizes_of sm Hsm cl Hcl)). Qed.
Lemma size_back t n : 0 ≤ n → 0 ≤ size_ t - n ≤ INT_MAX → to_int (size_t (size_ t - n)) = size_ t - n.
Proof. intros Hn Hs. rewrite size_t_nonneg, to_int_small by lia. done. Qed.
(** The bytes of a list are part of the sum. *)
Lemma list_bytes t cl f : counted t → class_ok sm cl → lists_ t !! Z.to_nat cl = Some f → csize sm cl * length_ f ≤ size_ t.
Proof.
  intros Ht Hcl Hf. rewrite (ct_size t Ht). pose proof (lsum_at (lists_ t) bytes_of _ f Hf (λ k a Ha, bytes_of_nonneg t k a Ht Ha)) as Hle.
  unfold bytes_of at 1 in Hle. unfold class_ok in Hcl. rewrite Z2Nat.id, (proj2 (is_class_ok cl)) in Hle by (done || lia). done.
Qed.
Lemma fl_ok_less cl f n f' : fl_ok cl f → less f n f' → 0 ≤ n ≤ length_ f → (cl = 0 → n = 0) → fl_ok cl f'.
Proof. intros [] [] Hn Hz. split; rewrite ?le_max, ?le_over, ?le_size; try done; try lia. Qed.
Lemma counted_released t cl f n f' : counted t → class_ok sm cl → lists_ t !! Z.to_nat cl = Some f → less f n f' → 0 ≤ n ≤ length_ f →
  counted (released (sm := sm) t cl f' n) ∧ released (sm := sm) t cl f' n = with_size (set_fl t cl f') (size_ t - n * csize sm cl).
Proof.
  intros Ht Hcl Hf Hle Hn. pose proof (list_bytes t cl f Ht Hcl Hf). pose proof (csize_range cl Hcl). pose proof (ct_fits t Ht).
  assert (0 ≤ n * csize sm cl ≤ csize sm cl * length_ f) by nia.
  assert (released (sm := sm) t cl f' n = with_size (set_fl t cl f') (size_ t - n * csize sm cl)) as E by (unfold released; by rewrite size_back by lia).
  split; [|done]. rewrite E. apply (counted_set t cl f f' Hcl Hf); [done| |rewrite (le_length _ _ _ Hle); lia|lia].
  eapply fl_ok_less; [|done|done|unfold class_ok in Hcl; lia]. apply (ct_fl t); [done|unfold class_ok in Hcl; lia|done].
Qed.

(** ** The bound *)
(** No limit of a cache is beyond it. *)
Definition kMaxLimit : Z := 2 ^ 30 + 2 ^ 16 + 2 ^ 29.
(** Where a list is long, the next [Scavenge] drops some of it. *)
Definition settled t : Prop := ∀ cl f, class_ok sm cl → lists_ t !! Z.to_nat cl = Some f → lowater_ f = 0 → length_ f ≤ cbatch sm cl.
Definition bounded t : Prop := excess t ≤ kMaxLimit ∨ (settled t ∧ excess t ≤ kMaxLimit + kMaxSize).
Lemma bounded_fits t : counted t → bounded t → size_ t + 2 ^ 21 ≤ INT_MAX.
Proof.
  intros Ht Hb. pose proof (bytes_le_excess t Ht). rewrite (ct_size t Ht). assert (excess t ≤ kMaxLimit + kMaxSize) by (destruct Hb as [|[]]; [unfold kMaxSize|]; lia).
  change (kMaxLimit + kMaxSize) with 1610940416 in *. change kBatchBytes with 125829120 in *. unfold INT_MAX. lia.
Qed.
Lemma bounded_small t : counted t → size_ t ≤ kMaxLimit → bounded t.
Proof. intros Ht Hs. left. pose proof (excess_le_bytes t Ht). rewrite <- (ct_size t Ht) in *. lia. Qed.
End sizes.
