(* ===== verification/ThreadScavenge.v ===== *)
(** * Thread caches: [Scavenge], [Cleanup] and [ListTooLong] on the lists

    How the loops over the classes change the lists of a cache. *)
From stdpp Require Import base numbers list option gmap sets fin_maps fin_map_dom.
From Stdlib Require Import ZArith Lia.
From S2P Require Import Prelude SizeMap SpanList MetaData CentralFreeList CentralLists CentralPool.
From S2P Require Import ObjectPool Sampler ThreadCache ThreadLists ThreadMoves ThreadSizes.
Open Scope Z_scope.

Section scavenge.
Context {C T W : Type} `{ObjectPool C} {sm : SizeMap} `{!ObjectPoolLaws C sm}.
Abbreviation state := (Threads C T W).
Hypothesis Hsm : sizes_ok sm.
Implicit Types (s : state) (g : contents) (P : pool) (D : gset Z) (h cl x : Z) (t : ThreadCache) (f : FreeList) (c : C).
Abbreviation ab := (op_ab (C := C) (sm := sm)).

Lemma counted_same t cl f f' : counted sm t → 0 ≤ cl < num_size_classes sm → lists_ t !! Z.to_nat cl = Some f → fl_ok sm cl f' →
  length_ f' = length_ f → counted sm (set_fl t cl f') ∧ excess sm (set_fl t cl f') = excess sm t.
Proof.
  intros [C1 C2 C3 C4] Hcl Hf Hf' El. split; [split; [simpl; by rewrite zlen_insert| | |done]|].
  - intros k Hk. simpl. destruct (decide (k = cl)) as [->|Hne].
    + exists f'. split; [|done]. apply list_lookup_insert_eq. by eapply lookup_lt_Some.
    + rewrite list_lookup_insert_ne by lia. by apply C2.
  - simpl. rewrite C3. unfold bytes. simpl. rewrite (lsum_insert _ f' _ _ f Hf). unfold bytes_of. rewrite El. lia.
  - unfold excess. simpl. rewrite (lsum_insert _ f' _ _ f Hf). unfold excess_of. rewrite El. lia.
Qed.

(** A list after [Scavenge]: where it was never short of objects, it has less. *)
Record scavenged cl f f' : Prop := {
  sc_ok : fl_ok sm cl f';
  sc_low : lowater_ f' = length_ f';
  sc_length : length_ f' ≤ length_ f;
  sc_drop : 0 < lowater_ f → length_ f' < length_ f;
}.
Lemma wp_scavenge_list D s g P h t cl f (Q : () → state → Prop) : tinv D s g P → h ∈ D → caches s !! h = Some t → counted sm t →
  0 ≤ cl < num_size_classes sm → lists_ t !! Z.to_nat cl = Some f →
  (∀ f' z s' g' P', scavenged cl f f' → counted sm (with_size (set_fl t cl f') z) →
     still D h s g P (with_size (set_fl t cl f') z) s' g' P' → Q tt s') →
  wp ab (scavenge_list sm h cl) Q s.
Proof.
  intros Hi Hh Ht Hct Hcl Hf HQ. pose proof (ct_fl sm t cl f Hct Hcl Hf) as Hok. pose proof Hok as [O1 O2 O3 O4 O5 O6 O7].
  change kMaxDynamicFreeListLength with 8192 in *. unfold scavenge_list. eapply wp_bind, wp_get_fl; [done|lia|done|]. cbv zeta.
  rewrite to_int_small by (unfold INT_MAX; lia). apply wp_bind.
  apply (wp_mono _ _ (λ _ s1, ∃ f1 z g1 P1, (0 < lowater_ f → length_ f1 < length_ f) ∧ length_ f1 ≤ length_ f ∧ fl_ok sm cl f1 ∧
    counted sm (with_size (set_fl t cl f1) z) ∧ still D h s g P (with_size (set_fl t cl f1) z) s1 g1 P1)).
  2:{ intros [] s1 (f1 & z & g1 & P1 & H1 & H2 & Hok1 & Hct1 & Hgo1). pose proof (goes_cache _ _ _ _ _ _ _ _ _ _ _ _ Hgo1) as Ht1.
    assert (lists_ (with_size (set_fl t cl f1) z) !! Z.to_nat cl = Some f1) as Hf1 by (by eapply (set_fl_lookup t cl f)).
    eapply wp_bind, wp_get_fl; [done|lia|done|]. eapply wp_put_fl; [done|lia|done|].
    assert (fl_ok sm cl (clear_lowwatermark f1)) as Hok2 by (destruct Hok1; split; simpl; lia || done).
    destruct (counted_same _ cl f1 (clear_lowwatermark f1) Hct1 Hcl Hf1 Hok2 eq_refl) as [Hct2 _].
    pose proof (still_fl D s1 g1 P1 h _ cl f1 (clear_lowwatermark f1) (go_inv _ _ _ _ _ _ _ _ _ _ _ _ Hgo1) Hh Ht1 Hcl Hf1 eq_refl eq_refl) as Hgo2.
    assert (set_fl (with_size (set_fl t cl f1) z) cl (clear_lowwatermark f1) = with_size (set_fl t cl (clear_lowwatermark f1)) z) as E.
    { unfold set_fl, with_fl, with_size. simpl. by rewrite list_insert_insert_eq. }
    rewrite E in *. eapply (HQ (clear_lowwatermark f1) z); [by split|done|]. by eapply goes_still_l. }
  apply wp_if; intros Hc; [apply Z.ltb_lt in Hc|apply Z.ltb_ge in Hc].
  2:{ apply wp_ret. exists f, (size_ t), g, P. assert (with_size (set_fl t cl f) (size_ t) = t) as E.
    { unfold set_fl, with_fl, with_size. simpl. rewrite list_insert_id by done. by destruct t. }
    rewrite E. split_and!; try done; [lia|]. by apply still_refl. }
  assert (class_ok sm cl) as Hk by (unfold class_ok; destruct (decide (cl = 0)) as [->|]; [specialize (O6 eq_refl)|]; lia).
  set (drop := if 1 <? lowater_ f then Z.quot (lowater_ f) 2 else 1).
  assert (1 ≤ drop ≤ length_ f) as Hdrop by (unfold drop; zcase; [rewrite Z.quot_div_nonneg by lia; pose proof (Z.div_le_lower_bound (lowater_ f) 2 1); pose proof (Z.div_le_upper_bound (lowater_ f) 2 (lowater_ f))|]; lia).
  apply wp_bind. eapply (wp_ReleaseToCentralCache Hsm D s g P h t cl f drop); try done; [lia..|unfold INT_MAX; lia|pose proof (list_bytes sm Hsm t cl f Hct Hk Hf); pose proof (ct_fits _ _ Hct); lia|].
  rewrite Z.min_l by lia. intros f1 s1 g1 P1 Hle Hgo1.
  destruct (counted_released sm Hsm t cl f drop f1 Hct Hk Hf Hle) as [Hct1 E1]; [lia|]. rewrite E1 in *. set (z := size_ t - drop * csize sm cl) in *.
  pose proof (fl_ok_less sm cl f drop f1 Hok Hle ltac:(lia) ltac:(unfold class_ok in Hk; lia)) as Hok1. pose proof (goes_cache _ _ _ _ _ _ _ _ _ _ _ _ Hgo1) as Ht1.
  eapply wp_bind, wp_lift; [by apply num_objects_to_move_ok|]. assert (lists_ (with_size (set_fl t cl f1) z) !! Z.to_nat cl = Some f1) as Hf1 by (by eapply (set_fl_lookup t cl f)).
  eapply wp_bind, wp_get_fl; [done|lia|done|]. pose proof (cbatch_range sm Hsm cl Hk) as Hb. rewrite (size_t_nonneg (cbatch sm cl)) by (unfold INT_MAX; lia).
  pose proof (le_length _ _ _ Hle) as El1. apply wp_if; intros Hm; [apply Z.ltb_lt in Hm|].
  2:{ apply wp_ret. exists f1, z, g1, P1. split_and!; try done; lia. }
  eapply wp_put_fl; [done|lia|done|]. pose proof (fo_max _ _ _ Hok1) as Hm1. change kMaxDynamicFreeListLength with 8192 in Hm1.
  rewrite size_t_nonneg, to_int_small by (unfold INT_MAX; lia). set (f2 := set_max_length f1 _).
  assert (max_length_ f2 = Z.max (max_length_ f1 - cbatch sm cl) (cbatch sm cl)) as Em2 by (unfold f2; simpl; apply u32_id; lia).
  assert (fl_ok sm cl f2) as Hok2.
  { pose proof Hok1 as [P2 P3 P4 P5 P6 P7 P8]. split; rewrite ?Em2; try done; [change kMaxDynamicFreeListLength with 8192; lia|].
    intros _ Hlt. rewrite Z.max_l by lia. apply Z.divide_sub_r; [by apply P8|done]. }
  destruct (counted_same _ cl f1 f2 Hct1 Hcl Hf1 Hok2 eq_refl) as [Hct2 _].
  pose proof (still_fl D s1 g1 P1 h _ cl f1 f2 (go_inv _ _ _ _ _ _ _ _ _ _ _ _ Hgo1) Hh Ht1 Hcl Hf1 eq_refl eq_refl) as Hgo2.
  assert (set_fl (with_size (set_fl t cl f1) z) cl f2 = with_size (set_fl t cl f2) z) as E.
  { unfold set_fl, with_fl, with_size. simpl. by rewrite list_insert_insert_eq. }
  rewrite E in *. exists f2, z, g1, P1. split_and!; try done; [simpl; lia..|]. by eapply goes_still_l.
Qed.
(** [if (list_[cl].length() > 0) ReleaseToCentralCache(...)]. *)
Definition cleanup_list h cl : M state unit :=
  f ← get_fl h cl; if 0 <? length_ f then ReleaseToCentralCache sm h cl (to_int (length_ f)) else mret tt.
Record emptied cl f f' : Prop := {
  em_ok : fl_ok sm cl f';
  em_length : length_ f' = 0;
}.
Lemma wp_cleanup_list D s g P h t cl f (Q : () → state → Prop) : tinv D s g P → h ∈ D → caches s !! h = Some t → counted sm t →
  0 ≤ cl < num_size_classes sm → lists_ t !! Z.to_nat cl = Some f →
  (∀ f' z s' g' P', emptied cl f f' → counted sm (with_size (set_fl t cl f') z) →
     still D h s g P (with_size (set_fl t cl f') z) s' g' P' → Q tt s') →
  wp ab (cleanup_list h cl) Q s.
Proof.
  intros Hi Hh Ht Hct Hcl Hf HQ. pose proof (ct_fl sm t cl f Hct Hcl Hf) as Hok. pose proof Hok as [O1 O2 O3 O4 O5 O6 O7].
  change kMaxDynamicFreeListLength with 8192 in *. unfold cleanup_list. eapply wp_bind, wp_get_fl; [done|lia|done|].
  apply wp_if; intros Hc; [apply Z.ltb_lt in Hc|apply Z.ltb_ge in Hc].
  - assert (class_ok sm cl) as Hk by (unfold class_ok; destruct (decide (cl = 0)) as [->|]; [specialize (O6 eq_refl)|]; lia).
    rewrite to_int_small by (unfold INT_MAX; lia). eapply (wp_ReleaseToCentralCache Hsm D s g P h t cl f); try done; [lia..|unfold INT_MAX; lia|pose proof (list_bytes sm Hsm t cl f Hct Hk Hf); pose proof (ct_fits _ _ Hct); lia|].
    rewrite Z.min_id. intros f1 s1 g1 P1 Hle Hgo1. destruct (counted_released sm Hsm t cl f (length_ f) f1 Hct Hk Hf Hle) as [Hct1 E1]; [lia|]. rewrite E1 in *.
    eapply HQ; [|done|exact Hgo1]. split; [eapply fl_ok_less; [done..|lia|unfold class_ok in Hk; lia]|]. rewrite (le_length _ _ _ Hle). lia.
  - assert (with_size (set_fl t cl f) (size_ t) = t) as E.
    { unfold set_fl, with_fl, with_size. simpl. rewrite list_insert_id by done. by destruct t. }
    apply wp_ret, (HQ f (size_ t) s g P); rewrite ?E; [split; [done|lia]|done|by apply still_refl].
Qed.

(** ** The loops over the classes *)
Fixpoint each_list (body : Z → M state unit) (n : nat) cl : M state unit :=
  match n with O => mret tt | Datatypes.S n => _ ← body cl; each_list body n (cl + 1) end.
(** The lists from [cl] on have changed as [R] says. *)
Record swept (R : Z → FreeList → FreeList → Prop) cl t t' : Prop := {
  sw_counted : counted sm t';
  sw_same : t' = with_size (with_fl t (lists_ t')) (size_ t');
  sw_list j f : 0 ≤ j < num_size_classes sm → lists_ t !! Z.to_nat j = Some f →
    ∃ f', lists_ t' !! Z.to_nat j = Some f' ∧ (cl ≤ j → R j f f') ∧ (j < cl → f' = f);
}.
Lemma wp_each_list (R : Z → FreeList → FreeList → Prop) body D h : h ∈ D →
  (∀ s g P t cl f (Q : () → state → Prop), tinv D s g P → caches s !! h = Some t → counted sm t →
    0 ≤ cl < num_size_classes sm → lists_ t !! Z.to_nat cl = Some f →
    (∀ f' z s' g' P', R cl f f' → counted sm (with_size (set_fl t cl f') z) →
       still D h s g P (with_size (set_fl t cl f') z) s' g' P' → Q tt s') → wp ab (body cl) Q s) →
  ∀ n cl s g P t (Q : () → state → Prop), tinv D s g P → caches s !! h = Some t → counted sm t → 0 ≤ cl → cl + Z.of_nat n = num_size_classes sm →
    (∀ t' s' g' P', swept R cl t t' → still D h s g P t' s' g' P' → Q tt s') → wp ab (each_list body n cl) Q s.
Proof.
  intros Hh Hbody. induction n as [|n IH]; intros cl s g P t Q Hi Ht Hct Hcl Hn HQ; cbn [each_list].
  - apply wp_ret, (HQ t s g P); [|by apply still_refl]. split; [done|by destruct t|]. intros j f Hj Hf. exists f. split; [done|]. split; [lia|done].
  - destruct (ct_list sm t Hct cl) as (f & Hf & Hok); [lia|]. eapply wp_bind, (Hbody s g P t cl f); [done..|lia|done|]. intros f1 z s1 g1 P1 HR Hct1 Hgo1.
    eapply (IH (cl + 1)); [by eapply go_inv|by eapply goes_cache|done|lia|lia|]. intros t' s' g' P' [S1 S2 S3] Hgo2.
    apply (HQ t' s' g' P'); [|by eapply goes_still_l]. split; [done|exact S2|]. intros j f0 Hj Hf0. destruct (decide (j = cl)) as [->|Hne].
    + assert (f0 = f) as -> by congruence. destruct (S3 cl f1 Hj) as (f' & Hf' & _ & Heq); [simpl; by eapply list_lookup_insert_eq, lookup_lt_Some|].
      rewrite Heq in Hf' by lia. exists f1. split; [done|]. split; [done|lia].
    + destruct (S3 j f0 Hj) as (f' & Hf' & H1 & H2); [simpl; by rewrite list_lookup_insert_ne by lia|]. exists f'. split; [done|]. split; intros; [apply H1|apply H2]; lia.
Qed.
Lemma wp_scavenge_lists D s g P h t (Q : () → state → Prop) : tinv D s g P → h ∈ D → caches s !! h = Some t → counted sm t →
  (∀ t' s' g' P', swept scavenged 0 t t' → still D h s g P t' s' g' P' → Q tt s') →
  wp ab (scavenge_lists sm (Z.to_nat (num_size_classes sm)) h 0) Q s.
Proof.
  intros Hi Hh Ht Hct HQ. pose proof (num_classes_nonneg sm Hsm).
  assert (∀ n cl, scavenge_lists sm n h cl = each_list (scavenge_list sm h) n cl) as -> by (induction n as [|n IH]; intros cl; [done|]; simpl; by rewrite IH).
  eapply (wp_each_list scavenged _ D h Hh); [|done..|lia|done]. intros. by eapply wp_scavenge_list.
Qed.
Lemma wp_Cleanup D s g P h t (Q : () → state → Prop) : tinv D s g P → h ∈ D → caches s !! h = Some t → counted sm t →
  (∀ t' s' g' P', swept emptied 0 t t' → still D h s g P t' s' g' P' → (∀ cl, g' h cl = []) → Q tt s') →
  wp ab (Cleanup sm h) Q s.
Proof.
  intros Hi Hh Ht Hct HQ. pose proof (num_classes_nonneg sm Hsm). unfold Cleanup.
  assert (∀ n cl s, cleanup_lists sm n h cl s = each_list (cleanup_list h) n cl s) as E.
  { induction n as [|n IH]; intros cl s0; [done|]. simpl. unfold cleanup_list. unfold mbind, M_bind.
    destruct (get_fl h cl s0) as [[f s1]| | |]; [|done..]. destruct (if 0 <? length_ f then _ else _) as [[[] s2]| | |]; [|done..]. apply IH. }
  unfold wp. rewrite E. fold (wp ab (each_list (cleanup_list h) (Z.to_nat (num_size_classes sm)) 0) Q s).
  eapply (wp_each_list emptied _ D h Hh); [|done..|lia|]; [intros; by eapply wp_cleanup_list|].
  intros t' s' g' P' Hsw Hgo. eapply HQ; [done..|]. intros cl. pose proof (go_inv _ _ _ _ _ _ _ _ _ _ _ _ Hgo) as Hi'.
  destruct (g' h cl) as [|x l] eqn:El; [done|]. exfalso. assert (x ∈ g' h cl) as Hx by (rewrite El; left).
  pose proof (tinv_class _ _ _ _ _ _ _ Hi' Hh Hx) as Hcl. unfold class_ok in Hcl. destruct (ct_list sm t Hct cl) as (f & Hf & _); [lia|].
  destruct (sw_list _ _ _ _ Hsw cl f ltac:(lia) Hf) as (f' & Hf' & Hem & _). destruct (Hem ltac:(lia)) as [_ Hz].
  destruct (tinv_list _ _ _ _ h t' cl Hi' Hh (goes_cache _ _ _ _ _ _ _ _ _ _ _ _ Hgo)) as (f2 & Hf2 & Hch); [lia|]. assert (f2 = f') as -> by congruence.
  apply (chain_nil _ _ _ Hch) in Hz. by rewrite Hz in El.
Qed.

(** ** What [Scavenge] does to the bound *)
Lemma swept_excess t t' cl f : counted sm t → swept scavenged 0 t t' → class_ok sm cl → lists_ t !! Z.to_nat cl = Some f →
  excess sm t' + (if (0 <? lowater_ f) && (cbatch sm cl + 1 <? length_ f) then csize sm cl else 0) ≤ excess sm t.
Proof.
  intros Hct [S1 _ S3] Hcl Hf. unfold class_ok in Hcl. set (d := λ (k : nat) (a : FreeList), if decide (k = Z.to_nat cl) then
    (if (0 <? lowater_ a) && (cbatch sm cl + 1 <? length_ a) then csize sm cl else 0) else 0).
  pose proof (csize_range sm Hsm cl Hcl).
  assert (∀ k a, lists_ t !! k = Some a → 0 ≤ d k a) as Hd0 by (intros k a _; unfold d; repeat case_match; lia).
  pose proof (lsum_at (lists_ t) d _ f Hf Hd0) as Hat. unfold d at 1 in Hat. rewrite decide_True in Hat by done.
  assert (excess sm t' + lsum d (lists_ t) ≤ excess sm t); [|lia]. unfold excess. apply lsum_le.
  { pose proof (ct_length _ _ Hct). pose proof (ct_length _ _ S1). unfold zlen in *. lia. }
  intros k a a' Ha Ha'. unfold excess_of. destruct (is_class sm (Z.of_nat k)) eqn:E.
  - pose proof (proj1 (is_class_ok sm _) E) as Hk. unfold class_ok in Hk. destruct (S3 (Z.of_nat k) a ltac:(lia)) as (a2 & Ha2 & Hsc & _); [by rewrite Nat2Z.id|].
    rewrite Nat2Z.id in Ha2. assert (a2 = a') as -> by congruence. destruct (Hsc ltac:(lia)) as [_ _ Hl Hdr].
    pose proof (csize_range sm Hsm _ Hk). unfold d. case_decide as Hd; [|nia]. assert (Z.of_nat k = cl) as -> by lia.
    destruct ((0 <? lowater_ a) && (cbatch sm cl + 1 <? length_ a)) eqn:Ec; [|nia]. apply andb_true_iff in Ec as [E1%Z.ltb_lt E2%Z.ltb_lt]. specialize (Hdr E1). nia.
  - unfold d. case_decide as Hd; [|lia]. assert (Z.of_nat k = cl) as Ek by lia. rewrite Ek in E. pose proof (proj2 (is_class_ok sm cl) Hcl). congruence.
Qed.
Lemma swept_settled t t' : counted sm t → swept scavenged 0 t t' → settled sm t'.
Proof.
  intros Hct [S1 _ S3] cl f' Hcl Hf' Hlow. unfold class_ok in Hcl. destruct (ct_list sm t Hct cl ltac:(lia)) as (f & Hf & _).
  destruct (S3 cl f ltac:(lia) Hf) as (f2 & Hf2 & Hsc & _). assert (f2 = f') as -> by congruence. destruct (Hsc ltac:(lia)) as [_ El _ _].
  pose proof (cbatch_range sm Hsm cl Hcl). lia.
Qed.
End scavenge.
