(* ===== verification/ThreadLimits.v ===== *)
(** * Thread caches: the list of the caches and their limits

    The caches are on a list from [thread_heaps_]; the limits [max_size_] and what is
    unclaimed make up the overall size, and no limit overflows. *)
From stdpp Require Import base numbers list option gmap sets fin_maps fin_map_dom.
From Stdlib Require Import ZArith Lia.
From S2P Require Import Prelude SizeMap SpanList MetaData CentralFreeList CentralLists CentralPool.
From S2P Require Import ObjectPool Sampler ThreadCache ThreadLists ThreadMoves ThreadSizes ThreadScavenge.
Open Scope Z_scope.

(** ** The list of the caches *)
Implicit Types (m : gmap Z ThreadCache) (t : ThreadCache) (l heaps : list Z).
(** From [h], whose predecessor is [prev], the caches [l], and then [e]. *)
Fixpoint dlist m (prev h : Z) l (e : Z) : Prop :=
  match l with
  | [] => h = e
  | x :: l => h = x ∧ x ≠ 0 ∧ ∃ t, m !! x = Some t ∧ prev_ t = prev ∧ dlist m x (next_ t) l e
  end.
Lemma dlist_frame m m' prev h l e :
  (∀ x t, x ∈ l → m !! x = Some t → ∃ t', m' !! x = Some t' ∧ next_ t' = next_ t ∧ prev_ t' = prev_ t) →
  dlist m prev h l e → dlist m' prev h l e.
Proof.
  revert prev h. induction l as [|x l IH]; intros prev h Hf; [done|]. intros (-> & Hx & t & Ht & Hp & Hl). split; [done|]. split; [done|].
  destruct (Hf x t) as (t' & Ht' & En & Ep); [left|done|]. exists t'. split; [done|]. split; [congruence|]. rewrite En. apply IH; [|done].
  intros y u Hy. apply Hf. by right.
Qed.
Lemma dlist_insert m prev h l e y u : y ∉ l → dlist m prev h l e → dlist (<[y := u]> m) prev h l e.
Proof.
  intros Hy. apply dlist_frame. intros x t Hx Ht. exists t. rewrite lookup_insert_ne; [done|]. by intros ->.
Qed.
Lemma dlist_app m l1 l2 e : ∀ prev h,
  dlist m prev h (l1 ++ l2) e ↔ ∃ k, dlist m prev h l1 k ∧ dlist m (default prev (last l1)) k l2 e.
Proof.
  induction l1 as [|x l1 IH]; intros prev h; [simpl; naive_solver|].
  assert (∀ d, default d (last (x :: l1)) = default x (last l1)) as Ed by (intros d; rewrite last_cons; by destruct (last l1)).
  cbn [app dlist]. setoid_rewrite Ed. setoid_rewrite IH. naive_solver.
Qed.
Lemma dlist_in m prev h l e x : dlist m prev h l e → x ∈ l → x ≠ 0 ∧ ∃ t, m !! x = Some t ∧ (next_ t = e ∨ next_ t ∈ l).
Proof.
  revert prev h. induction l as [|y l IH]; intros prev h; [by intros _ ?%not_elem_of_nil|]. intros (-> & Hy & t & Ht & _ & Hl) [->|Hx]%elem_of_cons.
  - split; [done|]. exists t. split; [done|]. destruct l as [|z l]; [by left|right]. destruct Hl as (-> & _). right. left.
  - destruct (IH _ _ Hl Hx) as (? & t' & ? & [|]); (split; [done|]; exists t'; split; [done|]); [by left|right; by right].
Qed.
Lemma dlist_head m prev h l : dlist m prev h l 0 → h = 0 ↔ l = [].
Proof. destruct l; simpl; [tauto|]. intros (-> & ? & _). done. Qed.
(** The predecessor of the first one, and the successor of the last. *)
Lemma dlist_set_prev m prev h l e prev' u : NoDup l → dlist m prev h l e → l ≠ [] → m !! h = Some u →
  dlist (<[h := with_neighbours u (next_ u) prev']> m) prev' h l e.
Proof.
  destruct l as [|x l]; [done|]. intros [Hx Hnd]%NoDup_cons (-> & Hx0 & t & Ht & _ & Hl) _ Hu. simplify_eq. split; [done|]. split; [done|].
  eexists. rewrite lookup_insert_eq. split; [done|]. split; [done|]. by apply dlist_insert.
Qed.
Lemma dlist_set_next m prev h l p e e' u : NoDup (l ++ [p]) → dlist m prev h (l ++ [p]) e → m !! p = Some u →
  dlist (<[p := with_neighbours u e' (prev_ u)]> m) prev h (l ++ [p]) e'.
Proof.
  intros (Hnd & Hd & _)%NoDup_app (k & Hl & -> & Hp0 & t & Ht & Hpr & _)%dlist_app Hu. simplify_eq. apply dlist_app. exists p. split.
  - apply dlist_insert; [|done]. intros Hx. apply (Hd p Hx). left.
  - split; [done|]. split; [done|]. eexists. rewrite lookup_insert_eq. by split.
Qed.
(** [DeleteCache] takes [h] off. *)
Lemma dlist_remove m l1 h l2 head t : dlist m 0 head (l1 ++ h :: l2) 0 → NoDup (l1 ++ h :: l2) → m !! h = Some t →
  let m1 := if next_ t =? 0 then m else match m !! next_ t with Some n => <[next_ t := with_neighbours n (next_ n) (prev_ t)]> m | None => m end in
  let m2 := if prev_ t =? 0 then m1 else match m1 !! prev_ t with Some p => <[prev_ t := with_neighbours p (next_ t) (prev_ p)]> m1 | None => m1 end in
  (next_ t = 0 ∨ next_ t ∈ l2 ∧ is_Some (m !! next_ t)) ∧ (prev_ t = 0 ∨ prev_ t ∈ l1 ∧ is_Some (m1 !! prev_ t)) ∧
  m2 !! h = Some t ∧ dlist m2 0 (if head =? h then next_ t else head) (l1 ++ l2) 0.
Proof.
  intros Hd Hnd Ht m1 m2. apply dlist_app in Hd as (k & Hd1 & -> & Hh0 & t' & Ht' & Hpr & Hd2). assert (t' = t) as -> by congruence. clear Ht'.
  apply NoDup_app in Hnd as (Hn1 & Hdis & [Hh2 Hn2]%NoDup_cons). assert (h ∉ l1) as Hh1 by (intros Hx; apply (Hdis h Hx); left).
  assert (dlist m1 (prev_ t) (next_ t) l2 0 ∧ m1 !! h = Some t ∧ (next_ t = 0 ∨ next_ t ∈ l2 ∧ is_Some (m !! next_ t)) ∧
    ∀ x, x ∈ l1 → m1 !! x = m !! x) as (Hm1 & Hm1h & Hnx & Hm1f).
  { unfold m1. destruct l2 as [|y l2]; [simpl in Hd2; rewrite Hd2; change (0 =? 0) with true; split_and!; try done; by left|].
    pose proof Hd2 as (Ey & Hy0 & u & Hu & Hup & Hl2). rewrite Ey in *. rewrite (proj2 (Z.eqb_neq y 0)), Hu by done.
    split; [by eapply dlist_set_prev|]. rewrite lookup_insert_ne by (intros ->; apply Hh2; left). split; [done|]. split; [right; split; [left|by eexists]|].
    intros x Hx. apply lookup_insert_ne. intros ->. apply (Hdis x Hx). right. left. }
  assert (dlist m1 0 head l1 h) as Hd1' by (eapply dlist_frame; [|exact Hd1]; intros x u Hx Hu; exists u; by rewrite Hm1f).
  split; [done|]. unfold m2. rewrite Hpr in *. destruct l1 as [|p0 l1'] eqn:El1 using rev_ind; [|clear IHl1'].
  - simpl in *. subst head. change (0 =? 0) with true. rewrite Z.eqb_refl. split; [by left|]. done.
  - rewrite last_snoc in *. simpl in *. pose proof Hd1' as (k & Hk & -> & Hp0 & u & Hu & Hup & _)%dlist_app. rewrite (proj2 (Z.eqb_neq p0 0)), Hu by done.
    assert (p0 ≠ h) as Hph by (intros ->; apply Hh1, elem_of_app; right; left). assert (head =? h = false) as ->.
    { apply Z.eqb_neq. intros ->. destruct l1' as [|z l1']; [by destruct Hd1 as (-> & _)|]. destruct Hd1 as (-> & _). apply Hh1. left. }
    split; [right; split; [apply elem_of_app; right; left|by eexists]|]. rewrite lookup_insert_ne by done. split; [done|].
    apply dlist_app. exists (next_ t). rewrite last_snoc. simpl. split; [by eapply dlist_set_next|].
    apply dlist_insert; [|done]. intros Hx. apply (Hdis p0); [apply elem_of_app; right; left|by right].
Qed.

(** ** The limits *)
Section limits.
Context {C T W : Type} `{ObjectPool C} {sm : SizeMap} `{!ObjectPoolLaws C sm}.
Abbreviation state := (Threads C T W).
Implicit Types (s : state) (g : contents) (P : pool) (D : gset Z) (h : Z).

Record registered s heaps : Prop := {
  rg_chain : dlist (caches s) 0 (thread_heaps_ (registry s)) heaps 0;
  rg_nodup : NoDup heaps;
  rg_count : thread_heap_count_ (registry s) = zlen heaps;
  rg_steal : next_memory_steal_ (registry s) = 0 ∨ next_memory_steal_ (registry s) ∈ heaps;
}.
Record budget s : Prop := {
  bg_overall : kMinThreadCacheSize ≤ overall_thread_cache_size_ (registry s) ≤ 2 ^ 30;
  bg_sum : unclaimed_cache_space_ (registry s) = overall_thread_cache_size_ (registry s) - wsum (λ _ t, max_size_ t) (caches s);
  bg_debt : - unclaimed_cache_space_ (registry s) ≤ kStealAmount + wsum (λ _ t, Z.min (max_size_ t) kMinThreadCacheSize) (caches s);
  bg_max h t : caches s !! h = Some t → 0 ≤ max_size_ t ∧ (kStealAmount | max_size_ t);
}.
(** At most 1024 caches: with more, the limits could pass 32 bits. *)
Definition kMaxCaches : Z := 1024.
Lemma budget_limit s h t : budget s → Z.of_nat (size (dom (caches s))) ≤ kMaxCaches → caches s !! h = Some t → 0 ≤ max_size_ t ≤ kMaxLimit.
Proof.
  intros [B1 B2 B3 B4] Hn Ht. split; [by eapply B4|]. pose proof (wsum_at (λ _ t, max_size_ t) (caches s) h t Ht (λ q u Hu, proj1 (B4 q u Hu))).
  pose proof (wsum_bound (λ _ t, Z.min (max_size_ t) kMinThreadCacheSize) (caches s) (2 ^ 19)) as Hb.
  assert (∀ p t, caches s !! p = Some t → Z.min (max_size_ t) kMinThreadCacheSize ≤ 2 ^ 19) as Hmin by (intros; change kMinThreadCacheSize with (2 ^ 19); lia).
  specialize (Hb Hmin). unfold kMaxLimit. change kStealAmount with (2 ^ 16) in *. change kMaxCaches with 1024 in Hn. cbn beta in *. lia.
Qed.
Lemma budget_unclaimed s : budget s → Z.of_nat (size (dom (caches s))) ≤ kMaxCaches → - 2 ^ 31 ≤ unclaimed_cache_space_ (registry s) ≤ 2 ^ 30.
Proof.
  intros [B1 B2 B3 B4] Hn. pose proof (wsum_nonneg (λ _ t, max_size_ t) (caches s) (λ q u Hu, proj1 (B4 q u Hu))).
  pose proof (wsum_bound (λ _ t, Z.min (max_size_ t) kMinThreadCacheSize) (caches s) (2 ^ 19)) as Hb.
  assert (∀ p t, caches s !! p = Some t → Z.min (max_size_ t) kMinThreadCacheSize ≤ 2 ^ 19) as Hmin by (intros; change kMinThreadCacheSize with (2 ^ 19); lia).
  specialize (Hb Hmin). change kStealAmount with (2 ^ 16) in *. change kMaxCaches with 1024 in Hn. lia.
Qed.

(** Only limits change, and where the next one is stolen from. *)
Record relimited s s' : Prop := {
  rl_state : s' = with_registry (with_caches s (caches s')) (registry s');
  rl_registry : registry s' = with_steal (with_unclaimed (registry s) (unclaimed_cache_space_ (registry s'))) (next_memory_steal_ (registry s'));
  rl_dom : dom (caches s') = dom (caches s);
  rl_cache h t : caches s !! h = Some t → ∃ v, caches s' !! h = Some (SetMaxSize t v);
}.
Lemma relimited_refl s : (∀ h t, caches s !! h = Some t → 0 ≤ max_size_ t ≤ INT_MAX) → relimited s s.
Proof.
  intros Hm. split; [by destruct s|by destruct s as [? ? []]|done|]. intros h t Ht. exists (max_size_ t). rewrite Ht. f_equal.
  unfold SetMaxSize. destruct (Hm h t Ht). rewrite size_t_nonneg, to_int_small by lia. by destruct t.
Qed.
Lemma relimited_trans s1 s2 s3 : relimited s1 s2 → relimited s2 s3 → relimited s1 s3.
Proof.
  intros [A1 A2 A3 A4] [B1 B2 B3 B4]. split; [rewrite B1; simpl; rewrite A1; done|rewrite B2; simpl; rewrite A2; done|congruence|].
  intros h t Ht. destruct (A4 h t Ht) as [v Hv]. destruct (B4 _ _ Hv) as [w Hw]. by exists w.
Qed.
Lemma relimited_cache s s' h t' : relimited s s' → caches s' !! h = Some t' → ∃ t v, caches s !! h = Some t ∧ t' = SetMaxSize t v.
Proof.
  intros [_ _ Hd Hc] Ht'. assert (is_Some (caches s !! h)) as [t Ht] by (apply elem_of_dom; rewrite <- Hd; by apply elem_of_dom_2 in Ht').
  destruct (Hc h t Ht) as [v Hv]. exists t, v. split; [done|congruence].
Qed.
Lemma relimited_registered s s' heaps : relimited s s' → registered s heaps →
  next_memory_steal_ (registry s') = 0 ∨ next_memory_steal_ (registry s') ∈ heaps → registered s' heaps.
Proof.
  intros [A1 A2 A3 A4] [R1 R2 R3 R4] Hst. split; [|done|by rewrite A2|done].
  rewrite A2. eapply dlist_frame; [|exact R1]. intros x t _ Ht. destruct (A4 x t Ht) as [v Hv]. by eexists.
Qed.
Lemma relimited_tinv s s' D g P : relimited s s' → tinv D s g P → tinv D s' g P.
Proof.
  intros [A1 A2 A3 A4] [I1 I2 I3 I4]. assert (objects_of s' = objects_of s) as Eo by by rewrite A1. split; [by rewrite Eo| |done|done].
  intros h Hh. destruct (I2 h Hh) as (t & Ht & Hl). destruct (A4 h t Ht) as [v Hv]. exists (SetMaxSize t v). split; [done|].
  unfold held_words in *. rewrite Eo. exact Hl.
Qed.

Lemma max_size_set t v : 0 ≤ v ≤ INT_MAX → max_size_ (SetMaxSize t v) = v.
Proof. intros Hv. simpl. by rewrite size_t_nonneg, to_int_small by lia. Qed.
(** The limit of a cache moves to another, or comes from what is unclaimed. *)
Lemma wsum_set f m h t t' : m !! h = Some t → wsum f (<[h := t']> m) = wsum f m - f h t + f h t'.
Proof. intros Ht. by apply wsum_change. Qed.
Lemma budget_steal s v this tv t r : budget s → Z.of_nat (size (dom (caches s))) ≤ kMaxCaches → v ≠ this →
  caches s !! v = Some tv → caches s !! this = Some t → kMinThreadCacheSize < max_size_ tv →
  r = with_steal (registry s) (next_memory_steal_ r) →
  budget (with_registry (with_caches s (<[this := SetMaxSize t (max_size_ t + kStealAmount)]>
    (<[v := SetMaxSize tv (max_size_ tv - kStealAmount)]> (caches s)))) r).
Proof.
  intros Hb Hn Hne Hv Ht Hmin Er. pose proof (budget_limit s v tv Hb Hn Hv) as Lv. pose proof (budget_limit s this t Hb Hn Ht) as Lt.
  change kMaxLimit with 1610678272 in *. change kStealAmount with (2 ^ 16) in *. change kMinThreadCacheSize with (2 ^ 19) in *.
  destruct Hb as [B1 B2 B3 B4]. change kStealAmount with (2 ^ 16) in *. change kMinThreadCacheSize with (2 ^ 19) in *.
  destruct (B4 v tv Hv) as [_ [a Ha]]. destruct (B4 this t Ht) as [_ [b Hb]].
  assert (<[v := SetMaxSize tv (max_size_ tv - 2 ^ 16)]> (caches s) !! this = Some t) as Ht' by by rewrite lookup_insert_ne.
  pose proof (max_size_set tv (max_size_ tv - 2 ^ 16) ltac:(unfold INT_MAX; lia)) as E1.
  pose proof (max_size_set t (max_size_ t + 2 ^ 16) ltac:(unfold INT_MAX; lia)) as E2.
  rewrite Er. split; simpl; change kStealAmount with (2 ^ 16); change kMinThreadCacheSize with (2 ^ 19); [done|..].
  - rewrite (wsum_set _ _ _ _ _ Ht'), (wsum_set _ _ _ _ _ Hv), E1, E2. lia.
  - rewrite (wsum_set _ _ _ _ _ Ht'), (wsum_set _ _ _ _ _ Hv), E1, E2. lia.
  - intros h u Hu. destruct (decide (h = this)) as [->|N1].
    { rewrite lookup_insert_eq in Hu. injection Hu as <-. rewrite E2. split; [lia|]. exists (b + 1). lia. }
    rewrite lookup_insert_ne in Hu by done. destruct (decide (h = v)) as [->|N2].
    { rewrite lookup_insert_eq in Hu. injection Hu as <-. rewrite E1. split; [lia|]. exists (a - 1). lia. }
    rewrite lookup_insert_ne in Hu by done. by eapply B4.
Qed.
Lemma budget_claim s this t : budget s → Z.of_nat (size (dom (caches s))) ≤ kMaxCaches → caches s !! this = Some t →
  0 < unclaimed_cache_space_ (registry s) →
  budget (with_registry (with_caches s (<[this := SetMaxSize t (max_size_ t + kStealAmount)]> (caches s)))
    (with_unclaimed (registry s) (ssize (unclaimed_cache_space_ (registry s) - kStealAmount)))).
Proof.
  intros Hb Hn Ht Hu. pose proof (budget_limit s this t Hb Hn Ht) as Lt. pose proof (budget_unclaimed s Hb Hn) as Lu.
  change kMaxLimit with 1610678272 in *. change kStealAmount with (2 ^ 16) in *.
  destruct Hb as [B1 B2 B3 B4]. change kStealAmount with (2 ^ 16) in *. change kMinThreadCacheSize with (2 ^ 19) in *.
  destruct (B4 this t Ht) as [_ [b Hb]]. pose proof (max_size_set t (max_size_ t + 2 ^ 16) ltac:(unfold INT_MAX; lia)) as E2.
  rewrite ssize_id by lia. split; simpl; change kStealAmount with (2 ^ 16); change kMinThreadCacheSize with (2 ^ 19); [done|..].
  - rewrite (wsum_set _ _ _ _ _ Ht), E2. lia.
  - pose proof (wsum_nonneg (λ _ t, Z.min (max_size_ t) (2 ^ 19)) (<[this := SetMaxSize t (max_size_ t + 2 ^ 16)]> (caches s))) as Hnn.
    cut (0 ≤ wsum (λ _ t, Z.min (max_size_ t) (2 ^ 19)) (<[this := SetMaxSize t (max_size_ t + 2 ^ 16)]> (caches s))); [lia|]. apply Hnn.
    intros h u. destruct (decide (h = this)) as [->|N1]; [rewrite lookup_insert_eq; intros [= <-]; rewrite E2; lia|].
    rewrite lookup_insert_ne by done. intros Hhu. destruct (B4 h u Hhu). lia.
  - intros h u. destruct (decide (h = this)) as [->|N1].
    + rewrite lookup_insert_eq. intros [= <-]. rewrite E2. split; [lia|]. exists (b + 1). lia.
    + rewrite lookup_insert_ne by done. apply B4.
Qed.

(** ** [IncreaseCacheLimitLocked] *)
Variable ab : Prop.
Definition few s : Prop := Z.of_nat (size (dom (caches s))) ≤ kMaxCaches.
Lemma wp_on_registry (u : Registry → Registry) (Q : () → state → Prop) s : Q tt (with_registry s (u (registry s))) → wp ab (on_registry u) Q s.
Proof. done. Qed.
Lemma wp_get_registry (Q : Registry → state → Prop) s : Q (registry s) s → wp ab get_registry Q s.
Proof. done. Qed.
Lemma limits_fit s : budget s → few s → ∀ h t, caches s !! h = Some t → 0 ≤ max_size_ t ≤ INT_MAX.
Proof. intros Hb Hn h t Ht. pose proof (budget_limit s h t Hb Hn Ht). change kMaxLimit with 1610678272 in *. unfold INT_MAX. lia. Qed.
(** Where the next limit is stolen from does not matter. *)
Lemma budget_steal_next s v : budget s → budget (with_registry s (with_steal (registry s) v)).
Proof. by intros []. Qed.
Lemma relimited_steal s v : budget s → few s → relimited s (with_registry s (with_steal (registry s) v)).
Proof.
  intros Hb Hn. destruct (relimited_refl s (limits_fit s Hb Hn)) as [_ _ _ Hc]. split; [by destruct s|by destruct s as [? ? []]|done|done].
Qed.
Lemma wp_steal_loop this n : ∀ s heaps t (Q : () → state → Prop), budget s → few s → registered s heaps → heaps ≠ [] → caches s !! this = Some t →
  (∀ s', relimited s s' → budget s' → registered s' heaps → unclaimed_cache_space_ (registry s') = unclaimed_cache_space_ (registry s) → Q tt s') →
  wp ab (steal_loop n this) Q s.
Proof.
  induction n as [|n IH]; intros s heaps t Q Hb Hn Hr Hne Ht HQ; cbn [steal_loop].
  { apply wp_ret, HQ; [by apply relimited_refl, limits_fit|done..]. }
  apply wp_bind, wp_get_registry, wp_bind.
  apply (wp_mono _ _ (λ _ s1, ∃ v, v ∈ heaps ∧ s1 = with_registry s (with_steal (registry s) v))).
  { pose proof Hr as [R1 _ _ [R4|R4]].
    - rewrite R4, Z.eqb_refl. assert (thread_heaps_ (registry s) ≠ 0) as H0 by (intros E; by apply Hne, (dlist_head _ _ _ _ R1)).
      apply wp_bind, wp_tassert; [by apply negb_true_iff, Z.eqb_neq|]. apply wp_on_registry. exists (thread_heaps_ (registry s)). split; [|done].
      destruct heaps as [|x l]; [done|]. destruct R1 as (-> & _). left.
    - rewrite (proj2 (Z.eqb_neq _ _)) by by destruct (dlist_in _ _ _ _ _ _ R1 R4). apply wp_ret. exists (next_memory_steal_ (registry s)). split; [done|].
      by destruct s as [? ? []]. }
  intros [] s1 (v & Hv & ->). set (s1 := with_registry s _). apply wp_bind, wp_get_registry. cbv zeta. simpl next_memory_steal_.
  destruct (dlist_in _ _ _ _ _ _ (rg_chain _ _ Hr) Hv) as (Hv0 & tv & Htv & Hnext).
  assert (budget s1) as Hb1 by by apply budget_steal_next. pose proof (relimited_steal s v Hb Hn) as Hl1. fold s1 in Hl1.
  assert (∀ s2 t2, registered s2 heaps → caches s2 !! v = Some t2 → next_ t2 = next_ tv → budget s2 → few s2 → relimited s s2 →
    wp ab (on_registry (λ r, with_steal r (next_ t2))) (λ _ s3, s3 = with_registry s2 (with_steal (registry s2) (next_ t2)) ∧ registered s3 heaps ∧ budget s3 ∧ relimited s s3) s2) as Hnextreg.
  { intros s2 t2 Hr2 Ht2 E2 Hb2 Hn2 Hl2. apply wp_on_registry. split; [done|]. pose proof (relimited_steal s2 (next_ t2) Hb2 Hn2) as Hl3.
    split; [eapply relimited_registered; [done..|simpl; rewrite E2; tauto]|]. split; [by apply budget_steal_next|by eapply relimited_trans]. }
  assert (registered s1 heaps) as Hr1 by (eapply relimited_registered; [done..|right; done]).
  apply wp_bind, (wp_mono _ _ (λ (skip : bool) s2, s2 = s1 ∧ (skip = false → v ≠ this ∧ kMinThreadCacheSize < max_size_ tv))).
  { apply wp_if; intros Hc; [by apply wp_ret|apply Z.eqb_neq in Hc]. eapply wp_bind, wp_get_cache; [exact Htv|]. apply wp_ret. split; [done|].
    rewrite size_t_nonneg by (by eapply limits_fit). intros ?%Z.leb_gt. done. }
  intros skip s2 [-> Hskip]. apply wp_if; intros ->.
  - eapply wp_bind, wp_get_cache; [exact Htv|]. apply wp_bind. eapply wp_mono; [by apply (Hnextreg s1 tv)|]. intros [] s3 (-> & Hr3 & Hb3 & Hl3).
    eapply (IH _ heaps t); [done..|]. intros s4 Hl4 Hb4 Hr4 Hu4. apply HQ; [by eapply relimited_trans|done..].
  - destruct (Hskip eq_refl) as [Hne' Hmin]. eapply wp_bind, wp_on_cache; [exact Htv|]. set (s2 := upd s1 v _ _).
    assert (caches s2 !! this = Some t) as Ht2 by (simpl; by rewrite lookup_insert_ne). eapply wp_bind, wp_on_cache; [exact Ht2|]. set (s3 := upd s2 this _ _).
    assert (s3 = with_registry (with_caches s1 (<[this := SetMaxSize t (max_size_ t + kStealAmount)]>
      (<[v := SetMaxSize tv (max_size_ tv - kStealAmount)]> (caches s1)))) (registry s1)) as E3 by (by unfold s3, s2, upd; destruct s1).
    assert (budget s3) as Hb3 by (rewrite E3; apply budget_steal; try done; by destruct s as [? ? []]).
    assert (relimited s1 s3) as Hl3.
    { rewrite E3. split; [done|by destruct s as [? ? []]| |].
      - simpl. by rewrite !dom_insert_lookup_L; [|rewrite ?lookup_insert_ne by done; by eexists..].
      - intros h u Hu. simpl. destruct (decide (h = this)) as [->|N1]; [assert (u = t) as -> by (simpl in Hu; congruence); rewrite lookup_insert_eq; by eexists|].
        rewrite lookup_insert_ne by done. destruct (decide (h = v)) as [->|N2]; [assert (u = tv) as -> by (simpl in Hu; congruence); rewrite lookup_insert_eq; by eexists|].
        rewrite lookup_insert_ne by done. exists (max_size_ u). change (caches s1) with (caches s) in Hu. rewrite Hu. f_equal. pose proof (limits_fit s Hb Hn h u Hu). unfold SetMaxSize.
        rewrite size_t_nonneg, to_int_small by lia. by destruct u. }
    assert (relimited s s3) as Hl by by eapply relimited_trans. assert (few s3) as Hn3 by (unfold few; by rewrite (rl_dom _ _ Hl)).
    assert (caches s3 !! v = Some (SetMaxSize tv (max_size_ tv - kStealAmount))) as Hv3 by (rewrite E3; simpl; rewrite lookup_insert_ne by done; apply lookup_insert_eq).
    eapply wp_bind, wp_get_cache; [exact Hv3|].
    eapply wp_mono; [apply (Hnextreg s3 (SetMaxSize tv (max_size_ tv - kStealAmount))); [|done|done|done|done|done]|].
    { eapply relimited_registered; [exact Hl3|done|]. rewrite E3. by right. }
    intros [] s4 (-> & Hr4 & Hb4 & Hl4). apply HQ; [done..|]. by rewrite E3.
Qed.
Lemma wp_IncreaseCacheLimitLocked this s heaps t (Q : () → state → Prop) : budget s → few s → registered s heaps → caches s !! this = Some t →
  (heaps = [] → 0 < unclaimed_cache_space_ (registry s)) →
  (∀ s', relimited s s' → budget s' → registered s' heaps →
     (unclaimed_cache_space_ (registry s') ≤ 0 ∨ ∀ t', caches s' !! this = Some t' → 0 < max_size_ t') → Q tt s') →
  wp ab (IncreaseCacheLimitLocked this) Q s.
Proof.
  intros Hb Hn Hr Ht H0 HQ. unfold IncreaseCacheLimitLocked. apply wp_bind, wp_get_registry. apply wp_if; intros Hc; [apply Z.ltb_lt in Hc|apply Z.ltb_ge in Hc].
  - apply wp_bind, wp_on_registry. eapply wp_on_cache; [exact Ht|]. pose proof (budget_claim s this t Hb Hn Ht Hc) as Hb'.
    set (s1 := upd _ _ _ _). set (s2 := with_registry (with_caches s _) _) in Hb'. assert (s1 = s2) as -> by by unfold s1, s2, upd; destruct s.
    assert (relimited s s2) as Hl.
    { split; [done|by destruct s as [? ? []]|simpl; rewrite dom_insert_lookup_L; [done|by eexists]|]. intros h u Hu. simpl.
      destruct (decide (h = this)) as [->|N1]; [assert (u = t) as -> by congruence; rewrite lookup_insert_eq; by eexists|]. rewrite lookup_insert_ne by done.
      exists (max_size_ u). rewrite Hu. f_equal. pose proof (limits_fit s Hb Hn h u Hu). unfold SetMaxSize. rewrite size_t_nonneg, to_int_small by lia. by destruct u. }
    apply HQ; [done|done|eapply relimited_registered; [done..|apply (rg_steal _ _ Hr)]|right]. intros t'. simpl. rewrite lookup_insert_eq. intros [= <-].
    pose proof (limits_fit s Hb Hn this t Ht). pose proof (budget_limit s this t Hb Hn Ht). change kMaxLimit with 1610678272 in *. change kStealAmount with 65536. rewrite max_size_set by (unfold INT_MAX; lia). lia.
  - eapply wp_steal_loop; [done..| |done|]; [intros E; specialize (H0 E); lia|]. intros s' Hl Hb' Hr' Hu. apply HQ; [done..|left; lia].
Qed.
End limits.
