(* ===== verification/ThreadSpec.v ===== *)
(** * Thread caches: the invariant, and what the operations do

    What holds of all the caches between operations, and that [Allocate] gives an object
    nobody had, [Deallocate] takes one back, and nothing overflows. *)
From stdpp Require Import base numbers list option gmap sets fin_maps fin_map_dom.
From Stdlib Require Import ZArith Lia.
From S2P Require Import Prelude SizeMap SpanList SystemAlloc MetaData CentralFreeList CentralLists CentralPool.
From S2P Require Import ObjectPool Sampler ThreadCache ThreadLists ThreadMoves ThreadSizes ThreadScavenge ThreadLimits.
Open Scope Z_scope.

Section spec.
Context {C : Type} `{ObjectPool C} {sm : SizeMap} `{!ObjectPoolLaws C sm}.
Context {W : Type} `{SysAllocLaws W} {T : Type} `{!ObjAllocator T W} `{!ObjAllocatorLaws T W}.
Abbreviation state := (Threads C T W).
Hypothesis Hsm : sizes_ok sm.
Implicit Types (s : state) (g : contents) (P : pool) (D : gset Z) (h cl x : Z) (t : ThreadCache) (f : FreeList) (heaps : list Z).
Abbreviation ab := (op_ab (C := C) (sm := sm)).
Abbreviation set_of heaps := (list_to_set heaps : gset Z).

Definition cache_fine t : Prop := counted sm t ∧ bounded sm t ∧ sampler_ok (sampler_ t) ∧ in_setspecific_ t = false.
Record threads_core s g P heaps : Prop := {
  tc_inv : tinv (set_of heaps) s g P;
  tc_dom : dom (caches s) = set_of heaps;
  tc_reg : registered s heaps;
  tc_budget : budget s;
  tc_few : zlen heaps ≤ kMaxCaches;
  tc_meta : sa_wf (metadata s);
  tc_alloc : oa_rep (threadcache_allocator s) (metadata s) (set_of heaps);
  tc_old h t : old_caches s !! h = Some t → zlen (lists_ t) = kClassSizesMax;
  tc_pos h : h ∈ heaps → 0 < h;
}.
Record threads_ok s g P heaps : Prop := {
  tk_core : threads_core s g P heaps;
  tk_cache h t : caches s !! h = Some t → cache_fine t;
}.

Lemma core_few s g P heaps : threads_core s g P heaps → few s.
Proof.
  intros [_ K1 [_ K2 _ _] _ K3 _ _ _ _]. unfold few. rewrite K1, size_list_to_set by done. done.
Qed.
Lemma core_cache s g P heaps h : threads_core s g P heaps → h ∈ heaps → is_Some (caches s !! h).
Proof. intros Hc Hh. apply elem_of_dom. rewrite (tc_dom _ _ _ _ Hc). by apply elem_of_list_to_set. Qed.

(** ** Steps of one cache, with all the others *)
Record serves s g P heaps h t' (gone come : list Z) cl s' g' P' : Prop := {
  sv_core : threads_core s' g' P' heaps;
  sv_cache : caches s' !! h = Some t';
  sv_other h' t2 : h' ≠ h → caches s' !! h' = Some t2 → ∃ t1 v, caches s !! h' = Some t1 ∧ t2 = SetMaxSize t1 v;
  sv_user x k : user (set_of heaps) g' P' x k ↔ (user (set_of heaps) g P x k ∧ x ∉ gone) ∨ (x ∈ come ∧ k = cl);
  sv_fresh x k : x ∈ come → ¬ user (set_of heaps) g P x k;
  sv_words x k : user (set_of heaps) g P x k → x ∉ gone → held_words s' !! x = held_words s !! x;
  sv_locals : locals s' = locals s ∧ tsd_inited_ s' = tsd_inited_ s ∧ phinited s' = phinited s;
}.
Lemma goes_core s g P heaps h t t' gone come cl s' g' P' : threads_core s g P heaps → h ∈ heaps → caches s !! h = Some t →
  goes (set_of heaps) h s g P t' gone come cl s' g' P' → next_ t' = next_ t → prev_ t' = prev_ t → max_size_ t' = max_size_ t →
  serves s g P heaps h t' gone come cl s' g' P'.
Proof.
  intros [K1 K2 [R1 R2 R3 R4] [B1 B2 B3 B4] K5 K6 K7 K8 K9] Hh Ht [[c ->] G2 G3 G4 G5] En Ep Em. split; [split| | |done..]; simpl.
  - done.
  - rewrite dom_insert_lookup_L; [done|by eexists].
  - split; simpl; [|done..]. eapply dlist_frame; [|exact R1]. intros x u _ Hu. destruct (decide (x = h)) as [->|Hne].
    + assert (u = t) as -> by congruence. rewrite lookup_insert_eq. by eexists.
    + rewrite lookup_insert_ne by done. by eexists.
  - split; simpl; [done|rewrite (wsum_set _ _ _ _ _ Ht), Em; lia|rewrite (wsum_set _ _ _ _ _ Ht), Em; lia|].
    intros h' u. destruct (decide (h' = h)) as [->|Hne]; [|rewrite lookup_insert_ne by done; apply B4].
    rewrite lookup_insert_eq. intros [= <-]. rewrite Em. by eapply B4.
  - done.
  - done.
  - done.
  - done.
  - done.
  - apply lookup_insert_eq.
  - intros h' t2 Hne Ht2. rewrite lookup_insert_ne in Ht2 by done. exists t2, (max_size_ t2). split; [done|].
    pose proof (budget_limit s h' t2 ltac:(by split) ltac:(eapply (core_few s g P heaps); by split) Ht2) as Hl.
    unfold SetMaxSize. change kMaxLimit with 1610678272 in Hl. rewrite size_t_nonneg, to_int_small by (unfold INT_MAX; lia). by destruct t2.
Qed.
Lemma relimited_core s g P heaps s' : threads_core s g P heaps → relimited s s' → budget s' → registered s' heaps → threads_core s' g P heaps.
Proof.
  intros Hc Hl Hb Hr. pose proof Hc as [K1 K2 K3 K4 K5 K6 K7 K8 K9]. pose proof (rl_state _ _ Hl) as E. split; try done.
  - by eapply relimited_tinv.
  - by rewrite (rl_dom _ _ Hl).
  - by rewrite E.
  - by rewrite E.
  - rewrite E. exact K8.
Qed.
Lemma serves_relimited s g P heaps h t' gone come cl s' g' P' s2 : serves s g P heaps h t' gone come cl s' g' P' → relimited s' s2 →
  budget s2 → registered s2 heaps → ∃ v, serves s g P heaps h (SetMaxSize t' v) gone come cl s2 g' P'.
Proof.
  intros [V1 V2 V3 V4 V5 V6 V7] Hl Hb Hr. destruct (rl_cache _ _ Hl h t' V2) as [v Hv]. exists v.
  pose proof (rl_state _ _ Hl) as E. split; try done.
  - by eapply relimited_core.
  - intros h' t2 Hne Ht2. destruct (relimited_cache _ _ _ _ Hl Ht2) as (t1 & w & Ht1 & ->). destruct (V3 h' t1 Hne Ht1) as (t0 & w' & Ht0 & ->).
    by exists t0, w.
  - intros x k Hx Hn. rewrite <- (V6 x k Hx Hn). unfold held_words. by rewrite E.
  - by rewrite E.
Qed.
Lemma serves_still s g P heaps h t1 gone come cl s1 g1 P1 t2 s2 g2 P2 : serves s g P heaps h t1 gone come cl s1 g1 P1 →
  serves s1 g1 P1 heaps h t2 [] [] 0 s2 g2 P2 → serves s g P heaps h t2 gone come cl s2 g2 P2.
Proof.
  intros [A1 A2 A3 A4 A5 A6 (A7 & A8 & A9)] [V1 V2 V3 V4 V5 V6 (V7 & V8 & V9)].
  assert (∀ x : Z, x ∉ []) as Hnil by (intros; apply not_elem_of_nil). split; try done; [| | |by rewrite V7, V8, V9].
  - intros h' u Hne Hu. destruct (V3 h' u Hne Hu) as (u1 & v & Hu1 & ->). destruct (A3 h' u1 Hne Hu1) as (u0 & w & Hu0 & ->). by exists u0, v.
  - intros x k. rewrite V4, A4. pose proof (Hnil x). tauto.
  - intros x k Hx Hn. rewrite (V6 x k); [by apply (A6 x k)|apply A4; by left|done].
Qed.
Lemma fine_limit t v : cache_fine (SetMaxSize t v) ↔ cache_fine t.
Proof.
  unfold cache_fine. assert (counted sm (SetMaxSize t v) ↔ counted sm t) as Hc by (split; intros []; by split).
  assert (bounded sm (SetMaxSize t v) ↔ bounded sm t) as Hb by done. by rewrite Hc, Hb.
Qed.
Lemma serves_ok s g P heaps h t' gone come cl s' g' P' : threads_ok s g P heaps → serves s g P heaps h t' gone come cl s' g' P' →
  cache_fine t' → threads_ok s' g' P' heaps.
Proof.
  intros [_ Hf] [V1 V2 V3 _ _ _ _] Ht'. split; [done|]. intros h' u Hu. destruct (decide (h' = h)) as [->|Hne]; [congruence|].
  destruct (V3 h' u Hne Hu) as (u1 & v & Hu1 & ->). apply fine_limit. by eapply Hf.
Qed.

(** ** [if (size_ > max_size_) Scavenge()] *)
(** What a cache may be like before: the next [Scavenge] makes it fine. *)
Record almost_fine t : Prop := {
  af_counted : counted sm t;
  af_rest : sampler_ok (sampler_ t) ∧ in_setspecific_ t = false;
  af_excess : ∃ cl f, class_ok sm cl ∧ lists_ t !! Z.to_nat cl = Some f ∧
    excess sm t ≤ kMaxLimit + kMaxSize + (if (0 <? lowater_ f) && (cbatch sm cl + 1 <? length_ f) then csize sm cl else 0);
}.
Lemma swept_fine t t' : almost_fine t → swept (sm := sm) (scavenged (sm := sm)) 0 t t' → cache_fine t'.
Proof.
  intros [A1 [A2 A3] (cl & f & Hcl & Hf & He)] Hsw. split; [by eapply sw_counted|]. split.
  - right. split; [by eapply swept_settled|]. pose proof (swept_excess Hsm t t' cl f A1 Hsw Hcl Hf). lia.
  - rewrite (sw_same _ _ _ _ Hsw). done.
Qed.
Lemma wp_Scavenge s g P heaps h t (Q : () → state → Prop) : threads_core s g P heaps → h ∈ heaps → caches s !! h = Some t → almost_fine t →
  (∀ t' s' g' P', cache_fine t' → serves s g P heaps h t' [] [] 0 s' g' P' → Q tt s') → wp ab (Scavenge sm h) Q s.
Proof.
  intros Hc Hh Ht Haf HQ. unfold Scavenge. eapply wp_bind, (wp_scavenge_lists Hsm (set_of heaps) s g P h t); [by eapply tc_inv|by apply elem_of_list_to_set|done|by apply Haf|].
  intros t1 s1 g1 P1 Hsw Hgo. assert (next_ t1 = next_ t ∧ prev_ t1 = prev_ t ∧ max_size_ t1 = max_size_ t) as (E1 & E2 & E3) by (rewrite (sw_same _ _ _ _ Hsw); done).
  pose proof (goes_core s g P heaps h t t1 [] [] 0 s1 g1 P1 Hc Hh Ht Hgo E1 E2 E3) as Hsv. pose proof (sv_core _ _ _ _ _ _ _ _ _ _ _ _ Hsv) as Hc1.
  unfold IncreaseCacheLimit. eapply (wp_IncreaseCacheLimitLocked ab h s1 heaps t1); [by eapply tc_budget|by eapply core_few|by eapply tc_reg|by eapply sv_cache| |].
  { intros ->. by apply not_elem_of_nil in Hh. }
  intros s2 Hl Hb Hr _. destruct (serves_relimited _ _ _ _ _ _ _ _ _ _ _ _ s2 Hsv Hl Hb Hr) as [v Hsv2].
  eapply HQ; [|exact Hsv2]. by apply fine_limit, (swept_fine t).
Qed.
Lemma wp_tail s g P heaps h t (Q : () → state → Prop) : threads_core s g P heaps → h ∈ heaps → caches s !! h = Some t → almost_fine t →
  (∀ t' s' g' P', cache_fine t' → serves s g P heaps h t' [] [] 0 s' g' P' → Q tt s') →
  wp ab (t ← get_cache h; if max_size_ t <? size_ t then Scavenge sm h else mret tt) Q s.
Proof.
  intros Hc Hh Ht Haf HQ. eapply wp_bind, wp_get_cache; [done|]. apply wp_if; intros Hs; [by eapply wp_Scavenge|]. apply Z.ltb_ge in Hs.
  apply wp_ret. pose proof (budget_limit s h t (tc_budget _ _ _ _ Hc) (core_few _ _ _ _ Hc) Ht). destruct Haf as [A1 [A2 A3] _]. apply (HQ t s g P).
  - split; [done|]. split; [apply bounded_small; [done..|lia]|done].
  - apply (goes_core s g P heaps h t t [] [] 0 s g P); try done. apply still_refl; [by eapply tc_inv|done].
Qed.

(** ** [Deallocate] *)
(** An object more on a list: at most its bytes are added to the excess, and where the
    list was long it is one that [Scavenge] drops from. *)
Lemma excess_push t cl f x : cache_fine t → class_ok sm cl → lists_ t !! Z.to_nat cl = Some f →
  let f1 := relink false f x (length_ f + 1) in
  excess sm (with_size (set_fl t cl f1) (size_ t + csize sm cl)) ≤
  kMaxLimit + kMaxSize + (if (0 <? lowater_ f1) && (cbatch sm cl + 1 <? length_ f1) then csize sm cl else 0).
Proof.
  intros (Hct & Hb & _) Hcl Hf f1. rewrite (excess_set sm t cl f f1 Hcl Hf). unfold f1. simpl. pose proof (csize_range sm Hsm cl Hcl).
  assert (0 ≤ cl < num_size_classes sm) as Hcl' by (unfold class_ok in Hcl; lia). pose proof (ct_fl sm t cl f Hct Hcl' Hf) as [O1 O2 _ _ _ _ _].
  destruct Hb as [He|[Hset He]].
  - assert (csize sm cl * (Z.max 0 (length_ f + 1 - (cbatch sm cl + 1)) - Z.max 0 (length_ f - (cbatch sm cl + 1))) ≤ csize sm cl) by nia.
    repeat case_match; lia.
  - destruct (Z.le_gt_cases (length_ f) (cbatch sm cl)) as [Hle|Hgt].
    + rewrite !Z.max_l by lia. repeat case_match; lia.
    + assert (lowater_ f ≠ 0) as Hlow by (intros E; specialize (Hset cl f Hcl Hf E); lia).
      rewrite (proj2 (Z.ltb_lt 0 _)), (proj2 (Z.ltb_lt (cbatch sm cl + 1) _)) by lia. simpl. rewrite !Z.max_r by lia. lia.
Qed.
(** [ListTooLong] adjusts [max_length_]. *)
Lemma wp_adjust {A} (k : M state A) s g P h t cl f (Q : A → state → Prop) D : tinv D s g P → h ∈ D → caches s !! h = Some t →
  class_ok sm cl → lists_ t !! Z.to_nat cl = Some f → fl_ok sm cl f →
  (∀ f' s', fl_ok sm cl f' → length_ f' = length_ f → still D h s g P (set_fl t cl f') s' g P → wp ab k Q s') →
  wp ab (_ ← (if max_length_ f <? size_t (cbatch sm cl) then put_fl h cl (set_max_length f (max_length_ f + 1))
          else if size_t (cbatch sm cl) <? max_length_ f then
            let f := set_length_overages f (length_overages_ f + 1) in
            _ ← put_fl h cl f;
            if kMaxOverages <? length_overages_ f then
              _ ← TASSERT (size_t (cbatch sm cl) <? max_length_ f);
              put_fl h cl (set_length_overages (set_max_length f (max_length_ f - cbatch sm cl)) 0)
            else mret tt
          else mret tt); k) Q s.
Proof.
  intros Hi Hh Ht Hcl Hf Hok HQ. assert (0 ≤ cl < num_size_classes sm) as Hcl' by (unfold class_ok in Hcl; lia).
  pose proof (cbatch_range sm Hsm cl Hcl) as Hb. pose proof Hok as [O1 O2 O3 O4 O5 O6 O7]. change kMaxDynamicFreeListLength with 8192 in *. change kMaxOverages with 3 in *.
  rewrite size_t_nonneg by (unfold INT_MAX; lia). apply wp_bind. apply wp_if; intros Hc1; [apply Z.ltb_lt in Hc1|apply Z.ltb_ge in Hc1].
  { eapply wp_put_fl; [done|lia|done|]. eapply HQ; [| |by eapply still_fl]; [|done].
    split; simpl; rewrite ?u32_id by lia; change kMaxDynamicFreeListLength with 8192; change kMaxOverages with 3; try done; lia. }
  apply wp_if; intros Hc2; [apply Z.ltb_lt in Hc2|].
  2:{ apply wp_ret, (HQ f); [done..|]. unfold set_fl. rewrite list_insert_id by done. replace (with_fl t (lists_ t)) with t by by destruct t. by apply still_refl. }
  cbv zeta. set (f1 := set_length_overages f _). assert (length_overages_ f1 = length_overages_ f + 1) as Eo by (simpl; rewrite u32_id by lia; done).
  eapply wp_bind, wp_put_fl; [done|lia|done|]. pose proof (still_fl D s g P h t cl f f1 Hi Hh Ht Hcl' Hf eq_refl eq_refl) as Hgo1. set (s1 := upd s h _ _) in *.
  assert (lists_ (set_fl t cl f1) !! Z.to_nat cl = Some f1) as Hf1 by by eapply set_fl_lookup. apply wp_if; intros Hc3; [apply Z.ltb_lt in Hc3|apply Z.ltb_ge in Hc3].
  - apply wp_bind, wp_tassert; [by apply Z.ltb_lt|]. set (f2 := set_length_overages _ 0). eapply wp_put_fl; [apply upd_caches|lia|exact Hf1|].
    pose proof (still_fl D s1 g P h _ cl f1 f2 (go_inv _ _ _ _ _ _ _ _ _ _ _ _ Hgo1) Hh (upd_caches _ _ _ _) Hcl' Hf1 eq_refl eq_refl) as Hgo2.
    eapply (HQ f2); [|done|]; [|rewrite <- (set_fl_twice t cl f1 f2); by eapply goes_still_l].
    assert (max_length_ f2 = max_length_ f - cbatch sm cl) as Em by (simpl; rewrite u32_id by lia; done).
    assert (length_overages_ f2 = 0) as E0 by done. split; rewrite ?Em, ?E0; change kMaxDynamicFreeListLength with 8192; change kMaxOverages with 3; try done; try lia.
    intros _ Hlt. apply Z.divide_sub_r; [by apply O7|done].
  - apply wp_ret. eapply (HQ f1); [|done|exact Hgo1]. split; rewrite ?Eo; change kMaxDynamicFreeListLength with 8192; change kMaxOverages with 3; try done; lia.
Qed.
Lemma add_bytes_ok h t z (Q : () → state → Prop) s : caches s !! h = Some t → INT_MIN ≤ size_ t + z ≤ INT_MAX →
  Q tt (upd s h (with_size t (size_ t + z)) (objects_of s)) → wp ab (add_bytes h z) Q s.
Proof.
  intros Ht Hz HQ. unfold add_bytes. eapply wp_bind, wp_get_cache; [done|]. eapply wp_bind, wp_lift; [by apply i32_ok|]. by eapply wp_put_cache.
Qed.
(** After the object is pushed: [f1] is one longer than [f]. *)
Lemma wp_ListTooLong s g P heaps h t cl f x s1 g1 P1 (Q : () → state → Prop) : threads_ok s g P heaps → h ∈ heaps → caches s !! h = Some t →
  class_ok sm cl → lists_ t !! Z.to_nat cl = Some f →
  let f1 := relink false f x (length_ f + 1) in
  goes (set_of heaps) h s g P (set_fl t cl f1) [x] [] cl s1 g1 P1 →
  (∀ t' s' g' P', cache_fine t' → serves s g P heaps h t' [x] [] cl s' g' P' → Q tt s') → wp ab (ListTooLong sm h cl) Q s1.
Proof.
  intros Hok Hh Ht Hcl Hf f1 Hgo1 HQ. pose proof (tk_core _ _ _ _ Hok) as Hc. destruct (tk_cache _ _ _ _ Hok h t Ht) as (Hct & Hb & Hsa & His).
  assert (0 ≤ cl < num_size_classes sm) as Hcl' by (unfold class_ok in Hcl; lia). pose proof (ct_fl sm t cl f Hct Hcl' Hf) as Hfo. pose proof Hfo as [O1 O2 O3 O4 O5 O6 O7].
  pose proof (csize_range sm Hsm cl Hcl) as Hcs. pose proof (cbatch_range sm Hsm cl Hcl) as Hbt. pose proof (bounded_fits sm Hsm t Hct Hb) as Hfit.
  pose proof (list_bytes sm Hsm t cl f Hct Hcl Hf) as Hlb. change kMaxDynamicFreeListLength with 8192 in *. change kMaxSize with (2 ^ 18) in *.
  assert (h ∈ set_of heaps) as Hh' by by apply elem_of_list_to_set. assert (lists_ (set_fl t cl f1) !! Z.to_nat cl = Some f1) as Hf1 by by eapply set_fl_lookup.
  pose proof (goes_cache _ _ _ _ _ _ _ _ _ _ _ _ Hgo1) as Ht1. unfold ListTooLong. eapply wp_bind, wp_get_fl; [done|lia|exact Hf1|].
  assert (object_size f1 = csize sm cl) as -> by by apply O5. eapply wp_bind, add_bytes_ok; [exact Ht1|unfold INT_MIN; simpl; nia|].
  set (t2 := with_size (set_fl t cl f1) _). pose proof (still_fields _ s1 g1 P1 h _ t2 (go_inv _ _ _ _ _ _ _ _ _ _ _ _ Hgo1) Hh' Ht1 eq_refl) as Hgo2.
  pose proof (goes_still_r _ _ _ _ _ _ _ _ _ _ _ _ _ _ _ _ Hgo1 Hgo2) as Hgo. eapply wp_bind, wp_lift; [by apply num_objects_to_move_ok|].
  eapply wp_bind, (wp_ReleaseToCentralCache Hsm _ _ g1 P1 h t2 cl f1); [by eapply go_inv|done|by eapply goes_cache|done|done|simpl; lia|simpl; lia|unfold INT_MAX; lia|simpl; nia|].
  intros f2 s2 g2 P2 Hle Hgo3. set (n := Z.min (cbatch sm cl) (length_ f1)) in *. assert (1 ≤ n ≤ length_ f + 1) as Hn by (unfold n; simpl; lia).
  pose proof (goes_still_r _ _ _ _ _ _ _ _ _ _ _ _ _ _ _ _ Hgo Hgo3) as Hgo4. pose proof (le_length _ _ _ Hle) as El. change (length_ f1) with (length_ f + 1) in El.
  assert (fl_ok sm cl f2) as Hfo2.
  { pose proof Hle as [_ L2 L3 L4 L5]. simpl in L2, L3, L4, L5. split; rewrite ?L2, ?L3, ?L4, ?L5, ?El; change kMaxDynamicFreeListLength with 8192; try done; unfold class_ok in Hcl; lia. }
  set (z := size_ t + csize sm cl * (length_ f2 - length_ f)). assert (0 ≤ size_ t + csize sm cl - n * csize sm cl) as Hz0 by (pose proof (ct_size _ _ Hct); nia).
  assert (released (sm := sm) t2 cl f2 n = with_size (set_fl t cl f2) z) as Er.
  { unfold released. rewrite size_back by (simpl; lia || (simpl; split; [|nia]; done)). unfold t2, set_fl, with_fl, with_size, z. simpl. rewrite list_insert_insert_eq. f_equal. nia. }
  rewrite Er in Hgo4. assert (counted sm (with_size (set_fl t cl f2) z)) as Hct2 by (apply (counted_set sm t cl f f2 Hcl Hf); [done..|unfold z; nia]).
  assert (lists_ (with_size (set_fl t cl f2) z) !! Z.to_nat cl = Some f2) as Hf2 by by eapply (set_fl_lookup t cl f). pose proof (goes_cache _ _ _ _ _ _ _ _ _ _ _ _ Hgo4) as Ht2.
  eapply wp_bind, wp_get_fl; [exact Ht2|lia|exact Hf2|]. eapply (wp_adjust _ s2 g2 P2 h _ cl f2 _ (set_of heaps)); [by eapply go_inv|done|exact Ht2|done|done|done|].
  intros f3 s3 Hfo3 El3 Hgo5. destruct (counted_same _ cl f2 f3 Hct2 Hcl' Hf2 Hfo3 El3) as [Hct3 Eex].
  pose proof (goes_still_r _ _ _ _ _ _ _ _ _ _ _ _ _ _ _ _ Hgo4 Hgo5) as Hgo6. set (t3 := set_fl (with_size (set_fl t cl f2) z) cl f3) in *.
  pose proof (goes_core s g P heaps h t t3 [x] [] cl s3 g2 P2 Hc Hh Ht Hgo6 eq_refl eq_refl eq_refl) as Hsv.
  eapply (wp_tail s3 g2 P2 heaps h t3); [by eapply sv_core|done|by eapply sv_cache| |].
  - split; [done|done|]. exists cl, f3. split; [done|]. split; [by eapply set_fl_lookup|].
    rewrite Eex, (excess_set sm t cl f f2 Hcl Hf), El. assert (excess sm t ≤ kMaxLimit + kMaxSize) by (destruct Hb as [|[]]; [unfold kMaxSize|]; lia).
    assert (csize sm cl * (Z.max 0 (length_ f + 1 - n - (cbatch sm cl + 1)) - Z.max 0 (length_ f - (cbatch sm cl + 1))) ≤ 0) by nia. repeat case_match; lia.
  - intros t' s' g' P' Hfine Hsv'. eapply HQ; [exact Hfine|]. by eapply serves_still.
Qed.
Lemma wp_Deallocate s g P heaps h x cl (Q : () → state → Prop) : threads_ok s g P heaps → h ∈ heaps → user (set_of heaps) g P x cl →
  (∀ s' g' P' t', threads_ok s' g' P' heaps → serves s g P heaps h t' [x] [] cl s' g' P' → Q tt s') → wp ab (Deallocate sm h x cl) Q s.
Proof.
  intros Hok Hh Hu HQ. pose proof (tk_core _ _ _ _ Hok) as Hc. destruct (core_cache _ _ _ _ _ Hc Hh) as [t Ht]. pose proof (tc_inv _ _ _ _ Hc) as Hi.
  destruct (tk_cache _ _ _ _ Hok h t Ht) as (Hct & Hb & Hsa & His). destruct (user_object _ _ _ _ _ _ Hi Hu) as (Hcl & Hx0 & Hx).
  assert (0 ≤ cl < num_size_classes sm) as Hcl' by (unfold class_ok in Hcl; lia). destruct (ct_list sm t Hct cl Hcl') as (f & Hf & Hfo).
  pose proof Hfo as [O1 O2 O3 O4 O5 O6 O7]. assert (h ∈ set_of heaps) as Hh' by by apply elem_of_list_to_set.
  pose proof (csize_range sm Hsm cl Hcl) as Hcs. pose proof (bounded_fits sm Hsm t Hct Hb) as Hfit. pose proof (bytes_nonneg sm Hsm t Hct) as Hs0. rewrite <- (ct_size _ _ Hct) in Hs0. change kMaxSize with (2 ^ 18) in Hcs.
  unfold Deallocate. eapply wp_bind, wp_get_fl; [done|lia|done|]. apply wp_bind, wp_tassert; [apply Z.ltb_lt; lia|]. apply wp_bind, wp_tassert.
  { apply negb_true_iff, Z.eqb_neq. intros E. destruct (tinv_list _ _ _ _ h t cl Hi Hh' Ht Hcl') as (f0 & Hf0 & [S1 _ _]). assert (f0 = f) as -> by congruence.
    apply sll_head in S1. rewrite <- E in S1. destruct (g h cl) as [|y l] eqn:El; [simpl in S1; lia|]. simpl in S1. subst y. apply (proj2 Hu h cl Hh'). rewrite El. left. }
  eapply wp_bind, (wp_Push (set_of heaps) s g P h t cl f x); [done..|lia|]. intros s1 g1 P1 Hgo1. set (f1 := relink false f x _) in *.
  assert (lists_ (set_fl t cl f1) !! Z.to_nat cl = Some f1) as Hf1 by by eapply set_fl_lookup. pose proof (goes_cache _ _ _ _ _ _ _ _ _ _ _ _ Hgo1) as Ht1.
  eapply wp_bind, wp_get_fl; [exact Ht1|lia|exact Hf1|]. apply wp_if; intros Hc1; [|apply Z.ltb_ge in Hc1; simpl in Hc1].
  - eapply (wp_ListTooLong s g P heaps h t cl f x); [done..|exact Hgo1|]. intros t' s' g' P' Hfine Hsv. eapply HQ; [by eapply serves_ok|exact Hsv].
  - assert (object_size f1 = csize sm cl) as -> by by apply O5. eapply wp_bind, add_bytes_ok; [exact Ht1|unfold INT_MIN; simpl; lia|]. set (t2 := with_size (set_fl t cl f1) _).
    pose proof (still_fields _ s1 g1 P1 h _ t2 (go_inv _ _ _ _ _ _ _ _ _ _ _ _ Hgo1) Hh' Ht1 eq_refl) as Hgo2.
    pose proof (goes_still_r _ _ _ _ _ _ _ _ _ _ _ _ _ _ _ _ Hgo1 Hgo2) as Hgo. set (s2 := upd s1 h t2 _) in *.
    assert (fl_ok sm cl f1) as Hfo1 by (split; simpl; try done; unfold class_ok in Hcl; lia).
    assert (counted sm t2) as Hct2 by (apply (counted_set sm t cl f f1 Hcl Hf); [done..|simpl; lia|simpl; lia]).
    pose proof (goes_core s g P heaps h t t2 [x] [] cl s2 g1 P1 Hc Hh Ht Hgo eq_refl eq_refl eq_refl) as Hsv.
    eapply (wp_tail s2 g1 P1 heaps h t2); [by eapply sv_core|done|by eapply sv_cache| |].
    + split; [done|done|]. exists cl, f1. split; [done|]. split; [exact Hf1|]. apply (excess_push t cl f x); [by split_and!|done|done].
    + intros t' s' g' P' Hfine Hsv'. pose proof (serves_still _ _ _ _ _ _ _ _ _ _ _ _ _ _ _ _ Hsv Hsv') as Hsv2.
      eapply HQ; [by eapply serves_ok|exact Hsv2].
Qed.

(** ** [Allocate] *)
(** A list that gave an object, or was refilled. *)
Lemma fine_set t cl f f' z : cache_fine t → class_ok sm cl → lists_ t !! Z.to_nat cl = Some f → fl_ok sm cl f' →
  z = size_ t + csize sm cl * (length_ f' - length_ f) → z ≤ INT_MAX → length_ f' ≤ length_ f ∨ length_ f' ≤ cbatch sm cl →
  (lowater_ f' = 0 → length_ f' ≤ cbatch sm cl ∨ lowater_ f = 0) → cache_fine (with_size (set_fl t cl f') z).
Proof.
  intros (Hct & Hb & Hr) Hcl Hf Hf' Hz Hmax Hle Hlow. split; [by apply (counted_set sm t cl f f')|]. split; [|done].
  pose proof (csize_range sm Hsm cl Hcl). pose proof (excess_set sm t cl f f' Hcl Hf z) as Ee.
  assert (csize sm cl * (Z.max 0 (length_ f' - (cbatch sm cl + 1)) - Z.max 0 (length_ f - (cbatch sm cl + 1))) ≤ 0) as Hneg by nia.
  destruct Hb as [He|[Hset He]]; [left; lia|right]. split; [|lia]. intros k a Hk Ha Hz0. simpl in Ha. unfold class_ok in *.
  destruct (decide (k = cl)) as [->|Hne].
  - rewrite list_lookup_insert_eq in Ha by (by eapply lookup_lt_Some). injection Ha as <-. destruct (Hlow Hz0) as [|Hl0]; [done|].
    pose proof (Hset cl f Hcl Hf Hl0). lia.
  - rewrite list_lookup_insert_ne in Ha by lia. by apply (Hset k a).
Qed.
Lemma wp_Allocate s g P heaps h cl oom (Q : Z → state → Prop) : threads_ok s g P heaps → h ∈ heaps → class_ok sm cl →
  (∀ s' g' P' t', op_empty (objects_of s) cl → threads_ok s' g' P' heaps → serves s g P heaps h t' [] [] 0 s' g' P' → wp ab (oom (csize sm cl)) Q s') →
  (∀ x s' g' P' t', threads_ok s' g' P' heaps → serves s g P heaps h t' [] [x] cl s' g' P' → Q x s') →
  wp ab (Allocate sm h (csize sm cl) cl oom) Q s.
Proof.
  intros Hok Hh Hcl HQ0 HQ1. pose proof (tk_core _ _ _ _ Hok) as Hc. destruct (core_cache _ _ _ _ _ Hc Hh) as [t Ht]. pose proof (tc_inv _ _ _ _ Hc) as Hi.
  pose proof (tk_cache _ _ _ _ Hok h t Ht) as Hfine. pose proof Hfine as (Hct & Hb & Hsa & His). assert (h ∈ set_of heaps) as Hh' by by apply elem_of_list_to_set.
  assert (0 ≤ cl < num_size_classes sm) as Hcl' by (unfold class_ok in Hcl; lia). destruct (ct_list sm t Hct cl Hcl') as (f & Hf & Hfo).
  pose proof Hfo as [O1 O2 O3 O4 O5 O6 O7]. pose proof (csize_range sm Hsm cl Hcl) as Hcs. pose proof (cbatch_range sm Hsm cl Hcl) as Hbt.
  pose proof (bounded_fits sm Hsm t Hct Hb) as Hfit. pose proof (bytes_nonneg sm Hsm t Hct) as Hs0. rewrite <- (ct_size _ _ Hct) in Hs0. pose proof (list_bytes sm Hsm t cl f Hct Hcl Hf) as Hlb.
  change kMaxSize with (2 ^ 18) in Hcs. change kMaxDynamicFreeListLength with 8192 in *. unfold Allocate.
  apply wp_bind, wp_tassert; [apply Z.leb_le; change kMaxSize with (2 ^ 18); lia|]. apply wp_bind, wp_tassert; [apply negb_true_iff, Z.eqb_neq; lia|].
  eapply wp_bind, wp_lift; [by apply ByteSizeForClass_ok|]. apply wp_bind, wp_tassert.
  { apply orb_true_iff. right. rewrite size_t_nonneg by (unfold INT_MAX; lia). apply Z.eqb_refl. }
  eapply wp_bind, (wp_TryPop (set_of heaps) s g P h t cl f); [done..| |].
  - intros Hlen _ Hlist. rewrite to_int_small by (unfold INT_MAX; lia).
    eapply (wp_FetchFromCentralCache Hsm (set_of heaps) s g P h t cl f oom); [done..|change kMaxDynamicFreeListLength with 8192; lia|lia|unfold INT_MAX in *; lia| |].
    + intros s1 P1 Hemp Hgo. pose proof (goes_core s g P heaps h t t [] [] 0 s1 g P1 Hc Hh Ht Hgo eq_refl eq_refl eq_refl) as Hsv.
      eapply HQ0; [done|by eapply serves_ok|exact Hsv].
    + intros x k f1 s1 g1 P1 Hk Hre Hgo. pose proof Hre as [R1 R2 R3 R4 R5]. set (t1 := with_size (set_fl t cl f1) _) in *.
      pose proof (goes_core s g P heaps h t t1 [] [x] cl s1 g1 P1 Hc Hh Ht Hgo eq_refl eq_refl eq_refl) as Hsv.
      assert (csize sm cl * k ≤ 2 ^ 20) as Hkb by (pose proof (cs_moved _ _ _ _ _ (class_sizes_of sm Hsm cl Hcl)); nia).
      pose proof (grown_range (max_length_ f) (cbatch sm cl) O3 Hbt) as Hg.
      eapply HQ1; [eapply serves_ok; [exact Hok|exact Hsv|]|exact Hsv]. apply (fine_set t cl f f1); try done; [|rewrite R1, Hlen; lia|lia|lia|rewrite R1, R2; lia].
      split; rewrite ?R1, ?R2, ?R3, ?R4, ?R5; change kMaxDynamicFreeListLength with 8192; try done; [lia..|unfold class_ok in Hcl; lia|].
      intros _. unfold grown. change kMaxDynamicFreeListLength with 8192. zcase; [lia|]. intros _. set (m := Z.min _ _).
      exists (m / cbatch sm cl). pose proof (Z.div_mod m (cbatch sm cl)). lia.
  - intros x head s1 g1 P1 Hlen Hgo. pose proof (goes_cache _ _ _ _ _ _ _ _ _ _ _ _ Hgo) as Ht1. set (f1 := relink true f head _) in *.
    eapply wp_bind, wp_on_cache; [exact Ht1|]. set (t1 := with_size (set_fl t cl f1) _).
    assert (csize sm cl ≤ csize sm cl * length_ f) as Hone by nia.
    assert (t1 = with_size (set_fl t cl f1) (size_ t - csize sm cl)) as E1 by (unfold t1; simpl; by rewrite size_back by lia).
    pose proof (still_fields _ s1 g1 P1 h _ t1 (go_inv _ _ _ _ _ _ _ _ _ _ _ _ Hgo) Hh' Ht1 eq_refl) as Hgo2.
    pose proof (goes_still_r _ _ _ _ _ _ _ _ _ _ _ _ _ _ _ _ Hgo Hgo2) as Hgo3.
    pose proof (goes_core s g P heaps h t t1 [] [x] cl _ g1 P1 Hc Hh Ht Hgo3 eq_refl eq_refl eq_refl) as Hsv.
    apply wp_ret. eapply HQ1; [eapply serves_ok; [exact Hok|exact Hsv|]|exact Hsv]. rewrite E1.
    assert (less f 1 f1) as Hle by apply less_relink. pose proof Hle as [L1 L2 L3 L4 L5].
    apply (fine_set t cl f f1); try done; [eapply fl_ok_less; [done..|lia|unfold class_ok in Hcl; lia]|rewrite L1; lia|lia|lia|rewrite L1, L2; lia].
Qed.
End spec.
