(* ===== verification/ThreadRegistry.v ===== *)
(** * Thread caches: caches are made and deleted

    [NewHeap] and [DeleteCache] keep the invariant: a new cache has a limit, from what
    is unclaimed, from another cache or on credit, and the objects and the limit of a
    deleted one go back. *)
From stdpp Require Import base numbers list option gmap sets fin_maps fin_map_dom.
From Stdlib Require Import ZArith Lia Floats.SpecFloat.
From S2P Require Import Prelude SizeMap SpanList SystemAlloc MetaData CentralFreeList CentralLists CentralPool.
From S2P Require Import ObjectPool Sampler ThreadCache ThreadLists ThreadMoves ThreadSizes ThreadScavenge ThreadLimits ThreadSpec.
Open Scope Z_scope.

Section caches.
Context {C : Type} `{ObjectPool C} {sm : SizeMap} `{!ObjectPoolLaws C sm}.
Context {W : Type} `{SysAllocLaws W} {T : Type} `{!ObjAllocator T W} `{!ObjAllocatorLaws T W}.
Abbreviation state := (Threads C T W).
Hypothesis Hsm : sizes_ok sm.
Implicit Types (s : state) (g : contents) (P : pool) (D : gset Z) (h cl x : Z) (t : ThreadCache) (f : FreeList) (heaps : list Z).
Abbreviation ab := (op_ab (C := C) (sm := sm)).
Abbreviation set_of heaps := (list_to_set heaps : gset Z).

(** ** [Cleanup] and [DeleteCache] *)
Lemma swept_empty t t' : counted sm t → swept (sm := sm) (emptied (sm := sm)) 0 t t' → excess sm t' ≤ 0.
Proof.
  intros Hct [S1 _ S3]. unfold excess. etransitivity; [apply (lsum_bound _ 0); [done|]|lia]. intros k f' Hf'. unfold excess_of.
  destruct (is_class sm (Z.of_nat k)) eqn:E; [|done]. pose proof (proj1 (is_class_ok sm _) E) as Hk.
  destruct (ct_list sm t Hct (Z.of_nat k)) as (f & Hf & _); [unfold class_ok in Hk; lia|].
  destruct (S3 (Z.of_nat k) f ltac:(unfold class_ok in Hk; lia) Hf) as (f2 & Hf2 & Hem & _). rewrite Nat2Z.id in Hf2. assert (f2 = f') as -> by congruence.
  destruct (Hem ltac:(lia)) as [_ ->]. pose proof (cbatch_range sm Hsm _ Hk). rewrite Z.max_l by lia. lia.
Qed.
Lemma wp_Cleanup_ok s g P heaps h (Q : () → state → Prop) : threads_ok s g P heaps → h ∈ heaps →
  (∀ s' g' P' t', threads_ok s' g' P' heaps → serves s g P heaps h t' [] [] 0 s' g' P' → (∀ cl, g' h cl = []) → Q tt s') →
  wp ab (Cleanup sm h) Q s.
Proof.
  intros Hok Hh HQ. pose proof (tk_core _ _ _ _ Hok) as Hc. destruct (core_cache _ _ _ _ _ Hc Hh) as [t Ht].
  destruct (tk_cache _ _ _ _ Hok h t Ht) as (Hct & Hb & Hsa & His).
  eapply (wp_Cleanup Hsm (set_of heaps) s g P h t); [by eapply tc_inv|by apply elem_of_list_to_set|done..|]. intros t' s' g' P' Hsw Hgo Hem.
  pose proof (sw_same _ _ _ _ Hsw) as Es. assert (next_ t' = next_ t ∧ prev_ t' = prev_ t ∧ max_size_ t' = max_size_ t) as (E1 & E2 & E3) by (rewrite Es; done).
  pose proof (goes_core s g P heaps h t t' [] [] 0 s' g' P' Hc Hh Ht Hgo E1 E2 E3) as Hsv.
  eapply HQ; [eapply serves_ok; [exact Hok|exact Hsv|]|exact Hsv|done]. split; [by eapply sw_counted|].
  split; [left; pose proof (swept_empty t t' Hct Hsw); unfold kMaxLimit; lia|]. rewrite Es. done.
Qed.

Lemma loose_less D D' g x : D' ⊆ D → (∀ h cl, h ∈ D → h ∉ D' → g h cl = []) → loose D' g x ↔ loose D g x.
Proof.
  intros Hsub Hem. split; intros Hl h cl Hh.
  - destruct (decide (h ∈ D')); [by apply Hl|]. rewrite Hem by done. apply not_elem_of_nil.
  - apply Hl. by apply Hsub.
Qed.
(** The caches are other ones; the users are not. *)
Record resets s g P heaps s' g' P' heaps' : Prop := {
  rs_ok : threads_ok s' g' P' heaps';
  rs_user x k : user (set_of heaps') g' P' x k ↔ user (set_of heaps) g P x k;
  rs_words x k : user (set_of heaps) g P x k → held_words s' !! x = held_words s !! x;
  rs_locals : locals s' = locals s ∧ tsd_inited_ s' = tsd_inited_ s ∧ phinited s' = phinited s;
}.
(** The list without [h], as [DeleteCache] leaves it. *)
Lemma wp_unlink h t l1 l2 head s (k : M state unit) (Q : () → state → Prop) : dlist (caches s) 0 head (l1 ++ h :: l2) 0 →
  NoDup (l1 ++ h :: l2) → caches s !! h = Some t →
  (∀ m, m !! h = Some t → dlist m 0 (if head =? h then next_ t else head) (l1 ++ l2) 0 → dom m = dom (caches s) →
     (∀ x u, m !! x = Some u → ∃ u0 n p, caches s !! x = Some u0 ∧ u = with_neighbours u0 n p) → wp ab k Q (with_caches s m)) →
  wp ab (_ ← (if negb (next_ t =? 0) then on_cache (next_ t) (λ n, with_neighbours n (next_ n) (prev_ t)) else mret tt);
         _ ← (if negb (prev_ t =? 0) then on_cache (prev_ t) (λ p, with_neighbours p (next_ t) (prev_ p)) else mret tt); k) Q s.
Proof.
  intros Hd Hnd Ht HQ. destruct (dlist_remove _ _ _ _ _ _ Hd Hnd Ht) as (Hnx & Hpv & Hm2 & Hd2).
  set (m1 := if next_ t =? 0 then _ else _) in *. set (m2 := if prev_ t =? 0 then _ else _) in *. cbv zeta in Hd2.
  assert (dom m1 = dom (caches s) ∧ ∀ x u, m1 !! x = Some u → ∃ u0 n p, caches s !! x = Some u0 ∧ u = with_neighbours u0 n p) as [D1 L1].
  { assert (∀ x u, caches s !! x = Some u → ∃ u0 n p, caches s !! x = Some u0 ∧ u = with_neighbours u0 n p) as Hid.
    { intros x u Hu. exists u, (next_ u), (prev_ u). split; [done|by destruct u]. }
    unfold m1. destruct (next_ t =? 0); [by split|]. destruct (caches s !! next_ t) as [n|] eqn:En; [|by split]. split; [apply dom_insert_lookup_L; by eexists|].
    intros x u. destruct (decide (x = next_ t)) as [->|Hne]; [rewrite lookup_insert_eq; intros [= <-]; by eexists _, _, _|]. rewrite lookup_insert_ne by done. apply Hid. }
  assert (dom m2 = dom (caches s) ∧ ∀ x u, m2 !! x = Some u → ∃ u0 n p, caches s !! x = Some u0 ∧ u = with_neighbours u0 n p) as [D2 L2].
  { unfold m2. destruct (prev_ t =? 0); [by split|]. destruct (m1 !! prev_ t) as [n|] eqn:En; [|by split]. split; [rewrite dom_insert_lookup_L; [done|by eexists]|].
    intros x u. destruct (decide (x = prev_ t)) as [->|Hne]; [|rewrite lookup_insert_ne by done; apply L1].
    rewrite lookup_insert_eq. intros [= <-]. destruct (L1 _ _ En) as (u0 & a & b & Hu0 & ->). by exists u0, (next_ t), b. }
  apply wp_bind, (wp_mono _ _ (λ _ s1, s1 = with_caches s m1)).
  { unfold m1. apply wp_if; intros Hz; [apply negb_true_iff in Hz; rewrite Hz|apply negb_false_iff in Hz; rewrite Hz; apply wp_ret; by destruct s].
    destruct Hnx as [E|[_ [n Hn]]]; [rewrite E in Hz; done|]. rewrite Hn. eapply wp_on_cache; [exact Hn|]. unfold upd. by destruct s. }
  intros [] s1 ->. apply wp_bind, (wp_mono _ _ (λ _ s2, s2 = with_caches s m2)).
  { unfold m2. apply wp_if; intros Hz; [apply negb_true_iff in Hz; rewrite Hz|apply negb_false_iff in Hz; rewrite Hz; by apply wp_ret].
    destruct Hpv as [E|[_ [n Hn]]]; [rewrite E in Hz; done|]. rewrite Hn. eapply wp_on_cache; [exact Hn|]. unfold upd. by destruct s. }
  intros [] s2 ->. by apply HQ.
Qed.

Lemma wsum_limits (φ : Z → Z) (m m' : gmap Z ThreadCache) : (∀ x, max_size_ <$> m !! x = max_size_ <$> m' !! x) →
  wsum (λ _ t, φ (max_size_ t)) m = wsum (λ _ t, φ (max_size_ t)) m'.
Proof.
  intros Hm. assert (∀ m0 : gmap Z ThreadCache, wsum (λ _ t, φ (max_size_ t)) m0 = wsum (λ _ v, φ v) (max_size_ <$> m0)) as Hf.
  { intros m0. induction m0 as [|p u m0 Hp IH] using map_ind; [by rewrite fmap_empty, !wsum_empty|].
    rewrite fmap_insert, !wsum_insert; [by rewrite IH|by rewrite lookup_fmap, Hp|done]. }
  rewrite !Hf. f_equal. apply map_eq. intros x. by rewrite !lookup_fmap.
Qed.
(** The state after [h], which has no objects, is taken off and deleted. *)
Lemma delete_ok s g P l1 h l2 t m r a s' : threads_ok s g P (l1 ++ h :: l2) → caches s !! h = Some t → (∀ cl, g h cl = []) →
  m !! h = Some t → dlist m 0 (thread_heaps_ r) (l1 ++ l2) 0 → dom m = dom (caches s) →
  (∀ x u, m !! x = Some u → ∃ u0 n p, caches s !! x = Some u0 ∧ u = with_neighbours u0 n p) →
  r = mkRegistry (thread_heaps_ r) (thread_heap_count_ (registry s) - 1) (next_memory_steal_ r) (overall_thread_cache_size_ (registry s))
    (per_thread_cache_size_ (registry s)) (ssize (unclaimed_cache_space_ (registry s) + max_size_ t)) →
  next_memory_steal_ r = 0 ∨ next_memory_steal_ r ∈ l1 ++ l2 → oa_rep a (metadata s) (set_of (l1 ++ h :: l2) ∖ {[h]}) →
  s' = mkThreads (delete h m) (<[h := t]> (old_caches s)) r (locals s) (tsd_inited_ s) (phinited s) a (metadata s) (objects_of s) →
  resets s g P (l1 ++ h :: l2) s' g P (l1 ++ l2).
Proof.
  intros [Hc Hfine] Ht Hem Hm Hd Hdom Hlinks Er Hst Ha ->. pose proof Hc as [[I1 I2 I3 I4] K2 [R1 R2 R3 R4] Hb K5 K6 K7 K8 K9].
  pose proof (budget_limit s h t Hb (core_few _ _ _ _ Hc) Ht) as Hlim. pose proof (budget_unclaimed s Hb (core_few _ _ _ _ Hc)) as Hun.
  apply NoDup_app in R2 as (Hn1 & Hdis & [Hh2 Hn2]%NoDup_cons). assert (h ∉ l1 ++ l2) as Hh.
  { rewrite not_elem_of_app. split; [|done]. intros Hx. apply (Hdis h Hx). left. }
  assert (set_of (l1 ++ h :: l2) ∖ {[h]} = set_of (l1 ++ l2)) as Eset.
  { apply set_eq. intros x. rewrite elem_of_difference, !elem_of_list_to_set, elem_of_singleton, !elem_of_app, elem_of_cons. rewrite not_elem_of_app in Hh. naive_solver. }
  assert (∀ x t', x ∈ l1 ++ l2 → caches s !! x = Some t' → ∃ n p, delete h m !! x = Some (with_neighbours t' n p)) as Hsub.
  { intros x t' Hx Ht'. assert (x ≠ h) by (by intros ->). rewrite lookup_delete_ne by done.
    assert (is_Some (m !! x)) as [u Hu] by (apply elem_of_dom; rewrite Hdom; by apply elem_of_dom_2 in Ht'). destruct (Hlinks x u Hu) as (u0 & n & p & Hu0 & ->).
    assert (u0 = t') as -> by congruence. eauto. }
  assert (∀ x u, delete h m !! x = Some u → x ≠ h ∧ ∃ u0 n p, caches s !! x = Some u0 ∧ u = with_neighbours u0 n p) as Hsup.
  { intros x u [Hne Hu]%lookup_delete_Some. split; [done|by apply Hlinks]. }
  assert (∀ φ : Z → Z, wsum (λ _ t, φ (max_size_ t)) (delete h m) = wsum (λ _ t, φ (max_size_ t)) (caches s) - φ (max_size_ t)) as Hsum.
  { intros φ. pose proof (wsum_delete (λ _ t, φ (max_size_ t)) m h t Hm) as Hw. rewrite (wsum_limits φ m (caches s)) in Hw; [lia|]. intros x.
    destruct (m !! x) as [u|] eqn:Eu; [destruct (Hlinks x u Eu) as (u0 & n & p & -> & ->); done|]. symmetry. apply fmap_None, not_elem_of_dom. rewrite <- Hdom. by apply not_elem_of_dom. }
  assert (set_of (l1 ++ l2) ⊆ set_of (l1 ++ h :: l2)) as Hss by (rewrite <- Eset; set_solver).
  assert (∀ x, loose (set_of (l1 ++ l2)) g x ↔ loose (set_of (l1 ++ h :: l2)) g x) as Hlo.
  { intros x. apply loose_less; [done|]. intros h' cl Hh' Hn. assert (h' = h) as ->; [|apply Hem].
    rewrite elem_of_list_to_set, elem_of_app, elem_of_cons in Hh'. rewrite elem_of_list_to_set, elem_of_app in Hn. naive_solver. }
  change kMaxLimit with 1610678272 in *. destruct Hb as [B1 B2 B3 B4]. split; [split; [split|]|by intros; unfold user; rewrite Hlo|done|done]; simpl.
  - split; simpl; [done| |intros h' cl x Hh'; apply I3; set_solver|intros h1 h2 cl x H1' H2'; apply I4; set_solver].
    intros h' Hh'. destruct (I2 h') as (t' & Ht' & Hl); [set_solver|]. apply elem_of_list_to_set in Hh'. destruct (Hsub h' t' Hh' Ht') as (n & p & Hm'). by exists (with_neighbours t' n p).
  - rewrite dom_delete_L, Hdom, K2. done.
  - split; simpl; [|by apply NoDup_app; split_and!; [done| |done]; intros x Hx Hx2; apply (Hdis x Hx); right| |done].
    + eapply dlist_frame; [|exact Hd]. intros x u Hx Hu. exists u. rewrite lookup_delete_ne; [done|]. by intros ->.
    + rewrite Er. simpl. rewrite R3, !zlen_app, zlen_cons. lia.
  - rewrite Er. rewrite (ssize_id (unclaimed_cache_space_ (registry s) + max_size_ t)) by lia. split; simpl; [done| | |].
    + rewrite (Hsum (λ z, z)). lia.
    + rewrite (Hsum (λ z, Z.min z kMinThreadCacheSize)). cbn beta. pose proof (Z.le_min_l (max_size_ t) kMinThreadCacheSize). lia.
    + intros x u Hu. destruct (Hsup x u Hu) as (_ & u0 & n & p & Hu0 & ->). by apply (B4 x u0).
  - rewrite zlen_app, zlen_cons in K5. rewrite zlen_app. lia.
  - done.
  - by rewrite <- Eset.
  - intros x u. destruct (decide (x = h)) as [->|Hne]; [rewrite lookup_insert_eq|rewrite lookup_insert_ne by done; apply K8].
    intros [= <-]. destruct (Hfine h t Ht) as (Hct & _). apply (ct_length _ _ Hct).
  - intros x Hx. apply K9. rewrite elem_of_app, elem_of_cons. rewrite elem_of_app in Hx. tauto.
  - intros x u Hu. destruct (Hsup x u Hu) as (_ & u0 & n & p & Hu0 & ->). destruct (Hfine x u0 Hu0) as (Hct & Hbd & Hr). split; [|done]. destruct Hct. by split.
Qed.
Lemma wp_delete_cache h t a (Q : () → state → Prop) s : obj_delete (threadcache_allocator s) h = Ok a → caches s !! h = Some t →
  Q tt (mkThreads (delete h (caches s)) (<[h := t]> (old_caches s)) (registry s) (locals s) (tsd_inited_ s) (phinited s) a (metadata s) (objects_of s)) →
  wp ab (delete_cache h) Q s.
Proof. intros Ha Ht HQ. unfold wp, delete_cache. rewrite Ha. cbn [mbind outcome_bind]. simpl. by rewrite Ht. Qed.
Lemma wp_DeleteCache s g P heaps h (Q : () → state → Prop) : threads_ok s g P heaps → h ∈ heaps →
  (∀ s' g' P' l1 l2, heaps = l1 ++ h :: l2 → resets s g P heaps s' g' P' (l1 ++ l2) → Q tt s') → wp ab (DeleteCache sm h) Q s.
Proof.
  intros Hok Hh HQ. unfold DeleteCache. eapply wp_bind, (wp_Cleanup_ok s g P heaps h); [done..|]. intros s1 g1 P1 t Hok1 [V1 V2 V3 V4 V5 V6 V7] Hem.
  eapply wp_bind, wp_get_cache; [exact V2|]. destruct (list_elem_of_split _ _ Hh) as (l1 & l2 & ->). pose proof Hok1 as [Hc1 Hf1].
  pose proof (tc_reg _ _ _ _ Hc1) as [R1 R2 R3 R4]. eapply (wp_unlink h t l1 l2 _ s1); [exact R1|done|done|]. intros m Hm Hd Hdom Hlinks.
  apply wp_bind, wp_get_registry. pose proof (tc_few _ _ _ _ Hc1) as Hfew. change kMaxCaches with 1024 in Hfew.
  eapply wp_bind, wp_lift; [apply i32_ok; simpl; rewrite R3; pose proof (zlen_nonneg (l1 ++ h :: l2)); unfold INT_MIN, INT_MAX; lia|].
  do 4 apply wp_bind, wp_on_registry. set (head := if thread_heaps_ (registry s1) =? h then next_ t else thread_heaps_ (registry s1)) in *.
  set (r1 := with_thread_heaps (registry s1) head (thread_heap_count_ (registry s1) - 1)).
  set (r2 := if next_memory_steal_ r1 =? h then with_steal r1 (next_ t) else r1). set (r3 := if next_memory_steal_ r2 =? 0 then with_steal r2 (thread_heaps_ r2) else r2).
  set (r4 := with_unclaimed r3 (ssize (unclaimed_cache_space_ r3 + max_size_ t))).
  match goal with |- wp _ _ _ ?st => replace st with (with_registry (with_caches s1 m) r4) by reflexivity end.
  destruct (oa_delete _ _ _ h (tc_alloc _ _ _ _ Hc1)) as (a & Ea & Ha); [by apply elem_of_list_to_set|].
  eapply wp_delete_cache; [exact Ea|exact Hm|]. simpl.
  assert (thread_heaps_ r4 = head) as Eh by (unfold r4, r3, r2; repeat case_match; done).
  assert (h ∉ l1 ++ l2) as Hnh.
  { apply NoDup_app in R2 as (_ & Hdis & [Hh2 _]%NoDup_cons). rewrite not_elem_of_app. split; [|done]. intros Hx. apply (Hdis h Hx). left. }
  assert (next_ t = 0 ∨ next_ t ∈ l1 ++ l2) as Hnx.
  { apply dlist_app in R1 as (k & _ & -> & _ & u & Hu & _ & Hd2). assert (u = t) as -> by congruence.
    destruct l2 as [|y l2]; [by left|right]. destruct Hd2 as (-> & _). apply elem_of_app. right. left. }
  eapply (HQ _ g1 P1 l1 l2); [done|].
  assert (resets s1 g1 P1 (l1 ++ h :: l2) (mkThreads (delete h m) (<[h := t]> (old_caches s1)) r4 (locals s1) (tsd_inited_ s1) (phinited s1) a (metadata s1) (objects_of s1)) g1 P1 (l1 ++ l2)) as [S1 S2 S3 S4].
  { eapply (delete_ok s1 g1 P1 l1 h l2 t m r4 a); [done..|by rewrite Eh|done|done| | |exact Ha|done].
    - unfold r4, r3, r2. repeat case_match; done.
    - assert (next_memory_steal_ r4 = next_memory_steal_ r3) as -> by done. unfold r3. destruct (next_memory_steal_ r2 =? 0) eqn:E0.
      + simpl. assert (thread_heaps_ r2 = head) as -> by (unfold r2; case_match; done).
        destruct (l1 ++ l2) as [|y l] eqn:El; [left; by destruct Hd|right]. destruct Hd as (-> & _). left.
      + unfold r2 in *. destruct (next_memory_steal_ r1 =? h) eqn:E1; simpl in *; [done|]. apply Z.eqb_neq in E1. destruct R4 as [R4|R4]; [by left|right].
        rewrite elem_of_app, elem_of_cons in R4. rewrite elem_of_app. naive_solver. }
  split; [done| | |].
  - intros x k. rewrite S2, V4. assert (x ∉ []) by apply not_elem_of_nil. tauto.
  - intros x k Hx. assert (x ∉ []) by apply not_elem_of_nil. rewrite (S3 x k); [by apply (V6 x k)|]. apply V4. by left.
  - destruct S4 as (-> & -> & ->). done.
Qed.

(** ** [NewHeap] *)
Lemma budget_mint s h t : budget s → few s → caches s !! h = Some t → max_size_ t = 0 →
  budget (with_registry (with_caches s (<[h := SetMaxSize t kMinThreadCacheSize]> (caches s)))
    (with_unclaimed (registry s) (ssize (unclaimed_cache_space_ (registry s) - kMinThreadCacheSize)))).
Proof.
  intros Hb Hn Ht Hz. pose proof (budget_unclaimed s Hb Hn) as Lu. destruct Hb as [B1 B2 B3 B4].
  change kStealAmount with (2 ^ 16) in *. change kMinThreadCacheSize with (2 ^ 19) in *. rewrite ssize_id by lia.
  pose proof (max_size_set t (2 ^ 19) ltac:(unfold INT_MAX; lia)) as E. split; simpl; change kStealAmount with (2 ^ 16); change kMinThreadCacheSize with (2 ^ 19); [done|..].
  - rewrite (wsum_set _ _ _ _ _ Ht), E. lia.
  - rewrite (wsum_set _ _ _ _ _ Ht), E. lia.
  - intros x u. destruct (decide (x = h)) as [->|Hne]; [|rewrite lookup_insert_ne by done; apply B4].
    rewrite lookup_insert_eq. intros [= <-]. rewrite E. split; [lia|by exists 8].
Qed.
Lemma relimited_set s h t v r : budget s → few s → caches s !! h = Some t →
  r = with_steal (with_unclaimed (registry s) (unclaimed_cache_space_ r)) (next_memory_steal_ r) →
  relimited s (with_registry (with_caches s (<[h := SetMaxSize t v]> (caches s))) r).
Proof.
  intros Hb Hn Ht Er. split; [done|done|simpl; rewrite dom_insert_lookup_L; [done|by eexists]|]. intros x u Hu. simpl.
  destruct (decide (x = h)) as [->|Hne]; [assert (u = t) as -> by congruence; rewrite lookup_insert_eq; by eexists|]. rewrite lookup_insert_ne by done.
  exists (max_size_ u). rewrite Hu. f_equal. pose proof (limits_fit s Hb Hn x u Hu). unfold SetMaxSize. rewrite size_t_nonneg, to_int_small by lia. by destruct u.
Qed.
(** A limit for a cache that has none. *)
Lemma wp_first_limit {A} (k : M state A) s heaps h t (Q : A → state → Prop) : budget s → few s → registered s heaps → caches s !! h = Some t →
  (heaps = [] → 0 < unclaimed_cache_space_ (registry s)) →
  (∀ s', relimited s s' → budget s' → registered s' heaps → wp ab k Q s') →
  wp ab (_ ← IncreaseCacheLimitLocked h;
         t ← get_cache h;
         _ ← (if max_size_ t =? 0 then
                _ ← on_cache h (λ t, SetMaxSize t kMinThreadCacheSize);
                _ ← on_registry (λ r, with_unclaimed r (ssize (unclaimed_cache_space_ r - kMinThreadCacheSize)));
                r ← get_registry;
                TASSERT (unclaimed_cache_space_ r <? 0)
              else mret tt); k) Q s.
Proof.
  intros Hb Hn Hr Ht Hz0 HQ. eapply wp_bind, wp_IncreaseCacheLimitLocked; [done..|]. intros s1 Hl Hb1 Hr1 Hu.
  destruct (rl_cache _ _ Hl h t Ht) as [v Hv]. assert (few s1) as Hn1 by (unfold few; by rewrite (rl_dom _ _ Hl)).
  eapply wp_bind, wp_get_cache; [exact Hv|]. apply wp_bind, wp_if; intros Hz; [apply Z.eqb_eq in Hz|apply wp_ret; by apply HQ].
  eapply wp_bind, wp_on_cache; [exact Hv|]. apply wp_bind, wp_on_registry, wp_bind, wp_get_registry.
  pose proof (budget_mint s1 h _ Hb1 Hn1 Hv Hz) as Hb2. pose proof (budget_unclaimed s1 Hb1 Hn1) as Lu. set (s2 := with_registry (with_caches s1 _) _) in Hb2.
  match goal with |- wp _ _ _ ?st => assert (st = s2) as -> by (unfold s2, upd; by destruct s1) end.
  assert (relimited s1 s2) as Hl2 by (apply relimited_set; [done..|by destruct s1 as [? ? []]]).
  apply wp_tassert; [|apply HQ; [by eapply relimited_trans|done|]].
  - unfold s2. simpl. change kMinThreadCacheSize with (2 ^ 19). rewrite ssize_id by lia. apply Z.ltb_lt. destruct Hu as [|Hu]; [lia|]. specialize (Hu _ Hv). lia.
  - eapply relimited_registered; [done..|apply (rg_steal _ _ Hr1)].
Qed.

(** The lists, all empty. *)
Lemma class_zero : ∃ z, class_to_size sm 0 = Ok z.
Proof.
  pose proof (so_classes _ Hsm). destruct (so_class _ Hsm 1 ltac:(lia)) as (z & p & b & [Hz _ _ _ _ _ _ _ _ _]). apply lookup_lt_Some in Hz.
  destruct (lookup_lt_is_Some_2 (class_to_size_ sm) 0) as [w Hw]; [lia|]. exists w. by apply arr_get_ok.
Qed.
Definition fresh_fl cl f : Prop := fl_ok sm cl f ∧ list_ f = 0 ∧ length_ f = 0.
Lemma FreeList_Init_fresh cl z : 0 ≤ cl < num_size_classes sm → class_to_size sm cl = Ok z → fresh_fl cl (FreeList_Init z).
Proof.
  intros Hcl Hz. split; [|done]. split; try done; intros Hk; [|intros Hlt; pose proof (cbatch_range sm Hsm cl Hk); simpl in Hlt; lia].
  simpl. pose proof (ByteSizeForClass_ok sm Hsm cl Hk) as E. unfold class_to_size, ByteSizeForClass in *.
  rewrite Hz in E. injection E as ->. pose proof (csize_range sm Hsm cl Hk) as Hr. change kMaxSize with 262144 in Hr. rewrite to_int_small; [done|unfold INT_MAX; lia].
Qed.
Lemma wp_init_free_lists h n : ∀ cl s t (Q : () → state → Prop), caches s !! h = Some t → zlen (lists_ t) = kClassSizesMax → 0 ≤ cl →
  cl + Z.of_nat n = num_size_classes sm →
  (∀ l', zlen l' = kClassSizesMax → (∀ j, cl ≤ j < num_size_classes sm → ∃ f, l' !! Z.to_nat j = Some f ∧ fresh_fl j f) →
     (∀ j, 0 ≤ j < cl → l' !! Z.to_nat j = lists_ t !! Z.to_nat j) → Q tt (upd s h (with_fl t l') (objects_of s))) →
  wp ab (init_free_lists sm n h cl) Q s.
Proof.
  pose proof (so_classes _ Hsm) as Hcls. change kClassSizesMax with 96 in *. induction n as [|n IH]; intros cl s t Q Ht Hlen Hcl Hn HQ; cbn [init_free_lists].
  { apply wp_ret. replace s with (upd s h (with_fl t (lists_ t)) (objects_of s)) by (replace (with_fl t (lists_ t)) with t by (by destruct t); by apply upd_id).
    apply HQ; [done|lia|done]. }
  assert (∃ z, class_to_size sm cl = Ok z) as [z Hz].
  { destruct (decide (cl = 0)) as [->|]; [apply class_zero|]. exists (csize sm cl). apply ByteSizeForClass_ok; [done|unfold class_ok; lia]. }
  eapply wp_bind, wp_lift; [exact Hz|]. destruct (lookup_lt_is_Some_2 (lists_ t) (Z.to_nat cl)) as [f0 Hf0]; [unfold zlen in Hlen; lia|].
  eapply wp_bind, wp_put_fl; [exact Ht|lia|exact Hf0|]. eapply (IH (cl + 1)); [apply upd_caches|simpl; by rewrite zlen_insert|lia|lia|].
  intros l' Hl' Hj Hk. rewrite upd_upd. apply HQ; [done| |].
  - intros j Hj'. destruct (decide (j = cl)) as [->|]; [|apply Hj; lia]. exists (FreeList_Init z). split; [|apply FreeList_Init_fresh; [lia|done]].
    rewrite Hk by lia. simpl. by eapply list_lookup_insert_eq, lookup_lt_Some.
  - intros j Hj'. rewrite Hk by lia. simpl. by rewrite list_lookup_insert_ne by lia.
Qed.
Lemma fresh_counted t : zlen (lists_ t) = kClassSizesMax → size_ t = 0 →
  (∀ j, 0 ≤ j < num_size_classes sm → ∃ f, lists_ t !! Z.to_nat j = Some f ∧ fresh_fl j f) → counted sm t ∧ excess sm t ≤ 0.
Proof.
  intros Hlen Hs Hl. assert (∀ k f, lists_ t !! k = Some f → is_class sm (Z.of_nat k) = true → length_ f = 0) as Hl0.
  { intros k f Hf E%is_class_ok. unfold class_ok in E. destruct (Hl (Z.of_nat k) ltac:(lia)) as (f' & Hf' & _ & _ & Hz). rewrite Nat2Z.id in Hf'. congruence. }
  assert (∀ k f, lists_ t !! k = Some f → bytes_of sm k f = 0) as Hb.
  { intros k f Hf. unfold bytes_of. destruct (is_class sm (Z.of_nat k)) eqn:E; [|done]. rewrite (Hl0 k f Hf E). lia. }
  split; [split; [done| | |rewrite Hs; done]|].
  - intros cl Hcl. destruct (Hl cl Hcl) as (f & Hf & Hok & _). by exists f.
  - rewrite Hs. apply Z.le_antisymm.
    + apply lsum_nonneg. intros k f Hf. by rewrite Hb.
    + etransitivity; [apply (lsum_bound _ 0); [done|]|lia]. intros k f Hf. by rewrite Hb.
  - etransitivity; [apply (lsum_bound _ 0); [done|]|lia]. intros k f Hf. unfold excess_of. destruct (is_class sm (Z.of_nat k)) eqn:E; [|done].
    rewrite (Hl0 k f Hf E). pose proof (cbatch_range sm Hsm _ (proj1 (is_class_ok sm _) E)). rewrite Z.max_l by lia. lia.
Qed.

Section making.
Variables log2 log : spec_float → spec_float.
Variable sample_parameter : Z.
Hypothesis Hgaps : gaps_ok log2 log sample_parameter.
(** The limit of the cache is that of [u]. *)
Definition made t u : Prop := cache_fine (sm := sm) t ∧ max_size_ t = max_size_ u ∧
  ∀ j, 0 ≤ j < num_size_classes sm → ∃ f, lists_ t !! Z.to_nat j = Some f ∧ fresh_fl j f.
Lemma wp_Init s heaps h t tid (Q : () → state → Prop) : let s2 := upd s h (SetMaxSize (with_size t 0) 0) (objects_of s) in
  caches s !! h = Some t → zlen (lists_ t) = kClassSizesMax → budget s2 → few s2 → registered s2 heaps →
  (heaps = [] → 0 < unclaimed_cache_space_ (registry s)) → u32 tid ≠ 0 →
  (∀ s4 u t5, relimited s2 s4 → budget s4 → registered s4 heaps → caches s4 !! h = Some u → made t5 u → Q tt (upd s4 h t5 (objects_of s4))) →
  wp ab (Init sm log2 log sample_parameter h tid) Q s.
Proof.
  intros s2 Ht Hlen Hb Hn Hr Hz0 Htid HQ. unfold Init. eapply wp_bind, wp_on_cache; [exact Ht|]. fold s2.
  eapply (wp_first_limit _ s2 heaps h); [done..|apply upd_caches|done|]. intros s4 Hl Hb4 Hr4.
  destruct (rl_cache _ _ Hl h _ (upd_caches _ _ _ _)) as [v Hv]. set (u := SetMaxSize _ v) in Hv.
  eapply wp_bind, wp_on_cache; [exact Hv|]. set (u1 := with_owner _ _ _).
  eapply wp_bind, (wp_init_free_lists h _ 0 _ u1); [apply upd_caches|done|done|pose proof (so_classes _ Hsm); lia|].
  intros l' Hl' Hfl _. rewrite upd_upd. set (u2 := with_fl u1 l'). destruct (Sampler_Init_ok log2 log sample_parameter (u32 tid) (sampler_ u2) Hgaps Htid) as (sa & Esa & Hsa).
  unfold on_sampler. eapply wp_bind, wp_get_cache; [apply upd_caches|]. eapply wp_bind, wp_lift; [exact Esa|]. cbv iota beta.
  eapply wp_bind, wp_put_cache; [apply upd_caches|]. apply wp_ret. simpl objects_of. rewrite upd_upd. eapply HQ; [done..|exact Hv|].
  destruct (fresh_counted (with_sampler u2 sa) Hl' eq_refl) as [Hct Hex]; [intros j Hj; apply Hfl; lia|].
  split; [|split; [done|intros j Hj; apply Hfl; lia]]. split; [done|]. split; [left; unfold kMaxLimit; lia|done].
Qed.

(** All is in place around the new cache. *)
Definition with_none g h : contents := λ h' cl, if decide (h' = h) then [] else g h' cl.
Lemma new_cache_ok s g P heaps h a w s4 u t5 m r s' : threads_ok s g P heaps → zlen heaps < kMaxCaches → h ∉ heaps → 0 < h → sa_wf w → oa_rep a w ({[h]} ∪ set_of heaps) →
  (∀ x t, x ≠ h → caches s !! x = Some t → ∃ v, caches s4 !! x = Some (SetMaxSize t v)) → dom (caches s4) = {[h]} ∪ set_of heaps →
  budget s4 → registered s4 heaps → caches s4 !! h = Some u → made t5 u →
  (∀ x t, x ≠ h → caches s4 !! x = Some t → ∃ n p, m !! x = Some (with_neighbours t n p)) → m !! h = Some (with_neighbours t5 (thread_heaps_ (registry s4)) 0) →
  dom m = dom (caches s4) → dlist m h (thread_heaps_ (registry s4)) heaps 0 →
  r = mkRegistry h (thread_heap_count_ (registry s4) + 1) (next_memory_steal_ r) (overall_thread_cache_size_ (registry s4)) (per_thread_cache_size_ (registry s4)) (unclaimed_cache_space_ (registry s4)) →
  next_memory_steal_ r = 0 ∨ next_memory_steal_ r ∈ h :: heaps →
  s' = mkThreads m (old_caches s) r (locals s) (tsd_inited_ s) (phinited s) a w (objects_of s) →
  resets s g P heaps s' (with_none g h) P (h :: heaps).
Proof.
  intros [Hc Hfine] Hfew Hh Hh0 Hw Ha Hs4 Hd4 Hb4 Hr4 Hu (Hf5 & Em5 & Hl5) Hm Hmh Hdm Hdl Er Hst ->. pose proof Hc as [[I1 I2 I3 I4] K2 [R1 R2 R3 R4] Hb K5 K6 K7 K8 K9].
  assert (set_of (h :: heaps) = {[h]} ∪ set_of heaps) as Eset by done.
  assert (∀ x cl, x ∈ set_of heaps → with_none g h x cl = g x cl) as Eg.
  { intros x cl Hx. unfold with_none. rewrite decide_False; [done|]. intros ->. by apply elem_of_list_to_set in Hx. }
  assert (∀ cl, with_none g h h cl = []) as Egh by (intros cl; unfold with_none; by rewrite decide_True).
  assert (∀ x t, x ≠ h → caches s !! x = Some t → ∃ v n p, m !! x = Some (with_neighbours (SetMaxSize t v) n p)) as Hsub.
  { intros x t Hx Ht. destruct (Hs4 x t Hx Ht) as [v Hv]. destruct (Hm x _ Hx Hv) as (n & p & E). eauto. }
  assert (∀ x, max_size_ <$> m !! x = max_size_ <$> caches s4 !! x) as Hmax.
  { intros x. destruct (decide (x = h)) as [->|Hne]; [rewrite Hmh, Hu; simpl; by rewrite Em5|]. destruct (caches s4 !! x) as [t|] eqn:Et.
    - by destruct (Hm x t Hne Et) as (n & p & ->).
    - apply fmap_None, not_elem_of_dom. rewrite Hdm. by apply not_elem_of_dom. }
  assert (∀ x t, m !! x = Some t → x = h ∧ t = with_neighbours t5 (thread_heaps_ (registry s4)) 0 ∨ x ≠ h ∧ ∃ t0 v n p, caches s !! x = Some t0 ∧ t = with_neighbours (SetMaxSize t0 v) n p) as Hsup.
  { intros x t Ht. destruct (decide (x = h)) as [->|Hne]; [left; split; [done|congruence]|right]. split; [done|].
    assert (x ∈ set_of heaps) as Hx by (apply elem_of_dom_2 in Ht; rewrite Hdm, Hd4 in Ht; set_solver). rewrite <- K2 in Hx. apply elem_of_dom in Hx as [t0 Ht0].
    destruct (Hsub x t0 Hne Ht0) as (v & n & p & E). exists t0, v, n, p. split; [done|congruence]. }
  assert (∀ x, loose (set_of (h :: heaps)) (with_none g h) x ↔ loose (set_of heaps) g x) as Hlo.
  { intros x. rewrite Eset. split; intros Hl h' cl Hh'.
    - rewrite <- Eg by done. apply Hl. set_solver.
    - apply elem_of_union in Hh' as [->%elem_of_singleton|Hh']; [rewrite Egh; apply not_elem_of_nil|]. rewrite Eg by done. by apply Hl. }
  destruct Hr4 as [Q1 Q2 Q3 Q4]. split; [split; [split|]|by intros; unfold user; rewrite Hlo|done|done]; simpl.
  - split; simpl; [done| | |].
    + intros x Hx. rewrite ?Eset, elem_of_union in Hx. destruct Hx as [->%elem_of_singleton|Hx].
      * exists (with_neighbours t5 (thread_heaps_ (registry s4)) 0). split; [done|]. destruct Hf5 as (Hct & _). split; [apply (ct_length _ _ Hct)|].
        intros cl Hcl. destruct (Hl5 cl Hcl) as (f & Hf & _ & E1 & E2). exists f. split; [done|]. rewrite Egh. split; [split; [done|constructor]|done|done].
      * destruct (I2 x Hx) as (t' & Ht' & Hl). destruct (Hsub x t') as (v & n & p & E); [intros ->; by apply elem_of_list_to_set in Hx|done|].
        eexists. split; [exact E|]. destruct Hl as [L1 L2]. split; [done|]. intros cl Hcl. rewrite Eg by done. apply (L2 cl Hcl).
    + intros x cl y Hx Hy. rewrite ?Eset, elem_of_union in Hx. destruct Hx as [->%elem_of_singleton|Hx]; [rewrite Egh in Hy; by apply not_elem_of_nil in Hy|]. rewrite Eg in Hy by done. by eapply I3.
    + intros x y cl z Hx Hy Hzx Hzy. rewrite ?Eset, elem_of_union in Hx, Hy.
      destruct Hx as [->%elem_of_singleton|Hx]; [rewrite Egh in Hzx; by apply not_elem_of_nil in Hzx|]. destruct Hy as [->%elem_of_singleton|Hy]; [rewrite Egh in Hzy; by apply not_elem_of_nil in Hzy|].
      rewrite Eg in Hzx, Hzy by done. by eapply I4.
  - rewrite Hdm, Hd4. done.
  - split; simpl; [|by constructor| |done].
    + rewrite Er. simpl. split; [done|]. split; [lia|]. by exists (with_neighbours t5 (thread_heaps_ (registry s4)) 0).
    + rewrite Er. simpl. rewrite Q3, zlen_cons. lia.
  - destruct Hb4 as [B1 B2 B3 B4]. rewrite Er. split; simpl; [done| | |].
    + rewrite (wsum_limits (λ z, z) m (caches s4)) by done. done.
    + rewrite (wsum_limits (λ z, Z.min z kMinThreadCacheSize) m (caches s4)) by done. done.
    + intros x t Ht. pose proof (Hmax x) as E. rewrite Ht in E. simpl in E. destruct (caches s4 !! x) as [t0|] eqn:E0; [|done]. injection E as ->. by apply (B4 x t0).
  - rewrite zlen_cons. lia.
  - done.
  - done.
  - done.
  - intros x [->|Hx]%elem_of_cons; [done|by apply K9].
  - intros x t Ht. destruct (Hsup x t Ht) as [[-> ->]|(Hne & t0 & v & n & p & Ht0 & ->)].
    + destruct Hf5 as (Hct & Hbd & Hr). split; [destruct Hct; by split|done].
    + destruct (Hfine x t0 Ht0) as (Hct & Hbd & Hr). split; [destruct Hct; by split|done].
Qed.
Lemma wp_new_cache {A} (k : Z → M state A) s g P heaps (Q : A → state → Prop) : threads_ok s g P heaps →
  (∀ h t0 a w, h ∉ heaps → 0 < h → sa_wf w → oa_rep a w ({[h]} ∪ set_of heaps) → zlen (lists_ t0) = kClassSizesMax →
     wp ab (k h) Q (with_caches (with_allocator s a w) (<[h := t0]> (caches s)))) →
  wp ab (h ← new_cache; k h) Q s.
Proof.
  intros [Hc _] HQ. pose proof (tc_few _ _ _ _ Hc) as Hfew. change kMaxCaches with 1024 in Hfew. apply wp_bind. unfold wp at 1, new_cache.
  destruct (oa_new (threadcache_allocator s) (metadata s) (set_of heaps) (tc_meta _ _ _ _ Hc) (tc_alloc _ _ _ _ Hc)) as [->|(h & a & w & -> & Hw & _ & Hh0 & Hh & Ha)]; [|done|].
  { rewrite size_list_to_set by apply (rg_nodup _ _ (tc_reg _ _ _ _ Hc)). unfold zlen in Hfew. unfold INT_MAX. lia. }
  cbn [mbind outcome_bind]. apply HQ; [by rewrite elem_of_list_to_set in Hh|done..|]. simpl. destruct (old_caches s !! h) as [t0|] eqn:E; [by eapply tc_old|done].
Qed.
Lemma wp_NewHeap s g P heaps tid (Q : Z → state → Prop) : threads_ok s g P heaps → zlen heaps < kMaxCaches → u32 tid ≠ 0 →
  (∀ h s' g', h ∉ heaps → 0 < h → resets s g P heaps s' g' P (h :: heaps) → objects_of s' = objects_of s → Q h s') → wp ab (NewHeap sm log2 log sample_parameter tid) Q s.
Proof.
  intros Hok Hfew Htid HQ. unfold NewHeap. eapply wp_new_cache; [done|]. intros h t0 a w Hh Hh0 Hw Ha Hlen0. pose proof Hok as [Hc Hfine].
  set (s1 := with_caches _ _). pose proof Hc as [K1 K2 [R1 R2 R3 R4] [B1 B2 B3 B4] K5 K6 K7 K8 K9]. set (t1 := SetMaxSize (with_size t0 0) 0). set (s2 := upd s1 h t1 (objects_of s1)).
  assert (caches s !! h = None) as Hhn by (apply not_elem_of_dom; rewrite K2; by rewrite elem_of_list_to_set).
  assert (caches s2 = <[h := t1]> (caches s)) as Ec2 by (simpl; by rewrite insert_insert_eq).
  assert (budget s2) as Hb2.
  { split; rewrite ?Ec2; simpl; [done|..].
    - rewrite wsum_insert by done. simpl. rewrite B2. change (to_int (size_t 0)) with 0. lia.
    - rewrite wsum_insert by done. simpl. change (to_int (size_t 0)) with 0. change (Z.min 0 kMinThreadCacheSize) with 0. lia.
    - intros x u. destruct (decide (x = h)) as [->|Hne]; [rewrite lookup_insert_eq; intros [= <-]; split; [done|by exists 0]|].
      rewrite lookup_insert_ne by done. apply B4. }
  assert (few s2) as Hn2.
  { unfold few. rewrite Ec2, dom_insert_L, K2, size_union, size_singleton, size_list_to_set by (done || (rewrite disjoint_singleton_l; by rewrite elem_of_list_to_set)). unfold zlen in Hfew. lia. }
  assert (registered s2 heaps) as Hr2.
  { split; [|done..]. rewrite Ec2. by apply dlist_insert. }
  eapply wp_bind, (wp_Init s1 heaps h t0 tid); [apply lookup_insert_eq|done|exact Hb2|exact Hn2|exact Hr2| |done|].
  { intros ->. simpl. assert (caches s = ∅) as E by (apply dom_empty_inv_L; by rewrite K2). rewrite B2, E, wsum_empty. change kMinThreadCacheSize with (2 ^ 19) in B1. lia. }
  intros s4 u t5 Hl Hb4 Hr4 Hu Hmade. change (relimited s2 s4) in Hl. pose proof Hr4 as [Q1 Q2 Q3 Q4]. set (th := thread_heaps_ (registry s4)) in *.
  assert (∀ x t, x ≠ h → caches s !! x = Some t → ∃ v, caches s4 !! x = Some (SetMaxSize t v)) as Hs4.
  { intros x t Hne Hx. apply (rl_cache _ _ Hl). rewrite Ec2. by rewrite lookup_insert_ne. }
  assert (dom (caches s4) = {[h]} ∪ set_of heaps) as Hd4 by (rewrite (rl_dom _ _ Hl), Ec2, dom_insert_L, K2; done).
  assert (∀ m r, mkThreads m (old_caches s) r (locals s) (tsd_inited_ s) (phinited s) a w (objects_of s) =
    with_registry (with_caches s4 m) r) as Es by (intros m r; rewrite (rl_state _ _ Hl); done).
  apply wp_bind, wp_get_registry. eapply wp_bind, wp_on_cache; [apply upd_caches|]. simpl objects_of. rewrite upd_upd. simpl registry. fold th.
  set (t6 := with_neighbours t5 th 0). apply wp_bind.
  apply (wp_mono _ _ (λ _ s7, ∃ m r, s7 = with_registry (with_caches s4 m) r ∧ r = with_steal (registry s4) (next_memory_steal_ r) ∧
    (next_memory_steal_ r = 0 ∨ next_memory_steal_ r ∈ h :: heaps) ∧ m !! h = Some t6 ∧ dom m = dom (caches s4) ∧ dlist m h th heaps 0 ∧
    ∀ x t, x ≠ h → caches s4 !! x = Some t → ∃ n p, m !! x = Some (with_neighbours t n p))).
  { assert (dom (<[h := t6]> (caches s4)) = dom (caches s4)) as Hdm by (apply dom_insert_lookup_L; by eexists).
    apply wp_if; intros Hz; [apply negb_true_iff, Z.eqb_neq in Hz|apply negb_false_iff, Z.eqb_eq in Hz].
    - destruct heaps as [|y heaps']; [by destruct Hz|]. pose proof Q1 as (Ey & Hy0 & ty & Hty & _). fold th in Ey. assert (y ≠ h) as Hyh by (intros ->; apply Hh; left).
      eapply wp_on_cache; [simpl; rewrite Ey, lookup_insert_ne by done; exact Hty|]. eexists (<[th := with_neighbours ty (next_ ty) h]> (<[h := t6]> (caches s4))), (registry s4).
      split; [unfold upd; by destruct s4|]. split; [by destruct s4 as [? ? []]|]. split; [destruct Q4; [by left|right; by right]|].
      split; [rewrite lookup_insert_ne by (by rewrite Ey); apply lookup_insert_eq|]. split; [rewrite dom_insert_lookup_L; [done|]; rewrite Ey, lookup_insert_ne by done; by eexists|].
      split; [eapply dlist_set_prev; [done|by apply dlist_insert|done|rewrite Ey, lookup_insert_ne by done; exact Hty]|].
      intros x t Hx Ht. destruct (decide (x = th)) as [->|Hne].
      + rewrite lookup_insert_eq. exists (next_ ty), h. do 2 f_equal. congruence.
      + rewrite !lookup_insert_ne by done. exists (next_ t), (prev_ t). rewrite Ht. by destruct t.
    - assert (heaps = []) as -> by by apply (dlist_head _ _ _ _ Q1). destruct Q4 as [Q4|Q4]; [|by apply not_elem_of_nil in Q4].
      apply wp_bind, wp_tassert; [by apply Z.eqb_eq|]. apply wp_on_registry. eexists (<[h := t6]> (caches s4)), (with_steal (registry s4) h).
      split; [unfold upd; by destruct s4|]. split; [done|]. split; [right; left|]. split; [apply lookup_insert_eq|]. split; [done|]. split; [done|].
      intros x t Hx Ht. exists (next_ t), (prev_ t). rewrite lookup_insert_ne by done. rewrite Ht. by destruct t. }
  intros [] s7 (m & r & -> & Er & Hst & Hmh & Hdm & Hdl & Hm).
  eapply wp_bind, wp_lift; [apply i32_ok; rewrite Q3; change kMaxCaches with 1024 in Hfew; pose proof (zlen_nonneg heaps); unfold INT_MIN, INT_MAX; lia|].
  apply wp_bind, wp_on_registry, wp_ret. eapply HQ; [done|done| |by rewrite (rl_state _ _ Hl)].
  apply (new_cache_ok s g P heaps h a w s4 u t5 m (with_thread_heaps r h (thread_heap_count_ (registry s4) + 1))); try done.
  by rewrite Er.
Qed.
End making.
End caches.
