(* ===== verification/ThreadClient.v ===== *)
(** * Thread caches: what they promise to the threads

    To the program the thread caches are a pool of users: any thread takes objects of a
    class from the cache it has, or makes, gives objects back, whoever took them, and
    gives its cache up.  The caches, their limits and the central lists below them do
    what the pool says, from the first allocation of the program on. *)
From stdpp Require Import base numbers list option gmap sets fin_maps fin_map_dom.
From Stdlib Require Import ZArith Lia Floats.SpecFloat.
From S2P Require Import Prelude Doubles SizeMap SpanList SystemAlloc MetaData CentralFreeList CentralLists CentralPool.
From S2P Require Import ObjectPool Sampler ThreadCache ThreadLists ThreadMoves ThreadSizes ThreadScavenge ThreadLimits.
From S2P Require Import ThreadSpec ThreadRegistry.
Open Scope Z_scope.

(** What threads do; the first argument is [pthread_self()].  [TExit]: the C library
    calls the destructor of the key; [TWrite]: a store to the first word of an object. *)
Inductive thread_op :=
  | TAllocate (me cl : Z)
  | TFree (me x cl : Z)
  | TSample (me k : Z)
  | TIdle (me : Z)
  | TFlush (me : Z)
  | TExit (me : Z)
  | TInitTSD
  | TWrite (x v : Z).

Section client.
Context {C : Type} `{ObjectPool C} {sm : SizeMap} `{!ObjectPoolLaws C sm}.
Context {W : Type} `{SysAllocLaws W} {T : Type} `{!ObjAllocator T W} `{!ObjAllocatorLaws T W}.
Abbreviation state := (Threads C T W).
Variables log2 log : spec_float → spec_float.
Variable sample_parameter : Z.
Variable tcb : option Z.
Variable InitStaticVars : M C unit.
Variable allocator_Init : W → outcome (T * W).
Variable fuel : nat.
Implicit Types (s : state) (U P : pool) (me h cl x : Z) (o : thread_op) (heaps : list Z) (g : contents).

Definition cache_for me : M state Z := GetCache sm log2 log sample_parameter tcb InitStaticVars allocator_Init fuel me.
(** The end of [do_free_with_callback], where the class of the object is known. *)
Definition free_object (invalid_free_fn : Z → M state unit) me ptr cl : M state unit :=
  heap ← GetCacheIfPresent me;
  inited ← gets phinited;
  if negb (heap =? 0) then
    _ ← TASSERT inited;
    Deallocate sm heap ptr cl
  else if negb inited then
    if negb (ptr =? 0) then invalid_free_fn ptr else mret tt
  else
    _ ← (λ s, m ← SLL_SetNext (op_words (objects_of s)) ptr 0; Ok (tt, with_objects s (op_set_words m (objects_of s))));
    on_pool (op_insert cl ptr ptr 1).
Definition run_thread o : M state Z :=
  match o with
  | TAllocate me cl => heap ← cache_for me; Allocate sm heap (csize sm cl) cl (λ _, mret 0)
  | TFree me x cl => _ ← free_object (λ _, lift (Throws Aborted)) me x cl; mret 0
  | TSample me k => heap ← cache_for me; b ← SampleAllocation log2 log sample_parameter heap k; mret (Z.b2z b)
  | TIdle me => _ ← BecomeIdle sm me; mret 0
  | TFlush me => _ ← BecomeTemporarilyIdle sm me; mret 0
  | TExit me => l ← local me; _ ← setspecific me 0; _ ← DestroyThreadCache sm me (specific l); mret 0
  | TInitTSD => _ ← InitTSD; mret 0
  | TWrite x v => λ s, m ← SLL_SetNext (op_words (objects_of s)) x v; Ok (0, with_objects s (op_set_words m (objects_of s)))
  end.

(** The cache of a thread, 0 for none. *)
Definition local_of s me : ThreadLocal := default Local_zero (locals s !! me).
Definition owned s me : Z := heap (local_of s me).
(** A cache can be made; the seed of its sampler is not 0. *)
Definition room s me : Prop := u32 me ≠ 0 ∧ (owned s me = 0 → Z.of_nat (size (dom (caches s))) < kMaxCaches).
(** [U] are the objects of the users, with their classes. *)
Definition thread_op_ok s U o : Prop :=
  match o with
  | TAllocate me cl => class_ok sm cl ∧ room s me
  | TFree me x cl => U !! x = Some cl
  | TSample me k => 0 ≤ k ∧ room s me
  | TInitTSD => phinited s = true ∧ tsd_inited_ s = false
  | TWrite x v => is_Some (U !! x)
  | _ => True
  end.
Definition users_after o (r : Z) U : pool :=
  match o with
  | TAllocate me cl => if r =? 0 then U else <[r := cl]> U
  | TFree me x cl => delete x U
  | _ => U
  end.
(** What an operation with the result [r] leaves to the users. *)
Definition users_served s U o (r : Z) s' : Prop :=
  match o with
  | TWrite x v => held_words s' = <[x := v]> (held_words s)
  | _ => ∀ x, is_Some (U !! x) → is_Some (users_after o r U !! x) → held_words s' !! x = held_words s !! x
  end ∧
  match o with
  | TAllocate me cl => if r =? 0 then phinited s = true → op_empty (objects_of s) cl else U !! r = None
  | TIdle me | TExit me => owned s' me = 0 ∧ dom (caches s') = dom (caches s) ∖ {[owned s me]}
  | _ => True
  end.

(** ** The states *)
(** Before the first allocation; [fresh] are the states of the pool from which
    [InitStaticVars] starts. *)
Variable fresh : C → Prop.
Record unstarted s : Prop := {
  us_ph : phinited s = false;
  us_tsd : tsd_inited_ s = false;
  us_caches : caches s = ∅;
  us_old : old_caches s = ∅;
  us_registry : registry s = Registry_static;
  us_local me : local_of s me = Local_zero;
  us_meta : sa_wf (metadata s);
  us_fresh : fresh (objects_of s);
}.
Inductive threads_reachable : state → pool → Prop :=
  | threads_start a w c : sa_wf w → fresh c → threads_reachable (Threads_static a w c) ∅
  | threads_next s U o r s' : threads_reachable s U → thread_op_ok s U o → run_thread o s = Ok (r, s') →
      threads_reachable s' (users_after o r U).

Abbreviation set_of heaps := (list_to_set heaps : gset Z).
Record locals_ok s heaps : Prop := {
  lo_shape me : local_of s me = mkLocal (owned s me) (owned s me) false (owned s me) None;
  lo_in me : owned s me = 0 ∨ owned s me ∈ heaps;
  lo_one me me' : owned s me = owned s me' → owned s me ≠ 0 → me = me';
  lo_tsd me : tsd_inited_ s = false → owned s me = 0;
}.
Record started s g P heaps : Prop := {
  st_ok : threads_ok s g P heaps;
  st_locals : locals_ok s heaps;
  st_ph : phinited s = true;
}.
Definition threads_rep s U : Prop :=
  (unstarted s ∧ U = ∅) ∨
  ∃ g P heaps, started s g P heaps ∧ ∀ x cl, U !! x = Some cl ↔ user (set_of heaps) g P x cl.

(** ** Frame lemmas *)
Lemma core_frame s s' g P heaps : caches s' = caches s → old_caches s' = old_caches s → registry s' = registry s →
  objects_of s' = objects_of s → threadcache_allocator s' = threadcache_allocator s → metadata s' = metadata s →
  threads_core s g P heaps → threads_core s' g P heaps.
Proof.
  intros E1 E2 E3 E4 E5 E6 [[I1 I2 I3 I4] K2 [R1 R2 R3 R4] [B1 B2 B3 B4] K5 K6 K7 K8 K9]. unfold held_words in *.
  split; [split|..]; unfold held_words; rewrite ?E1, ?E2, ?E3, ?E4, ?E5, ?E6; try done; split; by rewrite ?E1, ?E3.
Qed.
Lemma ok_frame s s' g P heaps : caches s' = caches s → old_caches s' = old_caches s → registry s' = registry s →
  objects_of s' = objects_of s → threadcache_allocator s' = threadcache_allocator s → metadata s' = metadata s →
  threads_ok s g P heaps → threads_ok s' g P heaps.
Proof.
  intros E1 E2 E3 E4 E5 E6 [Hc Hf]. split; [by eapply core_frame|]. by rewrite E1.
Qed.
Definition set_local s me l : state := with_locals s (<[me := l]> (locals s)).
Lemma ok_set_local s g P heaps me l : threads_ok s g P heaps → threads_ok (set_local s me l) g P heaps.
Proof. by apply ok_frame. Qed.
Lemma local_set s me l me' : local_of (set_local s me l) me' = if decide (me' = me) then l else local_of s me'.
Proof.
  unfold local_of, set_local. simpl. case_decide as E; [subst; by rewrite lookup_insert_eq|by rewrite lookup_insert_ne].
Qed.
Lemma set_local_twice s me l l' : set_local (set_local s me l) me l' = set_local s me l'.
Proof. unfold set_local, with_locals. simpl. by rewrite insert_insert_eq. Qed.
Lemma wp_on_local ab me f (Q : () → state → Prop) s : Q tt (set_local s me (f (local_of s me))) → wp ab (on_local me f) Q s.
Proof. done. Qed.
Lemma wp_local ab me (Q : ThreadLocal → state → Prop) s : Q (local_of s me) s → wp ab (local me) Q s.
Proof. done. Qed.
(** A thread gets a cache that nobody has, or none. *)
Lemma locals_set s heaps me h : locals_ok s heaps → h = 0 ∨ (tsd_inited_ s = true ∧ h ∈ heaps ∧ ∀ me', owned s me' ≠ h) →
  locals_ok (set_local s me (mkLocal h h false h None)) heaps.
Proof.
  intros [L1 L2 L3 L4] Hh. assert (∀ me', owned (set_local s me (mkLocal h h false h None)) me' = if decide (me' = me) then h else owned s me') as Eo.
  { intros me'. unfold owned. rewrite local_set. by case_decide. }
  split.
  - intros me'. rewrite Eo, local_set. by case_decide.
  - intros me'. rewrite Eo. case_decide; [tauto|apply L2].
  - intros m1 m2. rewrite !Eo. destruct (decide (m1 = me)) as [->|N1], (decide (m2 = me)) as [->|N2]; [done|..|apply L3]; intros E Hn;
      destruct Hh as [|(_ & _ & Hh)]; congruence.
  - intros me'. rewrite Eo. change (tsd_inited_ (set_local s me _)) with (tsd_inited_ s). case_decide; [|apply L4]. intros E. destruct Hh as [|(E' & _)]; [done|congruence].
Qed.

(** ** The module is set up *)
Hypothesis Hsm : sizes_ok sm.
Hypothesis Hgaps : gaps_ok log2 log sample_parameter.
Hypothesis Hfuel : kMaxCaches < Z.of_nat fuel.
Hypothesis Hpool : ∀ c, fresh c → wp (op_ab (C := C) (sm := sm)) InitStaticVars (λ _ c', op_rep c' ∅) c.
Hypothesis Halloc : ∀ w, sa_wf w → allocator_Init w = Throws OutOfMemory ∨
  ∃ a w', allocator_Init w = Ok (a, w') ∧ sa_wf w' ∧ oa_rep a w' ∅.
Abbreviation ab := (op_ab (C := C) (sm := sm)).

Definition no_caches_yet (r : Registry) : Prop :=
  thread_heaps_ r = 0 ∧ thread_heap_count_ r = 0 ∧ next_memory_steal_ r = 0 ∧
  kMinThreadCacheSize ≤ overall_thread_cache_size_ r ≤ 2 ^ 30 ∧ unclaimed_cache_space_ r = overall_thread_cache_size_ r.
Lemma wp_set_overall n s (Q : () → state → Prop) : no_caches_yet (registry s) →
  (∀ r, no_caches_yet r → Q tt (with_registry s r)) → wp ab (set_overall_thread_cache_size fuel n) Q s.
Proof.
  intros (E1 & E2 & E3 & _ & _) HQ. unfold set_overall_thread_cache_size. set (z := if _ <? _ then Z.shiftl 1 30 else _).
  assert (2 ^ 19 ≤ z ≤ 2 ^ 30) as Hz by (unfold z; change (Z.shiftl 1 30) with (2 ^ 30); change kMinThreadCacheSize with (2 ^ 19); repeat zcase; lia).
  apply wp_bind, wp_on_registry. unfold RecomputePerThreadCacheSize. apply wp_bind, wp_get_registry. cbv zeta. simpl thread_heaps_. rewrite E1.
  destruct fuel as [|k]; [done|]. cbn [recompute_loop]. change (0 =? 0) with true. cbv iota. apply wp_bind, wp_ret, wp_bind, wp_on_registry, wp_on_registry.
  match goal with |- Q tt ?st => set (s' := st) end. replace s' with (with_registry s (registry s')) by done. apply HQ.
  unfold no_caches_yet. simpl. rewrite Z.sub_0_r, ssize_id by lia. change kMinThreadCacheSize with (2 ^ 19). by rewrite E1, E2, E3.
Qed.
Lemma locals_none s heaps : (∀ me, local_of s me = Local_zero) → locals_ok s heaps.
Proof.
  intros Hl. assert (∀ me, owned s me = 0) as Ho by (intros me; unfold owned; by rewrite Hl). split.
  - intros me. by rewrite Ho, Hl.
  - intros me. left. apply Ho.
  - intros m1 m2 _ Hn. by destruct (Hn (Ho m1)).
  - intros me _. apply Ho.
Qed.
Lemma wp_InitModule s (Q : () → state → Prop) : unstarted s →
  (∀ s', started s' (λ _ _, []) ∅ [] → tsd_inited_ s' = false → Q tt s') →
  wp ab (InitModule tcb InitStaticVars allocator_Init fuel) Q s.
Proof.
  intros [U1 U2 U3 U4 U5 U6 U7 U8] HQ. unfold InitModule. apply wp_bind, wp_gets. rewrite U1.
  apply wp_bind, (wp_mono _ _ (λ _ s1, ∃ r, no_caches_yet r ∧ s1 = with_registry s r)).
  { assert (no_caches_yet (registry s)) as Hr by by rewrite U5. destruct tcb as [n|]; [|apply wp_ret; exists (registry s); split; [done|by destruct s]].
    apply wp_set_overall; [done|]. intros r. by exists r. }
  intros [] s1 (r & (E1 & E2 & E3 & Er & Eu) & ->). apply wp_bind, wp_on_pool. eapply wp_mono; [by apply Hpool|]. intros [] c Hc.
  apply wp_bind. unfold wp at 1. simpl metadata. destruct (Halloc _ U7) as [->|(a & w & -> & Hw & Ha)]; [done|]. cbn [mbind outcome_bind].
  apply wp_act. apply HQ; [|done]. split; [|by apply locals_none|done]. split; [|simpl; rewrite U3; by intros h t ?%lookup_empty_Some].
  split; simpl; rewrite ?U3, ?U4; try done.
  - split; simpl; [done|constructor|done|by left].
  - split; simpl; [done|rewrite U3, wsum_empty; lia|rewrite U3, wsum_empty; change kMinThreadCacheSize with (2 ^ 19) in Er; change kStealAmount with 65536; lia|].
    rewrite U3. by intros h t ?%lookup_empty_Some.
  - by intros h ?%not_elem_of_nil.
Qed.

(** ** A thread gets a cache *)
Lemma wp_find_heap me n : ∀ prev h l s (Q : Z → state → Prop), dlist (caches s) prev h l 0 → zlen l < Z.of_nat n →
  (∀ r, r = 0 ∨ r ∈ l → Q r s) → wp ab (find_heap n me h) Q s.
Proof.
  induction n as [|n IH]; intros prev h l s Q Hd Hn HQ; [pose proof (zlen_nonneg l); lia|]. cbn [find_heap]. destruct l as [|x l].
  - simpl in Hd. subst h. apply wp_ret, HQ. by left.
  - destruct Hd as (-> & Hx & t & Ht & _ & Hd). rewrite (proj2 (Z.eqb_neq x 0)) by done. eapply wp_bind, wp_get_cache; [done|].
    apply wp_if; intros _; [apply wp_ret, HQ; right; left|]. eapply IH; [done|rewrite zlen_cons in Hn; lia|].
    intros r [->|Hr]; apply HQ; [by left|right; by right].
Qed.
Lemma wp_set_thread_heap s me h t (Q : Z → state → Prop) : caches s !! h = Some t → in_setspecific_ t = false →
  Q h (set_local s me (if tsd_inited_ s then mkLocal h h (use_emergency_malloc (local_of s me)) h None else with_current (local_of s me) None)) →
  wp ab (set_thread_heap me h) Q s.
Proof.
  intros Ht Hin HQ. unfold set_thread_heap. eapply wp_bind, wp_get_cache; [done|]. apply wp_bind, wp_gets. rewrite Hin. destruct (tsd_inited_ s) eqn:Et; simpl.
  - apply wp_bind. eapply wp_bind, wp_on_cache; [done|]. apply wp_bind, wp_on_local, wp_bind, wp_on_local. eapply wp_on_cache; [apply upd_caches|].
    apply wp_bind, wp_on_local, wp_ret. match goal with |- Q h ?s' => replace s' with (set_local s me (mkLocal h h (use_emergency_malloc (local_of s me)) h None)); [done|] end.
    unfold set_local, with_locals, upd, with_objects, with_caches, local_of. simpl. rewrite !lookup_insert_eq. simpl. rewrite !insert_insert_eq. f_equal.
    replace (with_owner _ (tid_ t) false) with t by (destruct t; simpl in *; by subst). by rewrite insert_id.
  - apply wp_bind, wp_ret, wp_bind, wp_on_local. by apply wp_ret.
Qed.
Lemma locals_ext s s' heaps heaps' : (∀ me, local_of s' me = local_of s me) → tsd_inited_ s' = tsd_inited_ s → (∀ h, h ∈ heaps → h ∈ heaps') →
  locals_ok s heaps → locals_ok s' heaps'.
Proof.
  intros El Et Hsub [L1 L2 L3 L4]. assert (∀ me, owned s' me = owned s me) as Eo by (intros me; unfold owned; by rewrite El). split.
  - intros me. by rewrite El, Eo.
  - intros me. rewrite Eo. destruct (L2 me); auto.
  - intros m1 m2. rewrite !Eo. apply L3.
  - intros me. rewrite Eo, Et. apply L4.
Qed.
(** The thread has the cache [h], made for it or not; nothing else changes for the users. *)
Record has_cache s g P heaps me h s' g' heaps' : Prop := {
  hc_started : started s' g' P heaps';
  hc_in : h ∈ heaps';
  hc_user x k : user (set_of heaps') g' P x k ↔ user (set_of heaps) g P x k;
  hc_objects : objects_of s' = objects_of s;
  hc_owned me' : owned s me' ≠ 0 → owned s' me' ≠ 0;
  hc_few : zlen heaps' ≤ zlen heaps + 1;
}.
Lemma started_few s g P heaps me : started s g P heaps → room s me → owned s me = 0 → zlen heaps < kMaxCaches.
Proof.
  intros [[Hc _] _ _] [_ Hr] Hz. specialize (Hr Hz). rewrite (tc_dom _ _ _ _ Hc), size_list_to_set in Hr; [done|]. apply (rg_nodup _ _ (tc_reg _ _ _ _ Hc)).
Qed.
Lemma cache_set s g P heaps h : threads_ok s g P heaps → h ∈ heaps → ∃ t, caches s !! h = Some t ∧ in_setspecific_ t = false.
Proof.
  intros Hok Hh. destruct (core_cache _ _ _ _ _ (tk_core _ _ _ _ Hok) Hh) as [t Ht]. exists t. split; [done|]. by destruct (tk_cache _ _ _ _ Hok h t Ht) as (_ & _ & _ & ?).
Qed.
(** The local data of the thread [me] may have changed meanwhile. *)
Definition differ_at me s s1 : Prop := ∀ me', me' ≠ me → local_of s1 me' = local_of s me'.
Lemma locals_given s s2 heaps heaps' me l h : locals_ok s heaps → (∀ y, y ∈ heaps → y ∈ heaps') → tsd_inited_ s2 = tsd_inited_ s →
  differ_at me s s2 → l = mkLocal h h false h None →
  h = 0 ∨ (tsd_inited_ s = true ∧ h ∈ heaps' ∧ h ∉ heaps) → ¬ (h = 0 ∧ h ∈ heaps') → locals_ok (set_local s2 me l) heaps'.
Proof.
  intros Hl Hsub Et Hd -> Hh Hnz. apply (locals_ext (set_local s me (mkLocal h h false h None)) _ heaps'); [|done..|].
  - intros me'. rewrite !local_set. case_decide as E; [done|]. by apply Hd.
  - apply locals_set; [by apply (locals_ext s _ heaps)|]. destruct Hh as [->|(E1 & E2 & E3)]; [by left|right]. split_and!; try done.
    intros me' <-. destruct (lo_in _ _ Hl me') as [E|]; [by apply Hnz|done].
Qed.
Lemma heaps_nonzero s g P heaps h : threads_ok s g P heaps → h ∈ heaps → h ≠ 0.
Proof. intros [Hc _] Hh. by destruct (dlist_in _ _ _ _ _ _ (rg_chain _ _ (tc_reg _ _ _ _ Hc)) Hh). Qed.
(** A thread that has found [h0], or nothing and makes a cache; [s1] is [s] but for its
    local data. *)
Lemma wp_make s g P heaps me s1 h0 (Q : Z → state → Prop) : started s g P heaps → room s me → owned s me = 0 →
  s1 = with_locals s (locals s1) → differ_at me s s1 →
  use_emergency_malloc (local_of s1 me) = false → (tsd_inited_ s = false → local_of s1 me = Local_zero) → h0 = 0 ∨ (tsd_inited_ s = false ∧ h0 ∈ heaps) →
  (∀ h s' g' heaps', has_cache s g P heaps me h s' g' heaps' → Q h s') →
  wp ab (heap ← (if h0 =? 0 then NewHeap sm log2 log sample_parameter me else mret h0);
         _ ← (if tsd_inited_ s then on_local me (λ l, with_current l (Some heap)) else mret tt); set_thread_heap me heap) Q s1.
Proof.
  intros Hst Hroom Hz Es1 Hd He Hl1 Hh0 HQ. pose proof Hst as [Hok Hlo Hph].
  assert (threads_ok s1 g P heaps) as Hok1 by (rewrite Es1; by apply (ok_frame s)).
  apply wp_bind, (wp_mono _ _ (λ h s2, ∃ g' heaps', h ∈ heaps' ∧ (tsd_inited_ s = true → h ∉ heaps) ∧ (∀ y, y ∈ heaps → y ∈ heaps') ∧ zlen heaps' ≤ zlen heaps + 1 ∧ threads_ok s2 g' P heaps' ∧
    (∀ x k, user (set_of heaps') g' P x k ↔ user (set_of heaps) g P x k) ∧ objects_of s2 = objects_of s ∧
    locals s2 = locals s1 ∧ tsd_inited_ s2 = tsd_inited_ s ∧ phinited s2 = true)).
  { apply wp_if; intros E; [apply Z.eqb_eq in E; subst h0|apply Z.eqb_neq in E].
    - eapply (wp_NewHeap Hsm log2 log sample_parameter Hgaps _ g P heaps); [done|by eapply (started_few s g P heaps me)|by apply Hroom|].
      intros h s' g' Hn Hpos [S1 S2 S3 (S4 & S5 & S6)] Eo. exists g', (h :: heaps). split_and!; try done; [left|intros y; by right|rewrite zlen_cons; lia| | |].
      + by rewrite Eo, Es1. + by rewrite S5, Es1. + by rewrite S6, Es1.
    - destruct Hh0 as [|[Et Hin]]; [done|]. apply wp_ret. exists g, heaps. rewrite Et. split_and!; try done; [lia|by rewrite Es1..]. }
  intros h s2 (g' & heaps' & Hin & Hnew & Hsub & Hlen & Hok2 & Hu & Eo & El & Et & Ep). pose proof (heaps_nonzero _ _ _ _ _ Hok2 Hin) as Hn0.
  destruct (cache_set _ _ _ _ _ Hok2 Hin) as (t & Ht & Hset). assert (∀ me', local_of s2 me' = local_of s1 me') as El1 by (intros me'; unfold local_of; by rewrite El).
  assert (differ_at me s s2) as Hd2 by (intros me' Hne; rewrite El1; by apply Hd).
  assert (∀ l me', owned s me' ≠ 0 → owned (set_local s2 me l) me' ≠ 0) as Hown.
  { intros l me' Hn. unfold owned. rewrite local_set. case_decide as Em; [subst; congruence|]. rewrite Hd2 by done. exact Hn. }
  apply wp_bind. destruct (tsd_inited_ s) eqn:Ets.
  - apply wp_on_local. rewrite El1. eapply wp_set_thread_heap; [exact Ht|done|]. change (tsd_inited_ (set_local s2 me _)) with (tsd_inited_ s2). rewrite Et, set_local_twice, local_set, decide_True by done.
    apply (HQ h _ g' heaps'). split; [split; [by apply ok_set_local| |done]|done|done|done|by apply Hown|done].
    eapply locals_given; [exact Hlo|done|by rewrite Ets|done|simpl; by rewrite He|right; by auto|by intros [? _]].
  - apply wp_ret. eapply wp_set_thread_heap; [exact Ht|done|]. rewrite Et, El1, Hl1 by done.
    apply (HQ h _ g' heaps'). split; [split; [by apply ok_set_local| |done]|done|done|done|by apply Hown|done].
    eapply (locals_given _ _ _ _ _ _ 0); [exact Hlo|done|by rewrite Ets|done|done|by left|]. intros [_ Hz']. by apply (heaps_nonzero _ _ _ _ _ Hok2 Hz').
Qed.
(** [free(NULL)] only reads. *)
Lemma wp_read_free_null me (Q : () → state → Prop) s : Q tt s → wp ab (free_null me) Q s.
Proof. intros HQ. apply wp_bind, wp_bind, wp_local, wp_ret, wp_ret, HQ. Qed.
Lemma wp_read_free_null_inv me (Q : () → state → Prop) s : wp ab (free_null me) Q s → Q tt s.
Proof. done. Qed.
Lemma wp_CreateCacheIfNecessary s g P heaps me (Q : Z → state → Prop) : started s g P heaps → room s me → owned s me = 0 →
  (∀ h s' g' heaps', has_cache s g P heaps me h s' g' heaps' → Q h s') →
  wp ab (CreateCacheIfNecessary sm log2 log sample_parameter tcb InitStaticVars allocator_Init fuel me) Q s.
Proof.
  intros Hst Hroom Hz HQ. pose proof Hst as [Hok Hlo Hph]. unfold CreateCacheIfNecessary. apply wp_bind, wp_gets.
  apply wp_bind, (wp_mono _ _ (λ _ s1, s1 = s)).
  { destruct (tsd_inited_ s); [by apply wp_ret|]. cbn [negb]. apply wp_bind, wp_read_free_null.
    unfold InitModule. apply wp_bind, wp_gets. rewrite Hph. by apply wp_ret. }
  intros [] _ ->. apply wp_bind, wp_gets, wp_bind, wp_local. pose proof (lo_shape _ _ Hlo me) as Esh. rewrite Hz in Esh. rewrite Esh. cbn [current_heap].
  destruct (tsd_inited_ s) eqn:Et; cbn [negb].
  - apply wp_bind, wp_on_local. rewrite Esh. apply wp_bind, wp_get_registry, wp_bind, wp_ret. set (s1 := set_local _ _ _). pose proof (wp_make s g P heaps me s1 0 Q) as Hm.
    rewrite Et in Hm. apply Hm; try done; [intros me' Hne; unfold s1; by rewrite local_set, decide_False|unfold s1; by rewrite local_set, decide_True|by left].
  - apply wp_bind, wp_ret, wp_bind, wp_get_registry, wp_bind. eapply wp_find_heap; [apply (tc_reg _ _ _ _ (tk_core _ _ _ _ Hok))|pose proof (tc_few _ _ _ _ (tk_core _ _ _ _ Hok)); lia|].
    intros h0 Hh0. pose proof (wp_make s g P heaps me s h0 Q) as Hm. rewrite Et in Hm.
    apply Hm; try done; [by destruct s|by rewrite Esh|destruct Hh0; [by left|by right]].
Qed.
Lemma wp_first_cache s me (Q : Z → state → Prop) : unstarted s → room s me →
  (∀ h s1 s' g P heaps, started s1 (λ _ _, []) ∅ [] → has_cache s1 (λ _ _, []) ∅ [] me h s' g heaps → P = ∅ → Q h s') →
  wp ab (CreateCacheIfNecessary sm log2 log sample_parameter tcb InitStaticVars allocator_Init fuel me) Q s.
Proof.
  intros Hu [Hme _] HQ. unfold CreateCacheIfNecessary. apply wp_bind, wp_gets. rewrite (us_tsd _ Hu). apply wp_bind. cbn [negb].
  apply wp_bind, wp_read_free_null, wp_InitModule; [done|]. intros s1 Hst Ht.
  assert (owned s1 me = 0) as Hz by (by eapply lo_tsd; [apply Hst|]).
  assert (room s1 me) as Hroom.
  { split; [done|]. intros _. destruct Hst as [[Hc _] _ _]. rewrite (tc_dom _ _ _ _ Hc). done. }
  pose proof (wp_CreateCacheIfNecessary s1 _ _ _ me Q Hst Hroom Hz) as Hw. unfold CreateCacheIfNecessary in Hw.
  assert (∀ h s' g' heaps', has_cache s1 (λ _ _, []) ∅ [] me h s' g' heaps' → Q h s') as HQ1 by (intros; by eapply HQ).
  specialize (Hw HQ1). apply wp_bind_inv in Hw. change (wp ab (gets tsd_inited_)) with (λ (R : bool → state → Prop) s, R (tsd_inited_ s) s) in Hw. cbv beta in Hw.
  rewrite Ht in Hw. apply wp_bind_inv in Hw. cbn [negb] in Hw.
  apply wp_bind_inv in Hw. apply wp_read_free_null_inv in Hw. unfold InitModule in Hw. apply wp_bind_inv in Hw.
  change (wp ab (gets phinited)) with (λ (R : bool → state → Prop) s, R (phinited s) s) in Hw. cbv beta in Hw. rewrite (st_ph _ _ _ _ Hst) in Hw. exact Hw.
Qed.
(** At most one cache more, and no thread loses its own. *)
Record grown s s' : Prop := {
  gr_owned me : owned s me ≠ 0 → owned s' me ≠ 0;
  gr_size : Z.of_nat (size (dom (caches s'))) ≤ Z.of_nat (size (dom (caches s))) + 1;
}.
Lemma started_size s g P heaps : started s g P heaps → Z.of_nat (size (dom (caches s))) = zlen heaps.
Proof.
  intros [[Hc _] _ _]. rewrite (tc_dom _ _ _ _ Hc), size_list_to_set; [done|]. apply (rg_nodup _ _ (tc_reg _ _ _ _ Hc)).
Qed.
Lemma wp_cache_for s U me (Q : Z → state → Prop) : threads_rep s U → room s me →
  (∀ h s' g P heaps, started s' g P heaps → h ∈ heaps → (∀ x cl, U !! x = Some cl ↔ user (set_of heaps) g P x cl) →
     ((phinited s = true ∨ U ≠ ∅) → objects_of s' = objects_of s) → grown s s' → Q h s') →
  wp ab (cache_for me) Q s.
Proof.
  intros [[Hu ->]|(g & P & heaps & Hst & HU)] Hroom HQ; unfold cache_for, GetCache, GetThreadHeap; apply wp_bind, wp_bind, wp_local, wp_ret.
  - rewrite (us_local _ Hu). simpl. apply wp_first_cache; [done..|]. intros h s1 s' g' P heaps' Hst [C1 C2 C3 C4 C5 C6] _.
    eapply HQ; [exact C1|done| |by intros [E|]; [rewrite (us_ph _ Hu) in E|]|].
    + intros x cl. rewrite C3, lookup_empty. split; [done|by intros [? _]].
    + split; [intros me'; unfold owned; by rewrite (us_local _ Hu)|]. rewrite (started_size _ _ _ _ C1). change (zlen []) with 0 in C6. lia.
  - fold (owned s me). destruct (Z.eqb_spec (owned s me) 0) as [Hz|Hz].
    + eapply wp_CreateCacheIfNecessary; [done..|]. intros h s' g' heaps' [C1 C2 C3 C4 C5 C6]. eapply HQ; [exact C1|done| |done|].
      * intros x cl. by rewrite C3.
      * split; [exact C5|]. by rewrite (started_size _ _ _ _ C1), (started_size _ _ _ _ Hst).
    + apply wp_ret. destruct (lo_in _ _ (st_locals _ _ _ _ Hst) me); [done|]. eapply HQ; [done..|]. split; [done|lia].
Qed.

(** ** The operations *)
Lemma ok_objects s g P heaps c P' : threads_ok s g P heaps → op_rep c P' →
  (∀ h cl x, h ∈ heaps → x ∈ g h cl → P' !! x = P !! x ∧ op_words c !! x = held_words s !! x) →
  threads_ok (with_objects s c) g P' heaps.
Proof.
  intros [[[I1 I2 I3 I4] K2 [R1 R2 R3 R4] [B1 B2 B3 B4] K5 K6 K7 K8 K9] Hf] Hc Hfr. split; [|done]. split; try done. split; try done.
  - intros h Hh. destruct (I2 h Hh) as (t & Ht & Hlen & Hl). exists t. split; [done|]. split; [done|]. intros cl Hcl. destruct (Hl cl Hcl) as (f & Hf0 & Hch).
    exists f. split; [done|]. eapply chain_frame; [|exact Hch]. intros x Hx. apply (Hfr h cl x); [by apply elem_of_list_to_set in Hh|done].
  - intros h cl x Hh Hx. destruct (Hfr h cl x) as [-> _]; [by apply elem_of_list_to_set in Hh|done|]. by eapply I3.
Qed.
Lemma serves_started s g P heaps h t' gone come cl s' g' P' : started s g P heaps → threads_ok s' g' P' heaps →
  serves s g P heaps h t' gone come cl s' g' P' → started s' g' P' heaps.
Proof.
  intros [S1 S2 S3] Hok Hsv. destruct (sv_locals _ _ _ _ _ _ _ _ _ _ _ _ Hsv) as (E1 & E2 & E3). split; [done| |congruence].
  eapply locals_ext; [|exact E2|done|exact S2]. intros me. unfold local_of. by rewrite E1.
Qed.
(** The state between an operation and the next, with what has been served. *)
Definition served s U o (r : Z) s' : Prop := threads_rep s' (users_after o r U) ∧ users_served s U o r s'.
(** The module is set up, with the caches [heaps] and the objects [U] of the users. *)
Definition running s U heaps : Prop := ∃ g P, started s g P heaps ∧ ∀ x cl, U !! x = Some cl ↔ user (set_of heaps) g P x cl.
Definition words_kept s U s' : Prop := ∀ x, is_Some (U !! x) → held_words s' !! x = held_words s !! x.
Lemma running_rep s U heaps : running s U heaps → threads_rep s U.
Proof. intros (g & P & Hst & HU). right. by exists g, P, heaps. Qed.
Lemma served_running s s1 U o r s' : (∃ heaps, running s' (users_after o r U) heaps) → (∀ x v, o ≠ TWrite x v) → (∀ me, o ≠ TIdle me ∧ o ≠ TExit me) →
  (∀ me cl, o = TAllocate me cl → if r =? 0 then phinited s = true → op_empty (objects_of s) cl else U !! r = None) →
  words_kept s U s1 → (∀ x, is_Some (U !! x) → is_Some (users_after o r U !! x) → held_words s' !! x = held_words s1 !! x) → served s U o r s'.
Proof.
  intros (heaps & Hr) Hw Hi Ha K1 K2. split; [by eapply running_rep|].
  assert (∀ x, is_Some (U !! x) → is_Some (users_after o r U !! x) → held_words s' !! x = held_words s !! x) as Hk by (intros x Hx Hx'; by rewrite K2, K1).
  split; destruct o; try done; [by destruct (Hw x v)|by eapply Ha|by destruct (Hi me) as [[]]..|by destruct (Hi me) as [_ []]].
Qed.
Lemma served_still s g P heaps U o r s' g' P' heaps' : users_after o r U = U → (∀ x v, o ≠ TWrite x v) → (∀ me cl, o ≠ TAllocate me cl) →
  (∀ me, o = TIdle me ∨ o = TExit me → owned s' me = 0 ∧ dom (caches s') = dom (caches s) ∖ {[owned s me]}) →
  (∀ x cl, U !! x = Some cl ↔ user (set_of heaps) g P x cl) → started s' g' P' heaps' →
  (∀ x k, user (set_of heaps') g' P' x k ↔ user (set_of heaps) g P x k) →
  (∀ x k, user (set_of heaps) g P x k → held_words s' !! x = held_words s !! x) → served s U o r s'.
Proof.
  intros E Hw Ha Hi HU Hst Hu Hm. split; [rewrite E; right; exists g', P', heaps'; split; [done|]; intros x cl; by rewrite HU, Hu|].
  assert (∀ x, is_Some (U !! x) → is_Some (users_after o r U !! x) → held_words s' !! x = held_words s !! x) as Hm'.
  { intros x [cl Hx] _. apply HU in Hx. by eapply Hm. }
  split; [destruct o; try done; by destruct (Hw x v)|]. destruct o; try done; [by destruct (Ha me cl)|apply Hi; by left|apply Hi; by right].
Qed.
Lemma wp_Allocate_users s U heaps h cl (Q : Z → state → Prop) : running s U heaps → h ∈ heaps → class_ok sm cl →
  (∀ s', running s' U heaps → op_empty (objects_of s) cl → words_kept s U s' → locals s' = locals s → Q 0 s') →
  (∀ x s', 0 < x → U !! x = None → running s' (<[x := cl]> U) heaps → words_kept s U s' → locals s' = locals s → Q x s') →
  wp ab (Allocate sm h (csize sm cl) cl (λ _, mret 0)) Q s.
Proof.
  intros (g & P & Hst & HU) Hin Hcl HQ0 HQ1. assert (∀ x : Z, x ∉ []) as Hnil by (intros; apply not_elem_of_nil).
  eapply (wp_Allocate Hsm s g P heaps); [apply Hst|done|done| |].
  - intros s' g' P' t' Hemp Hok Hsv. apply wp_ret, HQ0; [|done| |apply (sv_locals _ _ _ _ _ _ _ _ _ _ _ _ Hsv)].
    + exists g', P'. split; [by eapply serves_started|]. intros x k. rewrite HU, (sv_user _ _ _ _ _ _ _ _ _ _ _ _ Hsv). pose proof (Hnil x). tauto.
    + intros x [k Hk%HU]. by apply (sv_words _ _ _ _ _ _ _ _ _ _ _ _ Hsv x k Hk).
  - intros x s' g' P' t' Hok Hsv. pose proof (serves_started _ _ _ _ _ _ _ _ _ _ _ _ Hst Hok Hsv) as Hst'.
    assert (user (set_of heaps) g' P' x cl) as Hx by (apply (sv_user _ _ _ _ _ _ _ _ _ _ _ _ Hsv); right; split; [left|done]).
    assert (U !! x = None) as Hnone.
    { apply eq_None_not_Some. intros [k Hk%HU]. by apply (sv_fresh _ _ _ _ _ _ _ _ _ _ _ _ Hsv x k); [left|]. }
    destruct (user_object _ _ _ _ _ _ (tc_inv _ _ _ _ (tk_core _ _ _ _ Hok)) Hx) as (_ & Hpos & _).
    apply HQ1; [done|done| | |apply (sv_locals _ _ _ _ _ _ _ _ _ _ _ _ Hsv)].
    + exists g', P'. split; [done|]. intros y k. rewrite lookup_insert_Some, HU, (sv_user _ _ _ _ _ _ _ _ _ _ _ _ Hsv), list_elem_of_singleton. pose proof (Hnil y).
      split; [intros [[<- <-]|[_ Hy]]; [by right|left; by split]|]. intros [[Hy _]|[-> ->]]; [right|by left]. split; [|done]. intros <-. apply HU in Hy. congruence.
    + intros y [k Hk%HU]. by apply (sv_words _ _ _ _ _ _ _ _ _ _ _ _ Hsv y k Hk).
Qed.
Lemma wp_allocate s U me cl : threads_rep s U → thread_op_ok s U (TAllocate me cl) →
  wp ab (run_thread (TAllocate me cl)) (served s U (TAllocate me cl)) s.
Proof.
  intros Hrep [Hcl Hroom]. cbn [run_thread]. eapply wp_bind, wp_cache_for; [done..|]. intros h s1 g P heaps Hst Hin HU Hobj _.
  assert (words_kept s U s1) as Hw.
  { intros x [k Hx]. unfold held_words. rewrite Hobj; [done|right; by intros ->]. }
  eapply (wp_Allocate_users s1 U heaps); [by exists g, P|done|done|..].
  - intros s' Hr Hemp Hk _. eapply served_running; [by exists heaps|done|done| |exact Hw|by intros x Hx _; apply Hk].
    intros me' cl' [= _ <-]. change (0 =? 0) with true. cbv iota. intros Hph. rewrite <- Hobj; [done|by left].
  - intros x s' Hpos Hnone Hr Hk _. assert ((x =? 0) = false) as Ex by (apply Z.eqb_neq; lia).
    eapply served_running; [exists heaps; cbn [users_after]; by rewrite Ex|done|done|by intros; rewrite Ex|exact Hw|by intros y Hy _; apply Hk].
Qed.
Lemma sll_one m x : x ≠ 0 → sll (<[x := 0]> m) x [x].
Proof.
  intros Hx. split; [|constructor; [apply not_elem_of_nil|constructor]]. split; [done|]. split; [done|]. exists 0. by rewrite lookup_insert_eq.
Qed.
(** An object goes to the central lists directly. *)
Lemma wp_insert_one s U heaps x cl (Q : () → state → Prop) : running s U heaps → U !! x = Some cl →
  (∀ s', running s' (delete x U) heaps → words_kept s (delete x U) s' → locals s' = locals s → Q tt s') →
  wp ab (_ ← (λ s, m ← SLL_SetNext (op_words (objects_of s)) x 0; Ok (tt, with_objects s (op_set_words m (objects_of s))));
         on_pool (op_insert cl x x 1)) Q s.
Proof.
  intros (g & P & Hst & HU) Hx HQ. pose proof (proj1 (HU _ _) Hx) as [HPx Hloose]. pose proof (tc_inv _ _ _ _ (tk_core _ _ _ _ (st_ok _ _ _ _ Hst))) as Hi.
  pose proof (ti_pool _ _ _ _ Hi) as Hrep. destruct (op_object _ _ _ _ Hrep HPx) as (Hcl & Hx0 & w & Hw). assert (x ≠ 0) as Hxn by lia.
  apply wp_bind. unfold wp at 1, SLL_SetNext. rewrite Hw. cbn [mbind outcome_bind]. set (c1 := op_set_words _ _).
  assert (op_rep c1 P) as Hrep1 by (by apply (op_write (objects_of s) P x 0 cl)). assert (op_words c1 = <[x := 0]> (held_words s)) as Ew by apply op_words_set.
  apply wp_on_pool. simpl objects_of. change 1 with (zlen [x]). eapply wp_mono; [apply (op_insert_spec c1 P cl x x [x] Hrep1); [|done| |]|].
  - rewrite Ew. by apply sll_one.
  - by intros y ->%list_elem_of_singleton.
  - pose proof (cbatch_range sm Hsm cl Hcl). unfold zlen. simpl. lia.
  - intros [] c2 (P2 & Hrep2 & l & Hl & -> & Hm). assert (l = [x]) as ->.
    { apply (sll_fun (op_words c1) l [x] x Hl). rewrite Ew. by apply sll_one. }
    assert (∀ y k, P !! y = Some k → y ≠ x → pool_remove [x] P !! y = Some k ∧ op_words c2 !! y = held_words s !! y) as Hfr.
    { intros y k Hy Hne. assert (pool_remove [x] P !! y = Some k) as Hy' by (apply lookup_pool_remove; split; [done|by rewrite list_elem_of_singleton]).
      split; [done|]. rewrite Hm by (by eexists). rewrite Ew. by rewrite lookup_insert_ne. }
    apply HQ; [exists g, (pool_remove [x] P); split| |done].
    + destruct Hst as [S1 S2 S3]. split; [|by destruct S2|done]. apply (ok_objects s g P); [done|done|]. intros h k y Hh Hy.
      assert (P !! y = Some k) as HPy by (eapply (ti_class _ _ _ _ Hi); [by apply elem_of_list_to_set|done]).
      destruct (Hfr y k HPy) as [-> ->]; [|done]. intros ->. apply (Hloose h k); [by apply elem_of_list_to_set|done].
    + intros y k. rewrite lookup_delete_Some, HU. unfold user. rewrite lookup_pool_remove, list_elem_of_singleton. split; [intros (? & ? & ?)|intros ((? & ?) & ?)]; by split_and!.
    + intros y [k [Hne [Hy _]%HU]%lookup_delete_Some]. by apply (Hfr y k).
Qed.
Lemma wp_free_object s U heaps inv me x cl (Q : () → state → Prop) : running s U heaps → U !! x = Some cl →
  (∀ s', running s' (delete x U) heaps → words_kept s (delete x U) s' → locals s' = locals s → Q tt s') → wp ab (free_object inv me x cl) Q s.
Proof.
  intros Hr Hx HQ. pose proof Hr as (g & P & Hst & HU). unfold free_object, GetCacheIfPresent, GetThreadHeap.
  apply wp_bind, wp_bind, wp_local, wp_ret, wp_bind, wp_gets. fold (owned s me).
  rewrite (st_ph _ _ _ _ Hst). destruct (Z.eqb_spec (owned s me) 0) as [Hz|Hz]; cbn [negb]; [by eapply wp_insert_one|].
  destruct (lo_in _ _ (st_locals _ _ _ _ Hst) me) as [|Hin]; [done|]. apply wp_bind, wp_tassert; [done|].
  eapply (wp_Deallocate Hsm s g P heaps); [apply Hst|done|by apply HU|]. intros s' g' P' t' Hok' Hsv. apply HQ; [..|apply (sv_locals _ _ _ _ _ _ _ _ _ _ _ _ Hsv)].
  - exists g', P'. split; [by eapply serves_started|]. intros y k. rewrite lookup_delete_Some, HU, (sv_user _ _ _ _ _ _ _ _ _ _ _ _ Hsv), list_elem_of_singleton.
    assert (y ∉ []) by apply not_elem_of_nil. split; [intros [Hne Hy]; left; by split|]. intros [[Hy Hne]|[? _]]; [by split|done].
  - intros y [k [Hne Hy%HU]%lookup_delete_Some]. apply (sv_words _ _ _ _ _ _ _ _ _ _ _ _ Hsv y k Hy). by rewrite list_elem_of_singleton.
Qed.
Lemma wp_free s U me x cl : threads_rep s U → thread_op_ok s U (TFree me x cl) →
  wp ab (run_thread (TFree me x cl)) (served s U (TFree me x cl)) s.
Proof.
  intros [[_ ->]|(g & P & heaps & Hst & HU)] Hx; simpl in Hx; [by rewrite lookup_empty in Hx|].
  cbn [run_thread]. eapply wp_bind, wp_free_object; [by exists g, P|done|]. intros s' Hr Hk _. apply wp_ret.
  eapply (served_running s s); [by exists heaps|done..|]. intros y _. apply Hk.
Qed.
(** *** Threads give their caches up *)
Lemma owned_set_local s me l me' : owned (set_local s me l) me' = if decide (me' = me) then heap l else owned s me'.
Proof. unfold owned. rewrite local_set. by case_decide. Qed.
(** What holds after an operation that only a thread without a cache does. *)
Record gave_up s g P heaps me s' g' P' heaps' : Prop := {
  gu_started : started s' g' P' heaps';
  gu_user x k : user (set_of heaps') g' P' x k ↔ user (set_of heaps) g P x k;
  gu_words x k : user (set_of heaps) g P x k → held_words s' !! x = held_words s !! x;
  gu_owned : owned s' me = 0;
  gu_dom : dom (caches s') = dom (caches s) ∖ {[owned s me]};
}.
Lemma gave_up_none s g P heaps me s' : started s g P heaps → owned s me = 0 → s' = set_local s me Local_zero ∨ s' = s →
  gave_up s g P heaps me s' g P heaps.
Proof.
  intros Hst Hz Hs'. pose proof Hst as [S1 S2 S3]. assert (dom (caches s) = dom (caches s) ∖ {[owned s me]}) as Ed.
  { rewrite Hz. pose proof (tc_dom _ _ _ _ (tk_core _ _ _ _ S1)) as ->. apply set_eq. intros y. rewrite elem_of_difference, elem_of_singleton, elem_of_list_to_set.
    split; [|by intros []]. intros Hy. split; [done|]. intros ->. by apply (heaps_nonzero _ _ _ _ _ S1 Hy). }
  destruct Hs' as [->| ->]; [|by split]. split; try done; [|by rewrite owned_set_local, decide_True].
  split; [by apply ok_set_local| |done]. apply (locals_set s heaps me 0); [done|by left].
Qed.
(** The thread forgets its cache, which is then deleted. *)
Lemma wp_give_up s g P heaps me (Q : () → state → Prop) : started s g P heaps → owned s me ≠ 0 →
  (∀ s' g' P' heaps', gave_up s g P heaps me s' g' P' heaps' → Q tt s') →
  wp ab (DeleteCache sm (owned s me)) Q (set_local s me Local_zero).
Proof.
  intros [S1 S2 S3] Hn HQ. destruct (lo_in _ _ S2 me) as [|Hin]; [done|]. set (h := owned s me) in *.
  eapply (wp_DeleteCache Hsm _ g P heaps h); [by apply ok_set_local|done|]. intros s' g' P' l1 l2 Eh [R1 R2 R3 (R4 & R5 & R6)].
  pose proof (rg_nodup _ _ (tc_reg _ _ _ _ (tk_core _ _ _ _ S1))) as Hnd. rewrite Eh in Hnd. apply NoDup_app in Hnd as (_ & Hdis & [Hh2 _]%NoDup_cons).
  assert (h ∉ l1 ++ l2) as Hnh by (rewrite not_elem_of_app; split; [intros Hx; apply (Hdis h Hx); left|done]).
  pose proof (locals_set s heaps me 0 S2 (or_introl eq_refl)) as [L1 L2 L3 L4].
  assert (∀ me', local_of s' me' = local_of (set_local s me Local_zero) me') as El by (intros me'; unfold local_of; by rewrite R4).
  assert (∀ me', owned s' me' = owned (set_local s me Local_zero) me') as Eo by (intros me'; unfold owned; by rewrite El).
  apply (HQ s' g' P' (l1 ++ l2)). split; [split; [done| |by rewrite R6]|done|done|by rewrite Eo, owned_set_local, decide_True|].
  - split.
    + intros me'. rewrite El, Eo. apply L1.
    + intros me'. rewrite Eo. destruct (decide (owned (set_local s me Local_zero) me' = 0)) as [|Hn']; [by left|right]. destruct (L2 me') as [|Hin']; [done|].
      assert (owned (set_local s me Local_zero) me' ≠ h); [|rewrite Eh, elem_of_app, elem_of_cons in Hin'; rewrite elem_of_app; tauto].
      rewrite owned_set_local in *. case_decide as Em; [done|]. intros E'. apply Em. symmetry. by apply (lo_one _ _ S2).
    + intros m1 m2. rewrite !Eo. apply L3.
    + intros me'. rewrite Eo, R5. apply L4.
  - rewrite (tc_dom _ _ _ _ (tk_core _ _ _ _ R1)), (tc_dom _ _ _ _ (tk_core _ _ _ _ S1)), Eh. apply set_eq. intros y.
    rewrite elem_of_difference, elem_of_singleton, !elem_of_list_to_set, !elem_of_app, elem_of_cons. rewrite not_elem_of_app in Hnh.
    split; [intros [Hy|Hy]; (split; [tauto|intros ->; tauto])|]. intros [[?|[?|?]] ?]; [by left|done|by right].
Qed.
Lemma gave_up_served s U g P heaps me o s' g' P' heaps' : o = TIdle me ∨ o = TExit me → (∀ x cl, U !! x = Some cl ↔ user (set_of heaps) g P x cl) →
  gave_up s g P heaps me s' g' P' heaps' → served s U o 0 s'.
Proof.
  intros Ho HU [G1 G2 G3 G4 G5]. eapply served_still; [by destruct Ho as [->| ->]|by destruct Ho as [->| ->]..| |exact HU|exact G1|done|done].
  intros me' Ho'. assert (me' = me) as -> by (destruct Ho as [->| ->], Ho' as [E|E]; congruence). done.
Qed.
Lemma wp_BecomeIdle s g P heaps me (Q : () → state → Prop) : started s g P heaps →
  (∀ s' g' P' heaps', gave_up s g P heaps me s' g' P' heaps' → Q tt s') → wp ab (BecomeIdle sm me) Q s.
Proof.
  intros Hst HQ. pose proof Hst as [S1 S2 S3]. unfold BecomeIdle. apply wp_bind, wp_gets. destruct (tsd_inited_ s) eqn:Et; cbn [negb].
  2:{ apply wp_ret. eapply HQ, gave_up_none; [done|by eapply lo_tsd|by right]. }
  unfold GetThreadHeap. apply wp_bind, wp_bind, wp_local, wp_ret. fold (owned s me). destruct (Z.eqb_spec (owned s me) 0) as [Hz|Hn].
  { apply wp_ret. eapply HQ, gave_up_none; [done|done|by right]. }
  destruct (lo_in _ _ S2 me) as [|Hin]; [done|]. destruct (cache_set _ _ _ _ _ S1 Hin) as (t & Ht & Hset).
  eapply wp_bind, wp_get_cache; [exact Ht|]. rewrite Hset. eapply wp_bind, wp_on_cache; [exact Ht|]. unfold setspecific. apply wp_bind, wp_on_local, wp_bind, wp_on_local.
  eapply wp_bind, wp_on_cache; [apply upd_caches|]. apply wp_bind, wp_bind, wp_local, wp_ret.
  match goal with |- wp _ _ _ ?st => assert (st = set_local s me Local_zero) as -> end.
  { unfold set_local, with_locals, upd, with_objects, with_caches, local_of. simpl. rewrite !lookup_insert_eq. simpl. fold (local_of s me). rewrite (lo_shape _ _ S2 me). simpl.
    rewrite !insert_insert_eq. f_equal. replace (with_owner _ (tid_ t) false) with t by (destruct t; simpl in *; by subst). by rewrite insert_id. }
  match goal with |- wp _ (if ?a =? _ then _ else _) _ _ => replace a with 0 end.
  - rewrite (proj2 (Z.eqb_neq 0 _)) by done. by eapply wp_give_up.
  - unfold local_of, set_local. simpl. rewrite !lookup_insert_eq. done.
Qed.
Lemma wp_idle s U me : threads_rep s U → wp ab (run_thread (TIdle me)) (served s U (TIdle me)) s.
Proof.
  intros [[Hu ->]|(g & P & heaps & Hst & HU)]; cbn [run_thread]; apply wp_bind.
  - unfold BecomeIdle. apply wp_bind, wp_gets. rewrite (us_tsd _ Hu). apply wp_ret, wp_ret. split; [by left|]. split; [done|].
    unfold owned. rewrite (us_local _ Hu), (us_caches _ Hu). split; [done|]. set_solver.
  - eapply wp_BecomeIdle; [done|]. intros s' g' P' heaps' Hg. apply wp_ret. eapply gave_up_served; [by left|done..].
Qed.
Lemma wp_exit s U me : threads_rep s U → wp ab (run_thread (TExit me)) (served s U (TExit me)) s.
Proof.
  intros [[Hu ->]|(g & P & heaps & Hst & HU)]; cbn [run_thread]; apply wp_bind, wp_local, wp_bind, wp_on_local, wp_bind; unfold DestroyThreadCache.
  - rewrite (us_local _ Hu). apply wp_ret, wp_ret. set (s' := set_local s me _). assert (∀ me', local_of s' me' = Local_zero) as El.
    { intros me'. unfold s'. rewrite local_set. case_decide; [done|apply (us_local _ Hu)]. }
    split; [left; split; [destruct Hu; by split|done]|]. split; [done|]. unfold owned. rewrite El, (us_local _ Hu). simpl. rewrite (us_caches _ Hu). split; [done|]. set_solver.
  - rewrite (lo_shape _ _ (st_locals _ _ _ _ Hst) me). simpl specific. destruct (Z.eqb_spec (owned s me) 0) as [Hz|Hn].
    + apply wp_ret, wp_ret. rewrite Hz. eapply gave_up_served; [by right|exact HU|]. eapply (gave_up_none s g P heaps); [done|done|by left].
    + apply wp_bind, wp_on_local. rewrite set_local_twice, local_set, decide_True by done.
      change (with_heap_of _ 0) with Local_zero. eapply wp_give_up; [done..|]. intros s' g' P' heaps' Hg. apply wp_ret. eapply gave_up_served; [by right|done..].
Qed.
Lemma served_plain s U o r s' : threads_rep s' U → users_after o r U = U → (∀ x v, o ≠ TWrite x v) → (∀ me cl, o ≠ TAllocate me cl) →
  (∀ me, o ≠ TIdle me ∧ o ≠ TExit me) → (∀ x, is_Some (U !! x) → held_words s' !! x = held_words s !! x) → served s U o r s'.
Proof.
  intros Hrep E Hw Ha Hi Hm. split; [by rewrite E|]. split.
  - destruct o; try (intros y Hy _; by apply Hm). exfalso. by eapply Hw.
  - destruct o; try done; exfalso; [by eapply Ha|by eapply (proj1 (Hi _))|by eapply (proj2 (Hi _))].
Qed.
Lemma wp_flush s U me : threads_rep s U → wp ab (run_thread (TFlush me)) (served s U (TFlush me)) s.
Proof.
  intros Hrep. assert (∀ r, served s U (TFlush me) r s) as Hsame by (intros r; by apply served_plain). cbn [run_thread].
  apply wp_bind. unfold BecomeTemporarilyIdle, GetCacheIfPresent, GetThreadHeap. apply wp_bind, wp_bind, wp_local, wp_ret. fold (owned s me).
  destruct (Z.eqb_spec (owned s me) 0) as [Hz|Hn]; cbn [negb]; [by apply wp_ret, wp_ret|].
  destruct Hrep as [[Hu _]|(g & P & heaps & Hst & HU)]; [unfold owned in Hn; by rewrite (us_local _ Hu) in Hn|].
  destruct (lo_in _ _ (st_locals _ _ _ _ Hst) me) as [|Hin]; [done|]. eapply (wp_Cleanup_ok Hsm s g P heaps); [apply Hst|done|].
  intros s' g' P' t' Hok Hsv _. apply wp_ret. eapply served_still; [done|done|done|by intros ? []|exact HU|by eapply serves_started| |].
  - intros x k. rewrite (sv_user _ _ _ _ _ _ _ _ _ _ _ _ Hsv). assert (x ∉ []) by apply not_elem_of_nil. tauto.
  - intros x k Hx. by apply (sv_words _ _ _ _ _ _ _ _ _ _ _ _ Hsv x k Hx), not_elem_of_nil.
Qed.
(** The sampler of a cache changes. *)
Lemma ok_sampler s g P heaps h t sa : threads_ok s g P heaps → h ∈ heaps → caches s !! h = Some t → sampler_ok sa →
  threads_ok (upd s h (with_sampler t sa) (objects_of s)) g P heaps.
Proof.
  intros Hok Hh Ht Hsa. pose proof (tk_core _ _ _ _ Hok) as Hc. destruct (tk_cache _ _ _ _ Hok h t Ht) as (Hct & Hb & _ & Hin). assert (h ∈ set_of heaps) as Hh' by by apply elem_of_list_to_set.
  eapply serves_ok; [exact Hok|eapply goes_core; [exact Hc|exact Hh|exact Ht|eapply (still_fields _ s g P h t (with_sampler t sa)); [by eapply tc_inv|done..]|done..]|].
  split; [destruct Hct; by split|]. split; [done|]. by split.
Qed.
Lemma running_sampler s U heaps h t sa : running s U heaps → h ∈ heaps → caches s !! h = Some t → sampler_ok sa →
  running (upd s h (with_sampler t sa) (objects_of s)) U heaps.
Proof. intros (g & P & [S1 S2 S3] & HU) Hin Ht Hsa. exists g, P. split; [|done]. split; [by apply ok_sampler|by destruct S2|done]. Qed.
Lemma running_cache s U heaps h : running s U heaps → h ∈ heaps → ∃ t, caches s !! h = Some t ∧ sampler_ok (sampler_ t) ∧ 0 < h ∧ phinited s = true.
Proof.
  intros (g & P & [S1 S2 S3] & HU) Hin. destruct (core_cache _ _ _ _ _ (tk_core _ _ _ _ S1) Hin) as [t Ht]. exists t.
  destruct (tk_cache _ _ _ _ S1 h t Ht) as (_ & _ & Hsa & _). by pose proof (tc_pos _ _ _ _ (tk_core _ _ _ _ S1) h Hin).
Qed.
Lemma wp_SampleAllocation s U heaps h k (Q : bool → state → Prop) : running s U heaps → h ∈ heaps → 0 ≤ k →
  (∀ b s', running s' U heaps → objects_of s' = objects_of s → locals s' = locals s → Q b s') → wp ab (SampleAllocation log2 log sample_parameter h k) Q s.
Proof.
  intros Hr Hin Hk HQ. destruct (running_cache _ _ _ _ Hr Hin) as (t & Ht & Hsa & Hpos & Hph). unfold SampleAllocation. apply wp_bind, wp_gets. rewrite Hph.
  destruct (record_ok log2 log sample_parameter (sampler_address h) k (sampler_ t) Hgaps) as (b & sa & E & Hsa'); [unfold sampler_address; lia|done..|].
  unfold on_sampler. eapply wp_bind, wp_bind, wp_get_cache; [exact Ht|]. eapply wp_bind, wp_lift; [exact E|]. cbv iota beta.
  eapply wp_bind, wp_put_cache; [exact Ht|]. apply wp_ret, wp_ret, HQ; [by apply running_sampler|done..].
Qed.
Lemma wp_TryRecordAllocationFast s U heaps h k (Q : bool → state → Prop) : running s U heaps → h ∈ heaps → 0 ≤ k < 2 ^ 63 →
  (∀ b s', running s' U heaps → objects_of s' = objects_of s → locals s' = locals s → Q b s') → wp ab (ThreadCache_TryRecordAllocationFast h k) Q s.
Proof.
  intros Hr Hin Hk HQ. destruct (running_cache _ _ _ _ Hr Hin) as (t & Ht & Hsa & _). unfold ThreadCache_TryRecordAllocationFast, on_sampler.
  destruct (fast_ok k (sampler_ t) Hsa Hk) as (b & sa & E & Hsa'). eapply wp_bind, wp_get_cache; [exact Ht|]. eapply wp_bind, wp_lift; [exact E|]. cbv iota beta.
  eapply wp_bind, wp_put_cache; [exact Ht|]. apply wp_ret, HQ; [by apply running_sampler|done..].
Qed.
Lemma wp_sample s U me k : threads_rep s U → thread_op_ok s U (TSample me k) →
  wp ab (run_thread (TSample me k)) (served s U (TSample me k)) s.
Proof.
  intros Hrep [Hk Hroom]. cbn [run_thread]. eapply wp_bind, wp_cache_for; [done..|]. intros h s1 g P heaps Hst Hin HU Hobj _.
  eapply wp_bind, (wp_SampleAllocation s1 U heaps); [by exists g, P|done|done|]. intros b s' Hr Eo _. apply wp_ret, served_plain; try done.
  - by eapply running_rep.
  - intros x [cl Hx]. unfold held_words. rewrite Eo, Hobj; [done|right; by intros ->].
Qed.
Lemma wp_init_tsd s U : threads_rep s U → thread_op_ok s U TInitTSD → wp ab (run_thread TInitTSD) (served s U TInitTSD) s.
Proof.
  intros Hrep [Hph Ht]. cbn [run_thread]. unfold InitTSD. apply wp_bind, wp_bind, wp_gets. rewrite Ht. apply wp_bind, wp_tassert; [done|]. apply wp_act, wp_ret.
  destruct Hrep as [[Hu _]|(g & P & heaps & [S1 S2 S3] & HU)]; [rewrite (us_ph _ Hu) in Hph; done|]. apply served_plain; try done.
  right. exists g, P, heaps. split; [|done]. split; [by apply (ok_frame s)| |done]. destruct S2 as [L1 L2 L3 L4]. by split.
Qed.
(** A user stores to the first word of an object. *)
Definition store s x v : state := with_objects s (op_set_words (<[x := v]> (held_words s)) (objects_of s)).
Lemma store_words s x v : held_words (store s x v) = <[x := v]> (held_words s).
Proof. apply op_words_set. Qed.
Lemma running_store s U heaps x cl v : running s U heaps → U !! x = Some cl → running (store s x v) U heaps.
Proof.
  intros (g & P & [S1 S2 S3] & HU) Hx. pose proof (proj1 (HU _ _) Hx) as [HPx Hl]. exists g, P. split; [|done]. split; [|by destruct S2|done].
  apply (ok_objects s g P); [done|apply (op_write (objects_of s) P x v cl); [apply (ti_pool _ _ _ _ (tc_inv _ _ _ _ (tk_core _ _ _ _ S1)))|done]|].
  intros h k y Hh Hy. rewrite op_words_set. split; [done|]. apply lookup_insert_ne. intros ->. apply (Hl h k); [by apply elem_of_list_to_set|done].
Qed.
Lemma running_word s U heaps x cl : running s U heaps → U !! x = Some cl → is_Some (held_words s !! x).
Proof.
  intros (g & P & [S1 _ _] & HU) Hx. pose proof (proj1 (HU _ _) Hx) as [HPx _].
  apply (op_object _ _ _ _ (ti_pool _ _ _ _ (tc_inv _ _ _ _ (tk_core _ _ _ _ S1))) HPx).
Qed.
Lemma wp_write s U x v : threads_rep s U → thread_op_ok s U (TWrite x v) → wp ab (run_thread (TWrite x v)) (served s U (TWrite x v)) s.
Proof.
  intros [[_ ->]|(g & P & heaps & Hst & HU)] [cl Hx]; [by rewrite lookup_empty in Hx|]. assert (running s U heaps) as Hr by by exists g, P.
  destruct (running_word _ _ _ _ _ Hr Hx) as [w Hw]. cbn [run_thread]. unfold wp, SLL_SetNext. fold (held_words s). rewrite Hw. cbn [mbind outcome_bind].
  change (with_objects s _) with (store s x v). split; [by eapply running_rep, running_store|]. split; [apply store_words|done].
Qed.
Lemma wp_run_thread s U o : threads_rep s U → thread_op_ok s U o → wp ab (run_thread o) (served s U o) s.
Proof.
  destruct o; intros Hrep Hok; [by apply wp_allocate|by apply wp_free|by apply wp_sample|by apply wp_idle|by apply wp_flush|by apply wp_exit|by apply wp_init_tsd|by apply wp_write].
Qed.
Lemma threads_reachable_rep s U : threads_reachable s U → threads_rep s U.
Proof.
  induction 1 as [a w c Hw Hc|s U o r s' _ IH Hok E]; [left; by split|].
  pose proof (wp_run_thread s U o IH Hok) as Hwp. unfold wp in Hwp. rewrite E in Hwp. apply Hwp.
Qed.
Lemma threads_rep_separate s U : threads_rep s U → separate sm U.
Proof.
  intros [[_ ->]|(g & P & heaps & [[Hc _] _ _] & HU)] x y cl cl' Hx Hy; [by rewrite lookup_empty in Hx|].
  apply HU in Hx as [Hx _]. apply HU in Hy as [Hy _]. by eapply (op_separate _ _ (ti_pool _ _ _ _ (tc_inv _ _ _ _ Hc))).
Qed.

(** ** Statistics *)
(** The sum over the caches in the order of the list. *)
Definition hsum (φ : ThreadCache → Z) (m : gmap Z ThreadCache) heaps : Z :=
  foldr (λ h z, from_option φ 0 (m !! h) + z) 0 heaps.
Lemma hsum_wsum φ heaps : ∀ m : gmap Z ThreadCache, NoDup heaps → dom m = set_of heaps → hsum φ m heaps = wsum (λ _ t, φ t) m.
Proof.
  induction heaps as [|h heaps IH]; intros m Hnd Hd; [simpl; apply dom_empty_inv_L in Hd as ->; by rewrite wsum_empty|].
  apply NoDup_cons in Hnd as [Hh Hnd]. assert (is_Some (m !! h)) as [t Ht] by (apply elem_of_dom; rewrite Hd; apply elem_of_list_to_set; left).
  pose proof (wsum_delete (λ _ t, φ t) m h t Ht) as Hw. cbn beta in Hw. rewrite <- (IH (delete h m)) in Hw; [|done|].
  - cbn [hsum foldr]. rewrite Ht. simpl. assert (∀ l, h ∉ l → hsum φ (delete h m) l = hsum φ m l) as Hext; [|rewrite Hext in Hw by done; fold (hsum φ m heaps); lia].
    induction l as [|y l IHl]; intros Hl; [done|]. apply not_elem_of_cons in Hl as [? ?]. cbn [hsum foldr]. fold (hsum φ m l) (hsum φ (delete h m) l). by rewrite IHl, lookup_delete_ne by done.
  - rewrite dom_delete_L, Hd. apply set_eq. intros y. rewrite elem_of_difference, elem_of_singleton, !elem_of_list_to_set, elem_of_cons.
    split; [intros [[->|?] ?]; done|]. intros Hy. split; [by right|by intros ->].
Qed.
Lemma size_t_add a b : size_t (size_t a + b) = size_t (a + b).
Proof. unfold size_t. apply Zplus_mod_idemp_l. Qed.
Lemma size_t_add_r a b : size_t (a + size_t b) = size_t (a + b).
Proof. unfold size_t. apply Zplus_mod_idemp_r. Qed.
Lemma get_cache_ok h t s : caches s !! h = Some t → get_cache h s = Ok (t, s).
Proof. unfold get_cache. by intros ->. Qed.
Lemma thread_stats_ok s n : ∀ prev h heaps z, dlist (caches s) prev h heaps 0 → zlen heaps < Z.of_nat n →
  thread_stats sm n h (size_t z) None s = Ok ((size_t (z + hsum size_ (caches s) heaps), None), s).
Proof.
  induction n as [|n IH]; intros prev h heaps z Hd Hn; [pose proof (zlen_nonneg heaps); lia|]. cbn [thread_stats]. destruct heaps as [|x l].
  - simpl in Hd. subst h. cbn [hsum foldr]. by rewrite Z.add_0_r.
  - destruct Hd as (-> & Hx & t & Ht & _ & Hd). rewrite (proj2 (Z.eqb_neq x 0)) by done. erewrite M_bind_ok by by apply get_cache_ok.
    cbv zeta. rewrite M_bind_ret, size_t_add_r, size_t_add, (IH x (next_ t) l); [|exact Hd|rewrite zlen_cons in Hn; lia].
    cbn [hsum foldr]. rewrite Ht. simpl. by rewrite Z.add_assoc.
Qed.

(** ** The properties *)
(** C4. The thread caches over any pool of objects do, in every state that threads can
    bring them to from the start of the program, a step of the pool of users.  [Allocate] in
    the cache of a thread, which is made where it is missing, gives an object that no user
    has, or none when the pool is out of memory; what a thread frees, whoever took it,
    becomes available; what the other users hold keeps its contents, and no two objects
    overlap; a thread that becomes idle or exits has no cache after.  No assertion fails,
    no integer overflows, and no list is read where it has no object; the program stops
    only where the pool stops it. *)
Theorem threads_refine_users s U o : threads_reachable s U → thread_op_ok s U o →
  match run_thread o s with
  | Ok (r, s') => threads_reachable s' (users_after o r U) ∧ users_served s U o r s' ∧ separate sm (users_after o r U)
  | Throws OutOfMemory => True
  | Throws Aborted => op_ab (C := C) (sm := sm)
  | _ => False
  end.
Proof.
  intros Hr Hok. pose proof (wp_run_thread s U o (threads_reachable_rep s U Hr) Hok) as Hwp. unfold wp in Hwp.
  destruct (run_thread o s) as [[r s']| |[]|] eqn:E; try done. destruct Hwp as [Hrep Hserved].
  split; [by eapply threads_next|]. split; [done|]. by eapply threads_rep_separate.
Qed.

(** C5. The counters of a cache are exact in every state: [size_] is the number of bytes on
    its lists, each list has as many objects as its length says, all of its class, as
    the pool of the central lists has given them out, and none of them a user's; a list is at most 8192 long; and the limits of the caches with
    what is unclaimed make up the overall size.  All fit their 32 bits. *)
Theorem thread_caches_are_counted s U h t : threads_reachable s U → caches s !! h = Some t →
  size_ t = bytes sm t ∧ 0 ≤ size_ t ≤ INT_MAX ∧ 0 ≤ max_size_ t ≤ INT_MAX ∧
  (∃ P, op_rep (objects_of s) P ∧ U ⊆ P ∧
     ∀ cl, class_ok sm cl → ∃ f l, lists_ t !! Z.to_nat cl = Some f ∧ sll (held_words s) (list_ f) l ∧ zlen l = length_ f ∧
       length_ f ≤ kMaxDynamicFreeListLength ∧ lowater_ f ≤ length_ f ∧ ∀ x, x ∈ l → P !! x = Some cl ∧ U !! x = None) ∧
  unclaimed_cache_space_ (registry s) = overall_thread_cache_size_ (registry s) - wsum (λ _ t, max_size_ t) (caches s).
Proof.
  intros [[Hu _]|(g & P & heaps & [[Hc Hf] _ _] & HU)]%threads_reachable_rep Ht; [rewrite (us_caches _ Hu) in Ht; by apply lookup_empty_Some in Ht|].
  destruct (Hf h t Ht) as (Hct & Hb & _). pose proof (bounded_fits sm Hsm t Hct Hb). pose proof (bytes_nonneg sm Hsm t Hct).
  pose proof (budget_limit s h t (tc_budget _ _ _ _ Hc) (core_few _ _ _ _ Hc) Ht) as Hl. change kMaxLimit with 1610678272 in Hl. pose proof (ct_size _ _ Hct).
  split; [done|]. split; [lia|]. split; [unfold INT_MAX in *; lia|]. split; [|apply (bg_sum _ (tc_budget _ _ _ _ Hc))].
  exists P. split; [apply (ti_pool _ _ _ _ (tc_inv _ _ _ _ Hc))|].
  split; [apply map_subseteq_spec; intros x cl Hx; by apply HU in Hx as [? _]|]. intros cl Hcl.
  assert (h ∈ set_of heaps) as Hh by (rewrite <- (tc_dom _ _ _ _ Hc); by apply elem_of_dom_2 in Ht).
  assert (0 ≤ cl < num_size_classes sm) as Hcl' by (unfold class_ok in Hcl; lia). pose proof (tc_inv _ _ _ _ Hc) as Hi.
  destruct (tinv_list _ _ _ _ h t cl Hi Hh Ht Hcl') as (f & Hfl & [S1 S2 S3]). exists f, (g h cl). pose proof (ct_fl sm t cl f Hct Hcl' Hfl) as [O1 O2 _ _ _ _ _].
  split_and!; try done; [lia|lia|]. intros x Hx. split.
  - by apply (ti_class _ _ _ _ Hi h).
  - apply eq_None_not_Some. intros [k [_ Hk]%HU]. by apply (Hk h cl).
Qed.

(** [GetThreadStats] reports the bytes that the caches hold: it runs to the end of the
    list of caches, changes nothing, and its sum does not wrap. *)
Theorem thread_stats_are_exact s U : threads_reachable s U →
  GetThreadStats sm fuel 0 None s = Ok ((wsum (λ _ t, size_ t) (caches s), None), s) ∧
  0 ≤ wsum (λ _ t, size_ t) (caches s) < 2 ^ 64.
Proof.
  intros [[Hu _]|(g & P & heaps & [[Hc Hf] _ _] & HU)]%threads_reachable_rep.
  { rewrite (us_caches _ Hu), wsum_empty. split; [|done]. unfold GetThreadStats, get_registry, mbind, M_bind, gets. rewrite (us_registry _ Hu).
    destruct fuel; [done|reflexivity]. }
  pose proof (tc_reg _ _ _ _ Hc) as [R1 R2 R3 R4]. pose proof (tc_few _ _ _ _ Hc) as Hfew.
  assert (∀ h t, caches s !! h = Some t → 0 ≤ size_ t ≤ INT_MAX) as Hs.
  { intros h t Ht. destruct (Hf h t Ht) as (Hct & Hb & _). pose proof (bytes_nonneg sm Hsm t Hct). pose proof (ct_size _ _ Hct). pose proof (ct_fits _ _ Hct). lia. }
  assert (0 ≤ wsum (λ _ t, size_ t) (caches s) < 2 ^ 64) as Hr.
  { pose proof (wsum_nonneg (λ _ t, size_ t) (caches s) (λ h t Ht, proj1 (Hs h t Ht))). pose proof (wsum_bound (λ _ t, size_ t) (caches s) INT_MAX (λ h t Ht, proj2 (Hs h t Ht))) as Hb.
    pose proof (core_few _ _ _ _ Hc) as Hn. unfold few in Hn. change kMaxCaches with 1024 in Hn. unfold INT_MAX in *. nia. }
  split; [|done]. unfold GetThreadStats, get_registry. erewrite M_bind_ok by done.
  pose proof (thread_stats_ok s fuel 0 _ heaps 0 R1 ltac:(lia)) as E. change (size_t 0) with 0 in E. rewrite E, Z.add_0_l, hsum_wsum by (done || apply (tc_dom _ _ _ _ Hc)).
  by rewrite size_t_id.
Qed.

(** C6. No object is lost: each object that the central lists have given out is a user's,
    or else on the list of its class in some cache; never both. *)
Theorem no_object_is_lost s U : threads_reachable s U → phinited s = true →
  ∃ P, op_rep (objects_of s) P ∧ U ⊆ P ∧
    ∀ x cl, P !! x = Some cl → (U !! x = None ↔
      ∃ h t f l, caches s !! h = Some t ∧ lists_ t !! Z.to_nat cl = Some f ∧ sll (held_words s) (list_ f) l ∧ x ∈ l).
Proof.
  intros [[Hu _]|(g & P & heaps & [[Hc Hf] _ _] & HU)]%threads_reachable_rep Hph; [by rewrite (us_ph _ Hu) in Hph|].
  pose proof (tc_inv _ _ _ _ Hc) as Hi. pose proof (ti_pool _ _ _ _ Hi) as Hrep. exists P. split; [done|].
  assert (U ⊆ P) as Hsub by (apply map_subseteq_spec; intros x cl Hx; by apply HU in Hx as [? _]). split; [done|]. intros x cl Hx.
  destruct (op_object _ _ _ _ Hrep Hx) as [Hcl _]. assert (0 ≤ cl < num_size_classes sm) as Hcl' by (unfold class_ok in Hcl; lia). split.
  - intros Hn. destruct (decide (Exists (λ h, x ∈ g h cl) heaps)) as [(h & Hh & Hxh)%Exists_exists|Hno].
    + destruct (core_cache _ _ _ _ _ Hc Hh) as [t Ht]. assert (h ∈ set_of heaps) as Hh' by by apply elem_of_list_to_set.
      destruct (tinv_list _ _ _ _ h t cl Hi Hh' Ht Hcl') as (f & Hfl & [S1 _ _]). by exists h, t, f, (g h cl).
    + assert (U !! x = Some cl) as Hs; [|by rewrite Hs in Hn]. apply HU. split; [done|]. intros h k Hh Hxh. apply Hno, Exists_exists. exists h.
      assert (k = cl) as -> by (pose proof (ti_class _ _ _ _ Hi _ _ _ Hh Hxh); congruence). split; [by apply elem_of_list_to_set in Hh|done].
  - intros (h & t & f & l & Ht & Hfl & Hl & Hxl). apply eq_None_not_Some. intros [k [_ Hk]%HU].
    assert (h ∈ set_of heaps) as Hh by (rewrite <- (tc_dom _ _ _ _ Hc); by apply elem_of_dom_2 in Ht). destruct (tinv_list _ _ _ _ h t cl Hi Hh Ht Hcl') as (f' & Hfl' & [S1 _ _]).
    assert (f' = f) as -> by congruence. apply (Hk h cl Hh). by rewrite (sll_fun _ _ _ _ S1 Hl).
Qed.
End client.
