(* ===== verification/Malloc.v ===== *)
(** * The entry points of the allocator: [libs/tcmalloc/src/tcmalloc.cc]

    [malloc], [free] and their relatives find the class of a request, take an object
    of it from the cache of the thread, or pages from the page heap where no class
    is large enough or the request is sampled, and find out from an address what it
    is the start of.

    A byte of memory is in the word of an object, which is the link of a free one, where
    the state of the central lists has this word, and in [contents] otherwise.  What the
    bytes of a block are when it is given is left open by the code, and nothing is stated
    of them.  Emergency allocation is compiled out ([maybe_emergency_malloc.h]): it gives
    null, and owns no pointer. *)
From stdpp Require Import base numbers list option gmap.
From Stdlib Require Import ZArith Lia Floats.SpecFloat Strings.Byte.
From S2P Require Import Prelude CMem SizeMap PackedCache SpanList SpanHeap MetaData CentralFreeList ObjectPool Sampler ThreadCache ThreadClient.
Open Scope Z_scope.

Record StackTrace := mkTrace { traced_size : Z; depth : Z; stack : list Z }.
(** The static variables that [InitStaticVars] sets up.  [sampled_spans] has, for each
    span whose [sample] is 1, what [objects] points to; the links of these spans are in
    [sampled_objects_], under whose head no span is. *)
Record Statics (H A V : Type) := mkStatics {
  central : Central H;
  sampled_objects_ : links;
  sampled_spans : gmap Z Z;
  traces : gmap Z StackTrace;
  stacktrace_allocator : A;
  trace_memory : V;
}.
Arguments mkStatics {H A V}.
Arguments central {H A V} _.
Arguments sampled_objects_ {H A V} _.
Arguments sampled_spans {H A V} _.
Arguments traces {H A V} _.
Arguments stacktrace_allocator {H A V} _.
Arguments trace_memory {H A V} _.
Definition sampled_objects : Z := -1.

(** [errno] is that of each thread; [reports] is what [ReportLargeAlloc] writes: the
    pages and the result; [new_handler_] is what [std::set_new_handler] has installed, 0
    for none. *)
Record Malloc (C T W : Type) := mkMalloc {
  threads_of : Threads C T W;
  large_alloc_threshold : Z;
  tc_new_mode : Z;
  errno : gmap Z Z;
  reports : list (Z * Z);
  pagesize : Z;
  new_handler_ : Z;
  contents : Z → byte;
}.
Arguments mkMalloc {C T W}.
Arguments threads_of {C T W} _.
Arguments large_alloc_threshold {C T W} _.
Arguments tc_new_mode {C T W} _.
Arguments errno {C T W} _.
Arguments reports {C T W} _.
Arguments pagesize {C T W} _.
Arguments new_handler_ {C T W} _.
Arguments contents {C T W} _ _.

Section updates.
Context {H A V : Type}.
Implicit Types s : Statics H A V.
Definition with_central s (v : Central H) : Statics H A V :=
  mkStatics v (sampled_objects_ s) (sampled_spans s) (traces s) (stacktrace_allocator s) (trace_memory s).
Definition with_sampled s (l : links) (v : gmap Z Z) : Statics H A V :=
  mkStatics (central s) l v (traces s) (stacktrace_allocator s) (trace_memory s).
Definition with_traces s (t : gmap Z StackTrace) (a : A) (v : V) : Statics H A V :=
  mkStatics (central s) (sampled_objects_ s) (sampled_spans s) t a v.
Context {C T W : Type}.
Implicit Types m : Malloc C T W.
Definition with_threads m (v : Threads C T W) : Malloc C T W :=
  mkMalloc v (large_alloc_threshold m) (tc_new_mode m) (errno m) (reports m) (pagesize m) (new_handler_ m) (contents m).
Definition with_threshold m (v : Z) : Malloc C T W :=
  mkMalloc (threads_of m) v (tc_new_mode m) (errno m) (reports m) (pagesize m) (new_handler_ m) (contents m).
Definition with_new_mode m (v : Z) : Malloc C T W :=
  mkMalloc (threads_of m) (large_alloc_threshold m) v (errno m) (reports m) (pagesize m) (new_handler_ m) (contents m).
Definition with_errno m (v : gmap Z Z) : Malloc C T W :=
  mkMalloc (threads_of m) (large_alloc_threshold m) (tc_new_mode m) v (reports m) (pagesize m) (new_handler_ m) (contents m).
Definition with_reports m (v : list (Z * Z)) : Malloc C T W :=
  mkMalloc (threads_of m) (large_alloc_threshold m) (tc_new_mode m) (errno m) v (pagesize m) (new_handler_ m) (contents m).
Definition with_pagesize m (v : Z) : Malloc C T W :=
  mkMalloc (threads_of m) (large_alloc_threshold m) (tc_new_mode m) (errno m) (reports m) v (new_handler_ m) (contents m).
Definition with_new_handler m (v : Z) : Malloc C T W :=
  mkMalloc (threads_of m) (large_alloc_threshold m) (tc_new_mode m) (errno m) (reports m) (pagesize m) v (contents m).
Definition with_contents m (v : Z → byte) : Malloc C T W :=
  mkMalloc (threads_of m) (large_alloc_threshold m) (tc_new_mode m) (errno m) (reports m) (pagesize m) (new_handler_ m) v.
End updates.

(** ** Sizes *)
Definition align_size_up (size align : Z) : outcome Z :=
  _ ← check (align <=? kPageSize);
  let new_size := Z.land (size_t (size + align - 1)) (size_t (Z.lnot (size_t (align - 1)))) in
  mret (if new_size =? 0 then if size =? 0 then align else size else new_size).
Definition size_class_with_alignment (map : SizeMap) (size align : Z) : outcome (option Z) :=
  if kPageSize <? align then mret None else
  size ← align_size_up size align;
  cl ← GetSizeClass map size;
  match cl with
  | None => mret None
  | Some cl =>
      n ← class_to_size map cl;
      _ ← check (Z.land n (size_t (align - 1)) =? 0);
      mret (Some cl)
  end.

(** ** What an address belongs to *)
Section pages.
Context {H : Type} `{SpanHeap H}.
Abbreviation CM := (M (Central H)).
Implicit Types (ptr span : Z).
(** True for [kOwned]; addresses have 48 bits. *)
Definition GetOwnership ptr : CM bool :=
  let p := Z.shiftr ptr kPageShift in
  if 0 <? Z.shiftr p (48 - kPageShift) then mret false else
  cl ← TryGetSizeClass p;
  match cl with
  | Some _ => mret true
  | None => span ← MapObjectToSpan ptr; mret (negb (span =? 0))
  end.
Definition CheckCachedSizeClass ptr : CM bool :=
  cached_value ← TryGetSizeClass (Z.shiftr ptr kPageShift);
  match cached_value with
  | None => mret true
  | Some cached_value =>
      span ← MapObjectToSpan ptr;
      u ← load_span span;
      mret (cached_value =? u_class u)
  end.
Definition CheckedMallocResult (result : Z) : CM Z :=
  ok ← (if result =? 0 then mret true else CheckCachedSizeClass result);
  _ ← ASSERT ok;
  mret result.
Definition SpanToMallocResult span : CM Z :=
  u ← load_span span;
  _ ← InvalidateCachedSizeClass (u_start u);
  CheckedMallocResult (Z.shiftl (u_start u) kPageShift).

(** [while ((((span->start+skip) << kPageShift) & (align - 1)) != 0)] *)
Fixpoint skip_loop (fuel : nat) (start align skip : Z) : outcome Z :=
  match fuel with
  | O => NoFuel
  | S fuel =>
      if negb (Z.land (size_t (Z.shiftl (start + skip) kPageShift)) (size_t (align - 1)) =? 0)
      then skip_loop fuel start align (skip + 1)
      else mret skip
  end.
(** [Static::pageheap()] is the address of a static variable and never null, so the
    call of [InitModule] for a null one is not there. *)
Definition do_memalign_pages (align size : Z) : CM Z :=
  _ ← ASSERT (Z.land align (size_t (align - 1)) =? 0);
  _ ← ASSERT (kPageSize <? align);
  if size_t (size + align) <? size then mret 0 else
  let size := if size =? 0 then 1 else size in
  let alloc := pages (size_t (size + align)) in
  span ← on_heap (sh_new alloc);
  if span =? 0 then mret 0 else
  u ← load_span span;
  skip ← lift (skip_loop (S (Z.to_nat alloc)) (u_start u) align 0);
  _ ← ASSERT (skip <? alloc);
  span ← (if 0 <? skip then
            rest ← on_heap (sh_split span skip);
            _ ← on_heap (sh_delete span);
            mret rest
          else mret span);
  let needed := pages size in
  u ← load_span span;
  _ ← ASSERT (needed <=? u_pages u);
  _ ← (if needed <? u_pages u then
         trailer ← on_heap (sh_split span needed);
         on_heap (sh_delete trailer)
       else mret tt);
  SpanToMallocResult span.
End pages.

(** ** Sampled allocations *)
Section statics.
Context {H : Type} `{SpanHeap H} {A V : Type} `{!ObjAllocator A V}.
Variable sm : SizeMap.
Variable fuel : nat.
Abbreviation SM := (M (Statics H A V)).
Implicit Types (ptr span size : Z).
Definition on_central {B} (m : M (Central H) B) : SM B := λ s,
  '(b, c) ← m (central s); Ok (b, with_central s c).
Definition trace_new : SM Z := λ s,
  '(p, a, v) ← obj_new (stacktrace_allocator s) (trace_memory s);
  Ok (p, with_traces s (traces s) a v).
Definition trace_delete (st : Z) : SM unit := λ s,
  a ← obj_delete (stacktrace_allocator s) st;
  Ok (tt, with_traces s (delete st (traces s)) a (trace_memory s)).
Definition on_sampled (f : links → outcome links) : SM unit := λ s,
  l ← f (sampled_objects_ s); Ok (tt, with_sampled s l (sampled_spans s)).

(** The central lists are what the thread caches use. *)
Definition Statics_pool : ObjectPool (Statics H A V) := {|
  op_remove cl N := on_central (RemoveRange sm cl N);
  op_insert cl start end_ N := on_central (InsertRange sm fuel cl start end_ N);
  op_words s := memory (central s);
  op_set_words m s := with_central s (with_memory (central s) m);
|}.

(** [Static::InitStaticVars], where [sm] is what [SizeMap::Init] computes, and the page
    heap is in the state of its constructor. *)
Variable trace_Init : V → outcome (A * V).
Definition InitStaticVars : SM unit :=
  _ ← (λ s, '(a, v) ← trace_Init (trace_memory s); Ok (tt, with_traces s (traces s) a v));
  _ ← on_central (InitCentral sm);
  on_sampled (λ l, DLL_Init l sampled_objects).

(** What [GetStackTrace] writes to its buffer. *)
Variable GetStackTrace : list Z.
(** The fields [next] and [prev] of a span that the page heap gives are null, and it
    asserts so for a span that it takes back. *)
Definition DoSampledAllocation size : SM Z :=
  let tmp := mkTrace size (zlen GetStackTrace) GetStackTrace in
  span ← on_central (on_heap (sh_new (pages (if size =? 0 then 1 else size))));
  if span =? 0 then mret 0 else
  stack ← trace_new;
  if stack =? 0 then mret span else
  _ ← act (λ s, with_traces s (<[stack := tmp]> (traces s)) (stacktrace_allocator s) (trace_memory s));
  _ ← act (λ s, with_sampled s (<[span := (0, 0)]> (sampled_objects_ s)) (<[span := stack]> (sampled_spans s)));
  _ ← on_sampled (λ l, DLL_Prepend l sampled_objects span);
  on_central (SpanToMallocResult span).
Definition do_free_pages span : SM unit :=
  sample ← gets (λ s, sampled_spans s !! span);
  _ ← (match sample with
       | Some st =>
           _ ← on_sampled (λ l, DLL_Remove l span);
           trace_delete st
       | None => mret tt
       end);
  _ ← (λ s, lift (match sampled_objects_ s !! span with
                  | Some (next, prev) => check ((next =? 0) && (prev =? 0))
                  | None => mret tt
                  end) s);
  _ ← act (λ s, with_sampled s (delete span (sampled_objects_ s)) (delete span (sampled_spans s)));
  on_central (on_heap (sh_delete span)).
End statics.

(** ** The bytes of memory *)
(** A word has its least significant byte first. *)
Definition byte_of (w i : Z) : byte := z2b (w / 2 ^ (8 * i)).
Definition word_of (f : Z → byte) : Z := le_decode (f <$> seqZ 0 8).
Definition in_range (p n a : Z) : bool := (p <=? a) && (a <? p + n).
(** The word at [x] after [f] was stored to the [n] bytes from [p] on. *)
Definition overlay (p n : Z) (f : Z → byte) (x w : Z) : Z :=
  if (x + 8 <=? p) || (p + n <=? x) then w
  else word_of (λ i, if in_range p n (x + i) then f (x + i) else byte_of w i).
Section bytes.
Context {H A V T W : Type}.
Implicit Types s : Malloc (Statics H A V) T W.
Definition object_words s : words := memory (central (objects_of (threads_of s))).
Definition with_object_words s (v : words) : Malloc (Statics H A V) T W :=
  let c := objects_of (threads_of s) in
  with_threads s (with_objects (threads_of s) (with_central c (with_memory (central c) v))).
Definition read_byte s (a : Z) : byte :=
  match object_words s !! (8 * (a / 8)) with Some w => byte_of w (a mod 8) | None => contents s a end.
Definition store_bytes (p n : Z) (f : Z → byte) s : Malloc (Statics H A V) T W :=
  with_contents (with_object_words s (map_imap (λ x w, Some (overlay p n f x w)) (object_words s)))
    (λ a, if in_range p n a then f a else contents s a).
(** [memset(p, 0, n)] and [memcpy(dst, src, n)]. *)
Definition memset0 (p n : Z) : M (Malloc (Statics H A V) T W) unit := act (store_bytes p n (λ _, Byte.x00)).
Definition memcpy (dst src n : Z) : M (Malloc (Statics H A V) T W) unit :=
  act (λ s, store_bytes dst n (λ a, read_byte s (src + (a - dst))) s).
End bytes.

(** ** The operations *)
Definition EINVAL : Z := 22.
Definition ENOMEM : Z := 12.
(** What [new] returns or throws ([std::bad_alloc]). *)
Inductive allocated := Returned (ptr : Z) | BadAlloc.
(** The handlers for the lack of memory. *)
Inductive oom_handler := cpp_throw_oom | cpp_nothrow_oom | malloc_oom.

Section malloc.
Context {H : Type} `{SpanHeap H} {A V : Type} `{!ObjAllocator A V} {T W : Type} `{!ObjAllocator T W}.
(** What [SizeMap::Init] computes. *)
Variable sm : SizeMap.
Variables log2 log : spec_float → spec_float.
Variable sample_parameter : Z.
Variable tcb : option Z.
Variable trace_Init : V → outcome (A * V).
Variable allocator_Init : W → outcome (T * W).
Variable GetStackTrace : list Z.
Variable getpagesize : Z.
Variable fuel : nat.
Abbreviation State := (Malloc (Statics H A V) T W).
Abbreviation MM := (M State).
#[local] Instance statics_pool : ObjectPool (Statics H A V) := Statics_pool sm fuel.
Implicit Types (me ptr size : Z).

Definition on_threads {B} (m : M (Threads (Statics H A V) T W) B) : MM B := λ s,
  '(b, t) ← m (threads_of s); Ok (b, with_threads s t).
Definition on_statics {B} (m : M (Statics H A V) B) : MM B := on_threads (on_pool m).
Definition on_pages {B} (m : M (Central H) B) : MM B := on_statics (on_central m).
Definition IsInited : MM bool := gets (λ s, phinited (threads_of s)).
(** [Static::sizemap()], which holds zeroes before [SizeMap::Init]. *)
Definition sizemap : MM SizeMap := inited ← IsInited; mret (if inited : bool then sm else SizeMap_static).
Definition MASSERT (b : bool) : MM unit := lift (check b).
Definition set_errno me (e : Z) : MM unit := act (λ s, with_errno s (<[me := e]> (errno s))).

(** The hooks of the program. *)
Variables new_hooks_empty delete_hooks_empty : bool.
Variable InvokeNewHook : Z → Z → MM unit.
Variable InvokeDeleteHook : Z → MM unit.
(** What the new-handlers of the program do; false when it throws [std::bad_alloc]. *)
Variable call_handler : Z → MM bool.

(** *** Estimates *)
Definition InitModule_malloc : MM unit := on_threads (InitModule tcb (InitStaticVars sm trace_Init) allocator_Init fuel).
Definition nallocx_slow size (flags : Z) : MM Z :=
  inited ← IsInited;
  _ ← (if negb inited then InitModule_malloc else mret tt);
  let align := size_t (Z.shiftl 1 (Z.land flags 0x3f)) in
  map ← sizemap;
  ok ← lift (size_class_with_alignment map size align);
  match ok with
  | Some cl => lift (ByteSizeForClass map cl)
  | None => mret (size_t (Z.shiftl (pages size) kPageShift))
  end.
Definition tc_nallocx size (flags : Z) : MM Z :=
  if negb (flags =? 0) then nallocx_slow size flags else
  map ← sizemap;
  cl ← lift (GetSizeClass map size);
  match cl with
  | Some cl => if negb (cl =? 0) then lift (ByteSizeForClass map cl) else nallocx_slow size 0
  | None => nallocx_slow size 0
  end.

(** *** Pages *)
Definition ReportLargeAlloc (num_pages result : Z) : MM unit :=
  act (λ s, with_reports s (reports s ++ [(num_pages, result)])).
Definition should_report_large (num_pages : Z) : MM bool :=
  threshold ← gets large_alloc_threshold;
  if (0 <? threshold) && (Z.shiftr threshold kPageShift <=? num_pages) then
    next ← lift (i64 (threshold + Z.quot threshold 8));
    _ ← act (λ s, with_threshold s (if next <? Z.shiftl 8 30 then next else Z.shiftl 8 30));
    mret true
  else mret false.
Definition do_malloc_pages heap size : MM Z :=
  let num_pages := pages size in
  sampled ← on_threads (SampleAllocation log2 log sample_parameter heap size);
  result ← (if sampled : bool then on_statics (DoSampledAllocation GetStackTrace size)
            else
              span ← on_pages (on_heap (sh_new num_pages));
              if span =? 0 then mret 0 else on_pages (SpanToMallocResult span));
  report_large ← should_report_large num_pages;
  _ ← (if report_large : bool then ReportLargeAlloc num_pages result else mret tt);
  mret result.

(** *** [malloc] *)
Definition GetCache_malloc me : MM Z :=
  on_threads (GetCache sm log2 log sample_parameter tcb (InitStaticVars sm trace_Init) allocator_Init fuel me).
Definition IsUseEmergencyMalloc : MM bool := mret false.
(** [nop_oom_handler] gives null. *)
Definition do_malloc me size : MM Z :=
  emergency ← IsUseEmergencyMalloc;
  if emergency : bool then mret 0 else
  cache ← GetCache_malloc me;
  inited ← IsInited;
  _ ← MASSERT inited;
  _ ← MASSERT (negb (cache =? 0));
  map ← sizemap;
  cl ← lift (GetSizeClass map size);
  match cl with
  | None => do_malloc_pages cache size
  | Some cl =>
      allocated_size ← lift (class_to_size map cl);
      sampled ← on_threads (SampleAllocation log2 log sample_parameter cache allocated_size);
      if sampled : bool then on_statics (DoSampledAllocation GetStackTrace size) else
      r ← on_threads (Allocate sm cache allocated_size cl (λ _, mret 0));
      on_pages (CheckedMallocResult r)
  end.
(** [std::set_new_handler]. *)
Definition set_new_handler (nh : Z) : MM Z :=
  old ← gets new_handler_; _ ← act (λ s, with_new_handler s nh); mret old.
(** The loop of [handle_oom]. *)
Fixpoint oom_loop (n : nat) (retry : MM Z) (nothrow : bool) : MM allocated :=
  match n with
  | O => lift NoFuel
  | S n =>
      nh ← set_new_handler 0;
      _ ← set_new_handler nh;
      if nh =? 0 then mret (if nothrow then Returned 0 else BadAlloc) else
      returned ← call_handler nh;
      if negb returned then mret (if nothrow then Returned 0 else BadAlloc) else
      rv ← retry;
      if negb (rv =? 0) then mret (Returned rv) else oom_loop n retry nothrow
  end.
Definition handle_oom me (retry : MM Z) (from_operator nothrow : bool) : MM allocated :=
  _ ← set_errno me ENOMEM;
  mode ← gets tc_new_mode;
  if negb from_operator && (mode =? 0) then mret (Returned 0) else oom_loop fuel retry nothrow.
(** An exception that leaves a function which throws none ends the program. *)
Definition nothrow_result (r : allocated) : MM Z :=
  match r with Returned ptr => mret ptr | BadAlloc => lift (Throws Aborted) end.
Definition do_malloc_or_cpp_alloc me size : MM Z :=
  rv ← do_malloc me size;
  if negb (rv =? 0) then mret rv else
  r ← handle_oom me (do_malloc me size) false true; nothrow_result r.
Definition do_calloc me (n elem_size : Z) : MM Z :=
  let size := size_t (n * elem_size) in
  if negb (elem_size =? 0) && negb (size / elem_size =? n) then mret 0 else
  result ← do_malloc_or_cpp_alloc me size;
  _ ← (if negb (result =? 0) then memset0 result size else mret tt);
  mret result.

(** *** [free] *)
(** [IsEmergencyPtr] is false; [kCrash] ends the program. *)
Definition InvalidFree {X} (ptr : Z) : M X unit := lift (Throws Aborted).
Definition InvalidGetSizeForRealloc (old_ptr : Z) : MM Z := lift (Throws Aborted).
Definition InvalidGetAllocatedSize (ptr : Z) : MM Z := lift (Throws Aborted).
(** [free_object] is the rest, from [if (heap != NULL)] on. *)
Definition do_free_with_callback me ptr (use_hint : bool) (size_hint : Z) : MM unit :=
  let p := Z.shiftr ptr kPageShift in
  _ ← MASSERT (negb use_hint || (size_hint <? kPageSize));
  map ← sizemap;
  hinted ← (if use_hint then lift (GetSizeClass map size_hint) else mret None);
  cached ← (if use_hint then mret None else on_pages (TryGetSizeClass p));
  match (match hinted with Some cl => Some cl | None => cached end) with
  | Some cl => on_threads (free_object (sm := sm) InvalidFree me ptr cl)
  | None =>
      span ← on_pages (MapObjectToSpan ptr);
      if span =? 0 then (if negb (ptr =? 0) then InvalidFree ptr else mret tt) else
      u ← on_pages (load_span span);
      if u_class u =? 0 then
        _ ← MASSERT (ptr mod kPageSize =? 0);
        _ ← MASSERT (u_start u =? p);
        on_statics (do_free_pages span)
      else
        _ ← (if negb use_hint then on_pages (SetCachedSizeClass p (u_class u)) else mret tt);
        on_threads (free_object (sm := sm) InvalidFree me ptr (u_class u))
  end.
Definition do_free me ptr : MM unit := do_free_with_callback me ptr false 0.

(** *** Sizes of blocks *)
Definition GetSizeWithCallback ptr (invalid_getsize_fn : Z → MM Z) : MM Z :=
  if ptr =? 0 then mret 0 else
  map ← sizemap;
  cl ← on_pages (TryGetSizeClass (Z.shiftr ptr kPageShift));
  match cl with
  | Some cl => lift (ByteSizeForClass map cl)
  | None =>
      span ← on_pages (MapObjectToSpan ptr);
      if span =? 0 then invalid_getsize_fn ptr else
      u ← on_pages (load_span span);
      if negb (u_class u =? 0) then lift (ByteSizeForClass map (u_class u)) else
      sample ← on_statics (gets (λ s, sampled_spans s !! span));
      match sample with
      | Some st =>
          t ← on_statics (λ s, lift (match traces s !! st with Some t => Ok t | None => Undefined NullDeref end) s);
          tc_nallocx (traced_size t) 0
      | None => mret (size_t (Z.shiftl (u_pages u) kPageShift))
      end
  end.
Definition GetAllocatedSize ptr : MM Z :=
  if ptr =? 0 then mret 0 else
  owned ← on_pages (GetOwnership ptr);
  _ ← MASSERT owned;
  GetSizeWithCallback ptr InvalidGetAllocatedSize.
Definition MarkThreadBusy me : MM unit := p ← do_malloc me 0; do_free me p.

(** *** [realloc] *)
Definition do_realloc me (old_ptr new_size : Z) : MM Z :=
  old_size ← GetSizeWithCallback old_ptr InvalidGetSizeForRealloc;
  let min_growth := Z.min (old_size / 4) (2 ^ 64 - 1 - old_size) in
  let lower_bound_to_grow := old_size + min_growth in
  let upper_bound_to_shrink := old_size / 2 in
  if (old_size <? new_size) || (new_size <? upper_bound_to_shrink) then
    new_ptr ← (if (old_size <? new_size) && (new_size <? lower_bound_to_grow)
               then do_malloc_or_cpp_alloc me lower_bound_to_grow else mret 0);
    new_ptr ← (if new_ptr =? 0 then do_malloc_or_cpp_alloc me new_size else mret new_ptr);
    if new_ptr =? 0 then mret 0 else
    _ ← InvokeNewHook new_ptr new_size;
    _ ← memcpy new_ptr old_ptr (if old_size <? new_size then old_size else new_size);
    _ ← InvokeDeleteHook old_ptr;
    _ ← do_free_with_callback me old_ptr false 0;
    mret new_ptr
  else
    _ ← InvokeDeleteHook old_ptr;
    _ ← InvokeNewHook old_ptr new_size;
    mret old_ptr.

(** *** The exported functions *)
Definition run_oom (OOMHandler : oom_handler) me size : MM allocated :=
  match OOMHandler with
  | cpp_throw_oom => handle_oom me (do_malloc me size) true false
  | cpp_nothrow_oom => handle_oom me (do_malloc me size) true true
  | malloc_oom => handle_oom me (do_malloc me size) false true
  end.
(** What follows a handler that throws is not run. *)
Definition then_return (r : allocated) (k : Z → MM Z) : MM allocated :=
  match r with Returned ptr => ptr ← k ptr; mret (Returned ptr) | BadAlloc => mret BadAlloc end.
Definition do_allocate_full (OOMHandler : oom_handler) me size : MM allocated :=
  p ← do_malloc me size;
  r ← (if p =? 0 then run_oom OOMHandler me size else mret (Returned p));
  then_return r (λ p, _ ← InvokeNewHook p size; on_pages (CheckedMallocResult p)).
(** [Allocate] calls the handler last, with the size of the class. *)
Definition malloc_fast_path (OOMHandler : oom_handler) me size : MM allocated :=
  if negb new_hooks_empty then do_allocate_full OOMHandler me size else
  cache ← on_threads (GetFastPathCache me);
  if cache =? 0 then do_allocate_full OOMHandler me size else
  map ← sizemap;
  cl ← lift (GetSizeClass map size);
  match cl with
  | None => do_allocate_full OOMHandler me size
  | Some cl =>
      allocated_size ← lift (ByteSizeForClass map cl);
      recorded ← on_threads (ThreadCache_TryRecordAllocationFast cache allocated_size);
      if negb recorded then do_allocate_full OOMHandler me size else
      r ← on_threads (Allocate sm cache allocated_size cl (λ _, mret 0));
      r ← (if r =? 0 then run_oom OOMHandler me allocated_size else mret (Returned r));
      then_return r (λ p, on_pages (CheckedMallocResult p))
  end.
Definition memalign_pages me (align size : Z) (from_operator nothrow : bool) : MM allocated :=
  rv ← on_pages (do_memalign_pages align size);
  r ← (if rv =? 0 then handle_oom me (on_pages (do_memalign_pages align size)) from_operator nothrow
       else mret (Returned rv));
  then_return r (λ p, _ ← InvokeNewHook p size; on_pages (CheckedMallocResult p)).
Definition memalign_fast_path (OOMHandler : oom_handler) me (align size : Z) : MM allocated :=
  if kPageSize <? align then
    match OOMHandler with
    | cpp_throw_oom => memalign_pages me align size true false
    | cpp_nothrow_oom => memalign_pages me align size true true
    | malloc_oom => memalign_pages me align size false true
    end
  else
    n ← lift (align_size_up size align);
    malloc_fast_path OOMHandler me n.
Definition tc_malloc me size : MM Z := r ← malloc_fast_path malloc_oom me size; nothrow_result r.
Definition tc_new me size : MM allocated := malloc_fast_path cpp_throw_oom me size.
Definition tc_new_nothrow me size : MM Z := r ← malloc_fast_path cpp_nothrow_oom me size; nothrow_result r.
Definition tc_memalign me (align size : Z) : MM Z := r ← memalign_fast_path malloc_oom me align size; nothrow_result r.
(** The result, and what is stored to [*result_ptr]. *)
Definition tc_posix_memalign me (align size : Z) : MM (Z * option Z) :=
  if negb (align mod 8 =? 0) || negb (Z.land align (size_t (align - 1)) =? 0) || (align =? 0) then mret (EINVAL, None) else
  result ← tc_memalign me align size;
  mret (if result =? 0 then (ENOMEM, None) else (0, Some result)).
Definition system_pagesize : MM Z :=
  n ← gets pagesize;
  _ ← (if n =? 0 then act (λ s, with_pagesize s getpagesize) else mret tt);
  gets pagesize.
Definition tc_valloc me size : MM Z := n ← system_pagesize; tc_memalign me n size.
Definition tc_pvalloc me size : MM Z :=
  n ← system_pagesize;
  let size := if size =? 0 then n else size in
  let size := Z.land (size_t (size + n - 1)) (size_t (Z.lnot (size_t (n - 1)))) in
  tc_memalign me n size.
Definition tc_malloc_skip_new_handler me size : MM Z :=
  result ← do_malloc me size; _ ← InvokeNewHook result size; mret result.
Definition tc_calloc me (n elem_size : Z) : MM Z :=
  emergency ← IsUseEmergencyMalloc;
  if emergency : bool then mret 0 else
  result ← do_calloc me n elem_size;
  _ ← InvokeNewHook result (size_t (n * elem_size));
  mret result.
Definition invoke_hooks_and_free me ptr : MM unit := _ ← InvokeDeleteHook ptr; do_free me ptr.
Definition free_fast_path me ptr : MM unit :=
  if negb delete_hooks_empty then invoke_hooks_and_free me ptr else do_free me ptr.
Definition tc_free me ptr : MM unit := free_fast_path me ptr.
Definition tc_free_sized me ptr size : MM unit :=
  if negb delete_hooks_empty then invoke_hooks_and_free me ptr else
  if Z.land ptr (kPageSize - 1) =? 0 then tc_free me ptr else
  do_free_with_callback me ptr true size.
Definition tc_realloc me (old_ptr new_size : Z) : MM Z :=
  if old_ptr =? 0 then
    result ← do_malloc_or_cpp_alloc me new_size;
    _ ← InvokeNewHook result new_size;
    mret result
  else if new_size =? 0 then
    _ ← InvokeDeleteHook old_ptr;
    _ ← do_free me old_ptr;
    mret 0
  else do_realloc me old_ptr new_size.
Definition tc_malloc_size ptr : MM Z := GetAllocatedSize ptr.
Definition tc_set_new_mode (flag : Z) : MM Z :=
  old_mode ← gets tc_new_mode; _ ← act (λ s, with_new_mode s flag); mret old_mode.
Definition tc_query_new_mode : MM Z := gets tc_new_mode.
End malloc.

(** [FLAGS_tcmalloc_large_alloc_report_threshold] is compared as an unsigned number. *)
Definition initial_threshold (flag : Z) : Z := if size_t flag <? kPageSize then kPageSize else flag.
(** Before the first call. *)
Definition Statics_static {H A V} (h : H) (a : A) (v : V) : Statics H A V :=
  mkStatics (central_static h) {[sampled_objects := (0, 0)]} ∅ ∅ a v.
Definition Malloc_static {H A V T W} (flag : Z) (h : H) (a : A) (v : V) (t : T) (w : W) (bytes : Z → byte) : Malloc (Statics H A V) T W :=
  mkMalloc (Threads_static t w (Statics_static h a v)) (initial_threshold flag) 0 ∅ [] 0 0 bytes.
