(* ===== verification/MallocSizes.v ===== *)
(** * The size classes as the entry points of the allocator use them

    What [SizeMap::Init] computes, for requests of any size: the class of a request
    holds it, its objects are aligned as the request is, and they take no more pages
    than the request alone would. *)
From stdpp Require Import base numbers list option gmap.
From Stdlib Require Import ZArith Lia.
From S2P Require Import Prelude SizeMap SpanHeap CentralFreeList CentralLists CentralInit.
Open Scope Z_scope.

(** The pages of a request, and the bytes of these pages. *)
Lemma pages_ok n : 0 ≤ n < 2 ^ 64 → pages n = (n + 8191) / 8192.
Proof.
  intros Hn. unfold pages. rewrite Z.shiftr_div_pow2 by done. change (2 ^ kPageShift) with 8192. change (kPageSize - 1) with (Z.ones 13).
  rewrite Z.land_ones by done. change (2 ^ 13) with 8192. zcase; zdiv.
Qed.

Record request_class (sm : SizeMap) (s cl : Z) : Prop := {
  rc_class : class_ok sm cl;
  rc_holds : s ≤ csize sm cl;
  rc_pages : csize sm cl ≤ 8192 * ((Z.max 1 s + 8191) / 8192);
  rc_aligned j : 0 ≤ j ≤ 13 → s mod 2 ^ j = 0 → 0 < s → csize sm cl mod 2 ^ j = 0;
}.
Record malloc_sizes (sm : SizeMap) : Prop := {
  ms_ok : sizes_ok sm;
  ms_class s : 0 ≤ s ≤ kMaxSize → ∃ cl, GetSizeClass sm s = Ok (Some cl) ∧ request_class sm s cl;
}.
Lemma GetSizeClass_large sm s : kMaxSize < s → s < 2 ^ 64 → GetSizeClass sm s = Ok None.
Proof. intros Hs Hb. unfold GetSizeClass. rewrite ClassIndexMaybe_ok by (change kMaxSize with 262144 in *; lia). by rewrite (proj2 (Z.leb_gt _ _)). Qed.

Lemma malloc_sizes_computed sm : map_ok sm → computed (num_size_classes sm) (class_to_size_ sm) (class_to_pages_ sm) → sizes_ok sm → malloc_sizes sm.
Proof.
  intros Hm Hcomp Hok. split; [done|]. intros s Hs.
  destruct (map_class sm s Hm Hs) as (cl & Ec & Hc & Hin & _). pose proof (map_wf _ Hm) as Hwf. exists cl. split; [|split].
  - unfold GetSizeClass. rewrite ClassIndexMaybe_ok, (proj2 (Z.leb_le s _)) by lia. unfold SizeClass in Ec. rewrite ClassIndex_ok in Ec by lia.
    simpl in Ec. by rewrite Ec.
  - exact Hc.
  - apply Hin.
  - pose proof (comp_fits _ _ _ Hcomp cl Hc) as Hfit. destruct Hin as (_ & _ & Hprev). change kPageSize with 8192 in Hfit. fold (csize sm cl) in Hfit.
    etransitivity; [exact Hfit|]. pose proof (wf_range _ _ (cl - 1) Hwf ltac:(lia)). rewrite (Z.mul_comm 8192). apply Z.mul_le_mono_nonneg_r; [done|].
    assert (class_to_size_ sm @! (cl - 1) + 1 ≤ Z.max 1 s); [|zdiv]. destruct Hprev as [->|]; [|lia]. change (1 - 1) with 0. rewrite (wf_first _ _ Hwf). lia.
  - intros j Hj Hmod Hpos. destruct (Z.le_gt_cases 4 j); [apply (computed_multiple _ _ _ j cl s Hcomp); [lia|done..]|].
    destruct (wf_granularity _ _ Hwf cl ltac:(lia)) as [H8 _]. fold (csize sm cl) in H8. apply Z.mod_divide in H8 as [k Hk]; [|done]. rewrite Hk.
    apply Z.mod_divide; [lia|]. exists (k * 2 ^ (3 - j)). rewrite <- Z.mul_assoc, <- Z.pow_add_r by lia. by replace (3 - j + j) with 3 by lia.
Qed.
Lemma malloc_sizes_Init flag env fuel :
  1 ≤ InitTCMallocTransferNumObjects flag env → 33000 ≤ Z.of_nat fuel →
  ∃ sm, SizeMap_Init fuel (InitTCMallocTransferNumObjects flag env) SizeMap_static = Ok sm ∧ malloc_sizes sm.
Proof.
  intros Ht Hf. destruct (SizeMap_Init_computed fuel (InitTCMallocTransferNumObjects flag env)) as (sm & E & Hm & Hcomp & Hl & Hmv); [lia|done|].
  exists sm. split; [done|]. apply malloc_sizes_computed; [done|done|]. by apply (sizes_ok_computed sm (InitTCMallocTransferNumObjects flag env)).
Qed.
