(* ===== verification/MallocPages.v ===== *)
(** * Spans that are no objects

    The entry points of the allocator take spans from the page heap, and give them back,
    beside the central lists; these do not notice. *)
From stdpp Require Import base numbers list option gmap sets fin_maps fin_map_dom.
From Stdlib Require Import ZArith Lia.
From S2P Require Import Prelude SizeMap PackedCache SpanList SpanHeap CentralFreeList CentralLists.
From S2P Require Import CentralSpec CentralCaches CentralFetch CentralInit CentralPool ObjectPool.
From S2P Require Import MetaData Sampler Malloc MallocSizes.
Open Scope Z_scope.

Section pages.
Context {H : Type} `{SpanHeap H} `{!SpanHeapLaws H}.
Variable sm : SizeMap.
Hypothesis Hsm : sizes_ok sm.
Implicit Types (c : Central H) (L : gmap Z use) (P : pool) (W : places) (u : use) (p x : Z).
Abbreviation ab := (sh_ab (H := H)).

(** A span that the page heap has given to nobody who is known. *)
Definition loose c L p u : Prop := sh_used (pageheap c) !! p = Some u ∧ u_class u = 0 ∧ L !! p = None.

(** The spans with a size class stay as they are. *)
Lemma cinv_spans c W L L' h' : cinv sm c W L → sh_good h' → classed (sh_used h') = classed (sh_used (pageheap c)) →
  (∀ p u, L' !! p = Some u → L !! p = Some u ∧ sh_used h' !! p = Some u) → cinv sm (with_heap c h') W L'.
Proof.
  intros [I1 I2 I3 I4 I5 I6 (t & Ht & [E1 E2 E3])] Hg Hcl HL. split; simpl; rewrite ?Hcl; try done.
  exists t. split; [done|]. split; [|intros p u Hp; destruct (HL p u Hp) as [Hp' ?]; destruct (E2 p u Hp') as (? & ? & ?); done|done].
  intros p u x v Hp Hu. apply (E1 p u x v); [|done]. assert (classed (sh_used h') !! p = Some u) as Hc by by apply classed_lookup.
  rewrite Hcl in Hc. by apply classed_lookup in Hc as [? _].
Qed.
Lemma held_spans c W L h' x cl : cinv sm c W L → classed (sh_used h') = classed (sh_used (pageheap c)) →
  held_class (with_heap c h') W cl x ↔ held_class c W cl x.
Proof.
  intros Hc Hcl. pose proof (ci_objs _ _ _ _ Hc) as Ho. unfold held_class. simpl.
  split; intros (p & u & Hx & Hu & E); exists p, u; (split; [done|split; [|done]]);
    destruct (oo_span _ _ _ _ _ Ho _ _ _ Hx) as (v & Hv & _); pose proof Hv as Hv';
    apply classed_lookup in Hv' as [Hv' _]; [|rewrite <- Hcl in Hv; apply classed_lookup in Hv as [Hv _]].
  - rewrite <- Hcl in Hv. apply classed_lookup in Hv as [Hv _]. congruence.
  - congruence.
Qed.
Lemma pool_spans c L L' P h' : pool_rep sm L c P → sh_good h' → classed (sh_used h') = classed (sh_used (pageheap c)) →
  (∀ p u, L' !! p = Some u → L !! p = Some u ∧ sh_used h' !! p = Some u) → pool_rep sm L' (with_heap c h') P.
Proof.
  intros (W & Hc & HP) Hg Hcl HL. exists W. split; [by eapply cinv_spans|]. intros x cl. rewrite HP. symmetry. by eapply held_spans.
Qed.
(** The first two of the conditions are those of a heap of the same spans with a size class. *)
Lemma pool_large c L P p u : pool_rep sm L c P → L !! p = Some u → sh_used (pageheap c) !! p = Some u ∧ u_class u = 0.
Proof. intros (W & [_ _ _ _ _ _ (t & _ & Ht)] & _) Hp. by destruct (en_large _ _ _ Ht p u Hp) as (? & ? & _). Qed.
Lemma pool_good c L P : pool_rep sm L c P → sh_good (pageheap c).
Proof. intros (W & Hc & _). apply (ci_heap _ _ _ _ Hc). Qed.

Lemma wp_take_pages c L P n (Q : Z → Central H → Prop) : pool_rep sm L c P → 0 < n < 2 ^ 63 →
  (∀ c', pool_rep sm L c' P → memory c' = memory c → Q 0 c') →
  (∀ r u c', pool_rep sm L c' P → memory c' = memory c → loose c' L r u → u_pages u = n → Q r c') →
  wp ab (on_heap (sh_new n)) Q c.
Proof.
  intros Hp Hn HQ0 HQ1. pose proof (pool_good _ _ _ Hp) as Hg. apply wp_on_heap. eapply wp_mono; [by apply sh_new_spec|].
  intros r h' (Hg' & [(-> & Hu)|(Hr & st & Hu)]).
  - apply HQ0; [|done]. apply (pool_spans c L L); rewrite ?Hu; try done. intros p u Hl. split; [done|]. by eapply pool_large.
  - assert (L !! r = None) as HLr.
    { apply eq_None_not_Some. intros [u Hl]. destruct (pool_large _ _ _ _ _ Hp Hl). congruence. }
    apply (HQ1 r (mkUse st n 0)); [|done| |done].
    + apply (pool_spans c L L); rewrite ?Hu; try done; [by apply classed_large|]. intros p u Hl. split; [done|].
      rewrite lookup_insert_ne; [by eapply pool_large|congruence].
    + split; [|done]. simpl. by rewrite Hu, lookup_insert_eq.
Qed.
Lemma wp_delete_span c L P p u (Q : () → Central H → Prop) : pool_rep sm L c P → loose c L p u →
  (∀ c', pool_rep sm L c' P → memory c' = memory c → (∀ q v, q ≠ p → loose c L q v → loose c' L q v) → Q tt c') →
  wp ab (on_heap (sh_delete p)) Q c.
Proof.
  intros Hp (Hu & Hcl & HL) HQ. pose proof (pool_good _ _ _ Hp) as Hg. apply wp_on_heap. eapply wp_mono; [by eapply sh_delete_spec|].
  intros [] h' (Hg' & Hu'). apply HQ; [|done|].
  - apply (pool_spans c L L); rewrite ?Hu'; try done.
    + rewrite classed_delete. apply delete_id. apply eq_None_not_Some. intros [v [Hv Hn]%classed_lookup]. congruence.
    + intros q v Hq. split; [done|]. rewrite lookup_delete_ne; [by eapply pool_large|congruence].
  - intros q v Hne (H1 & H2 & H3). split; [|done]. simpl. by rewrite Hu', lookup_delete_ne.
Qed.
Lemma wp_split_span c L P p u n (Q : Z → Central H → Prop) : pool_rep sm L c P → loose c L p u → 0 < n < u_pages u →
  (∀ r c', pool_rep sm L c' P → memory c' = memory c → p ≠ r → loose c' L p (mkUse (u_start u) n 0) →
     loose c' L r (mkUse (u_start u + n) (u_pages u - n) 0) → Q r c') →
  wp ab (on_heap (sh_split p n)) Q c.
Proof.
  intros Hp (Hu & Hcl & HL) Hn HQ. pose proof (pool_good _ _ _ Hp) as Hg. apply wp_on_heap. eapply wp_mono; [by eapply sh_split_spec|].
  intros r h' (Hg' & Hr & Hu'). assert (p ≠ r) as Hne by congruence.
  assert (L !! r = None) as HLr.
  { apply eq_None_not_Some. intros [v Hl]. destruct (pool_large _ _ _ _ _ Hp Hl). congruence. }
  apply HQ; [|done|done|..].
  - apply (pool_spans c L L); rewrite ?Hu'; try done.
    + apply map_eq. intros q. apply option_eq. intros v. rewrite !classed_lookup, !lookup_insert_Some.
      split; [intros [[[<- <-]|[_ [[<- <-]|[_ ?]]]] ?]; done|]. intros [Hq Hv]. split; [|done]. right. split; [congruence|]. right. split; [congruence|done].
    + intros q v Hq. split; [done|]. rewrite !lookup_insert_ne by congruence. by eapply pool_large.
  - split; [|done]. simpl. by rewrite Hu', lookup_insert_eq.
  - split; [|done]. simpl. by rewrite Hu', lookup_insert_ne, lookup_insert_eq.
Qed.

(** ** A span becomes a block of pages, and is one no more *)
Lemma pool_page_cache c L P : pool_rep sm L c P → ∃ t, cache_holds (pagemap_cache_ c) t ∧ entries_ok t (sh_used (pageheap c)) L.
Proof. intros (W & Hc & _). apply (ci_cache _ _ _ _ Hc). Qed.
Lemma try_get c t x : cache_holds (pagemap_cache_ c) t → key_ok kPageBits x → TryGetSizeClass x c = Ok (table_get t x, c).
Proof. intros Ht Hx. unfold TryGetSizeClass, lift. by rewrite (TryGet_spec _ _ t). Qed.
Lemma use_key c p u : sh_good (pageheap c) → sh_used (pageheap c) !! p = Some u → key_ok kPageBits (u_start u).
Proof. intros Hg Hp. pose proof (sh_range _ _ _ Hg Hp). unfold key_ok. lia. Qed.
Lemma start_page z : Z.shiftr (8192 * z) kPageShift = z.
Proof. rewrite Z.shiftr_div_pow2 by done. change (2 ^ kPageShift) with 8192. rewrite Z.mul_comm. by apply Z.div_mul. Qed.
Lemma shiftl_page z : Z.shiftl z kPageShift = 8192 * z.
Proof. rewrite Z.shiftl_mul_pow2 by done. change (2 ^ kPageShift) with 8192. lia. Qed.

(** What is found out from the start of a block of pages. *)
Record found_pages c u p : Prop := {
  fp_span : MapObjectToSpan (8192 * u_start u) c = Ok (p, c);
  fp_load : load_span p c = Ok (u, c);
  fp_cached : TryGetSizeClass (u_start u) c = Ok (None, c);
  fp_pos : 0 < p;
  fp_start : 1 ≤ u_start u;
  fp_pages : 1 ≤ u_pages u;
  fp_end : u_start u + u_pages u ≤ 2 ^ kPageBits;
}.
Lemma pages_found c L P p u : pool_rep sm L c P → L !! p = Some u → found_pages c u p.
Proof.
  intros Hp HL. pose proof (pool_good _ _ _ Hp) as Hg. destruct (pool_large _ _ _ _ _ Hp HL) as [Hu Hcl].
  destruct (pool_page_cache _ _ _ Hp) as (t & Ht & [_ E2 _]). destruct (E2 p u HL) as (_ & _ & En).
  pose proof (sh_range _ _ _ Hg Hu) as (? & ? & ? & ?). split; try done.
  - unfold MapObjectToSpan, lift. rewrite start_page, (sh_descriptor_spec _ p u); [done..|unfold has_page; lia|by right].
  - unfold load_span, lift. by rewrite (sh_load_spec _ _ _ Hg Hu).
  - rewrite (try_get c t); [by rewrite En|done|]. by eapply use_key.
Qed.
Lemma null_found c L P : pool_rep sm L c P → MapObjectToSpan 0 c = Ok (0, c) ∧ TryGetSizeClass 0 c = Ok (None, c).
Proof.
  intros Hp. destruct (pool_page_cache _ _ _ Hp) as (t & Ht & [_ _ En]). split.
  - unfold MapObjectToSpan, lift. change (Z.shiftr 0 kPageShift) with 0. by rewrite sh_null by by eapply pool_good.
  - rewrite (try_get c t); [by rewrite En|done|done].
Qed.

(** Where objects are: in the pages of a span that has their class. *)
Lemma object_place c L P x cl : pool_rep sm L c P → P !! x = Some cl →
  ∃ q u, sh_used (pageheap c) !! q = Some u ∧ u_class u = cl ∧ small_use sm u ∧ x ∈ objs sm u.
Proof.
  intros (W & Hc & HP) Hx. apply HP in Hx as (q & u & Hx & Hu & <-).
  destruct (outside_intro sm Hsm c W L x q Held Hc Hx) as (u' & s & f & [_ _ U1 _ _ _ _ U2 U3 _ _]); [done|].
  assert (u' = u) as -> by congruence. by exists q, u.
Qed.
Lemma object_aligned c L P x cl j : pool_rep sm L c P → P !! x = Some cl → 0 ≤ j ≤ 13 → csize sm cl mod 2 ^ j = 0 → x mod 2 ^ j = 0.
Proof.
  intros Hp Hx Hj Hm. destruct (object_place _ _ _ _ _ Hp Hx) as (q & u & _ & <- & _ & (i & _ & ->)%elem_of_objs). unfold object_at.
  assert (2 ^ j ≠ 0) as Hn by (apply Z.pow_nonzero; lia). apply Z.mod_divide; [done|]. apply Z.divide_add_r.
  - apply Z.divide_mul_l. change 8192 with (2 ^ 13). exists (2 ^ (13 - j)). rewrite <- Z.pow_add_r by lia. f_equal. lia.
  - apply Z.divide_mul_r. by apply Z.mod_divide.
Qed.
Lemma use_apart c L P p q u v x y n m : pool_rep sm L c P → sh_used (pageheap c) !! p = Some u → sh_used (pageheap c) !! q = Some v → p ≠ q →
  8192 * u_start u ≤ x → x + n ≤ 8192 * (u_start u + u_pages u) → 8192 * u_start v ≤ y → y + m ≤ 8192 * (u_start v + u_pages v) →
  x + n ≤ y ∨ y + m ≤ x.
Proof.
  intros Hp Hu Hv Hne Hx1 Hx2 Hy1 Hy2. pose proof (pool_good _ _ _ Hp) as Hg. pose proof (sh_range _ _ _ Hg Hu). pose proof (sh_range _ _ _ Hg Hv).
  destruct (Z.le_gt_cases (u_start u + u_pages u) (u_start v)); [left; lia|]. destruct (Z.le_gt_cases (u_start v + u_pages v) (u_start u)); [right; lia|].
  exfalso. apply Hne, (sh_apart _ Hg p q u v (Z.max (u_start u) (u_start v))); try done; unfold has_page; lia.
Qed.
(** The words of objects are all that the memory has: none is in a block but at its start,
    and none in a block of pages. *)
Lemma word_object c L P y : pool_rep sm L c P → is_Some (memory c !! y) →
  ∃ q v, sh_used (pageheap c) !! q = Some v ∧ u_class v ≠ 0 ∧ small_use sm v ∧ y ∈ objs sm v.
Proof.
  intros (W & Hc & _) Hy. pose proof (ci_objs _ _ _ _ Hc) as Ho. apply (oo_mem _ _ _ _ _ Ho) in Hy as [[q pl] Hw].
  destruct (oo_span _ _ _ _ _ Ho _ _ _ Hw) as (v & Hcl & Hx). pose proof Hcl as [Hv Hn]%classed_lookup.
  exists q, v. split; [done|]. split; [done|]. split; [by apply (oo_use _ _ _ _ _ Ho q)|done].
Qed.
Lemma words_apart_object c L P x cl y : pool_rep sm L c P → P !! x = Some cl → is_Some (memory c !! y) →
  y = x ∨ y + 8 ≤ x ∨ x + csize sm cl ≤ y.
Proof.
  intros Hp Hx Hy. destruct (object_place _ _ _ _ _ Hp Hx) as (p & u & Hu & <- & Hsu & Hox). destruct (word_object _ _ _ _ Hp Hy) as (q & v & Hv & Hn & Hsv & Hoy).
  pose proof (class_sizes_of sm Hsm _ (proj1 Hsv)) as [_ _ _ Hsz _ _ _ _ _ _].
  destruct (decide (p = q)) as [<-|Hne].
  - assert (v = u) as -> by congruence. destruct (Z.lt_trichotomy y x) as [Hlt|[->|Hlt]]; [right; left|by left|right; right].
    + pose proof (objs_apart sm Hsm u y x Hsu Hoy Hox Hlt). lia.
    + by apply (objs_apart sm Hsm u).
  - pose proof (object_in_pages sm Hsm u x Hsu Hox). pose proof (object_in_pages sm Hsm v y Hsv Hoy). right.
    destruct (use_apart c L P q p v u y x 8 (csize sm (u_class u))); (done || congruence || lia).
Qed.
Lemma words_apart_pages c L P p u y : pool_rep sm L c P → L !! p = Some u → is_Some (memory c !! y) →
  y + 8 ≤ 8192 * u_start u ∨ 8192 * (u_start u + u_pages u) ≤ y.
Proof.
  intros Hp HL Hy. destruct (pool_large _ _ _ _ _ Hp HL) as [Hu Hcl]. destruct (word_object _ _ _ _ Hp Hy) as (q & v & Hv & Hn & Hsv & Hoy).
  pose proof (class_sizes_of sm Hsm _ (proj1 Hsv)) as [_ _ _ Hsz _ _ _ _ _ _]. pose proof (object_in_pages sm Hsm v y Hsv Hoy).
  destruct (use_apart c L P q p v u y (8192 * u_start u) 8 (8192 * u_pages u)); (done || congruence || lia).
Qed.

Lemma pool_forget c L P p : pool_rep sm L c P → pool_rep sm (delete p L) c P.
Proof.
  intros (W & [I1 I2 I3 I4 I5 I6 (t & Ht & [E1 E2 E3])] & HP). exists W. split; [|done]. split; try done.
  exists t. split; [done|]. split; [done| |done]. intros q u [_ Hq]%lookup_delete_Some. by apply E2.
Qed.
Lemma pool_forget_loose c L P p u : pool_rep sm L c P → L !! p = Some u → loose c (delete p L) p u.
Proof. intros Hp HL. destruct (pool_large _ _ _ _ _ Hp HL). split; [done|]. split; [done|]. apply lookup_delete_eq. Qed.
Lemma table_put_none t k x : table_get (table_put t k None) x = if decide (x = k) then None else if decide (Hash x = Hash k) then None else table_get t x.
Proof.
  unfold table_get, table_put. destruct (Z.eqb_spec (Hash x) (Hash k)) as [E|E]; cbn [fmap option_fmap option_map].
  - repeat case_decide; done.
  - rewrite decide_False by congruence. by rewrite decide_False.
Qed.
Lemma pool_claim c L P p u : pool_rep sm L c P → loose c L p u →
  ∃ k, InvalidateCachedSizeClass (u_start u) c = Ok (tt, with_class_cache c k) ∧ pool_rep sm (<[p := u]> L) (with_class_cache c k) P.
Proof.
  intros Hp (Hu & Hcl & HL). pose proof (pool_good _ _ _ Hp) as Hg. destruct Hp as (W & [I1 I2 I3 I4 I5 I6 (t & Ht & [E1 E2 E3])] & HP).
  destruct (Invalidate_spec kPageBits (pagemap_cache_ c) t (u_start u)) as (k & E & Hk); [done|done|by eapply use_key|].
  exists k. split; [unfold InvalidateCachedSizeClass; by rewrite E|]. exists W. split; [|done]. split; try done.
  exists (table_put t (u_start u) None). split; [done|]. split.
  - intros q v x w Hq Hv Hx. rewrite table_put_none. repeat case_decide; try done. by apply (E1 q v x w).
  - intros q v [[<- <-]|[Hne Hq]]%lookup_insert_Some.
    + split; [done|]. split; [done|]. rewrite table_put_none, decide_True; done.
    + destruct (E2 q v Hq) as (H1 & H2 & H3). split_and!; try done. rewrite table_put_none. by repeat case_decide.
  - rewrite table_put_none. by repeat case_decide.
Qed.

(** [CheckedMallocResult] does nothing for the start of a block. *)
Lemma checked_ok (Q : Z → Central H → Prop) c r : r = 0 ∨ CheckCachedSizeClass r c = Ok (true, c) → Q r c → wp ab (CheckedMallocResult r) Q c.
Proof.
  intros Hr HQ. unfold CheckedMallocResult. apply wp_bind. destruct (Z.eqb_spec r 0) as [->|Hn].
  - apply wp_ret, wp_bind, wp_assert; [done|]. by apply wp_ret.
  - destruct Hr as [|Hr]; [done|]. unfold wp at 1. rewrite Hr. apply wp_bind, wp_assert; [done|]. by apply wp_ret.
Qed.
Lemma check_pages c L P p u : pool_rep sm L c P → L !! p = Some u → CheckCachedSizeClass (8192 * u_start u) c = Ok (true, c).
Proof.
  intros Hp HL. destruct (pages_found _ _ _ _ _ Hp HL) as [_ _ F _ _ _ _]. unfold CheckCachedSizeClass. rewrite start_page.
  by erewrite M_bind_ok by exact F.
Qed.
Lemma check_object c L P x cl : pool_rep sm L c P → P !! x = Some cl → CheckCachedSizeClass x c = Ok (true, c).
Proof.
  intros Hp Hx. destruct (pool_rep_object sm Hsm L c P x cl Hp Hx) as (Hcl & _). pose proof (class_sizes_of sm Hsm cl Hcl) as [_ _ _ Hs _ _ _ _ _ _].
  destruct (object_found sm Hsm L c P x cl x Hp Hx) as (p & u & k & [F1 F2 F3 F4 F5 _ _ _ _]); [lia|].
  unfold CheckCachedSizeClass. erewrite M_bind_ok by exact F3. destruct F4 as [-> | ->]; [done|].
  erewrite M_bind_ok by exact F1. erewrite M_bind_ok by exact F2. by rewrite F5, Z.eqb_refl.
Qed.
Lemma wp_SpanToMallocResult c L P p u (Q : Z → Central H → Prop) : pool_rep sm L c P → loose c L p u →
  (∀ c', pool_rep sm (<[p := u]> L) c' P → memory c' = memory c → Q (8192 * u_start u) c') → wp ab (SpanToMallocResult p) Q c.
Proof.
  intros Hp Hl HQ. unfold SpanToMallocResult. apply wp_bind, (wp_load_span _ p u); [by eapply pool_good|apply Hl|].
  destruct (pool_claim _ _ _ _ _ Hp Hl) as (k & E & Hp'). apply wp_bind. unfold wp at 1. rewrite E, shiftl_page.
  apply checked_ok; [right|by apply HQ]. eapply check_pages; [done|]. apply lookup_insert_eq.
Qed.

(** The cache of size classes learns the class of an object. *)
Lemma wp_SetCachedSizeClass c L P x cl (Q : () → Central H → Prop) : pool_rep sm L c P → P !! x = Some cl →
  (∀ c', pool_rep sm L c' P → memory c' = memory c → Q tt c') → wp ab (SetCachedSizeClass (Z.shiftr x kPageShift) cl) Q c.
Proof.
  intros Hp Hx HQ. pose proof (pool_good _ _ _ Hp) as Hg. destruct (pool_rep_object sm Hsm L c P x cl Hp Hx) as (Hcl & _).
  pose proof (class_sizes_of sm Hsm cl Hcl) as [_ _ _ Hs _ _ _ _ _ _]. pose proof (so_classes _ Hsm) as [_ Hmax]. change kClassSizesMax with 96 in Hmax.
  destruct Hp as (W & [I1 I2 I3 I4 I5 I6 (t & Ht & [E1 E2 E3])] & HP). pose proof (proj1 (HP x cl) Hx) as (p & u & Hpl & Hu & Eu).
  destruct (outside_intro sm Hsm c W L x p Held ltac:(split; try done; by exists t) Hpl) as (u' & s & f & [_ _ U1 _ _ _ _ U2 U3 _ _]); [done|].
  assert (u' = u) as -> by congruence. destruct (object_page sm Hsm u x U2 U3) as [Hpg _]. set (y := Z.shiftr x kPageShift) in *.
  pose proof (sh_range _ _ _ Hg Hu) as (_ & Hst & _ & Hend). unfold class_ok in Hcl.
  destruct (Put_spec kPageBits (pagemap_cache_ c) t y cl) as (k & E & Hk); [done|done|unfold key_ok, has_page in *; lia|change (2 ^ kValuebits) with 128; lia|].
  unfold wp, SetCachedSizeClass. rewrite (proj2 (Z.eqb_neq cl 0)) by lia. cbn [negb check mbind outcome_bind]. rewrite E. cbn [mbind outcome_bind].
  apply HQ; [|done]. exists W. split; [|done]. split; try done. exists (table_put t y (Some cl)). split; [done|].
  assert (∀ z, z ≠ y → table_get (table_put t y (Some cl)) z = table_get t z ∨ table_get (table_put t y (Some cl)) z = None) as Hz.
  { intros z Hne. unfold table_get, table_put. destruct (Hash z =? Hash y); [right|by left]. simpl. by rewrite (proj2 (Z.eqb_neq y z)). }
  assert (table_get (table_put t y (Some cl)) y = Some cl) as Hy.
  { unfold table_get, table_put. rewrite Z.eqb_refl. simpl. by rewrite Z.eqb_refl. }
  split.
  - intros q v z w Hq Hv Hzp Hw. destruct (decide (z = y)) as [->|Hne].
    + assert (q = p) as -> by (by apply (sh_apart _ Hg q p v u y)). simpl in Hq. rewrite Hu in Hq. injection Hq as <-. rewrite Hy in Hw. by injection Hw as <-.
    + destruct (Hz z Hne) as [E'|E']; rewrite E' in Hw; [|done]. by apply (E1 q v z w).
  - intros q v Hq. destruct (E2 q v Hq) as (H1 & H2 & H3). split_and!; try done. destruct (decide (u_start v = y)) as [Ey|Hne].
    + exfalso. pose proof (sh_range _ _ _ Hg H1). assert (p = q) as <-.
      { apply (sh_apart _ Hg p q u v y); [done..|]. unfold has_page. lia. }
      assert (u = v) as -> by congruence. lia.
    + destruct (Hz _ Hne) as [-> | ->]; done.
  - destruct (Hz 0) as [-> | ->]; [|done..]. unfold has_page in Hpg. lia.
Qed.

(** ** Aligned blocks of pages *)
Lemma land_pow x j : 0 ≤ j ≤ 63 → Z.land x (size_t (2 ^ j - 1)) = x mod 2 ^ j.
Proof.
  intros Hj. assert (0 < 2 ^ j ≤ 2 ^ 63) by (split; [by apply Z.pow_pos_nonneg; lia|apply Z.pow_le_mono_r; lia]).
  unfold size_t. rewrite Z.mod_small by lia. rewrite <- Z.land_ones by lia. f_equal. rewrite Z.ones_equiv. lia.
Qed.
Lemma land_high x j : 0 ≤ j ≤ 63 → 0 ≤ x < 2 ^ 64 → Z.land x (size_t (Z.lnot (size_t (2 ^ j - 1)))) = x - x mod 2 ^ j.
Proof.
  intros Hj Hx. assert (0 < 2 ^ j ≤ 2 ^ 63) by (split; [by apply Z.pow_pos_nonneg; lia|apply Z.pow_le_mono_r; lia]).
  assert (size_t (2 ^ j - 1) = Z.ones j) as -> by (rewrite size_t_id, Z.ones_equiv by lia; lia).
  unfold size_t. rewrite <- (Z.land_ones _ 64) by done. rewrite (Z.land_comm _ (Z.ones 64)), Z.land_assoc, Z.land_ones, (Z.mod_small x), <- Z.ldiff_land by done.
  rewrite Z.ldiff_ones_r, Z.shiftr_div_pow2, Z.shiftl_mul_pow2 by lia. pose proof (Z.div_mod x (2 ^ j)). lia.
Qed.
(** A size is rounded up to a multiple of the alignment, except where this is out of
    range. *)
Lemma align_size_up_ok size j : 0 ≤ j ≤ 13 → 0 ≤ size < 2 ^ 64 →
  ∃ m, align_size_up size (2 ^ j) = Ok m ∧ size ≤ m < 2 ^ 64 ∧ 0 < m ∧ (m mod 2 ^ j = 0 ∨ kMaxSize < m).
Proof.
  intros Hj Hs. assert (1 ≤ 2 ^ j ≤ 2 ^ 13) as Hb by (split; [change 1 with (2 ^ 0)|]; apply Z.pow_le_mono_r; lia). change (2 ^ 13) with 8192 in Hb.
  unfold align_size_up. rewrite (proj2 (Z.leb_le _ _)) by (change kPageSize with 8192; lia). cbn [check mbind outcome_bind]. cbv zeta.
  rewrite land_high by (lia || apply Z.mod_pos_bound; lia). set (a := size_t (size + 2 ^ j - 1)). pose proof (Z.mod_pos_bound a (2 ^ j) ltac:(lia)) as Hr.
  assert ((a - a mod 2 ^ j) mod 2 ^ j = 0) as Hm by (rewrite Zminus_mod, Zmod_mod, Z.sub_diag; done).
  destruct (Z.lt_ge_cases (size + 2 ^ j - 1) (2 ^ 64)) as [Hlt|Hge].
  - assert (a = size + 2 ^ j - 1) as Ea by (apply size_t_id; lia). zcase.
    + assert (size = 0) as -> by lia. change (0 =? 0) with true. cbv iota. exists (2 ^ j). rewrite Z.mod_same by lia. split; [done|]. split; [lia|]. split; [lia|by left].
    + eexists. split; [done|]. split; [lia|]. split; [|by left]. pose proof (Z.mod_pos_bound a (2 ^ j)). lia.
  - assert (a = size + 2 ^ j - 1 - 2 ^ 64) as Ea by (unfold a, size_t; rewrite <- (Z.mod_add _ (-1)) by done; rewrite Z.mod_small; lia).
    assert (a mod 2 ^ j = a) as -> by (apply Z.mod_small; lia). rewrite Z.sub_diag. change (0 =? 0) with true. cbv iota. rewrite (proj2 (Z.eqb_neq size 0)) by lia.
    exists size. change kMaxSize with 262144. split; [done|]. split; [lia|]. split; [lia|right; lia].
Qed.
Lemma pow_13 k : 0 ≤ k → 2 ^ (13 + k) = 8192 * 2 ^ k.
Proof. intros Hk. by rewrite Z.pow_add_r. Qed.
Lemma page_misaligned a k : 0 ≤ k ≤ 50 → 0 ≤ a < 2 ^ 51 →
  (Z.land (size_t (Z.shiftl a kPageShift)) (size_t (2 ^ (13 + k) - 1)) =? 0) = (a mod 2 ^ k =? 0).
Proof.
  intros Hk Ha. rewrite land_pow by lia. rewrite shiftl_page. unfold size_t. rewrite (Z.mod_small (8192 * a)) by lia.
  rewrite pow_13, Z.mul_mod_distr_l by (done || lia || (apply Z.pow_nonzero; lia)).
  destruct (Z.eqb_spec (a mod 2 ^ k) 0) as [->|Hn]; [done|]. apply Z.eqb_neq. lia.
Qed.
Lemma skip_loop_ok k start T : 0 ≤ k ≤ 50 → 0 ≤ start → start + T < 2 ^ 51 → (start + T) mod 2 ^ k = 0 →
  ∀ n skip, 0 ≤ skip ≤ T → T < skip + Z.of_nat n → (∀ i, skip ≤ i < T → (start + i) mod 2 ^ k ≠ 0) →
  skip_loop n start (2 ^ (13 + k)) skip = Ok T.
Proof.
  intros Hk Hs Hb HT. induction n as [|n IH]; intros skip Hskip Hn Hmin; [lia|]. cbn [skip_loop].
  rewrite page_misaligned by lia. destruct (decide (skip = T)) as [->|Hne].
  - rewrite HT. done.
  - rewrite (proj2 (Z.eqb_neq _ 0)) by (apply Hmin; lia). cbn [negb]. apply IH; [lia|lia|]. intros i Hi. apply Hmin. lia.
Qed.
(** The first page from [start] on whose number is a multiple of [b]. *)
Lemma first_multiple start b : 0 < b →
  0 ≤ (- start) mod b < b ∧ (start + (- start) mod b) mod b = 0 ∧ ∀ i, 0 ≤ i < (- start) mod b → (start + i) mod b ≠ 0.
Proof.
  intros Hb. pose proof (Z.mod_pos_bound (- start) b Hb) as Hr. split; [done|].
  split; [rewrite Zplus_mod_idemp_r, Z.add_opp_diag_r; apply Z.mod_0_l; lia|].
  intros i Hi E. apply Z.mod_divide in E as [q Hq]; [|lia]. assert ((- start) mod b = i mod b) as E'.
  { replace (- start) with (i + (- q) * b) by lia. by rewrite Z.mod_add by lia. }
  rewrite (Z.mod_small i) in E' by lia. lia.
Qed.
Lemma pages_plus size k : 1 ≤ size → 0 ≤ k → size + 8192 * 2 ^ k < 2 ^ 64 → pages (size + 8192 * 2 ^ k) = 2 ^ k + pages size.
Proof.
  intros Hs Hk Hb. assert (0 < 2 ^ k) by (apply Z.pow_pos_nonneg; lia). rewrite !pages_ok by lia.
  replace (size + 8192 * 2 ^ k + 8191) with (size + 8191 + 2 ^ k * 8192) by lia. rewrite Z.div_add by done. lia.
Qed.
Lemma pages_range n : 1 ≤ n < 2 ^ 64 → 1 ≤ pages n ≤ 2 ^ 51.
Proof. intros Hn. rewrite pages_ok by lia. zdiv. Qed.

(** The two ends of a span that are not needed go back; what is left is loose. *)
Lemma wp_cut_front c L P p u skip (Q : Z → Central H → Prop) : pool_rep sm L c P → loose c L p u → 0 ≤ skip < u_pages u →
  (∀ q c', pool_rep sm L c' P → memory c' = memory c → loose c' L q (mkUse (u_start u + skip) (u_pages u - skip) 0) → Q q c') →
  wp ab (if 0 <? skip then rest ← on_heap (sh_split p skip); _ ← on_heap (sh_delete p); mret rest else mret p) Q c.
Proof.
  intros Hp Hl Hs HQ. apply wp_if; intros E; [apply Z.ltb_lt in E|apply Z.ltb_ge in E].
  - apply wp_bind. eapply wp_split_span; [exact Hp|exact Hl|lia|]. intros r c1 Hp1 Hm1 Hne Hl1 Hr.
    apply wp_bind. eapply wp_delete_span; [exact Hp1|exact Hl1|]. intros c2 Hp2 Hm2 Hk. apply wp_ret, HQ; [done|congruence|by apply Hk].
  - apply wp_ret, HQ; [done|done|]. replace skip with 0 by lia. rewrite Z.add_0_r, Z.sub_0_r. destruct Hl as (H1 & H2 & H3). destruct u. by simpl in *; subst.
Qed.
Lemma wp_cut_back c L P p u needed (Q : () → Central H → Prop) : pool_rep sm L c P → loose c L p u → 0 < needed ≤ u_pages u →
  (∀ c', pool_rep sm L c' P → memory c' = memory c → loose c' L p (mkUse (u_start u) needed 0) → Q tt c') →
  wp ab (if needed <? u_pages u then trailer ← on_heap (sh_split p needed); on_heap (sh_delete trailer) else mret tt) Q c.
Proof.
  intros Hp Hl Hs HQ. apply wp_if; intros E; [apply Z.ltb_lt in E|apply Z.ltb_ge in E].
  - apply wp_bind. eapply wp_split_span; [exact Hp|exact Hl|lia|]. intros r c1 Hp1 Hm1 Hne Hl1 Hr.
    eapply wp_delete_span; [exact Hp1|exact Hr|]. intros c2 Hp2 Hm2 Hk. apply HQ; [done|congruence|by apply Hk].
  - apply wp_ret, HQ; [done|done|]. replace needed with (u_pages u) by lia. destruct Hl as (H1 & H2 & H3). destruct u. by simpl in *; subst.
Qed.
Lemma wp_do_memalign_pages c L P k size (Q : Z → Central H → Prop) : pool_rep sm L c P → 1 ≤ k ≤ 50 → 0 ≤ size < 2 ^ 64 →
  (∀ c', pool_rep sm L c' P → memory c' = memory c → Q 0 c') →
  (∀ p u c', L !! p = None → pool_rep sm (<[p := u]> L) c' P → memory c' = memory c → u_start u mod 2 ^ k = 0 →
     u_pages u = pages (Z.max 1 size) → Q (8192 * u_start u) c') →
  wp ab (do_memalign_pages (2 ^ (13 + k)) size) Q c.
Proof.
  intros Hp Hk Hsz HQ0 HQ1. unfold do_memalign_pages. pose proof (pow_13 k ltac:(lia)) as E13.
  assert (2 ≤ 2 ^ k) as Hk2 by (change 2 with (2 ^ 1) at 1; apply Z.pow_le_mono_r; lia).
  apply wp_bind, wp_assert; [rewrite land_pow by lia; by rewrite Z.mod_same by lia|].
  apply wp_bind, wp_assert; [change kPageSize with 8192; apply Z.ltb_lt; lia|].
  assert (2 ^ k ≤ 2 ^ 50) as Hkb by (apply Z.pow_le_mono_r; lia).
  apply wp_if; intros Eov; [apply wp_ret; by apply HQ0|]. cbv zeta. set (size' := if size =? 0 then 1 else size).
  assert (size' = Z.max 1 size) as Es by (unfold size'; zcase; lia).
  assert (size' + 8192 * 2 ^ k < 2 ^ 64) as Hfit.
  { apply Z.ltb_ge in Eov. rewrite E13 in Eov. unfold size_t in Eov. destruct (Z.lt_ge_cases (size + 8192 * 2 ^ k) (2 ^ 64)); [lia|].
    rewrite <- (Z.mod_add _ (-1)) in Eov by lia. rewrite Z.mod_small in Eov by lia. lia. }
  rewrite E13, size_t_id, pages_plus by lia. pose proof (pages_range size' ltac:(lia)) as Hpg.
  apply wp_bind. eapply wp_take_pages; [exact Hp|lia|..].
  { intros c' Hp' Hm'. apply wp_if; intros E; [|done]. apply wp_ret. by apply HQ0. }
  intros r u c1 Hp1 Hm1 Hl1 Hu1. pose proof (pool_good _ _ _ Hp1) as Hg1. pose proof (sh_range _ _ _ Hg1 (proj1 Hl1)) as (Hr0 & Hst & _ & Hend).
  change (2 ^ kPageBits) with (2 ^ 35) in Hend. rewrite (proj2 (Z.eqb_neq r 0)) by lia.
  apply wp_bind, (wp_load_span _ r u); [done|apply Hl1|].
  destruct (first_multiple (u_start u) (2 ^ k) ltac:(lia)) as (HT & HTm & HTmin). set (T := (- u_start u) mod 2 ^ k) in *.
  apply wp_bind, (wp_lift _ _ T).
  { rewrite <- E13. apply skip_loop_ok; try done; try lia. }
  apply wp_bind, wp_assert; [apply Z.ltb_lt; lia|]. apply wp_bind. eapply wp_cut_front; [exact Hp1|exact Hl1|lia|].
  intros q c2 Hp2 Hm2 Hl2. apply wp_bind, (wp_load_span _ q (mkUse (u_start u + T) (u_pages u - T) 0)); [by eapply pool_good|apply Hl2|].
  cbn [u_pages]. apply wp_bind, wp_assert; [apply Z.leb_le; lia|]. apply wp_bind.
  eapply (wp_cut_back _ L P q (mkUse (u_start u + T) (u_pages u - T) 0)); [exact Hp2|exact Hl2|cbn [u_pages]; lia|].
  intros c3 Hp3 Hm3 Hl3. eapply wp_SpanToMallocResult; [exact Hp3|exact Hl3|]. intros c4 Hp4 Hm4.
  apply (HQ1 q _ c4); [apply Hl3|exact Hp4|congruence|exact HTm|]. cbn [u_pages]. by rewrite Es.
Qed.
End pages.
