(* ===== verification/MallocPool.v ===== *)
(** * The central lists with the sampled allocations beside them

    [Statics] is a pool of objects for the thread caches whatever spans the entry points
    hold: [L] are these spans, and [G] the sizes of the requests for which some of them
    were sampled. *)
From stdpp Require Import base numbers list option gmap sets fin_maps fin_map_dom.
From Stdlib Require Import ZArith Lia.
From S2P Require Import Prelude SizeMap PackedCache SpanList SpanHeap SystemAlloc MetaData CentralFreeList CentralLists.
From S2P Require Import CentralSpec CentralCaches CentralFetch CentralInit CentralPool ObjectPool.
From S2P Require Import Sampler ThreadCache Malloc MallocSizes MallocPages.
Open Scope Z_scope.

Section statics.
Context {H : Type} `{SpanHeap H} `{!SpanHeapLaws H}.
Context {V : Type} `{SysAllocLaws V} {A : Type} `{!ObjAllocator A V} `{!ObjAllocatorLaws A V}.
Variable sm : SizeMap.
Variable fuel : nat.
Implicit Types (s : Statics H A V) (L : gmap Z use) (G : gmap Z Z) (P : pool) (u : use) (p x : Z).
Abbreviation ab := (sh_ab (H := H)).

(** The sampled spans are on the list, and only they have links. *)
Definition links_ok (st : links) G : Prop := ∃ l, circular st sampled_objects l ∧ (∀ p, p ∈ l ↔ is_Some (G !! p)) ∧
  ∀ p, is_Some (st !! p) → p ∈ sampled_objects :: l.
Record sampling_ok s L G : Prop := {
  sp_links : links_ok (sampled_objects_ s) G;
  sp_span p : is_Some (sampled_spans s !! p) → is_Some (G !! p);
  sp_trace p n : G !! p = Some n → is_Some (L !! p) ∧
    ∃ st t, sampled_spans s !! p = Some st ∧ traces s !! st = Some t ∧ traced_size t = n;
  sp_inj p q st : sampled_spans s !! p = Some st → sampled_spans s !! q = Some st → p = q;
  sp_wf : sa_wf (trace_memory s);
  sp_alloc : oa_rep (stacktrace_allocator s) (trace_memory s) (dom (traces s));
  sp_size : size (traces s) = size G;
}.
Definition statics_rep L G s P : Prop := pool_rep sm L (central s) P ∧ sampling_ok s L G.

Lemma wp_on_central {B} (m : M (Central H) B) (Q : B → Statics H A V → Prop) s :
  wp ab m (λ b c, Q b (with_central s c)) (central s) → wp ab (on_central m) Q s.
Proof. unfold wp, on_central. by destruct (m (central s)) as [[]| |[]|]. Qed.
Lemma sampling_central s L G c : sampling_ok s L G → sampling_ok (with_central s c) L G.
Proof. by intros []. Qed.

(** ** The pool *)
Section laws.
Hypothesis Hsm : sizes_ok sm.
Hypothesis fuel_enough : 2 ^ 17 < Z.of_nat fuel.
Variable L : gmap Z use.
Variable G : gmap Z Z.
#[local] Instance central_ops : ObjectPool (Central H) := Central_pool sm fuel.
#[local] Instance central_laws : ObjectPoolLaws (Central H) sm := Central_pool_laws sm fuel Hsm fuel_enough L.
Program Definition Statics_pool_laws : @ObjectPoolLaws (Statics H A V) (Statics_pool sm fuel) sm := {|
  op_rep := statics_rep L G;
  op_ab := ab;
  op_empty s := no_span sm (central s);
|}.
Next Obligation. done. Qed.
Next Obligation. by intros [[]]. Qed.
Next Obligation. intros s P x cl [Hp _]. by apply (pool_rep_object sm Hsm L). Qed.
Next Obligation. intros s P [Hp _]. by eapply pool_rep_separate. Qed.
Next Obligation. intros s P x v cl [Hp Hs] Hx. split; [by apply (@op_write (Central H) central_ops sm central_laws (central s) P x v cl)|by apply sampling_central]. Qed.
Next Obligation.
  intros s P cl N [Hp Hs] Hcl HN. apply wp_on_central. eapply wp_mono; [by apply (@op_remove_spec (Central H) central_ops sm central_laws (central s) P cl N)|].
  intros r c' (P' & ? & ? & ?). exists P'. split; [|done]. split; [done|by apply sampling_central].
Qed.
Next Obligation.
  intros s P cl start end_ l [Hp Hs] Hl Hlast Hin Hlen. apply wp_on_central.
  eapply wp_mono; [by apply (@op_insert_spec (Central H) central_ops sm central_laws (central s) P cl start end_ l)|].
  intros [] c' (P' & ? & ?). exists P'. split; [|done]. split; [done|by apply sampling_central].
Qed.
End laws.

(** ** Spans of the entry points *)
Hypothesis Hsm : sizes_ok sm.
(** The words of the objects stay. *)
Definition words_of s : words := memory (central s).
Lemma sampling_more s L L' G : sampling_ok s L G → (∀ p, is_Some (G !! p) → is_Some (L !! p) → is_Some (L' !! p)) → sampling_ok s L' G.
Proof. intros [I1 I3 I4 I5 I6 I7 I8] HL. split; try done. intros p n Hp. destruct (I4 p n Hp) as [? ?]. split; [|done]. apply HL; [by eexists|done]. Qed.
Lemma sampled_in s L G p : sampling_ok s L G → is_Some (G !! p) → is_Some (L !! p).
Proof. intros Hs [n Hn]. by apply (sp_trace _ _ _ Hs) in Hn as [? _]. Qed.
(** A span that nobody knows is not sampled. *)
Lemma unsampled s L G p : sampling_ok s L G → L !! p = None → G !! p = None.
Proof. intros Hs HL. apply eq_None_not_Some. intros Hg. apply (sampled_in _ _ _ _ Hs) in Hg as [? ?]. congruence. Qed.
Lemma loose_plain s L G p u : sampling_ok s L G → loose (central s) L p u → G !! p = None.
Proof. intros Hs (_ & _ & HL). by eapply unsampled. Qed.

Lemma wp_new_loose s L G P n (Q : Z → Statics H A V → Prop) : statics_rep L G s P → 0 < n < 2 ^ 63 →
  (∀ s', statics_rep L G s' P → words_of s' = words_of s → Q 0 s') →
  (∀ r u s', statics_rep L G s' P → words_of s' = words_of s → 0 < r → loose (central s') L r u → u_pages u = n → Q r s') →
  wp ab (on_central (on_heap (sh_new n))) Q s.
Proof.
  intros [Hp Hs] Hn HQ0 HQ1. apply wp_on_central. eapply wp_take_pages; [exact Hp|done|..].
  - intros c' Hp' Hm. apply HQ0; [split; [done|by apply sampling_central]|done].
  - intros r u c' Hp' Hm Hl Hu. apply (HQ1 r u); try done; [split; [done|by apply sampling_central]|].
    by apply (sh_range _ _ _ (pool_good _ _ _ _ Hp') (proj1 Hl)).
Qed.
(** A loose span becomes a block. *)
Lemma wp_to_result s L G P p u (Q : Z → Statics H A V → Prop) : statics_rep L G s P → loose (central s) L p u →
  (∀ s', statics_rep (<[p := u]> L) G s' P → words_of s' = words_of s → Q (8192 * u_start u) s') →
  wp ab (on_central (SpanToMallocResult p)) Q s.
Proof.
  intros [Hp Hs] Hl HQ. apply wp_on_central. eapply wp_SpanToMallocResult; [exact Hp|exact Hl|].
  intros c' Hp' Hm. apply HQ; [split; [done|]|done]. eapply sampling_more; [by apply sampling_central|].
  intros q _ Hq. apply lookup_insert_is_Some'. by right.
Qed.

(** *** Sampling *)
Lemma not_head L s P p u : pool_rep sm L (central s) P → sh_used (pageheap (central s)) !! p = Some u → p ≠ sampled_objects.
Proof. intros Hp Hu. pose proof (sh_range _ _ _ (pool_good _ _ _ _ Hp) Hu). unfold sampled_objects. lia. Qed.
(** The links when one more span is sampled, and one less. *)
Lemma links_add st G p n : links_ok st G → G !! p = None → p ≠ sampled_objects →
  ∃ st', DLL_Prepend (<[p := (0, 0)]> st) sampled_objects p = Ok st' ∧ links_ok st' (<[p := n]> G).
Proof.
  intros (l & Hc & Hl & Hd) Hp Hne. assert (p ∉ l) as Hpl by (rewrite Hl, Hp; by intros [? ?]).
  assert (p ∉ sampled_objects :: l) as Hpn by (rewrite not_elem_of_cons; done).
  destruct (DLL_Prepend_spec (<[p := (0, 0)]> st) sampled_objects l p) as (st' & E & Hc' & Hfr); [|apply lookup_insert_eq|done|].
  { eapply circular_frame; [|exact Hc]. intros x Hx. apply lookup_insert_ne. by intros ->. }
  exists st'. split; [done|]. exists (p :: l). split; [done|]. split.
  - intros q. rewrite elem_of_cons, Hl, lookup_insert_is_Some'. by rewrite (eq_comm p q).
  - intros q Hq. destruct (decide (q ∈ sampled_objects :: p :: l)) as [|Hn]; [done|exfalso]. rewrite Hfr in Hq by done.
    rewrite !not_elem_of_cons in Hn. rewrite lookup_insert_ne in Hq by (by intros ->; destruct Hn as (? & ? & ?)). apply Hd in Hq. rewrite elem_of_cons in Hq. tauto.
Qed.
Lemma links_remove st G p : links_ok st G → is_Some (G !! p) →
  ∃ st', DLL_Remove st p = Ok st' ∧ st' !! p = Some (0, 0) ∧ links_ok (delete p st') (delete p G).
Proof.
  intros (l & Hc & Hl & Hd) Hp. apply Hl in Hp as Hpl. apply list_elem_of_split in Hpl as (l1 & l2 & ->).
  destruct (DLL_Remove_spec _ _ _ _ _ Hc) as (st' & E & Hc' & Hp' & Hfr). exists st'. split; [done|]. split; [done|].
  assert (p ∉ sampled_objects :: l1 ++ l2) as Hn.
  { destruct Hc as [_ Hnd]. rewrite app_comm_cons in Hnd. apply NoDup_app in Hnd as (_ & Hdis & [Hx _]%NoDup_cons).
    rewrite app_comm_cons, not_elem_of_app. split; [|done]. intros Hy. apply (Hdis _ Hy). left. }
  exists (l1 ++ l2). split; [eapply circular_frame; [|exact Hc']; intros x Hx; apply lookup_delete_ne; by intros ->|]. split.
  - intros q. rewrite lookup_delete_is_Some, <- Hl, !elem_of_app, elem_of_cons. rewrite not_elem_of_cons, not_elem_of_app in Hn.
    split; [intros Hq; split; [intros ->; tauto|tauto]|]. intros [Hne [?|[?|?]]]; [by left|congruence|by right].
  - intros q [Hne Hq]%lookup_delete_is_Some. destruct (decide (q ∈ sampled_objects :: l1 ++ p :: l2)) as [Hin|Hout].
    + rewrite elem_of_cons, elem_of_app, elem_of_cons in Hin. rewrite elem_of_cons, elem_of_app. destruct Hin as [?|[?|[?|?]]]; [by left|by right; left|congruence|by right; right].
    + rewrite Hfr in Hq by done. by apply Hd in Hq.
Qed.

(** The result of a request for [n] bytes that is sampled. *)
Lemma wp_DoSampledAllocation st s L G P n (Q : Z → Statics H A V → Prop) : statics_rep L G s P → 0 ≤ n < 2 ^ 64 →
  Z.of_nat (size G) < INT_MAX →
  (∀ s', statics_rep L G s' P → words_of s' = words_of s → Q 0 s') →
  (∀ p u s', L !! p = None → statics_rep (<[p := u]> L) (<[p := n]> G) s' P → words_of s' = words_of s → u_pages u = pages (Z.max 1 n) → Q (8192 * u_start u) s') →
  wp ab (DoSampledAllocation st n) Q s.
Proof.
  intros Hr Hn Hfew HQ0 HQ1. unfold DoSampledAllocation. cbv zeta.
  replace (if n =? 0 then 1 else n) with (Z.max 1 n) by (zcase; lia). pose proof (pages_range (Z.max 1 n) ltac:(lia)) as Hpg.
  apply wp_bind. eapply wp_new_loose; [exact Hr|lia|..].
  { intros s1 Hr1 Hw1. apply wp_if; intros E; [|done]. apply wp_ret. by apply HQ0. }
  intros r u s1 [Hp1 Hs1] Hw1 Hr0 Hl1 Hu. rewrite (proj2 (Z.eqb_neq r 0)) by lia. pose proof (loose_plain _ _ _ _ _ Hs1 Hl1) as HG.
  pose proof (not_head _ _ _ _ _ Hp1 (proj1 Hl1)) as Hne. destruct Hs1 as [I1 I2 I3 I4 I5 I6 I7]. apply wp_bind. unfold wp at 1, trace_new.
  destruct (oa_new (stacktrace_allocator s1) (trace_memory s1) (dom (traces s1)) I5 I6) as [->|(t & a & v & -> & Hv & _ & Ht0 & Hnt & Ha)]; [by rewrite size_dom, I7|done|].
  cbn [mbind outcome_bind]. rewrite (proj2 (Z.eqb_neq t 0)) by lia. apply wp_bind, wp_act, wp_bind, wp_act, wp_bind.
  destruct (links_add _ _ r n I1 HG Hne) as (l' & El & Hl'). unfold wp at 1, on_sampled. simpl. rewrite El. cbn [mbind outcome_bind]. set (s2 := with_sampled _ _ _).
  assert (∀ q st', sampled_spans s1 !! q = Some st' → st' ≠ t ∧ q ≠ r) as Hold.
  { intros q st' Hq. assert (is_Some (G !! q)) as [m Hm] by (apply I2; by eexists). split; [|intros ->; congruence].
    destruct (I3 q m Hm) as (_ & st2 & tr & H1' & H2' & _). intros ->. apply Hnt. apply elem_of_dom. replace t with st2 by congruence. by eexists. }
  apply wp_on_central. eapply wp_SpanToMallocResult; [exact Hp1|exact Hl1|]. intros c' Hp' Hm'.
  apply (HQ1 r u); [apply Hl1| |rewrite <- Hw1; exact Hm'|done].
  split; [exact Hp'|]. split; simpl; [exact Hl'| | | |exact Hv|rewrite dom_insert_L; exact Ha|].
  4: { rewrite !map_size_insert_None, I7; [done|exact HG|]. by apply not_elem_of_dom. }
  - intros q. rewrite !lookup_insert_is_Some'. intros [?|?]; [by left|right; auto].
  - intros q m. rewrite lookup_insert_Some. intros [[<- <-]|[Hne' Hq]].
    + split; [rewrite lookup_insert_eq; by eexists|]. exists t, (mkTrace n (zlen st) st). by rewrite !lookup_insert_eq.
    + destruct (I3 q m Hq) as (HLq & st' & tr & E1 & E2 & E3). rewrite !lookup_insert_ne by done. split; [done|]. exists st', tr.
      split; [done|]. rewrite lookup_insert_ne; [done|]. destruct (Hold _ _ E1). congruence.
  - intros q1 q2 st'. rewrite !lookup_insert_Some. intros [[<- <-]|[N1 K1]] [[<- E2]|[N2 K2]]; [done|..].
    + by destruct (Hold _ _ K2).
    + subst. by destruct (Hold _ _ K1).
    + by apply (I4 q1 q2 st').
Qed.

(** A block of pages goes back, with its trace. *)
Lemma wp_do_free_pages s L G P p u (Q : () → Statics H A V → Prop) : statics_rep L G s P → L !! p = Some u →
  (∀ s', statics_rep (delete p L) (delete p G) s' P → words_of s' = words_of s → Q tt s') →
  wp ab (do_free_pages p) Q s.
Proof.
  intros [Hp [I1 I2 I3 I4 I5 I6 I7]] HL HQ. pose proof (not_head _ _ _ _ _ Hp (proj1 (pool_large _ _ _ _ _ _ Hp HL))) as Hne.
  pose proof (pool_forget _ _ _ _ p Hp) as Hp'. assert (loose (central s) (delete p L) p u) as Hl by by eapply pool_forget_loose.
  unfold do_free_pages. apply wp_bind, wp_gets. destruct (sampled_spans s !! p) as [st|] eqn:Est.
  - assert (is_Some (G !! p)) as [n Hn] by (apply I2; by eexists). destruct (I3 p n Hn) as (_ & st' & t & E1 & Et & _). replace st' with st in * by congruence. clear E1 st'.
    destruct (links_remove _ _ p I1 ltac:(by eexists)) as (l' & El & Ep & Hl'). apply wp_bind, wp_bind. unfold wp at 1, on_sampled. rewrite El. cbn [mbind outcome_bind].
    destruct (oa_delete (stacktrace_allocator s) (trace_memory s) (dom (traces s)) st I6) as (a & Ea & Ha); [apply elem_of_dom; by eexists|].
    unfold wp at 1, trace_delete. simpl. rewrite Ea. cbn [mbind outcome_bind]. apply wp_bind. unfold wp at 1. simpl. rewrite Ep. cbn [check Z.eqb andb lift].
    apply wp_bind, wp_act, wp_on_central. eapply wp_delete_span; [exact Hp'|exact Hl|]. intros c Hc Hm _.
    apply HQ; [|exact Hm].
    split; [exact Hc|]. split; simpl; [exact Hl'| | | |exact I5|rewrite dom_delete_L; exact Ha|].
    4: { by rewrite !map_size_delete, Et, Hn, I7. }
    + intros q. rewrite !lookup_delete_is_Some. intros [? ?]. split; [done|auto].
    + intros q m [Hqp Hq]%lookup_delete_Some. destruct (I3 q m Hq) as (HLq & sq & tq & E1 & E2 & E3). rewrite !(lookup_delete_ne _ p q) by done.
      split; [done|]. exists sq, tq. split; [done|]. rewrite lookup_delete_ne; [done|]. intros ->. by apply Hqp, (I4 p q sq).
    + intros q1 q2 sq [_ K1]%lookup_delete_Some [_ K2]%lookup_delete_Some. by apply (I4 q1 q2 sq).
  - assert (G !! p = None) as HG.
    { apply eq_None_not_Some. intros [n Hn]. destruct (I3 p n Hn) as (_ & st' & t & E1 & _). congruence. }
    assert (sampled_objects_ s !! p = None) as El.
    { apply eq_None_not_Some. intros Hs. destruct I1 as (l & _ & Hin & Hd). apply Hd in Hs as [?|Hs]%elem_of_cons; [done|].
      apply Hin in Hs as [? ?]. congruence. }
    apply wp_bind, wp_ret, wp_bind. unfold wp at 1. rewrite El. simpl lift. apply wp_bind, wp_act, wp_on_central. rewrite (delete_id _ p El), (delete_id _ p Est).
    eapply wp_delete_span; [exact Hp'|exact Hl|]. intros c Hc Hm _. apply HQ; [|exact Hm]. split; [exact Hc|]. rewrite (delete_id G) by done.
    split; simpl; try done. intros q n Hq. destruct (I3 q n Hq) as (HLq & Htr). split; [|done]. rewrite lookup_delete_ne; [done|congruence].
Qed.

(** ** The start *)
Variable trace_Init : V → outcome (A * V).
Hypothesis Htrace : ∀ v, sa_wf v → trace_Init v = Throws OutOfMemory ∨
  ∃ a v', trace_Init v = Ok (a, v') ∧ sa_wf v' ∧ oa_rep a v' ∅.
Definition statics_fresh L G s : Prop := L = ∅ ∧ G = ∅ ∧
  ∃ h a v, s = Statics_static h a v ∧ sh_good h ∧ (∀ p u, sh_used h !! p = Some u → u_class u = 0) ∧ sa_wf v.
Lemma wp_InitStaticVars L G s : statics_fresh L G s → wp ab (InitStaticVars sm trace_Init) (λ _ s', statics_rep L G s' ∅) s.
Proof.
  intros (-> & -> & h & a & v & -> & Hg & Hcl & Hv). unfold InitStaticVars. apply wp_bind. unfold wp at 1. simpl.
  destruct (Htrace v Hv) as [->|(a' & v' & -> & Hv' & Ha)]; [done|]. cbn [mbind outcome_bind].
  apply wp_bind, wp_on_central. destruct (InitCentral_ok sm Hsm h Hg Hcl) as (c & E & _ & Hc). unfold wp at 1. simpl. rewrite E.
  destruct (DLL_Init_spec ({[sampled_objects := (0, 0)]} : links) sampled_objects) as (l & El & Hl & Hfr); [by eexists|].
  unfold wp, on_sampled. simpl. rewrite El. cbn [mbind outcome_bind]. split.
  - exists ∅. split; [exact Hc|]. intros x cl. rewrite lookup_empty. split; [done|]. intros (p & u & Hx & _). by rewrite lookup_empty in Hx.
  - split; simpl; try done.
    exists []. split; [done|]. split; [intros p; rewrite lookup_empty; split; [by intros ?%not_elem_of_nil|by intros [? ?]]|].
    intros p Hp. rewrite list_elem_of_singleton. destruct (decide (p = sampled_objects)) as [|Hne]; [done|]. rewrite Hfr in Hp by (by rewrite ?list_elem_of_singleton).
    rewrite lookup_singleton_ne in Hp by done. by destruct Hp.
Qed.
End statics.
