(* ===== verification/MallocBlocks.v ===== *)
(** * The blocks of the program

    A block is an object of a size class, or a span of pages; some of the latter are
    sampled, and as long as the request that was sampled would have got.  What requests
    add and [free] takes back, and that blocks do not overlap. *)
From stdpp Require Import base numbers list option gmap sets fin_maps fin_map_dom.
From Stdlib Require Import ZArith Lia.
From S2P Require Import Prelude SizeMap PackedCache SpanList SpanHeap CentralFreeList CentralLists.
From S2P Require Import CentralSpec CentralCaches CentralFetch CentralInit CentralPool ObjectPool.
From S2P Require Import MetaData Sampler Malloc MallocSizes MallocPages.
Open Scope Z_scope.

Section blocks.
Variable sm : SizeMap.
Hypothesis Hsizes : malloc_sizes sm.
Implicit Types (L : gmap Z use) (G : gmap Z Z) (U P : pool) (u : use) (p x n r : Z).
Abbreviation Hsm := (ms_ok sm Hsizes).

(** The bytes that a request for [n] gets, and those of a block of pages. *)
Definition nallocx n : Z := match GetSizeClass sm n with Ok (Some cl) => csize sm cl | _ => 8192 * pages n end.
Definition usable G p u : Z := match G !! p with Some n => nallocx n | None => 8192 * u_pages u end.
(** The sampled blocks have the pages of the request. *)
Definition sized L G : Prop := ∀ p u n, L !! p = Some u → G !! p = Some n → 0 ≤ n < 2 ^ 64 ∧ u_pages u = pages (Z.max 1 n).
(** [U] are the objects of the users, [L] their spans of pages, and [G] those that are
    sampled. *)
Inductive block L G U x n : Prop :=
  | block_object cl : U !! x = Some cl → n = csize sm cl → block L G U x n
  | block_pages p u : L !! p = Some u → x = 8192 * u_start u → n = usable G p u → block L G U x n.
(** What a request for [size] bytes with the result [r] adds. *)
Inductive allocs L G U (size r : Z) : gmap Z use → gmap Z Z → pool → Prop :=
  | allocs_null : r = 0 → allocs L G U size r L G U
  | allocs_object cl : request_class sm size cl → 0 < r → U !! r = None → allocs L G U size r L G (<[r := cl]> U)
  | allocs_pages p u : L !! p = None → G !! p = None → 1 ≤ u_start u → r = 8192 * u_start u → u_pages u = pages (Z.max 1 size) →
      allocs L G U size r (<[p := u]> L) G U
  | allocs_sampled p u : L !! p = None → 1 ≤ u_start u → r = 8192 * u_start u → u_pages u = pages (Z.max 1 size) →
      allocs L G U size r (<[p := u]> L) (<[p := size]> G) U.

Lemma nallocx_range n : 0 ≤ n < 2 ^ 64 → n ≤ nallocx n ∧ 0 < nallocx n ≤ 8192 * pages (Z.max 1 n).
Proof.
  intros Hn. unfold nallocx. destruct (Z.le_gt_cases n kMaxSize) as [Hs|Hs].
  - destruct (ms_class _ Hsizes n) as (cl & -> & Hcl); [lia|]. pose proof (class_sizes_of sm Hsm cl (rc_class _ _ _ Hcl)) as [_ _ _ Hsz _ _ _ _ _ _].
    rewrite pages_ok by lia. destruct Hcl as [_ H1 H2 _]. lia.
  - rewrite GetSizeClass_large by lia. change kMaxSize with 262144 in Hs. rewrite Z.max_r by lia. rewrite pages_ok by lia. zdiv.
Qed.
Lemma sized_allocs L G U size r L' G' U' : sized L G → 0 ≤ size < 2 ^ 64 → allocs L G U size r L' G' U' → sized L' G'.
Proof.
  intros Hz Hs [|cl|p u HL HG _ _ Hu|p u HL _ _ Hu]; try done; intros q v n.
  - rewrite lookup_insert_Some. intros [[<- <-]|[Hne Hq]] Hn; [congruence|by apply (Hz q v n)].
  - rewrite !lookup_insert_Some. intros [[<- <-]|[Hne Hq]] [[E <-]|[Hne' Hn]]; [done|done|congruence|by apply (Hz q v n)].
Qed.
Lemma sized_delete L G p : sized L G → sized (delete p L) (delete p G).
Proof. intros Hz q v n [_ Hq]%lookup_delete_Some [_ Hn]%lookup_delete_Some. by apply (Hz q v n). Qed.

(** ** They do not overlap *)
Section apart.
Context {H : Type} `{SpanHeap H} `{!SpanHeapLaws H}.
Variables (c : Central H) (L : gmap Z use) (G : gmap Z Z) (U P : pool).
Hypothesis Hp : pool_rep sm L c P.
Hypothesis HU : U ⊆ P.
Hypothesis Hz : sized L G.
Lemma page_block p u : L !! p = Some u → sh_used (pageheap c) !! p = Some u ∧ u_class u = 0 ∧ 1 ≤ u_start u ∧ 0 < usable G p u ≤ 8192 * u_pages u.
Proof.
  intros HL. destruct (pool_large sm _ _ _ _ _ Hp HL) as [Hu Hcl]. pose proof (sh_range _ _ _ (pool_good sm _ _ _ Hp) Hu).
  assert (0 < usable G p u ≤ 8192 * u_pages u) as Hb; [|split_and!; (done || lia)]. unfold usable. destruct (G !! p) as [n|] eqn:E; [|lia].
  destruct (Hz p u n HL E) as [Hn ->]. by apply nallocx_range.
Qed.
Lemma object_block x cl : U !! x = Some cl → ∃ q u, sh_used (pageheap c) !! q = Some u ∧ u_class u ≠ 0 ∧ 0 < csize sm cl ∧
  8192 * u_start u ≤ x ∧ x + csize sm cl ≤ 8192 * (u_start u + u_pages u).
Proof.
  intros Hx. destruct (object_place sm Hsm _ _ _ _ _ Hp (lookup_weaken _ _ _ _ Hx HU)) as (q & u & Hu & <- & Hs & Ho).
  pose proof (object_in_pages sm Hsm u x Hs Ho). pose proof (csize_pos sm Hsm u Hs). exists q, u. destruct Hs as [Hcl _]. unfold class_ok in Hcl. split_and!; try done; lia.
Qed.
Lemma object_not_page x cl p u : U !! x = Some cl → L !! p = Some u → x + csize sm cl ≤ 8192 * u_start u ∨ 8192 * u_start u + usable G p u ≤ x.
Proof.
  intros Hx HL. destruct (object_block x cl Hx) as (q & v & Hv & Hn & _ & H1 & H2). destruct (page_block p u HL) as (Hu & Hcl & _ & Hb).
  eapply (use_apart sm c L P q p v u); try done; first [congruence|lia].
Qed.
Lemma pages_apart p u q v : L !! p = Some u → L !! q = Some v → p ≠ q →
  8192 * u_start u + usable G p u ≤ 8192 * u_start v ∨ 8192 * u_start v + usable G q v ≤ 8192 * u_start u.
Proof.
  intros HL HL' Hne. destruct (page_block p u HL) as (Hu & _ & _ & Hb). destruct (page_block q v HL') as (Hv & _ & _ & Hb').
  eapply (use_apart sm c L P p q u v); (done || lia).
Qed.
Lemma block_pos x n : block L G U x n → 0 < x ∧ 0 < n.
Proof.
  intros [cl Hx ->|p u HL -> ->].
  - destruct (object_block x cl Hx) as (q & v & Hv & Hn & ? & H1 & _). pose proof (sh_range _ _ _ (pool_good sm _ _ _ Hp) Hv). lia.
  - destruct (page_block p u HL) as (_ & _ & ? & ?). lia.
Qed.
Lemma blocks_apart x y n m : block L G U x n → block L G U y m → x < y → x + n ≤ y.
Proof.
  intros Hx Hy Hlt. pose proof (block_pos x n Hx). pose proof (block_pos y m Hy). destruct Hx as [cl Hx ->|p u HL -> ->], Hy as [cl' Hy ->|q v HL' -> ->].
  - apply (pool_rep_separate sm O Hsm _ _ _ Hp x y cl cl'); [by eapply lookup_weaken..|done].
  - destruct (object_not_page x cl q v Hx HL'); lia.
  - destruct (object_not_page y cl' p u Hy HL); lia.
  - destruct (decide (p = q)) as [<-|Hne]; [assert (v = u) as -> by congruence; lia|]. destruct (pages_apart p u q v HL HL' Hne); lia.
Qed.
Lemma same_pages p u q v : L !! p = Some u → L !! q = Some v → u_start u = u_start v → p = q.
Proof.
  intros HL HL' E. destruct (decide (p = q)) as [|Hne]; [done|exfalso]. destruct (page_block p u HL) as (_ & _ & _ & Hb). destruct (page_block q v HL') as (_ & _ & _ & Hb').
  destruct (pages_apart p u q v HL HL' Hne); lia.
Qed.
Lemma object_no_page x cl p u : U !! x = Some cl → L !! p = Some u → x ≠ 8192 * u_start u.
Proof.
  intros Hx HL ->. destruct (object_block _ _ Hx) as (q & v & _ & _ & ? & _). destruct (page_block p u HL) as (_ & _ & _ & Hb).
  destruct (object_not_page _ cl p u Hx HL); lia.
Qed.
Lemma block_fun x n m : block L G U x n → block L G U x m → n = m.
Proof.
  intros [cl Hx ->|p u HL -> ->] [cl' Hy ->|q v HL' E ->]; [congruence|by destruct (object_no_page x cl q v)|by edestruct object_no_page; eauto|].
  assert (p = q) as -> by (apply (same_pages p u q v); [done..|lia]). congruence.
Qed.
(** [free] takes one block back. *)
Lemma block_free_object x cl y n : U !! x = Some cl → block L G (delete x U) y n ↔ y ≠ x ∧ block L G U y n.
Proof.
  intros Hx. split.
  - intros [k [Hne Hy]%lookup_delete_Some ->|p u HL -> ->].
    + split; [congruence|by eapply block_object].
    + split; [|by eapply block_pages]. intros E. by apply (object_no_page x cl p u).
  - intros [Hne [k Hy ->|p u HL -> ->]]; [eapply block_object; [|done]; by rewrite lookup_delete_ne|by eapply block_pages].
Qed.
Lemma block_free_pages p u y n : L !! p = Some u → block (delete p L) (delete p G) U y n ↔ y ≠ 8192 * u_start u ∧ block L G U y n.
Proof.
  intros HL. assert (∀ q v, q ≠ p → usable (delete p G) q v = usable G q v) as Hus by (intros; unfold usable; by rewrite lookup_delete_ne). split.
  - intros [k Hy ->|q v [Hne Hq]%lookup_delete_Some -> ->]; [split; [by eapply object_no_page|by eapply block_object]|].
    split; [|eapply block_pages; [exact Hq|done|by rewrite Hus]]. intros E. apply Hne. symmetry. eapply same_pages; [exact Hq|exact HL|lia].
  - intros [Hne [k Hy ->|q v Hq -> ->]]; [by eapply block_object|]. assert (q ≠ p) as Hqp by (intros ->; congruence).
    eapply block_pages; [by rewrite lookup_delete_ne|done|by rewrite Hus].
Qed.
End apart.

(** What a request has added was not there. *)
Lemma allocs_fresh {H} `{SpanHeap H} `{!SpanHeapLaws H} (c : Central H) L0 G0 U0 size r n L G U P : pool_rep sm L c P → U ⊆ P → sized L G →
  allocs L0 G0 U0 size r L G U → r ≠ 0 → ¬ block L0 G0 U0 r n.
Proof.
  intros Hp HU Hz Ha Hr Hb. destruct Ha as [->|cl _ _ Hnone|p u HL _ _ -> _|p u HL _ -> _]; [done|..].
  - destruct Hb as [k Hx _|q v HL' -> _]; [congruence|]. eapply (object_no_page c _ _ _ P Hp HU Hz _ cl q v); [apply lookup_insert_eq|exact HL'|done].
  - destruct Hb as [k Hx _|q v HL' E _]; [by eapply (object_no_page c _ _ _ P Hp HU Hz _ k p u); [exact Hx|apply lookup_insert_eq|]|].
    assert (q ≠ p) as Hne by congruence. apply Hne. eapply (same_pages c _ _ P Hp Hz); [by rewrite lookup_insert_ne|apply lookup_insert_eq|lia].
  - destruct Hb as [k Hx _|q v HL' E _]; [by eapply (object_no_page c _ _ _ P Hp HU Hz _ k p u); [exact Hx|apply lookup_insert_eq|]|].
    assert (q ≠ p) as Hne by congruence. apply Hne. eapply (same_pages c _ _ P Hp Hz); [by rewrite lookup_insert_ne|apply lookup_insert_eq|lia].
Qed.
(** A request adds one block, which holds it, or none. *)
Lemma allocs_block L G U size r L' G' U' : 0 ≤ size < 2 ^ 64 → allocs L G U size r L' G' U' →
  (r = 0 ∧ L' = L ∧ G' = G ∧ U' = U) ∨
  (0 < r ∧ ∃ m, size ≤ m ∧ block L' G' U' r m ∧ (∀ x n, block L G U x n → block L' G' U' x n) ∧
     ∀ x n, block L' G' U' x n → (x = r ∧ n = m) ∨ block L G U x n).
Proof.
  intros Hs [->|cl Hcl Hr HU|p u HL HG Hu -> Hpg|p u HL Hu -> Hpg]; [by left|right..]; (split; [lia|]).
  - exists (csize sm cl). split; [apply Hcl|]. split; [eapply block_object; [apply lookup_insert_eq|done]|]. split.
    + intros x n [k Hx ->|p u HL -> ->]; [eapply block_object; [|done]; rewrite lookup_insert_ne; [done|congruence]|by eapply block_pages].
    + intros x n [k [[<- <-]|[_ Hx]]%lookup_insert_Some ->|p u HL -> ->]; [by left|right; by eapply block_object|right; by eapply block_pages].
  - exists (8192 * u_pages u). split; [rewrite Hpg, pages_ok by lia; zdiv|]. split; [eapply block_pages; [apply lookup_insert_eq|done|unfold usable; by rewrite HG]|]. split.
    + intros x n [k Hx ->|q v HL' -> ->]; [by eapply block_object|eapply block_pages; [|done..]; rewrite lookup_insert_ne; [done|congruence]].
    + intros x n [k Hx ->|q v [[<- <-]|[_ HL']]%lookup_insert_Some -> ->]; [right; by eapply block_object|left; unfold usable; by rewrite HG|right; by eapply block_pages].
  - assert (∀ q v, q ≠ p → usable (<[p := size]> G) q v = usable G q v) as Hus by (intros; unfold usable; by rewrite lookup_insert_ne).
    exists (nallocx size). split; [by apply nallocx_range|]. split; [eapply block_pages; [apply lookup_insert_eq|done|unfold usable; by rewrite lookup_insert_eq]|]. split.
    + intros x n [k Hx ->|q v HL' -> ->]; [by eapply block_object|]. assert (q ≠ p) by congruence.
      eapply block_pages; [by rewrite lookup_insert_ne|done|by rewrite Hus].
    + intros x n [k Hx ->|q v [[<- <-]|[Hne HL']]%lookup_insert_Some -> ->]; [right; by eapply block_object|left; unfold usable; by rewrite lookup_insert_eq|].
      right. eapply block_pages; [exact HL'|done|by rewrite Hus].
Qed.
End blocks.
