(* ===== verification/MallocSpec.v ===== *)
(** * What the entry points of the allocator do

    Between operations a block is an object of a size class that a cache has given, or a
    run of pages.  [do_malloc] and its relatives make a block that holds the request,
    of memory that no other block has; [do_free] takes a block back. *)
From stdpp Require Import base numbers list option gmap sets fin_maps fin_map_dom.
From Stdlib Require Import ZArith Lia Floats.SpecFloat.
From S2P Require Import Prelude SizeMap PackedCache SpanList SpanHeap SystemAlloc MetaData CentralFreeList CentralLists.
From S2P Require Import CentralSpec CentralCaches CentralFetch CentralInit CentralPool ObjectPool Sampler.
From S2P Require Import ThreadCache ThreadLists ThreadMoves ThreadSizes ThreadScavenge ThreadLimits ThreadSpec ThreadRegistry ThreadClient.
From S2P Require Import Malloc MallocSizes MallocPages MallocPool MallocBlocks.
Open Scope Z_scope.

Section malloc.
Context {H : Type} `{SpanHeap H} `{!SpanHeapLaws H}.
Context {V : Type} `{SysAllocLaws V} {A : Type} `{!ObjAllocator A V} `{!ObjAllocatorLaws A V}.
Context {W : Type} `{SysAllocLaws W} {T : Type} `{!ObjAllocator T W} `{!ObjAllocatorLaws T W}.
Variable sm : SizeMap.
Variables log2 log : spec_float → spec_float.
Variable sample_parameter : Z.
Variable tcb : option Z.
Variable trace_Init : V → outcome (A * V).
Variable allocator_Init : W → outcome (T * W).
Variable GetStackTrace : list Z.
Variable fuel : nat.
Abbreviation State := (Malloc (Statics H A V) T W).
Abbreviation MM := (M State).
Implicit Types (s : State) (L : gmap Z use) (G : gmap Z Z) (U P : pool) (me p r size : Z) (u : use) (heaps : list Z).
Abbreviation ab := (sh_ab (H := H)).

Hypothesis Hsizes : malloc_sizes sm.
Hypothesis fuel_enough : 2 ^ 17 < Z.of_nat fuel.
Hypothesis Hgaps : gaps_ok log2 log sample_parameter.
Hypothesis Htrace : ∀ v, sa_wf v → trace_Init v = Throws OutOfMemory ∨
  ∃ a v', trace_Init v = Ok (a, v') ∧ sa_wf v' ∧ oa_rep a v' ∅.
Hypothesis Halloc : ∀ w, sa_wf w → allocator_Init w = Throws OutOfMemory ∨
  ∃ a w', allocator_Init w = Ok (a, w') ∧ sa_wf w' ∧ oa_rep a w' ∅.
Abbreviation Hsm := (ms_ok sm Hsizes).
Lemma Hfuel : kMaxCaches < Z.of_nat fuel.
Proof. change kMaxCaches with 1024. lia. Qed.

#[local] Instance pool_ops : ObjectPool (Statics H A V) := Statics_pool sm fuel.
Definition laws L G : ObjectPoolLaws (Statics H A V) sm := Statics_pool_laws sm fuel Hsm fuel_enough L G.
Abbreviation running_with L G := (running (ObjectPoolLaws0 := laws L G)).

(** ** Rules for the parts of the state *)
Definition statics_of s : Statics H A V := objects_of (threads_of s).
Definition set_statics s c : State := with_threads s (with_objects (threads_of s) c).
Lemma wp_on_threads {B} (m : M (Threads (Statics H A V) T W) B) (Q : B → State → Prop) s :
  wp ab m (λ b t, Q b (with_threads s t)) (threads_of s) → wp ab (on_threads m) Q s.
Proof. unfold wp, on_threads. by destruct (m (threads_of s)) as [[]| |[]|]. Qed.
Lemma wp_on_statics {B} (m : M (Statics H A V) B) (Q : B → State → Prop) s :
  wp ab m (λ b c, Q b (set_statics s c)) (statics_of s) → wp ab (on_statics m) Q s.
Proof. intros Hm. apply wp_on_threads, wp_on_pool. exact Hm. Qed.
Lemma wp_on_pages {B} (m : M (Central H) B) (Q : B → State → Prop) s :
  wp ab m (λ b c, Q b (set_statics s (with_central (statics_of s) c))) (central (statics_of s)) → wp ab (on_pages m) Q s.
Proof. intros Hm. apply wp_on_statics, wp_on_central. exact Hm. Qed.
Lemma set_same s : set_statics s (with_central (statics_of s) (central (statics_of s))) = s.
Proof. by destruct s as [[? ? ? ? ? ? ? ? []] ? ? ? ? ? ? ?]. Qed.
(** What does not change the spans, the caches and the objects. *)
Lemma wp_ask_pages {B} (m : M (Central H) B) b (Q : B → State → Prop) s :
  m (central (statics_of s)) = Ok (b, central (statics_of s)) → Q b s → wp ab (on_pages m) Q s.
Proof. intros E HQ. apply wp_on_pages. unfold wp. rewrite E. by rewrite set_same. Qed.

(** ** Between operations *)
Definition caches_of s : Z := Z.of_nat (size (dom (caches (threads_of s)))).
(** [U] are the objects of the users, [L] their spans of pages, and [G] those that are
    sampled.  No new-handler is installed. *)
Definition settings_ok s : Prop := large_alloc_threshold s ≤ 2 ^ 62 ∧ new_handler_ s = 0.
Definition mrun L G s U heaps : Prop := running_with L G (threads_of s) U heaps ∧ settings_ok s.
Definition mrep L G s U : Prop := threads_rep (ObjectPoolLaws0 := laws L G) (statics_fresh L G) (threads_of s) U ∧ settings_ok s.
(** What the users have keeps its contents, no thread loses its cache, and there are at
    most [k] caches more. *)
Record stays k s U s' : Prop := {
  sy_words : words_kept (threads_of s) U (threads_of s');
  sy_owned me : owned (threads_of s) me ≠ 0 → owned (threads_of s') me ≠ 0;
  sy_size : caches_of s' ≤ caches_of s + k;
}.
Lemma mrun_rep L G s U heaps : mrun L G s U heaps → mrep L G s U.
Proof. intros [Hr Ht]. split; [by eapply running_rep|done]. Qed.
Lemma stays_refl s U : stays 0 s U s.
Proof. split; [done|done|lia]. Qed.
Lemma stays_trans j k s1 U s2 s3 : stays j s1 U s2 → stays k s2 U s3 → stays (j + k) s1 U s3.
Proof. intros [A1 A2 A3] [B1 B2 B3]. split; [|auto|lia]. intros x Hx. rewrite B1 by done. by apply A1. Qed.
(** The thread has room in the next state, if there was for the one before. *)
Lemma stays_room j s U s' me : stays j s U s' → u32 me ≠ 0 → (owned (threads_of s) me = 0 → caches_of s + j < kMaxCaches) → room (threads_of s') me.
Proof.
  intros [_ A2 A3] Hme Hr. split; [done|]. intros E. destruct (decide (owned (threads_of s) me = 0)) as [E0|Hn]; [|by destruct (A2 me Hn)].
  specialize (Hr E0). unfold caches_of in *. lia.
Qed.
(** The caches are the same ones. *)
Lemma stays_caches s U s' : words_kept (threads_of s) U (threads_of s') → locals (threads_of s') = locals (threads_of s) →
  dom (caches (threads_of s')) = dom (caches (threads_of s)) → stays 0 s U s'.
Proof. intros Hw El Ed. split; [done| |unfold caches_of; rewrite Ed; lia]. intros me. unfold owned, local_of. by rewrite El. Qed.
Lemma running_dom L G (t : Threads (Statics H A V) T W) U heaps : running_with L G t U heaps → dom (caches t) = list_to_set heaps.
Proof. intros (g & P & [[Hc _] _ _] & _). apply (tc_dom _ _ _ _ Hc). Qed.

(** The central lists change, but not for the objects that caches have or users. *)
Lemma running_change L G (t : Threads (Statics H A V) T W) U heaps : running_with L G t U heaps →
  ∃ P, statics_rep sm L G (objects_of t) P ∧ U ⊆ P ∧
    ∀ L' G' c, statics_rep sm L' G' c P → words_of c = words_of (objects_of t) → running_with L' G' (with_objects t c) U heaps.
Proof.
  intros (g & P & [[[[I1 I2 I3 I4] K2 [R1 R2 R3 R4] [B1 B2 B3 B4] K5 K6 K7 K8 K9] Hf] S2 S3] & HU). exists P. split; [exact I1|]. split.
  - apply map_subseteq_spec. intros x cl Hx. by apply HU in Hx as [? _].
  - intros L' G' c Hc Hw. exists g, P. split; [|done]. split; [|by destruct S2|done]. split; [|done]. split; try done. split; [exact Hc| |done..].
    intros h Hh. destruct (I2 h Hh) as (tc & Ht & Hlen & Hl). exists tc. split; [done|]. split; [done|]. intros cl Hcl.
    destruct (Hl cl Hcl) as (f & Hf0 & Hch). exists f. split; [done|]. eapply chain_frame; [|exact Hch]. intros x _. exact (f_equal (.!! x) Hw).
Qed.
Lemma mrun_change L G s U heaps : mrun L G s U heaps →
  ∃ P, statics_rep sm L G (statics_of s) P ∧ U ⊆ P ∧
    ∀ L' G' c, statics_rep sm L' G' c P → words_of c = words_of (statics_of s) →
      mrun L' G' (set_statics s c) U heaps ∧ stays 0 s U (set_statics s c).
Proof.
  intros [Hr Ht]. destruct (running_change _ _ _ _ _ Hr) as (P & Hp & HU & Hc). exists P. split; [done|]. split; [done|].
  intros L' G' c Hrep Hw. split; [split; [by apply Hc|done]|]. apply stays_caches; [|done..]. intros x _. exact (f_equal (.!! x) Hw).
Qed.
Lemma mrun_inited L G s U heaps : mrun L G s U heaps → phinited (threads_of s) = true.
Proof. intros [(g & P & [_ _ Hph] & _) _]. exact Hph. Qed.
Lemma wp_sizemap L G s U heaps (Q : SizeMap → State → Prop) : mrun L G s U heaps → Q sm s → wp ab (sizemap sm) Q s.
Proof. intros Hr HQ. unfold sizemap. apply wp_bind, wp_gets. rewrite (mrun_inited _ _ _ _ _ Hr). by apply wp_ret. Qed.
Lemma wp_massert (b : bool) (Q : () → State → Prop) s : b = true → Q tt s → wp ab (MASSERT b) Q s.
Proof. by intros ->. Qed.

Lemma stays_running L G L' G' s U U' V' heaps t : running_with L G (threads_of s) U heaps → running_with L' G' t U' heaps →
  words_kept (threads_of s) V' t → locals t = locals (threads_of s) → stays 0 s V' (with_threads s t).
Proof. intros Hr Hr' Hk El. apply stays_caches; [done|done|]. simpl. by rewrite (running_dom _ _ _ _ _ Hr'), (running_dom _ _ _ _ _ Hr). Qed.
(** The caches change, and nothing else. *)
Lemma mrun_threads L G s U heaps t : mrun L G s U heaps → running_with L G t U heaps → objects_of t = statics_of s → locals t = locals (threads_of s) →
  mrun L G (with_threads s t) U heaps ∧ stays 0 s U (with_threads s t).
Proof.
  intros [Hs Hth] Hr Ho El. split; [by split|]. eapply stays_running; [exact Hs|exact Hr| |done].
  intros x _. unfold held_words. by rewrite Ho.
Qed.
Lemma wp_sampling s L G U heaps h k (Q : bool → State → Prop) : mrun L G s U heaps → h ∈ heaps → 0 ≤ k →
  (∀ b s', mrun L G s' U heaps → statics_of s' = statics_of s → stays 0 s U s' → Q b s') →
  wp ab (on_threads (SampleAllocation log2 log sample_parameter h k)) Q s.
Proof.
  intros Hr Hh Hk HQ. apply wp_on_threads. eapply (wp_SampleAllocation (ObjectPoolLaws0 := laws L G)); [exact fuel|exact Hgaps|apply Hr|done|done|].
  intros b t Ht Ho El. destruct (mrun_threads L G s U heaps t Hr Ht Ho El). by apply HQ.
Qed.
Lemma wp_sampling_fast s L G U heaps h k (Q : bool → State → Prop) : mrun L G s U heaps → h ∈ heaps → 0 ≤ k < 2 ^ 63 →
  (∀ b s', mrun L G s' U heaps → statics_of s' = statics_of s → stays 0 s U s' → Q b s') →
  wp ab (on_threads (ThreadCache_TryRecordAllocationFast h k)) Q s.
Proof.
  intros Hr Hh Hk HQ. apply wp_on_threads. eapply (wp_TryRecordAllocationFast (ObjectPoolLaws0 := laws L G)); [apply Hr|done|done|].
  intros b t Ht Ho El. destruct (mrun_threads L G s U heaps t Hr Ht Ho El). by apply HQ.
Qed.

(** ** Allocation *)
(** After it. *)
Definition made k s L G U size r s' : Prop := ∃ L' G' U' heaps,
  allocs sm L G U size r L' G' U' ∧ mrun L' G' s' U' heaps ∧ stays k s U s'.
(** The pages are there. *)
Lemma pages_started L G (c : Statics H A V) P p u : statics_rep sm L G c P → L !! p = Some u → 1 ≤ u_start u.
Proof. intros [Hp _] HL. by destruct (pages_found sm _ _ _ _ _ Hp HL). Qed.

Lemma wp_sampled_malloc s L G U heaps n : mrun L G s U heaps → 0 ≤ n < 2 ^ 64 → Z.of_nat (size G) < INT_MAX →
  wp ab (on_statics (DoSampledAllocation GetStackTrace n)) (made 0 s L G U n) s.
Proof.
  intros Hr Hn Hfew. destruct (mrun_change _ _ _ _ _ Hr) as (P & Hp & _ & Hback). apply wp_on_statics.
  eapply wp_DoSampledAllocation; [exact Hp|done|done|..].
  - intros c Hc Hw. destruct (Hback _ _ _ Hc Hw). exists L, G, U, heaps. split; [by apply allocs_null|done].
  - intros p u c HL Hc Hw Hu. destruct (Hback _ _ _ Hc Hw). exists (<[p := u]> L), (<[p := n]> G), U, heaps. split; [|done].
    apply allocs_sampled; try done. eapply pages_started; [exact Hc|apply lookup_insert_eq].
Qed.
Lemma wp_new_pages s L G U heaps n : mrun L G s U heaps → 1 ≤ n < 2 ^ 64 →
  wp ab (span ← on_pages (on_heap (sh_new (pages n))); if span =? 0 then mret 0 else on_pages (SpanToMallocResult span)) (made 0 s L G U n) s.
Proof.
  intros Hr Hn. destruct (mrun_change _ _ _ _ _ Hr) as (P & Hp & _ & Hback). pose proof (pages_range n Hn).
  apply wp_bind, wp_on_statics. eapply wp_new_loose; [exact Hp|lia|..].
  - intros c Hc Hw. apply wp_ret. destruct (Hback _ _ _ Hc Hw). exists L, G, U, heaps. split; [by apply allocs_null|done].
  - intros p u c Hc Hw Hp0 Hl Hu. rewrite (proj2 (Z.eqb_neq p 0)) by lia. apply wp_on_statics. eapply wp_to_result; [exact Hc|exact Hl|].
    intros c' Hc' Hw'. change (set_statics (set_statics s c) c') with (set_statics s c'). destruct (Hback _ _ _ Hc' (eq_trans Hw' Hw)).
    exists (<[p := u]> L), G, U, heaps. split; [|done].
    apply allocs_pages; try done; [apply Hl|exact (loose_plain _ _ _ _ _ (proj2 Hc) Hl)|eapply pages_started; [exact Hc'|apply lookup_insert_eq]|by rewrite Z.max_r by lia].
Qed.
Lemma made_from j k s s1 L G U n r s' : stays j s U s1 → made k s1 L G U n r s' → made (j + k) s L G U n r s'.
Proof.
  intros Hs (L' & G' & U' & heaps & Ha & Hr & Hk). exists L', G', U', heaps. split; [done|]. split; [done|]. by eapply stays_trans.
Qed.
Lemma wp_made {B} (m : MM B) j k s s1 L G U n (f : B → Z) : stays j s U s1 →
  wp ab m (λ b, made k s1 L G U n (f b)) s1 → wp ab m (λ b, made (j + k) s L G U n (f b)) s1.
Proof. intros Hs Hw. eapply wp_mono; [exact Hw|]. intros b s'. by apply made_from. Qed.

(** ** Large requests *)
(** What the operations write beside: the reports, the threshold and [errno]. *)
Record aside s s' : Prop := {
  as_threads : threads_of s' = threads_of s;
  as_settings : settings_ok s → settings_ok s';
}.
Lemma mrun_aside L G s U heaps s' : mrun L G s U heaps → aside s s' → mrun L G s' U heaps ∧ stays 0 s U s'.
Proof. intros [Hr Ht] [E1 E2]. split; [split; [by rewrite E1|auto]|]. apply stays_caches; by rewrite E1. Qed.
Lemma made_aside k s L G U n r s' s'' : made k s L G U n r s' → aside s' s'' → made k s L G U n r s''.
Proof.
  intros (L' & G' & U' & heaps & Ha & Hr & Hk) Hs. destruct (mrun_aside _ _ _ _ _ _ Hr Hs) as [Hr' _].
  exists L', G', U', heaps. split; [done|]. split; [done|]. destruct Hs as [E _], Hk as [K1 K2 K3]. split; unfold caches_of; by rewrite E.
Qed.
Lemma wp_report num_pages r (Q : Z → State → Prop) s : settings_ok s →
  (∀ s', aside s s' → Q r s') →
  wp ab (report_large ← should_report_large num_pages; _ ← (if report_large : bool then ReportLargeAlloc num_pages r else mret tt); mret r) Q s.
Proof.
  intros [Ht Hnh] HQ. unfold should_report_large. apply wp_bind, wp_bind, wp_gets. apply wp_if; intros E.
  - apply andb_prop in E as [E1%Z.ltb_lt _].
    assert (0 ≤ Z.quot (large_alloc_threshold s) 8 ≤ 2 ^ 59) as Hq by (rewrite Z.quot_div_nonneg by lia; zdiv).
    eapply wp_bind, wp_lift.
    { unfold i64. rewrite (proj2 (andb_true_iff _ _)); [done|]. lia. }
    apply wp_bind, wp_act, wp_ret, wp_bind, wp_act, wp_ret, HQ. split; [done|]. intros _. split; [|done]. simpl. change (Z.shiftl 8 30) with (2 ^ 33). zcase; lia.
  - apply wp_ret, wp_bind, wp_ret, wp_ret, HQ. by split.
Qed.
Lemma wp_do_malloc_pages s L G U heaps h n : mrun L G s U heaps → h ∈ heaps → 1 ≤ n < 2 ^ 64 → Z.of_nat (size G) < INT_MAX →
  wp ab (do_malloc_pages log2 log sample_parameter GetStackTrace h n) (made 0 s L G U n) s.
Proof.
  intros Hr Hh Hn Hfew. unfold do_malloc_pages. apply wp_bind. eapply wp_sampling; [exact Hr|done|lia|]. intros b s1 Hr1 _ Hs1.
  apply wp_bind, (wp_mono _ _ (made (0 + 0) s L G U n)).
  - eapply (wp_made _ 0 0 _ _ _ _ _ _ (λ r, r)); [exact Hs1|]. destruct b; [apply (wp_sampled_malloc s1 L G U heaps); (done || lia)|by apply (wp_new_pages s1 L G U heaps)].
  - intros r s2 Hm. pose proof Hm as (L' & G' & U' & heaps' & _ & [_ Ht] & _). apply wp_report; [done|]. intros s'. by apply made_aside.
Qed.

(** ** [do_malloc] *)
Abbreviation getcache := (GetCache_malloc sm log2 log sample_parameter tcb trace_Init allocator_Init fuel).
Lemma wp_GetCache s L G U me (Q : Z → State → Prop) : mrep L G s U → room (threads_of s) me →
  (∀ h s' heaps, mrun L G s' U heaps → h ∈ heaps → stays 1 s U s' → Q h s') → wp ab (getcache me) Q s.
Proof.
  intros [Hrep Ht] Hroom HQ. unfold GetCache_malloc. apply wp_on_threads.
  eapply (wp_cache_for (ObjectPoolLaws0 := laws L G) log2 log sample_parameter tcb (InitStaticVars sm trace_Init) allocator_Init fuel (statics_fresh L G) Hsm Hgaps Hfuel);
    [intros c Hc; by apply wp_InitStaticVars; [apply Hsm|..]|exact Halloc|exact Hrep|exact Hroom|].
  intros h t g P heaps Hst Hh HU Ho [Go Gs]. apply (HQ h _ heaps); [|done|split; [|exact Go|exact Gs]].
  - split; [by exists g, P|done].
  - intros x [cl Hx]. unfold held_words. simpl. rewrite Ho; [done|]. right. by intros ->.
Qed.
(** What the last check of an allocation does: nothing. *)
Lemma wp_checked s L G U n r s' k (Q : Z → State → Prop) : made k s L G U n r s' → Q r s' → wp ab (on_pages (CheckedMallocResult r)) Q s'.
Proof.
  intros (L' & G' & U' & heaps & Ha & Hr & _) HQ. destruct (mrun_change _ _ _ _ _ Hr) as (P & [Hp _] & HU & _).
  apply wp_on_pages, checked_ok; [|by rewrite set_same]. destruct Ha as [->|cl Hcl Hpos Hn|p u HL _ Hst -> _|p u HL Hst -> _]; [by left|right..].
  - eapply (check_object sm Hsm _ L _ r cl Hp). eapply lookup_weaken; [|exact HU]. apply lookup_insert_eq.
  - eapply check_pages; [exact Hp|]. apply lookup_insert_eq.
  - eapply check_pages; [exact Hp|]. apply lookup_insert_eq.
Qed.
Lemma wp_take s L G U heaps h n cl : mrun L G s U heaps → h ∈ heaps → request_class sm n cl →
  wp ab (on_threads (Allocate sm h (csize sm cl) cl (λ _, mret 0))) (made 0 s L G U n) s.
Proof.
  intros [Hr Ht] Hh Hcl. apply wp_on_threads.
  eapply (wp_Allocate_users (ObjectPoolLaws0 := laws L G) Hsm _ U heaps); [exact Hr|done|apply Hcl|..].
  - intros t Hr' _ Hk El. exists L, G, U, heaps. split; [by apply allocs_null|]. split; [by split|]. by eapply stays_running.
  - intros x t Hx Hn Hr' Hk El. exists L, G, (<[x := cl]> U), heaps. split; [by eapply allocs_object|]. split; [by split|]. by eapply stays_running.
Qed.
Lemma class_bytes n cl : request_class sm n cl → class_to_size sm cl = Ok (csize sm cl) ∧ 0 ≤ csize sm cl < 2 ^ 63.
Proof.
  intros Hcl. split; [apply (ByteSizeForClass_ok sm Hsm), Hcl|]. pose proof (class_sizes_of sm Hsm cl (rc_class _ _ _ Hcl)) as [_ _ _ Hs _ _ _ _ _ _]. change kMaxSize with 262144 in Hs. lia.
Qed.
Lemma wp_do_malloc s L G U me n : mrep L G s U → room (threads_of s) me → 0 ≤ n < 2 ^ 64 → Z.of_nat (size G) < INT_MAX →
  wp ab (do_malloc sm log2 log sample_parameter tcb trace_Init allocator_Init GetStackTrace fuel me n) (made 1 s L G U n) s.
Proof.
  intros Hrep Hroom Hn Hfew. unfold do_malloc. apply wp_bind, wp_ret, wp_bind. eapply wp_GetCache; [exact Hrep|done|].
  intros h s1 heaps Hr1 Hh Hs1. apply wp_bind, wp_gets, wp_bind, wp_massert; [by eapply mrun_inited|].
  apply wp_bind, wp_massert; [apply negb_true_iff, Z.eqb_neq|]. { destruct Hr1 as [(g & P & [Hok _ _] & _) _]. by eapply (heaps_nonzero (ObjectPoolLaws0 := laws L G)). }
  apply wp_bind. eapply wp_sizemap; [exact Hr1|]. destruct (Z.le_gt_cases n kMaxSize) as [Hs|Hs].
  - destruct (ms_class _ Hsizes n) as (cl & E & Hcl); [lia|]. eapply wp_bind, wp_lift; [exact E|]. destruct (class_bytes _ _ Hcl) as [Eb Hb].
    eapply wp_bind, wp_lift; [exact Eb|]. apply wp_bind. eapply wp_sampling; [exact Hr1|done|lia|]. intros b s2 Hr2 _ Hs2.
    assert (stays (1 + 0) s U s2) as Hs12 by by eapply stays_trans. apply wp_if; intros _.
    + eapply (wp_made _ 1 0 _ _ _ _ _ _ (λ r, r)); [exact Hs12|]. by apply (wp_sampled_malloc s2 L G U heaps).
    + apply wp_bind. eapply wp_mono; [by apply (wp_take s2 L G U heaps h n cl)|]. intros r s3 Hm. eapply wp_checked; [exact Hm|]. by apply (made_from 1 0 s s2).
  - eapply wp_bind, wp_lift; [apply GetSizeClass_large; lia|]. eapply (wp_made _ 1 0 _ _ _ _ _ _ (λ r, r)); [exact Hs1|].
    change kMaxSize with 262144 in Hs. apply (wp_do_malloc_pages s1 L G U heaps); (done || lia).
Qed.

(** ** Where there is no memory *)
(** The hooks of the program do not change the allocator. *)
Variables (InvokeNewHook : Z → Z → MM unit) (InvokeDeleteHook : Z → MM unit).
Variable call_handler : Z → MM bool.
Hypothesis Hnew : ∀ p n s, InvokeNewHook p n s = Ok (tt, s).
Hypothesis Hdelete : ∀ p s, InvokeDeleteHook p s = Ok (tt, s).
Abbreviation domalloc := (do_malloc sm log2 log sample_parameter tcb trace_Init allocator_Init GetStackTrace fuel).
Abbreviation runoom := (run_oom sm log2 log sample_parameter tcb trace_Init allocator_Init GetStackTrace fuel call_handler).
Definition no_memory (o : oom_handler) : allocated := match o with cpp_throw_oom => BadAlloc | _ => Returned 0 end.
Lemma wp_hook (m : MM unit) (Q : () → State → Prop) s : (∀ s, m s = Ok (tt, s)) → Q tt s → wp ab m Q s.
Proof. intros Hm HQ. unfold wp. by rewrite Hm. Qed.
Lemma oom_loop_none n retry nothrow s : new_handler_ s = 0 →
  oom_loop call_handler (S n) retry nothrow s = Ok (if nothrow then Returned 0 else BadAlloc, s).
Proof. intros E. cbn [oom_loop]. destruct s. simpl in E. subst. done. Qed.
Lemma wp_handle_oom me retry from_operator nothrow (Q : allocated → State → Prop) s :
  settings_ok s → from_operator = true ∨ nothrow = true →
  (∀ s', aside s s' → errno s' !! me = Some ENOMEM → Q (if from_operator && negb nothrow then BadAlloc else Returned 0) s') →
  wp ab (handle_oom fuel call_handler me retry from_operator nothrow) Q s.
Proof.
  intros Hset Hb HQ. unfold handle_oom, set_errno. apply wp_bind, wp_act, wp_bind, wp_gets. set (s1 := with_errno _ _).
  assert (aside s s1) as Hs1 by by split. assert (errno s1 !! me = Some ENOMEM) as He by apply lookup_insert_eq. specialize (HQ s1 Hs1 He).
  assert (∃ k, fuel = S k) as (k & ->) by (destruct fuel; [simpl in fuel_enough; lia|by eexists]).
  assert (new_handler_ s1 = 0) as Hnh by apply Hset.
  apply wp_if; intros Em; [|unfold wp; rewrite (oom_loop_none k retry nothrow s1 Hnh)]; destruct from_operator, nothrow; cbn [negb andb] in *; try done; by destruct Hb.
Qed.
Lemma wp_run_oom o me n (Q : allocated → State → Prop) s : settings_ok s →
  (∀ s', aside s s' → errno s' !! me = Some ENOMEM → Q (no_memory o) s') → wp ab (runoom o me n) Q s.
Proof. intros Hset HQ. unfold run_oom. destruct o; apply wp_handle_oom; auto. Qed.

(** The answer to a request: a block, or no memory. *)
Inductive answers k o me s L G U n : allocated → State → Prop :=
  | answers_block p s' : p ≠ 0 → made k s L G U n p s' → answers k o me s L G U n (Returned p) s'
  | answers_none s' : made k s L G U n 0 s' → errno s' !! me = Some ENOMEM → answers k o me s L G U n (no_memory o) s'.
Lemma answers_from j k o me s s1 L G U n (r : allocated) s' : stays j s U s1 → answers k o me s1 L G U n r s' → answers (j + k) o me s L G U n r s'.
Proof. intros Hs []; [apply answers_block; [done|]|apply answers_none; [|done]]; by eapply made_from. Qed.
Lemma made_settings k s L G U n r s' : made k s L G U n r s' → settings_ok s'.
Proof. by intros (L' & G' & U' & heaps & _ & [_ ?] & _). Qed.
(** How the functions end, where the last check and the hook do nothing. *)
Lemma wp_finish k o me s L G U n p s1 (oom : MM allocated) (last : Z → MM Z) (R : allocated → State → Prop) :
  made k s L G U n p s1 →
  (∀ (Q : allocated → State → Prop), settings_ok s1 → (∀ s', aside s1 s' → errno s' !! me = Some ENOMEM → Q (no_memory o) s') → wp ab oom Q s1) →
  (∀ q s' (Q : Z → State → Prop), made k s L G U n q s' → Q q s' → wp ab (last q) Q s') →
  (p ≠ 0 → answers k o me s L G U n (Returned p) s1 → R (Returned p) s1) →
  (∀ s', answers k o me s L G U n (no_memory o) s' → R (no_memory o) s') →
  wp ab (r ← (if p =? 0 then oom else mret (Returned p)); then_return r last) R s1.
Proof.
  intros Hm Hoom Hlast HR1 HR0. apply wp_bind. destruct (Z.eqb_spec p 0) as [->|Hp].
  - apply Hoom; [by eapply made_settings|]. intros s2 Has He. assert (made k s L G U n 0 s2) as Hm2 by by eapply made_aside. pose proof (HR0 s2 (answers_none _ _ _ _ _ _ _ _ _ Hm2 He)) as HR. unfold then_return.
    destruct o; cbn [no_memory] in *; [by apply wp_ret|..]; apply wp_bind; eapply Hlast; try done; by apply wp_ret.
  - apply wp_ret, wp_bind. eapply Hlast; [done|]. apply wp_ret, HR1; [done|]. by apply answers_block.
Qed.
Lemma wp_hook_checked k s L G U n m q s' (Q : Z → State → Prop) : made k s L G U n q s' → Q q s' →
  wp ab (_ ← InvokeNewHook q m; on_pages (CheckedMallocResult q)) Q s'.
Proof. intros Hm HQ. apply wp_bind, wp_hook; [apply Hnew|]. by eapply wp_checked. Qed.

Abbreviation allocate_full := (do_allocate_full sm log2 log sample_parameter tcb trace_Init allocator_Init GetStackTrace fuel InvokeNewHook call_handler).
Lemma wp_do_allocate_full o s L G U me n : mrep L G s U → room (threads_of s) me → 0 ≤ n < 2 ^ 64 → Z.of_nat (size G) < INT_MAX →
  wp ab (allocate_full o me n) (answers 1 o me s L G U n) s.
Proof.
  intros Hrep Hroom Hn Hfew. unfold do_allocate_full. apply wp_bind. eapply wp_mono; [by eapply wp_do_malloc|]. intros p s1 Hm.
  eapply wp_finish; [exact Hm|intros Q; apply wp_run_oom| |done|done]. intros q s' Q Hm' HQ. by eapply wp_hook_checked.
Qed.
Variable new_hooks_empty : bool.
Abbreviation fast_path := (malloc_fast_path sm log2 log sample_parameter tcb trace_Init allocator_Init GetStackTrace fuel new_hooks_empty InvokeNewHook call_handler).
Lemma wp_GetFastPathCache s L G U me (Q : Z → State → Prop) : mrep L G s U → Q 0 s →
  (∀ h heaps, mrun L G s U heaps → h ∈ heaps → Q h s) → wp ab (on_threads (GetFastPathCache me)) Q s.
Proof.
  intros [Hrep Ht] HQ0 HQ. apply wp_on_threads. unfold GetFastPathCache. apply wp_bind, wp_local, wp_ret.
  replace (with_threads s (threads_of s)) with s by by destruct s.
  destruct Hrep as [[Hu _]|(g & P & heaps & Hst & HU)]; [by rewrite (us_local _ _ Hu)|]. pose proof (st_locals _ _ _ _ Hst) as Hlo.
  rewrite (lo_shape _ _ Hlo). simpl. destruct (lo_in _ _ Hlo me) as [->|Hin]; [done|]. apply (HQ _ heaps); [|done]. split; [by exists g, P|done].
Qed.
Lemma answers_more o me s L G U n (r : allocated) s' : answers 0 o me s L G U n r s' → answers 1 o me s L G U n r s'.
Proof. apply (answers_from 1 0). split; [done|done|lia]. Qed.
Lemma wp_malloc_fast_path o s L G U me n : mrep L G s U → room (threads_of s) me → 0 ≤ n < 2 ^ 64 → Z.of_nat (size G) < INT_MAX →
  wp ab (fast_path o me n) (answers 1 o me s L G U n) s.
Proof.
  intros Hrep Hroom Hn Hfew. pose proof (wp_do_allocate_full o s L G U me n Hrep Hroom Hn Hfew) as Hfull. unfold malloc_fast_path.
  destruct new_hooks_empty; [|exact Hfull]. cbn [negb]. apply wp_bind. eapply wp_GetFastPathCache; [exact Hrep|exact Hfull|]. intros h heaps Hr Hh.
  apply wp_if; intros _; [exact Hfull|]. apply wp_bind. eapply wp_sizemap; [exact Hr|]. destruct (Z.le_gt_cases n kMaxSize) as [Hs|Hs].
  2:{ eapply wp_bind, wp_lift; [apply GetSizeClass_large; lia|]. exact Hfull. }
  destruct (ms_class _ Hsizes n) as (cl & E & Hcl); [lia|]. eapply wp_bind, wp_lift; [exact E|]. destruct (class_bytes _ _ Hcl) as [Eb Hb].
  eapply wp_bind, wp_lift; [exact Eb|]. apply wp_bind. eapply wp_sampling_fast; [exact Hr|done|lia|]. intros b s1 Hr1 _ Hs1.
  destruct b; cbn [negb].
  - apply wp_bind. eapply wp_mono; [by apply (wp_take s1 L G U heaps h n cl)|]. intros p s2 Hm.
    assert (∀ (r : allocated) s', answers 0 o me s1 L G U n r s' → answers 1 o me s L G U n r s') as Hans.
    { intros r s' Ha. by apply (answers_more o me s), (answers_from 0 0 o me s s1). }
    eapply (wp_finish 0 o me s1); [exact Hm|intros Q; apply wp_run_oom| |auto|auto]. intros q s' Q Hm' HQ. by eapply wp_checked.
  - eapply wp_mono; [apply (wp_do_allocate_full o s1 L G U me n)|]; try done; [by eapply mrun_rep|eapply (stays_room 0 s); [exact Hs1|apply Hroom|]|].
    + intros E0. destruct Hroom as [_ Hroom]. specialize (Hroom E0). unfold caches_of. lia.
    + intros r s' Ha. by apply (answers_from 0 1 o me s s1).
Qed.

(** ** Aligned requests *)
Lemma made_aligned k s L G U n p s' j : made k s L G U n p s' → 0 < n → 0 ≤ j ≤ 13 → (n mod 2 ^ j = 0 ∨ kMaxSize < n) → p mod 2 ^ j = 0.
Proof.
  intros (L' & G' & U' & heaps & Ha & Hr & _) Hn Hj Hal. assert (2 ^ j ≠ 0) as Hz by (apply Z.pow_nonzero; lia).
  assert (∀ z, (8192 * z) mod 2 ^ j = 0) as Hpage.
  { intros z. apply Z.mod_divide; [done|]. apply Z.divide_mul_l. change 8192 with (2 ^ 13). exists (2 ^ (13 - j)). rewrite <- Z.pow_add_r by lia. f_equal. lia. }
  destruct (mrun_change _ _ _ _ _ Hr) as (P & [Hp _] & HU & _). destruct Ha as [->|cl Hcl Hpos Hnone|q u _ _ _ -> _|q u _ _ -> _]; [by apply Z.mod_0_l|..|done|done].
  eapply (object_aligned sm Hsm _ L P p cl j Hp); [eapply lookup_weaken; [apply lookup_insert_eq|exact HU]|done|].
  destruct Hal as [Hal|Hbig]; [by apply (rc_aligned _ _ _ Hcl)|]. exfalso. pose proof (rc_holds _ _ _ Hcl).
  pose proof (class_sizes_of sm Hsm cl (rc_class _ _ _ Hcl)) as [_ _ _ Hs _ _ _ _ _ _]. lia.
Qed.
Abbreviation memalign := (memalign_fast_path sm log2 log sample_parameter tcb trace_Init allocator_Init GetStackTrace fuel new_hooks_empty InvokeNewHook call_handler).
Definition aligned_to (align : Z) (r : allocated) : Prop := match r with Returned p => p mod align = 0 | BadAlloc => True end.
Lemma wp_memalign_small o s L G U me j n : mrep L G s U → room (threads_of s) me → 0 ≤ j ≤ 13 → 0 ≤ n < 2 ^ 64 → Z.of_nat (size G) < INT_MAX →
  wp ab (memalign o me (2 ^ j) n) (λ (r : allocated) s', ∃ m, n ≤ m < 2 ^ 64 ∧ answers 1 o me s L G U m r s' ∧ aligned_to (2 ^ j) r) s.
Proof.
  intros Hrep Hroom Hj Hn Hfew. assert (2 ^ j ≤ 2 ^ 13) by (apply Z.pow_le_mono_r; lia). unfold memalign_fast_path.
  rewrite (proj2 (Z.ltb_ge _ _)) by (change kPageSize with (2 ^ 13); lia). destruct (align_size_up_ok n j Hj Hn) as (m & E & Hm & Hpos & Hal).
  eapply wp_bind, wp_lift; [exact E|]. eapply wp_mono; [by apply (wp_malloc_fast_path o s L G U me m); (done || lia)|].
  intros r s' Ha. exists m. split; [done|]. split; [done|]. assert (2 ^ j ≠ 0) by (apply Z.pow_nonzero; lia).
  destruct Ha as [p s' _ Hmade|s' _ _]; [|by destruct o; try apply Z.mod_0_l]. by eapply made_aligned.
Qed.
Lemma wp_memalign_pages o s L G U heaps me k n : mrun L G s U heaps → 1 ≤ k ≤ 50 → 0 ≤ n < 2 ^ 64 →
  wp ab (memalign o me (2 ^ (13 + k)) n) (λ (r : allocated) s', answers 0 o me s L G U n r s' ∧ aligned_to (2 ^ (13 + k)) r) s.
Proof.
  intros Hr Hk Hn. assert (2 ^ 13 < 2 ^ (13 + k)) as Hlt by (apply Z.pow_lt_mono_r; lia). unfold memalign_fast_path.
  rewrite (proj2 (Z.ltb_lt _ _)) by (change kPageSize with (2 ^ 13); lia).
  assert (wp ab (on_pages (do_memalign_pages (2 ^ (13 + k)) n)) (λ p s', made 0 s L G U n p s' ∧ p mod 2 ^ (13 + k) = 0) s) as Hpages.
  { destruct (mrun_change _ _ _ _ _ Hr) as (P & [Hp Hs] & HU & Hback). apply wp_on_pages. eapply (wp_do_memalign_pages sm _ L P k n); [exact Hp|done|done|..].
    - intros c Hc Hw. destruct (Hback L G (with_central (statics_of s) c)) as [? ?]; [split; [done|by apply sampling_central]|done|]. split; [|by apply Z.mod_0_l; lia].
      exists L, G, U, heaps. split; [by apply allocs_null|done].
    - intros p u c HL Hc Hw Hal Hu. destruct (Hback (<[p := u]> L) G (with_central (statics_of s) c)) as [? ?]; [split; [done|]|done|].
      { eapply sampling_more; [by apply sampling_central|]. intros q _ Hq. apply lookup_insert_is_Some'. by right. }
      split; [|rewrite pow_13 by lia; by rewrite Z.mul_mod_distr_l, Hal by lia].
      exists (<[p := u]> L), G, U, heaps. split; [|done]. apply allocs_pages; try done; [exact (unsampled _ _ _ _ Hs HL)|]. destruct (pages_found _ _ _ _ _ _ Hc (lookup_insert_eq _ _ _)); done. }
  assert (∀ from nt, from = true ∨ nt = true → (if from && negb nt then BadAlloc else Returned 0) = no_memory o →
    wp ab (memalign_pages fuel InvokeNewHook call_handler me (2 ^ (13 + k)) n from nt) (λ (r : allocated) s', answers 0 o me s L G U n r s' ∧ aligned_to (2 ^ (13 + k)) r) s) as Hmain.
  { intros from nt Hb Eo. unfold memalign_pages. apply wp_bind. eapply wp_mono; [exact Hpages|]. intros p s1 [Hm Hal].
    eapply (wp_finish 0 o me s L G U n p s1); [exact Hm|..].
    - intros Q Hset HQ. apply wp_handle_oom; [done..|]. by rewrite Eo.
    - intros q s' Q Hm' HQ. by eapply wp_hook_checked.
    - intros _ Ha. by split.
    - intros s' Ha. split; [done|]. destruct o; [done|..]; by apply Z.mod_0_l; lia. }
  destruct o; apply Hmain; auto.
Qed.

(** ** [free] *)
Abbreviation free := (do_free_with_callback sm fuel).
Lemma wp_give s L G U heaps me x cl (Q : () → State → Prop) : mrun L G s U heaps → U !! x = Some cl →
  (∀ s', mrun L G s' (delete x U) heaps → stays 0 s (delete x U) s' → Q tt s') →
  wp ab (on_threads (free_object (sm := sm) InvalidFree me x cl)) Q s.
Proof.
  intros [Hr Ht] Hx HQ. apply wp_on_threads. eapply (wp_free_object (ObjectPoolLaws0 := laws L G)); [exact fuel|apply Hsm|exact Hr|exact Hx|].
  intros t Hr' Hk El. apply HQ; [by split|]. by eapply stays_running.
Qed.
Lemma wp_free_small s L G U heaps me x cl (use_hint : bool) hint (Q : () → State → Prop) : mrun L G s U heaps → U !! x = Some cl →
  (if use_hint then hint < kPageSize ∧ GetSizeClass sm hint = Ok (Some cl) else True) →
  (∀ s', mrun L G s' (delete x U) heaps → stays 0 s (delete x U) s' → Q tt s') → wp ab (free me x use_hint hint) Q s.
Proof.
  clear dependent sample_parameter. clear call_handler.
  intros Hr Hx Hh HQ. destruct (mrun_change _ _ _ _ _ Hr) as (P & [Hp Hs] & HU & Hback). pose proof (lookup_weaken _ _ _ _ Hx HU) as HPx.
  destruct (pool_rep_object sm Hsm L _ P x cl Hp HPx) as (Hcl & _). pose proof (class_sizes_of sm Hsm cl Hcl) as [_ _ _ Hsz _ _ _ _ _ _].
  destruct (object_found sm Hsm L _ P x cl x Hp HPx) as (p & u & k & [F1 F2 F3 F4 F5 _ _ _ F9]); [lia|].
  unfold do_free_with_callback. apply wp_bind, wp_massert; [destruct use_hint; [apply Z.ltb_lt; tauto|done]|]. apply wp_bind. eapply wp_sizemap; [exact Hr|].
  destruct use_hint.
  - destruct Hh as [_ E]. eapply wp_bind, wp_lift; [exact E|]. apply wp_bind, wp_ret. by eapply wp_give.
  - apply wp_bind, wp_ret, wp_bind. eapply wp_ask_pages; [exact F3|]. destruct F4 as [-> | ->]; [|by eapply wp_give].
    apply wp_bind. eapply wp_ask_pages; [exact F1|]. rewrite (proj2 (Z.eqb_neq p 0)) by lia. apply wp_bind. eapply wp_ask_pages; [exact F2|].
    rewrite F5, (proj2 (Z.eqb_neq cl 0)) by (unfold class_ok in Hcl; lia). cbn [negb]. apply wp_bind, wp_on_pages.
    eapply (wp_SetCachedSizeClass sm Hsm _ L P x cl); [exact Hp|exact HPx|]. intros c Hc Hw.
    destruct (Hback L G (with_central (statics_of s) c)) as [Hr1 Hs1]; [split; [done|by apply sampling_central]|done|].
    eapply wp_give; [exact Hr1|exact Hx|]. intros s' Hr' Hs'. apply HQ; [done|]. eapply (stays_trans 0 0); [|exact Hs'].
    destruct Hs1 as [S1 S2 S3]. split; [|done|done]. intros y Hy. apply S1. by apply lookup_delete_is_Some in Hy as [_ ?].
Qed.
Lemma wp_free_large s L G U heaps me p u (Q : () → State → Prop) : mrun L G s U heaps → L !! p = Some u →
  (∀ s', mrun (delete p L) (delete p G) s' U heaps → stays 0 s U s' → Q tt s') → wp ab (free me (8192 * u_start u) false 0) Q s.
Proof.
  intros Hr HL HQ. destruct (mrun_change _ _ _ _ _ Hr) as (P & Hps & HU & Hback). pose proof Hps as [Hp Hs].
  destruct (pages_found sm _ _ _ _ _ Hp HL) as [F1 F2 F3 F4 F5 _ _]. destruct (pool_large sm _ _ _ _ _ Hp HL) as [_ Hcl].
  unfold do_free_with_callback. cbv zeta. rewrite start_page. apply wp_bind, wp_massert; [done|]. apply wp_bind. eapply wp_sizemap; [exact Hr|].
  apply wp_bind, wp_ret, wp_bind. eapply wp_ask_pages; [exact F3|]. apply wp_bind. eapply wp_ask_pages; [exact F1|]. rewrite (proj2 (Z.eqb_neq p 0)) by lia.
  apply wp_bind. eapply wp_ask_pages; [exact F2|]. rewrite Hcl. change (0 =? 0) with true. cbv iota.
  apply wp_bind, wp_massert; [change kPageSize with 8192; by rewrite Z.mul_comm, Z_mod_mult|]. apply wp_bind, wp_massert; [apply Z.eqb_refl|].
  apply wp_on_statics. eapply (wp_do_free_pages sm _ L G P p u); [exact Hps|exact HL|]. intros c Hc Hw. destruct (Hback _ _ _ Hc Hw). by apply HQ.
Qed.
(** The null pointer. *)
Lemma null_unknown s L G U : mrep L G s U →
  MapObjectToSpan 0 (central (statics_of s)) = Ok (0, central (statics_of s)) ∧ TryGetSizeClass 0 (central (statics_of s)) = Ok (None, central (statics_of s)).
Proof.
  intros [[[Hu _]|(g & P & heaps & [[Hc _] _ _] & _)] _].
  - destruct (us_fresh _ _ Hu) as (_ & _ & h & a & v & E & Hg & _). unfold statics_of. rewrite E. change (central (Statics_static h a v)) with (central_static h). split.
    + unfold MapObjectToSpan, lift. change (Z.shiftr 0 kPageShift) with 0. change (pageheap (central_static h)) with h. by rewrite sh_null.
    + unfold TryGetSizeClass, lift. change (pagemap_cache_ (central_static h)) with Clear. rewrite (TryGet_spec _ _ table_empty); [done|done|apply Clear_spec|done].
  - destruct (ti_pool _ _ _ _ (tc_inv _ _ _ _ Hc)) as [Hp _]. by eapply null_found.
Qed.
Lemma wp_free_null s L G U me (Q : () → State → Prop) : mrep L G s U → Q tt s → wp ab (free me 0 false 0) Q s.
Proof.
  intros Hr HQ. destruct (null_unknown _ _ _ _ Hr) as [E1 E2]. unfold do_free_with_callback. cbv zeta. change (Z.shiftr 0 kPageShift) with 0.
  apply wp_bind, wp_massert; [done|]. unfold sizemap. apply wp_bind, wp_bind, wp_gets, wp_ret, wp_bind, wp_ret, wp_bind. eapply wp_ask_pages; [exact E2|].
  apply wp_bind. eapply wp_ask_pages; [exact E1|]. change (0 =? 0) with true. cbv iota. by apply wp_ret.
Qed.

(** ** Sizes *)
Abbreviation inv_size := (GetSizeWithCallback sm tcb trace_Init allocator_Init fuel).
Lemma wp_tc_nallocx s L G U heaps n (Q : Z → State → Prop) : mrun L G s U heaps → 0 ≤ n ≤ 2 ^ 63 → Q (nallocx sm n) s →
  wp ab (tc_nallocx sm tcb trace_Init allocator_Init fuel n 0) Q s.
Proof.
  clear call_handler.
  intros Hr Hn HQ. unfold tc_nallocx. change (negb (0 =? 0)) with false. cbv iota. apply wp_bind. eapply wp_sizemap; [exact Hr|]. unfold nallocx in HQ.
  destruct (Z.le_gt_cases n kMaxSize) as [Hs|Hs].
  - destruct (ms_class _ Hsizes n) as (cl & E & Hcl); [lia|]. rewrite E in HQ. eapply wp_bind, wp_lift; [exact E|]. pose proof (rc_class _ _ _ Hcl) as Hc. cbv beta iota.
    rewrite (proj2 (Z.eqb_neq cl 0)) by (unfold class_ok in Hc; lia). cbn [negb]. eapply wp_lift; [by apply (ByteSizeForClass_ok sm Hsm)|exact HQ].
  - assert (GetSizeClass sm n = Ok None) as E by (apply GetSizeClass_large; lia). rewrite E in HQ. eapply wp_bind, wp_lift; [exact E|]. unfold nallocx_slow.
    apply wp_bind, wp_gets. rewrite (mrun_inited _ _ _ _ _ Hr). apply wp_bind, wp_ret, wp_bind. eapply wp_sizemap; [exact Hr|].
    change (size_t (Z.shiftl 1 (Z.land 0 63))) with (2 ^ 0). unfold size_class_with_alignment. change (kPageSize <? 2 ^ 0) with false. cbv iota.
    destruct (align_size_up_ok n 0) as (m & Em & Hm & _); [lia..|]. eapply wp_bind, wp_lift.
    { rewrite Em. cbn [mbind outcome_bind]. rewrite GetSizeClass_large by lia. done. }
    apply wp_ret. rewrite shiftl_page, size_t_id; [exact HQ|]. rewrite pages_ok by lia. zdiv.
Qed.
Lemma wp_size_small s L G U heaps x cl inv (Q : Z → State → Prop) : mrun L G s U heaps → U !! x = Some cl → Q (csize sm cl) s → wp ab (inv_size x inv) Q s.
Proof.
  intros Hr Hx HQ. destruct (mrun_change _ _ _ _ _ Hr) as (P & [Hp Hs] & HU & _). pose proof (lookup_weaken _ _ _ _ Hx HU) as HPx.
  destruct (pool_rep_object sm Hsm L _ P x cl Hp HPx) as (Hcl & Hpos & _). pose proof (class_sizes_of sm Hsm cl Hcl) as [_ _ _ Hsz _ _ _ _ _ _].
  destruct (object_found sm Hsm L _ P x cl x Hp HPx) as (p & u & k & [F1 F2 F3 F4 F5 _ _ _ F9]); [lia|].
  unfold GetSizeWithCallback. rewrite (proj2 (Z.eqb_neq x 0)) by lia. apply wp_bind. eapply wp_sizemap; [exact Hr|]. apply wp_bind. eapply wp_ask_pages; [exact F3|].
  destruct F4 as [-> | ->]; [|by eapply wp_lift; [apply (ByteSizeForClass_ok sm Hsm)|]].
  apply wp_bind. eapply wp_ask_pages; [exact F1|]. rewrite (proj2 (Z.eqb_neq p 0)) by lia. apply wp_bind. eapply wp_ask_pages; [exact F2|].
  rewrite F5, (proj2 (Z.eqb_neq cl 0)) by (unfold class_ok in Hcl; lia). cbn [negb]. by eapply wp_lift; [apply (ByteSizeForClass_ok sm Hsm)|].
Qed.
Lemma wp_size_large s L G U heaps p u inv (Q : Z → State → Prop) : mrun L G s U heaps → sized L G → L !! p = Some u → Q (usable sm G p u) s →
  wp ab (inv_size (8192 * u_start u) inv) Q s.
Proof.
  clear call_handler.
  intros Hr Hz HL HQ. destruct (mrun_change _ _ _ _ _ Hr) as (P & [Hp Hs] & HU & _).
  destruct (pages_found sm _ _ _ _ _ Hp HL) as [F1 F2 F3 F4 F5 F6 F7]. destruct (pool_large sm _ _ _ _ _ Hp HL) as [_ Hcl].
  change (2 ^ kPageBits) with (2 ^ 35) in F7.
  unfold GetSizeWithCallback. rewrite (proj2 (Z.eqb_neq _ 0)) by lia. rewrite start_page. apply wp_bind. eapply wp_sizemap; [exact Hr|].
  apply wp_bind. eapply wp_ask_pages; [exact F3|]. apply wp_bind. eapply wp_ask_pages; [exact F1|]. rewrite (proj2 (Z.eqb_neq p 0)) by lia.
  apply wp_bind. eapply wp_ask_pages; [exact F2|]. rewrite Hcl. change (0 =? 0) with true. cbn [negb].
  unfold usable in HQ. apply wp_bind, wp_on_statics, wp_gets. change (set_statics s (with_central _ _)) with s.
  assert (set_statics s (statics_of s) = s) as Es by (by destruct s as [[]]). rewrite Es. destruct (G !! p) as [n|] eqn:EG.
  - destruct (sp_trace _ _ _ Hs p n EG) as (_ & st & t & E1 & E2 & E3). rewrite E1. apply wp_bind, wp_on_statics. unfold wp at 1. rewrite E2. cbn [lift mbind outcome_bind].
    rewrite Es, E3. destruct (Hz p u n HL EG) as [Hn Hu]. eapply wp_tc_nallocx; [exact Hr| |exact HQ].
    rewrite pages_ok in Hu by lia. assert ((Z.max 1 n + 8191) / 8192 ≤ 2 ^ 35) by lia. zdiv.
  - assert (sampled_spans (statics_of s) !! p = None) as ->.
    { apply eq_None_not_Some. intros [n Hn]%(sp_span _ _ _ Hs). congruence. }
    apply wp_ret. rewrite shiftl_page, size_t_id by lia. exact HQ.
Qed.

(** ** [calloc] *)
Abbreviation cpp_alloc := (do_malloc_or_cpp_alloc sm log2 log sample_parameter tcb trace_Init allocator_Init GetStackTrace fuel call_handler).
Lemma wp_cpp_alloc s L G U me n : mrep L G s U → room (threads_of s) me → 0 ≤ n < 2 ^ 64 → Z.of_nat (size G) < INT_MAX →
  wp ab (cpp_alloc me n) (λ r s', made 1 s L G U n r s' ∧ (r = 0 → errno s' !! me = Some ENOMEM)) s.
Proof.
  intros Hrep Hroom Hn Hfew. unfold do_malloc_or_cpp_alloc. apply wp_bind. eapply wp_mono; [by eapply wp_do_malloc|]. intros p s1 Hm.
  destruct (Z.eqb_spec p 0) as [->|Hp]; cbn [negb]; [|by apply wp_ret].
  apply wp_bind, wp_handle_oom; [by eapply made_settings|by right|]. intros s' Has He. apply wp_ret. split; [by eapply made_aside|done].
Qed.
Definition calloc_overflows (n e : Z) : bool := negb (e =? 0) && negb (size_t (n * e) / e =? n).
Lemma calloc_fits n e : 0 ≤ n < 2 ^ 64 → 0 ≤ e < 2 ^ 64 → calloc_overflows n e = false ↔ n * e < 2 ^ 64.
Proof.
  intros Hn He. unfold calloc_overflows. pose proof (Z.mod_pos_bound (n * e) (2 ^ 64) ltac:(lia)) as Hb. fold (size_t (n * e)) in Hb.
  destruct (Z.eqb_spec e 0) as [->|He0]; cbn [negb andb]; [split; [lia|done]|]. rewrite negb_false_iff, Z.eqb_eq. split.
  - intros E. destruct (Z.lt_ge_cases (n * e) (2 ^ 64)) as [|Hge]; [done|]. exfalso.
    assert (n * e ≤ size_t (n * e)); [|lia]. rewrite <- E at 1. rewrite Z.mul_comm. apply Z.mul_div_le. lia.
  - intros Hlt. rewrite size_t_id by lia. apply Z.div_mul. lia.
Qed.
End malloc.
