(* ===== verification/MallocBytes.v ===== *)
(** * The bytes of the blocks

    What [memset] and [memcpy] do to the bytes of memory, and that the entry points of the
    allocator change no byte but in the words of objects. *)
From stdpp Require Import base numbers list option gmap sets fin_maps fin_map_dom.
From Stdlib Require Import ZArith Lia Floats.SpecFloat Strings.Byte.
From S2P Require Import Prelude CMem SizeMap PackedCache SpanList SpanHeap SystemAlloc MetaData CentralFreeList CentralLists.
From S2P Require Import CentralSpec CentralCaches CentralFetch CentralInit CentralPool ObjectPool Sampler.
From S2P Require Import ThreadCache ThreadLists ThreadMoves ThreadSizes ThreadScavenge ThreadLimits ThreadSpec ThreadRegistry ThreadClient.
From S2P Require Import Malloc MallocSizes MallocPages MallocPool MallocBlocks MallocSpec.
Open Scope Z_scope.

(** ** Words and bytes *)
Lemma le_decode_byte bs i b : bs !! i = Some b → byte_of (le_decode bs) (Z.of_nat i) = b.
Proof.
  unfold byte_of. revert i. induction bs as [|c bs IH]; intros i Hi; [done|]. cbn [le_decode]. pose proof (b2z_range c).
  destruct i as [|i]; simpl in Hi.
  - injection Hi as ->. change (2 ^ (8 * Z.of_nat 0)) with 1. rewrite Z.div_1_r. unfold z2b.
    rewrite (Z.mul_comm 256), Z.mod_add, Z.mod_small by lia. change (Z.to_N (b2z b)) with (Z.to_N (Z.of_N (Byte.to_N b))). by rewrite N2Z.id, Byte.of_to_N.
  - rewrite <- (IH i Hi). replace (8 * Z.of_nat (S i)) with (8 + 8 * Z.of_nat i) by lia. rewrite Z.pow_add_r by lia. change (2 ^ 8) with 256.
    rewrite <- Z.div_div by lia. rewrite (Z.mul_comm 256), Z.div_add by lia. by rewrite (Z.div_small (b2z c)) by lia.
Qed.
Lemma byte_of_word f i : 0 ≤ i < 8 → byte_of (word_of f) i = f i.
Proof.
  intros Hi. rewrite <- (Z2Nat.id i) at 1 by lia. apply le_decode_byte. rewrite list_lookup_fmap.
  rewrite (proj2 (lookup_seqZ 0 8 (Z.to_nat i) i)); [done|]. lia.
Qed.
(** A store leaves the words that it does not touch. *)
Lemma overlay_off p n f x w : x + 8 ≤ p ∨ p + n ≤ x → overlay p n f x w = w.
Proof.
  intros Hx. unfold overlay. destruct (Z.leb_spec (x + 8) p); [done|]. destruct (Z.leb_spec (p + n) x); [done|lia].
Qed.
Lemma overlay_byte p n f x w i : 0 ≤ i < 8 →
  byte_of (overlay p n f x w) i = if in_range p n (x + i) then f (x + i) else byte_of w i.
Proof.
  intros Hi. unfold overlay, in_range. destruct (Z.leb_spec (x + 8) p), (Z.leb_spec (p + n) x); cbn [orb]; [..|by rewrite byte_of_word];
    by replace ((p <=? x + i) && (x + i <? p + n)) with false by lia.
Qed.

Section bytes.
Context {H A V T W : Type}.
Implicit Types s : Malloc (Statics H A V) T W.
Lemma read_store p n f s a :
  read_byte (store_bytes p n f s) a = if in_range p n a then f a else read_byte s a.
Proof.
  unfold read_byte. change (object_words (store_bytes p n f s)) with (map_imap (λ x w, Some (overlay p n f x w)) (object_words s)).
  rewrite map_lookup_imap. destruct (object_words s !! (8 * (a / 8))) as [w|]; cbn [mbind option_bind]; [|done].
  pose proof (Z.mod_pos_bound a 8 ltac:(lia)). rewrite overlay_byte by done. pose proof (Z.div_mod a 8 ltac:(lia)) as Ea. by rewrite <- Ea.
Qed.
Lemma read_store_in p n f s a : p ≤ a < p + n → read_byte (store_bytes p n f s) a = f a.
Proof. intros Ha. rewrite read_store. unfold in_range. by replace ((p <=? a) && (a <? p + n)) with true by lia. Qed.
Lemma read_store_out p n f s a : a < p ∨ p + n ≤ a → read_byte (store_bytes p n f s) a = read_byte s a.
Proof. intros Ha. rewrite read_store. unfold in_range. by replace ((p <=? a) && (a <? p + n)) with false by lia. Qed.
(** What a store does to the words, when it touches no other word than that at [x]. *)
Lemma overlay_words (ws : words) p n f x : (∀ y, is_Some (ws !! y) → y = x ∨ y + 8 ≤ p ∨ p + n ≤ y) →
  map_imap (λ x w, Some (overlay p n f x w)) ws = match ws !! x with Some w => <[x := overlay p n f x w]> ws | None => ws end.
Proof.
  intros Hoff. apply map_eq. intros y. rewrite map_lookup_imap. destruct (decide (y = x)) as [->|Hne].
  - destruct (ws !! x) as [w|] eqn:E; [by rewrite lookup_insert_eq|by rewrite E].
  - assert ((match ws !! x with Some w => <[x := overlay p n f x w]> ws | None => ws end) !! y = ws !! y) as ->.
    { destruct (ws !! x); [by rewrite lookup_insert_ne|done]. }
    destruct (ws !! y) as [w|] eqn:E; [|done]. cbn [mbind option_bind]. rewrite overlay_off; [done|].
    destruct (Hoff y) as [?|?]; [by rewrite E|done|done].
Qed.
End bytes.

(** ** Stores to blocks *)
Section stores.
Context {H : Type} `{SpanHeap H} `{!SpanHeapLaws H}.
Context {V : Type} `{SysAllocLaws V} {A : Type} `{!ObjAllocator A V} `{!ObjAllocatorLaws A V}.
Context {W : Type} `{SysAllocLaws W} {T : Type} `{!ObjAllocator T W} `{!ObjAllocatorLaws T W}.
Variable sm : SizeMap.
Variable fuel : nat.
Abbreviation State := (Malloc (Statics H A V) T W).
Implicit Types (s : State) (L : gmap Z use) (G : gmap Z Z) (U P : pool) (p x y n m : Z) (u : use) (heaps : list Z).
Hypothesis Hsizes : malloc_sizes sm.
Hypothesis fuel_enough : 2 ^ 17 < Z.of_nat fuel.
Abbreviation Hsm := (ms_ok sm Hsizes).
Abbreviation mrun := (mrun sm fuel Hsizes fuel_enough).

Lemma mrun_pool L G s U heaps : mrun L G s U heaps → ∃ P, pool_rep sm L (central (statics_of s)) P ∧ U ⊆ P.
Proof. intros Hr. destruct (mrun_change _ _ _ _ _ _ _ _ _ Hr) as (P & [Hp _] & HU & _). by exists P. Qed.
(** The only word in a block is the one at its start. *)
Lemma block_words L G s U heaps x n y : mrun L G s U heaps → sized L G → block sm L G U x n → is_Some (object_words s !! y) →
  y = x ∨ y + 8 ≤ x ∨ x + n ≤ y.
Proof.
  intros Hr Hz Hb Hy. destruct (mrun_pool _ _ _ _ _ Hr) as (P & Hp & HU). destruct Hb as [cl Hx ->|p u HL -> ->].
  - apply (words_apart_object sm Hsm _ L P x cl y Hp); [by eapply lookup_weaken|exact Hy].
  - destruct (page_block sm Hsizes _ _ _ _ Hp Hz p u HL) as (_ & _ & _ & Hus).
    destruct (words_apart_pages sm Hsm _ L P p u y Hp HL Hy); [by right; left|right; right; lia].
Qed.
Lemma block_aligned L G s U heaps x n : mrun L G s U heaps → block sm L G U x n → x mod 8 = 0.
Proof.
  intros Hr Hb. destruct (mrun_pool _ _ _ _ _ Hr) as (P & Hp & HU). destruct Hb as [cl Hx _|p u _ -> _].
  - pose proof (lookup_weaken _ _ _ _ Hx HU) as HPx. destruct (pool_rep_object sm Hsm L _ P x cl Hp HPx) as (Hcl & _).
    apply (object_aligned sm Hsm _ L P x cl 3 Hp HPx); [done|]. apply (class_sizes_of sm Hsm cl Hcl).
  - change 8192 with (1024 * 8). rewrite (Z.mul_comm 1024), <- Z.mul_assoc, Z.mul_comm. by apply Z_mod_mult.
Qed.
Lemma with_same_words s : with_object_words s (object_words s) = s.
Proof. by destruct s as [[? ? ? ? ? ? ? ? [[]]]]. Qed.
(** Bytes are stored to a block of the users. *)
Lemma mrun_store L G s U heaps x n p m f : mrun L G s U heaps → sized L G → block sm L G U x n → x ≤ p → p + m ≤ x + n →
  mrun L G (store_bytes p m f s) U heaps.
Proof.
  intros Hr Hz Hb Hp Hm. unfold store_bytes. rewrite (overlay_words _ p m f x).
  2:{ intros y Hy. destruct (block_words _ _ _ _ _ _ _ y Hr Hz Hb Hy); lia. }
  assert (∀ c (v : State), mrun L G v U heaps → mrun L G (with_contents v c) U heaps) as Hc by by intros c v.
  apply Hc. destruct (object_words s !! x) as [w|] eqn:Ew; [|by rewrite with_same_words].
  destruct Hb as [cl Hx ->|q u HL -> ->].
  - split; [|apply Hr]. exact (running_store (ObjectPoolLaws0 := laws sm fuel Hsizes fuel_enough L G) (threads_of s) U heaps x cl (overlay p m f x w) (proj1 Hr) Hx).
  - exfalso. destruct (mrun_pool _ _ _ _ _ Hr) as (P & Hpl & _).
    destruct (page_block sm Hsizes _ _ _ _ Hpl Hz q u HL) as (_ & _ & _ & Hus).
    destruct (words_apart_pages sm Hsm _ L P q u (8192 * u_start u) Hpl HL); [by eexists|lia..].
Qed.
(** A block that no store has touched has its bytes. *)
Lemma block_bytes L G s U heaps L' G' s' U' heaps' x n n' : mrun L G s U heaps → sized L G → block sm L G U x n →
  mrun L' G' s' U' heaps' → sized L' G' → block sm L' G' U' x n' →
  object_words s' !! x = object_words s !! x → contents s' = contents s →
  ∀ i, 0 ≤ i < Z.min n n' → read_byte s' (x + i) = read_byte s (x + i).
Proof.
  intros Hr Hz Hb Hr' Hz' Hb' Hw Hc i Hi. pose proof (block_aligned _ _ _ _ _ _ _ Hr Hb) as Hx. apply Z.mod_divide in Hx as [j ->]; [|done].
  unfold read_byte. assert (8 * ((j * 8 + i) / 8) = j * 8 ∨ j * 8 + 8 ≤ 8 * ((j * 8 + i) / 8) ≤ j * 8 + i) as [-> |Hy].
  { rewrite Z.div_add_l by done. pose proof (Z.div_mod i 8 ltac:(done)). pose proof (Z.mod_pos_bound i 8 ltac:(done)). pose proof (Z.div_pos i 8). lia. }
  - rewrite Hw, Hc. done.
  - set (y := 8 * ((j * 8 + i) / 8)) in *.
    assert (object_words s !! y = None) as ->.
    { apply eq_None_not_Some. intros Hy'. destruct (block_words _ _ _ _ _ _ _ y Hr Hz Hb Hy'); lia. }
    assert (object_words s' !! y = None) as ->.
    { apply eq_None_not_Some. intros Hy'. destruct (block_words _ _ _ _ _ _ _ y Hr' Hz' Hb' Hy'); lia. }
    by rewrite Hc.
Qed.
End stores.

(** ** The operations change no other byte *)
Section undisturbed.
Context {H : Type} `{SpanHeap H} {A V : Type} `{!ObjAllocator A V} {T W : Type} `{!ObjAllocator T W}.
Variable sm : SizeMap.
Variables log2 log : spec_float → spec_float.
Variable sample_parameter : Z.
Variable tcb : option Z.
Variable trace_Init : V → outcome (A * V).
Variable allocator_Init : W → outcome (T * W).
Variable GetStackTrace : list Z.
Variable fuel : nat.
Variable new_hooks_empty : bool.
Abbreviation State := (Malloc (Statics H A V) T W).
Abbreviation MM := (M State).
Variable InvokeNewHook : Z → Z → MM unit.
Variable call_handler : Z → MM bool.
Hypothesis Hnew : ∀ p n s, InvokeNewHook p n s = Ok (tt, s).
Implicit Types (s : State) (me ptr size : Z).

(** No new-handler is installed, and [c] are the bytes outside the words of objects. *)
Definition undisturbed (c : Z → byte) s : Prop := contents s = c ∧ new_handler_ s = 0.
Variable c : Z → byte.
Abbreviation still := (keeps (undisturbed c)).
Lemma still_gets {B} (f : State → B) : still (gets f).
Proof. by intros s a s' Hs [= _ <-]. Qed.
Lemma still_threads {B} (m : M (Threads (Statics H A V) T W) B) : still (on_threads m).
Proof. intros s a s' Hs. unfold on_threads. destruct (m (threads_of s)) as [[b t]| | |]; [|done..]. by intros [= _ <-]. Qed.
Lemma still_statics {B} (m : M (Statics H A V) B) : still (on_statics m).
Proof. apply still_threads. Qed.
Lemma still_pages {B} (m : M (Central H) B) : still (on_pages m).
Proof. apply still_threads. Qed.
Lemma still_sizemap : still (sizemap sm).
Proof. unfold sizemap. keep. Qed.
Lemma still_errno me e : still (set_errno me e).
Proof. apply keeps_act. by intros s. Qed.
Lemma still_assert b : still (MASSERT b).
Proof. apply keeps_lift. Qed.
Lemma still_hook p n : still (InvokeNewHook p n).
Proof. intros s a s' Hs. rewrite Hnew. by intros [= _ <-]. Qed.
#[local] Hint Resolve still_gets still_threads still_statics still_pages still_sizemap still_errno still_assert still_hook : keeps.

Lemma still_malloc_pages h n : still (do_malloc_pages log2 log sample_parameter GetStackTrace h n).
Proof. unfold do_malloc_pages, should_report_large, ReportLargeAlloc. keep; by intros. Qed.
#[local] Hint Resolve still_malloc_pages : keeps.
Abbreviation domalloc := (do_malloc sm log2 log sample_parameter tcb trace_Init allocator_Init GetStackTrace fuel).
Lemma still_malloc me n : still (domalloc me n).
Proof. unfold do_malloc, GetCache_malloc, IsUseEmergencyMalloc, IsInited. keep. Qed.
#[local] Hint Resolve still_malloc : keeps.
Lemma still_oom_loop n retry nothrow : still (oom_loop call_handler n retry nothrow).
Proof.
  destruct n; [apply keeps_lift|]. intros s a s' [Hc Hn]. rewrite oom_loop_none by done. by intros [= _ <-].
Qed.
#[local] Hint Resolve still_oom_loop : keeps.
Lemma still_handle_oom me retry from_operator nothrow : still (handle_oom fuel call_handler me retry from_operator nothrow).
Proof. unfold handle_oom. keep. Qed.
#[local] Hint Resolve still_handle_oom : keeps.
Lemma still_run_oom o me n : still (run_oom sm log2 log sample_parameter tcb trace_Init allocator_Init GetStackTrace fuel call_handler o me n).
Proof. unfold run_oom. keep. Qed.
#[local] Hint Resolve still_run_oom : keeps.
Lemma still_result r : still (nothrow_result r).
Proof. destruct r; keep. Qed.
#[local] Hint Resolve still_result : keeps.
Lemma still_then_return r k : (∀ p, still (k p)) → still (then_return r k).
Proof. intros Hk. destruct r; simpl; [|apply keeps_ret]. apply keeps_bind; [apply Hk|]. intros q. apply keeps_ret. Qed.
Lemma still_cpp_alloc me n : still (do_malloc_or_cpp_alloc sm log2 log sample_parameter tcb trace_Init allocator_Init GetStackTrace fuel call_handler me n).
Proof. unfold do_malloc_or_cpp_alloc. keep. Qed.
Lemma still_allocate_full o me n :
  still (do_allocate_full sm log2 log sample_parameter tcb trace_Init allocator_Init GetStackTrace fuel InvokeNewHook call_handler o me n).
Proof. unfold do_allocate_full. keep; apply still_then_return; intros; keep. Qed.
#[local] Hint Resolve still_allocate_full : keeps.
Abbreviation fast_path := (malloc_fast_path sm log2 log sample_parameter tcb trace_Init allocator_Init GetStackTrace fuel new_hooks_empty InvokeNewHook call_handler).
Lemma still_fast_path o me n : still (fast_path o me n).
Proof. unfold malloc_fast_path. keep; apply still_then_return; intros; keep. Qed.
#[local] Hint Resolve still_fast_path : keeps.
Lemma still_memalign_pages me align n from nothrow : still (memalign_pages fuel InvokeNewHook call_handler me align n from nothrow).
Proof. unfold memalign_pages. keep; apply still_then_return; intros; keep. Qed.
#[local] Hint Resolve still_memalign_pages : keeps.
Lemma still_memalign o me align n :
  still (memalign_fast_path sm log2 log sample_parameter tcb trace_Init allocator_Init GetStackTrace fuel new_hooks_empty InvokeNewHook call_handler o me align n).
Proof. unfold memalign_fast_path. keep. Qed.
Lemma still_free me ptr use_hint hint : still (do_free_with_callback sm fuel me ptr use_hint hint).
Proof. unfold do_free_with_callback. keep. Qed.
End undisturbed.
Lemma wp_keeps {S B} ab (m : M S B) (I : S → Prop) (Q : B → S → Prop) s :
  I s → keeps I m → wp ab m Q s → wp ab m (λ b s', Q b s' ∧ I s') s.
Proof. intros Hs Hk. unfold wp. destruct (m s) as [[b s']| | |] eqn:E; try done. intros HQ. split; [done|]. by apply (Hk s b). Qed.
