(* ===== verification/MallocClient.v ===== *)
(** * The allocator as a program sees it

    The blocks that the program has, each with the size it asked for: the abstract heap
    that [malloc], [free] and their relatives promise, and the theorem that they keep
    the promise from the start of the program on, over the thread caches, the central
    lists and the page heap. *)
From stdpp Require Import base numbers list option gmap sets fin_maps fin_map_dom.
From Stdlib Require Import ZArith Lia Floats.SpecFloat Strings.Byte.
From S2P Require Import Prelude SizeMap PackedCache SpanList SpanHeap SystemAlloc MetaData CentralFreeList CentralLists.
From S2P Require Import CentralSpec CentralCaches CentralFetch CentralInit CentralPool ObjectPool Sampler.
From S2P Require Import ThreadCache ThreadLists ThreadMoves ThreadSizes ThreadScavenge ThreadLimits ThreadSpec ThreadRegistry ThreadClient.
From S2P Require Import Malloc MallocSizes MallocPages MallocPool MallocBlocks MallocSpec MallocBytes.
Open Scope Z_scope.

(** What a program calls; and it stores bytes to its blocks. *)
Inductive malloc_op :=
  | OMalloc (n : Z)
  | ONew (n : Z)
  | ONewNothrow (n : Z)
  | OCalloc (n e : Z)
  | OMemalign (align n : Z)
  | ORealloc (ptr n : Z)
  | OFree (ptr : Z)
  | OFreeSized (ptr n : Z)
  | OSize (ptr : Z)
  | OStore (ptr i : Z) (v : byte).
(** The blocks, with the sizes asked for. *)
Abbreviation blocks := (gmap Z Z).
Definition put_block (r n : Z) (B : blocks) : blocks := if r =? 0 then B else <[r := n]> B.
Definition take_block (ptr : Z) (B : blocks) : blocks := if ptr =? 0 then B else delete ptr B.
Definition pointer (r : allocated) : Z := match r with Returned p => p | BadAlloc => 0 end.
Definition blocks_after (o : malloc_op) (a : allocated) (B : blocks) : blocks :=
  let r := pointer a in
  match o with
  | OMalloc n | ONew n | ONewNothrow n | OMemalign _ n => put_block r n B
  | OCalloc n e => put_block r (n * e) B
  | ORealloc ptr n =>
      if (n =? 0) && negb (ptr =? 0) then delete ptr B else
      if r =? 0 then B else <[r := n]> (take_block ptr B)
  | OFree ptr | OFreeSized ptr _ => take_block ptr B
  | OSize _ | OStore _ _ _ => B
  end.
(** No two blocks overlap, and each is aligned to 8 bytes. *)
Definition well_placed (B : blocks) : Prop :=
  (∀ x n, B !! x = Some n → 0 < x ∧ x mod 8 = 0) ∧ ∀ x y n m, B !! x = Some n → B !! y = Some m → x < y → x + n ≤ y.

Section client.
Context {H : Type} `{SpanHeap H} `{!SpanHeapLaws H}.
Context {V : Type} `{SysAllocLaws V} {A : Type} `{!ObjAllocator A V} `{!ObjAllocatorLaws A V}.
Context {W : Type} `{SysAllocLaws W} {T : Type} `{!ObjAllocator T W} `{!ObjAllocatorLaws T W}.
Variable sm : SizeMap.
Variables log2 log : spec_float → spec_float.
Variable sample_parameter : Z.
Variable tcb : option Z.
Variable trace_Init : V → outcome (A * V).
Variable allocator_Init : W → outcome (T * W).
Variable GetStackTrace : list Z.
Variable fuel : nat.
Variables new_hooks_empty delete_hooks_empty : bool.
Abbreviation State := (Malloc (Statics H A V) T W).
Abbreviation MM := (M State).
Variables (InvokeNewHook : Z → Z → MM unit) (InvokeDeleteHook : Z → MM unit).
Variable call_handler : Z → MM bool.
Implicit Types (s : State) (L : gmap Z use) (G : gmap Z Z) (U P : pool) (B : blocks) (me p r : Z) (u : use) (heaps : list Z) (o : malloc_op).
Abbreviation ab := (sh_ab (H := H)).

Abbreviation malloc := (tc_malloc sm log2 log sample_parameter tcb trace_Init allocator_Init GetStackTrace fuel new_hooks_empty InvokeNewHook call_handler).
Abbreviation new := (tc_new sm log2 log sample_parameter tcb trace_Init allocator_Init GetStackTrace fuel new_hooks_empty InvokeNewHook call_handler).
Abbreviation new_nothrow := (tc_new_nothrow sm log2 log sample_parameter tcb trace_Init allocator_Init GetStackTrace fuel new_hooks_empty InvokeNewHook call_handler).
Abbreviation memalign := (tc_memalign sm log2 log sample_parameter tcb trace_Init allocator_Init GetStackTrace fuel new_hooks_empty InvokeNewHook call_handler).
Abbreviation calloc := (tc_calloc sm log2 log sample_parameter tcb trace_Init allocator_Init GetStackTrace fuel InvokeNewHook call_handler).
Abbreviation realloc := (tc_realloc sm log2 log sample_parameter tcb trace_Init allocator_Init GetStackTrace fuel InvokeNewHook InvokeDeleteHook call_handler).
Abbreviation free := (tc_free sm fuel delete_hooks_empty InvokeDeleteHook).
Abbreviation free_sized := (tc_free_sized sm fuel delete_hooks_empty InvokeDeleteHook).
Abbreviation malloc_size := (tc_malloc_size sm tcb trace_Init allocator_Init fuel).
Definition run_malloc me o : MM allocated :=
  match o with
  | OMalloc n => p ← malloc me n; mret (Returned p)
  | ONew n => new me n
  | ONewNothrow n => p ← new_nothrow me n; mret (Returned p)
  | OCalloc n e => p ← calloc me n e; mret (Returned p)
  | OMemalign align n => p ← memalign me align n; mret (Returned p)
  | ORealloc ptr n => p ← realloc me ptr n; mret (Returned p)
  | OFree ptr => _ ← free me ptr; mret (Returned 0)
  | OFreeSized ptr n => _ ← free_sized me ptr n; mret (Returned 0)
  | OSize ptr => n ← malloc_size ptr; mret (Returned n)
  | OStore ptr i v => _ ← act (store_bytes (ptr + i) 1 (λ _, v)); mret (Returned 0)
  end.

(** The sampled blocks are fewer than [INT_MAX], and the thread has a cache or there is
    room for [k] more. *)
Definition able (k : Z) s me : Prop := Z.of_nat (size (traces (statics_of s))) < INT_MAX ∧
  u32 me ≠ 0 ∧ (owned (threads_of s) me = 0 → caches_of s + k ≤ kMaxCaches).
(** What a program may ask.  Blocks of pages that are aligned to more than a page need the module to be
    set up; a size given to [free] is of the class of the block. *)
Definition malloc_op_ok s B me o : Prop :=
  match o with
  | OMalloc n | ONew n | ONewNothrow n => 0 ≤ n < 2 ^ 64 ∧ able 1 s me
  | OCalloc n e => 0 ≤ n < 2 ^ 64 ∧ 0 ≤ e < 2 ^ 64 ∧ able 1 s me
  | OMemalign align n => 0 ≤ n < 2 ^ 64 ∧ able 1 s me ∧ ∃ j, 0 ≤ j ≤ 63 ∧ align = 2 ^ j ∧ (13 < j → phinited (threads_of s) = true)
  | ORealloc ptr n => 0 ≤ n < 2 ^ 64 ∧ able 2 s me ∧ (ptr = 0 ∨ is_Some (B !! ptr))
  | OFree ptr | OSize ptr => ptr = 0 ∨ is_Some (B !! ptr)
  | OFreeSized ptr n => is_Some (B !! ptr) ∧ (ptr mod kPageSize = 0 ∨
      n < kPageSize ∧ ∃ p u, MapObjectToSpan ptr (central (statics_of s)) = Ok (p, central (statics_of s)) ∧
        load_span p (central (statics_of s)) = Ok (u, central (statics_of s)) ∧ GetSizeClass sm n = Ok (Some (u_class u)))
  | OStore ptr i _ => ∃ k, B !! ptr = Some k ∧ 0 ≤ i < k
  end.
Definition written o (x : Z) : Prop := match o with OStore ptr i _ => x = ptr + i | _ => False end.
(** What a request gives: a new block, or nothing, where [errno] says so. *)
Definition gives me B (a : allocated) s' : Prop :=
  (pointer a = 0 → errno s' !! me = Some ENOMEM) ∧ (pointer a ≠ 0 → 0 < pointer a ∧ B !! pointer a = None).
(** The blocks that stay keep their bytes. *)
Definition others_kept s B o (a : allocated) s' : Prop := ∀ x k i,
  B !! x = Some k → is_Some (blocks_after o a B !! x) → 0 ≤ i < k → ¬ written o (x + i) → read_byte s' (x + i) = read_byte s (x + i).
Definition blocks_served s B me o (a : allocated) s' : Prop :=
  let r := pointer a in
  others_kept s B o a s' ∧
  match o with
  | OMalloc n | ONewNothrow n => a = Returned r ∧ gives me B a s'
  | ONew n => (a = BadAlloc ∨ r ≠ 0) ∧ gives me B a s'
  | OCalloc n e =>
      if n * e <? 2 ^ 64 then gives me B a s' ∧ (r ≠ 0 → ∀ i, 0 ≤ i < n * e → read_byte s' (r + i) = Byte.x00)
      else r = 0 ∧ s' = s
  | OMemalign align n => gives me B a s' ∧ r mod align = 0
  | ORealloc ptr n =>
      if (n =? 0) && negb (ptr =? 0) then r = 0 else
      (r = 0 → errno s' !! me = Some ENOMEM) ∧
      (r ≠ 0 → (r = ptr ∨ B !! r = None) ∧
        ∀ k i, B !! ptr = Some k → 0 ≤ i < Z.min k n → read_byte s' (r + i) = read_byte s (ptr + i))
  | OFree _ | OFreeSized _ _ => True
  | OSize ptr => s' = s ∧ (ptr = 0 → r = 0) ∧ ∀ k, B !! ptr = Some k → k ≤ r ∧ ∀ y m, B !! y = Some m → ptr < y → ptr + r ≤ y
  | OStore ptr i v => read_byte s' (ptr + i) = v
  end.
(** The states a program can bring the allocator to. *)
Inductive malloc_reachable : State → blocks → Prop :=
  | malloc_start flag h a v t w bytes : flag ≤ 2 ^ 62 → sh_good h → (∀ p u, sh_used h !! p = Some u → u_class u = 0) → sa_wf v → sa_wf w →
      malloc_reachable (Malloc_static flag h a v t w bytes) ∅
  | malloc_next s B me o a s' : malloc_reachable s B → malloc_op_ok s B me o → run_malloc me o s = Ok (a, s') →
      malloc_reachable s' (blocks_after o a B).

Hypothesis Hsizes : malloc_sizes sm.
Hypothesis fuel_enough : 2 ^ 17 < Z.of_nat fuel.
Hypothesis Hgaps : gaps_ok log2 log sample_parameter.
Hypothesis Htrace : ∀ v, sa_wf v → trace_Init v = Throws OutOfMemory ∨
  ∃ a v', trace_Init v = Ok (a, v') ∧ sa_wf v' ∧ oa_rep a v' ∅.
Hypothesis Halloc : ∀ w, sa_wf w → allocator_Init w = Throws OutOfMemory ∨
  ∃ a w', allocator_Init w = Ok (a, w') ∧ sa_wf w' ∧ oa_rep a w' ∅.
Hypothesis Hnew : ∀ p n s, InvokeNewHook p n s = Ok (tt, s).
Hypothesis Hdelete : ∀ p s, InvokeDeleteHook p s = Ok (tt, s).
Abbreviation Hsm := (ms_ok sm Hsizes).
Abbreviation mrun_pool := (mrun_pool sm fuel Hsizes fuel_enough).
Abbreviation made := (made sm fuel Hsizes fuel_enough).
Abbreviation mrep := (mrep sm fuel Hsizes fuel_enough).
Abbreviation mrun := (mrun sm fuel Hsizes fuel_enough).
Abbreviation answers := (answers sm fuel Hsizes fuel_enough).
Ltac env := first [exact Hsizes | exact fuel_enough | exact Hgaps | exact Htrace | exact Halloc | exact Hnew | exact Hdelete].

(** ** The blocks of a state *)
Record lists_blocks L G U B : Prop := {
  lb_sized : sized L G;
  lb_block x k : B !! x = Some k → ∃ n, block sm L G U x n ∧ 0 ≤ k ≤ n;
  lb_all x n : block sm L G U x n → is_Some (B !! x);
}.
Definition holds s B : Prop := ∃ L G U, mrep L G s U ∧ lists_blocks L G U B.
Lemma mrep_started L G s U x n : mrep L G s U → block sm L G U x n → ∃ heaps, mrun L G s U heaps.
Proof.
  intros [[[Hu ->]|(g & P & heaps & Hst & HU)] Ht] Hb; [|exists heaps; split; [by exists g, P|done]].
  destruct (us_fresh _ _ Hu) as (-> & -> & _). destruct Hb as [cl Hx _|p u Hp _ _]; [by rewrite lookup_empty in Hx|by rewrite lookup_empty in Hp].
Qed.
Lemma few_sampled k s L G U me : mrep L G s U → able k s me → Z.of_nat (size G) < INT_MAX.
Proof.
  intros [[[Hu ->]|(g & P & heaps & [[Hc _] _ _] & _)] _] [Hf _].
  - destruct (us_fresh _ _ Hu) as (_ & -> & _). rewrite map_size_empty. done.
  - destruct (ti_pool _ _ _ _ (tc_inv _ _ _ _ Hc)) as [_ Hs]. rewrite <- (sp_size _ _ _ Hs). exact Hf.
Qed.
Lemma able_room s me : able 1 s me → room (threads_of s) me.
Proof. intros (_ & Hme & Hr). split; [done|]. intros E. specialize (Hr E). unfold caches_of in Hr. lia. Qed.
(** Where the blocks are. *)
Lemma block_placed L G s U heaps x n : mrun L G s U heaps → sized L G → block sm L G U x n → 0 < x ∧ x mod 8 = 0.
Proof.
  intros Hr Hz Hb. destruct (mrun_pool _ _ _ _ _ Hr) as (P & Hp & HU).
  split; [by destruct (block_pos sm Hsizes _ L G U P Hp HU Hz x n Hb)|]. by apply (block_aligned sm fuel Hsizes fuel_enough L G s U heaps x n).
Qed.
Lemma holds_placed s B : holds s B → well_placed B.
Proof.
  intros (L & G & U & Hrep & [Hz Hb _]). split.
  - intros x n Hx. destruct (Hb x n Hx) as (m & Hm & _). destruct (mrep_started _ _ _ _ _ _ Hrep Hm) as [heaps Hr]. by eapply block_placed.
  - intros x y n m Hx Hy Hlt. destruct (Hb x n Hx) as (n' & Hn' & Hnn), (Hb y m Hy) as (m' & Hm' & Hmm).
    destruct (mrep_started _ _ _ _ _ _ Hrep Hn') as [heaps Hr]. destruct (mrun_pool _ _ _ _ _ Hr) as (P & Hp & HU).
    pose proof (blocks_apart sm Hsizes _ _ _ _ _ Hp HU Hz x y n' m' Hn' Hm' Hlt). lia.
Qed.

(** ** What changes *)
(** The words, and the bytes, of the blocks [B] stay. *)
Definition words_same B s s' : Prop := ∀ x, is_Some (B !! x) → object_words s' !! x = object_words s !! x.
Definition kept B s s' : Prop := ∀ x k i, B !! x = Some k → 0 ≤ i < k → read_byte s' (x + i) = read_byte s (x + i).
Lemma bytes_kept_sub B B' s s' : B' ⊆ B → kept B s s' → kept B' s s'.
Proof. intros Hs Hk x k i Hx. apply Hk. by eapply lookup_weaken. Qed.
Lemma bytes_kept_trans B s1 s2 s3 : kept B s1 s2 → kept B s2 s3 → kept B s1 s3.
Proof. intros Hk1 Hk2 x k i Hx Hi. by rewrite (Hk2 x k), (Hk1 x k). Qed.
Lemma holds_bytes B B1 B2 s s' : holds s B1 → holds s' B2 → B ⊆ B1 → B ⊆ B2 → words_same B s s' → contents s' = contents s → kept B s s'.
Proof.
  intros (L1 & G1 & U1 & Hr1 & [Hz1 Hb1 _]) (L2 & G2 & U2 & Hr2 & [Hz2 Hb2 _]) Hs1 Hs2 Hw Hc x k i Hx Hi.
  destruct (Hb1 x k (lookup_weaken _ _ _ _ Hx Hs1)) as (n1 & Hn1 & Hk1), (Hb2 x k (lookup_weaken _ _ _ _ Hx Hs2)) as (n2 & Hn2 & Hk2).
  destruct (mrep_started _ _ _ _ _ _ Hr1 Hn1) as [heaps1 Hm1], (mrep_started _ _ _ _ _ _ Hr2 Hn2) as [heaps2 Hm2].
  eapply (block_bytes sm fuel Hsizes fuel_enough); [exact Hm1|exact Hz1|exact Hn1|exact Hm2|exact Hz2|exact Hn2|apply Hw; by eexists|done|lia].
Qed.
Lemma holds_undisturbed s B : holds s B → undisturbed (contents s) s.
Proof. by intros (L & G & U & [_ [_ ?]] & _). Qed.
(** An operation that changes no byte outside the words of objects. *)
Lemma wp_still {X} (m : MM X) (Q : X → State → Prop) s B : holds s B → keeps (undisturbed (contents s)) m →
  wp ab m (λ b s', contents s' = contents s → Q b s') s → wp ab m Q s.
Proof.
  intros Hh Hk Hm. eapply wp_mono; [by apply (wp_keeps ab m _ _ s (holds_undisturbed s B Hh) Hk Hm)|]. intros b s' [HQ [Hc _]]. by apply HQ.
Qed.
(** A store to a block. *)
Lemma holds_store s B x k p m f : holds s B → B !! x = Some k → x ≤ p → p + m ≤ x + k → holds (store_bytes p m f s) B.
Proof.
  intros (L & G & U & Hrep & Hl) Hx Hp Hm. destruct (lb_block _ _ _ _ Hl x k Hx) as (n & Hn & Hk). destruct (mrep_started _ _ _ _ _ _ Hrep Hn) as [heaps Hr].
  exists L, G, U. split; [|done]. eapply mrun_rep, (mrun_store sm fuel Hsizes fuel_enough _ _ _ _ _ x n); [exact Hr|apply Hl|exact Hn|lia..].
Qed.
Lemma store_off B x k p m f s y j i : well_placed B → B !! x = Some k → B !! y = Some j → y ≠ x → x ≤ p → p + m ≤ x + k → 0 ≤ i < j →
  read_byte (store_bytes p m f s) (y + i) = read_byte s (y + i).
Proof.
  intros [_ Hap] Hx Hy Hne Hp Hm Hi. apply read_store_out. assert (x < y ∨ y < x) as [Hlt|Hlt] by lia.
  - pose proof (Hap x y k j Hx Hy Hlt). lia.
  - pose proof (Hap y x j k Hy Hx Hlt). lia.
Qed.
Lemma store_kept B x k p m f s : well_placed B → B !! x = Some k → x ≤ p → p + m ≤ x + k → kept (delete x B) s (store_bytes p m f s).
Proof. intros Hw Hx Hp Hm y j i [Hne Hy]%lookup_delete_Some Hi. apply (store_off B x k p m f s y j i); (done || congruence). Qed.
Lemma page_no_word L G s U heaps p u : mrun L G s U heaps → L !! p = Some u → object_words s !! (8192 * u_start u) = None.
Proof.
  intros Hr HL. destruct (mrun_pool _ _ _ _ _ Hr) as (P & Hp & _). apply eq_None_not_Some. intros Hw.
  destruct (pages_found sm _ _ _ _ _ Hp HL) as [_ _ _ _ _ ? _]. destruct (words_apart_pages sm Hsm _ L P p u _ Hp HL Hw); lia.
Qed.
(** From one state to another, where the blocks [B'] are those that stay. *)
Lemma kept_blocks L G U B B' s L' G' U' heaps s' : mrep L G s U → lists_blocks L G U B → mrun L' G' s' U' heaps →
  (∀ x, is_Some (B' !! x) → is_Some (B !! x)) →
  (∀ x cl, U !! x = Some cl → is_Some (B' !! x) → object_words s' !! x = object_words s !! x) →
  (∀ p u, L !! p = Some u → is_Some (B' !! (8192 * u_start u)) → L' !! p = Some u) → words_same B' s s'.
Proof.
  intros Hrep [Hz Hb Ha] Hr Hsub HU HL x Hx. destruct (Hsub x Hx) as [n Hn]. destruct (Hb x n Hn) as (m & Hm & _).
  destruct (mrep_started _ _ _ _ _ _ Hrep Hm) as [heaps0 Hr0]. destruct Hm as [cl Hcl _|p u Hp -> _]; [by eapply HU|].
  by rewrite (page_no_word _ _ _ _ _ _ _ Hr0 Hp), (page_no_word _ _ _ _ _ _ _ Hr (HL _ _ Hp Hx)).
Qed.
Lemma made_holds k L G U B s n m r s' : mrep L G s U → lists_blocks L G U B → 0 ≤ m ≤ n → n < 2 ^ 64 → made k s L G U n r s' →
  holds s' (put_block r m B) ∧ (r ≠ 0 → 0 < r ∧ B !! r = None) ∧ words_same B s s'.
Proof.
  intros Hrep Hl Hm Hn (L' & G' & U' & heaps & Ha & Hr & [Hk _ _]). pose proof Hl as [Hz Hb Hall].
  assert (sized L' G') as Hz' by (eapply (sized_allocs sm); [exact Hz| |exact Ha]; lia). destruct (mrun_pool _ _ _ _ _ Hr) as (P & Hp & HU).
  assert (r ≠ 0 → B !! r = None) as Hfresh.
  { intros Hr0. apply eq_None_not_Some. intros [j Hj]. destruct (Hb r j Hj) as (n' & Hn' & _).
    exact (allocs_fresh sm Hsizes _ _ _ _ _ _ _ _ _ _ _ Hp HU Hz' Ha Hr0 Hn'). }
  assert (words_same B s s') as Hkept.
  { eapply kept_blocks; [exact Hrep|exact Hl|exact Hr|done|intros x cl Hx _; apply Hk; by eexists|].
    intros p u HL _. destruct Ha; try done; rewrite lookup_insert_ne; congruence. }
  destruct (allocs_block sm Hsizes L G U n r L' G' U' ltac:(lia) Ha) as [(-> & -> & -> & ->)|(Hr0 & j & Hj & Hnew' & Hold & Hcase)].
  - split; [|by split]. exists L, G, U. split; [by eapply mrun_rep|done].
  - split; [|split; [|done]; intros _; split; [done|apply Hfresh; lia]]. unfold put_block. rewrite (proj2 (Z.eqb_neq r 0)) by lia.
    exists L', G', U'. split; [by eapply mrun_rep|]. split; [done|..].
    + intros x i. rewrite lookup_insert_Some. intros [[<- <-]|[Hne Hx]]; [exists j; split; [done|lia]|].
      destruct (Hb x i Hx) as (n' & Hn' & Hi). exists n'. split; [by apply Hold|done].
    + intros x n' Hx. apply lookup_insert_is_Some'. destruct (Hcase x n' Hx) as [[-> _]|Hx']; [by left|right; by eapply Hall].
Qed.
Lemma made_kept k L G U B s n m r s' : mrep L G s U → lists_blocks L G U B → 0 ≤ m ≤ n → n < 2 ^ 64 → made k s L G U n r s' → contents s' = contents s →
  holds s' (put_block r m B) ∧ (r ≠ 0 → 0 < r ∧ B !! r = None) ∧ kept B s s'.
Proof.
  intros Hrep Hl Hm Hn Hmade Hc. destruct (made_holds _ _ _ _ _ _ _ m _ _ Hrep Hl Hm Hn Hmade) as (Hh & Hr & Hw). split; [done|]. split; [done|].
  apply (holds_bytes B B (put_block r m B)); [by exists L, G, U|done|done| |done|done].
  unfold put_block. destruct (Z.eqb_spec r 0) as [|Hr0]; [done|]. apply insert_subseteq. by apply Hr.
Qed.
Lemma holds_free_words s B me x (Q : () → State → Prop) (use_hint : bool) hint : holds s B → is_Some (B !! x) →
  (if use_hint then x mod kPageSize ≠ 0 ∧ hint < kPageSize ∧ ∃ p u, MapObjectToSpan x (central (statics_of s)) = Ok (p, central (statics_of s)) ∧
        load_span p (central (statics_of s)) = Ok (u, central (statics_of s)) ∧ GetSizeClass sm hint = Ok (Some (u_class u)) else hint = 0) →
  (∀ s', holds s' (delete x B) → words_same (delete x B) s s' → Q tt s') → wp ab (do_free_with_callback sm fuel me x use_hint hint) Q s.
Proof.
  intros (L & G & U & Hrep & Hl) [k Hk] Hhint HQ. pose proof Hl as [Hz Hb Hall].
  assert (∀ y, is_Some (delete x B !! y) → is_Some (B !! y)) as Hsub by by intros y [_ ?]%lookup_delete_is_Some. destruct (Hb x k Hk) as (n & Hn & _). destruct (mrep_started _ _ _ _ _ _ Hrep Hn) as [heaps Hr].
  destruct (mrun_pool _ _ _ _ _ Hr) as (P & Hp & HU). destruct Hn as [cl Hcl Ecl|p u HL -> _].
  - eapply wp_free_small; [exact Hr|exact Hcl| |].
    + destruct use_hint; [|done]. destruct Hhint as (_ & Hh & p & u & E1 & E2 & E3). split; [done|].
      pose proof (lookup_weaken _ _ _ _ Hcl HU) as HPx. destruct (pool_rep_object sm Hsm L _ P x cl Hp HPx) as (Hc & _). pose proof (class_sizes_of sm Hsm cl Hc) as [_ _ _ Hsz _ _ _ _ _ _].
      destruct (object_found sm Hsm L _ P x cl x Hp HPx) as (p' & u' & k' & [F1 F2 F3 F4 F5 _ _ _ F9]); [lia|]. rewrite E1 in F1. injection F1 as ->. rewrite E2 in F2. injection F2 as ->. by rewrite F5 in E3.
    + intros s' Hr' [Hw _ _]. assert (∀ y n, block sm L G (delete x U) y n ↔ y ≠ x ∧ block sm L G U y n) as Hblk by (intros; by eapply (block_free_object sm Hsizes _ L G U P)).
      assert (lists_blocks L G (delete x U) (delete x B)) as Hl'.
      { split; [done|..].
        - intros y i [Hne Hy]%lookup_delete_Some. destruct (Hb y i Hy) as (m & Hm & Hi). exists m. split; [apply Hblk; split; [congruence|done]|done].
        - intros y m [Hne Hy]%Hblk. rewrite lookup_delete_is_Some. split; [congruence|by eapply Hall]. }
      apply HQ; [exists L, G, (delete x U); split; [by eapply mrun_rep|done]|]. eapply kept_blocks; [exact Hrep|exact Hl|exact Hr'|apply Hsub| |done].
      intros y cl' Hy [Hne _]%lookup_delete_is_Some. apply Hw. exists cl'. by apply lookup_delete_Some.
  - destruct use_hint; [exfalso; destruct Hhint as [Hmis _]; apply Hmis; change kPageSize with 8192; by rewrite Z.mul_comm, Z_mod_mult|]. subst hint.
    eapply wp_free_large; [exact Hr|exact HL|]. intros s' Hr' [Hw _ _].
    assert (∀ y n, block sm (delete p L) (delete p G) U y n ↔ y ≠ 8192 * u_start u ∧ block sm L G U y n) as Hblk by (intros; by eapply (block_free_pages sm Hsizes _ L G U P)).
    apply HQ.
    + exists (delete p L), (delete p G), U. split; [by eapply mrun_rep|]. split; [by apply sized_delete|..].
      * intros y i [Hne Hy]%lookup_delete_Some. destruct (Hb y i Hy) as (m & Hm & Hi). exists m. split; [apply Hblk; split; [congruence|done]|done].
      * intros y m [Hne Hy]%Hblk. rewrite lookup_delete_is_Some. split; [congruence|by eapply Hall].
    + eapply kept_blocks; [exact Hrep|exact Hl|exact Hr'|apply Hsub|intros y cl' Hy _; apply Hw; by eexists|].
      intros q v HLq [Hne _]%lookup_delete_is_Some. apply lookup_delete_Some. split; [|done]. intros ->. congruence.
Qed.

Lemma holds_free s B me x (Q : () → State → Prop) (use_hint : bool) hint : holds s B → is_Some (B !! x) →
  (if use_hint then x mod kPageSize ≠ 0 ∧ hint < kPageSize ∧ ∃ p u, MapObjectToSpan x (central (statics_of s)) = Ok (p, central (statics_of s)) ∧
        load_span p (central (statics_of s)) = Ok (u, central (statics_of s)) ∧ GetSizeClass sm hint = Ok (Some (u_class u)) else hint = 0) →
  (∀ s', holds s' (delete x B) → kept (delete x B) s s' → Q tt s') → wp ab (do_free_with_callback sm fuel me x use_hint hint) Q s.
Proof.
  intros Hh Hx Hhint HQ. eapply wp_still; [exact Hh|by apply still_free|]. eapply holds_free_words; [exact Hh|exact Hx|exact Hhint|].
  intros s' Hh' Hw Hc. apply HQ; [done|]. by apply (holds_bytes (delete x B) B (delete x B)); try done; apply delete_subseteq.
Qed.

(** ** The size of a block *)
Definition ends_before_next B x n : Prop := ∀ y m, B !! y = Some m → x < y → x + n ≤ y.
Lemma wp_block_size s B x k inv (Q : Z → State → Prop) : holds s B → B !! x = Some k →
  (∀ n, k ≤ n < 2 ^ 63 → ends_before_next B x n → (∀ j, 0 ≤ j ≤ n → holds s (<[x := j]> B)) → Q n s) → wp ab (GetSizeWithCallback sm tcb trace_Init allocator_Init fuel x inv) Q s.
Proof.
  intros (L & G & U & Hrep & [Hz Hb Hall]) Hk HQ. destruct (Hb x k Hk) as (n & Hn & Hkn). destruct (mrep_started _ _ _ _ _ _ Hrep Hn) as [heaps Hr].
  destruct (mrun_pool _ _ _ _ _ Hr) as (P & Hp & HU). assert (ends_before_next B x n) as He.
  { intros y m Hy Hlt. destruct (Hb y m Hy) as (m' & Hm' & _). by apply (blocks_apart sm Hsizes _ _ _ _ _ Hp HU Hz x y n m'). }
  assert (∀ j, 0 ≤ j ≤ n → holds s (<[x := j]> B)) as Hres.
  { intros j Hj. exists L, G, U. split; [done|]. split; [done|..].
    - intros y i [[<- <-]|[_ Hy]]%lookup_insert_Some; [by exists n|by apply Hb].
    - intros y m Hy. apply lookup_insert_is_Some'. right. by eapply Hall. }
  destruct Hn as [cl Hcl ->|p u HL -> ->].
  - eapply wp_size_small; [exact Hr|exact Hcl|]. apply HQ; [|done..]. pose proof (lookup_weaken _ _ _ _ Hcl HU) as HPx. destruct (pool_rep_object sm Hsm L _ P x cl Hp HPx) as (Hc & _).
    pose proof (class_sizes_of sm Hsm cl Hc) as [_ _ _ Hsz _ _ _ _ _ _]. change kMaxSize with 262144 in Hsz. lia.
  - eapply wp_size_large; [exact Hr|exact Hz|exact HL|]. apply HQ; [|done..]. destruct (page_block sm Hsizes _ _ _ _ Hp Hz p u HL) as (Hu & _ & _ & ?).
    pose proof (sh_range _ _ _ (pool_good sm _ _ _ Hp) Hu) as (_ & Hst & _ & Hend). change (2 ^ kPageBits) with (2 ^ 35) in Hend. lia.
Qed.
Lemma page_of_pos x : 0 < x → Z.shiftr x kPageShift < 2 ^ kPageBits → (0 <? Z.shiftr (Z.shiftr x kPageShift) (48 - kPageShift)) = false.
Proof.
  intros Hx Hlt. change (48 - kPageShift) with 35. change (2 ^ kPageBits) with (2 ^ 35) in Hlt. assert (0 ≤ Z.shiftr x kPageShift) by (apply Z.shiftr_nonneg; lia).
  rewrite (Z.shiftr_div_pow2 _ 35), Z.div_small by lia. done.
Qed.
Lemma wp_owned s B x (Q : bool → State → Prop) : holds s B → is_Some (B !! x) → Q true s → wp ab (on_pages (GetOwnership x)) Q s.
Proof.
  intros (L & G & U & Hrep & [Hz Hb Hall]) [k Hk] HQ. destruct (Hb x k Hk) as (n & Hn & _). destruct (mrep_started _ _ _ _ _ _ Hrep Hn) as [heaps Hr].
  destruct (mrun_pool _ _ _ _ _ Hr) as (P & Hp & HU). destruct (block_placed _ _ _ _ _ _ _ Hr Hz Hn) as [Hx _]. eapply wp_ask_pages; [|exact HQ].
  assert (∃ p j, 0 < p ∧ Z.shiftr x kPageShift < 2 ^ kPageBits ∧ TryGetSizeClass (Z.shiftr x kPageShift) (central (statics_of s)) = Ok (j, central (statics_of s)) ∧
    MapObjectToSpan x (central (statics_of s)) = Ok (p, central (statics_of s))) as (p & j & Hp0 & Hpg & E1 & E2).
  { destruct Hn as [cl Hcl _|p u HL -> _].
    - pose proof (lookup_weaken _ _ _ _ Hcl HU) as HPx. destruct (pool_rep_object sm Hsm L _ P x cl Hp HPx) as (Hc & _). pose proof (class_sizes_of sm Hsm cl Hc) as [_ _ _ Hsz _ _ _ _ _ _].
      destruct (object_found sm Hsm L _ P x cl x Hp HPx) as (p & u & j & [F1 F2 F3 F4 F5 F6 F7 F8 F9]); [lia|]. exists p, j. split_and!; try done.
      destruct F6 as (_ & _ & _ & ?). unfold has_page in F8. lia.
    - destruct (pages_found sm _ _ _ _ _ Hp HL) as [F1 F2 F3 F4 F5 F6 F7]. exists p, None. rewrite start_page. split_and!; try done. lia. }
  unfold GetOwnership. cbv zeta. rewrite page_of_pos by done. erewrite M_bind_ok by exact E1. destruct j; [done|]. erewrite M_bind_ok by exact E2.
  by rewrite (proj2 (Z.eqb_neq p 0)) by lia.
Qed.

(** ** [realloc] *)
Abbreviation cpp_alloc := (do_malloc_or_cpp_alloc sm log2 log sample_parameter tcb trace_Init allocator_Init GetStackTrace fuel call_handler).
Lemma wp_grow_block s L G U me lower n (grow : bool) : mrep L G s U → able 2 s me → 0 ≤ n < 2 ^ 64 → (grow = true → n ≤ lower < 2 ^ 64) →
  wp ab (new_ptr ← (if grow then cpp_alloc me lower else mret 0); if new_ptr =? 0 then cpp_alloc me n else mret new_ptr)
    (λ r s', ∃ m, n ≤ m < 2 ^ 64 ∧ made 2 s L G U m r s' ∧ (r = 0 → errno s' !! me = Some ENOMEM)) s.
Proof.
  intros Hrep Hable Hn Hgrow. pose proof (few_sampled _ _ _ _ _ _ Hrep Hable) as Hfew. destruct Hable as (_ & Hme & Hroom).
  apply wp_bind, (wp_mono _ _ (λ p s1, (p ≠ 0 ∧ made 1 s L G U lower p s1 ∧ grow = true) ∨ (p = 0 ∧ mrep L G s1 U ∧ stays sm fuel 1 s U s1))).
  { destruct grow.
    - specialize (Hgrow eq_refl). eapply wp_mono; [eapply wp_cpp_alloc; try env; [exact Hrep| |lia|done]|].
      + split; [done|]. intros E. specialize (Hroom E). unfold caches_of in Hroom. lia.
      + intros p s1 [Hm _]. destruct (decide (p = 0)) as [->|Hp]; [right|by left]. split; [done|].
        destruct Hm as (L' & G' & U' & heaps & Ha & Hr & Hs). destruct (allocs_block sm Hsizes L G U lower 0 L' G' U' ltac:(lia) Ha) as [(_ & -> & -> & ->)|[? _]]; [|done].
        split; [by eapply mrun_rep|done].
    - apply wp_ret. right. split; [done|]. split; [done|]. split; [done|done|lia]. }
  intros p s1 [(Hp & Hm & Hg)|(-> & Hrep1 & Hs1)].
  - rewrite (proj2 (Z.eqb_neq p 0)) by done. apply wp_ret. exists lower. specialize (Hgrow Hg). split; [done|]. split; [|done].
    eapply (made_from _ _ _ _ 1 1 s s); [split; [done|done|lia]|exact Hm].
  - change (0 =? 0) with true. cbv iota. eapply wp_mono; [eapply wp_cpp_alloc; try env; [exact Hrep1| |lia|done]|].
    + eapply (stays_room _ _ 1 s); [exact Hs1|done|]. intros E. specialize (Hroom E). unfold caches_of in *. lia.
    + intros r s2 [Hm He]. exists n. split; [lia|]. split; [|done]. by eapply (made_from _ _ _ _ 1 1).
Qed.
(** The contents move to the new block, and the old one goes back. *)
Lemma wp_move_block s B me ptr k n old r (Q : Z → State → Prop) : holds s (<[r := n]> B) → B !! ptr = Some k → B !! r = None → 0 ≤ n → 0 ≤ k ≤ old →
  (∀ s', holds s' (<[r := n]> (delete ptr B)) → kept (delete ptr B) s s' →
     (∀ i, 0 ≤ i < Z.min k n → read_byte s' (r + i) = read_byte s (ptr + i)) → Q r s') →
  wp ab (_ ← InvokeNewHook r n; _ ← memcpy r ptr (if old <? n then old else n); _ ← InvokeDeleteHook ptr;
         _ ← do_free_with_callback sm fuel me ptr false 0; mret r) Q s.
Proof.
  intros Hh Hk Hfresh Hn Hold HQ. assert (r ≠ ptr) as Hne by congruence. apply wp_bind, wp_hook; [apply Hnew|].
  set (size := if old <? n then old else n). assert (Z.min k n ≤ size ≤ n) as Hsize by (unfold size; zcase; lia).
  apply wp_bind. unfold memcpy. apply wp_act. set (s2 := store_bytes _ _ _ s).
  assert (holds s2 (<[r := n]> B)) as Hh2 by (eapply (holds_store s _ r n r size); [exact Hh|apply lookup_insert_eq|lia|lia]).
  assert (kept B s s2) as Hk2.
  { rewrite <- (delete_insert_id B r n) by done. eapply (store_kept _ r n); [by apply (holds_placed s)|apply lookup_insert_eq|lia|lia]. }
  apply wp_bind, wp_hook; [apply Hdelete|].
  apply wp_bind. eapply holds_free; [exact Hh2|rewrite lookup_insert_ne by done; by eexists|done|]. intros s3 Hh3 Hk3. rewrite delete_insert_ne in Hh3, Hk3 by done.
  apply wp_ret, HQ; [exact Hh3|..].
  - apply (bytes_kept_trans _ s s2); [apply (bytes_kept_sub B); [apply delete_subseteq|done]|]. apply (bytes_kept_sub (<[r := n]> (delete ptr B))); [|done].
    apply insert_subseteq. rewrite lookup_delete_ne; [done|congruence].
  - intros i Hi. rewrite (Hk3 r n) by (try apply lookup_insert_eq; lia). unfold s2. rewrite read_store_in by lia. f_equal. lia.
Qed.
Lemma still_cpp me n c : keeps (undisturbed c) (cpp_alloc me n).
Proof. apply still_cpp_alloc. Qed.
Lemma wp_do_realloc s B me ptr k n (Q : Z → State → Prop) : holds s B → B !! ptr = Some k → able 2 s me → 0 ≤ n < 2 ^ 64 →
  (∀ s', holds s' B → kept B s s' → errno s' !! me = Some ENOMEM → Q 0 s') →
  (holds s (<[ptr := n]> B) → Q ptr s) →
  (∀ r s', 0 < r → B !! r = None → holds s' (<[r := n]> (delete ptr B)) → kept (delete ptr B) s s' →
     (∀ i, 0 ≤ i < Z.min k n → read_byte s' (r + i) = read_byte s (ptr + i)) → Q r s') →
  wp ab (do_realloc sm log2 log sample_parameter tcb trace_Init allocator_Init GetStackTrace fuel InvokeNewHook InvokeDeleteHook call_handler me ptr n) Q s.
Proof.
  intros Hh Hk Hable Hn HQ0 HQin HQnew. unfold do_realloc. apply wp_bind. eapply wp_block_size; [exact Hh|exact Hk|]. intros old Hold _ Hres. cbv zeta.
  set (lower := old + Z.min (old / 4) (2 ^ 64 - 1 - old)). pose proof Hh as (L & G & U & Hrep & Hl). pose proof Hl as [Hz Hb Hall].
  assert (0 ≤ k) by (by destruct (Hb ptr k Hk) as (? & _ & ? & _)).
  apply wp_if; intros Egrow.
  2:{ apply wp_bind, wp_hook; [apply Hdelete|]. apply wp_bind, wp_hook; [apply Hnew|]. apply wp_ret, HQin, Hres. apply orb_false_iff in Egrow as [?%Z.ltb_ge _]. lia. }
  clear Egrow HQin. pose proof (wp_grow_block s L G U me lower n ((old <? n) && (n <? lower)) Hrep Hable Hn) as Hg.
  assert (((old <? n) && (n <? lower)) = true → n ≤ lower < 2 ^ 64) as Hgc.
  { intros [_ ?%Z.ltb_lt]%andb_prop. split; [lia|]. unfold lower. lia. }
  specialize (Hg Hgc). eapply (wp_keeps ab _ (undisturbed (contents s))) in Hg; [|by eapply holds_undisturbed|].
  2:{ pose proof still_cpp as Hs. destruct (_ && _); keep; auto. }
  apply wp_bind_inv in Hg. apply wp_bind. eapply wp_mono; [exact Hg|]. clear Hg Hgc. intros p s0 Hg. cbv beta in Hg. apply wp_bind. eapply wp_mono; [exact Hg|]. clear Hg p s0.
  intros r s1 [(m & Hm & Hmade & Herr) [Hc _]]. destruct (made_kept _ _ _ _ _ _ _ n _ _ Hrep Hl (conj (proj1 Hn) (proj1 Hm)) (proj2 Hm) Hmade Hc) as (Hh1 & Hr & Hk1).
  destruct (Z.eqb_spec r 0) as [->|Hr0]; [apply wp_ret, HQ0; [exact Hh1|exact Hk1|by apply Herr]|]. destruct (Hr Hr0) as [Hpos Hfresh].
  unfold put_block in Hh1. rewrite (proj2 (Z.eqb_neq r 0)) in Hh1 by done. eapply wp_move_block; [exact Hh1|exact Hk|exact Hfresh|lia|lia|].
  intros s2 Hh2 Hk2 Hb2. apply HQnew; [done|done|exact Hh2|..].
  - apply (bytes_kept_trans _ s s1); [|done]. apply (bytes_kept_sub B); [apply delete_subseteq|done].
  - intros i Hi. rewrite Hb2 by done. apply (Hk1 ptr k); [done|lia].
Qed.

(** ** Every operation *)
Definition performs s B me o (a : allocated) s' : Prop := holds s' (blocks_after o a B) ∧ blocks_served s B me o a s'.
(** A request for [m] bytes or more that are asked for as [n]. *)
Lemma answers_holds handler me k L G U B s n m (a : allocated) s' : mrep L G s U → lists_blocks L G U B → 0 ≤ n ≤ m → m < 2 ^ 64 → answers k handler me s L G U m a s' → contents s' = contents s →
  holds s' (put_block (pointer a) n B) ∧ gives me B a s' ∧ kept B s s' ∧ (a = Returned (pointer a) ∨ a = BadAlloc ∧ handler = cpp_throw_oom) ∧ (handler = cpp_throw_oom → a = BadAlloc ∨ pointer a ≠ 0).
Proof.
  intros Hrep Hl Hn Hm [p s1 Hp Hmade|s1 Hmade He] Hc; destruct (made_kept _ _ _ _ _ _ _ n _ _ Hrep Hl Hn Hm Hmade Hc) as (Hh & Hr & Hk).
  - split; [exact Hh|]. split; [by split|]. split; [done|]. split; [by left|by right].
  - assert (pointer (no_memory handler) = 0) as Ep by by destruct handler. rewrite Ep. split; [exact Hh|]. split; [split; [done|by rewrite Ep]|]. split; [done|].
    split; [destruct handler; auto|intros ->; by left].
Qed.
Lemma performs_request s B me o (a : allocated) s' n : blocks_after o a B = put_block (pointer a) n B → holds s' (put_block (pointer a) n B) → kept B s s' →
  (kept B s s' → others_kept s B o a s' → blocks_served s B me o a s') → performs s B me o a s'.
Proof. intros E Hh Hk Hs. split; [by rewrite E|]. apply Hs; [done|]. intros x k i Hx _ Hi _. by apply (Hk x k). Qed.
Lemma run_request s B me n handler (Q : allocated → State → Prop) : holds s B → 0 ≤ n < 2 ^ 64 → able 1 s me →
  (∀ a s', holds s' (put_block (pointer a) n B) → gives me B a s' → kept B s s' → (a = Returned (pointer a) ∨ a = BadAlloc ∧ handler = cpp_throw_oom) → (handler = cpp_throw_oom → a = BadAlloc ∨ pointer a ≠ 0) → Q a s') →
  wp ab (malloc_fast_path sm log2 log sample_parameter tcb trace_Init allocator_Init GetStackTrace fuel new_hooks_empty InvokeNewHook call_handler handler me n) Q s.
Proof.
  intros Hh Hn Hable HQ. eapply wp_still; [exact Hh|apply still_fast_path; env|]. destruct Hh as (L & G & U & Hrep & Hl).
  eapply wp_mono; [eapply wp_malloc_fast_path; try env; [exact Hrep|by apply able_room|exact Hn|by eapply few_sampled]|].
  intros a s' Ha Hc. destruct (answers_holds _ _ _ _ _ _ _ _ n n _ _ Hrep Hl ltac:(lia) (proj2 Hn) Ha Hc) as (H1' & H2' & H3' & H4' & H5'). by apply HQ.
Qed.
Lemma run_malloc_ok s B me n : holds s B → malloc_op_ok s B me (OMalloc n) → wp ab (run_malloc me (OMalloc n)) (performs s B me (OMalloc n)) s.
Proof.
  intros Hh [Hn Hable]. cbn [run_malloc]. unfold tc_malloc. apply wp_bind, wp_bind, (run_request s B); [done..|]. intros a s' Hh' Hg Hk [E|[_ ?]] _; [|done]. rewrite E. apply wp_ret, wp_ret.
  rewrite <- E. eapply performs_request; [done|exact Hh'|done|]. intros _ Hw. split; [exact Hw|]. by split.
Qed.
Lemma run_new_ok s B me n : holds s B → malloc_op_ok s B me (ONew n) → wp ab (run_malloc me (ONew n)) (performs s B me (ONew n)) s.
Proof.
  intros Hh [Hn Hable]. cbn [run_malloc]. unfold tc_new. apply (run_request s B); [done..|]. intros a s' Hh' Hg Hk _ Hb.
  eapply performs_request; [done|exact Hh'|done|]. intros _ Hw. split; [exact Hw|]. split; [by apply Hb|done].
Qed.
Lemma run_new_nothrow_ok s B me n : holds s B → malloc_op_ok s B me (ONewNothrow n) → wp ab (run_malloc me (ONewNothrow n)) (performs s B me (ONewNothrow n)) s.
Proof.
  intros Hh [Hn Hable]. cbn [run_malloc]. unfold tc_new_nothrow. apply wp_bind, wp_bind, (run_request s B); [done..|]. intros a s' Hh' Hg Hk [E|[_ ?]] _; [|done]. rewrite E. apply wp_ret, wp_ret.
  rewrite <- E. eapply performs_request; [done|exact Hh'|done|]. intros _ Hw. split; [exact Hw|]. by split.
Qed.
Lemma wp_new_block s B me n (Q : Z → State → Prop) : holds s B → 0 ≤ n < 2 ^ 64 → able 1 s me →
  (∀ r s', holds s' (put_block r n B) → gives me B (Returned r) s' → kept B s s' → Q r s') → wp ab (cpp_alloc me n) Q s.
Proof.
  intros Hh Hn Hable HQ. eapply wp_still; [exact Hh|apply still_cpp|]. destruct Hh as (L & G & U & Hrep & Hl).
  eapply wp_mono; [eapply wp_cpp_alloc; try env; [exact Hrep|by apply able_room|exact Hn|by eapply few_sampled]|].
  intros r s' [Hm Herr] Hc. destruct (made_kept _ _ _ _ _ _ _ n _ _ Hrep Hl (conj (proj1 Hn) (Z.le_refl n)) (proj2 Hn) Hm Hc) as (Hh' & Hr & Hk). by apply HQ.
Qed.
Lemma wp_calloc s B me n e (Q : Z → State → Prop) : holds s B → 0 ≤ n < 2 ^ 64 → 0 ≤ e < 2 ^ 64 → able 1 s me →
  (2 ^ 64 ≤ n * e → Q 0 s) →
  (n * e < 2 ^ 64 → ∀ r s', holds s' (put_block r (n * e) B) → gives me B (Returned r) s' → kept B s s' →
     (r ≠ 0 → ∀ i, 0 ≤ i < n * e → read_byte s' (r + i) = Byte.x00) → Q r s') →
  wp ab (do_calloc sm log2 log sample_parameter tcb trace_Init allocator_Init GetStackTrace fuel call_handler me n e) Q s.
Proof.
  intros Hh Hn He Hable HQ0 HQ1. unfold do_calloc. cbv zeta. fold (calloc_overflows n e). pose proof (calloc_fits fuel n e Hn He) as Hov.
  apply wp_if; intros Eo.
  { apply wp_ret, HQ0. apply Z.le_ngt. intros Hlt. apply Hov in Hlt. congruence. }
  assert (n * e < 2 ^ 64) as Hlt by by apply Hov. rewrite size_t_id by lia. apply wp_bind, (wp_new_block s B); [done|lia|done|].
  intros r s1 Hh1 Hg Hk. destruct (Z.eqb_spec r 0) as [->|Hr]; cbn [negb]; [by apply wp_bind, wp_ret, wp_ret, HQ1|].
  apply wp_bind. unfold memset0. apply wp_act, wp_ret. destruct (proj2 Hg Hr) as [Hpos Hfresh]. cbn [pointer] in Hpos, Hfresh.
  unfold put_block in Hh1. rewrite (proj2 (Z.eqb_neq r 0)) in Hh1 by done. apply HQ1; [done|..].
  - unfold put_block. rewrite (proj2 (Z.eqb_neq r 0)) by done. eapply (holds_store s1 _ r (n * e)); [exact Hh1|apply lookup_insert_eq|lia..].
  - exact Hg.
  - apply (bytes_kept_trans _ s s1); [exact Hk|]. rewrite <- (delete_insert_id B r (n * e)) by done.
    eapply (store_kept _ r (n * e)); [by apply (holds_placed s1)|apply lookup_insert_eq|lia..].
  - intros _ i Hi. apply read_store_in. lia.
Qed.
Lemma run_calloc_ok s B me n e : holds s B → malloc_op_ok s B me (OCalloc n e) → wp ab (run_malloc me (OCalloc n e)) (performs s B me (OCalloc n e)) s.
Proof.
  intros Hh (Hn & He & Hable). cbn [run_malloc]. unfold tc_calloc, IsUseEmergencyMalloc. apply wp_bind, wp_bind, wp_ret, wp_bind, (wp_calloc s B); [done..| |].
  - intros Hov. apply wp_bind, wp_hook; [apply Hnew|]. apply wp_ret, wp_ret. split; [done|]. split; [done|]. by rewrite (proj2 (Z.ltb_ge _ _)) by lia.
  - intros Hfit r s' Hh' Hg Hk Hclr. apply wp_bind, wp_hook; [apply Hnew|]. apply wp_ret, wp_ret.
    eapply performs_request; [done|exact Hh'|done|]. intros _ Hw. split; [exact Hw|]. rewrite (proj2 (Z.ltb_lt _ _)) by lia. by split.
Qed.
Lemma run_memalign_ok s B me align n : holds s B → malloc_op_ok s B me (OMemalign align n) → wp ab (run_malloc me (OMemalign align n)) (performs s B me (OMemalign align n)) s.
Proof.
  intros Hh (Hn & Hable & j & Hj & -> & Hph). cbn [run_malloc]. unfold tc_memalign. apply wp_bind, wp_bind.
  eapply wp_still; [exact Hh|apply still_memalign; env|]. destruct Hh as (L & G & U & Hrep & Hl).
  apply (wp_mono _ _ (λ (a : allocated) s', ∃ k m, n ≤ m < 2 ^ 64 ∧ answers k malloc_oom me s L G U m a s' ∧ aligned_to (2 ^ j) a)).
  - destruct (Z.le_gt_cases j 13) as [Hj13|Hj13].
    + eapply wp_mono; [eapply wp_memalign_small; try env; [exact Hrep|by apply able_room|lia|exact Hn|by eapply few_sampled]|]. intros a s' (m & ? & ? & ?). by exists 1, m.
    + assert (∃ heaps, mrun L G s U heaps) as [heaps Hr].
      { destruct Hrep as [[[Hu _]|(g & P & heaps & Hst & HU)] Ht]; [|exists heaps; split; [by exists g, P|done]]. pose proof (us_ph _ _ Hu) as E. rewrite Hph in E by lia. done. }
      replace j with (13 + (j - 13)) by lia. eapply wp_mono; [eapply wp_memalign_pages; try env; [exact Hr|lia|exact Hn]|]. intros a s' [? ?]. exists 0, n. split; [lia|done].
  - intros a s' (k & m & Hm & Ha & Hal) Hc. destruct (answers_holds _ _ _ _ _ _ _ _ n m _ _ Hrep Hl ltac:(lia) (proj2 Hm) Ha Hc) as (H1' & H2' & H3' & [H4'|[_ ?]] & H5'); [|done].
    rewrite H4'. apply wp_ret, wp_ret. rewrite <- H4'. eapply performs_request; [done|exact H1'|done|]. intros _ Hw. split; [exact Hw|]. split; [done|]. rewrite H4' in Hal. exact Hal.
Qed.
Lemma block_nonzero s B x : holds s B → is_Some (B !! x) → x ≠ 0.
Proof. intros Hh [k Hk] ->. destruct (proj1 (holds_placed _ _ Hh) 0 k Hk). lia. Qed.
Lemma run_realloc_ok s B me ptr n : holds s B → malloc_op_ok s B me (ORealloc ptr n) → wp ab (run_malloc me (ORealloc ptr n)) (performs s B me (ORealloc ptr n)) s.
Proof.
  intros Hh (Hn & Hable & Hptr). cbn [run_malloc]. apply wp_bind. unfold tc_realloc. destruct (Z.eqb_spec ptr 0) as [->|Hp0].
  - assert (able 1 s me) as Hable1. { destruct Hable as (? & ? & Hr). split; [done|]. split; [done|]. intros E. specialize (Hr E). lia. }
    assert (B !! 0 = None) as HB0 by (apply eq_None_not_Some; intros HB; by apply (block_nonzero _ _ _ Hh HB)).
    apply wp_bind, (wp_new_block s B); [done..|]. intros r s' Hh' [Herr Hr] Hk. apply wp_bind, wp_hook; [apply Hnew|]. apply wp_ret, wp_ret.
    assert (blocks_after (ORealloc 0 n) (Returned r) B = put_block r n B) as Eb by (cbn [blocks_after pointer]; rewrite andb_false_r; done).
    eapply performs_request; [exact Eb|exact Hh'|done|]. intros _ Hw. split; [exact Hw|]. rewrite andb_false_r. split; [exact Herr|]. intros Hr0. split; [right; by apply Hr|]. intros k v Hk0. congruence.
  - destruct Hptr as [|[k Hk]]; [done|]. destruct (Z.eqb_spec n 0) as [->|Hn0].
    + apply wp_bind, wp_hook; [apply Hdelete|]. apply wp_bind. unfold do_free. eapply holds_free; [exact Hh|by eexists|done|]. intros s' Hh' Hk'. apply wp_ret, wp_ret.
      assert (((0 =? 0) && negb (ptr =? 0)) = true) as Eb by (rewrite (proj2 (Z.eqb_neq ptr 0)) by done; done).
      assert (blocks_after (ORealloc ptr 0) (Returned 0) B = delete ptr B) as Ea by (cbn [blocks_after]; by rewrite Eb).
      split; [by rewrite Ea|]. split; [|by rewrite Eb]. intros x k' i Hx Hx' Hi _. rewrite Ea in Hx'.
      apply (Hk' x k'); [|done]. apply lookup_delete_is_Some in Hx' as [Hne _]. by rewrite lookup_delete_ne.
    + assert (((n =? 0) && negb (ptr =? 0)) = false) as Eb by (rewrite (proj2 (Z.eqb_neq n 0)) by done; done).
      eapply wp_do_realloc; [exact Hh|exact Hk|exact Hable|exact Hn|..].
      * intros s' Hh' Hk' He. apply wp_ret. split; [cbn [blocks_after]; by rewrite Eb|]. split; [intros x k' i Hx _ Hi _; by apply (Hk' x k')|]. rewrite Eb. by split.
      * intros Hh'. apply wp_ret. split; [cbn [blocks_after pointer]; unfold take_block; by rewrite Eb, (proj2 (Z.eqb_neq ptr 0)), insert_delete_eq by done|]. split; [done|]. rewrite Eb. split; [done|]. intros _.
        split; [by left|done].
      * intros r s' Hpos Hfresh Hh' Hk' Hv. apply wp_ret. assert (blocks_after (ORealloc ptr n) (Returned r) B = <[r := n]> (delete ptr B)) as Ea.
        { cbn [blocks_after pointer]. unfold take_block. by rewrite Eb, (proj2 (Z.eqb_neq ptr 0)), (proj2 (Z.eqb_neq r 0)) by lia. }
        split; [by rewrite Ea|]. split; [|rewrite Eb].
        -- intros x k' i Hx Hx' Hi _. rewrite Ea in Hx'. apply lookup_insert_is_Some' in Hx' as [->|Hx']; [congruence|]. apply lookup_delete_is_Some in Hx' as [Hne _].
           apply (Hk' x k'); [by rewrite lookup_delete_ne|done].
        -- cbn [pointer]. split; [lia|]. intros _. split; [by right|]. intros k' i Hk0 Hi. assert (k' = k) as -> by congruence. by apply Hv.
Qed.
Lemma wp_plain_free s B me ptr (Q : () → State → Prop) : holds s B → ptr = 0 ∨ is_Some (B !! ptr) →
  (∀ s', holds s' (take_block ptr B) → kept (take_block ptr B) s s' → Q tt s') → wp ab (do_free sm fuel me ptr) Q s.
Proof.
  intros Hh Hp HQ. unfold do_free. unfold take_block in HQ. destruct (Z.eqb_spec ptr 0) as [->|Hp0].
  - pose proof Hh as (L & G & U & Hrep & _). eapply wp_free_null; [exact Hrep|]. by apply HQ.
  - destruct Hp as [|Hp]; [done|]. by eapply holds_free.
Qed.
Lemma take_block_lookup ptr B x k : B !! x = Some k → is_Some (take_block ptr B !! x) → take_block ptr B !! x = Some k.
Proof.
  unfold take_block. destruct (ptr =? 0); [done|]. intros Hx [Hne _]%lookup_delete_is_Some. by rewrite lookup_delete_ne.
Qed.
Lemma performs_free s B me o ptr s' : (o = OFree ptr ∨ ∃ n, o = OFreeSized ptr n) → holds s' (take_block ptr B) → kept (take_block ptr B) s s' → performs s B me o (Returned 0) s'.
Proof. intros [->|[n ->]] Hh Hk; (split; [exact Hh|]; split; [intros x k i Hx Hx' Hi _; apply (Hk x k); [|done]|done]); by apply take_block_lookup. Qed.
Lemma wp_tc_free s B me ptr (Q : () → State → Prop) : holds s B → ptr = 0 ∨ is_Some (B !! ptr) →
  (∀ s', holds s' (take_block ptr B) → kept (take_block ptr B) s s' → Q tt s') → wp ab (free me ptr) Q s.
Proof.
  intros Hh Hp HQ. unfold tc_free, free_fast_path, invoke_hooks_and_free. destruct delete_hooks_empty; cbn [negb]; [by eapply wp_plain_free|].
  apply wp_bind, wp_hook; [apply Hdelete|]. by eapply wp_plain_free.
Qed.
Lemma run_free_ok s B me ptr : holds s B → malloc_op_ok s B me (OFree ptr) → wp ab (run_malloc me (OFree ptr)) (performs s B me (OFree ptr)) s.
Proof.
  intros Hh Hp. cbn [run_malloc]. apply wp_bind. eapply wp_tc_free; [exact Hh|exact Hp|]. intros s' Hh' Hk. apply wp_ret. eapply performs_free; [by left|done..].
Qed.
Lemma run_free_sized_ok s B me ptr n : holds s B → malloc_op_ok s B me (OFreeSized ptr n) → wp ab (run_malloc me (OFreeSized ptr n)) (performs s B me (OFreeSized ptr n)) s.
Proof.
  intros Hh [Hp Hn]. cbn [run_malloc]. apply wp_bind. pose proof (block_nonzero _ _ _ Hh Hp) as Hp0.
  assert (∀ s', holds s' (take_block ptr B) → kept (take_block ptr B) s s' → wp ab (mret (Returned 0)) (performs s B me (OFreeSized ptr n)) s') as Hend.
  { intros s' Hh' Hk. apply wp_ret. eapply performs_free; [right; by eexists|done..]. }
  assert (take_block ptr B = delete ptr B) as Et by (unfold take_block; by rewrite (proj2 (Z.eqb_neq ptr 0))).
  unfold tc_free_sized, invoke_hooks_and_free. destruct delete_hooks_empty eqn:Ed; cbn [negb].
  - assert (Z.land ptr (kPageSize - 1) = ptr mod kPageSize) as El by (change (kPageSize - 1) with (Z.ones 13); by rewrite Z.land_ones).
    rewrite El. destruct (Z.eqb_spec (ptr mod kPageSize) 0) as [Em|Em].
    + pose proof (wp_tc_free s B me ptr (λ _ s', performs s B me (OFreeSized ptr n) (Returned 0) s') Hh (or_intror Hp)) as Hf. rewrite Ed in Hf. eapply wp_mono; [apply Hf|done]. intros s' Hh' Hk. by apply Hend.
    + destruct Hn as [|(Hn & Hcls)]; [done|]. rewrite Et in Hend. eapply holds_free; [exact Hh|exact Hp|split; [done|by split]|]. intros s' Hh' Hk. by apply Hend.
  - apply wp_bind, wp_hook; [apply Hdelete|]. eapply wp_plain_free; [exact Hh|by right|]. intros s' Hh' Hk. by apply Hend.
Qed.
Lemma run_size_ok s B me ptr : holds s B → malloc_op_ok s B me (OSize ptr) → wp ab (run_malloc me (OSize ptr)) (performs s B me (OSize ptr)) s.
Proof.
  intros Hh Hp. cbn [run_malloc]. apply wp_bind. unfold tc_malloc_size, GetAllocatedSize. destruct (Z.eqb_spec ptr 0) as [->|Hp0].
  - apply wp_ret, wp_ret. split; [done|]. split; [done|]. split; [done|]. split; [done|]. intros k Hk. by destruct (block_nonzero _ _ _ Hh (ex_intro _ k Hk)).
  - assert (∃ k, B !! ptr = Some k) as [k Hk] by (destruct Hp as [?|[k Hk]]; [contradiction|by exists k]). apply wp_bind. eapply wp_owned; [exact Hh|by eexists|]. apply wp_bind, wp_massert; [done|].
    eapply wp_block_size; [exact Hh|exact Hk|]. intros n Hn He _. apply wp_ret. split; [exact Hh|]. split; [done|]. split; [done|]. split; [done|]. intros k' Hk'. cbn [pointer]. assert (k' = k) as -> by congruence. split; [lia|done].
Qed.
Lemma run_store_ok s B me ptr i v : holds s B → malloc_op_ok s B me (OStore ptr i v) → wp ab (run_malloc me (OStore ptr i v)) (performs s B me (OStore ptr i v)) s.
Proof.
  intros Hh (k & Hk & Hi). cbn [run_malloc]. apply wp_bind, wp_act, wp_ret. split; [eapply (holds_store s B ptr k); [done|done|lia..]|].
  split; [|apply read_store_in; lia]. intros x j l Hx _ Hl Hn. apply read_store_out. simpl in Hn. lia.
Qed.
Lemma wp_run_malloc s B me o : holds s B → malloc_op_ok s B me o → wp ab (run_malloc me o) (performs s B me o) s.
Proof.
  destruct o; intros Hh Hok; [by apply run_malloc_ok|by apply run_new_ok|by apply run_new_nothrow_ok|by apply run_calloc_ok|by apply run_memalign_ok|by apply run_realloc_ok|by apply run_free_ok|by apply run_free_sized_ok|by apply run_size_ok|by apply run_store_ok].
Qed.

(** ** The states *)
Lemma start_holds flag h a v t w bytes : flag ≤ 2 ^ 62 → sh_good h → (∀ p u, sh_used h !! p = Some u → u_class u = 0) → sa_wf v → sa_wf w →
  holds (Malloc_static flag h a v t w bytes) ∅.
Proof.
  intros Hflag Hg Hcl Hv Hw. exists ∅, ∅, ∅. split.
  - split; [left; split; [|done]|].
    + split; try done. split; [done|]. split; [done|]. by exists h, a, v.
    + split; [|done]. unfold Malloc_static. cbn [large_alloc_threshold]. unfold initial_threshold. zcase; [|done]. done.
  - split; [by intros p u n Hp|by intros x k Hx|]. intros x n [cl Hx _|p u Hp _ _]; [by rewrite lookup_empty in Hx|by rewrite lookup_empty in Hp].
Qed.
Lemma malloc_reachable_holds s B : malloc_reachable s B → holds s B.
Proof.
  induction 1 as [flag h a v t w bytes Hf Hg Hcl Hv Hw|s B me o a s' _ IH Hok E]; [by apply start_holds|].
  pose proof (wp_run_malloc s B me o IH Hok) as Hwp. unfold wp in Hwp. rewrite E in Hwp. apply Hwp.
Qed.

(** ** The property *)
(** C1. The entry points of the allocator, in every state that the threads of a program can
    bring it to, do a step of the heap of blocks (no new-handler is installed, and bytes are
    stored only to blocks).  [malloc], [calloc], [memalign], [new] and [realloc] give a block
    with room for the request, aligned as asked, that no other block overlaps, or none, and
    [errno] (or the exception) says so; [calloc] refuses a product out of range and clears
    every byte of the block; [realloc] keeps every byte up to the smaller of the two sizes,
    and the old block where there is no memory; [free] takes back the block, whichever thread
    has it; the size of a block is at least the request and ends before the next block; all
    other blocks, objects and pages, keep every byte.  No assertion of the allocator fails,
    and none of its tables, lists or counters is used out of range; the program stops only
    where there is no memory for metadata or the page heap stops it. *)
Theorem malloc_refines_blocks s B me o : malloc_reachable s B → malloc_op_ok s B me o →
  match run_malloc me o s with
  | Ok (a, s') => malloc_reachable s' (blocks_after o a B) ∧ blocks_served s B me o a s' ∧ well_placed (blocks_after o a B)
  | Throws OutOfMemory => True
  | Throws Aborted => ab
  | _ => False
  end.
Proof.
  intros Hr Hok. pose proof (wp_run_malloc s B me o (malloc_reachable_holds s B Hr) Hok) as Hwp. unfold wp in Hwp.
  destruct (run_malloc me o s) as [[a s']| |[]|] eqn:E; try done. destruct Hwp as [Hh Hs].
  split; [by eapply malloc_next|]. split; [done|]. by eapply holds_placed.
Qed.
End client.
