(* ===== verification/MallocLimits.v ===== *)
(** * The allocator at its limits

    What happens where memory runs out, whatever new-handlers the program installs, which
    alignments [posix_memalign] takes, and what [pvalloc] asks for.  None of this depends on the
    state of the heap. *)
From stdpp Require Import base numbers list option gmap.
From Stdlib Require Import ZArith Lia Floats.SpecFloat.
From S2P Require Import Prelude SizeMap PackedCache SpanList SpanHeap SystemAlloc MetaData CentralFreeList ObjectPool Sampler ThreadCache ThreadClient Malloc MallocPages.
Open Scope Z_scope.

Section limits.
Context {H : Type} `{SpanHeap H} {A V : Type} `{!ObjAllocator A V} {T W : Type} `{!ObjAllocator T W}.
Variable sm : SizeMap.
Variables log2 log : spec_float → spec_float.
Variable sample_parameter : Z.
Variable tcb : option Z.
Variable trace_Init : V → outcome (A * V).
Variable allocator_Init : W → outcome (T * W).
Variable GetStackTrace : list Z.
Variable getpagesize : Z.
Variable fuel : nat.
Variable new_hooks_empty : bool.
Abbreviation State := (Malloc (Statics H A V) T W).
Abbreviation MM := (M State).
Variable InvokeNewHook : Z → Z → MM unit.
Variable call_handler : Z → MM bool.
Implicit Types (s : State) (me size : Z).

(** ** New-handlers *)
(** One round, which reads the handler that is installed then: there is none, or it throws, or it
    returns (it may have installed another one) and the retry gives a pointer. *)
Definition round (retry : MM Z) s (r : option Z) s' : Prop :=
  if new_handler_ s =? 0 then r = None ∧ s' = s
  else (r = None ∧ call_handler (new_handler_ s) s = Ok (false, s')) ∨
    ∃ s1 p, r = Some p ∧ call_handler (new_handler_ s) s = Ok (true, s1) ∧ retry s1 = Ok (p, s').
Definition out_of_memory (nothrow : bool) (r : option Z) : allocated :=
  match r with Some p => Returned p | None => if nothrow then Returned 0 else BadAlloc end.
Lemma oom_loop_round n retry nothrow s r s' : round retry s r s' →
  oom_loop call_handler (S n) retry nothrow s =
    if bool_decide (r = Some 0) then oom_loop call_handler n retry nothrow s' else Ok (out_of_memory nothrow r, s').
Proof.
  intros Hr. cbn [oom_loop]. assert (∀ X (k : Z → MM X), (nh ← set_new_handler 0; _ ← set_new_handler nh; k nh) s = k (new_handler_ s) s) as Hread.
  { intros X k. by destruct s. }
  rewrite (Hread _ (λ nh, if nh =? 0 then _ else _)). unfold round in Hr. destruct (new_handler_ s =? 0).
  - destruct Hr as [-> ->]. by rewrite bool_decide_eq_false_2.
  - destruct Hr as [(-> & E)|(s1 & p & -> & E1 & E2)]; [erewrite M_bind_ok by exact E; by rewrite bool_decide_eq_false_2|].
    erewrite M_bind_ok by exact E1. cbn [negb]. erewrite M_bind_ok by exact E2. destruct (Z.eqb_spec p 0) as [->|Hp]; cbn [negb].
    + by rewrite bool_decide_eq_true_2.
    + rewrite bool_decide_eq_false_2 by congruence. done.
Qed.
Lemma oom_loop_rounds retry nothrow k : ∀ n (st : nat → State) r, (k < n)%nat →
  (∀ i, (i < k)%nat → round retry (st i) (Some 0) (st (S i))) → round retry (st k) r (st (S k)) → r ≠ Some 0 →
  oom_loop call_handler n retry nothrow (st O) = Ok (out_of_memory nothrow r, st (S k)).
Proof.
  induction k as [|k IH]; intros [|n] st r Hn Hfail Hlast Hr; try lia.
  - rewrite (oom_loop_round _ _ _ _ r (st 1%nat)) by done. by rewrite bool_decide_eq_false_2.
  - rewrite (oom_loop_round _ _ _ _ (Some 0) (st 1%nat)) by (apply Hfail; lia). rewrite bool_decide_eq_true_2 by done.
    apply (IH n (λ i, st (S i)) r); [lia|intros i Hi; apply Hfail; lia|done|done].
Qed.
(** C7. Where memory runs out in an operator, or in a C function when the new mode is set,
    each round reads the new-handler that is installed at that time, calls it and tries the
    request again, over and over (a handler may replace or remove itself), until the first
    retry that succeeds, whose block is the answer, until a handler throws, or until none is
    installed; in the last two cases the answer is the exception, or null for the functions that throw none.
    In all cases [errno] has been set first. *)
Theorem new_handler_retries retry from_operator nothrow me s k (st : nat → State) r :
  from_operator = true ∨ tc_new_mode s ≠ 0 → (k < fuel)%nat → st O = with_errno s (<[me := ENOMEM]> (errno s)) →
  (∀ i, (i < k)%nat → round retry (st i) (Some 0) (st (S i))) → round retry (st k) r (st (S k)) → r ≠ Some 0 →
  handle_oom fuel call_handler me retry from_operator nothrow s = Ok (out_of_memory nothrow r, st (S k)).
Proof.
  intros Hmode Hk E0 Hfail Hlast Hr. unfold handle_oom, set_errno. erewrite M_bind_ok by done. rewrite <- E0.
  erewrite M_bind_ok by (unfold gets; reflexivity). assert (tc_new_mode (st O) = tc_new_mode s) as -> by by rewrite E0.
  assert (negb from_operator && (tc_new_mode s =? 0) = false) as ->.
  { destruct Hmode as [->|Hn]; [done|]. by rewrite (proj2 (Z.eqb_neq _ 0)), andb_false_r. }
  by apply oom_loop_rounds.
Qed.

(** ** [posix_memalign] *)
Abbreviation memalign := (tc_memalign sm log2 log sample_parameter tcb trace_Init allocator_Init GetStackTrace fuel new_hooks_empty InvokeNewHook call_handler).
(** [(align & (align - 1)) == 0] for the powers of two. *)
Lemma land_pred_pow j : 0 ≤ j ≤ 63 → Z.land (2 ^ j) (size_t (2 ^ j - 1)) = 0.
Proof. intros Hj. rewrite land_pow by done. apply Z.mod_same. assert (0 < 2 ^ j) by (apply Z.pow_pos_nonneg; lia). lia. Qed.
Lemma land_pred_zero a : 0 < a < 2 ^ 64 → Z.land a (size_t (a - 1)) = 0 → ∃ j, 0 ≤ j ≤ 63 ∧ a = 2 ^ j.
Proof.
  intros Ha E. rewrite size_t_id in E by lia. pose proof (Z.log2_spec a ltac:(lia)) as [Hlo Hhi]. set (j := Z.log2 a) in *.
  assert (0 ≤ j) by apply Z.log2_nonneg. assert (j < 64) by (apply (Z.pow_lt_mono_r_iff 2); lia).
  exists j. split; [lia|]. destruct (decide (a = 2 ^ j)) as [|Hne]; [done|exfalso].
  assert (Z.log2 (a - 1) = j) as Hj by (apply Z.log2_unique; lia).
  assert (Z.testbit (Z.land a (a - 1)) j = true) as Hbit; [|by rewrite E, Z.bits_0 in Hbit].
  rewrite Z.land_spec. unfold j at 1. rewrite Z.bit_log2 by lia. rewrite <- Hj. by rewrite Z.bit_log2 by lia.
Qed.
(** C8. [posix_memalign] takes exactly the powers of two that are multiples of the size of a
    pointer: for any other alignment the result is [EINVAL], and neither the heap nor the
    variable of the result is touched; for these it does what [memalign] does, and the
    result says whether there was memory. *)
Theorem posix_memalign_checks me align size s : 0 ≤ align < 2 ^ 64 →
  (¬ (∃ j, 3 ≤ j ≤ 63 ∧ align = 2 ^ j) → tc_posix_memalign sm log2 log sample_parameter tcb trace_Init allocator_Init GetStackTrace
    fuel new_hooks_empty InvokeNewHook call_handler me align size s = Ok ((EINVAL, None), s)) ∧
  ((∃ j, 3 ≤ j ≤ 63 ∧ align = 2 ^ j) → tc_posix_memalign sm log2 log sample_parameter tcb trace_Init allocator_Init GetStackTrace
    fuel new_hooks_empty InvokeNewHook call_handler me align size s =
     '(p, s') ← memalign me align size s; Ok (if p =? 0 then (ENOMEM, None) else (0, Some p), s')).
Proof.
  intros Ha. unfold tc_posix_memalign. split.
  - intros Hno. match goal with |- (if ?b then _ else _) s = _ => assert (b = true) as -> end; [|done].
    destruct (Z.eqb_spec align 0) as [->|Hn]; [by rewrite orb_true_r|]. rewrite orb_false_r.
    destruct (Z.eqb_spec (align mod 8) 0) as [H8|]; [|done]. destruct (Z.eqb_spec (Z.land align (size_t (align - 1))) 0) as [E|]; [exfalso|done].
    destruct (land_pred_zero align ltac:(lia) E) as (j & Hj & ->). apply Hno. exists j. split; [|done]. split; [|lia].
    destruct (Z.le_gt_cases 3 j) as [|Hlt]; [done|exfalso]. assert (2 ^ j < 2 ^ 3) by (apply Z.pow_lt_mono_r; lia). rewrite Z.mod_small in H8; lia.
  - intros (j & Hj & ->). match goal with |- (if ?b then _ else _) s = _ => assert (b = false) as -> end.
    { assert (0 < 2 ^ j) by (apply Z.pow_pos_nonneg; lia). rewrite land_pred_pow by lia. rewrite (proj2 (Z.eqb_neq (2 ^ j) 0)) by lia.
      replace j with (3 + (j - 3)) by lia. rewrite Z.pow_add_r by lia. by rewrite Z.mul_comm, Z_mod_mult. }
    unfold mbind at 1, M_bind. by destruct (memalign me (2 ^ j) size s) as [[p s']| | |].
Qed.

(** ** [pvalloc] *)
(** C9. [pvalloc] asks for the least multiple of the page size of the system that holds the request,
    one page for a request of no bytes; except that the sum wraps for the requests within a page of
    [SIZE_MAX], for which it asks for no bytes.  The page size is what [getpagesize] gives, a power of two
    that fits [int]; the first call asks the system for it, and it is kept for the others. *)
Theorem pvalloc_rounds_up me n s j : 0 ≤ j ≤ 30 → getpagesize = 2 ^ j → pagesize s = 0 ∨ pagesize s = getpagesize → 0 ≤ n < 2 ^ 64 →
  ∃ m, tc_pvalloc sm log2 log sample_parameter tcb trace_Init allocator_Init GetStackTrace
    getpagesize fuel new_hooks_empty InvokeNewHook call_handler me n s = memalign me getpagesize m (with_pagesize s getpagesize) ∧
    (n ≤ 2 ^ 64 - getpagesize → n ≤ m < Z.max n 1 + getpagesize ∧ 0 < m ∧ m mod getpagesize = 0) ∧ (2 ^ 64 - getpagesize < n → m = 0).
Proof.
  intros Hj Hps Hs Hn. rewrite Hps in *. assert (1 ≤ 2 ^ j ≤ 2 ^ 30) as Hb by (split; [change 1 with (2 ^ 0)|]; apply Z.pow_le_mono_r; lia).
  set (n' := if n =? 0 then 2 ^ j else n). exists (size_t (n' + 2 ^ j - 1) - size_t (n' + 2 ^ j - 1) mod 2 ^ j).
  assert (n' = Z.max n (if n =? 0 then 2 ^ j else 0)) as En' by (unfold n'; zcase; lia). split.
  - unfold tc_pvalloc. assert (system_pagesize (2 ^ j) s = Ok (2 ^ j, with_pagesize s (2 ^ j))) as E.
    { unfold system_pagesize, mbind, M_bind, gets, act, mret, M_ret. destruct Hs as [->|Es]; [done|].
      rewrite Es, (proj2 (Z.eqb_neq (2 ^ j) 0)) by lia. rewrite Es. f_equal. f_equal. destruct s. simpl in *. by subst. }
    erewrite M_bind_ok by exact E. cbv zeta. fold n'. by rewrite land_high by (lia || apply Z.mod_pos_bound; lia).
  - pose proof (Z.mod_pos_bound (size_t (n' + 2 ^ j - 1)) (2 ^ j) ltac:(lia)) as Hr. split.
    + intros Hle. assert (size_t (n' + 2 ^ j - 1) = n' + 2 ^ j - 1) as E by (apply size_t_id; unfold n'; zcase; lia). rewrite E in *.
      split; [|split; [unfold n' in *; zcase; lia|by rewrite Zminus_mod, Zmod_mod, Z.sub_diag]]. destruct (Z.eqb_spec n 0) as [->|Hn0]; [|rewrite Z.max_l in En' by lia; lia].
      rewrite Z.max_r in En' by lia. assert ((n' + 2 ^ j - 1) mod 2 ^ j = 2 ^ j - 1) as ->; [|lia].
      rewrite En'. replace (2 ^ j + 2 ^ j - 1) with (2 ^ j - 1 + 1 * 2 ^ j) by lia. rewrite Z.mod_add, Z.mod_small; lia.
    + intros Hgt. assert (n' = n) as -> by (unfold n'; zcase; lia).
      assert (size_t (n + 2 ^ j - 1) = n + 2 ^ j - 1 - 2 ^ 64) as -> by (unfold size_t; rewrite <- (Z.mod_add _ (-1)) by done; rewrite Z.mod_small; lia).
      rewrite (Z.mod_small (n + 2 ^ j - 1 - 2 ^ 64)) by lia. lia.
Qed.
End limits.
