(* ===== verification/Arena.v ===== *)
(** * A concrete system: an arena of 1 GiB

    Memory is given from the bottom of the arena up and is never used again.  With
    the metadata allocator, the object allocators and a page map of two levels over
    it, the page heap and its clients run; the concrete runs and the instances of
    the theorems use it. *)
From stdpp Require Import base numbers list option gmap sets.
From Stdlib Require Import ZArith Lia.
From S2P Require Import Prelude Doubles PageMap SystemAlloc MetaData PageHeap.
Open Scope Z_scope.

Record arena := mkArena { a_top : Z; a_asked : Z }.
Definition arena_round (a align : Z) : Z := (a + align - 1) / align * align.
#[global] Instance arena_SysAlloc : SysAlloc arena := {|
  SystemAlloc size align y :=
    let p := arena_round (a_top y) align in
    if p + size <=? 2 ^ 30 then Ok (p, size, mkArena (p + size) (a_asked y + size)) else Ok (0, 0, y);
  SystemRelease _ _ y := Ok (true, y);
  SystemCommit _ _ y := y;
  SystemTaken := a_asked;
|}.
Definition arena_wf (y : arena) : Prop := 4096 ≤ a_top y ≤ 2 ^ 30 ∧ 0 ≤ a_asked y ≤ a_top y.
Lemma arena_round_spec a align : 0 < align →
  a ≤ arena_round a align ∧ arena_round a align mod align = 0.
Proof.
  intros Ha. unfold arena_round. split; [|by apply Z.mod_mul; lia].
  pose proof (Z.div_mod (a + align - 1) align). pose proof (Z.mod_pos_bound (a + align - 1) align). lia.
Qed.
#[global] Program Instance arena_SysAllocLaws : SysAllocLaws arena := {|
  sa_wf := arena_wf;
  sa_given y a := a < a_top y;
  sa_bits := 30;
|}.
Next Obligation. lia. Qed.
Next Obligation. intros y [_ ?]. simpl. lia. Qed.
Next Obligation.
  intros [top asked] size align [H1 H2] Hs Hpow Hal. simpl in *.
  destruct (arena_round_spec top align) as [Hr Hm]; [lia|].
  destruct (Z.leb_spec (arena_round top align + size) (2 ^ 30)) as [Hfit|]; do 3 eexists; (split; [done|]).
  - unfold arena_wf. simpl. split; [lia|]. split; [intros; lia|]. right. split_and!; lia.
  - split; [by split|]. split; [done|]. by left.
Qed.
Next Obligation. intros y p n Hy _ _ _. exists true, y. by split_and!. Qed.
Next Obligation. intros y p n Hy. by split_and!. Qed.

(** The components over it; a span has 48 bytes, a stack trace 264. *)
Definition World : Type := metadata arena.
Definition world0 : World := mkMeta 0 0 0 (mkArena 4096 0).
Definition sizeof_Span : Z := 48.
Definition sizeof_StackTrace : Z := 264.
Definition kArenaBits : Z := 17.
Definition arena_map : Type := TCMalloc_PageMap2.
#[global] Instance arena_PageMap : PageMap arena_map World := PageMap2_ops kArenaBits.
#[global] Instance arena_PageMapLaws : PageMapLaws arena_map World := PageMap2_laws kArenaBits ltac:(done).
Definition span_objects : Type := PageHeapAllocator.
Definition trace_objects : Type := PageHeapAllocator.
#[global] Typeclasses Opaque span_objects trace_objects.
#[global] Instance span_objects_ops : ObjAllocator span_objects World := PHA_ops sizeof_Span.
#[global] Instance trace_objects_ops : ObjAllocator trace_objects World := PHA_ops sizeof_StackTrace.
#[global] Instance span_objects_laws : ObjAllocatorLaws span_objects World.
Proof. apply (PHA_laws sizeof_Span). done. Defined.
#[global] Instance trace_objects_laws : ObjAllocatorLaws trace_objects World.
Proof. apply (PHA_laws sizeof_StackTrace). done. Defined.
Definition arena_heap : Type := PageHeap arena_map span_objects trace_objects World.

Lemma world0_wf : sa_wf world0.
Proof. split; simpl; try done. by intros a [??]; simpl in *; lia. Qed.
Lemma arena_taken (w : World) : sa_wf w → SystemTaken w < 2 ^ 43.
Proof. intros [[? ?] _ _ _ _]. simpl in *. unfold SystemTaken. simpl. lia. Qed.

(** ** A heap over the arena, and its clients *)
Definition no_objects : PageHeapAllocator := mkPHA 0 0 0 0 ∅.
Definition arena_new : outcome arena_heap :=
  PageHeap_new (PageMap2_new kArenaBits) no_objects no_objects world0.
(** The scavenger's rate is 1, the default, and there is no limit. *)
Definition default_flags : heap_flags := mkHeapFlags (double_of_int 1) 0.

(** A client names the spans it has been given by the order it got them in. *)
Inductive client_op :=
  | CNew (n : Z)
  | CDelete (k : nat)
  | CSplit (k : nat) (n : Z)
  | CRelease (n : Z)
  | CAggressive (b : bool).
Definition client_step (fuel : nat) (o : client_op) (ps : list Z) : M arena_heap (list Z) :=
  match o with
  | CNew n => p ← New default_flags fuel fuel n; mret (ps ++ [p])
  | CDelete k => _ ← Delete default_flags fuel (ps !!! k); mret ps
  | CSplit k n => p ← Split (ps !!! k) n; mret (ps ++ [p])
  | CRelease n => _ ← ReleaseAtLeastNPages fuel n; mret ps
  | CAggressive b => _ ← act (λ h, SetAggressiveDecommit h b); mret ps
  end.
Fixpoint client_run (fuel : nat) (os : list client_op) (ps : list Z) : M arena_heap (list Z) :=
  match os with
  | [] => mret ps
  | o :: os => ps ← client_step fuel o ps; client_run fuel os ps
  end.
Definition arena_run (fuel : nat) (os : list client_op) : outcome (list Z * arena_heap) :=
  h ← arena_new; client_run fuel os [] h.

(** ** Aggressive decommit

    While the mode is off, a span [x] is freed and returned to the system, and its
    neighbour [y] freed.  The mode is switched on and [z], after [y], freed: it is
    returned and merged with [y], which is returned for that; but the merged span is
    not merged with [x], although both are now returned.  An allocation that carves
    [x] finds what is left of it followed by a span of its own kind. *)
Definition uncoalesced (aggressive : bool) : list client_op :=
  [CNew 10; CNew 10; CNew 10; CNew 10; CDelete 0; CRelease 10; CDelete 1; CAggressive aggressive; CDelete 2].

(** The spans [x] and [y] after these calls. *)
Definition freed_x : Z := 1191936.
Definition freed_y : Z := 1192032.
Definition is_aborted {A} (o : outcome A) : bool :=
  match o with Throws Aborted => true | _ => false end.
Definition is_ok {A} (o : outcome A) : bool := match o with Ok _ => true | _ => false end.
Lemma is_aborted_true {A} (o : outcome A) : is_aborted o = true → o = Throws Aborted.
Proof. by destruct o as [| |[]|]. Qed.
Lemma is_ok_true {A} (o : outcome A) : is_ok o = true → ∃ r, o = Ok r.
Proof. destruct o; [by eexists|done..]. Qed.

(** [y] is taken to be in use. *)
Definition y_in_use (h : arena_heap) : arena_heap :=
  with_spans h (alter (λ t, set_location t IN_USE) freed_y (spans h)).
(** What is looked at in the state reached. *)
Definition uncoalesced_test (h : arena_heap) : bool :=
  aggressive_decommit_ h &&
  match spans h !! freed_x, spans h !! freed_y with
  | Some s, Some t =>
      bool_decide (location s = ON_RETURNED_FREELIST) &&
      bool_decide (location t = ON_RETURNED_FREELIST) &&
      (start s + length s =? start t) && (length s =? 10)
  | _, _ => false
  end &&
  is_aborted (New default_flags 600 600 5 h) &&
  is_aborted (Carve freed_x 5 h) && is_ok (Carve freed_x 5 (y_in_use h)).

(** C38. With aggressive decommit switched on, freed neighbours are not always
    coalesced, against the comment and the assertion of [PageHeap::Carve].  The
    calls of [uncoalesced], the switch included, all succeed; they leave two free
    spans next to each other, both returned to the system, and the switch on.  An
    allocation of five pages then stops the program, in carving the first of the
    two, and for its neighbour only: were the neighbour in use, the carving would
    succeed.  The same calls with the switch off, and the allocation after them,
    succeed. *)
Theorem aggressive_decommit_aborts_carve :
  (∃ ps h s t, arena_run 600 (uncoalesced true) = Ok (ps, h) ∧ aggressive_decommit_ h = true ∧
     spans h !! freed_x = Some s ∧ spans h !! freed_y = Some t ∧
     location s = ON_RETURNED_FREELIST ∧ location t = ON_RETURNED_FREELIST ∧
     start s + length s = start t ∧ 5 < length s ∧
     New default_flags 600 600 5 h = Throws Aborted ∧ Carve freed_x 5 h = Throws Aborted ∧
     ∃ r, Carve freed_x 5 (y_in_use h) = Ok r) ∧
  ∃ ps h, arena_run 600 (uncoalesced false ++ [CNew 5]) = Ok (ps, h).
Proof.
  split.
  - assert (match arena_run 600 (uncoalesced true) with
            | Ok (_, h) => uncoalesced_test h | _ => false end = true) as Ht
      by (vm_compute; reflexivity).
    destruct (arena_run 600 (uncoalesced true)) as [[ps h]| | |]; [|discriminate Ht..].
    unfold uncoalesced_test in Ht. exists ps, h.
    destruct (spans h !! freed_x) as [s|]; [|by rewrite andb_false_r in Ht].
    destruct (spans h !! freed_y) as [t|]; [|by rewrite andb_false_r in Ht].
    rewrite !andb_true_iff, !bool_decide_eq_true, !Z.eqb_eq in Ht.
    destruct Ht as ((((Ha & ((Hs & Ht) & Hst) & Hl) & Hn) & Hc) & Hy).
    exists s, t. split_and!; try done; [lia| | |].
    + by apply is_aborted_true.
    + by apply is_aborted_true.
    + by apply is_ok_true.
  - destruct (is_ok_true (arena_run 600 (uncoalesced false ++ [CNew 5]))) as [[ps h] E];
      [vm_compute; reflexivity|by exists ps, h].
Qed.
