(* ===== verification/AllocWitnesses.v ===== *)
(** * Concrete instances for the memory allocator

    A kernel whose break and mappings never meet, the heap over the arena in its
    first state, short lists and a small page map: for each property of the
    allocator with hypotheses, values which satisfy them. *)
From stdpp Require Import base numbers list option gmap sets.
From Stdlib Require Import ZArith Lia Floats.SpecFloat.
From S2P Require Import Prelude Doubles SizeMap PackedCache PageMap SpanList SystemAlloc MetaData.
From S2P Require Import SpanHeap PageHeap Releasing Allocation Inspection PageHeapSpec Arena.
Open Scope Z_scope.

(** Fuel that is never computed. *)
Definition ample : nat := Z.to_nat (2 ^ 31).
Lemma ample_value : Z.of_nat ample = 2 ^ 31.
Proof. unfold ample. by rewrite Z2Nat.id. Qed.
#[local] Opaque ample.

(** ** Size classes and the cache of size classes *)
Lemma size_map_classifies_witness :
  ∃ sm, SizeMap_Init ample (InitTCMallocTransferNumObjects 0 None) SizeMap_static = Ok sm ∧
    num_size_classes sm ≤ kClassSizesMax.
Proof.
  destruct (size_map_classifies 0 None ample) as (sm & E & Hn & _); [done|rewrite ample_value; lia|].
  exact (ex_intro _ sm (conj E Hn)).
Defined.
Lemma size_map_spans_witness :
  ∃ sm, SizeMap_Init ample (InitTCMallocTransferNumObjects 0 None) SizeMap_static = Ok sm ∧
    ∀ c, 1 ≤ c < num_size_classes sm → ∃ n, num_objects_to_move sm c = Ok n.
Proof.
  destruct (size_map_spans 0 None ample) as (sm & E & Hs); [done|rewrite ample_value; lia|].
  exists sm. split; [exact E|]. clear E. intros c Hc. destruct (Hs c Hc) as (? & ? & ? & ? & ? & ? & ? & ?). by eexists.
Defined.
Lemma packed_cache_refines_table_witness :
  ∃ c, cache_runs 35 [OpPut 70000 3; OpPut 4464 5; OpInvalidate 70000] Clear = Ok c ∧
    TryGet 35 c 4464 = Ok (table_get (foldl (λ t o, table_run o t) table_empty
      [OpPut 70000 3; OpPut 4464 5; OpInvalidate 70000]) 4464).
Proof.
  apply (packed_cache_refines_table 35); [done| |by split].
  repeat constructor; vm_compute; congruence.
Defined.

(** ** Lists *)
Definition two_lists : links := {[-1 := (-1, -1); -2 := (-2, -2); 5 := (0, 0); 6 := (0, 0)]}.
Lemma two_lists_rep : dll_rep two_lists {[-1 := []; -2 := []]} {[5; 6]}.
Proof.
  split.
  - intros h l [[<- <-]|[_ [<- <-]%lookup_singleton_Some]]%lookup_insert_Some;
      (split; [by vm_compute|apply NoDup_singleton]).
  - intros h1 l1 h2 l2 x [[<- <-]|[_ [<- <-]%lookup_singleton_Some]]%lookup_insert_Some
      [[<- <-]|[_ [<- <-]%lookup_singleton_Some]]%lookup_insert_Some; set_solver.
  - intros p [->%elem_of_singleton| ->%elem_of_singleton]%elem_of_union; by vm_compute.
  - intros h l x [[<- <-]|[_ [<- <-]%lookup_singleton_Some]]%lookup_insert_Some
      ->%list_elem_of_singleton; by intros [?%elem_of_singleton|?%elem_of_singleton]%elem_of_union.
Qed.
Lemma dll_refines_lists_witness :
  ∃ st', dll_run two_lists [Prepend (-1) 5; Prepend (-1) 6; Remove 5] = Ok st' ∧
    get_next st' (-1) = Ok 6 ∧ DLL_Length 2 st' (-1) = Ok 1.
Proof.
  destruct (dll_refines_lists two_lists {[-1 := []; -2 := []]} {[5; 6]}
    [Prepend (-1) 5; Prepend (-1) 6; Remove 5]
    (<[-1 := [6]]> (<[-1 := [6; 5]]> (<[-1 := [5]]> {[-1 := []; -2 := []]})))
    ({[5]} ∪ ({[5; 6]} ∖ {[5]} ∖ {[6]})) two_lists_rep) as (st' & E & _ & Hq).
  { eapply run_cons; [by apply (step_prepend _ _ (-1) 5 []); [|set_solver]|].
    eapply run_cons; [by apply (step_prepend _ _ (-1) 6 [5]); [|set_solver]|].
    eapply run_cons; [|by apply run_nil]. by apply (step_remove _ _ (-1) 5 [6] []). }
  exists st'. split; [done|]. destruct (Hq (-1) [6]) as (_ & Hn & _ & Hl); [by vm_compute|].
  split; [exact Hn|by apply Hl].
Defined.

(** ** The page map *)
#[local] Instance plenty : Allocator unit := λ _ a, Ok (true, a).
#[local] Program Instance plenty_laws : AllocatorLaws unit := {|
  al_wf _ := True;
  al_le _ _ := True;
|}.
Next Obligation. intros n a _ _. by exists true, a. Qed.
Definition few_pages : list map_op := [MEnsure 3 5; MSet 4 77; MSet 7 99; MSet 4 88].
Definition map1 : TCMalloc_PageMap1 := mkPageMap1 (replicate 64 0).
Lemma page_map2_equals_page_map1_witness :
  ∃ m1 m2, map_run (H1 := PageMap1_ops 6) 100 few_pages map1 () = Ok (true, m1, ()) ∧
    map_run (H1 := PageMap2_ops 6) 100 few_pages (PageMap2_new 6) () = Ok (true, m2, ()) ∧
    ∃ v, PageMap1_get 6 m1 4 = Ok v ∧ PageMap2_get 6 m2 4 = Ok v.
Proof.
  destruct (page_map2_equals_page_map1 6 100 few_pages map1 () ()) as (b & m1 & [] & b' & m2 & [] & E1 & E2 & H);
    [lia|done|by vm_compute|by vm_compute| |by vm_compute|].
  { vm_compute. repeat split; try discriminate; repeat constructor; discriminate. }
  assert (b = true ∧ b' = true) as [-> ->].
  { vm_compute in E1, E2. injection E1 as <- _. injection E2 as <- _. done. }
  exists m1, m2. split; [exact E1|]. split; [exact E2|]. exact (proj1 (H eq_refl eq_refl 4 ltac:(lia))).
Defined.

(** ** The system and its metadata *)
(** A kernel: the break grows to [2^40], mappings come down from [2^47] to it. *)
Record toy := mkToy { t_brk : Z; t_top : Z; t_holes : Z → bool }.
Definition toy_brk (y : toy) : Z := Z.max (2 ^ 30) (Z.min (t_brk y) (2 ^ 40)).
Definition toy_top (y : toy) : Z := Z.max (2 ^ 40) (Z.min (t_top y) (2 ^ 47)).
Definition inside (p n a : Z) : bool := (p <=? a) && (a <? p + n).
Definition toy_mapped (y : toy) (a : Z) : Prop :=
  t_holes y a = false ∧ (2 ^ 30 ≤ a < toy_brk y ∨ toy_top y ≤ a < 2 ^ 47).
#[local] Instance toy_VM : VM toy := {|
  vm_pagesize := 4096;
  vm_mmap n y :=
    let p := (toy_top y - n) / 4096 * 4096 in
    if 2 ^ 40 <=? p then
      (p, mkToy (t_brk y) p (λ a, if inside p n a then false else if inside p (toy_top y - p) a then true
                                  else t_holes y a))
    else (-1, y);
  vm_munmap p n y := mkToy (t_brk y) (t_top y) (λ a, inside p n a || t_holes y a);
  vm_sbrk n y :=
    if n =? 0 then (toy_brk y, y)
    else if toy_brk y + n <=? 2 ^ 40 then
      (toy_brk y, mkToy (toy_brk y + n) (t_top y) (λ a, negb (inside (toy_brk y) n a) && t_holes y a))
    else (-1, y);
  vm_madvise _ _ y := (false, false, y);
|}.
Lemma inside_spec p n a : BoolSpec (p ≤ a < p + n) (¬ p ≤ a < p + n) (inside p n a).
Proof. unfold inside. destruct (Z.leb_spec p a), (Z.ltb_spec a (p + n)); constructor; lia. Qed.
Lemma toy_brk_range y : 2 ^ 30 ≤ toy_brk y ≤ 2 ^ 40.
Proof. unfold toy_brk. lia. Qed.
#[local] Program Instance toy_laws : VMLaws toy := {|
  vm_mapped := toy_mapped;
  vm_brk := toy_brk;
  vm_retries _ := 0%nat;
|}.
Next Obligation. simpl. lia. Qed.
Next Obligation. by exists 12. Qed.
Next Obligation. intros y. pose proof (toy_brk_range y). lia. Qed.
Next Obligation.
  intros y n Hn. simpl. set (p := (toy_top y - n) / 4096 * 4096).
  assert (p ≤ toy_top y - n) as Hp.
  { unfold p. pose proof (Z.div_mod (toy_top y - n) 4096). pose proof (Z.mod_pos_bound (toy_top y - n) 4096). lia. }
  assert (2 ^ 40 ≤ toy_top y ≤ 2 ^ 47) as Ht by (unfold toy_top; lia).
  destruct (Z.leb_spec (2 ^ 40) p); split; try done; [right|by left].
  assert (∀ b f, toy_top (mkToy b p f) = p) as Etop by (intros; unfold toy_top; simpl; lia).
  split; [lia|]. split; [by apply Z.mod_mul|]. split; [lia|]. unfold toy_mapped.
  assert (toy_brk y ≤ 2 ^ 40) by (unfold toy_brk; lia). split; [lia|].
  intros a. rewrite Etop. change (toy_brk (mkToy _ _ _)) with (toy_brk y). simpl t_holes.
  destruct (inside_spec p n a); [split; [by right|intros _; split; [done|lia]]|].
  destruct (inside_spec p (toy_top y - p) a).
  - split; [by intros [? _]|]. intros [[_ ?]|?]; lia.
  - split; [intros [? Ho]; left; (split; [done|lia])|]. intros [[? Ho]|?]; [split; [done|lia]|lia].
Qed.
Next Obligation.
  intros y p n _ _. simpl. split; [done|]. intros a. unfold toy_mapped. simpl t_holes.
  change (toy_brk (mkToy _ _ _)) with (toy_brk y). change (toy_top (mkToy _ _ _)) with (toy_top y).
  destruct (inside_spec p n a); simpl; split; try tauto; by intros [? _].
Qed.
Next Obligation.
  intros y n Hn. simpl.
  destruct (Z.eqb_spec n 0) as [->|_].
  { right. unfold toy_mapped. pose proof (toy_brk_range y).
    split; [done|]. split; [lia|]. split; [by rewrite Z.add_0_r|]. split; intros a; [lia|].
    split; [by left|]. intros [?|?]; [done|lia]. }
  destruct (Z.leb_spec (toy_brk y + n) (2 ^ 40)); [right|by left].
  assert (2 ^ 30 ≤ toy_brk y) as Hb by (unfold toy_brk; lia).
  assert (∀ t f, toy_brk (mkToy (toy_brk y + n) t f) = toy_brk y + n) as Eb.
  { intros. unfold toy_brk at 1. simpl. lia. }
  split; [done|]. split; [lia|]. split; [by rewrite Eb|].
  assert (2 ^ 40 ≤ toy_top y) by (unfold toy_top; lia). unfold toy_mapped. split; [lia|].
  intros a. rewrite Eb. change (toy_top (mkToy _ _ _)) with (toy_top y). simpl t_holes.
  destruct (inside_spec (toy_brk y) n a); simpl; split; try tauto; try lia.
  all: intros [? Ho] || intros [[? Ho]|?]; try lia; try (left; split; [done|lia]); (split; [done|lia]).
Qed.
Next Obligation. intros y p n. by simpl. Qed.

Lemma toy_retries (y : toy) : (vm_retries y < 1)%nat.
Proof. exact Nat.lt_0_1. Qed.
Definition toy_flags : sys_flags := mkSysFlags 0 false false false.
Definition toy_system : sysalloc toy :=
  mkSys (mkToy (2 ^ 30) (2 ^ 47) (λ _, false)) 0 DefaultSysAllocator_new false 0.
Lemma toy_system_wf : sys_wf toy_system.
Proof.
  split; [by left|done|]. exists []. split; [done|]. split; [done|]. by intros b ?%not_elem_of_nil.
Qed.
Lemma system_alloc_blocks_witness :
  ∃ bs s', alloc_run toy_flags [(100, 64); (2 ^ 20, 8192)] toy_system = Ok (bs, s') ∧
    disjoint_blocks bs ∧ TCMalloc_SystemTaken s' = block_bytes bs.
Proof.
  destruct (system_alloc_blocks toy_flags 1 toy_retries [(100, 64); (2 ^ 20, 8192)] toy_system toy_system_wf)
    as (bs & s' & E & Hd & Ht & _).
  { repeat constructor; simpl; try lia; [by exists 6|by exists 13]. }
  exists bs, s'. split; [exact E|]. split; [exact Hd|exact Ht].
Defined.
Lemma system_alloc_minimum_alignment_overflows_witness :
  ∃ s', TCMalloc_SystemAlloc toy_flags (2 ^ 64 - 20) 1 toy_system = Ok (vm_brk (vm toy_system), 0, s').
Proof.
  apply (system_alloc_minimum_alignment_overflows toy_flags toy_system);
    [done..|by left|reflexivity|done|done].
Defined.

Definition three_objects := [MetaData.CNew; MetaData.CNew; MetaData.CDelete 0; MetaData.CNew].
Lemma page_heap_allocator_objects_apart_witness :
  ('(s, w) ← PHA_Init 48 world0; obj_client 48 three_objects s w []) = Throws OutOfMemory ∨
  ∃ s' w' objs, ('(s, w) ← PHA_Init 48 world0;
      obj_client 48 three_objects s w []) = Ok (s', w', objs) ∧ inuse_ s' = zlen objs.
Proof.
  destruct (page_heap_allocator_objects_apart (W := World) 48 ltac:(done) world0 three_objects
    world0_wf ltac:(done)) as [H|(s' & w' & objs & E & _ & Hi & _)]; [left; exact H|right].
  exists s', w', objs. split; [exact E|exact Hi].
Defined.

(** ** Lists through the first words of the objects *)
Lemma sll_pop_range_push_range_witness :
  ∃ mem' head', SLL_PopRange {[ 8 := 16; 16 := 24; 24 := 0 ]} 8 2 = Ok (mem', head', 8, 16) ∧
    SLL_PushRange mem' head' 8 16 = Ok ({[ 8 := 16; 16 := 24; 24 := 0 ]}, 8).
Proof.
  destruct (sll_pop_range_push_range {[ 8 := 16; 16 := 24; 24 := 0 ]} 8 [8] 16 [24])
    as (mem' & head' & E & _ & _ & _ & _ & Ep).
  - split; [|by apply (bool_decide_unpack _)]. cbn [app sll_seg].
    do 3 (split; [done|]; split; [done|]; eexists; split; [by vm_compute|]). done.
  - exists mem', head'. split; [exact E|exact Ep].
Defined.

(** ** The page heap over the arena *)
Lemma ample_map : pm_enough (P := arena_map) (A := World) ample.
Proof. simpl. unfold LEAF_LENGTH, ROOT_LENGTH. rewrite ample_value. by vm_compute. Qed.
Lemma ample_fuel : 2 ^ 30 ≤ Z.of_nat ample.
Proof. by rewrite ample_value. Qed.
Lemma arena_covers : sa_bits (Y := World) ≤ pm_bits (P := arena_map) (A := World) + 13.
Proof. done. Qed.
Lemma default_limit : 0 ≤ tcmalloc_heap_limit_mb default_flags < 2 ^ 43.
Proof. done. Qed.
Lemma default_rate : tcmalloc_release_rate default_flags ≠ S754_nan.
Proof. done. Qed.
Lemma no_span_objects : oa_rep (no_objects : span_objects) world0 ∅.
Proof. by apply (pha_rep_empty sizeof_Span). Qed.
Lemma no_trace_objects : oa_rep (no_objects : trace_objects) world0 ∅.
Proof. by apply (pha_rep_empty sizeof_StackTrace). Qed.
Lemma arena_map_new : pm_wf (PageMap2_new kArenaBits : arena_map).
Proof. apply (PageMap2_new_spec kArenaBits ltac:(done)). Qed.
Lemma arena_map_zero k : pm_at (PageMap2_new kArenaBits : arena_map) k = 0.
Proof. apply (PageMap2_new_spec kArenaBits ltac:(done)). Qed.
Lemma arena_first : ∃ h : arena_heap,
  arena_new = Ok h ∧ reachable default_flags ample ample h ∧ used h = ∅ ∧ spans h = ∅.
Proof.
  destruct (PageHeap_new_good arena_taken (PageMap2_new kArenaBits : arena_map) (no_objects : span_objects)
    (no_objects : trace_objects) world0 arena_map_new arena_map_zero world0_wf no_span_objects no_trace_objects)
    as (h & E & _ & Es & _).
  exists h. split; [exact E|]. split; [clear Es|].
  2: { clear E. split; [unfold used; rewrite Es; apply omap_empty|exact Es]. }
  exact (reach_new default_flags ample ample (PageMap2_new kArenaBits : arena_map) (no_objects : span_objects)
    (no_objects : trace_objects) world0 h arena_map_new arena_map_zero world0_wf no_span_objects no_trace_objects E).
Qed.
Lemma page_heap_refines_spec_witness : ∃ h : arena_heap, arena_new = Ok h ∧
  match run_op default_flags ample ample (OpNew 5) h with
  | Ok (r, h') => spec_step ∅ (OpNew 5) r (used h') ∧ apart (used h')
  | Throws OutOfMemory => True
  | _ => False
  end.
Proof.
  destruct arena_first as (h & E & Hr & Hu & _). exists h. split; [exact E|].
  pose proof (page_heap_refines_spec default_flags ample ample arena_taken ample_fuel ample_map arena_covers
    default_limit default_rate h (OpNew 5) Hr (conj eq_refl eq_refl)) as H. rewrite Hu in H.
  destruct (run_op _ _ _ _ h) as [[r h']| |[]|]; first [exact H|exact (H eq_refl)].
Defined.
Lemma check_expensive_passes_witness : ∃ h : arena_heap, arena_new = Ok h ∧
  wp False (CheckExpensive ample) (λ b h', b = true ∧ h' = h) h.
Proof.
  destruct arena_first as (h & E & Hr & _). exists h. split; [exact E|].
  exact (check_expensive_passes default_flags ample ample arena_taken ample_fuel ample_map arena_covers
    default_limit default_rate h Hr).
Defined.
Lemma get_next_range_enumerates_witness : ∃ h : arena_heap, arena_new = Ok h ∧
  wp False (GetNextRange ample (λ _, Ok 0) 0) (λ _ h', h' = h) h.
Proof.
  destruct arena_first as (h & E & Hr & _ & Hs). exists h. split; [exact E|].
  assert (∀ p s, spans h !! p = Some s → False) as Hnone.
  { intros p s. rewrite Hs, lookup_empty. intros [=]. }
  refine (wp_mono _ _ _ _ h (get_next_range_enumerates default_flags ample ample arena_taken ample_fuel
    ample_map arena_covers default_limit default_rate h (λ _, Ok 0) 0 Hr _ (Z.le_refl 0) _) _).
  - intros p s Hp. destruct (Hnone p s Hp).
  - intros p s Hp. destruct (Hnone p s Hp).
  - intros r h' [H _]. exact H.
Defined.
Lemma search_finds_a_fit_witness : ∃ h : arena_heap, arena_new = Ok h ∧
  wp False (SearchFreeAndLargeLists default_flags ample 200)
    (λ p h', if decide (p = 0) then used h' = used h ∧ no_fit h' 200 else SpanOps.allocated h 200 p h') h.
Proof.
  destruct arena_first as (h & E & Hr & _). exists h. split; [exact E|].
  exact (search_finds_a_fit default_flags ample ample arena_taken ample_fuel
    ample_map arena_covers default_limit default_rate h 200 Hr (conj eq_refl eq_refl) eq_refl).
Defined.
Lemma best_fit_is_best_witness : ∃ h : arena_heap, arena_new = Ok h ∧
  wp False (best_fit 200) (λ r h', h' = h ∧ best_among h 200 FreeLists.free_loc r.1 ∧
    best_among h 200 (eq ON_NORMAL_FREELIST) r.2) h.
Proof.
  destruct arena_first as (h & E & Hr & _). exists h. split; [exact E|].
  exact (best_fit_is_best default_flags ample ample arena_taken ample_fuel
    ample_map arena_covers default_limit default_rate h 200 Hr).
Defined.
Lemma release_at_least_n_pages_witness : ∃ h : arena_heap, arena_new = Ok h ∧
  wp False (ReleaseAtLeastNPages ample 3) (λ k h', released h h' k ∧ used h' = used h ∧
    (3 ≤ k ∨ free_bytes (stats_ h') = 0 ∨ refused h h')) h.
Proof.
  destruct arena_first as (h & E & Hr & _). exists h. split; [exact E|].
  exact (release_at_least_n_pages default_flags ample ample arena_taken ample_fuel
    ample_map arena_covers default_limit default_rate h 3 Hr).
Defined.
Lemma ensure_limit_is_exact_witness : ∃ h : arena_heap, arena_new = Ok h ∧
  wp False (EnsureLimit default_flags ample 3 true) (λ ok h', (ok = true ↔ SpanOps.within default_flags h' 3) ∧
    used h' = used h ∧ (true = false → h' = h)) h.
Proof.
  destruct arena_first as (h & E & Hr & _). exists h. split; [exact E|].
  exact (ensure_limit_is_exact default_flags ample ample arena_taken ample_fuel
    ample_map arena_covers default_limit default_rate h 3 true Hr (conj (Zle_0_nat 3) eq_refl)).
Defined.
