(* ===== verification/CentralWitnesses.v ===== *)
(** * Central free lists: the theorems at concrete states

    The central lists over the page heap of the arena, and over a small heap of spans
    that is simple enough to run them: it gives spans from the low pages upwards. *)
From stdpp Require Import base numbers list option gmap sets fin_maps fin_map_dom.
From Stdlib Require Import ZArith Lia.
From S2P Require Import Prelude SizeMap PackedCache SpanList SystemAlloc PageHeap PageHeapSpec SpanHeap PageHeapClient.
From S2P Require Import CentralFreeList CentralLists CentralSpec CentralCaches CentralFetch CentralInit CentralPool.
From S2P Require Import Arena AllocWitnesses.
Open Scope Z_scope.

(** ** Over the page heap of the arena *)
Lemma arena_bits : sa_bits (Y := World) ≤ 48.
Proof. done. Qed.
#[local] Instance arena_SpanHeap : SpanHeap arena_heap := page_heap_SpanHeap default_flags ample ample.
#[local] Instance arena_SpanHeapLaws : SpanHeapLaws arena_heap :=
  page_heap_SpanHeapLaws default_flags ample ample arena_taken ample_fuel ample_map arena_covers
    default_limit default_rate arena_bits.
Lemma central_refines_pool_witness : ∃ (sm : SizeMap) (h : arena_heap) (c : Central arena_heap),
  SizeMap_Init ample (InitTCMallocTransferNumObjects 0 None) SizeMap_static = Ok sm ∧ arena_new = Ok h ∧
  InitCentral sm (central_static h) = Ok (tt, c) ∧
  match RemoveRange sm 1 3 c with
  | Ok (r, c') => ∃ P', objects_step ∅ (memory c) (PoolRemove 1 3) r P' (memory c') ∧ separate sm P'
  | Throws OutOfMemory => True
  | _ => False
  end.
Proof.
  destruct (sizes_ok_Init 0 None ample) as (sm & Esm & Hsm); [done|pose proof ample_fuel; lia|].
  destruct arena_first as (h & Eh & Hr & Hu & _).
  destruct (InitCentral_ok sm Hsm h) as (c & Ec & _ & _).
  { exact (reachable_good default_flags ample ample arena_taken ample_fuel ample_map arena_covers
      default_limit default_rate h Hr). }
  { intros p u Hp. change (sh_used h) with (used h) in Hp. rewrite Hu in Hp. by rewrite lookup_empty in Hp. }
  exists sm, h, c. split; [exact Esm|]. split; [exact Eh|]. split; [exact Ec|].
  assert (pool_reachable sm ample c ∅) as Hpool.
  { eapply (pool_start sm ample h c); [|..|exact Ec].
    - exact (reachable_good default_flags ample ample arena_taken ample_fuel ample_map arena_covers
        default_limit default_rate h Hr).
    - intros p u Hp. change (sh_used h) with (used h) in Hp. rewrite Hu in Hp. by rewrite lookup_empty in Hp. }
  clear Ec. assert (2 ^ 17 < Z.of_nat ample) as Hfuel by (pose proof ample_fuel; lia).
  assert (pool_ok sm ample ∅ (memory c) (PoolRemove 1 3)) as Hok by (split; [pose proof (so_classes _ Hsm); lia|lia]).
  pose proof (central_refines_pool sm ample Hsm Hfuel c ∅ (PoolRemove 1 3) Hpool Hok) as Hstep.
  cbn [run_pool] in Hstep. clear -Hstep. destruct (RemoveRange sm 1 3 c) as [[r c']| |[]|];
    try exact I; try exact Hstep.
  - destruct Hstep as (P' & H1 & _ & H2 & _). exists P'. split; [exact H1|exact H2].
  - apply Hstep. reflexivity.
Defined.

(** ** Over a heap of spans from the low pages upwards *)
Record row := mkRow { row_next : Z; row_used : gmap Z use }.
Definition row_end : Z := 2 ^ kPageBits.
Definition row_find (x : Z) (u : gmap Z use) : option Z :=
  fst <$> head (filter (λ kv, has_page kv.2 x) (map_to_list u)).
#[local] Instance row_SpanHeap : SpanHeap row := {|
  sh_new n h := if row_next h + n <=? row_end
    then Ok (row_next h, mkRow (row_next h + n) (<[row_next h := mkUse (row_next h) n 0]> (row_used h)))
    else Ok (0, h);
  sh_delete p h := Ok (tt, mkRow (row_next h) (delete p (row_used h)));
  sh_split p n h := match row_used h !! p with
    | Some u => Ok (u_start u + n, mkRow (row_next h) (<[p := mkUse (u_start u) n 0]>
        (<[u_start u + n := mkUse (u_start u + n) (u_pages u - n) 0]> (row_used h))))
    | None => Undefined NullDeref end;
  sh_register p sc h := match row_used h !! p with
    | Some u => Ok (tt, mkRow (row_next h) (<[p := mkUse (u_start u) (u_pages u) (sc mod 2 ^ 8)]> (row_used h)))
    | None => Undefined NullDeref end;
  sh_descriptor x h := Ok (default 0 (row_find x (row_used h)));
  sh_load p h := match row_used h !! p with Some u => Ok u | None => Undefined NullDeref end;
|}.
Record row_good (h : row) : Prop := {
  row_range : 1 ≤ row_next h ≤ row_end;
  row_span p u : row_used h !! p = Some u → p = u_start u ∧ 1 ≤ p ∧ 1 ≤ u_pages u ∧ p + u_pages u ≤ row_next h;
  row_apart : apart (row_used h);
}.
Lemma row_find_spec u p a x : apart u → u !! p = Some a → has_page a x → row_find x u = Some p.
Proof.
  intros Hap Hp Hx. unfold row_find. destruct (filter _ (map_to_list u)) as [|[q b] l] eqn:E.
  - assert ((p, a) ∈ filter (λ kv : Z * use, has_page kv.2 x) (map_to_list u)) as Hin.
    { apply list_elem_of_filter. split; [done|]. by apply elem_of_map_to_list. }
    rewrite E in Hin. by apply not_elem_of_nil in Hin.
  - assert ((q, b) ∈ filter (λ kv : Z * use, has_page kv.2 x) (map_to_list u)) as Hin by (rewrite E; left).
    apply list_elem_of_filter in Hin as [Hb Hq%elem_of_map_to_list]. simpl. f_equal. by apply (Hap q p b a x).
Qed.
(** Changing a span to one with a part of its pages. *)
Lemma apart_insert u p a : apart u → (∀ q b x, q ≠ p → u !! q = Some b → has_page a x → ¬ has_page b x) →
  apart (<[p := a]> u).
Proof.
  intros Hap Hn q1 q2 a1 a2 x [[<- <-]|[N1 K1]]%lookup_insert_Some [[<- <-]|[N2 K2]]%lookup_insert_Some Hx1 Hx2.
  - done.
  - by destruct (Hn q2 a2 x).
  - by destruct (Hn q1 a1 x).
  - by apply (Hap q1 q2 a1 a2 x).
Qed.
Program Definition row_laws : SpanHeapLaws row := {| sh_good := row_good; sh_used := row_used; sh_ab := False |}.
Next Obligation. intros h p u [R1 R2 R3] Hp. destruct (R2 p u Hp) as (-> & ? & ? & ?). unfold row_end in *. lia. Qed.
Next Obligation. by intros h [R1 R2 R3]. Qed.
Next Obligation. intros h p u _ Hp. simpl in *. by rewrite Hp. Qed.
Next Obligation. intros h p u x [R1 R2 R3] Hp Hx _. simpl in *. by rewrite (row_find_spec _ p u x R3 Hp Hx). Qed.
Next Obligation.
  intros h [R1 R2 R3]. simpl. unfold row_find. destruct (filter _ (map_to_list (row_used h))) as [|[q b] l] eqn:E; [done|].
  assert ((q, b) ∈ filter (λ kv : Z * use, has_page kv.2 0) (map_to_list (row_used h))) as Hin by (rewrite E; left).
  apply list_elem_of_filter in Hin as [Hb Hq%elem_of_map_to_list]. destruct (R2 q b Hq). unfold has_page in Hb. simpl in Hb. lia.
Qed.
Next Obligation.
  intros h n [R1 R2 R3] Hn. unfold wp. simpl. destruct (Z.leb_spec (row_next h + n) row_end); [|split; [by split|by left]].
  assert (row_used h !! row_next h = None) as Hnone.
  { destruct (row_used h !! row_next h) as [u|] eqn:E; [|done]. destruct (R2 _ _ E). lia. }
  split; [|right; split; [done|by eexists]]. split; simpl; [lia| |].
  - intros p u [[<- <-]|[_ Hp]]%lookup_insert_Some; simpl; [lia|]. destruct (R2 _ _ Hp) as (? & ? & ? & ?). lia.
  - apply apart_insert; [done|]. intros q b x _ Hq. unfold has_page. simpl. destruct (R2 _ _ Hq) as (? & ? & ? & ?). lia.
Qed.
Next Obligation.
  intros h p u [R1 R2 R3] Hp. unfold wp. simpl. split; [|done]. split; simpl; [done| |].
  - intros q v [_ Hq]%lookup_delete_Some. by apply R2.
  - intros q1 q2 a b x [_ K1]%lookup_delete_Some [_ K2]%lookup_delete_Some. by apply R3.
Qed.
Next Obligation.
  intros h p u n [R1 R2 R3] Hp Hc Hn. unfold wp. simpl in *. rewrite Hp. destruct (R2 p u Hp) as (-> & ? & ? & ?).
  assert (∀ q b x, q ≠ u_start u → row_used h !! q = Some b → has_page u x → ¬ has_page b x) as Hdis.
  { intros q b x Hne Hq Hx Hb. by apply Hne, (R3 q (u_start u) b u x). }
  assert (row_used h !! (u_start u + n) = None) as Hnone.
  { destruct (row_used h !! (u_start u + n)) as [v|] eqn:E; [|done]. destruct (R2 _ _ E) as (E1 & ? & ? & ?).
    destruct (Hdis (u_start u + n) v (u_start u + n)); [lia|done|unfold has_page; lia..]. }
  split; [|by split]. split; simpl; [done| |].
  - intros q v. rewrite !lookup_insert_Some. intros [[<- <-]|[_ [[<- <-]|[_ Hq]]]]; simpl; [lia|lia|by apply R2].
  - rewrite <- insert_delete_eq, delete_insert_ne by lia. apply apart_insert; [apply apart_insert|].
    + intros q1 q2 a b x [_ K1]%lookup_delete_Some [_ K2]%lookup_delete_Some. by apply R3.
    + intros q b x Hne [Hne' Hq]%lookup_delete_Some Hx. apply (Hdis q b x); [done|done|].
      unfold has_page in *. simpl in Hx. lia.
    + intros q b x Hne [[<- <-]|[_ [Hne' Hq]%lookup_delete_Some]]%lookup_insert_Some Hx.
      * unfold has_page in *. simpl in *. lia.
      * apply (Hdis q b x); [done|done|]. unfold has_page in *. simpl in Hx. lia.
Qed.
Next Obligation.
  intros h p u sc [R1 R2 R3] Hp. unfold wp. simpl in *. rewrite Hp. destruct (R2 p u Hp) as (-> & ? & ? & ?).
  split; [|done]. split; simpl; [done| |].
  - intros q v [[<- <-]|[_ Hq]]%lookup_insert_Some; [simpl; lia|by apply R2].
  - apply apart_insert; [done|]. intros q b x Hne Hq Hx Hb. by apply Hne, (R3 q (u_start u) b u x).
Qed.
#[local] Existing Instance row_laws.

(** Two classes, of 16 and of 4096 bytes. *)
Definition two_classes : SizeMap :=
  mkSizeMap (replicate (Z.to_nat kClassArraySize) 1)
    ([0; 2; 2] ++ replicate 93 0) ([0; 16; 4096] ++ replicate 93 0) ([0; 1; 1] ++ replicate 93 0) 3.
Lemma two_classes_ok : sizes_ok two_classes.
Proof.
  split; [done|]. intros cl Hcl. change (num_size_classes two_classes) with 3 in Hcl.
  assert (cl = 1 ∨ cl = 2) as [-> | ->] by lia; eexists _, _, _; split; try reflexivity; by vm_compute.
Qed.
Definition row0 : row := mkRow 1 ∅.
Lemma row0_good : row_good row0.
Proof. by split. Qed.
Definition chain_length : nat := Z.to_nat (2 ^ 17 + 1).
Lemma chain_length_enough : 2 ^ 17 < Z.of_nat chain_length.
Proof. unfold chain_length. lia. Qed.

Definition row_start : outcome (unit * Central row) := InitCentral two_classes (central_static row0).
(** What a client gets that takes three objects, there being two to a span, takes two
    more, gives one of them back to the cache, and takes it again. *)
Definition row_client : M (Central row) (list (Z * Z * Z)) :=
  r1 ← RemoveRange two_classes 2 3;
  r2 ← RemoveRange two_classes 2 2;
  _ ← write_word 20480 0;
  _ ← InsertRange two_classes chain_length 2 20480 20480 1;
  r3 ← RemoveRange two_classes 2 1;
  mret [r1; r2; r3].
Definition row_run : outcome (list (Z * Z * Z)) := '(_, c) ← row_start; '(r, _) ← row_client c; mret r.
Example row_run_result : row_run = Ok [(2, 8192, 12288); (2, 16384, 20480); (1, 20480, 20480)].
Proof. vm_compute. reflexivity. Qed.

(** The state after the first of these calls. *)
Definition row_first : outcome (Z * Z * Z) := '(_, c) ← row_start; '(r, _) ← RemoveRange two_classes 2 3 c; mret r.
Lemma row_first_result : row_first = Ok (2, 8192, 12288).
Proof. vm_compute. reflexivity. Qed.
Lemma row_state : ∃ c0 c P, row_start = Ok (tt, c0) ∧ RemoveRange two_classes 2 3 c0 = Ok (2, 8192, 12288, c) ∧
  pool_reachable two_classes chain_length c P ∧ P !! 8192 = Some 2.
Proof.
  destruct (InitCentral_ok two_classes two_classes_ok row0) as (c0 & E & _ & _); [exact row0_good|done|].
  pose proof row_first_result as Hrun. unfold row_first, row_start in *. rewrite E in Hrun |- *.
  cbn [mbind outcome_bind] in Hrun. destruct (RemoveRange two_classes 2 3 c0) as [[r c]| | |] eqn:E1; try discriminate Hrun.
  cbn [mbind outcome_bind] in Hrun. injection Hrun as ->. exists c0.
  assert (pool_reachable two_classes chain_length c0 ∅) as Hr.
  { apply (pool_start two_classes chain_length row0 c0); [exact row0_good|done|exact E]. }
  clear E. assert (pool_ok two_classes chain_length ∅ (memory c0) (PoolRemove 2 3)) as Hok by (split; [by vm_compute|lia]).
  pose proof (central_pool_step two_classes chain_length two_classes_ok chain_length_enough c0 ∅ (PoolRemove 2 3) Hr Hok) as Hs.
  cbn [run_pool] in Hs. rewrite E1 in Hs. destruct Hs as (P & (l & Hl & Hlen & _ & _ & _ & -> & _) & Hr').
  exists c, (pool_add l 2 ∅). split; [done|]. split; [done|]. split; [exact Hr'|].
  destruct l as [|x l]; [discriminate Hlen|]. destruct Hl as [[Hx _] _]. simpl in Hx. subst x. apply lookup_insert_eq.
Qed.
Lemma object_class_is_found_witness : ∃ c0 c, row_start = Ok (tt, c0) ∧
  RemoveRange two_classes 2 3 c0 = Ok (2, 8192, 12288, c) ∧
  ∃ p u k, MapObjectToSpan 9000 c = Ok (p, c) ∧ load_span p c = Ok (u, c) ∧ u_class u = 2 ∧
    8192 ∈ objs two_classes u ∧ GetSizeClassOrZero 1 c = Ok (k, c) ∧ (k = 0 ∨ k = 2).
Proof.
  destruct row_state as (c0 & c & P & E0 & E & Hr & HP). exists c0, c. split; [exact E0|]. split; [exact E|].
  clear E0 E. assert (8192 ≤ 9000 < 8192 + csize two_classes 2) as Hy by by vm_compute.
  exact (object_class_is_found two_classes chain_length two_classes_ok chain_length_enough c P 8192 2 9000 Hr HP Hy).
Defined.
Lemma zero_transfer_flag_aborts_witness : ∃ sm,
  SizeMap_Init ample (InitTCMallocTransferNumObjects 0 (Some 0)) SizeMap_static = Ok sm ∧
  InitCentral sm (central_static row0) = Throws Aborted.
Proof. apply (zero_transfer_flag_aborts ample row0). pose proof ample_fuel. lia. Defined.
