(* ===== verification/ThreadWitnesses.v ===== *)
(** * Thread caches: the theorems at concrete states

    Two threads over the central lists of the small heap of spans, whose caches are
    objects of a [PageHeapAllocator] over the arena; nothing is sampled. *)
From stdpp Require Import base numbers list option gmap sets fin_maps fin_map_dom.
From Stdlib Require Import ZArith Lia Floats.SpecFloat.
From S2P Require Import Prelude Doubles SizeMap SpanList SpanHeap SystemAlloc MetaData CentralFreeList CentralLists.
From S2P Require Import CentralSpec CentralCaches CentralFetch CentralInit CentralPool.
From S2P Require Import ObjectPool Sampler ThreadCache ThreadLists ThreadSizes ThreadLimits ThreadSpec ThreadRegistry ThreadClient.
From S2P Require Import Arena CentralWitnesses.
Open Scope Z_scope.

#[local] Existing Instance row_SpanHeap.
#[local] Existing Instance row_laws.
Definition sizeof_ThreadCache : Z := 3136.
Definition cache_objects : Type := PageHeapAllocator.
#[local] Typeclasses Opaque cache_objects.
#[local] Instance cache_objects_ops : ObjAllocator cache_objects World := PHA_ops sizeof_ThreadCache.
#[local] Instance cache_objects_laws : ObjAllocatorLaws cache_objects World.
Proof. apply (PHA_laws sizeof_ThreadCache). done. Defined.
#[local] Instance row_pool : ObjectPool (Central row) := Central_pool two_classes chain_length.
#[local] Instance row_pool_laws : ObjectPoolLaws (Central row) two_classes :=
  Central_pool_laws two_classes chain_length two_classes_ok chain_length_enough ∅.

(** The logarithms are not used: the sample parameter is 0. *)
Definition no_log (d : spec_float) : spec_float := d.
Lemma no_gaps : gaps_ok no_log no_log 0.
Proof. done. Qed.
Definition thread_fuel : nat := 1100.
Lemma thread_fuel_enough : kMaxCaches < Z.of_nat thread_fuel.
Proof. by vm_compute. Qed.
Definition row_InitStaticVars : M (Central row) unit := InitCentral two_classes.
Definition row_fresh (c : Central row) : Prop := c = central_static row0.
Definition cache_Init : World → outcome (cache_objects * World) := PHA_Init sizeof_ThreadCache.
Lemma row_pool_starts c : row_fresh c → wp (op_ab (C := Central row) (sm := two_classes)) row_InitStaticVars (λ _ c', op_rep c' ∅) c.
Proof.
  intros ->. destruct (InitCentral_ok two_classes two_classes_ok row0) as (c & E & _ & Hc); [exact row0_good|done|].
  unfold wp, row_InitStaticVars. rewrite E. exists ∅. split; [exact Hc|]. intros x cl. rewrite lookup_empty. split; [done|]. intros (p & u & Hx & _). by rewrite lookup_empty in Hx.
Qed.
Lemma cache_Init_ok w : sa_wf w → cache_Init w = Throws OutOfMemory ∨
  ∃ a w', cache_Init w = Ok (a, w') ∧ sa_wf w' ∧ oa_rep a w' ∅.
Proof.
  intros Hw. destruct (PHA_Init_spec sizeof_ThreadCache ltac:(done) w Hw) as [E|(a & w' & E & Hw' & _ & Ha)]; [by left|right].
  exists a, w'. split; [exact E|]. split; [exact Hw'|exact Ha].
Qed.
Abbreviation row_threads := (Threads (Central row) cache_objects World).
Abbreviation row_thread := (run_thread (sm := two_classes) no_log no_log 0 None row_InitStaticVars cache_Init thread_fuel).
Abbreviation row_reachable := (threads_reachable (sm := two_classes) no_log no_log 0 None row_InitStaticVars cache_Init thread_fuel row_fresh).
Definition threads0 : row_threads := Threads_static no_objects world0 (central_static row0).
Lemma threads0_reachable : row_reachable threads0 ∅.
Proof. apply threads_start; [exact world0_wf|reflexivity]. Qed.

(** The thread 7 makes a cache before the key exists, and after it another; the thread 8
    frees what 7 took, and takes it again. *)
Fixpoint run_threads (os : list thread_op) : M row_threads (list Z) :=
  match os with
  | [] => mret []
  | o :: os => r ← row_thread o; rs ← run_threads os; mret (r :: rs)
  end.
Definition two_threads : list thread_op :=
  [TAllocate 7 2; TInitTSD; TAllocate 7 2; TAllocate 8 1; TFree 8 8192 2; TAllocate 8 2; TIdle 7; TExit 8].
Definition two_threads_results : outcome (list Z * Z) :=
  '(rs, s) ← run_threads two_threads threads0; Ok (rs, thread_heap_count_ (registry s)).
Example two_threads_run : two_threads_results = Ok ([8192; 0; 12288; 16384; 0; 8192; 0; 0], 1).
Proof. vm_compute. reflexivity. Qed.

(** The state after the first of these calls. *)
Definition first_alloc : outcome (Z * bool * option Z) :=
  '(r, s) ← row_thread (TAllocate 7 2) threads0; Ok (r, phinited s, size_ <$> caches s !! 4096).
Lemma first_alloc_result : first_alloc = Ok (8192, true, Some 0).
Proof. vm_compute. reflexivity. Qed.
Lemma first_ok : thread_op_ok (sm := two_classes) threads0 ∅ (TAllocate 7 2).
Proof. split; [by vm_compute|]. split; [by vm_compute|]. intros _. by vm_compute. Qed.
Lemma row_thread_refines s U o : row_reachable s U → thread_op_ok (sm := two_classes) s U o →
  match row_thread o s with
  | Ok (r, s') => row_reachable s' (users_after o r U)
  | _ => True
  end.
Proof. intros Hr Hok. destruct (row_thread o s) as [[r s']| | |] eqn:E; try done. by eapply threads_next. Qed.
Lemma threads_refine_users_witness : ∃ s, row_thread (TAllocate 7 2) threads0 = Ok (8192, s) ∧
  row_reachable s {[8192 := 2]} ∧ separate two_classes {[8192 := 2]}.
Proof.
  pose proof first_alloc_result as Hrun. unfold first_alloc in Hrun.
  pose proof (threads_refine_users no_log no_log 0 None row_InitStaticVars cache_Init thread_fuel row_fresh
    two_classes_ok no_gaps thread_fuel_enough row_pool_starts cache_Init_ok threads0 ∅ (TAllocate 7 2) threads0_reachable first_ok) as Hstep.
  destruct (row_thread (TAllocate 7 2) threads0) as [[r s]| | |]; [|discriminate Hrun..].
  injection Hrun as -> _ _. exists s. split; [reflexivity|]. destruct Hstep as (H1 & _ & H2). split; [exact H1|exact H2].
Defined.
Lemma first_state : ∃ s t, row_thread (TAllocate 7 2) threads0 = Ok (8192, s) ∧ row_reachable s {[8192 := 2]} ∧
  phinited s = true ∧ caches s !! 4096 = Some t.
Proof.
  pose proof first_alloc_result as Hrun. unfold first_alloc in Hrun. pose proof (row_thread_refines threads0 ∅ _ threads0_reachable first_ok) as Hr.
  destruct (row_thread (TAllocate 7 2) threads0) as [[r s]| | |]; [|discriminate Hrun..].
  cbn [mbind outcome_bind] in Hrun. destruct (caches s !! 4096) as [t|] eqn:Et; [|discriminate Hrun]. injection Hrun as -> Hph _.
  exists s, t. split; [reflexivity|]. split; [exact Hr|]. split; [exact Hph|exact Et].
Qed.
Lemma thread_caches_are_counted_witness : ∃ s t, row_thread (TAllocate 7 2) threads0 = Ok (8192, s) ∧ caches s !! 4096 = Some t ∧
  size_ t = bytes two_classes t ∧ 0 ≤ size_ t ≤ INT_MAX.
Proof.
  destruct first_state as (s & t & E & Hr & _ & Ht). exists s, t. split; [exact E|]. split; [exact Ht|]. clear E.
  destruct (thread_caches_are_counted no_log no_log 0 None row_InitStaticVars cache_Init thread_fuel row_fresh
    two_classes_ok no_gaps thread_fuel_enough row_pool_starts cache_Init_ok s {[8192 := 2]} 4096 t Hr Ht) as (H1 & H2 & _). split; [exact H1|exact H2].
Defined.
Lemma thread_stats_are_exact_witness : ∃ s, row_thread (TAllocate 7 2) threads0 = Ok (8192, s) ∧
  GetThreadStats two_classes thread_fuel 0 None s = Ok ((wsum (λ _ t, size_ t) (caches s), None), s).
Proof.
  destruct first_state as (s & t & E & Hr & _). exists s. split; [exact E|]. clear E.
  destruct (thread_stats_are_exact no_log no_log 0 None row_InitStaticVars cache_Init thread_fuel row_fresh
    two_classes_ok no_gaps thread_fuel_enough row_pool_starts cache_Init_ok s {[8192 := 2]} Hr) as [H1 _]. exact H1.
Defined.
Lemma no_object_is_lost_witness : ∃ s P, row_thread (TAllocate 7 2) threads0 = Ok (8192, s) ∧
  op_rep (objects_of s) P ∧ {[8192 := 2]} ⊆ P.
Proof.
  destruct first_state as (s & t & E & Hr & Hph & _).
  destruct (no_object_is_lost no_log no_log 0 None row_InitStaticVars cache_Init thread_fuel row_fresh
    two_classes_ok no_gaps thread_fuel_enough row_pool_starts cache_Init_ok s {[8192 := 2]} Hr Hph) as (P & H1 & H2 & _).
  exists s, P. split; [exact E|]. split; [exact H1|exact H2].
Defined.

(** ** The sampler *)
(** The exponent for the logarithm to base 2, and the logarithm of 2. *)
Definition floor_log2 (d : spec_float) : spec_float :=
  match d with
  | S754_finite _ m e => double_of_int (Z.max 0 (Z.min 26 (Z.log2 (Zpos m) + e)))
  | _ => double_of_int 0
  end.
Definition log_of_2 (_ : spec_float) : spec_float := S754_finite false 6243314768165359 (-53).
Definition half_mebi : Z := 2 ^ 19.
(** The gap where the logarithm is [k]. *)
Definition gap_at (k : Z) : spec_float :=
  double_mul (SFsub 53 1024 (double_of_int k) (double_of_int 26))
    (double_mul (SFopp (log_of_2 (double_of_int 2))) (double_of_int half_mebi)).
Definition gap_fits (k : Z) : bool :=
  match ssize_of_double (double_min (gap_at k) (double_of_int MAX_SSIZE)) with
  | Ok n => (0 <=? n) && (n <? 2 ^ 63)
  | _ => false
  end.
Lemma gaps_fit k : 0 ≤ k ≤ 26 → gap_fits k = true.
Proof.
  intros Hk. assert (forallb gap_fits (seqZ 0 27) = true) as Hall by (vm_compute; reflexivity).
  rewrite forallb_forall in Hall. apply Hall. apply list_elem_of_In, elem_of_seqZ. lia.
Qed.
Lemma half_mebi_gaps : gaps_ok floor_log2 log_of_2 half_mebi.
Proof.
  intros _ rnd _. unfold interval. set (q := SFadd _ _ _ _).
  assert (∃ k, 0 ≤ k ≤ 26 ∧ floor_log2 q = double_of_int k) as (k & Hk & Hq).
  { unfold floor_log2. destruct q as [| | |b m e]; [exists 0; done..|]. eexists. split; [|reflexivity]. lia. }
  clearbody q. rewrite Hq. fold (gap_at k). pose proof (gaps_fit k Hk) as Hfit. unfold gap_fits in Hfit.
  destruct (ssize_of_double _) as [n| | |]; [|discriminate Hfit..]. exists n. split; [reflexivity|]. apply andb_true_iff in Hfit as [??]. lia.
Qed.
Lemma samples_when_gap_is_passed_witness : ∃ n rnd,
  record_all floor_log2 log_of_2 half_mebi 4096 ([40; 0; 60] ++ [1]) (mkSampler 100 5 true) =
    Ok (replicate 3 true ++ [false], mkSampler n rnd true) ∧ 0 ≤ n < 2 ^ 63.
Proof.
  apply (samples_when_gap_is_passed floor_log2 log_of_2 half_mebi 4096 [40; 0; 60] 1 (mkSampler 100 5 true) half_mebi_gaps);
    [done|exact I|by split|by repeat constructor|by split].
Defined.
Lemma fast_path_agrees_witness :
  (TryRecordAllocationFast 70 (mkSampler 100 5 true) = RecordAllocation floor_log2 log_of_2 half_mebi true 4096 70 (mkSampler 100 5 true) ∧ 70 ≤ 100) ∨
  (TryRecordAllocationFast 70 (mkSampler 100 5 true) = Ok (false, mkSampler 100 5 true) ∧ 100 < 70).
Proof.
  apply (fast_path_agrees floor_log2 log_of_2 half_mebi 4096 70 (mkSampler 100 5 true)); [by split|lia].
Defined.
Lemma clamped_gap_is_undefined_witness :
  ssize_of_double (double_min (double_of_int (2 ^ 70)) (double_of_int MAX_SSIZE)) = Undefined FloatToInt.
Proof. apply (clamped_gap_is_undefined (double_of_int (2 ^ 70))). vm_compute. reflexivity. Defined.
