(* ===== verification/MallocWitnesses.v ===== *)
(** * The entry points of the allocator: the theorems at concrete states

    A program over the default size classes, the small heap of spans, and two
    allocators of metadata over the arena; nothing is sampled. *)
From stdpp Require Import base numbers list option gmap sets fin_maps fin_map_dom.
From Stdlib Require Import ZArith Lia Floats.SpecFloat Strings.Byte.
From S2P Require Import Prelude Doubles SizeMap SpanList SpanHeap SystemAlloc MetaData CentralFreeList CentralLists.
From S2P Require Import CentralSpec CentralCaches CentralFetch CentralInit CentralPool.
From S2P Require Import ObjectPool Sampler ThreadCache ThreadLists ThreadSizes ThreadLimits ThreadSpec ThreadRegistry ThreadClient.
From S2P Require Import Malloc MallocSizes MallocPages MallocPool MallocBlocks MallocSpec MallocBytes MallocClient MallocLimits.
From S2P Require Import Arena AllocWitnesses CentralWitnesses ThreadWitnesses.
Open Scope Z_scope.

#[local] Existing Instance row_SpanHeap.
#[local] Existing Instance row_laws.
#[local] Existing Instance cache_objects_ops.
#[local] Existing Instance cache_objects_laws.
Definition sizeof_StackTrace : Z := 256.
Definition trace_objects : Type := PageHeapAllocator.
#[local] Typeclasses Opaque cache_objects trace_objects.
#[local] Instance trace_objects_ops : ObjAllocator trace_objects World := PHA_ops sizeof_StackTrace.
#[local] Instance trace_objects_laws : ObjAllocatorLaws trace_objects World.
Proof. apply (PHA_laws sizeof_StackTrace). done. Defined.
Definition new_traces : World → outcome (trace_objects * World) := PHA_Init sizeof_StackTrace.
Lemma new_traces_ok w : sa_wf w → new_traces w = Throws OutOfMemory ∨
  ∃ a w', new_traces w = Ok (a, w') ∧ sa_wf w' ∧ oa_rep a w' ∅.
Proof.
  intros Hw. destruct (PHA_Init_spec sizeof_StackTrace ltac:(done) w Hw) as [E|(a & w' & E & Hw' & _ & Ha)]; [by left|right].
  exists a, w'. split; [exact E|]. split; [exact Hw'|exact Ha].
Qed.
Definition map_fuel : nat := Z.to_nat 33000.
Definition or_static (o : outcome SizeMap) : SizeMap := match o with Ok sm => sm | _ => SizeMap_static end.
(** What [SizeMap::Init] computes by default, as a value. *)
Definition default_map : SizeMap := Eval vm_compute in or_static (SizeMap_Init map_fuel (InitTCMallocTransferNumObjects 0 None) SizeMap_static).
(** The least and the largest size of an index of the table, and that the table has the class of both. *)
Definition index_low (i : Z) : Z := if i <=? 128 then 8 * i - 7 else 128 * i - 15487.
Definition index_high (i : Z) : Z := if i <=? 128 then 8 * i else 128 * i - 15360.
Lemma cidx_bounds s : 0 ≤ s → index_low (cidx s) ≤ s ≤ index_high (cidx s).
Proof. intros Hs. unfold cidx, index_low, index_high. zcase; zcase; zdiv. Qed.
Definition index_right (sm : SizeMap) (i : Z) : bool :=
  let c := class_array_ sm @! i in
  (1 <=? c) && (c <? num_size_classes sm) && (index_high i <=? class_to_size_ sm @! c) &&
  ((c =? 1) || (class_to_size_ sm @! (c - 1) <? index_low i)).
Definition move_right (sm : SizeMap) (c : Z) : bool :=
  num_objects_to_move_ sm @! c =? Z.min 32 (Z.max 2 (65536 / class_to_size_ sm @! c)).
Lemma default_classes : run_plan 8 the_plan no_classes = Ok (num_size_classes default_map, class_to_size_ default_map, class_to_pages_ default_map).
Proof. vm_compute. reflexivity. Qed.
Lemma default_table : forallb (index_right default_map) (seqZ 0 kClassArraySize) = true.
Proof. vm_compute. reflexivity. Qed.
Lemma default_moves : forallb (move_right default_map) (seqZ 1 (num_size_classes default_map - 1)) = true.
Proof. vm_compute. reflexivity. Qed.
Lemma default_computed : computed (num_size_classes default_map) (class_to_size_ default_map) (class_to_pages_ default_map).
Proof.
  destruct (the_classes_computed 8 ltac:(lia)) as (n & sizes & pages & E & Hcomp). rewrite default_classes in E.
  injection E as <- <- <-. exact Hcomp.
Qed.
Lemma default_map_ok : map_ok default_map.
Proof.
  split; [apply default_computed|by vm_compute|]. intros s Hs. pose proof default_table as Ht. rewrite forallb_forall in Ht.
  specialize (Ht (cidx s) ltac:(apply list_elem_of_In, elem_of_seqZ; pose proof (cidx_range s Hs); lia)).
  pose proof (cidx_bounds s ltac:(lia)) as Hb. unfold index_right in Ht. rewrite !andb_true_iff, orb_true_iff in Ht.
  destruct Ht as [[[H1%Z.leb_le H2%Z.ltb_lt] H3%Z.leb_le] H4]. split; [exact H2|]. split; [exact H1|]. split; [lia|].
  destruct H4 as [H4%Z.eqb_eq|H4%Z.ltb_lt]; [by left|right; lia].
Qed.
Lemma default_sizes : malloc_sizes default_map.
Proof.
  apply malloc_sizes_computed; [exact default_map_ok|exact default_computed|].
  apply (sizes_ok_computed default_map 32); [done|exact default_map_ok|exact default_computed|by vm_compute|].
  intros c Hc. pose proof default_moves as Hm. rewrite forallb_forall in Hm.
  apply Z.eqb_eq, (Hm c), list_elem_of_In, elem_of_seqZ. lia.
Qed.
Abbreviation row_malloc := (Malloc (Statics row trace_objects World) cache_objects World).
Definition no_new_hook (p n : Z) : M row_malloc unit := mret tt.
Definition no_delete_hook (p : Z) : M row_malloc unit := mret tt.
(** A handler that installs the next one in its place, without end. *)
Definition next_handler (nh : Z) : M row_malloc bool := λ s, Ok (true, with_new_handler s (nh + 1)).
Abbreviation run_row := (run_malloc default_map no_log no_log 0 None new_traces cache_Init [] chain_length true true no_new_hook no_delete_hook next_handler).
Abbreviation row_malloc_reachable := (malloc_reachable default_map no_log no_log 0 None new_traces cache_Init [] chain_length true true no_new_hook no_delete_hook next_handler).
Definition malloc0 : row_malloc := Malloc_static (2 ^ 30) row0 no_objects world0 no_objects world0 (λ _, Byte.xff).

Fixpoint run_row_all (me : Z) (os : list malloc_op) : M row_malloc (list allocated) :=
  match os with
  | [] => mret []
  | o :: os => r ← run_row me o; rs ← run_row_all me os; mret (r :: rs)
  end.
Definition row_results (os : list malloc_op) : outcome (list allocated) := '(rs, s) ← run_row_all 7 os malloc0; Ok rs.

(** A program: blocks of a class and of pages, the sizes of blocks, aligned blocks, a product that is
    out of range, blocks that grow and shrink, and requests for which there is no memory. *)
Definition some_calls : list malloc_op :=
  [OMalloc 100; OMalloc 300000; OSize 8192; OSize 16384; OMemalign 65536 20; OMemalign 64 20; OCalloc 10 20; OCalloc (2 ^ 33) (2 ^ 33);
   ORealloc 8192 120; ORealloc 16384 100000; OFree 327680; ORealloc 0 17; ONew 1; OMalloc (2 ^ 60); ONew (2 ^ 60); OFree 0].
Example some_calls_run : row_results some_calls = Ok
  [Returned 8192; Returned 16384; Returned 112; Returned 303104; Returned 327680; Returned 393216; Returned 401408; Returned 0;
   Returned 409600; Returned 417792; Returned 0; Returned 524288; Returned 532480; Returned 0; BadAlloc; Returned 0].
Proof. vm_compute. reflexivity. Qed.
(** What the bytes of blocks are: those that were stored, and those that [calloc] and [realloc] give. *)
Definition byte_calls : list malloc_op :=
  [OMalloc 20; OStore 8192 17 "a"%byte; ORealloc 8192 300000; OStore 16384 9000 "b"%byte; ORealloc 16384 100; OCalloc 3 7; OCalloc 2 9000].
Definition bytes_after (os : list malloc_op) (addrs : list Z) : outcome (list byte) :=
  '(_, s) ← run_row_all 7 os malloc0; Ok (read_byte s <$> addrs).
Example byte_calls_run : row_results byte_calls =
  Ok [Returned 8192; Returned 0; Returned 16384; Returned 0; Returned 319488; Returned 327680; Returned 335872].
Proof. vm_compute. reflexivity. Qed.
Example byte_calls_bytes : bytes_after byte_calls [319488 + 17; 319488 + 18; 327680; 327680 + 20; 327680 + 21; 335872 + 17999; 335872 + 18000] =
  Ok ["a"; Byte.xff; Byte.x00; Byte.x00; Byte.xff; Byte.x00; Byte.xff]%byte.
Proof. vm_compute. reflexivity. Qed.
(** The second of two objects of 9216 bytes is at no start of a page, and the assertion for the
    size that is given to [free] fails. *)
Definition sized_free_results : outcome (list allocated) := row_results [OMalloc 9000; OMalloc 9000; OFreeSized 17408 9000].
Example second_object_run : row_results [OMalloc 9000; OMalloc 9000] = Ok [Returned 8192; Returned 17408] ∧ sized_free_results = Throws Aborted.
Proof. split; vm_compute; reflexivity. Qed.

Lemma malloc0_reachable : row_malloc_reachable malloc0 ∅.
Proof. apply malloc_start; [done|exact row0_good|intros p u Hp; change (sh_used row0) with (∅ : gmap Z use) in Hp; by rewrite lookup_empty in Hp|exact world0_wf|exact world0_wf]. Qed.
Lemma first_request_ok : malloc_op_ok default_map malloc0 ∅ 7 (OMalloc 100).
Proof. split; [done|]. split; [by vm_compute|]. split; [by vm_compute|]. intros _. by vm_compute. Qed.
Definition first_request : outcome allocated := '(a, s) ← run_row 7 (OMalloc 100) malloc0; Ok a.
Lemma first_request_result : first_request = Ok (Returned 8192).
Proof. vm_compute. reflexivity. Qed.
Lemma malloc_refines_blocks_witness : ∃ s, run_row 7 (OMalloc 100) malloc0 = Ok (Returned 8192, s) ∧
  row_malloc_reachable s {[8192 := 100]} ∧ well_placed {[8192 := 100]}.
Proof.
  pose proof first_request_result as Hrun. unfold first_request in Hrun.
  pose proof (malloc_refines_blocks default_map no_log no_log 0 None new_traces cache_Init [] chain_length true true no_new_hook no_delete_hook next_handler
    default_sizes chain_length_enough no_gaps new_traces_ok cache_Init_ok (λ _ _ _, eq_refl) (λ _ _, eq_refl) malloc0 ∅ 7 (OMalloc 100) malloc0_reachable first_request_ok) as Hstep.
  destruct (run_row 7 (OMalloc 100) malloc0) as [[a s]| | |]; [|discriminate Hrun..].
  injection Hrun as ->. exists s. split; [reflexivity|]. destruct Hstep as (H1 & _ & H2). split; [exact H1|exact H2].
Defined.

(** Two handlers are called before there is memory: the first installs the second. *)
Definition handled (i : nat) : row_malloc := with_new_handler (with_errno malloc0 {[7 := ENOMEM]}) (1 + Z.of_nat i).
Definition second_retry : M row_malloc Z := λ s, Ok (if new_handler_ s =? 3 then 4096 else 0, s).
Lemma handled_round i : round next_handler second_retry (handled i) (Some (if 2 + Z.of_nat i =? 3 then 4096 else 0)) (handled (S i)).
Proof.
  unfold round. change (new_handler_ (handled i)) with (1 + Z.of_nat i). rewrite (proj2 (Z.eqb_neq _ 0)) by lia. right.
  assert (with_new_handler (handled i) (1 + Z.of_nat i + 1) = handled (S i)) as E by (unfold handled, with_new_handler; cbn; f_equal; lia).
  exists (handled (S i)), (if 2 + Z.of_nat i =? 3 then 4096 else 0). split; [done|]. split; [unfold next_handler; by rewrite E|].
  unfold second_retry. change (new_handler_ (handled (S i))) with (1 + Z.of_nat (S i)). by replace (1 + Z.of_nat (S i)) with (2 + Z.of_nat i) by lia.
Qed.
Lemma new_handler_retries_witness :
  handle_oom chain_length next_handler 7 second_retry true false (with_new_handler malloc0 1) = Ok (Returned 4096, handled 2).
Proof.
  apply (new_handler_retries chain_length next_handler second_retry true false 7 (with_new_handler malloc0 1) 1 handled (Some 4096)).
  - by left.
  - apply Nat2Z.inj_lt. pose proof chain_length_enough. lia.
  - reflexivity.
  - intros i Hi. assert (i = O) as -> by lia. exact (handled_round O).
  - exact (handled_round 1).
  - done.
Defined.
Lemma posix_memalign_checks_witness :
  tc_posix_memalign default_map no_log no_log 0 None new_traces cache_Init [] chain_length true no_new_hook next_handler 7 24 100 malloc0 = Ok ((EINVAL, None), malloc0).
Proof.
  refine (proj1 (posix_memalign_checks default_map no_log no_log 0 None new_traces cache_Init [] chain_length true no_new_hook next_handler 7 24 100 malloc0 ltac:(lia)) _).
  intros (j & Hj & E). destruct (Z.le_gt_cases j 4) as [Hle|Hgt].
  - assert (2 ^ j ≤ 2 ^ 4) by (apply Z.pow_le_mono_r; lia). lia.
  - assert (2 ^ 5 ≤ 2 ^ j) by (apply Z.pow_le_mono_r; lia). lia.
Defined.
Abbreviation row_memalign := (tc_memalign default_map no_log no_log 0 None new_traces cache_Init [] chain_length true no_new_hook next_handler).
Abbreviation row_pvalloc := (tc_pvalloc default_map no_log no_log 0 None new_traces cache_Init [] 4096 chain_length true no_new_hook next_handler).
(** The first call, for the largest request, succeeds. *)
Example pvalloc_of_everything : ('(p, s) ← row_pvalloc 7 (2 ^ 64 - 1) malloc0; Ok (p, pagesize s)) = Ok (8192, 4096).
Proof. vm_compute. reflexivity. Qed.
Lemma pvalloc_rounds_up_witness : row_pvalloc 7 (2 ^ 64 - 1) malloc0 = row_memalign 7 4096 0 (with_pagesize malloc0 4096).
Proof.
  destruct (pvalloc_rounds_up default_map no_log no_log 0 None new_traces cache_Init [] 4096 chain_length true no_new_hook next_handler 7 (2 ^ 64 - 1) malloc0 12) as (m & E & _ & Hm); [lia|reflexivity|by left|lia|].
  rewrite E, Hm by lia. reflexivity.
Defined.
