(* ===== verification/Witnesses.v ===== *)
(** * Concrete instances

    For each property with hypotheses, a world, a state and an input which
    satisfy them: the kernel [sim] with a silent log, the runtime
    [simple_runtime], buffers of a few bytes, a thread which serves one
    connection. *)
From S2P Require Import Prelude CMem Kernel Ring SocketInput SocketOutput Log Host Proto Channel.
From S2P Require Import Socket Connector ConnectorThread ConnectorManager Server ThreadPool.
From S2P Require Import Interleave Listen Doubles.
From stdpp Require Import base numbers list option strings gmap relations.
From Stdlib Require Import ZArith Lia Strings.Byte Floats.SpecFloat.
Open Scope Z_scope.

(** ** Buffers and worlds *)
(** A ring of 16 cells which wraps: [ab] at its end, [cde] at its start. *)
Definition ring5 : SocketInput :=
  mkSocketInput (vals (text "cde") ++ zeros 11 ++ vals (text "ab")) 16 SOCKET_INPUT_MAXSIZE 14 3.
Lemma ring5_holds : input_holds ring5 (text "abcde").
Proof. split; [constructor; vm_compute; intuition congruence|by vm_compute]. Qed.

(** A kernel with the given bytes queued for descriptor 5. *)
Definition net (rx : list byte) : sim :=
  Sim (λ fd, if fd =? 5 then rx else []) [] (λ _, []) [] (λ _, true) 0 [] [] [].
Lemma net_calm rx : zlen rx ≤ 2 ^ 30 → calm (net rx).
Proof. intros Hl. split; [|done]. split; [done|]. intros fd. simpl. by destruct (fd =? 5). Qed.

(** ** The receive buffer *)
Lemma fetch_refines_queue_witness :
  ∃ s', input_holds s' (text "de") ∧
    SocketInput_fetch ring5 (zeros 3) 3 = Ok (splice (zeros 3) 0 (vals (text "abc")), s').
Proof.
  exact (fetch_refines_queue ring5 (text "abcde") (zeros 3) 3 ring5_holds ltac:(by vm_compute)).
Defined.

Lemma fetch_negative_undefined_witness :
  SocketInput_fetch ring5 (zeros 3) (-6) = Undefined OutOfBounds.
Proof.
  exact (fetch_negative_undefined ring5 (text "abcde") (zeros 3) (-6) ring5_holds
           ltac:(by vm_compute) ltac:(by vm_compute)).
Defined.

Lemma skip_refines_queue_witness :
  ∃ s', input_holds s' (text "de") ∧ SocketInput_skip ring5 3 = Ok s'.
Proof. exact (skip_refines_queue ring5 (text "abcde") 3 ring5_holds ltac:(lia)). Defined.

Lemma feed_refines_stream_witness :
  ∃ s' w', SocketInput_feed 5 ring5 (net (text "fgh")) = Ok ((3, s'), w') ∧
    input_holds s' (text "abcdefgh").
Proof.
  pose proof (feed_refines_stream 5 (net (text "fgh")) ring5 (text "abcde") ring5_holds) as Hf.
  destruct (feed_stream 5 (si_buffer_len ring5) (si_head ring5) (text "abcde") (net (text "fgh")))
    as [[[r q] w1]|u| |] eqn:Ef; [|vm_compute in Ef; discriminate Ef..].
  assert (r = 3 ∧ q = Some (text "abcdefgh")) as [-> ->]
    by (vm_compute in Ef; injection Ef as <- <- _; done).
  destruct Hf as (s' & E & Hs' & _). exists s', w1. split; [exact E|exact Hs'].
Defined.

(** 15 bytes are there for the first [recv], one is reported, 15 more arrive. *)
Definition burst : sim :=
  Sim (λ _, text "0123456789012345678901234567890123456789") [15; 1; 15] (λ _, []) [] (λ _, true)
    0 [] [] [].
Lemma feed_arrival_overflows_witness :
  SocketInput_feed 5 SocketInput_new burst = Undefined OutOfBounds.
Proof.
  pose (w1 := (sim_recv 5 15 burst).2). pose (w2 := (sim_fionread 5 w1).2).
  exact (feed_arrival_overflows 5 burst SocketInput_new [] (text "012345678901234") w1 1 w2
    (text "567890123456789") (sim_recv 5 15 w2).2 input_new_holds
    eq_refl eq_refl eq_refl eq_refl eq_refl eq_refl ltac:(by vm_compute) eq_refl eq_refl).
Defined.

(** ** The send buffer *)
Lemma write_refines_queue_witness :
  ∃ s', SocketOutput_write SocketOutput_new (vals (text "hello")) 5 = Ok (5, s') ∧
    output_holds s' (text "hello") ∧ (0 = 0 → so_head s' = 0).
Proof.
  exact (write_refines_queue SocketOutput_new [] (vals (text "hello")) (text "hello")
    output_new_holds eq_refl ltac:(by vm_compute) ltac:(by vm_compute) eq_refl).
Defined.

(** Five bytes were sent and five are left: 16376 bytes do not fit behind the
    tail although the ring has room for them. *)
Definition out_moved : SocketOutput := so_set_head (so_set_tail SocketOutput_new 10) 5.
Lemma out_moved_holds : output_holds out_moved (replicate 5 Byte.x00).
Proof. split; [constructor; vm_compute; intuition congruence|by vm_compute]. Qed.
Lemma write_overflows_witness :
  SocketOutput_write out_moved (zeros 16376) 16376 = Undefined OutOfBounds.
Proof.
  exact (write_overflows out_moved _ (zeros 16376) 16376 out_moved_holds ltac:(by vm_compute)
    ltac:(by vm_compute) ltac:(by vm_compute) eq_refl).
Defined.

Lemma refresh_refines_stream_witness :
  ∃ r s' w', SocketOutput_refresh 5 5 out_moved (net []) = Ok ((r, s'), w') ∧
    ((r = 5 ∧ output_holds s' [] ∧ so_head s' = 0 ∧ so_tail s' = 0 ∧
      sent w' 5 = replicate 5 Byte.x00) ∨
     (r = -1 ∧ ∃ bs q', replicate 5 Byte.x00 = bs ++ q' ∧ q' ≠ [] ∧ output_holds s' q' ∧
      sent w' 5 = bs)).
Proof.
  exact (refresh_refines_stream host_progress 5 5 (net []) out_moved _ out_moved_holds
    ltac:(by vm_compute)).
Defined.

(** ** The log *)
Lemma snprintf_bounded_witness :
  zlen (text "5-x") < 1024 ∧ (Byte.x00 ∉ text "5-x") ∧
  ∃ f t, Some (text "%d-%s") = Some f ∧ format f [AInt 5; AStr (text "x")] = Ok t ∧
    text "5-x" = cstr (take (Z.to_nat (1024 - 1)) t).
Proof.
  exact (snprintf_bounded 1024 (Some (text "%d-%s")) [AInt 5; AStr (text "x")] (text "5-x")
    ltac:(lia) ltac:(by vm_compute)).
Defined.

Definition env0 : simenv := SimEnv [] [] true (Build_tm 117 3 5 10 20 30) [] false.
Lemma log_double_init_silences_witness :
  ∃ w1 l1, Log_init (text "server.log") (mkLog true true true) env0 = Ok (l1, w1) ∧
    l1 = mkLog true false true ∧
    ∀ type log w2, ∃ w3 out, Log_write type log l1 w2 = Ok (l1, w3) ∧
      (w3 = w2 ∨ w3 = env_stdout out w2).
Proof. exact (log_double_init_silences (text "server.log") (mkLog true true true) env0 eq_refl). Defined.

(** ** Messages *)
Definition hello : Message := set_param Message_new (text "hello").
Lemma hello_ok : msg_ok hello.
Proof. by split; [right|eexists]. Qed.
Lemma new_ok : msg_ok (Message_new (H := simple_runtime)).
Proof. by split; [left|]. Qed.

Lemma messages_well_formed_witness :
  is_message (Message_MergeFrom Message_new hello) (Some (text "hello")) ∧
  is_message (Message_CopyFrom Message_new hello) (Some (text "hello")) ∧
  is_message (clear_param Message_new) None.
Proof.
  pose proof (messages_well_formed Message_new hello None (Some (text "hello")) (text "x") 3
    (stream_of []) (conj eq_refl eq_refl) (conj eq_refl eq_refl))
    as (_ & _ & _ & _ & _ & _ & Hclear & _ & Hmerge & Hcopy & _).
  by split.
Defined.

Lemma byte_size_is_length_witness :
  (Message_ByteSizeLong hello).1 = zlen (Message_InternalSerializeWithCachedSizesToArray hello).
Proof. exact (byte_size_is_length hello ltac:(by vm_compute)). Defined.

Lemma message_round_trip_witness :
  ∃ m' input', Message_MergePartialFromCodedStream 2
      (stream_of (Message_InternalSerializeWithCachedSizesToArray hello)) (Message_Clear Message_new)
    = Ok (true, m', input') ∧ stream_consumed input' = true ∧ known_only m' ∧
    has_param m' = has_param hello ∧ (has_param hello = true → param m' = param hello).
Proof. exact (message_round_trip hello Message_new 0 hello_ok eq_refl ltac:(by vm_compute)). Defined.

Lemma merge_terminates_witness :
  ∃ r, Message_MergePartialFromCodedStream 4 (stream_of (text "abc")) hello = Ok r ∧
    Message_MergePartialFromCodedStream 9 (stream_of (text "abc")) hello = Ok r.
Proof. exact (merge_terminates (text "abc") hello 9 ltac:(simpl; lia)). Defined.

(** ** The UDP socket *)
Definition dgram : list byte := be_encode 4 11 ++ be_encode 2 1 ++ text "hello".
Definition peer : sockaddr_in := mkSockaddr 9527 16777343.
Definition net_udp : sim :=
  Sim (λ _, []) [] (λ _, []) [] (λ _, true) 0 [] [(dgram, peer)] [].
Lemma udp_read_decodes_witness :
  ∃ w2, UDPSocket_exec_read (mkUDPSocket 4 3 None) net_udp =
    Ok ((11, Some (mkUDPPacket 4 peer 1 (text "hello"))), w2).
Proof.
  exact (udp_read_decodes (W := sim) (mkUDPSocket 4 3 None) net_udp (Some (dgram, peer))
    (sys_recvfrom 4 20480 net_udp).2 eq_refl ltac:(by vm_compute)).
Defined.

(** ** Connections *)
Definition fresh5 : Socket := mkSocket 5 3 None SocketInput_new SocketOutput_new.
Definition fresh_holds : socket_holds fresh5 [] [] := socket_new_holds.

Lemma send_packet_appends_frame_witness :
  ∃ s', Connector_send_packet 1 (PCS_Ping hello) (mkConnector (Some fresh5))
      = Ok (mkConnector (Some s')) ∧
    socket_holds s' [] (frame 1 (packet_bytes (PCS_Ping hello))) ∧ socket_fd s' = 5.
Proof.
  exact (send_packet_appends_frame (W := sim) fresh5 [] [] 1 (PCS_Ping hello) fresh_holds
    ltac:(by vm_compute) ltac:(by vm_compute)).
Defined.

(** A connection that received a ping and the beginning of something else. *)
Definition got_ping : list byte := frame 1 (packet_bytes (PCS_Ping hello)) ++ text "x".
Definition got5 : Socket :=
  mkSocket 5 3 None
    (mkSocketInput (vals got_ping ++ zeros 2) 16 SOCKET_INPUT_MAXSIZE 0 14) SocketOutput_new.
Lemma got_holds : socket_holds got5 got_ping [].
Proof.
  split; [split; [constructor; vm_compute; intuition congruence|by vm_compute]|].
  split; [apply output_new_holds|done].
Qed.

Lemma exec_parse_refines_frames_witness :
  ∃ s' w', Connector_exec_parse (mkConnector (Some got5)) (net []) = Ok (mkConnector (Some s'), w') ∧
    socket_holds s' (text "x") (reply 1) ∧ socket_fd s' = 5.
Proof. exact (exec_parse_refines_frames got5 got_ping [] (net []) got_holds). Defined.

Lemma ping_round_trip_witness :
  ∃ sc' ss' w' payload m,
    Connector_send_packet CS_PING (PCS_Ping hello) (mkConnector (Some fresh5))
      = Ok (mkConnector (Some sc')) ∧
    socket_holds sc' [] (frame CS_PING (packet_bytes (PCS_Ping hello))) ∧
    Connector_exec_parse (mkConnector (Some got5)) (net []) = Ok (mkConnector (Some ss'), w') ∧
    socket_holds ss' (text "x") (frame SC_RET_PING payload) ∧
    parse_frame (frame SC_RET_PING payload) = Frame SC_RET_PING payload [] ∧
    msg_ParseFromArray (PSC_RetPing SC_RetPing_new) payload = (true, PSC_RetPing m) ∧
    ret_param m = text "received your message ##new message##".
Proof.
  exact (ping_round_trip fresh5 got5 hello (text "x") (net []) fresh_holds got_holds
    ltac:(by vm_compute) eq_refl eq_refl eq_refl).
Defined.

(** ** Threads *)
(** A thread which serves one fresh connection, of descriptor 5. *)
Definition thread5 (s : Socket) : ConnectorThread Socket :=
  mkConnectorThread {[5 := mkConnector (Some s)]} (Some 3) true false.
Lemma thread5_served s qi qo :
  socket_fd s = 5 → socket_holds s qi qo → served (W := sim) (thread5 s) 5 s qi qo.
Proof. intros Hfd Hs. split; [apply lookup_singleton_eq|]. by split. Qed.
Lemma thread5_wf : thread_wf (W := sim) (thread5 fresh5).
Proof.
  intros fd c Hc. cbn [connectors_ thread5] in Hc. apply lookup_singleton_Some in Hc as [<- <-].
  exists fresh5, [], []. split; [done|]. split; [done|]. exact fresh_holds.
Qed.


(** A connection with five zero bytes to send. *)
Definition sending5 : Socket :=
  mkSocket 5 3 None SocketInput_new (so_set_tail SocketOutput_new 5).
Lemma sending_holds : socket_holds sending5 [] (replicate 5 Byte.x00).
Proof.
  split; [apply input_new_holds|]. split; [|done].
  split; [constructor; vm_compute; intuition congruence|by vm_compute].
Qed.
Lemma exec_write_outcomes_witness :
  (∃ s' w', exec_write 5 5 (thread5 sending5) (net []) =
      Ok (set_connectors (thread5 sending5)
            (<[5 := mkConnector (Some s')]> (connectors_ (thread5 sending5))), w') ∧
    sent w' 5 = replicate 5 Byte.x00 ∧ socket_fd s' = 5 ∧ socket_holds s' [] []) ∨
  (∃ bs w0 w1, sys_send 5 bs w0 = (None, w1) ∧
    closed_for_error (thread5 sending5) 5 w1 (exec_write 5 5 (thread5 sending5) (net []))).
Proof.
  exact (exec_write_outcomes 5 (thread5 sending5) 5 sending5 [] _ (net [])
    (thread5_served sending5 [] _ eq_refl sending_holds) ltac:(by vm_compute)).
Defined.

Lemma accept_registers_witness :
  ∃ s w', let t' := set_connectors (thread5 fresh5)
        (<[7 := mkConnector (Some s)]> (connectors_ (thread5 fresh5))) in
    accept_connector 7 (thread5 fresh5) (net []) = Ok (t', w') ∧ thread_wf t' ∧
    served (W := sim) (S := Socket) t' 7 s [] [].
Proof. exact (accept_registers (thread5 fresh5) 7 (net []) thread5_wf). Defined.

(** Fuel for the longest send queue there can be; it is never unfolded. *)
Definition much_fuel : nat := Z.to_nat INT_MAX.
Lemma much_fuel_enough : INT_MAX ≤ Z.of_nat much_fuel.
Proof. unfold much_fuel. rewrite Z2Nat.id; unfold INT_MAX; lia. Qed.
#[local] Opaque much_fuel.

Lemma event_keeps_invariant_witness :
  (∃ t' w', on_event much_fuel (mkEvent EPOLLIN 5) (thread5 fresh5) (net (text "hi")) = Ok (t', w') ∧
    thread_wf t') ∨
  event_fault (mkEvent EPOLLIN 5) (thread5 fresh5) (net (text "hi"))
    (on_event much_fuel (mkEvent EPOLLIN 5) (thread5 fresh5) (net (text "hi"))).
Proof.
  exact (event_keeps_invariant much_fuel (mkEvent EPOLLIN 5) (thread5 fresh5) (net (text "hi"))
    thread5_wf much_fuel_enough).
Defined.


(** ** The manager *)
#[local] Instance sim_manager : ManagerEnv sim := {|
  sys_nprocs _ := 2;
  FLAGS_thread_num_ratio _ := double_of_int 1;
  set_flagfile _ w := w;
|}.

Lemma manager_starts_threads_witness :
  ∃ m w', ConnectorManager_init (S := Socket) invalid_index (net []) = Ok ((m, 2), w') ∧
    thread_num_ m = 2 ∧ zlen (connector_threads_ m) = 2 ∧
    (0 < 2 → manager_wf (W := sim) m) ∧
    Forall (λ t, ct_running t = true) (connector_threads_ m).
Proof.
  exact (manager_starts_threads (S := Socket) 2 (net []) eq_refl ltac:(lia)).
Defined.

Definition thread0 : ConnectorThread Socket := mkConnectorThread ∅ (Some 3) true false.
Definition manager2 : ConnectorManager Socket := mkConnectorManager [thread0; thread0] 2.
Lemma manager2_wf : manager_wf (W := sim) manager2.
Proof.
  split; [done|]. split; [done|]. intros i t Et.
  assert (t = thread0) as -> by (destruct i as [|[|i]]; simpl in Et; by simplify_eq).
  split; [intros fd c Hc; simpl in Hc; by rewrite lookup_empty in Hc|]. split; [by eexists|].
  intros fd c Hc. simpl in Hc. by rewrite lookup_empty in Hc.
Qed.
Lemma manager_accept_affinity_witness :
  ∃ m' w' t s, ConnectorManager_accept_connector 7 manager2 (net []) = Ok (m', w') ∧
    manager_wf (W := sim) m' ∧ connector_threads_ m' !! 1%nat = Some t ∧
    served (W := sim) t 7 s [] [] ∧
    ∀ i, i ≠ 1%nat → connector_threads_ m' !! i = connector_threads_ manager2 !! i.
Proof. exact (manager_accept_affinity manager2 7 (net []) manager2_wf ltac:(lia)). Defined.

Lemma no_thread_divides_by_zero_witness :
  ConnectorManager_accept_connector (S := Socket) 7 (mkConnectorManager [] 0) (net [])
    = Undefined DivideByZero.
Proof. exact (no_thread_divides_by_zero (mkConnectorManager [] 0) 7 (net []) eq_refl). Defined.

(** ** The server *)
Definition in5 : epoll_event := mkEvent (Z.lor EPOLLIN EPOLLOUT) 5.
Definition out5 : epoll_event := mkEvent EPOLLOUT 5.
Lemma thread5_fresh : fresh_connection (thread5 fresh5) 5.
Proof. exists 3, None. apply lookup_singleton_eq. Qed.
Definition ping_bytes : list byte := frame CS_PING (text "payload").

(** The world after the read of a ping with four bytes behind it: 15 bytes, the
    number of those left, and 15 bytes again. *)
Definition ping_net : sim := net (ping_bytes ++ text "more").
Definition ping_read : sim := (sim_recv 5 15 (sim_fionread 5 (sim_recv 5 15 ping_net).2).2).2.
Lemma ping_is_answered_witness :
  ∃ s1 w2, let t1 := set_connectors (thread5 fresh5)
        (<[5 := mkConnector (Some s1)]> (connectors_ (thread5 fresh5))) in
    on_event 200 in5 (thread5 fresh5) ping_net = Ok (t1, w2) ∧
    served (W := sim) t1 5 s1 (text "more") (frame SC_RET_PING (packet_bytes (PSC_RetPing ping_reply))) ∧
    ∀ w3, (∃ s2 w4, let t2 := set_connectors (thread5 fresh5)
        (<[5 := mkConnector (Some s2)]> (connectors_ (thread5 fresh5))) in
        on_event 200 out5 t1 w3 = Ok (t2, w4) ∧
        sent w4 5 = sent w3 5 ++ frame SC_RET_PING (packet_bytes (PSC_RetPing ping_reply)) ∧
        served (W := sim) t2 5 s2 (text "more") []) ∨
      (∃ bs w4 w5, sys_send 5 bs w4 = (None, w5) ∧
        closed_for_error t1 5 w5 (on_event 200 out5 t1 w3)).
Proof.
  destruct (ping_is_answered 200 in5 (thread5 fresh5) 5 (text "payload") (text "more") 17
    ping_net ping_read thread5_fresh ltac:(by split) ltac:(by vm_compute) ltac:(by vm_compute)
    ltac:(by vm_compute) ltac:(lia)) as (s1 & w2 & E & Hs & _ & _ & Hout).
  exists s1, w2. split; [exact E|]. split; [exact Hs|]. intros w3. exact (Hout out5 w3 ltac:(by split)).
Defined.

Definition long_ping : list byte := frame CS_PING (replicate 40 "a"%byte).
Lemma long_first_frame_undefined_witness :
  on_event 1 in5 (thread5 fresh5) (net (long_ping ++ [])) = Undefined UninitRead.
Proof.
  exact (long_first_frame_undefined 1 in5 (thread5 fresh5) 5 CS_PING (replicate 40 "a"%byte) []
    (net (long_ping ++ [])) thread5_fresh (net_calm (long_ping ++ []) ltac:(by vm_compute))
    ltac:(by split) eq_refl eq_refl ltac:(by vm_compute) ltac:(by vm_compute)).
Defined.

(** ** The pool *)
(** A task was pushed, and the only worker is running it. *)
Definition pool1 : ThreadPool nat := ThreadPool_push 7%nat (ThreadPool_new 1).
Definition pool1_running : ThreadPool nat := default pool1 (run_workers [0; 0]%nat pool1).
Lemma pool1_reachable : rtc pool_step (ThreadPool_new 1) pool1_running.
Proof.
  eapply rtc_l; [apply (step_push 7%nat)|].
  eapply rtc_l; [apply (step_worker 0); reflexivity|].
  eapply rtc_l; [apply (step_worker 0); reflexivity|]. apply rtc_refl.
Qed.

Lemma pool_runs_each_task_once_witness :
  pushed pool1_running = [7%nat] ∧ started pool1_running = [7%nat] ∧
  [7%nat] ≡ₚ finished pool1_running ++ running (thread_list_ pool1_running).
Proof.
  destruct (pool_runs_each_task_once 1 pool1_running pool1_reachable) as [_ Hp].
  split; [reflexivity|]. split; [reflexivity|exact Hp].
Defined.

Lemma pool_stop_terminates_witness :
  (length [0; 0]%nat ≤ 3 * length (thread_list_ (ThreadPool_stop pool1_running)))%nat.
Proof.
  exact (proj1 (pool_stop_terminates (ThreadPool_stop pool1_running) [0; 0]%nat
    (default pool1 (run_workers [0; 0]%nat (ThreadPool_stop pool1_running))) eq_refl eq_refl)).
Defined.

(** A second task is pushed before the stop; it stays in the queue. *)
Definition pool1_done : ThreadPool nat :=
  default pool1 (run_workers [0; 0]%nat (ThreadPool_stop (ThreadPool_push 8%nat pool1_running))).
Lemma pool1_done_reachable : rtc pool_step (ThreadPool_new 1) pool1_done.
Proof.
  apply (rtc_trans _ pool1_running); [apply pool1_reachable|].
  eapply rtc_l; [apply (step_push 8%nat)|]. eapply rtc_l; [apply step_stop|].
  eapply rtc_l; [apply (step_worker 0); reflexivity|].
  eapply rtc_l; [apply (step_worker 0); reflexivity|]. apply rtc_refl.
Qed.
Lemma pool_stop_drops_queue_witness :
  q_ pool1_done = [8%nat] ∧ finished pool1_done ≡ₚ started pool1_done ∧
  ∀ i, worker_step i pool1_done = None.
Proof.
  destruct (pool_stop_drops_queue 1 pool1_done pool1_done_reachable eq_refl) as (Hf & _ & Hs).
  split; [reflexivity|]. by split.
Defined.

(** ** The interleaving *)
Lemma map_owns_open_descriptors_witness :
  let s := race_again (PParsing 5 (Some 0%nat) 1) in
  5 ∈ open_fds s ∧ ∃ c, objects s !! 1%nat = Some c ∧ obj_fd c = 5.
Proof.
  exact (proj1 (proj2 (map_owns_open_descriptors _ race_run)) 5 1%nat eq_refl ltac:(done)).
Defined.

(** ** The services *)
(** A connection of descriptor 7 is waiting to be accepted. *)
#[local] Instance sim_listen : ListenApi sim := {|
  sys_socket _ _ _ w := (4, w);
  sys_bind _ _ w := (0, w);
  sys_listen _ _ w := (0, w);
  sys_accept _ w := (Some (7, peer), w);
  sys_getfl _ w := (2, w);
  sys_setfl _ _ w := (0, w);
  FLAGS_port _ := 9527;
  FLAGS_communication_type _ := text "SOCK_RAW";
|}.

Lemma accept_connection_outcomes_witness :
  ∃ m' w' t s, accept_connection ListenService_new (mkStatics (Some manager2) 2) (net []) =
      Ok ((true, mkStatics (Some m') 2), w') ∧ manager_wf (W := sim) m' ∧
    connector_threads_ m' !! 1%nat = Some t ∧ served (W := sim) t 7 s [] [].
Proof.
  pose proof (accept_connection_outcomes ListenService_new manager2 2 (net []) manager2_wf) as H.
  cbn [sys_accept sys_getfl sys_setfl sim_listen fst snd] in H.
  destruct (H ltac:(done)) as (w2 & Hw).
  change (0 =? invalid_id) with false in Hw. cbn match in Hw. exact Hw.
Defined.

Lemma main_module_unknown_type_witness :
  main_module_run (S := Socket) (mkStatics None invalid_index) (net []) =
    Ok ((None, mkStatics None invalid_index), net []).
Proof.
  refine (proj2 (proj2 (main_module_unknown_type (W := sim) (S := Socket)
    (mkStatics None invalid_index) (net []))) _ _); vm_compute; discriminate.
Defined.

Definition udp_service : UDPListenService :=
  mkUDPListenService (mkListenService 4 3 false true) (Some (mkUDPSocket 4 3 None))
    (Some (ThreadPool_new 2)).
Lemma udp_datagram_is_queued_and_answered_witness :
  ∃ w2, UDP_on_event (mkEvent EPOLLIN 4) udp_service net_udp =
    Ok (mkUDPListenService (udp_base udp_service) (Some (mkUDPSocket 4 3 None))
      (Some (ThreadPool_push (mkUDPPacket 4 peer 1 (text "hello")) (ThreadPool_new 2))), w2).
Proof.
  exact (proj1 (udp_datagram_is_queued_and_answered (W := sim) (mkEvent EPOLLIN 4)
    udp_service (mkUDPSocket 4 3 None) (ThreadPool_new 2) dgram peer net_udp
    (sys_recvfrom 4 20480 net_udp).2 eq_refl eq_refl eq_refl eq_refl
    ltac:(by vm_compute) eq_refl)).
Defined.
